(* ===== verification/_CoqProject ===== *)
-Q . S2P
Prelude.v
Bits.v
Lists.v
Strings.v
Timer.v
Itimer.v
Rtc.v
Clock.v
Cred.v
Pipe.v
Console.v
File.v
Mm.v
Pages.v
Kmalloc.v
Bio.v
Log.v
V6.v
V6trunc.v
V6dir.v
Pagecache.v
Vfs.v
Fileops.v
Vm.v
Mmap.v
Syscall.v
Fileio.v
Signal.v
Proc.v
Lifecycle.v
