(* ===== verification/Prelude.v ===== *)
(** * A verification library for rpi-os

    rpi-os is a small Unix-like kernel for the Raspberry Pi 3 (AArch64), with
    musl, dash and coreutils as its user land.  This library models the
    kernel (src/kern and src/inc) and proves what makes its parts correct.

    ** The program and its parts

    From the bottom up: physical pages (kern/mm.c) and page tables (kern/vm.c)
    with the memory mappings of processes (kern/mmap.c);
    the SD card (kern/emmc.c, kern/dev.c) behind a buffer cache (kern/bio.c)
    behind a write-ahead log (kern/log.c) behind the V6 file system
    (kern/v6.c) behind the inode cache and the path walk (kern/vfs.c) and the
    page cache (kern/pagecache.c); the tick interrupt (kern/clock.c) that drives a timer wheel
    (kern/timer.c), which carries the interval timers of processes
    (kern/itimer.c); the real-time clock (kern/rtc.c, kern/ds3231.c); processes
    with their scheduler, sleep queues and signals (kern/proc.c,
    kern/signal.c), which pipes (kern/pipe.c), the buffer cache and the log
    sleep on; credentials (kern/sysproc.c, kern/vfs.c, kern/file.c).  Lists
    (inc/list.h) and bit searches (inc/find_bits.h, inc/linux/ilog2.h,
    kern/find_bits.c) serve all of them.

    ** The files

    - [Prelude] (this file): machine integers with their wrap-around, bytes in
      memory order, the monad [M] of kernel code ([Ret], [Panic] for a panic or
      a failed assertion, [Block] for a process that has to wait), its
      notations in [kern_scope], its lemmas and tactics.
    - [Bits]: inc/find_bits.h, inc/linux/ilog2.h, kern/find_bits.c.
    - [Lists]: inc/list.h over a store with one map per field; [dll] is the
      abstraction, and [Timer], [Bio] and [Proc] use lists where the code
      has [struct list_head], as the theorems of [Lists] allow.
    - [Strings]: the memory and string functions of inc/string.h.
    - [Timer], [Itimer], [Clock], [Rtc]: kern/timer.c with
      inc/linux/time.h, kern/itimer.c, kern/clock.c, kern/rtc.c with
      kern/ds3231.c.  [Itimer] and [Clock] call the wheel of [Timer].
    - [Cred]: the id system calls of kern/sysproc.c, [capable],
      [generic_permission], and the decisions of [faccess] and [filechown].
    - [Pipe]: kern/pipe.c in atomic segments, with a step relation for any
      interleaving of readers and writers.
    - [Console]: kern/console.c, the line discipline in atomic segments like
      [Pipe], and the formatter behind every message.
    - [File]: the file table and descriptors of kern/file.c and kern/sysfile.c,
      with [pipealloc] and what fork, exit and execve do to descriptors.
    - [Mm]: kern/mm.c, the free list threaded through memory; [Pages]: words
      and pages of that memory, for its users.
    - [Kmalloc]: kern/kmalloc.c, the allocator of small objects within
      pages of [Mm].
    - [Bio]: kern/bio.c with [dev_start], [devrw] and the addressing of
      kern/emmc.c; the card is a map of sectors and a history of writes.
    - [Log]: kern/log.c above the contract of [Bio], with crashes between any
      two sector writes.
    - [V6]: block allocation, inodes, the block map, reading and writing of
      kern/v6.c, above blocks as the cache shows them, with the panics of a full
      log and of a cache without buffers ([limits]).  [V6trunc]:
      truncation, with the pointer it keeps into a released buffer ([recycled]),
      and inode allocation.  [V6dir]: the directories of kern/v6.c
      and [generic_dirlink] above them.
    - [Vfs]: the inode cache, sleep locks, mount table, path walk and [create]
      of kern/vfs.c, kern/sleeplock.c and kern/vfsmount.c, against the class
      [FileSystem] of what a file system offers.
    - [Pagecache]: kern/pagecache.c against the class [Reader] of what it calls.
    - [Fileops]: the calls on paths of kern/file.c and kern/sysfile.c above
      [Vfs], with a small logic, [follows], that tracks the locks and log
      transactions a call holds.
    - [Vm]: kern/vm.c over the memory of [Mm]; [mmu_pte], the architecture's
      table walk, is the reference.
    - [Mmap]: kern/mmap.c with [sys_mmap] and the page-fault handler of
      kern/trap.c, over the heap of [Kmalloc] and the tables of [Vm] in one
      memory, against the class [Backing] of what it calls of files.
    - [Syscall]: the argument checks of kern/syscall.c.
    - [Fileio]: reads, writes and seeks of an open file of kern/file.c, above
      [Pagecache] and against the class [Inodes] of what the inodes offer.
    - [Signal]: kern/signal.c.  [Proc]: scheduler, sleep, wakeup, signals and
      process groups of kern/proc.c.  [Lifecycle]: creating and ending processes
      in kern/proc.c ([proc_alloc], the first processes, fork, wait4, exit), above
      [Proc] and against the class [Kernel] of what they call; [total] turns any
      kernel into one whose functions return, for the invariants.

    ** What the theorems show

    - Storage: a transaction of the log is atomic under a crash at any sector
      write ([Log.commit_crash_safe]); calls that stay within their reservation
      never overflow it ([Log.reservation_safe]), but the area mkfs makes is
      smaller than what is reserved ([Log.reservation_exceeds_area]); what is
      written through the buffer cache is on the card and what is read is what
      was written ([Bio.cache_write_through]); files are byte arrays under
      [readi] and [writei] ([V6.writei_readi], [V6.readi_writei_errors]), blocks
      are allocated once ([V6.balloc_bfree_exact]) and truncation gives back
      exactly those of the file ([V6trunc.itrunc_exact]), unless the buffer of
      its double indirect block is recycled ([V6trunc.itrunc_recycled]), inodes survive a trip
      through their disk form ([V6.iupdate_ilock]); a directory is a finite
      map from names to inodes ([V6dir.directory_is_map]); a path is cut into
      its components in a bounded number of steps ([Vfs.skipelem_components])
      and leads to the inode its entries name, with every lock and reference
      accounted for ([Vfs.namei_resolves]); eleven calls on paths give back every
      lock and end every transaction they take, but for an unlink that
      returns -EPERM and a mknod of an unknown type ([Fileops.calls_balanced];
      rename, which has more such paths, is not covered); the page cache shows the bytes of the files,
      as long as no write crosses a page ([Pagecache.page_cache_transparent]).
    - Memory: a page is never given out twice ([Mm.kalloc_exclusive]), nor is a
      part of one ([Kmalloc.kmalloc_exclusive], [Kmalloc.kmfree_coalesces]);
      the page-table operations have the intended effect on the architecture's
      view of an address space, page by page and byte by byte
      ([Vm.uvm_map_correct], [Vm.uvm_alloc_correct], [Vm.copyout_correct],
      [Vm.uvm_unmap_correct]), and shrinking a process panics
      ([Vm.uvm_dealloc_panics]); an anonymous mapping gets a range that was
      free, reads as zeros and changes nothing else ([Mmap.mmap_anonymous]),
      and unmapping removes exactly the pages of its region
      ([Mmap.munmap_exact], [Mmap.free_mmap_list_exact]), unless they are
      inside it ([Mmap.munmap_inside]).
    - Processes: every process is in exactly the queue its state says, in every
      reachable state ([Proc.sched_invariant]); the scheduler is first come first
      served ([Proc.scheduling_fifo]); processes form a forest, in which nobody is
      lost, in every sequence of fork, exit, wait4 and scheduling
      ([Lifecycle.family_invariant]); fork makes a process that inherits what it
      should, or undoes itself ([Lifecycle.fork_exact]); the status of a process that
      exits is what its parent gets ([Lifecycle.exit_status_delivered]), and
      where this fails ([Lifecycle.exit_orphans_fault],
      [Lifecycle.wnohang_reaps_living]); a wakeup wakes exactly the sleepers of its
      channel ([Proc.wakeup_exact]); signals ([Proc.kill_outcome],
      [Proc.signal_frame_roundtrip]); pipes deliver bytes in order whatever the
      interleaving ([Pipe.pipe_fifo]); the console is a queue of committed
      input and a line being edited ([Console.console_refines]).
    - Open files: the count of every file is the number of descriptors that
      refer to it plus what failing calls lost, in every reachable state
      ([File.reference_counts_exact], [File.close_exact]); an open regular file
      is an array of bytes with a position under any sequence of reads, writes
      and seeks ([Fileio.file_io_refines]); user pointers are
      checked exactly, but for wrap-around ([Syscall.in_user_exact]).
    - Time: every timer is called at its tick, or at once when it is overdue,
      with timer functions that behave ([Timer.run_timer_list_fires], whose
      instance for the real timer is [Itimer.real_callbacks];
      [Timer.timer_ops_correct], [Clock.clock_intr_correct]); calendar and clock
      chip round trips ([Rtc]).
    - Rights: what an unprivileged process can make of its ids
      ([Cred.unprivileged_ids_closed]) and where the code fails to enforce it
      ([Cred.setuid_unprotected], [Cred.faccess_grants_non_owner]).
    - Utilities: lists, bit searches, memory and string functions do what their
      names say ([Lists], [Bits], [Strings]); printed numbers read back
      ([Console.printint_roundtrip]).

    ** Bounds and fuel

    Integers have the widths of the source.  Loops are structural on the data
    they walk, or take a number of rounds computed from their arguments that
    is shown to be enough by the theorem about them: [readi], [writei]
    and the copies of [Vm] take one round per block or page plus two; the free
    list is walked for at most the number of frames; the timer wheel runs one
    round per tick it is behind.  A loop that may run for ever in the source is
    said to do so by a theorem or is a step relation.  [Geometry] of [Bio] bounds
    the card at the 2^32 bytes beyond which the source's addresses wrap.

    ** Not modelled

    Device drivers that are only register protocols (kern/emmc.c but for its
    addressing, kern/sdhost.c, kern/uart.c, kern/mbox.c, kern/i2c.c,
    kern/irq.c, kern/random.c): their behaviour is that of hardware that the
    repository does not describe; where a modelled part needs one it is an
    interface.  Assembly and the generated page table kern/kpgdir.c.  The
    second file system kern/ext2.c, kern/exec.c, [mremap] of kern/mmap.c
    (which the system call table leaves out), and open, stat, getcwd, mount and umount of
    kern/file.c and kern/sysfile.c
    are open: they combine the parts above.  User land (usr, dyn,
    coreutils-8.32, dash-0.5.11.5, libc) runs above the kernel and most of it
    is third-party code.  *)

From stdpp Require Import base list gmap.
From Stdlib Require Import ZArith Lia Bool.

#[global] Open Scope Z_scope.

(** * Machine integers

    A C integer of width [w] is a [Z]; [wrap] and [swrap] are the conversions
    to the unsigned and to the signed type of that width (two's complement,
    as every compiler for AArch64 implements them). *)

Definition wrap (w x : Z) : Z := x mod 2 ^ w.

Definition swrap (w x : Z) : Z := (x + 2 ^ (w - 1)) mod 2 ^ w - 2 ^ (w - 1).

Definition u8 : Z -> Z := wrap 8.
Definition u16 : Z -> Z := wrap 16.
Definition u32 : Z -> Z := wrap 32.
Definition u64 : Z -> Z := wrap 64.
Definition s32 : Z -> Z := swrap 32.
Definition s64 : Z -> Z := swrap 64.

(** Bitwise complement at width [w]. *)
Definition not_w (w x : Z) : Z := Z.lxor (2 ^ w - 1) x.

(** C truth values. *)
Definition truthy (x : Z) : bool := negb (x =? 0).

Definition b2z (b : bool) : Z := if b then 1 else 0.

Lemma wrap_id w x : 0 <= x < 2 ^ w -> wrap w x = x.
Proof. intros. by apply Z.mod_small. Qed.

Lemma u8_id x : 0 <= x < 2 ^ 8 -> u8 x = x.
Proof. apply wrap_id. Qed.

Lemma u16_id x : 0 <= x < 2 ^ 16 -> u16 x = x.
Proof. apply wrap_id. Qed.

Lemma u32_id x : 0 <= x < 2 ^ 32 -> u32 x = x.
Proof. apply wrap_id. Qed.

Lemma u64_id x : 0 <= x < 2 ^ 64 -> u64 x = x.
Proof. apply wrap_id. Qed.

Lemma swrap_id w x : 0 < w -> - 2 ^ (w - 1) <= x < 2 ^ (w - 1) -> swrap w x = x.
Proof.
  intros Hw Hx. unfold swrap.
  assert (2 ^ w = 2 * 2 ^ (w - 1)) by (rewrite <- Z.pow_succ_r by lia; f_equal; lia).
  rewrite Z.mod_small; lia.
Qed.

Lemma s32_id x : - 2 ^ 31 <= x < 2 ^ 31 -> s32 x = x.
Proof. intros. apply swrap_id; lia. Qed.

Lemma s64_id x : - 2 ^ 63 <= x < 2 ^ 63 -> s64 x = x.
Proof. intros. apply swrap_id; lia. Qed.

Lemma wrap_range w x : 0 <= w -> 0 <= wrap w x < 2 ^ w.
Proof. intros. apply Z.mod_pos_bound, Z.pow_pos_nonneg; lia. Qed.

(** * Lists *)

Lemma Forall2_impl_in {A B} (P Q : A -> B -> Prop) l k :
  Forall2 P l k -> (forall x y, x ∈ l -> P x y -> Q x y) -> Forall2 Q l k.
Proof.
  induction 1 as [|x y l k HP _ IH]; intros H; constructor.
  - apply H; [by left|done].
  - apply IH. intros x' y' Hx. apply H. by right.
Qed.

(** Dropping the first of distinct elements. *)
Lemma filter_head {A} `{EqDecision A} (x : A) l : NoDup (x :: l) -> filter (.≠ x) (x :: l) = l.
Proof.
  intros [Hx _]%NoDup_cons. rewrite filter_cons_False by auto.
  induction l as [|y l IH]; [done|]. rewrite filter_cons_True by set_solver. f_equal. apply IH. set_solver.
Qed.

(** * Error numbers (inc/linux/errno.h) *)

Definition EPERM : Z := 1.
Definition ENOENT : Z := 2.
Definition ESRCH : Z := 3.
Definition EINTR : Z := 4.
Definition EIO : Z := 5.
Definition EBADF : Z := 9.
Definition ECHILD : Z := 10.
Definition EAGAIN : Z := 11.
Definition ENOMEM : Z := 12.
Definition EACCES : Z := 13.
Definition EFAULT : Z := 14.
Definition EEXIST : Z := 17.
Definition EXDEV : Z := 18.
Definition ENODEV : Z := 19.
Definition ENOTDIR : Z := 20.
Definition EISDIR : Z := 21.
Definition EINVAL : Z := 22.
Definition ENFILE : Z := 23.
Definition EMFILE : Z := 24.
Definition ENOSPC : Z := 28.
Definition ESPIPE : Z := 29.
Definition EDQUOT : Z := 122.

(** * Memory as bytes

    A C object in a byte array: little-endian loads and stores of [k] bytes. *)

Fixpoint le_bytes (k : nat) (v : Z) : list Z :=
  match k with O => [] | S k' => v mod 256 :: le_bytes k' (v / 256) end.

Fixpoint of_le (l : list Z) : Z :=
  match l with [] => 0 | b :: l' => b + 256 * of_le l' end.

Definition ld (k : nat) (d : list Z) (off : nat) : Z := of_le (take k (drop off d)).

Definition st (k : nat) (d : list Z) (off : nat) (v : Z) : list Z :=
  take off d ++ le_bytes k v ++ drop (off + k) d.

Lemma length_le_bytes k v : length (le_bytes k v) = k.
Proof. revert v. induction k as [|k IH]; intros v; cbn; [done|]. by rewrite IH. Qed.

Lemma of_le_bytes k v : of_le (le_bytes k v) = v mod 2 ^ (8 * Z.of_nat k).
Proof.
  revert v. induction k as [|k IH]; intros v; cbn [le_bytes of_le]; [by rewrite Z.mod_1_r|].
  rewrite IH. replace (2 ^ (8 * Z.of_nat (S k))) with (256 * 2 ^ (8 * Z.of_nat k)).
  - rewrite Z.rem_mul_r by lia. done.
  - replace (8 * Z.of_nat (S k)) with (8 + 8 * Z.of_nat k) by lia. by rewrite Z.pow_add_r by lia.
Qed.

Lemma length_st k d off v : (off + k <= length d)%nat -> length (st k d off v) = length d.
Proof. intros. unfold st. rewrite !length_app, length_take, length_drop, length_le_bytes. lia. Qed.

Lemma ld_st_same k d off v :
  (off + k <= length d)%nat -> ld k (st k d off v) off = wrap (8 * Z.of_nat k) v.
Proof.
  intros H. unfold ld, st. rewrite drop_app_length' by (rewrite length_take; lia).
  rewrite take_app_length' by (by rewrite length_le_bytes). apply of_le_bytes.
Qed.

Lemma ld_st_before k d off v k' off' :
  (off + k <= length d)%nat -> (off' + k' <= off)%nat -> ld k' (st k d off v) off' = ld k' d off'.
Proof.
  intros H H'. unfold ld, st. f_equal. rewrite drop_app_le by (rewrite length_take; lia).
  rewrite take_app_le by (rewrite length_drop, length_take; lia).
  rewrite <- (take_drop off d) at 2. rewrite drop_app_le by (rewrite length_take; lia).
  by rewrite take_app_le by (rewrite length_drop, length_take; lia).
Qed.

Lemma ld_st_after k d off v k' off' :
  (off + k <= length d)%nat -> (off + k <= off')%nat -> ld k' (st k d off v) off' = ld k' d off'.
Proof.
  intros H H'. unfold ld, st. do 2 f_equal.
  rewrite drop_app_ge by (rewrite length_take; lia). rewrite length_take_le by lia.
  rewrite drop_app_ge by (rewrite length_le_bytes; lia). rewrite length_le_bytes, drop_drop. f_equal. lia.
Qed.

(** A load sees only the bytes it reads. *)
Lemma ld_take k d off n : (off + k <= n)%nat -> ld k (take n d) off = ld k d off.
Proof.
  intros H. unfold ld. f_equal. rewrite (skipn_firstn_comm off n d), take_take. f_equal. lia.
Qed.

(** * Outcomes and the state monad of kernel code

    [Ret a s]: the function returns [a] in state [s].
    [Panic s]: [panic()] was called or an [assert] failed; the CPU stops.
    [Block s]: the calling process gives up the CPU ([sleep]) or spins on a
    lock that is taken; control does not come back in this execution.
    [NoFuel]: the bound given to a loop of the model was too small. *)

Inductive outcome (S A : Type) : Type :=
| Ret (a : A) (s : S)
| Panic (s : S)
| Block (s : S)
| NoFuel.
Arguments Ret {S A} a s.
Arguments Panic {S A} s.
Arguments Block {S A} s.
Arguments NoFuel {S A}.

Definition M (S A : Type) : Type := S -> outcome S A.

Section Monad.
Context {S : Type}.

Definition ret {A} (a : A) : M S A := fun s => Ret a s.

Definition bind {A B} (m : M S A) (k : A -> M S B) : M S B :=
  fun s => match m s with
           | Ret a s' => k a s'
           | Panic s' => Panic s'
           | Block s' => Block s'
           | NoFuel => NoFuel
           end.

Definition panic {A} : M S A := fun s => Panic s.
Definition block {A} : M S A := fun s => Block s.
Definition nofuel {A} : M S A := fun _ => NoFuel.
Definition gets {A} (f : S -> A) : M S A := fun s => Ret (f s) s.
Definition modify (f : S -> S) : M S unit := fun s => Ret tt (f s).

(** [assert(b)] of inc/debug.h: a false condition panics. *)
Definition assert (b : bool) : M S unit := if b then ret tt else panic.

Definition when (b : bool) (m : M S unit) : M S unit := if b then m else ret tt.

(** A [for] loop over the indices [l] whose body may [return] from the
    function ([Some r]) or go on ([None]). *)
Fixpoint loop {I R} (l : list I) (body : I -> M S (option R)) : M S (option R) :=
  match l with
  | [] => ret None
  | i :: l' => bind (body i) (fun r => match r with
                                       | Some v => ret (Some v)
                                       | None => loop l' body
                                       end)
  end.

(** A [for] loop over the indices [l] without early exit. *)
Fixpoint for_each {I} (l : list I) (body : I -> M S unit) : M S unit :=
  match l with
  | [] => ret tt
  | i :: l' => bind (body i) (fun _ => for_each l' body)
  end.

(** Total-correctness weakest precondition: [m] returns, and returns a value
    and a state in [Q]. *)
Definition wp {A} (m : M S A) (Q : A -> S -> Prop) (s : S) : Prop :=
  match m s with
  | Ret a s' => Q a s'
  | _ => False
  end.

Lemma wp_ret {A} (a : A) Q s : Q a s -> wp (ret a) Q s.
Proof. done. Qed.

Lemma wp_gets {A} (f : S -> A) Q s : Q (f s) s -> wp (gets f) Q s.
Proof. done. Qed.

Lemma wp_modify (f : S -> S) Q s : Q tt (f s) -> wp (modify f) Q s.
Proof. done. Qed.

Lemma wp_bind {A B} (m : M S A) (k : A -> M S B) Q s :
  wp m (fun a s' => wp (k a) Q s') s -> wp (bind m k) Q s.
Proof. unfold wp, bind. by destruct (m s). Qed.

Lemma wp_mono {A} (m : M S A) (Q Q' : A -> S -> Prop) s :
  wp m Q s -> (forall a s', Q a s' -> Q' a s') -> wp m Q' s.
Proof. unfold wp. destruct (m s); naive_solver. Qed.

Lemma wp_when b (m : M S unit) Q s :
  (b = true -> wp m Q s) -> (b = false -> Q tt s) -> wp (when b m) Q s.
Proof. destruct b; unfold when; [naive_solver|]. intros _ H. apply wp_ret; auto. Qed.

Lemma wp_assert b Q s : b = true -> Q tt s -> wp (assert b) Q s.
Proof. by intros ->. Qed.

Lemma wp_run {A} (m : M S A) Q s :
  wp m Q s <-> exists a s', m s = Ret a s' /\ Q a s'.
Proof. unfold wp. split; [destruct (m s) eqn:E; by eauto|]. by intros (a & s' & -> & H). Qed.

(** Loop rule with an invariant indexed by the indices still to come. *)
Lemma wp_for_each {I} (l : list I) (body : I -> M S unit) (Inv : list I -> S -> Prop) Q s :
  Inv l s ->
  (forall i l' s', Inv (i :: l') s' -> wp (body i) (fun _ s'' => Inv l' s'') s') ->
  (forall s', Inv [] s' -> Q tt s') ->
  wp (for_each l body) Q s.
Proof.
  intros HI Hb HQ. revert s HI. induction l as [|i l IH]; intros s HI; cbn.
  - apply wp_ret; auto.
  - apply wp_bind. eapply wp_mono; [by apply Hb|]. cbn. auto.
Qed.
End Monad.

(** Running the first operation of a sequence. *)
Lemma bind_run {S A B} (m : M S A) (k : A -> M S B) s a s' : m s = Ret a s' -> bind m k s = k a s'.
Proof. intros E. unfold bind. by rewrite E. Qed.

(** Running an operation of a component inside a larger state. *)
Definition zoom {S T A} (get : S -> T) (set : T -> S -> S) (m : M T A) : M S A :=
  fun s => match m (get s) with
           | Ret a t => Ret a (set t s)
           | Panic t => Panic (set t s)
           | Block t => Block (set t s)
           | NoFuel => NoFuel
           end.

(** Notation of kernel code, in a scope of its own. *)
Declare Scope kern_scope.
Delimit Scope kern_scope with kern.

Notation "'let*' x := m 'in' k" := (bind m (fun x => k))
  (at level 10, x pattern, k at level 200) : kern_scope.
Notation "m ;; k" := (bind m (fun _ => k))
  (at level 100, right associativity) : kern_scope.

#[global] Open Scope kern_scope.

(** * Automation *)

(** Running the first operation of a sequence, when it evaluates. *)
Ltac run_step := erewrite bind_run by reflexivity.

(** Arithmetic facts about the machine integers. *)
Create HintDb width.
#[export] Hint Rewrite u8_id u16_id u32_id u64_id s32_id s64_id using lia : width.
#[export] Hint Rewrite length_st length_le_bytes using lia : width.
Create HintDb kern.
#[export] Hint Resolve wp_ret wp_gets wp_modify wp_assert : kern.

(** Removing the conversions that change nothing. *)
Ltac unwrap := autorewrite with width.
