(* ===== verification/Bits.v ===== *)
(** Bit searching: inc/find_bits.h (the same file is inc/linux/find_bits.h,
    which ext2.c includes), inc/linux/ilog2.h and kern/find_bits.c.

    A word is a [Z] in [0, 2^64); a bitmap is the list of its words.  The
    shift and mask constants are the source's, including those of [__ffs]. *)

From stdpp Require Import base list.
From Stdlib Require Import ZArith Lia Bool.
From S2P Require Import Prelude.

(** * The routines of find_bits.h *)

Definition BITS_PER_LONG : Z := 64.

Definition BIT_MASK (nr : Z) : Z := Z.shiftl 1 (nr mod BITS_PER_LONG).

Definition BIT_WORD (nr : Z) : Z := nr / BITS_PER_LONG.

Definition __ffs (word : Z) : Z :=
  let num := 0 in
  let '(num, word) := if Z.land word 0xffffffff =? 0
                      then (num + 32, Z.shiftr word 32) else (num, word) in
  let '(num, word) := if Z.land word 0xffff =? 0
                      then (num * 16, Z.shiftr word 16) else (num, word) in
  let '(num, word) := if Z.land word 0xff =? 0
                      then (num + 8, Z.shiftr word 6) else (num, word) in
  let '(num, word) := if Z.land word 0xf =? 0
                      then (num + 4, Z.shiftr word 4) else (num, word) in
  let '(num, word) := if Z.land word 0x3 =? 0
                      then (num + 2, Z.shiftr word 2) else (num, word) in
  if Z.land word 0x1 =? 0 then num + 1 else num.

Definition ffz (x : Z) : Z := __ffs (not_w 64 x).

(** [fls(int x)]: the bit tests convert [x] to unsigned. *)
Definition fls (x : Z) : Z :=
  let r := 32 in
  if x =? 0 then 0 else
  let '(x, r) := if Z.land (u32 x) 0xffff0000 =? 0
                 then (s32 (Z.shiftl x 16), r - 16) else (x, r) in
  let '(x, r) := if Z.land (u32 x) 0xff000000 =? 0
                 then (s32 (Z.shiftl x 8), r - 8) else (x, r) in
  let '(x, r) := if Z.land (u32 x) 0xf0000000 =? 0
                 then (s32 (Z.shiftl x 4), r - 4) else (x, r) in
  let '(x, r) := if Z.land (u32 x) 0xc0000000 =? 0
                 then (s32 (Z.shiftl x 2), r - 2) else (x, r) in
  let '(x, r) := if Z.land (u32 x) 0x80000000 =? 0
                 then (s32 (Z.shiftl x 1), r - 1) else (x, r) in
  r.

(** [~0ul << n]. *)
Definition ones_from (n : Z) : Z := u64 (Z.shiftl (2 ^ 64 - 1) n).

Definition __fls (word : Z) : Z :=
  let num := BITS_PER_LONG - 1 in
  let '(word, num) := if Z.land word (ones_from 32) =? 0
                      then (u64 (Z.shiftl word 32), num - 32) else (word, num) in
  let '(word, num) := if Z.land word (ones_from (BITS_PER_LONG - 16)) =? 0
                      then (u64 (Z.shiftl word 16), num - 16) else (word, num) in
  let '(word, num) := if Z.land word (ones_from (BITS_PER_LONG - 8)) =? 0
                      then (u64 (Z.shiftl word 8), num - 8) else (word, num) in
  let '(word, num) := if Z.land word (ones_from (BITS_PER_LONG - 4)) =? 0
                      then (u64 (Z.shiftl word 4), num - 4) else (word, num) in
  let '(word, num) := if Z.land word (ones_from (BITS_PER_LONG - 2)) =? 0
                      then (u64 (Z.shiftl word 2), num - 2) else (word, num) in
  if Z.land word (ones_from (BITS_PER_LONG - 1)) =? 0 then num - 1 else num.

Definition fls64 (x : Z) : Z := if x =? 0 then 0 else __fls x + 1.

Definition __ilog2_u32 (n : Z) : Z := fls n - 1.

Definition __ilog2_u64 (n : Z) : Z := fls64 n - 1.

(** The bitmap routines read and write one word; a word index beyond the
    bitmap is outside the C object and gives [None]. *)
Definition __test_and_set_bit (nr : Z) (addr : list Z) : option (bool * list Z) :=
  let mask := BIT_MASK nr in
  let p := Z.to_nat (BIT_WORD nr) in
  match addr !! p with
  | None => None
  | Some old => Some (truthy (Z.land old mask), <[p := Z.lor old mask]> addr)
  end.

Definition __test_and_clear_bit (nr : Z) (addr : list Z) : option (bool * list Z) :=
  let mask := BIT_MASK nr in
  let p := Z.to_nat (BIT_WORD nr) in
  match addr !! p with
  | None => None
  | Some old => Some (truthy (Z.land old mask),
                      <[p := Z.land old (not_w 64 mask)]> addr)
  end.

Definition test_bit (nr : Z) (addr : list Z) : option Z :=
  match addr !! Z.to_nat (BIT_WORD nr) with
  | None => None
  | Some w => Some (Z.land 1 (Z.shiftr w (Z.land nr (BITS_PER_LONG - 1))))
  end.

(** * kern/find_bits.c

    [found_middle] and [found_first] are the two labels; [scan] is the
    [while] loop and the code after it, with [ws] the words from [*p] on. *)

Definition found_middle (tmp result : Z) : Z := u64 (result + ffz tmp).

Definition found_first (tmp result size : Z) : Z :=
  let tmp := Z.lor tmp (ones_from size) in
  if tmp =? 2 ^ 64 - 1 then u64 (result + size) else found_middle tmp result.

Fixpoint scan (ws : list Z) (result size : Z) : option Z :=
  if truthy (Z.land size (not_w 64 (BITS_PER_LONG - 1))) then
    match ws with
    | [] => None
    | tmp :: ws' =>
        if truthy (not_w 64 tmp) then Some (found_middle tmp result)
        else scan ws' (u64 (result + BITS_PER_LONG)) (u64 (size - BITS_PER_LONG))
    end
  else if size =? 0 then Some result
  else match ws with
       | [] => None
       | tmp :: _ => Some (found_first tmp result size)
       end.

Definition find_next_zero_bit (addr : list Z) (size offset : Z) : option Z :=
  let p := drop (Z.to_nat (BIT_WORD offset)) addr in
  let result := Z.land offset (not_w 64 (BITS_PER_LONG - 1)) in
  if offset >=? size then Some size else
  let size := u64 (size - result) in
  let offset := offset mod BITS_PER_LONG in
  if truthy offset then
    match p with
    | [] => None
    | tmp :: p' =>
        let tmp := Z.lor tmp (Z.shiftr (2 ^ 64 - 1) (BITS_PER_LONG - offset)) in
        if size <? BITS_PER_LONG then Some (found_first tmp result size)
        else if truthy (not_w 64 tmp) then Some (found_middle tmp result)
        else scan p' (u64 (result + BITS_PER_LONG)) (u64 (size - BITS_PER_LONG))
    end
  else scan p result size.

(** * Lemmas on masks and lowest bits *)

(** [lowest w j]: bit [j] is the least significant bit set in [w]. *)
Definition lowest (w j : Z) : Prop :=
  0 <= j /\ Z.testbit w j = true /\ forall i, 0 <= i < j -> Z.testbit w i = false.

Lemma lowest_land w j k :
  lowest w j -> 0 <= k -> (Z.land w (Z.ones k) =? 0) = (k <=? j).
Proof.
  intros (Hj & Hb & Hlow) Hk. destruct (Z.leb_spec k j) as [Hle|Hlt].
  - apply Z.eqb_eq, Z.bits_inj'. intros n Hn.
    rewrite Z.land_spec, Z.testbit_ones_nonneg, Z.bits_0 by lia.
    destruct (Z.ltb_spec n k); [rewrite Hlow by lia; done|apply andb_false_r].
  - apply Z.eqb_neq. intros E. apply (f_equal (fun z => Z.testbit z j)) in E.
    rewrite Z.land_spec, Z.testbit_ones_nonneg, Z.bits_0, Hb in E by lia.
    destruct (Z.ltb_spec j k); [done|lia].
Qed.

Lemma lowest_shiftr w j s : lowest w j -> 0 <= s <= j -> lowest (Z.shiftr w s) (j - s).
Proof.
  intros (Hj & Hb & Hlow) Hs. split_and!; [lia| |].
  - rewrite Z.shiftr_spec by lia. by replace (j - s + s) with j by lia.
  - intros i Hi. rewrite Z.shiftr_spec by lia. apply Hlow; lia.
Qed.

(** What [__ffs] computes, as a function of the lowest set bit alone. *)
Definition ffs_of (j : Z) : Z :=
  let num := 0 in
  let '(num, j) := if 32 <=? j then (num + 32, j - 32) else (num, j) in
  let '(num, j) := if 16 <=? j then (num * 16, j - 16) else (num, j) in
  let '(num, j) := if 8 <=? j then (num + 8, j - 6) else (num, j) in
  let '(num, j) := if 4 <=? j then (num + 4, j - 4) else (num, j) in
  let '(num, j) := if 2 <=? j then (num + 2, j - 2) else (num, j) in
  if 1 <=? j then num + 1 else num.

(** One test of [__ffs]: decide it by the position of the lowest bit. *)
Ltac ffs_step m k :=
  match goal with
  | H : lowest ?w ?j |- context [Z.land ?w m =? 0] =>
      change (Z.land w m) with (Z.land w (Z.ones k));
      rewrite (lowest_land w j k H) by lia;
      destruct (Z.leb_spec k j);
      [try match goal with
           | |- context [Z.shiftr w ?s] => apply (lowest_shiftr w j s) in H; [|lia]
           end|]
  end.

Lemma ffs_ffs_of w j : lowest w j -> __ffs w = ffs_of j.
Proof.
  intros H. unfold __ffs, ffs_of.
  ffs_step 0xffffffff 32; ffs_step 0xffff 16; ffs_step 0xff 8;
    ffs_step 0xf 4; ffs_step 0x3 2; ffs_step 0x1 1; reflexivity.
Qed.

(** The bit positions [__ffs] gets right. *)
Definition ffs_exact (j : Z) : bool :=
  (j <? 8) || (j =? 15) || ((32 <=? j) && (j <? 40)) || (j =? 47).

Lemma ffs_of_exact j : 0 <= j < 64 -> (ffs_of j = j <-> ffs_exact j = true).
Proof.
  intros Hj.
  assert (Hall : forallb (fun n => let j := Z.of_nat n in
    Bool.eqb (ffs_of j =? j) (ffs_exact j)) (seq 0 64) = true) by reflexivity.
  rewrite forallb_forall in Hall.
  specialize (Hall (Z.to_nat j) ltac:(apply in_seq; lia)). cbv zeta in Hall.
  rewrite Z2Nat.id in Hall by lia. apply eqb_prop in Hall. by rewrite <- Z.eqb_eq, Hall.
Qed.

(** Masks of the top bits of a [w]-bit word. *)
Lemma land_top u w j :
  0 <= u < 2 ^ w -> 0 <= j <= w ->
  (Z.land u (2 ^ w - 2 ^ j) =? 0) = (u <? 2 ^ j).
Proof.
  intros Hu Hj.
  assert (E : Z.land u (2 ^ w - 2 ^ j) = Z.shiftl (Z.shiftr u j) j).
  { replace (2 ^ w - 2 ^ j) with (Z.shiftl (Z.ones (w - j)) j).
    2:{ rewrite Z.shiftl_mul_pow2, Z.ones_equiv by lia.
        replace (2 ^ w) with (2 ^ (w - j) * 2 ^ j) by (rewrite <- Z.pow_add_r by lia; f_equal; lia).
        lia. }
    apply Z.bits_inj'. intros n Hn. rewrite Z.land_spec, !Z.shiftl_spec by lia.
    destruct (Z.ltb_spec n j).
    - rewrite !(Z.testbit_neg_r _ (n - j)) by lia. apply andb_false_r.
    - rewrite Z.shiftr_spec by lia. replace (n - j + j) with n by lia.
      destruct (Z.ltb_spec n w).
      + rewrite Z.ones_spec_low by lia. apply andb_true_r.
      + replace (Z.testbit u n) with false; [done|]. symmetry.
        rewrite <- (Z.mod_small u (2 ^ w)) by lia. apply Z.mod_pow2_bits_high; lia. }
  rewrite E, Z.shiftl_mul_pow2, Z.shiftr_div_pow2 by lia.
  assert (0 < 2 ^ j) by (apply Z.pow_pos_nonneg; lia).
  destruct (Z.ltb_spec u (2 ^ j)).
  - rewrite Z.div_small by lia. done.
  - apply Z.eqb_neq. assert (1 <= u / 2 ^ j) by (apply Z.div_le_lower_bound; lia). nia.
Qed.

Lemma log2_shiftl_fit u w k :
  0 < u < 2 ^ (w - k) -> 0 <= k <= w ->
  wrap w (Z.shiftl u k) = u * 2 ^ k /\ Z.log2 (u * 2 ^ k) = Z.log2 u + k /\
  0 < u * 2 ^ k < 2 ^ w.
Proof.
  intros Hu Hk. rewrite Z.shiftl_mul_pow2 by lia.
  assert (0 < 2 ^ k) by (apply Z.pow_pos_nonneg; lia).
  assert (2 ^ w = 2 ^ (w - k) * 2 ^ k) by (rewrite <- Z.pow_add_r by lia; f_equal; lia).
  split_and!; [|rewrite Z.log2_mul_pow2; lia|nia|nia].
  unfold wrap. apply Z.mod_small. nia.
Qed.

(** One test of [fls]/[__fls]: when the top [k] bits of the [w]-bit word are
    clear the word is shifted up by [k] and [k] is subtracted from the count. *)
Definition top_step (w k : Z) (un : Z * Z) : Z * Z :=
  if Z.land un.1 (2 ^ w - 2 ^ (w - k)) =? 0
  then (wrap w (Z.shiftl un.1 k), un.2 - k) else un.

(** The state after the test of the top [e] bits: the word is non-zero, the
    count in step with its leading bit, which is among the top [e] bits. *)
Definition top_inv (w u e : Z) (un : Z * Z) : Prop :=
  0 < un.1 < 2 ^ w /\ Z.log2 un.1 + un.2 = Z.log2 u + w /\ w - e <= Z.log2 un.1.

Lemma top_step_inv w u e k un :
  0 <= k <= w -> e <= 2 * k -> top_inv w u e un -> top_inv w u k (top_step w k un).
Proof.
  intros Hk He (Hr & Hlog & Hge). destruct un as [v n]; cbn in *. unfold top_step; cbn.
  rewrite land_top by lia. destruct (Z.ltb_spec v (2 ^ (w - k))) as [Hlt|Hle].
  - destruct (log2_shiftl_fit v w k) as (-> & Hl & Hb); [lia..|].
    unfold top_inv; cbn [fst snd]. lia.
  - assert (w - k <= Z.log2 v) by (apply Z.log2_le_pow2; lia).
    unfold top_inv; cbn [fst snd]. lia.
Qed.

Lemma top_inv_result w u un : 0 < w -> top_inv w u 1 un -> un.2 = Z.log2 u + 1.
Proof.
  intros Hw (Hr & Hlog & Hge). assert (Z.log2 un.1 < w) by (apply Z.log2_lt_pow2; lia). lia.
Qed.

Lemma u32_shl_s32 x k :
  0 <= k -> u32 (s32 (Z.shiftl x k)) = wrap 32 (Z.shiftl (u32 x) k).
Proof.
  intros Hk. unfold u32, s32, wrap, swrap. rewrite !Z.shiftl_mul_pow2 by lia.
  rewrite Zmult_mod_idemp_l, Zminus_mod, Z.mod_mod, <- Zminus_mod by lia. f_equal; lia.
Qed.

(** The tests of [fls] and [__fls] are [top_step]s. *)
Lemma fls_step m k u e x r p :
  0 <= k <= 32 -> e <= 2 * k -> m = 2 ^ 32 - 2 ^ (32 - k) ->
  top_inv 32 u e (u32 x, r) ->
  (if Z.land (u32 x) m =? 0 then (s32 (Z.shiftl x k), r - k) else (x, r)) = p ->
  top_inv 32 u k (u32 p.1, p.2).
Proof.
  intros Hk He -> H <-. apply (top_step_inv 32 u e k) in H; [|lia..].
  unfold top_step in H; cbn [fst snd] in H.
  destruct (_ =? 0); cbn [fst snd]; [rewrite u32_shl_s32 by lia|]; done.
Qed.

Lemma ones_from_spec k : 0 <= k <= 64 -> ones_from k = 2 ^ 64 - 2 ^ k.
Proof.
  intros Hk. unfold ones_from, u64, wrap. rewrite Z.shiftl_mul_pow2 by lia.
  assert (0 < 2 ^ k <= 2 ^ 64) by (split; [apply Z.pow_pos_nonneg; lia|apply Z.pow_le_mono_r; lia]).
  symmetry. apply Z.mod_unique with (2 ^ k - 1); lia.
Qed.

Lemma __fls_step k u e x r p :
  0 <= k <= 64 -> e <= 2 * k -> top_inv 64 u e (x, r) ->
  (if Z.land x (ones_from (64 - k)) =? 0 then (u64 (Z.shiftl x k), r - k) else (x, r)) = p ->
  top_inv 64 u k p.
Proof.
  intros Hk He H <-. apply (top_step_inv 64 u e k) in H; [|lia..].
  unfold top_step in H; cbn [fst snd] in H. rewrite ones_from_spec by lia. by destruct (_ =? 0).
Qed.

Lemma top_inv_start w u : 0 < u < 2 ^ w -> top_inv w u w (u, w).
Proof. intros H. unfold top_inv; cbn. pose proof (Z.log2_nonneg u). lia. Qed.

Lemma fls_log2 x : 0 < u32 x -> fls x = Z.log2 (u32 x) + 1.
Proof.
  intros Hx. assert (0 < u32 x < 2 ^ 32) as Hr
    by (split; [lia|apply Z.mod_pos_bound; lia]).
  unfold fls. destruct (Z.eqb_spec x 0) as [->|_]; [done|].
  pose proof (top_inv_start 32 (u32 x) Hr) as H0.
  destruct (if Z.land (u32 x) 0xffff0000 =? 0 then _ else _) as [x1 r1] eqn:E1.
  apply (fls_step 0xffff0000 16 _ 32 _ _ _ ltac:(lia) ltac:(lia) eq_refl H0) in E1 as H1.
  destruct (if Z.land (u32 x1) 0xff000000 =? 0 then _ else _) as [x2 r2] eqn:E2.
  apply (fls_step 0xff000000 8 _ 16 _ _ _ ltac:(lia) ltac:(lia) eq_refl H1) in E2 as H2.
  destruct (if Z.land (u32 x2) 0xf0000000 =? 0 then _ else _) as [x3 r3] eqn:E3.
  apply (fls_step 0xf0000000 4 _ 8 _ _ _ ltac:(lia) ltac:(lia) eq_refl H2) in E3 as H3.
  destruct (if Z.land (u32 x3) 0xc0000000 =? 0 then _ else _) as [x4 r4] eqn:E4.
  apply (fls_step 0xc0000000 2 _ 4 _ _ _ ltac:(lia) ltac:(lia) eq_refl H3) in E4 as H4.
  destruct (if Z.land (u32 x4) 0x80000000 =? 0 then _ else _) as [x5 r5] eqn:E5.
  apply (fls_step 0x80000000 1 _ 2 _ _ _ ltac:(lia) ltac:(lia) eq_refl H4) in E5 as H5.
  by apply top_inv_result in H5.
Qed.

Lemma __fls_log2 x : 0 < x < 2 ^ 64 -> __fls x = Z.log2 x.
Proof.
  intros Hr. unfold __fls, BITS_PER_LONG.
  pose proof (top_inv_start 64 x Hr) as H0.
  assert (Hm : forall k u e x r p, 0 <= k <= 64 -> e <= 2 * k -> top_inv 64 u e (x, r + 1) ->
    (if Z.land x (ones_from (64 - k)) =? 0 then (u64 (Z.shiftl x k), r - k) else (x, r)) = p ->
    top_inv 64 u k (p.1, p.2 + 1)).
  { intros k u e y r p Hk He H <-. eapply (__fls_step k u e y (r + 1)); eauto.
    destruct (_ =? 0); cbn; f_equal; lia. }
  change (top_inv 64 x 64 (x, 63 + 1)) in H0.
  destruct (if Z.land x (ones_from 32) =? 0 then _ else _) as [x1 r1] eqn:E1.
  apply (Hm 32 _ 64 _ _ _ ltac:(lia) ltac:(lia) H0) in E1 as H1.
  destruct (if Z.land x1 _ =? 0 then _ else _) as [x2 r2] eqn:E2.
  apply (Hm 16 _ 32 _ _ _ ltac:(lia) ltac:(lia) H1) in E2 as H2.
  destruct (if Z.land x2 _ =? 0 then _ else _) as [x3 r3] eqn:E3.
  apply (Hm 8 _ 16 _ _ _ ltac:(lia) ltac:(lia) H2) in E3 as H3.
  destruct (if Z.land x3 _ =? 0 then _ else _) as [x4 r4] eqn:E4.
  apply (Hm 4 _ 8 _ _ _ ltac:(lia) ltac:(lia) H3) in E4 as H4.
  destruct (if Z.land x4 _ =? 0 then _ else _) as [x5 r5] eqn:E5.
  apply (Hm 2 _ 4 _ _ _ ltac:(lia) ltac:(lia) H4) in E5 as H5.
  pose proof (Hm 1 _ 2 x5 r5 _ ltac:(lia) ltac:(lia) H5 eq_refl) as H6.
  apply top_inv_result in H6; [|lia]. cbn [fst snd] in H6.
  change (64 - 1) with 63 in H6 |- *. destruct (Z.land x5 (ones_from 63) =? 0); cbn in H6; lia.
Qed.

(** * Searching a bitmap *)

(** Bit [i] of a bitmap. *)
Definition bit_at (addr : list Z) (i : Z) : bool :=
  Z.testbit (addr !!! Z.to_nat (i / 64)) (i mod 64).

Definition words_ok (addr : list Z) : Prop := Forall (fun w => 0 <= w < 2 ^ 64) addr.

(** [i] is the first clear bit of the bitmap in [lo, hi). *)
Definition first_zero (addr : list Z) (lo hi i : Z) : Prop :=
  lo <= i < hi /\ bit_at addr i = false /\ forall j, lo <= j < i -> bit_at addr j = true.

Lemma bit_at_head w ws i : 0 <= i < 64 -> bit_at (w :: ws) i = Z.testbit w i.
Proof. intros Hi. unfold bit_at. rewrite Z.div_small, Z.mod_small by lia. done. Qed.

Lemma bit_at_tail w ws i : 64 <= i -> bit_at (w :: ws) i = bit_at ws (i - 64).
Proof.
  intros Hi. unfold bit_at.
  replace i with ((i - 64) + 1 * 64) at 1 2 by lia.
  rewrite Z.div_add, Z.mod_add, Z.add_1_r by lia.
  assert (0 <= (i - 64) / 64) by (apply Z.div_pos; lia).
  rewrite Z2Nat.inj_succ by lia. done.
Qed.

Lemma bit_at_drop addr k i :
  0 <= i -> bit_at (drop k addr) i = bit_at addr (i + 64 * Z.of_nat k).
Proof.
  intros Hi. unfold bit_at. rewrite Z.mul_comm, Z.div_add, Z.mod_add by lia.
  assert (0 <= i / 64) by (apply Z.div_pos; lia).
  rewrite lookup_total_drop, Z2Nat.inj_add, Nat2Z.id by lia. do 2 f_equal. lia.
Qed.

Lemma testbit_not64 w i : 0 <= i < 64 -> Z.testbit (not_w 64 w) i = negb (Z.testbit w i).
Proof.
  intros Hi. unfold not_w. change (2 ^ 64 - 1) with (Z.ones 64).
  rewrite Z.lxor_spec, Z.ones_spec_low by lia. done.
Qed.

Lemma not64_zero w : 0 <= w < 2 ^ 64 -> not_w 64 w = 0 <-> forall i, 0 <= i < 64 -> Z.testbit w i = true.
Proof.
  intros Hw. unfold not_w. split.
  - intros E i Hi. apply Z.lxor_eq in E. rewrite <- E.
    change (2 ^ 64 - 1) with (Z.ones 64). apply Z.ones_spec_low; lia.
  - intros Hall. apply Z.lxor_eq_0_iff. apply Z.bits_inj'. intros i Hi.
    change (2 ^ 64 - 1) with (Z.ones 64). destruct (Z.ltb_spec i 64).
    + rewrite Z.ones_spec_low, Hall by lia. done.
    + rewrite Z.ones_spec_high by lia. symmetry.
      rewrite <- (Z.mod_small w (2 ^ 64)) by lia. apply Z.mod_pow2_bits_high; lia.
Qed.

Lemma lowest_not64 w j :
  0 <= j < 64 -> Z.testbit w j = false -> (forall i, 0 <= i < j -> Z.testbit w i = true) ->
  lowest (not_w 64 w) j.
Proof.
  intros Hj Hz Hl. split_and!; [lia|by rewrite testbit_not64, Hz by lia|].
  intros i Hi. rewrite testbit_not64, Hl by lia. done.
Qed.

Lemma found_middle_spec w r j :
  0 <= j < 64 -> Z.testbit w j = false -> (forall i, 0 <= i < j -> Z.testbit w i = true) ->
  found_middle w r = u64 (r + ffs_of j).
Proof. intros. unfold found_middle, ffz. by rewrite (ffs_ffs_of _ j) by by apply lowest_not64. Qed.

(** The two parts of [size] the scanning loop looks at. *)
Lemma land_not63 s : 0 <= s < 2 ^ 64 -> Z.land s (not_w 64 63) = 64 * (s / 64).
Proof.
  intros Hs. change (not_w 64 63) with (2 ^ 64 - 2 ^ 6).
  assert (E : Z.land s (2 ^ 64 - 2 ^ 6) = Z.ldiff s (Z.ones 6)).
  { change (2 ^ 64 - 2 ^ 6) with (Z.ldiff (Z.ones 64) (Z.ones 6)).
    apply Z.bits_inj'. intros n Hn. rewrite Z.land_spec, !Z.ldiff_spec.
    destruct (Z.ltb_spec n 64).
    - rewrite (Z.ones_spec_low 64) by lia. done.
    - replace (Z.testbit s n) with false; [done|]. symmetry.
      rewrite <- (Z.mod_small s (2 ^ 64)) by lia. apply Z.mod_pow2_bits_high; lia. }
  rewrite E, Z.ldiff_ones_r, Z.shiftl_mul_pow2, Z.shiftr_div_pow2 by lia. change (2 ^ 6) with 64. lia.
Qed.

Lemma truthy_not63 s : 0 <= s < 2 ^ 64 -> truthy (Z.land s (not_w 64 (BITS_PER_LONG - 1))) = (64 <=? s).
Proof.
  intros Hs. change (BITS_PER_LONG - 1) with 63. rewrite land_not63 by lia. unfold truthy.
  destruct (Z.leb_spec 64 s).
  - assert (1 <= s / 64) by (apply Z.div_le_lower_bound; lia).
    destruct (Z.eqb_spec (64 * (s / 64)) 0); [lia|done].
  - rewrite Z.div_small by lia. done.
Qed.

Lemma testbit_ones_from s i : 0 <= s < 64 -> 0 <= i < 64 -> Z.testbit (ones_from s) i = (s <=? i).
Proof.
  intros Hs Hi. unfold ones_from, u64, wrap. rewrite Z.mod_pow2_bits_low, Z.shiftl_spec by lia.
  change (2 ^ 64 - 1) with (Z.ones 64). destruct (Z.leb_spec s i).
  - apply Z.ones_spec_low; lia.
  - apply Z.testbit_neg_r; lia.
Qed.

Lemma lor_range w a b : 0 <= a < 2 ^ w -> 0 <= b < 2 ^ w -> 0 <= w -> 0 <= Z.lor a b < 2 ^ w.
Proof.
  intros Ha Hb Hw. split; [by apply Z.lor_nonneg; lia|].
  destruct (Z.eq_dec (Z.lor a b) 0) as [->|Hne]; [lia|].
  assert (0 <= Z.lor a b) by (apply Z.lor_nonneg; lia).
  apply Z.log2_lt_pow2; [lia|]. rewrite Z.log2_lor by lia.
  assert (Hlog : forall x, 0 <= x < 2 ^ w -> Z.log2 x < w \/ x = 0).
  { intros x Hx. destruct (Z.eq_dec x 0); [by right|left]. apply Z.log2_lt_pow2; lia. }
  assert (0 < w) by (destruct (Z.eq_dec w 0) as [->|]; [|lia]; exfalso; apply Hne;
    assert (a = 0 /\ b = 0) as [-> ->] by lia; done).
  apply Z.max_lub_lt.
  - destruct (Hlog a Ha) as [? | ?]; [done|subst; cbn; lia].
  - destruct (Hlog b Hb) as [? | ?]; [done|subst; cbn; lia].
Qed.

Lemma found_first_spec w r s :
  0 <= w < 2 ^ 64 -> 0 < s < 64 ->
  (forall j, 0 <= j < s -> Z.testbit w j = false -> (forall i, 0 <= i < j -> Z.testbit w i = true) ->
     found_first w r s = u64 (r + ffs_of j)) /\
  ((forall i, 0 <= i < s -> Z.testbit w i = true) -> found_first w r s = u64 (r + s)).
Proof.
  intros Hw Hs. unfold found_first.
  assert (Hb : forall i, 0 <= i < 64 -> Z.testbit (Z.lor w (ones_from s)) i = Z.testbit w i || (s <=? i)).
  { intros i Hi. rewrite Z.lor_spec, testbit_ones_from by lia. done. }
  assert (Hr : 0 <= Z.lor w (ones_from s) < 2 ^ 64).
  { apply lor_range; [lia| |lia]. apply Z.mod_pos_bound; lia. }
  assert (Hfull : (Z.lor w (ones_from s) =? 2 ^ 64 - 1) = true <->
                  forall i, 0 <= i < 64 -> Z.testbit (Z.lor w (ones_from s)) i = true).
  { rewrite Z.eqb_eq, <- not64_zero by lia. unfold not_w. rewrite Z.lxor_eq_0_iff. split; congruence. }
  split.
  - intros j Hj Hz Hl. destruct (_ =? _) eqn:E.
    + exfalso. pose proof (proj1 Hfull eq_refl j ltac:(lia)) as H. rewrite Hb, Hz in H by lia.
      destruct (Z.leb_spec s j); [lia|done].
    + apply found_middle_spec; [lia| |].
      * rewrite Hb, Hz by lia. destruct (Z.leb_spec s j); [lia|done].
      * intros i Hi. rewrite Hb, Hl by lia. done.
  - intros Hl. rewrite (proj2 Hfull); [done|]. intros i Hi. rewrite Hb by lia.
    destruct (Z.leb_spec s i); [by rewrite orb_true_r|by rewrite Hl by lia].
Qed.

(** The scanning loop finds the first clear bit, up to [__ffs]'s error. *)
Lemma scan_first ws r s i :
  words_ok ws -> 0 <= s -> s <= 64 * Z.of_nat (length ws) -> 0 <= r -> r + s < 2 ^ 64 ->
  first_zero ws 0 s i ->
  scan ws r s = Some (u64 (r + 64 * (i / 64) + ffs_of (i mod 64))).
Proof.
  intros Hok. revert r s i. induction Hok as [|w ws Hw Hok IH]; intros r s i Hs Hlen Hr Hrs (Hi & Hz & Hl).
  { cbn in Hlen. lia. }
  cbn [scan]. rewrite truthy_not63 by lia. cbn [length] in Hlen.
  destruct (Z.leb_spec 64 s) as [Hge|Hlt].
  - destruct (Z.ltb_spec i 64) as [Hi64|Hi64].
    + rewrite bit_at_head in Hz by lia.
      assert (Hne : truthy (not_w 64 w) = true).
      { unfold truthy. destruct (Z.eqb_spec (not_w 64 w) 0) as [E|]; [|done].
        rewrite not64_zero in E by lia. rewrite E in Hz by lia. done. }
      rewrite Hne, (found_middle_spec w r i); [|lia|done|].
      * rewrite Z.div_small, Z.mod_small by lia. do 3 f_equal. lia.
      * intros j Hj. rewrite <- (bit_at_head w ws) by lia. apply Hl; lia.
    + assert (He : not_w 64 w = 0).
      { apply not64_zero; [lia|]. intros j Hj. rewrite <- (bit_at_head w ws) by lia. apply Hl; lia. }
      rewrite He. change (truthy 0) with false. cbn iota. change BITS_PER_LONG with 64.
      rewrite (u64_id (r + 64)), (u64_id (s - 64)) by lia.
      rewrite (IH (r + 64) (s - 64) (i - 64)); [|lia..|].
      * replace i with ((i - 64) + 1 * 64) at 3 4 by lia. rewrite Z.div_add, Z.mod_add by lia.
        do 3 f_equal. lia.
      * split_and!; [lia|lia|by rewrite bit_at_tail in Hz by lia|].
        intros j Hj. specialize (Hl (j + 64) ltac:(lia)). rewrite bit_at_tail in Hl by lia.
        by replace (j + 64 - 64) with j in Hl by lia.
  - destruct (Z.eqb_spec s 0); [lia|]. destruct (found_first_spec w r s) as [Hf _]; [lia..|].
    rewrite bit_at_head in Hz by lia. rewrite (Hf i); [|lia|done|].
    + rewrite Z.div_small, Z.mod_small by lia. do 3 f_equal. lia.
    + intros j Hj. rewrite <- (bit_at_head w ws) by lia. apply Hl; lia.
Qed.

Lemma scan_full ws r s :
  words_ok ws -> 0 <= s -> s <= 64 * Z.of_nat (length ws) -> 0 <= r -> r + s < 2 ^ 64 ->
  (forall j, 0 <= j < s -> bit_at ws j = true) -> scan ws r s = Some (r + s).
Proof.
  intros Hok. revert r s. induction Hok as [|w ws Hw Hok IH]; intros r s Hs Hlen Hr Hrs Hl.
  { cbn in Hlen |- *. assert (s = 0) as -> by lia. cbn. f_equal. lia. }
  cbn [scan]. rewrite truthy_not63 by lia. cbn [length] in Hlen.
  destruct (Z.leb_spec 64 s) as [Hge|Hlt].
  - assert (He : not_w 64 w = 0).
    { apply not64_zero; [lia|]. intros j Hj. rewrite <- (bit_at_head w ws) by lia. apply Hl; lia. }
    rewrite He. change (truthy 0) with false. cbn iota. change BITS_PER_LONG with 64.
    rewrite (u64_id (r + 64)), (u64_id (s - 64)) by lia.
    rewrite (IH (r + 64) (s - 64)); [f_equal; lia|lia..|].
    intros j Hj. specialize (Hl (j + 64) ltac:(lia)). rewrite bit_at_tail in Hl by lia.
    by replace (j + 64 - 64) with j in Hl by lia.
  - destruct (Z.eqb_spec s 0) as [->|]; [f_equal; lia|].
    destruct (found_first_spec w r s) as [_ Hf]; [lia..|]. rewrite Hf.
    + by rewrite u64_id by lia.
    + intros j Hj. rewrite <- (bit_at_head w ws) by lia. apply Hl; lia.
Qed.

(** The words the search sees: from the word of [offset] on, the bits below
    [offset] set. *)
Definition masked (addr : list Z) (offset : Z) : list Z :=
  match drop (Z.to_nat (offset / 64)) addr with
  | [] => []
  | w :: ws => Z.lor w (Z.shiftr (2 ^ 64 - 1) (64 - offset mod 64)) :: ws
  end.

Lemma find_next_zero_bit_scan addr size offset :
  0 <= offset < size -> size < 2 ^ 64 -> size <= 64 * Z.of_nat (length addr) ->
  find_next_zero_bit addr size offset = scan (masked addr offset) (64 * (offset / 64)) (size - 64 * (offset / 64)).
Proof.
  intros Ho Hs Hlen. unfold find_next_zero_bit, masked, BIT_WORD. change BITS_PER_LONG with 64.
  change (64 - 1) with 63. rewrite land_not63 by lia.
  assert (Hdm := Z.div_mod offset 64 ltac:(lia)). assert (Hm := Z.mod_pos_bound offset 64 ltac:(lia)).
  rewrite Z.geb_leb. destruct (Z.leb_spec size offset); [lia|].
  rewrite !(u64_id (size - _)) by lia.
  destruct (drop _ addr) as [|w ws] eqn:Ed.
  { exfalso. apply (f_equal length) in Ed. rewrite length_drop in Ed. cbn in Ed. lia. }
  unfold truthy at 1. destruct (Z.eqb_spec (offset mod 64) 0) as [E|E]; cbn [negb].
  - rewrite E. change (Z.shiftr (2 ^ 64 - 1) (64 - 0)) with 0. by rewrite Z.lor_0_r.
  - cbn [scan]. rewrite truthy_not63 by lia. change BITS_PER_LONG with 64.
    destruct (Z.ltb_spec (size - 64 * (offset / 64)) 64); destruct (Z.leb_spec 64 (size - 64 * (offset / 64))); try lia.
    + destruct (Z.eqb_spec (size - 64 * (offset / 64)) 0); [lia|done].
    + done.
Qed.

Lemma masked_bits addr offset j :
  0 <= offset < 64 * Z.of_nat (length addr) -> 0 <= j ->
  bit_at (masked addr offset) j = bit_at addr (j + 64 * (offset / 64)) || (j <? offset mod 64).
Proof.
  intros Ho Hj. assert (Hdm := Z.div_mod offset 64 ltac:(lia)).
  assert (Hm := Z.mod_pos_bound offset 64 ltac:(lia)).
  assert (Hq : 0 <= offset / 64) by (apply Z.div_pos; lia).
  replace (j + 64 * (offset / 64)) with (j + 64 * Z.of_nat (Z.to_nat (offset / 64))) by lia.
  rewrite <- bit_at_drop by lia. unfold masked.
  destruct (drop _ addr) as [|w ws] eqn:Ed.
  { exfalso. apply (f_equal length) in Ed. rewrite length_drop in Ed. cbn in Ed. lia. }
  destruct (Z.ltb_spec j 64).
  - rewrite !bit_at_head, Z.lor_spec, Z.shiftr_spec by lia. f_equal.
    change (2 ^ 64 - 1) with (Z.ones 64). destruct (Z.ltb_spec j (offset mod 64)).
    + apply Z.ones_spec_low; lia.
    + apply Z.ones_spec_high; lia.
  - rewrite !bit_at_tail by lia. destruct (Z.ltb_spec j (offset mod 64)); [lia|by rewrite orb_false_r].
Qed.

Lemma masked_ok addr offset :
  words_ok addr -> 0 <= offset < 64 * Z.of_nat (length addr) ->
  words_ok (masked addr offset) /\
  Z.of_nat (length (masked addr offset)) = Z.of_nat (length addr) - offset / 64.
Proof.
  intros Hok Ho. assert (Hdm := Z.div_mod offset 64 ltac:(lia)).
  assert (Hm := Z.mod_pos_bound offset 64 ltac:(lia)).
  assert (Hq : 0 <= offset / 64) by (apply Z.div_pos; lia).
  pose proof (length_drop addr (Z.to_nat (offset / 64))) as Hlen.
  pose proof (Forall_drop _ (Z.to_nat (offset / 64)) addr Hok) as Hd.
  unfold masked. destruct (drop _ addr) as [|w ws]; cbn [length] in *; [lia|].
  apply Forall_cons in Hd as [Hw Hws]. split; [|lia].
  constructor; [|done]. apply lor_range; [lia| |lia]. change (2 ^ 64 - 1) with (Z.ones 64).
  rewrite Z.shiftr_div_pow2, Z.ones_equiv by lia.
  assert (0 < 2 ^ (64 - offset mod 64)) by (apply Z.pow_pos_nonneg; lia).
  split; [apply Z.div_pos; lia|]. apply Z.div_lt_upper_bound; nia.
Qed.

Lemma testbit_mask nr i :
  0 <= nr -> 0 <= i -> Z.testbit (BIT_MASK nr) i = (i =? nr mod 64).
Proof.
  intros Hn Hi. unfold BIT_MASK. change BITS_PER_LONG with 64.
  pose proof (Z.mod_pos_bound nr 64 ltac:(lia)). rewrite Z.shiftl_1_l, Z.pow2_bits_eqb by lia.
  apply Z.eqb_sym.
Qed.

Lemma land_mask_truthy w nr : 0 <= nr -> truthy (Z.land w (BIT_MASK nr)) = Z.testbit w (nr mod 64).
Proof.
  intros Hn. pose proof (Z.mod_pos_bound nr 64 ltac:(lia)).
  unfold truthy. destruct (Z.eqb_spec (Z.land w (BIT_MASK nr)) 0) as [E|E]; cbn.
  - apply (f_equal (fun z => Z.testbit z (nr mod 64))) in E.
    rewrite Z.land_spec, testbit_mask, Z.eqb_refl, andb_true_r, Z.bits_0 in E by lia. done.
  - destruct (Z.testbit w (nr mod 64)) eqn:Eb; [done|]. exfalso. apply E.
    apply Z.bits_inj'. intros i Hi. rewrite Z.land_spec, testbit_mask, Z.bits_0 by lia.
    destruct (Z.eqb_spec i (nr mod 64)) as [->|]; [by rewrite Eb|apply andb_false_r].
Qed.

(** Updating the word of bit [nr] so that only that bit changes. *)
Lemma bit_at_update (addr : list Z) nr w b i :
  0 <= nr < 64 * Z.of_nat (length addr) -> 0 <= i ->
  (forall j, 0 <= j < 64 -> Z.testbit w j = if j =? nr mod 64 then b
                                            else Z.testbit (addr !!! Z.to_nat (nr / 64)) j) ->
  bit_at (<[Z.to_nat (nr / 64) := w]> addr) i = if i =? nr then b else bit_at addr i.
Proof.
  intros Hn Hi Hw. unfold bit_at.
  assert (Hdn := Z.div_mod nr 64 ltac:(lia)). assert (Hmn := Z.mod_pos_bound nr 64 ltac:(lia)).
  assert (Hdi := Z.div_mod i 64 ltac:(lia)). assert (Hmi := Z.mod_pos_bound i 64 ltac:(lia)).
  destruct (decide (i / 64 = nr / 64)) as [E|E].
  - rewrite E, list_lookup_total_insert_eq by lia. rewrite Hw by lia.
    destruct (Z.eqb_spec (i mod 64) (nr mod 64)); destruct (Z.eqb_spec i nr); try lia; done.
  - rewrite list_lookup_total_insert_ne by lia. destruct (Z.eqb_spec i nr); [congruence|done].
Qed.

Lemma lookup_bit_word (addr : list Z) nr :
  0 <= nr < 64 * Z.of_nat (length addr) ->
  addr !! Z.to_nat (BIT_WORD nr) = Some (addr !!! Z.to_nat (nr / 64)).
Proof.
  intros Hn. unfold BIT_WORD. change BITS_PER_LONG with 64. apply list_lookup_lookup_total_lt.
  assert (nr / 64 < Z.of_nat (length addr)) by (apply Z.div_lt_upper_bound; lia).
  assert (0 <= nr / 64) by (apply Z.div_pos; lia). lia.
Qed.

(** * The properties of the bit routines *)

(** [__ffs] returns the index of the lowest set bit exactly when that index
    is below 8, equal to 15, in [32, 40) or equal to 47; on every other word it
    returns something else (its second and third tests multiply and shift by
    the wrong amounts). *)
Theorem ffs_correct_positions w j :
  0 <= w < 2 ^ 64 -> lowest w j -> (__ffs w = j <-> ffs_exact j = true).
Proof.
  intros Hw Hl. rewrite (ffs_ffs_of w j Hl). apply ffs_of_exact.
  destruct Hl as (Hj & Hb & _). split; [done|].
  destruct (Z.ltb_spec j 64); [done|]. rewrite <- (Z.mod_small w (2 ^ 64)) in Hb by lia.
  rewrite Z.mod_pow2_bits_high in Hb by lia. done.
Qed.

Lemma ffs_correct_positions_witness :
  (__ffs 0x80 = 7 <-> ffs_exact 7 = true) /\ (__ffs 0x10000 = 16 <-> ffs_exact 16 = true).
Proof.
  assert (Hp : forall n, 0 <= n -> lowest (2 ^ n) n).
  { intros n Hn. split_and!; [done|by rewrite Z.pow2_bits_true|].
    intros i Hi. apply Z.pow2_bits_false; lia. }
  split.
  - apply (ffs_correct_positions 0x80 7); [lia|]. apply (Hp 7); lia.
  - apply (ffs_correct_positions 0x10000 16); [lia|]. apply (Hp 16); lia.
Defined.

(** The bitmap search [find_next_zero_bit] returns [size] when every bit of
    [offset, size) is set, and otherwise the first clear bit plus the error of
    [__ffs] on its position in its word; in particular it returns the first
    clear bit itself whenever [__ffs] is exact there. *)
Theorem find_next_zero_bit_spec addr size offset :
  words_ok addr -> 0 <= offset -> size < 2 ^ 64 -> size <= 64 * Z.of_nat (length addr) ->
  ((forall j, offset <= j < size -> bit_at addr j = true) -> offset <= size ->
     find_next_zero_bit addr size offset = Some size) /\
  (forall i, first_zero addr offset size i ->
     find_next_zero_bit addr size offset = Some (u64 (i - i mod 64 + ffs_of (i mod 64))) /\
     (ffs_exact (i mod 64) = true -> find_next_zero_bit addr size offset = Some i)).
Proof.
  intros Hok Ho Hs Hlen.
  assert (Hdm := Z.div_mod offset 64 ltac:(lia)). assert (Hm := Z.mod_pos_bound offset 64 ltac:(lia)).
  assert (Hq : 0 <= offset / 64) by (apply Z.div_pos; lia).
  split.
  - intros Hall Hle. destruct (decide (offset < size)) as [Hlt|Hge].
    + destruct (masked_ok addr offset) as [Hmo Hml]; [done|lia|].
      rewrite find_next_zero_bit_scan by lia. rewrite scan_full; [f_equal; lia|done|lia..|].
      intros j Hj. rewrite masked_bits by lia.
      destruct (Z.ltb_spec j (offset mod 64)); [apply orb_true_r|]. by rewrite Hall by lia.
    + unfold find_next_zero_bit. rewrite Z.geb_leb. destruct (Z.leb_spec size offset); [done|lia].
  - intros i (Hi & Hz & Hl). destruct (masked_ok addr offset) as [Hmo Hml]; [done|lia|].
    assert (Hidm := Z.div_mod i 64 ltac:(lia)). assert (Him := Z.mod_pos_bound i 64 ltac:(lia)).
    assert (Hq' : offset / 64 <= i / 64) by (apply Z.div_le_mono; lia).
    assert (E : find_next_zero_bit addr size offset = Some (u64 (i - i mod 64 + ffs_of (i mod 64)))).
    { rewrite find_next_zero_bit_scan by lia. rewrite (scan_first _ _ _ (i - 64 * (offset / 64))); [|done|lia..|].
      - replace (i - 64 * (offset / 64)) with (i + (- (offset / 64)) * 64) by lia.
        rewrite Z.div_add, Z.mod_add by lia. do 3 f_equal. lia.
      - split_and!; [lia|lia| |].
        + rewrite masked_bits by lia. replace (i - 64 * (offset / 64) + 64 * (offset / 64)) with i by lia.
          rewrite Hz. destruct (Z.ltb_spec (i - 64 * (offset / 64)) (offset mod 64)); [lia|done].
        + intros j Hj. rewrite masked_bits by lia.
          destruct (Z.ltb_spec j (offset mod 64)); [apply orb_true_r|]. by rewrite Hl by lia. }
    split; [done|]. intros Hex. rewrite E. apply ffs_of_exact in Hex; [|lia].
    rewrite Hex, u64_id by lia. f_equal. lia.
Qed.

Lemma find_next_zero_bit_spec_witness :
  find_next_zero_bit [0xffff; 0] 100 3 = Some (u64 (16 - 16 mod 64 + ffs_of (16 mod 64))) /\
  find_next_zero_bit [0x3f; 0] 100 3 = Some 6 /\ find_next_zero_bit [0x3f; 0] 6 3 = Some 6.
Proof.
  assert (Hb : forall addr lo hi, forallb (fun n => bit_at addr (Z.of_nat n)) (seq lo hi) = true ->
    forall j, Z.of_nat lo <= j < Z.of_nat (lo + hi) -> bit_at addr j = true).
  { intros addr lo hi H j Hj. rewrite forallb_forall in H. specialize (H (Z.to_nat j)).
    rewrite Z2Nat.id in H by lia. apply H. apply in_seq. lia. }
  assert (Hok : forall a b, 0 <= a < 2 ^ 64 -> 0 <= b < 2 ^ 64 -> words_ok [a; b])
    by (intros; repeat constructor; lia).
  split_and!.
  - destruct (find_next_zero_bit_spec [0xffff; 0] 100 3) as [_ Hz]; [by apply Hok|lia|lia|cbn; lia|].
    apply (Hz 16). split_and!; [lia|lia|reflexivity|]. apply (Hb [0xffff; 0] 3%nat 13%nat). reflexivity.
  - destruct (find_next_zero_bit_spec [0x3f; 0] 100 3) as [_ Hz]; [by apply Hok|lia|lia|cbn; lia|].
    apply (Hz 6); [|reflexivity]. split_and!; [lia|lia|reflexivity|].
    apply (Hb [0x3f; 0] 3%nat 3%nat). reflexivity.
  - destruct (find_next_zero_bit_spec [0x3f; 0] 6 3) as [Hf _]; [by apply Hok|lia|lia|cbn; lia|].
    apply Hf; [|lia]. apply (Hb [0x3f; 0] 3%nat 3%nat). reflexivity.
Defined.

(** C36: [fls], [__fls] and the two [ilog2] functions built on them compute the
    position of the most significant bit of every non-zero 32-bit, respectively
    64-bit, value. *)
Theorem fls_ilog2_correct x :
  (0 < u32 x -> fls x = Z.log2 (u32 x) + 1 /\ __ilog2_u32 x = Z.log2 (u32 x)) /\
  (0 < x < 2 ^ 64 -> __fls x = Z.log2 x /\ fls64 x = Z.log2 x + 1 /\ __ilog2_u64 x = Z.log2 x).
Proof.
  split.
  - intros H. unfold __ilog2_u32. rewrite fls_log2 by done. lia.
  - intros H. unfold __ilog2_u64, fls64. rewrite __fls_log2 by done.
    destruct (Z.eqb_spec x 0); lia.
Qed.

Lemma fls_ilog2_correct_witness :
  fls 0x1000 = 13 /\ __ilog2_u64 0x100000000 = 32.
Proof.
  destruct (fls_ilog2_correct 0x1000) as [H1 _]. destruct (fls_ilog2_correct 0x100000000) as [_ H2].
  split; [apply H1; reflexivity|apply H2; lia].
Defined.

(** [test_bit], [__test_and_set_bit] and [__test_and_clear_bit] return the old
    value of the bit and change that bit of the bitmap and no other. *)
Theorem bitmap_update_correct addr nr :
  words_ok addr -> 0 <= nr < 64 * Z.of_nat (length addr) ->
  test_bit nr addr = Some (b2z (bit_at addr nr)) /\
  (exists addr', __test_and_set_bit nr addr = Some (bit_at addr nr, addr') /\
     forall i, 0 <= i -> bit_at addr' i = if i =? nr then true else bit_at addr i) /\
  (exists addr', __test_and_clear_bit nr addr = Some (bit_at addr nr, addr') /\
     forall i, 0 <= i -> bit_at addr' i = if i =? nr then false else bit_at addr i).
Proof.
  intros Hok Hn. pose proof (Z.mod_pos_bound nr 64 ltac:(lia)) as Hmn.
  unfold test_bit, __test_and_set_bit, __test_and_clear_bit. rewrite !lookup_bit_word by lia.
  rewrite !land_mask_truthy by lia. fold (bit_at addr nr). split_and!.
  - f_equal. change (BITS_PER_LONG - 1) with (Z.ones 6). rewrite Z.land_ones, Z.land_comm by lia.
    change 1 with (Z.ones 1). rewrite Z.land_ones by lia. change (2 ^ 6) with 64. change (2 ^ 1) with 2.
    unfold bit_at. rewrite Z.testbit_eqb by lia. rewrite <- Z.shiftr_div_pow2 by lia.
    pose proof (Z.mod_pos_bound (Z.shiftr (addr !!! Z.to_nat (nr / 64)) (nr mod 64)) 2 ltac:(lia)).
    destruct (Z.eqb_spec (Z.shiftr (addr !!! Z.to_nat (nr / 64)) (nr mod 64) mod 2) 1); cbn; lia.
  - eexists; split; [done|]. intros i Hi. change (BIT_WORD nr) with (nr / 64).
    apply bit_at_update; [lia..|]. intros j Hj. rewrite Z.lor_spec, testbit_mask by lia.
    destruct (j =? nr mod 64); [apply orb_true_r|apply orb_false_r].
  - eexists; split; [done|]. intros i Hi. change (BIT_WORD nr) with (nr / 64).
    apply bit_at_update; [lia..|]. intros j Hj. rewrite Z.land_spec, testbit_not64, testbit_mask by lia.
    destruct (j =? nr mod 64); [apply andb_false_r|apply andb_true_r].
Qed.

Lemma bitmap_update_correct_witness :
  test_bit 65 [0; 2] = Some 1 /\
  exists addr', __test_and_clear_bit 65 [0; 2] = Some (true, addr') /\ bit_at addr' 65 = false.
Proof.
  destruct (bitmap_update_correct [0; 2] 65) as (Ht & _ & addr' & Hc & Hb);
    [repeat constructor; lia|cbn; lia|].
  split; [exact Ht|]. exists addr'. split; [exact Hc|]. apply (Hb 65). lia.
Defined.
