(* ===== verification/Lists.v ===== *)
(** The intrusive circular lists of inc/list.h.

    The nodes live in a store with one map per field (a field of every
    [struct list_head], indexed by the node's address), so aliased arguments
    ([list_insert(cur, head, head->next)] on an empty list passes [head]
    twice) behave as in C.  [dll st h l] says that the nodes [l], in that
    order, hang off the head [h]; the lemmas show each routine to be the
    corresponding operation on [l]. *)

From stdpp Require Import base list gmap.
From Stdlib Require Import ZArith Lia Bool.
From S2P Require Import Prelude.

(** * The store and the routines *)

Record store : Type := mkStore { nxt : gmap Z Z; prv : gmap Z Z }.

(** Reading a field of an address that holds no node is a fault. *)
Definition get_next (p : Z) : M store Z :=
  fun st => match nxt st !! p with Some q => Ret q st | None => Panic st end.

Definition get_prev (p : Z) : M store Z :=
  fun st => match prv st !! p with Some q => Ret q st | None => Panic st end.

Definition set_next (p q : Z) : M store unit :=
  modify (fun st => mkStore (<[p := q]> (nxt st)) (prv st)).

Definition set_prev (p q : Z) : M store unit :=
  modify (fun st => mkStore (nxt st) (<[p := q]> (prv st))).

Definition list_init (head : Z) : M store unit :=
  set_prev head head ;; set_next head head.

Definition list_empty (head : Z) : M store bool :=
  let* n := get_next head in ret (n =? head).

Definition list_front (head : Z) : M store Z := get_next head.

Definition list_back (head : Z) : M store Z := get_prev head.

Definition list_insert (cur prev next : Z) : M store unit :=
  set_prev next cur ;;
  set_next cur next ;;
  set_prev cur prev ;;
  set_next prev cur.

Definition list_push_front (head cur : Z) : M store unit :=
  let* n := get_next head in
  list_insert cur head n.

Definition list_push_back (head cur : Z) : M store unit :=
  let* p := get_prev head in
  list_insert cur p head.

Definition list_del (prev next : Z) : M store unit :=
  set_prev next prev ;;
  set_next prev next.

Definition list_drop (item : Z) : M store unit :=
  let* p := get_prev item in
  let* n := get_next item in
  list_del p n.

Definition list_pop_front (head : Z) : M store unit :=
  let* f := list_front head in list_drop f.

Definition list_pop_back (head : Z) : M store unit :=
  let* b := list_back head in list_drop b.

(** The loop of [list_find], from node [p]. *)
Fixpoint find_from (fuel : nat) (p head item : Z) : M store Z :=
  match fuel with
  | O => nofuel
  | S fuel' =>
      if p =? head then ret 0
      else if p =? item then ret item
      else let* n := get_next p in find_from fuel' n head item
  end.

Definition list_find (fuel : nat) (head item : Z) : M store Z :=
  let* n := get_next head in find_from fuel n head item.

(** [LIST_FOREACH_ENTRY] and [LIST_FOREACH_ENTRY_REVERSE]: the nodes the loop
    variable takes, in order. *)
Fixpoint foreach_from (fuel : nat) (step : Z -> M store Z) (p head : Z) : M store (list Z) :=
  match fuel with
  | O => nofuel
  | S fuel' =>
      if p =? head then ret []
      else let* n := step p in
           let* l := foreach_from fuel' step n head in
           ret (p :: l)
  end.

Definition LIST_FOREACH_ENTRY (fuel : nat) (head : Z) : M store (list Z) :=
  let* f := list_front head in foreach_from fuel get_next f head.

Definition LIST_FOREACH_ENTRY_REVERSE (fuel : nat) (head : Z) : M store (list Z) :=
  let* b := list_back head in foreach_from fuel get_prev b head.

(** [LIST_FOREACH_ENTRY_SAFE], with a body that may change the list: the next node [n] is read
    before the body runs on [pos]. *)
Fixpoint foreach_safe_from (fuel : nat) (body : Z -> M store unit) (pos n head : Z) : M store (list Z) :=
  match fuel with
  | O => nofuel
  | S fuel' =>
      if pos =? head then ret []
      else body pos ;;
           let* n' := get_next n in
           let* l := foreach_safe_from fuel' body n n' head in
           ret (pos :: l)
  end.

Definition LIST_FOREACH_ENTRY_SAFE (fuel : nat) (body : Z -> M store unit) (head : Z) : M store (list Z) :=
  let* pos := list_front head in
  let* n := get_next pos in
  foreach_safe_from fuel body pos n head.

(** The effect on the contents of [list_push_back(head->prev, cur)]: the
    insertion is before the last node, not after it. *)
Definition list_push_back_prev (l : list Z) (cur : Z) : list Z :=
  match l with
  | [] => [cur]
  | _ => removelast l ++ [cur; List.last l 0]
  end.

(** * Representation *)

(** Consecutive nodes of the path [p] point at each other. *)
Fixpoint links (st : store) (p : list Z) : Prop :=
  match p with
  | a :: (b :: _) as t => (nxt st !! a = Some b /\ prv st !! b = Some a) /\ links st t
  | _ => True
  end.

(** [l] is the list of head [h]. *)
Definition dll (st : store) (h : Z) (l : list Z) : Prop :=
  NoDup (h :: l) /\ links st (h :: l ++ [h]).

Lemma links_app st p a q : links st (p ++ a :: q) <-> links st (p ++ [a]) /\ links st (a :: q).
Proof.
  induction p as [|x p IH]; cbn [app].
  - cbn. destruct q; tauto.
  - destruct p as [|y p].
    + cbn [app] in *. cbn. destruct q; tauto.
    + cbn [app] in *. cbn [links]. cbn [links] in IH. tauto.
Qed.

(** Only the sources' [next] and the targets' [prev] matter. *)
Lemma links_frame st st' p :
  links st p ->
  (forall a, a ∈ removelast p -> nxt st' !! a = nxt st !! a) ->
  (forall b, b ∈ tail p -> prv st' !! b = prv st !! b) ->
  links st' p.
Proof.
  induction p as [|a p IH]; [done|]. destruct p as [|b p]; [done|].
  intros [[Hn Hp] Hl] Hs Ht.
  change (removelast (a :: b :: p)) with (a :: removelast (b :: p)) in Hs. cbn [tail] in Ht.
  split; [split|].
  - rewrite Hs; [done|]. apply elem_of_cons; auto.
  - rewrite Ht; [done|]. apply elem_of_cons; auto.
  - apply IH; [done| |].
    + intros c Hc. apply Hs. apply elem_of_cons; auto.
    + intros c Hc. apply Ht. cbn [tail] in Hc. apply elem_of_cons; auto.
Qed.

Lemma removelast_snoc {A} (l : list A) x : removelast (l ++ [x]) = l.
Proof. rewrite removelast_app by done. cbn. by rewrite app_nil_r. Qed.

Lemma removelast_mid {A} (l : list A) x y q : removelast (l ++ x :: y :: q) = l ++ x :: removelast (y :: q).
Proof. rewrite removelast_app by done. done. Qed.

(** The store is unchanged outside the nodes [X]. *)
Definition same_outside (X : list Z) (st st' : store) : Prop :=
  forall x, x ∉ X -> nxt st' !! x = nxt st !! x /\ prv st' !! x = prv st !! x.

Lemma dll_frame X st st' h l :
  dll st h l -> same_outside X st st' -> (forall x, x ∈ h :: l -> x ∉ X) -> dll st' h l.
Proof.
  intros [Hnd Hl] Hs Hd. split; [done|].
  assert (Hin : forall x, x ∈ h :: l ++ [h] -> x ∉ X) by (intros x Hx; apply Hd; set_solver).
  eapply links_frame; [done| |].
  - intros a Ha. apply Hs, Hin. change (h :: l ++ [h]) with ((h :: l) ++ [h]) in Ha.
    rewrite removelast_snoc in Ha. set_solver.
  - intros b Hb. apply Hs, Hin. cbn [tail] in Hb. set_solver.
Qed.

(** Every edge of a list has its own source and its own target. *)
Lemma path_nodup (h : Z) (l p : list Z) (a b : Z) (q : list Z) :
  NoDup (h :: l) -> h :: l ++ [h] = p ++ a :: b :: q ->
  NoDup (p ++ a :: removelast (b :: q)) /\ NoDup (tail (p ++ [a]) ++ b :: q).
Proof.
  intros Hnd E. split.
  - rewrite <- removelast_mid, <- E. change (h :: l ++ [h]) with ((h :: l) ++ [h]).
    by rewrite removelast_snoc.
  - apply (f_equal tail) in E. cbn [tail] in E.
    replace (tail (p ++ [a]) ++ b :: q) with (l ++ [h]).
    + rewrite Permutation_app_comm. done.
    + rewrite E. destruct p; cbn [tail app]; [done|]. by rewrite <- app_assoc.
Qed.

Lemma path_in (h : Z) (l p : list Z) (a b : Z) (q : list Z) (x : Z) :
  h :: l ++ [h] = p ++ a :: b :: q -> x ∉ h :: l -> x ∉ p ++ a :: b :: q.
Proof. intros <-. set_solver. Qed.

Lemma elem_of_removelast {A} (l : list A) x : x ∈ removelast l -> x ∈ l.
Proof.
  induction l as [|y l IH]; [done|]. destruct l; cbn [removelast]; [intros H; inversion H|].
  intros [->|H]%elem_of_cons; [by left|right; auto].
Qed.

Lemma elem_of_tail {A} (l : list A) x : x ∈ tail l -> x ∈ l.
Proof. destruct l; [done|]. cbn. by right. Qed.

(** Inserting between two neighbours. *)
Lemma insert_path st h l p a b q cur :
  dll st h l -> h :: l ++ [h] = p ++ a :: b :: q -> cur ∉ h :: l ->
  exists st', list_insert cur a b st = Ret tt st' /\
    links st' (p ++ a :: cur :: b :: q) /\ same_outside (cur :: h :: l) st st'.
Proof.
  intros [Hnd Hl] E Hc. pose proof (path_in _ _ _ _ _ _ _ E Hc) as Hcp.
  destruct (path_nodup _ _ _ _ _ _ Hnd E) as [Hs Ht].
  eexists; split; [reflexivity|]. split.
  - rewrite E in Hl. apply links_app in Hl as [Hl1 Hl2]. destruct Hl2 as [_ Hl2].
    apply links_app. apply NoDup_app in Hs as (_ & Hs1 & Hs2). apply NoDup_app in Ht as (_ & Ht1 & Ht2).
    apply NoDup_cons in Hs2 as [Hs2 _]. apply NoDup_cons in Ht2 as [Ht2 _].
    split.
    + eapply links_frame; [apply Hl1| |]; cbn.
      * rewrite removelast_snoc. intros x Hx. rewrite !lookup_insert_ne; [done|set_solver..].
      * intros x Hx. rewrite !lookup_insert_ne; [done| |].
        -- intros <-. eapply Ht1; [done|]. by left.
        -- intros <-. apply elem_of_tail in Hx. set_solver.
    + cbn. assert (a <> cur) by set_solver. assert (b <> cur) by set_solver.
      split; [split|split; [split|]].
      * by rewrite lookup_insert_eq.
      * by rewrite lookup_insert_eq.
      * rewrite lookup_insert_ne by done. by rewrite lookup_insert_eq.
      * rewrite lookup_insert_ne by done. by rewrite lookup_insert_eq.
      * change (links (mkStore (<[a:=cur]> (<[cur:=b]> (nxt st))) (<[cur:=a]> (<[b:=cur]> (prv st)))) (b :: q)).
        eapply links_frame; [apply Hl2| |]; cbn [nxt prv].
        -- intros x Hx. rewrite !lookup_insert_ne; [done| |].
           ++ intros <-. apply elem_of_removelast in Hx. set_solver.
           ++ by intros <-.
        -- intros x Hx. cbn [tail] in Hx. rewrite !lookup_insert_ne; [done| |]; [by intros <-|set_solver].
  - intros x Hx. assert (x ∉ h :: l ++ [h]) as Hx' by set_solver. rewrite E in Hx'.
    cbn. rewrite !lookup_insert_ne; [done|set_solver..].
Qed.

(** Unlinking a node. *)
Lemma del_path st h l p a c b q :
  dll st h l -> h :: l ++ [h] = p ++ a :: c :: b :: q ->
  exists st', list_drop c st = Ret tt st' /\
    links st' (p ++ a :: b :: q) /\ same_outside (h :: l) st st'.
Proof.
  intros [Hnd Hl] E.
  destruct (path_nodup _ _ _ _ _ _ Hnd E) as [Hs Ht].
  pose proof (path_nodup h l (p ++ [a]) c b q Hnd) as Hn2.
  rewrite <- app_assoc in Hn2. destruct (Hn2 E) as [Hs' Ht'].
  rewrite E in Hl. apply links_app in Hl as [Hl1 [[Hac Hca] [[Hcb Hbc] Hl2]]].
  unfold list_drop, bind at 1, get_prev. rewrite Hca. unfold bind at 1, get_next. rewrite Hcb.
  eexists; split; [reflexivity|]. cbn [nxt prv]. split_and!.
  - apply links_app. apply NoDup_app in Hs as (_ & Hs1 & Hs2). apply NoDup_app in Ht' as (_ & Ht1 & Ht2).
    apply NoDup_cons in Hs2 as [Hs2 _]. apply NoDup_cons in Ht2 as [Ht2 _].
    split.
    + eapply links_frame; [apply Hl1| |]; cbn [nxt prv].
      * rewrite removelast_snoc. intros x Hx. rewrite lookup_insert_ne; [done|].
        intros <-. eapply Hs1; [done|by left].
      * intros x Hx. rewrite lookup_insert_ne; [done|]. intros <-. eapply Ht1; [|by left].
        destruct p; cbn [tail app] in *; set_solver.
    + split; [split|]; cbn [nxt prv]; [apply lookup_insert_eq..|].
      change (links (mkStore (<[a:=b]> (nxt st)) (<[b:=a]> (prv st))) (b :: q)).
      eapply links_frame; [apply Hl2| |]; cbn [nxt prv tail].
      * intros x Hx. rewrite lookup_insert_ne; [done|]. intros <-. apply Hs2.
        change (removelast (c :: b :: q)) with (c :: removelast (b :: q)). by right.
      * intros x Hx. rewrite lookup_insert_ne; [done|]. by intros <-.
  - intros x Hx. assert (x ∉ h :: l ++ [h]) as Hx' by set_solver. rewrite E in Hx'.
    cbn. rewrite !lookup_insert_ne; [done|set_solver..].
Qed.

(** * What each routine does to the represented list *)

Section Ops.
Context (st : store) (h : Z) (l : list Z).
Hypothesis (Hd : dll st h l).

Lemma dll_next_head : nxt st !! h = Some (hd h l).
Proof using Hd. destruct Hd as [_ Hl]. destruct l; cbn in *; tauto. Qed.

Lemma dll_prev_head : prv st !! h = Some (List.last l h).
Proof using Hd.
  destruct Hd as [_ Hl]. destruct l as [|x l0] using rev_ind; [cbn in *; tauto|]. clear IHl0.
  rewrite List.last_last. rewrite <- app_assoc in Hl. change (h :: l0 ++ [x] ++ [h]) with ((h :: l0) ++ x :: [h]) in Hl.
  apply links_app in Hl as [_ Hl]. cbn in Hl. tauto.
Qed.

Lemma list_empty_run : list_empty h st = Ret (bool_decide (l = [])) st.
Proof using Hd.
  unfold list_empty, bind, get_next. rewrite dll_next_head. unfold ret. f_equal.
  destruct Hd as [Hnd _]. destruct l as [|x l0]; cbn [hd].
  - by rewrite Z.eqb_refl.
  - apply NoDup_cons in Hnd as [Hn _]. destruct (Z.eqb_spec x h) as [->|]; [set_solver|done].
Qed.

Lemma dll_nodup_insert cur l1 l2 :
  l = l1 ++ l2 -> cur ∉ h :: l -> NoDup (h :: l1 ++ cur :: l2).
Proof using Hd.
  intros -> Hc. destruct Hd as [Hnd _].
  assert (NoDup (cur :: h :: l1 ++ l2)) as Hn by by apply NoDup_cons.
  change (h :: l1 ++ cur :: l2) with ((h :: l1) ++ cur :: l2). by rewrite <- Permutation_middle.
Qed.

Lemma list_push_front_run cur :
  cur ∉ h :: l ->
  exists st', list_push_front h cur st = Ret tt st' /\ dll st' h (cur :: l) /\ same_outside (cur :: h :: l) st st'.
Proof using Hd.
  intros Hc. unfold list_push_front, bind at 1, get_next. rewrite dll_next_head.
  assert (E : h :: l ++ [h] = [] ++ h :: hd h l :: tail (l ++ [h])) by by destruct l.
  destruct (insert_path st h l [] h (hd h l) _ cur Hd E Hc) as (st' & -> & Hl & Hs).
  exists st'. split; [done|split; [|done]]. split; [|by destruct l].
  by apply (dll_nodup_insert cur []).
Qed.

Lemma list_push_back_run cur :
  cur ∉ h :: l ->
  exists st', list_push_back h cur st = Ret tt st' /\ dll st' h (l ++ [cur]) /\ same_outside (cur :: h :: l) st st'.
Proof using Hd.
  intros Hc. unfold list_push_back, bind at 1, get_prev. rewrite dll_prev_head.
  assert (exists p, h :: l = p ++ [List.last l h]) as [p Ep].
  { destruct l as [|x l0] using rev_ind; [by exists []|]. exists (h :: l0). by rewrite List.last_last. }
  assert (E : h :: l ++ [h] = p ++ List.last l h :: h :: []).
  { change (h :: l ++ [h]) with ((h :: l) ++ [h]). by rewrite Ep, <- app_assoc. }
  destruct (insert_path st h l p _ h [] cur Hd E Hc) as (st' & -> & Hl & Hs).
  exists st'. split; [done|split; [|done]].
  split; [apply dll_nodup_insert; [by rewrite app_nil_r|done]|].
  replace (h :: (l ++ [cur]) ++ [h]) with (p ++ List.last l h :: cur :: [h]); [done|].
  change (h :: (l ++ [cur]) ++ [h]) with (((h :: l) ++ [cur]) ++ [h]). by rewrite Ep, <- !app_assoc.
Qed.

(** [list_push_back] at a node that is not the head inserts before that node. *)
Lemma list_push_back_at l1 x l2 cur :
  l = l1 ++ x :: l2 -> cur ∉ h :: l ->
  exists st', list_push_back x cur st = Ret tt st' /\ dll st' h (l1 ++ cur :: x :: l2) /\ same_outside (cur :: h :: l) st st'.
Proof using Hd.
  intros El Hc.
  assert (exists p a, h :: l1 = p ++ [a]) as (p & a & Ep).
  { destruct l1 as [|y l0] using rev_ind; [by exists [], h|]. by exists (h :: l0), y. }
  assert (E : h :: l ++ [h] = p ++ a :: x :: l2 ++ [h]).
  { rewrite El, <- app_assoc. change (h :: l1 ++ (x :: l2) ++ [h]) with ((h :: l1) ++ x :: l2 ++ [h]).
    by rewrite Ep, <- app_assoc. }
  assert (Hx : prv st !! x = Some a).
  { destruct Hd as [_ Hl]. rewrite E in Hl. apply links_app in Hl as [_ Hl]. cbn in Hl. tauto. }
  unfold list_push_back, bind at 1, get_prev. rewrite Hx.
  destruct (insert_path st h l p a x _ cur Hd E Hc) as (st' & -> & Hl & Hs).
  exists st'. split; [done|split; [|done]].
  split; [by apply dll_nodup_insert|].
  replace (h :: (l1 ++ cur :: x :: l2) ++ [h]) with (p ++ a :: cur :: x :: l2 ++ [h]); [done|].
  rewrite <- app_assoc. change (h :: l1 ++ (cur :: x :: l2) ++ [h]) with ((h :: l1) ++ cur :: x :: l2 ++ [h]).
  by rewrite Ep, <- app_assoc.
Qed.

Lemma list_drop_run l1 c l2 :
  l = l1 ++ c :: l2 ->
  exists st', list_drop c st = Ret tt st' /\ dll st' h (l1 ++ l2) /\ same_outside (h :: l) st st'.
Proof using Hd.
  intros El.
  assert (exists p a, h :: l1 = p ++ [a]) as (p & a & Ep).
  { destruct l1 as [|y l0] using rev_ind; [by exists [], h|]. by exists (h :: l0), y. }
  assert (exists b q, l2 ++ [h] = b :: q) as (b & q & Eq) by (destruct l2; eauto).
  assert (E : h :: l ++ [h] = p ++ a :: c :: b :: q).
  { rewrite El, <- app_assoc. change (h :: l1 ++ (c :: l2) ++ [h]) with ((h :: l1) ++ c :: l2 ++ [h]).
    by rewrite Ep, Eq, <- app_assoc. }
  destruct (del_path st h l p a c b q Hd E) as (st' & -> & Hl & Hs).
  exists st'. split; [done|split; [|done]]. split.
  - destruct Hd as [Hnd _]. subst l. apply NoDup_cons in Hnd as [Hh Hnd].
    apply NoDup_cons. split; [set_solver|]. apply NoDup_app in Hnd as (? & Hn & [_ ?]%NoDup_cons).
    apply NoDup_app. split_and!; [done| |done]. intros x Hx Hx2. eapply Hn; [done|by right].
  - replace (h :: (l1 ++ l2) ++ [h]) with (p ++ a :: b :: q); [done|].
    rewrite <- app_assoc, Eq. change (h :: l1 ++ b :: q) with ((h :: l1) ++ b :: q).
    by rewrite Ep, <- app_assoc.
Qed.

Lemma list_pop_front_run x l' :
  l = x :: l' ->
  exists st', list_pop_front h st = Ret tt st' /\ dll st' h l' /\ same_outside (h :: l) st st'.
Proof using Hd.
  intros El. unfold list_pop_front, bind, list_front, get_next. rewrite dll_next_head.
  replace (hd h l) with x by by rewrite El. by apply (list_drop_run [] x l').
Qed.

Lemma list_pop_back_run x l' :
  l = l' ++ [x] ->
  exists st', list_pop_back h st = Ret tt st' /\ dll st' h l' /\ same_outside (h :: l) st st'.
Proof using Hd.
  intros El. unfold list_pop_back, bind, list_back, get_prev. rewrite dll_prev_head.
  replace (List.last l h) with x by by rewrite El, List.last_last.
  destruct (list_drop_run l' x []) as (st' & Hr & Hl & Hs); [done|].
  rewrite app_nil_r in Hl. eauto.
Qed.
End Ops.

(** Insertion at [head->prev]. *)
Lemma list_push_back_prev_run st h l cur :
  dll st h l -> cur ∉ h :: l ->
  exists st', (let* p := get_prev h in list_push_back p cur) st = Ret tt st' /\
    dll st' h (list_push_back_prev l cur) /\ same_outside (cur :: h :: l) st st'.
Proof.
  intros Hd Hc. unfold bind, get_prev at 1. rewrite (dll_prev_head st h l Hd).
  destruct l as [|x l0 _] using rev_ind; [by apply (list_push_back_run st h [])|].
  rewrite List.last_last.
  replace (list_push_back_prev (l0 ++ [x]) cur) with (l0 ++ cur :: x :: []).
  - by apply (list_push_back_at st h (l0 ++ [x]) Hd l0 x []).
  - unfold list_push_back_prev. rewrite removelast_snoc, List.last_last. by destruct l0.
Qed.

Lemma elem_of_push_back_prev l cur x : x ∈ list_push_back_prev l cur <-> x = cur \/ x ∈ l.
Proof.
  destruct l as [|y l _] using rev_ind; [set_solver|].
  unfold list_push_back_prev. rewrite removelast_snoc, List.last_last.
  destruct (l ++ [y]) eqn:E; [by destruct l|]. rewrite <- E. set_solver.
Qed.

Lemma NoDup_push_back_prev l cur : NoDup l -> cur ∉ l -> NoDup (list_push_back_prev l cur).
Proof.
  intros Hn Hc. destruct l as [|y l _] using rev_ind; [apply NoDup_singleton|].
  unfold list_push_back_prev. rewrite removelast_snoc, List.last_last.
  destruct (l ++ [y]) eqn:E; [by destruct l|]. rewrite <- E in *.
  rewrite <- Permutation_middle. by apply NoDup_cons.
Qed.

Lemma list_init_run st h :
  exists st', list_init h st = Ret tt st' /\ dll st' h [] /\ same_outside [h] st st'.
Proof.
  eexists; split; [reflexivity|]. split.
  - split; [apply NoDup_singleton|]. cbn. split; [|done]. split; apply lookup_insert_eq.
  - intros x Hx. cbn. rewrite !lookup_insert_ne by set_solver. done.
Qed.

(** * Traversals *)

Lemma foreach_next st h l : forall p, p <> [] -> NoDup (h :: l) -> links st (p ++ l ++ [h]) ->
  forall fuel, (length l < fuel)%nat ->
  foreach_from fuel get_next (hd h l) h st = Ret l st.
Proof.
  induction l as [|x l IH]; intros p Hp Hnd Hl [|fuel] Hf; try (cbn in Hf; lia); cbn [hd foreach_from].
  - by rewrite Z.eqb_refl.
  - pose proof Hnd as [Hh [Hx Hnd']%NoDup_cons]%NoDup_cons.
    destruct (Z.eqb_spec x h) as [->|_]; [set_solver|].
    assert (Hn : nxt st !! x = Some (hd h l)).
    { cbn [app] in Hl. apply links_app in Hl as [_ Hl]. destruct l; cbn in Hl; tauto. }
    unfold bind at 1, get_next at 1. rewrite Hn. unfold bind.
    rewrite (IH (p ++ [x])); [done|by destruct p| | |cbn in Hf; lia].
    + apply NoDup_cons. split; [set_solver|done].
    + by rewrite <- app_assoc.
Qed.

Lemma foreach_prev st h l : forall q, NoDup (h :: l) -> links st (h :: l ++ q) -> q <> [] ->
  forall fuel, (length l < fuel)%nat ->
  foreach_from fuel get_prev (List.last l h) h st = Ret (reverse l) st.
Proof.
  induction l as [|x l IH] using rev_ind; intros q Hnd Hl Hq [|fuel] Hf;
    try (rewrite ?length_app in Hf; cbn in Hf; lia); cbn [foreach_from].
  - cbn. by rewrite Z.eqb_refl.
  - rewrite List.last_last. pose proof Hnd as [Hh Hnd']%NoDup_cons.
    destruct (Z.eqb_spec x h) as [->|_]; [set_solver|].
    assert (Hn : prv st !! x = Some (List.last l h)).
    { rewrite <- app_assoc in Hl. destruct l as [|y l0] using rev_ind; [cbn in Hl; destruct q; cbn in Hl; tauto|].
      rewrite List.last_last. rewrite <- app_assoc in Hl.
      change (h :: l0 ++ [y] ++ [x] ++ q) with ((h :: l0) ++ y :: x :: q) in Hl.
      apply links_app in Hl as [_ Hl]. cbn in Hl. tauto. }
    unfold bind at 1, get_prev at 1. rewrite Hn. unfold bind.
    rewrite (IH ([x] ++ q)).
    + by rewrite reverse_snoc.
    + apply NoDup_app in Hnd' as (? & _ & _). apply NoDup_cons. split; [set_solver|done].
    + by rewrite <- app_assoc in Hl.
    + done.
    + rewrite length_app in Hf. cbn in Hf. lia.
Qed.

Lemma find_from_run st h l item : forall p, p <> [] -> NoDup (h :: l) -> links st (p ++ l ++ [h]) ->
  item <> h ->
  forall fuel, (length l < fuel)%nat ->
  find_from fuel (hd h l) h item st = Ret (if decide (item ∈ l) then item else 0) st.
Proof.
  induction l as [|x l IH]; intros p Hp Hnd Hl Hi [|fuel] Hf; try (cbn in Hf; lia); cbn [hd find_from].
  - by rewrite Z.eqb_refl.
  - pose proof Hnd as [Hh [Hx Hnd']%NoDup_cons]%NoDup_cons.
    destruct (Z.eqb_spec x h) as [->|_]; [set_solver|].
    destruct (Z.eqb_spec x item) as [->|Hne].
    { unfold ret. destruct (decide (item ∈ item :: l)) as [|Hni]; [done|]. exfalso. apply Hni. by left. }
    assert (Hn : nxt st !! x = Some (hd h l)).
    { cbn [app] in Hl. apply links_app in Hl as [_ Hl]. destruct l; cbn in Hl; tauto. }
    unfold bind at 1, get_next at 1. rewrite Hn.
    rewrite (IH (p ++ [x])); [|by destruct p| |by rewrite <- app_assoc|done|cbn in Hf; lia].
    + f_equal. destruct (decide (item ∈ l)), (decide (item ∈ x :: l)); set_solver.
    + apply NoDup_cons. split; [set_solver|done].
Qed.

(** * The properties of the lists *)

(** C33: the pointer-manipulating list routines implement the list operations.  On a
    well-formed list with contents [l], the empty list included, insertion at
    either end of a fresh node, insertion before a member, removal of a member
    and removal of the first or the last node return, leave a well-formed list with the
    expected contents, and write no node outside that list and the new
    node; every other disjoint list keeps its contents. *)
Theorem list_ops_refine st h l cur h' l' :
  dll st h l -> cur ∉ h :: l ->
  dll st h' l' -> (forall y, y ∈ h' :: l' -> y ∉ cur :: h :: l) ->
  (exists s, list_push_front h cur st = Ret tt s /\ dll s h (cur :: l) /\ dll s h' l') /\
  (exists s, list_push_back h cur st = Ret tt s /\ dll s h (l ++ [cur]) /\ dll s h' l') /\
  (forall l1 x l2, l = l1 ++ x :: l2 ->
     (exists s, list_push_back x cur st = Ret tt s /\ dll s h (l1 ++ cur :: x :: l2) /\ dll s h' l') /\
     (exists s, list_drop x st = Ret tt s /\ dll s h (l1 ++ l2) /\ dll s h' l')) /\
  (forall x l1, l = x :: l1 -> exists s, list_pop_front h st = Ret tt s /\ dll s h l1 /\ dll s h' l') /\
  (forall x l1, l = l1 ++ [x] -> exists s, list_pop_back h st = Ret tt s /\ dll s h l1 /\ dll s h' l').
Proof.
  intros Hd Hc Hd' Hdis.
  assert (Hkeep : forall s, same_outside (h :: l) st s -> dll s h' l').
  { intros s Hs. eapply dll_frame; [done..|]. intros y Hy Hin. eapply Hdis; [done|]. by right. }
  split_and!.
  - destruct (list_push_front_run st h l Hd cur Hc) as (s & ? & ? & Hs). eauto 6 using dll_frame.
  - destruct (list_push_back_run st h l Hd cur Hc) as (s & ? & ? & Hs). eauto 6 using dll_frame.
  - intros l1 x l2 El. split.
    + destruct (list_push_back_at st h l Hd l1 x l2 cur El Hc) as (s & ? & ? & Hs). eauto 6 using dll_frame.
    + destruct (list_drop_run st h l Hd l1 x l2 El) as (s & ? & ? & Hs). eauto 6.
  - intros x l1 El. destruct (list_pop_front_run st h l Hd x l1 El) as (s & ? & ? & Hs). eauto 6.
  - intros x l1 El. destruct (list_pop_back_run st h l Hd x l1 El) as (s & ? & ? & Hs). eauto 6.
Qed.

(** A store with the two lists [10 -> 11, 12] and [20 -> 21], and the free node 13. *)
Definition two_lists : store :=
  mkStore (list_to_map [(10, 11); (11, 12); (12, 10); (20, 21); (21, 20)])
          (list_to_map [(10, 12); (11, 10); (12, 11); (20, 21); (21, 20)]).

Lemma two_lists_10 : dll two_lists 10 [11; 12].
Proof. split; [apply (bool_decide_unpack _); vm_compute; done|]. cbn. split_and!; reflexivity. Qed.

Lemma two_lists_20 : dll two_lists 20 [21].
Proof. split; [apply (bool_decide_unpack _); vm_compute; done|]. cbn. split_and!; reflexivity. Qed.

Lemma list_ops_refine_witness :
  exists s, list_push_back 11 13 two_lists = Ret tt s /\ dll s 10 [13; 11; 12] /\ dll s 20 [21].
Proof.
  destruct (list_ops_refine two_lists 10 [11; 12] 13 20 [21]) as (_ & _ & H & _);
    [exact two_lists_10|set_solver|exact two_lists_20|set_solver|exact (proj1 (H [] 11 [12] eq_refl))].
Defined.

(** What is behind the first node. *)
Lemma get_next_hd st h l : dll st h l -> exists n, get_next (hd h l) st = Ret n st /\ forall y l', l = y :: l' -> n = hd h l'.
Proof.
  intros Hd. unfold get_next. destruct l as [|y l]; cbn [hd].
  - exists h. by rewrite (dll_next_head st h [] Hd).
  - exists (hd h l). assert (nxt st !! y = Some (hd h l)) as ->; [|split; [done|by intros ? ? [= _ ->]]].
    destruct Hd as [_ Hl]. destruct l; cbn in *; tauto.
Qed.

(** Removing each entry while the list is walked. *)
Lemma foreach_safe_drop h fuel : forall st l n,
  dll st h l -> (length l < fuel)%nat -> (forall x l', l = x :: l' -> n = hd h l') ->
  exists s, foreach_safe_from fuel list_drop (hd h l) n h st = Ret l s /\ dll s h [].
Proof.
  induction fuel as [|fuel IH]; intros st l n Hd Hf Hn; [lia|]. cbn [foreach_safe_from]. pose proof Hd as [Hnd _].
  destruct l as [|x l]; cbn [hd]; [rewrite Z.eqb_refl; by exists st|].
  apply NoDup_cons in Hnd as [Hh _]. destruct (Z.eqb_spec x h) as [->|_]; [set_solver|].
  destruct (list_drop_run st h (x :: l) Hd [] x l eq_refl) as (s1 & E1 & Hd1 & _). rewrite (bind_run _ _ _ _ _ E1).
  rewrite (Hn x l eq_refl). cbn [app] in Hd1.
  assert (En : exists n', get_next (hd h l) s1 = Ret n' s1 /\ forall y l', l = y :: l' -> n' = hd h l').
  { by apply get_next_hd. }
  destruct En as (n' & En & Hn'). rewrite (bind_run _ _ _ _ _ En). cbn [length] in Hf.
  destruct (IH s1 l n' Hd1 ltac:(lia) Hn') as (s2 & E2 & Hd2). exists s2. split; [|done]. by rewrite (bind_run _ _ _ _ _ E2).
Qed.

(** [LIST_FOREACH_ENTRY_SAFE] visits every entry although its body removes it,
    and leaves an empty list. *)
Theorem list_foreach_safe_correct st h l fuel :
  dll st h l -> (length l < fuel)%nat -> exists s, LIST_FOREACH_ENTRY_SAFE fuel list_drop h st = Ret l s /\ dll s h [].
Proof.
  intros Hd Hf. unfold LIST_FOREACH_ENTRY_SAFE, list_front.
  assert (E1 : get_next h st = Ret (hd h l) st) by (unfold get_next; by rewrite (dll_next_head st h l Hd)). rewrite (bind_run _ _ _ _ _ E1).
  assert (En : exists n, get_next (hd h l) st = Ret n st /\ forall y l', l = y :: l' -> n = hd h l').
  { by apply get_next_hd. }
  destruct En as (n & En & Hn). rewrite (bind_run _ _ _ _ _ En). by apply foreach_safe_drop.
Qed.

(** The traversal macros visit exactly the members of the list, in list order
    and in reverse order, [list_empty] decides emptiness and [list_find] finds a
    node exactly when it is a member; fuel one above the length suffices. *)
Theorem list_traversal_correct st h l item fuel :
  dll st h l -> (length l < fuel)%nat -> item <> h ->
  LIST_FOREACH_ENTRY fuel h st = Ret l st /\
  LIST_FOREACH_ENTRY_REVERSE fuel h st = Ret (reverse l) st /\
  list_empty h st = Ret (bool_decide (l = [])) st /\
  list_find fuel h item st = Ret (if decide (item ∈ l) then item else 0) st.
Proof.
  intros Hd Hf Hi. pose proof Hd as [Hnd Hl]. split_and!.
  - unfold LIST_FOREACH_ENTRY, bind, list_front, get_next. rewrite (dll_next_head st h l Hd).
    by apply (foreach_next st h l [h]).
  - unfold LIST_FOREACH_ENTRY_REVERSE, bind, list_back, get_prev. rewrite (dll_prev_head st h l Hd).
    by apply (foreach_prev st h l [h]).
  - by apply list_empty_run.
  - unfold list_find, bind, get_next. rewrite (dll_next_head st h l Hd).
    by apply (find_from_run st h l item [h]).
Qed.

Lemma list_traversal_correct_witness :
  LIST_FOREACH_ENTRY 3 10 two_lists = Ret [11; 12] two_lists /\
  list_find 3 10 12 two_lists = Ret 12 two_lists.
Proof.
  destruct (list_traversal_correct two_lists 10 [11; 12] 12 3) as (Hf & _ & _ & Hi);
    [exact two_lists_10|cbn; lia|lia|]. split; [exact Hf|exact Hi].
Defined.
