(* ===== verification/Strings.v ===== *)
(** The memory and string functions of inc/string.h.

    Memory is a function from addresses to bytes; a pointer is an address, and
    objects do not reach over the end of the address space (a pointer that
    does is undefined in C).  A counted loop is structural on its count.  The
    loops that run to a terminating NUL take the number of bytes they may look
    at; the theorems show that any number that reaches the NUL is enough. *)

From stdpp Require Import base list.
From Stdlib Require Import ZArith Lia Bool.
From S2P Require Import Prelude.

Module Strings.

Definition mem : Type := Z -> Z.

Definition upd (m : mem) (a v : Z) : mem := fun x => if x =? a then v else m x.

Fixpoint memset_loop (n : nat) (m : mem) (l c : Z) : mem :=
  match n with
  | O => m
  | S n' => memset_loop n' (upd m l (Z.land c 255)) (l + 1) c
  end.

Definition memset (m : mem) (str c n : Z) : mem := memset_loop (Z.to_nat n) m str c.

(** [while (n-- > 0) *--d = *--s;] *)
Fixpoint move_down (n : nat) (m : mem) (d s : Z) : mem :=
  match n with
  | O => m
  | S n' => move_down n' (upd m (d - 1) (m (s - 1))) (d - 1) (s - 1)
  end.

(** [while (n-- > 0) *d++ = *s++;] *)
Fixpoint move_up (n : nat) (m : mem) (d s : Z) : mem :=
  match n with
  | O => m
  | S n' => move_up n' (upd m d (m s)) (d + 1) (s + 1)
  end.

Definition memmove (m : mem) (dst src n : Z) : mem :=
  if (src <? dst) && (src + n >? dst)
  then move_down (Z.to_nat n) m (dst + n) (src + n)
  else move_up (Z.to_nat n) m dst src.

Fixpoint memcmp_loop (n : nat) (m : mem) (s1 s2 : Z) : Z :=
  match n with
  | O => 0
  | S n' => if negb (m s1 =? m s2) then m s1 - m s2 else memcmp_loop n' m (s1 + 1) (s2 + 1)
  end.

Definition memcmp (m : mem) (v1 v2 n : Z) : Z := memcmp_loop (Z.to_nat n) m v1 v2.

(** The loop of [strncmp]; [n] is what is left of the count. *)
Fixpoint strncmp_loop (n : nat) (m : mem) (p q : Z) : Z :=
  match n with
  | O => 0
  | S n' => if truthy (m p) && (m p =? m q) then strncmp_loop n' m (p + 1) (q + 1)
            else u8 (m p) - u8 (m q)
  end.

(** For a negative count the loop is not entered and [n == 0] is false. *)
Definition strncmp (m : mem) (p q n : Z) : Z :=
  if n <? 0 then u8 (m p) - u8 (m q) else strncmp_loop (Z.to_nat n) m p q.

(** The first loop of [strncpy] gives the memory, the pointer [s] behind the
    last byte written and the count that is left. *)
Fixpoint strncpy_copy (n : nat) (m : mem) (s t : Z) : mem * Z * nat :=
  match n with
  | O => (m, s, O)
  | S n' => let m' := upd m s (m t) in
            if truthy (m t) then strncpy_copy n' m' (s + 1) (t + 1) else (m', s + 1, n')
  end.

Definition strncpy (m : mem) (s t n : Z) : mem :=
  let '(m', s', r) := strncpy_copy (Z.to_nat n) m s t in
  memset_loop r m' s' 0.

Definition safestrcpy (m : mem) (s t n : Z) : mem :=
  if n <=? 0 then m
  else let '(m', s', r) := strncpy_copy (Z.to_nat (n - 1)) m s t in
       upd m' s' 0.

Fixpoint strlen_loop (fuel : nat) (m : mem) (s n : Z) : option Z :=
  match fuel with
  | O => None
  | S f => if truthy (m (s + n)) then strlen_loop f m s (n + 1) else Some n
  end.

Definition strlen (fuel : nat) (m : mem) (s : Z) : option Z := strlen_loop fuel m s 0.

(** [*p] is read before [p >= s] is tested.  The loop goes down from the last
    character, so it ends at [s - 1] at the latest. *)
Fixpoint strrchr_loop (fuel : nat) (m : mem) (s p c : Z) : option Z :=
  match fuel with
  | O => None
  | S f => if truthy (m p) && (s <=? p)
           then if m p =? c then Some p else strrchr_loop f m s (p - 1) c
           else Some 0
  end.

Definition strrchr (fuel : nat) (m : mem) (s c : Z) : option Z :=
  match strlen fuel m s with
  | Some n => strrchr_loop fuel m s (s + n - 1) (u8 c)
  | None => None
  end.

Fixpoint strcmp (fuel : nat) (m : mem) (p q : Z) : option Z :=
  match fuel with
  | O => None
  | S f => if truthy (m p) && (m p =? m q) then strcmp f m (p + 1) (q + 1)
           else Some (u8 (m p) - u8 (m q))
  end.

Fixpoint memscan_loop (n : nat) (m : mem) (a c : Z) : Z :=
  match n with
  | O => a
  | S n' => if m a =? c then a else memscan_loop n' m (a + 1) c
  end.

Definition memscan (m : mem) (addr c size : Z) : Z := memscan_loop (Z.to_nat size) m addr c.

(** * Copying *)

Lemma upd_eq m a v : upd m a v a = v.
Proof. unfold upd. by rewrite Z.eqb_refl. Qed.

Lemma upd_ne m a v x : x <> a -> upd m a v x = m x.
Proof. unfold upd. destruct (Z.eqb_spec x a); congruence. Qed.

Lemma memset_loop_spec n m l c a :
  memset_loop n m l c a = if decide (l <= a < l + Z.of_nat n) then Z.land c 255 else m a.
Proof.
  revert m l. induction n as [|n IH]; intros m l; cbn [memset_loop].
  - rewrite decide_False by lia. done.
  - rewrite IH. unfold upd. repeat case_decide; destruct (Z.eqb_spec a l); lia.
Qed.

Lemma move_up_spec n m d s a :
  (d <= s \/ s + Z.of_nat n <= d) ->
  move_up n m d s a = if decide (d <= a < d + Z.of_nat n) then m (s + (a - d)) else m a.
Proof.
  revert m d s. induction n as [|n IH]; intros m d s H; cbn [move_up].
  - rewrite decide_False by lia. done.
  - rewrite IH by lia. case_decide as H1.
    + rewrite decide_True by lia. rewrite upd_ne by lia. f_equal. lia.
    + case_decide as H2; [|by rewrite upd_ne by lia].
      assert (a = d) as -> by lia. rewrite upd_eq. f_equal. lia.
Qed.

Lemma move_down_spec n m d s a :
  s <= d ->
  move_down n m d s a =
    if decide (d - Z.of_nat n <= a < d) then m (s + (a - d)) else m a.
Proof.
  revert m d s. induction n as [|n IH]; intros m d s H; cbn [move_down].
  - rewrite decide_False by lia. done.
  - rewrite IH by lia. case_decide as H1.
    + rewrite decide_True by lia. rewrite upd_ne by lia. f_equal. lia.
    + case_decide as H2; [|by rewrite upd_ne by lia].
      assert (a = d - 1) as -> by lia. rewrite upd_eq. f_equal. lia.
Qed.

(** [memset] and [memmove] write exactly the bytes of their destination:
    [memset] stores the low byte of its argument, [memmove] the bytes the
    source had before the call, however the two areas overlap and for an empty
    or negative count too (then nothing changes). *)
Theorem memset_memmove_exact m dst src c n a :
  memset m dst c n a = (if decide (dst <= a < dst + n) then Z.land c 255 else m a)
  /\ memmove m dst src n a = (if decide (dst <= a < dst + n) then m (src + (a - dst)) else m a).
Proof.
  split.
  - unfold memset. rewrite memset_loop_spec. repeat case_decide; lia.
  - unfold memmove. destruct (Z.ltb_spec src dst), (Z.gtb_spec (src + n) dst); cbn [andb].
    + rewrite move_down_spec by lia. case_decide; case_decide; try lia. f_equal. lia.
    + rewrite move_up_spec by lia. repeat case_decide; try lia; done.
    + rewrite move_up_spec by lia. repeat case_decide; try lia; done.
    + rewrite move_up_spec by lia. repeat case_decide; try lia; done.
Qed.

(** * Strings

    [str m s l]: the string at [s] has the characters [l], a NUL behind them. *)

Fixpoint str (m : mem) (s : Z) (l : list Z) : Prop :=
  match l with
  | [] => m s = 0
  | c :: l' => m s = c /\ 0 < c < 256 /\ str m (s + 1) l'
  end.

Lemma truthy_char c : 0 < c < 256 -> truthy c = true.
Proof. unfold truthy. destruct (Z.eqb_spec c 0); cbn; lia. Qed.

Lemma str_ext m m' s l :
  (forall a, s <= a <= s + Z.of_nat (length l) -> m' a = m a) -> str m s l -> str m' s l.
Proof.
  revert s. induction l as [|c l IH]; cbn [str length]; intros s H.
  - rewrite H by lia. done.
  - intros (E & Hc & Hl). rewrite H by lia. split_and!; [done|lia|lia|].
    apply IH; [|done]. intros. apply H. lia.
Qed.

(** Equal up to what is read of the source: the copy loop. *)
Lemma strncpy_copy_spec n m s t l m' s' r :
  str m t l -> (s + Z.of_nat n <= t \/ t + Z.of_nat (length l) < s) ->
  strncpy_copy n m s t = (m', s', r) ->
  s' = s + Z.of_nat (n `min` S (length l)) /\ r = (n - S (length l))%nat
  /\ (forall a, ~ (s <= a < s') -> m' a = m a)
  /\ (forall i, (i < n `min` length l)%nat -> Some (m' (s + Z.of_nat i)) = l !! i)
  /\ ((length l < n)%nat -> m' (s + Z.of_nat (length l)) = 0).
Proof.
  revert m s t l. induction n as [|n IH]; intros m s t l Hs Hd E; cbn [strncpy_copy] in E.
  - simplify_eq. split_and!; [lia|lia|done|lia|lia].
  - destruct l as [|c l].
    + cbn in Hs. rewrite Hs in E. cbn in E. simplify_eq. cbn [length].
      split_and!; [lia|lia| |lia|].
      * intros a Ha. rewrite upd_ne by lia. done.
      * intros _. rewrite Z.add_0_r, upd_eq. done.
    + destruct Hs as (E1 & Hc & Hl). cbn [length] in *.
      rewrite E1, (truthy_char c Hc) in E.
      apply IH with (l := l) in E; [| |lia].
      2:{ eapply str_ext; [|done]. intros a Ha. rewrite upd_ne by lia. done. }
      destruct E as (-> & -> & Hf & Hi & Hz). split_and!; [lia|lia| | |].
      * intros a Ha. rewrite Hf by lia. rewrite upd_ne by lia. done.
      * intros [|i] Hi'.
        -- rewrite Z.add_0_r, Hf by lia. by rewrite upd_eq.
        -- change ((c :: l) !! S i) with (l !! i). rewrite <- (Hi i) by lia. do 2 f_equal. lia.
      * intros Hn. rewrite <- Hz by lia. f_equal. lia.
Qed.

Lemma str_of_lookup m s l :
  Forall (fun c => 0 < c < 256) l ->
  (forall i, (i < length l)%nat -> Some (m (s + Z.of_nat i)) = l !! i) ->
  m (s + Z.of_nat (length l)) = 0 -> str m s l.
Proof.
  revert s. induction l as [|c l IH]; intros s Hc Hl Hz; cbn [str].
  - by rewrite Z.add_0_r in Hz.
  - apply Forall_cons in Hc as [Hc Hcs]. pose proof (Hl 0%nat ltac:(cbn; lia)) as H0.
    rewrite Z.add_0_r in H0. injection H0 as H0. split_and!; [done|lia|lia|].
    apply IH; [done| |].
    + intros i Hi. change (l !! i) with ((c :: l) !! S i). rewrite <- (Hl (S i)) by (cbn; lia). do 2 f_equal. lia.
    + rewrite <- Hz. cbn [length]. f_equal. lia.
Qed.

Lemma str_chars m s l : str m s l -> Forall (fun c => 0 < c < 256) l.
Proof. revert s. induction l; cbn; constructor; naive_solver. Qed.

(** [safestrcpy] leaves a terminated string in the [n] bytes at [s] (the
    first n - 1 characters of the source at most) and [strncpy] fills the [n]
    bytes with the source's characters and zeros behind them, so a name that
    fits exactly is not terminated; neither writes outside the [n] bytes. *)
Theorem string_copy_correct m s t n l (Hn : 0 < n) (Ht : str m t l)
  (Hd : s + n <= t \/ t + Z.of_nat (length l) < s) :
  str (safestrcpy m s t n) s (take (Z.to_nat (n - 1)) l)
  /\ (forall i, 0 <= i < n ->
       strncpy m s t n (s + i) = default 0 (l !! Z.to_nat i))
  /\ (forall a, ~ (s <= a < s + n) -> safestrcpy m s t n a = m a /\ strncpy m s t n a = m a).
Proof.
  unfold safestrcpy, strncpy. destruct (Z.leb_spec n 0); [lia|].
  destruct (strncpy_copy (Z.to_nat (n - 1)) m s t) as [[m1 s1] r1] eqn:E1.
  destruct (strncpy_copy (Z.to_nat n) m s t) as [[m2 s2] r2] eqn:E2.
  eapply strncpy_copy_spec in E1 as (-> & -> & Hf1 & Hi1 & Hz1); [|done|lia].
  eapply strncpy_copy_spec in E2 as (-> & -> & Hf2 & Hi2 & Hz2); [|done|lia].
  split_and!.
  - apply str_of_lookup.
    + apply Forall_take. by eapply str_chars.
    + intros i Hi. rewrite length_take in Hi. rewrite lookup_take_lt by lia.
      rewrite upd_ne by lia. apply Hi1. lia.
    + rewrite length_take. destruct (decide (length l < Z.to_nat (n - 1))%nat).
      * rewrite upd_ne by lia. replace (Z.to_nat (n - 1) `min` length l)%nat with (length l) by lia. auto.
      * replace (Z.to_nat (n - 1) `min` S (length l))%nat with
          (Z.to_nat (n - 1) `min` length l)%nat by lia. apply upd_eq.
  - intros i Hi. rewrite memset_loop_spec. case_decide as Hc.
    + rewrite lookup_ge_None_2 by lia. done.
    + destruct (decide (Z.to_nat i < length l)%nat) as [Hl|Hl].
      * replace (s + i) with (s + Z.of_nat (Z.to_nat i)) by lia.
        assert (Hr := Hi2 (Z.to_nat i) ltac:(lia)). by rewrite <- Hr.
      * assert (i = Z.of_nat (length l)) as -> by lia. rewrite Nat2Z.id, lookup_ge_None_2 by lia.
        cbn. apply Hz2. lia.
  - intros a Ha. rewrite upd_ne by lia. rewrite memset_loop_spec, decide_False by lia.
    split; [apply Hf1|apply Hf2]; lia.
Qed.

Lemma string_copy_correct_witness :
  let m := fun a => if a =? 100 then 65 else if a =? 101 then 66 else if a =? 102 then 0 else 7 in
  str m 100 [65; 66] /\ str (safestrcpy m 0 100 2) 0 [65]
  /\ strncpy m 0 100 2 1 = 66 /\ strncpy m 0 100 2 2 = 7.
Proof.
  intros m. assert (Hs : str m 100 [65; 66]) by (cbn; split_and!; (lia || reflexivity)).
  destruct (string_copy_correct m 0 100 2 [65; 66] ltac:(lia) Hs ltac:(cbn; lia)) as (H1 & H2 & H3).
  split_and!; [exact Hs|exact H1|exact (H2 1 ltac:(lia))|exact (proj2 (H3 2 ltac:(lia)))].
Defined.

(** * Comparing and searching

    [lex] is the order of byte strings: the difference of the first characters
    that differ, where the end of a string counts as 0. *)
Fixpoint lex (l k : list Z) : Z :=
  match l, k with
  | [], [] => 0
  | [], d :: _ => - d
  | c :: _, [] => c
  | c :: l', d :: k' => if c =? d then lex l' k' else c - d
  end.

Lemma lex_zero l k :
  Forall (fun c => 0 < c < 256) l -> Forall (fun c => 0 < c < 256) k -> lex l k = 0 <-> l = k.
Proof.
  intros Hl. revert k. induction Hl as [|c l Hc _ IH]; intros k Hk.
  - destruct Hk; cbn; [done|]. split; [lia|done].
  - destruct Hk as [|d k Hd Hk]; cbn; [split; [lia|done]|].
    destruct (Z.eqb_spec c d) as [->|]; [rewrite IH by done; split; congruence|].
    split; [lia|congruence].
Qed.

Lemma lex_antisym l k : lex k l = - lex l k.
Proof.
  revert k. induction l as [|c l IH]; intros [|d k]; cbn; [lia..|].
  rewrite (Z.eqb_sym d c). destruct (Z.eqb_spec c d); [apply IH|lia].
Qed.

Lemma strcmp_lex fuel m p q l k :
  str m p l -> str m q k -> (length l < fuel)%nat -> strcmp fuel m p q = Some (lex l k).
Proof.
  revert p q l k. induction fuel as [|f IH]; intros p q l k Hl Hk Hf; [lia|].
  cbn [strcmp]. destruct l as [|c l], k as [|d k]; cbn [str lex length] in *.
  - rewrite Hl, Hk. done.
  - destruct Hk as (E & Hd & _). rewrite Hl, E. cbn. f_equal. rewrite (u8_id d) by lia. done.
  - destruct Hl as (E & Hc & _). rewrite Hk, E, truthy_char by lia. cbn [andb].
    destruct (Z.eqb_spec c 0); [lia|]. f_equal. rewrite u8_id by lia. change (u8 0) with 0. lia.
  - destruct Hl as (E & Hc & Hl), Hk as (E' & Hd & Hk). rewrite E, E', truthy_char by lia. cbn [andb].
    destruct (Z.eqb_spec c d); [apply IH; (done || lia)|]. by rewrite !u8_id by lia.
Qed.

Lemma strncmp_lex n m p q l k :
  str m p l -> str m q k -> strncmp_loop n m p q = lex (take n l) (take n k).
Proof.
  revert p q l k. induction n as [|n IH]; intros p q l k Hl Hk; [done|].
  cbn [strncmp_loop]. destruct l as [|c l], k as [|d k]; cbn [str lex take] in *.
  - rewrite Hl, Hk. done.
  - destruct Hk as (E & Hd & _). rewrite Hl, E. cbn. rewrite (u8_id d) by lia. done.
  - destruct Hl as (E & Hc & _). rewrite Hk, E, truthy_char by lia. cbn [andb].
    destruct (Z.eqb_spec c 0); [lia|]. rewrite u8_id by lia. change (u8 0) with 0. lia.
  - destruct Hl as (E & Hc & Hl), Hk as (E' & Hd & Hk). rewrite E, E', truthy_char by lia. cbn [andb].
    destruct (Z.eqb_spec c d); [by apply IH|]. by rewrite !u8_id by lia.
Qed.

(** [strcmp] is 0 exactly on equal strings, [strncmp] exactly on strings that
    agree in their first [n] characters, and exchanging the arguments of either
    changes the sign of the result. *)
Theorem string_compare_correct fuel m p q n l k (Hp : str m p l) (Hq : str m q k)
  (Hf : (length l < fuel)%nat) (Hf' : (length k < fuel)%nat) (Hn : 0 <= n) :
  (exists r, strcmp fuel m p q = Some r /\ (r = 0 <-> l = k) /\ strcmp fuel m q p = Some (- r))
  /\ (strncmp m p q n = 0 <-> take (Z.to_nat n) l = take (Z.to_nat n) k)
  /\ strncmp m q p n = - strncmp m p q n.
Proof.
  pose proof (str_chars _ _ _ Hp) as Cl. pose proof (str_chars _ _ _ Hq) as Ck.
  unfold strncmp. destruct (Z.ltb_spec n 0); [lia|].
  split; [exists (lex l k)|]; split_and!.
  - by apply strcmp_lex.
  - by apply lex_zero.
  - rewrite (strcmp_lex _ _ _ _ k l) by done. by rewrite lex_antisym.
  - rewrite (strncmp_lex _ _ _ _ l k) by done. apply lex_zero; by apply Forall_take.
  - rewrite (strncmp_lex _ _ p q l k), (strncmp_lex _ _ q p k l) by done. apply lex_antisym.
Qed.

Lemma strlen_loop_spec fuel m s n l :
  str m (s + n) l -> (length l < fuel)%nat -> strlen_loop fuel m s n = Some (n + Z.of_nat (length l)).
Proof.
  revert n l. induction fuel as [|f IH]; intros n l Hl Hf; [lia|]. cbn [strlen_loop].
  destruct l as [|c l]; cbn [str length] in *.
  - rewrite Hl. cbn. f_equal. lia.
  - destruct Hl as (E & Hc & Hl). rewrite E, truthy_char by lia.
    rewrite (IH _ l); [f_equal; lia| |lia]. by rewrite Z.add_assoc.
Qed.

Lemma str_lookup m s l i c : str m s l -> l !! i = Some c -> m (s + Z.of_nat i) = c.
Proof.
  revert s i. induction l as [|d l IH]; intros s i Hl Hi; [done|].
  destruct Hl as (E & _ & Hl). destruct i as [|i].
  - injection Hi as <-. by rewrite Z.add_0_r.
  - rewrite <- (IH (s + 1) i) by done. f_equal. lia.
Qed.

(** Going down from index [k - 1], the loop finds the last [c] before [k]. *)
Lemma strrchr_loop_spec fuel m s c l k :
  str m s l -> 0 < s -> (k <= length l)%nat -> (k < fuel)%nat ->
  exists r, strrchr_loop fuel m s (s + Z.of_nat k - 1) c = Some r
    /\ ((r = 0 /\ c ∉ take k l)
        \/ exists i, (i < k)%nat /\ r = s + Z.of_nat i /\ l !! i = Some c
             /\ forall j, (i < j < k)%nat -> l !! j <> Some c).
Proof.
  intros Hl Hs. revert k. induction fuel as [|f IH]; intros k Hk Hf; [lia|]. cbn [strrchr_loop].
  destruct k as [|k].
  - exists 0. split; [|left; split; [done|apply not_elem_of_nil]].
    destruct (Z.leb_spec s (s + Z.of_nat 0 - 1)); [lia|]. by rewrite andb_false_r.
  - replace (s + Z.of_nat (S k) - 1) with (s + Z.of_nat k) by lia.
    destruct (lookup_lt_is_Some_2 l k ltac:(lia)) as [d Hd].
    pose proof (str_lookup _ _ _ _ _ Hl Hd) as ->.
    assert (Hdc : 0 < d < 256) by (eapply Forall_lookup_1 in Hd; [exact Hd|by eapply str_chars]).
    rewrite (truthy_char d Hdc). destruct (Z.leb_spec s (s + Z.of_nat k)); [|lia]. cbn [andb].
    destruct (Z.eqb_spec d c) as [->|Hne].
    + eexists; split; [done|]. right. exists k. split_and!; [lia|done|done|lia].
    + destruct (IH k ltac:(lia) ltac:(lia)) as (r & E & Hr). exists r. split; [done|].
      destruct Hr as [[-> Hnot]|(i & Hi & -> & Hc & Hlast)]; [left|right].
      * split; [done|]. rewrite (take_S_r _ _ _ Hd). rewrite elem_of_app, list_elem_of_singleton. naive_solver.
      * exists i. split_and!; [lia|done|done|]. intros j Hj.
        destruct (decide (j = k)) as [->|]; [congruence|]. apply Hlast. lia.
Qed.

(** [strlen] is the number of characters, and [strrchr] gives the address of
    the last occurrence of a character, NULL when there is none. *)
Theorem strlen_strrchr_correct fuel m s c l (Hs : str m s l) (Hp : 0 < s) (Hc : 0 <= c < 256)
  (Hf : (length l < fuel)%nat) :
  strlen fuel m s = Some (Z.of_nat (length l))
  /\ exists r, strrchr fuel m s c = Some r
    /\ ((r = 0 /\ c ∉ l)
        \/ exists i, r = s + Z.of_nat i /\ l !! i = Some c
             /\ forall j, (i < j)%nat -> l !! j <> Some c).
Proof.
  assert (E : strlen fuel m s = Some (Z.of_nat (length l))).
  { unfold strlen. rewrite (strlen_loop_spec _ _ _ _ l); [done| |done]. by rewrite Z.add_0_r. }
  split; [done|]. unfold strrchr. rewrite E, u8_id by lia.
  destruct (strrchr_loop_spec fuel m s c l (length l)) as (r & Er & Hr); [done|done|lia|done|].
  exists r. split; [done|]. destruct Hr as [[-> Hnot]|(i & Hi & -> & Hci & Hlast)]; [left|right].
  - by rewrite firstn_all in Hnot.
  - exists i. split_and!; [done|done|]. intros j Hj Hcj. apply (Hlast j); [|done].
    apply lookup_lt_Some in Hcj. lia.
Qed.

Lemma memcmp_loop_spec n m p q :
  (memcmp_loop n m p q = 0 /\ forall i, 0 <= i < Z.of_nat n -> m (p + i) = m (q + i))
  \/ exists i, 0 <= i < Z.of_nat n /\ (forall j, 0 <= j < i -> m (p + j) = m (q + j))
       /\ m (p + i) <> m (q + i) /\ memcmp_loop n m p q = m (p + i) - m (q + i).
Proof.
  revert p q. induction n as [|n IH]; intros p q; cbn [memcmp_loop]; [left; split; [done|lia]|].
  destruct (Z.eqb_spec (m p) (m q)) as [E|E]; cbn [negb].
  - assert (H0 : forall j, 0 <= j < 1 -> m (p + j) = m (q + j)).
    { intros j Hj. replace j with 0 by lia. by rewrite !Z.add_0_r. }
    assert (HS : forall j, m (p + 1 + (j - 1)) = m (p + j) /\ m (q + 1 + (j - 1)) = m (q + j)).
    { intros j. split; f_equal; lia. }
    destruct (IH (p + 1) (q + 1)) as [[E' H]|(i & Hi & Hj & Hne & E')]; [left|right].
    + split; [done|]. intros i Hi. destruct (decide (i < 1)); [apply H0; lia|].
      destruct (HS i) as [<- <-]. apply H. lia.
    + exists (i + 1). rewrite !Z.add_assoc in *. rewrite <- !(Z.add_assoc _ i 1), !(Z.add_comm i 1), !Z.add_assoc.
      split_and!; [lia|lia| |done|done].
      intros j Hj'. destruct (decide (j < 1)); [apply H0; lia|].
      destruct (HS j) as [<- <-]. apply Hj. lia.
  - right. exists 0. rewrite !Z.add_0_r. split_and!; [lia|lia|lia|done|done].
Qed.

(** [memcmp] compares areas byte by byte: 0 for equal areas, otherwise the
    difference of the first bytes that differ; [memscan] stops at the first
    byte equal to [c], or behind the area. *)
Theorem memcmp_memscan_correct m p q n c :
  ((memcmp m p q n = 0 /\ forall i, 0 <= i < n -> m (p + i) = m (q + i))
   \/ exists i, 0 <= i < n /\ (forall j, 0 <= j < i -> m (p + j) = m (q + j))
       /\ m (p + i) <> m (q + i) /\ memcmp m p q n = m (p + i) - m (q + i))
  /\ exists i, 0 <= i /\ memscan m p c n = p + i
       /\ (forall j, 0 <= j < i -> m (p + j) <> c) /\ (i = Z.max n 0 \/ i < n /\ m (p + i) = c).
Proof.
  split.
  - destruct (memcmp_loop_spec (Z.to_nat n) m p q) as [[E H]|(i & Hi & Hr)]; [left|right].
    + split; [done|]. intros i Hi. apply H. lia.
    + exists i. split; [lia|done].
  - unfold memscan. replace (Z.max n 0) with (Z.of_nat (Z.to_nat n)) by lia.
    assert (Hn : forall i, i < Z.of_nat (Z.to_nat n) -> 0 <= i -> i < n) by lia.
    revert Hn. generalize (Z.to_nat n) as k. intros k Hn.
    cut (exists i, 0 <= i /\ memscan_loop k m p c = p + i
       /\ (forall j, 0 <= j < i -> m (p + j) <> c) /\ (i = Z.of_nat k \/ i < Z.of_nat k /\ m (p + i) = c)).
    { intros (i & Hi & E & Hj & [->|[Hk Hc]]); eexists; split_and!; eauto. }
    clear Hn. revert p. induction k as [|k IH]; intros p; cbn [memscan_loop].
    + exists 0. split_and!; [lia|lia|lia|by left].
    + destruct (Z.eqb_spec (m p) c) as [Hc|Hc].
      * exists 0. rewrite Z.add_0_r. split_and!; [lia|done|lia|right; split; [lia|done]].
      * destruct (IH (p + 1)) as (i & Hi & E & Hj & Hr). exists (1 + i). rewrite Z.add_assoc.
        split_and!; [lia|done| |destruct Hr as [->|[? ?]]; [left|right]; (lia || split; (lia || done))].
        intros j Hj'. destruct (decide (j = 0)) as [->|]; [by rewrite Z.add_0_r|].
        replace (p + j) with (p + 1 + (j - 1)) by lia. apply Hj. lia.
Qed.

(** * Bounded strings

    The characters of the string at [p] before its NUL, [n] at most. *)
Fixpoint chars (n : nat) (m : mem) (p : Z) : list Z :=
  match n with
  | O => []
  | S n' => if m p =? 0 then [] else m p :: chars n' m (p + 1)
  end.

Lemma chars_ext n m m' p p' :
  (forall i, 0 <= i < Z.of_nat n -> m' (p' + i) = m (p + i)) -> chars n m' p' = chars n m p.
Proof.
  revert p p'. induction n as [|n IH]; intros p p' H; [done|]. cbn [chars].
  pose proof (H 0 ltac:(lia)) as H0. rewrite !Z.add_0_r in H0. rewrite H0. destruct (m p =? 0); [done|]. f_equal.
  apply IH. intros i Hi. rewrite <- !Z.add_assoc. apply H. lia.
Qed.

Lemma length_chars n m p : (length (chars n m p) <= n)%nat.
Proof. revert p. induction n as [|n IH]; intros p; cbn; [lia|]. destruct (m p =? 0); cbn; [lia|]. specialize (IH (p + 1)). lia. Qed.

Lemma chars_nonzero n m p : Forall (fun c => c <> 0) (chars n m p).
Proof.
  revert p. induction n as [|n IH]; intros p; cbn; [constructor|]. destruct (Z.eqb_spec (m p) 0); constructor; [done|apply IH].
Qed.

(** [n] bytes that hold a string padded with zeros. *)
Lemma chars_of_list n m p c :
  Forall (fun c => c <> 0) c -> (length c <= n)%nat ->
  (forall i, 0 <= i < Z.of_nat n -> m (p + i) = default 0 (c !! Z.to_nat i)) -> chars n m p = c.
Proof.
  intros Hc. revert n p. induction Hc as [|x c Hx _ IH]; intros n p Hl H; cbn [length] in Hl.
  - destruct n as [|n]; [done|]. cbn [chars]. pose proof (H 0 ltac:(lia)) as H0. rewrite Z.add_0_r in H0. by rewrite H0.
  - destruct n as [|n]; [lia|]. cbn [chars]. pose proof (H 0 ltac:(lia)) as H0. rewrite Z.add_0_r in H0. change (m p = x) in H0. rewrite H0.
    destruct (Z.eqb_spec x 0); [done|]. f_equal. apply IH; [lia|]. intros i Hi.
    rewrite <- Z.add_assoc, H by lia. replace (Z.to_nat (1 + i)) with (S (Z.to_nat i)) by lia. done.
Qed.

(** [strncmp] compares the bounded strings. *)
Lemma strncmp_chars n m p q :
  (forall i, 0 <= i < Z.of_nat n -> 0 <= m (p + i) < 256 /\ 0 <= m (q + i) < 256) ->
  strncmp_loop n m p q = 0 <-> chars n m p = chars n m q.
Proof.
  revert p q. induction n as [|n IH]; intros p q H; [done|]. cbn [strncmp_loop chars].
  pose proof (H 0 ltac:(lia)) as H0. rewrite !Z.add_0_r in H0.
  assert (Hn : forall i, 0 <= i < Z.of_nat n -> 0 <= m (p + 1 + i) < 256 /\ 0 <= m (q + 1 + i) < 256).
  { intros i Hi. rewrite <- !Z.add_assoc. apply H. lia. }
  unfold truthy. rewrite !u8_id by lia.
  destruct (Z.eqb_spec (m p) 0) as [Ep|Ep], (Z.eqb_spec (m p) (m q)) as [E|E]; cbn [negb andb].
  - destruct (Z.eqb_spec (m q) 0); [|lia]. split; [done|lia].
  - destruct (Z.eqb_spec (m q) 0); [lia|]. split; [lia|done].
  - rewrite IH by done. destruct (Z.eqb_spec (m q) 0); [lia|]. split; [intros ->; by rewrite E|congruence].
  - destruct (Z.eqb_spec (m q) 0); [split; [lia|done]|]. split; [lia|congruence].
Qed.

(** [strncpy] byte by byte, whether or not the source is terminated. *)
Lemma strncpy_exact m s t n a :
  0 <= n -> s + n <= t \/ t + n <= s ->
  strncpy m s t n a =
    if decide (s <= a < s + n) then default 0 (chars (Z.to_nat n) m t !! Z.to_nat (a - s)) else m a.
Proof.
  intros Hn. assert (exists k, n = Z.of_nat k) as [k ->] by (exists (Z.to_nat n); lia). clear Hn.
  unfold strncpy. rewrite Nat2Z.id.
  revert m s t. induction k as [|k IH]; intros m s t Hd; cbn [strncpy_copy chars].
  - rewrite decide_False by lia. done.
  - unfold truthy. destruct (Z.eqb_spec (m t) 0) as [E|E]; cbn [negb].
    + rewrite memset_loop_spec, E. unfold upd. repeat case_decide; destruct (Z.eqb_spec a s); try lia; done.
    + rewrite IH by lia. rewrite (chars_ext k m _ (t + 1)) by (intros i Hi; apply upd_ne; lia).
      case_decide as H1.
      * rewrite decide_True by lia. replace (Z.to_nat (a - s)) with (S (Z.to_nat (a - (s + 1)))) by lia. done.
      * case_decide as H2; [|by rewrite upd_ne by lia]. assert (a = s) as -> by lia. by rewrite upd_eq, Z.sub_diag.
Qed.

End Strings.
