(* ===== verification/Timer.v ===== *)
(** Kernel event timers: the timer wheel of kern/timer.c and the inline
    functions of inc/linux/time.h.

    The wheel is five arrays of lists of timers ([tvecs], tv1 to tv5).  A list
    is the list of the addresses of its timers; inc/list.h's routines act on
    it as the lemmas of [Lists] say ([list_push_back_prev] is the insertion
    at [vec->prev] that the wheel uses).  A timer's [linked] says whether its
    [list.next] is non-NULL.  [calls] records the calls [fn(data)] that
    [run_timer_list] has made: timer, tick, function and data. *)

From stdpp Require Import base list gmap.
From Stdlib Require Import ZArith Lia Bool.
From S2P Require Import Prelude Lists.

Module Timer.

Definition TVN_BITS : Z := 6.
Definition TVR_BITS : Z := 8.
Definition TVN_SIZE : Z := Z.shiftl 1 TVN_BITS.
Definition TVR_SIZE : Z := Z.shiftl 1 TVR_BITS.
Definition TVN_MASK : Z := TVN_SIZE - 1.
Definition TVR_MASK : Z := TVR_SIZE - 1.

Record timer_list : Type := mkTimer {
  linked : bool;
  expires : Z;
  data : Z;
  function : Z
}.

(** [struct timer_vec] and [struct timer_vec_root] differ in the size of
    [vec] only. *)
Record timer_vec : Type := mkVec { index : Z; vec : list (list Z) }.

Record wheel : Type := mkWheel {
  tvecs : list timer_vec;
  timer_jiffies : Z;
  jiffies : Z;
  timers : gmap Z timer_list;
  timerlock : bool;
  calls : list (Z * Z * Z * Z)
}.

Definition NOOF_TVECS : nat := 5.

Definition with_tvecs (v : list timer_vec) (w : wheel) : wheel :=
  mkWheel v (timer_jiffies w) (jiffies w) (timers w) (timerlock w) (calls w).
Definition with_timers (m : gmap Z timer_list) (w : wheel) : wheel :=
  mkWheel (tvecs w) (timer_jiffies w) (jiffies w) m (timerlock w) (calls w).
Definition with_lock (b : bool) (w : wheel) : wheel :=
  mkWheel (tvecs w) (timer_jiffies w) (jiffies w) (timers w) b (calls w).
Definition with_tick (t : Z) (w : wheel) : wheel :=
  mkWheel (tvecs w) t (jiffies w) (timers w) (timerlock w) (calls w).
Definition with_call (c : Z * Z * Z * Z) (w : wheel) : wheel :=
  mkWheel (tvecs w) (timer_jiffies w) (jiffies w) (timers w) (timerlock w) (calls w ++ [c]).

Definition acquire : M wheel unit :=
  fun w => if timerlock w then Block w else Ret tt (with_lock true w).

Definition release : M wheel unit :=
  fun w => if timerlock w then Ret tt (with_lock false w) else Panic w.

(** A timer that is not in the store is a fault. *)
Definition get_timer (t : Z) : M wheel timer_list :=
  fun w => match timers w !! t with Some tm => Ret tm w | None => Panic w end.

Definition set_timer (t : Z) (tm : timer_list) : M wheel unit :=
  modify (fun w => with_timers (<[t := tm]> (timers w)) w).

Definition set_linked (t : Z) (b : bool) : M wheel unit :=
  let* tm := get_timer t in
  set_timer t (mkTimer b (expires tm) (data tm) (function tm)).

Definition set_expires (t e : Z) : M wheel unit :=
  let* tm := get_timer t in
  set_timer t (mkTimer (linked tm) e (data tm) (function tm)).

(** The index and the lists of [tvecs[n]]. *)
Definition idx_of (w : wheel) (n : nat) : Z :=
  match tvecs w !! n with Some tv => index tv | None => 0 end.

Definition slot (w : wheel) (n : nat) (i : Z) : list Z :=
  match tvecs w !! n with
  | Some tv => default [] (vec tv !! Z.to_nat i)
  | None => []
  end.

Definition alter_vec (n : nat) (f : timer_vec -> timer_vec) (w : wheel) : wheel :=
  with_tvecs (alter f n (tvecs w)) w.

Definition set_slot (n : nat) (i : Z) (l : list Z) : wheel -> wheel :=
  alter_vec n (fun tv => mkVec (index tv) (<[Z.to_nat i := l]> (vec tv))).

Definition set_index (n : nat) (i : Z) : wheel -> wheel :=
  alter_vec n (fun tv => mkVec i (vec tv)).

(** [list_drop(&timer->list)]: out of the list it is in, if any. *)
Definition drop_from (t : Z) (tv : timer_vec) : timer_vec :=
  mkVec (index tv) (map (filter (.≠ t)) (vec tv)).

Definition list_drop (t : Z) : M wheel unit :=
  modify (fun w => with_tvecs (map (drop_from t) (tvecs w)) w).

(** [list_push_back(vec->prev, &timer->list)]. *)
Definition put (n : nat) (i t : Z) : M wheel unit :=
  modify (fun w => set_slot n i (list_push_back_prev (slot w n i) t) w) ;;
  set_linked t true.

Definition init_timervecs : M wheel unit :=
  modify (fun w =>
    with_lock false
      (with_tvecs (map (fun ntv => mkVec (index ntv.2)
                          (replicate (Z.to_nat (if (ntv.1 =? 0)%nat then TVR_SIZE else TVN_SIZE)) []))
                       (zip (seq 0 NOOF_TVECS) (tvecs w))) w)).

Definition init_timer (t : Z) : M wheel unit := set_linked t false.

Definition timer_pending (t : Z) : M wheel bool :=
  let* tm := get_timer t in ret (linked tm).

Definition internal_add_timer (t : Z) : M wheel unit :=
  let* tm := get_timer t in
  let expires := expires tm in
  let* tj := gets timer_jiffies in
  let idx := u64 (expires - tj) in
  if idx <? TVR_SIZE then
    put 0 (Z.land expires TVR_MASK) t
  else if idx <? Z.shiftl 1 (TVR_BITS + TVN_BITS) then
    put 1 (Z.land (Z.shiftr expires TVR_BITS) TVN_MASK) t
  else if idx <? Z.shiftl 1 (TVR_BITS + 2 * TVN_BITS) then
    put 2 (Z.land (Z.shiftr expires (TVR_BITS + TVN_BITS)) TVN_MASK) t
  else if idx <? Z.shiftl 1 (TVR_BITS + 3 * TVN_BITS) then
    put 3 (Z.land (Z.shiftr expires (TVR_BITS + 2 * TVN_BITS)) TVN_MASK) t
  else if s64 idx <? 0 then
    let* i := gets (fun w => idx_of w 0) in put 0 i t
  else if idx <=? 0xffffffff then
    put 4 (Z.land (Z.shiftr expires (TVR_BITS + 3 * TVN_BITS)) TVN_MASK) t
  else
    set_linked t true.

Definition add_timer (t : Z) : M wheel unit :=
  acquire ;;
  let* p := timer_pending t in
  if p then release
  else internal_add_timer t ;; release.

Definition detach_timer (t : Z) : M wheel Z :=
  let* p := timer_pending t in
  if negb p then ret 0
  else list_drop t ;; ret 1.

Definition mod_timer (t e : Z) : M wheel Z :=
  acquire ;;
  set_expires t e ;;
  let* r := detach_timer t in
  internal_add_timer t ;;
  release ;;
  ret r.

Definition del_timer (t : Z) : M wheel Z :=
  acquire ;;
  let* r := detach_timer t in
  set_linked t false ;;
  release ;;
  ret r.

(** [curr->next] inside a list; [None] is the head. *)
Fixpoint next_in (l : list Z) (x : Z) : option Z :=
  match l with
  | [] => None
  | y :: l' => if y =? x then head l' else next_in l' x
  end.

Fixpoint cascade_loop (fuel : nat) (n : nat) (i : Z) (curr : option Z) : M wheel unit :=
  match curr with
  | None => ret tt
  | Some tmp =>
      match fuel with
      | O => nofuel
      | S fuel' =>
          let* next := gets (fun w => next_in (slot w n i) tmp) in
          list_drop tmp ;;
          internal_add_timer tmp ;;
          cascade_loop fuel' n i next
      end
  end.

Definition cascade_timers (fuel : nat) (n : nat) : M wheel unit :=
  let* i := gets (fun w => idx_of w n) in
  let* curr := gets (fun w => head (slot w n i)) in
  cascade_loop fuel n i curr ;;
  modify (set_slot n i []) ;;
  modify (set_index n (Z.land (i + 1) TVN_MASK)).

(** The [do ... while] of [run_timer_list], over the levels left. *)
Fixpoint cascades (fuel : nat) (ns : list nat) : M wheel unit :=
  match ns with
  | [] => ret tt
  | n :: ns' =>
      cascade_timers fuel n ;;
      let* i := gets (fun w => idx_of w n) in
      if i =? 1 then cascades fuel ns' else ret tt
  end.

Section Run.
(** The functions the timers call, by address. *)
Context (call : Z -> Z -> M wheel unit).

(** From the label [repeat] to the end of the list. *)
Fixpoint repeat_loop (fuel : nat) : M wheel unit :=
  match fuel with
  | O => nofuel
  | S fuel' =>
      let* i := gets (fun w => idx_of w 0) in
      let* curr := gets (fun w => head (slot w 0 i)) in
      match curr with
      | None => ret tt
      | Some t =>
          let* tm := get_timer t in
          let fn := function tm in
          let data := data tm in
          let* _r := detach_timer t in
          set_linked t false ;;
          release ;;
          modify (fun w => with_call (t, timer_jiffies w, fn, data) w) ;;
          call fn data ;;
          acquire ;;
          repeat_loop fuel'
      end
  end.

Definition tick (fuel : nat) : M wheel unit :=
  let* i := gets (fun w => idx_of w 0) in
  when (i =? 0) (cascades fuel [1; 2; 3; 4]%nat) ;;
  repeat_loop fuel ;;
  modify (fun w => with_tick (u64 (timer_jiffies w + 1)) w) ;;
  modify (fun w => set_index 0 (Z.land (idx_of w 0 + 1) TVR_MASK) w).

Fixpoint run_loop (fuel : nat) : M wheel unit :=
  match fuel with
  | O => nofuel
  | S fuel' =>
      let* d := gets (fun w => s64 (u64 (jiffies w - timer_jiffies w))) in
      if d >=? 0 then tick fuel' ;; run_loop fuel' else ret tt
  end.

Definition run_timer_list (fuel : nat) : M wheel unit :=
  acquire ;;
  run_loop fuel ;;
  release.
End Run.

(** * Reading the wheel after an update *)

Definition size (n : nat) : Z := if (n =? 0)%nat then 256 else 64.

Definition shape (w : wheel) : Prop :=
  length (tvecs w) = 5%nat /\
  forall n tv, tvecs w !! n = Some tv -> length (vec tv) = Z.to_nat (size n).

Lemma slot_set_slot w n i l m j :
  shape w -> (n < 5)%nat -> 0 <= i < size n -> 0 <= j ->
  slot (set_slot n i l w) m j = if decide (m = n /\ j = i) then l else slot w m j.
Proof.
  intros [Hl Hs] Hn Hi Hj. unfold slot, set_slot, alter_vec, with_tvecs; cbn [tvecs].
  destruct (lookup_lt_is_Some_2 (tvecs w) n) as [tv E]; [lia|]. pose proof (Hs n tv E) as Hv.
  destruct (decide (m = n)) as [->|Hne].
  - rewrite list_lookup_alter_eq, E. cbn. destruct (decide (j = i)) as [->|Hji].
    + rewrite list_lookup_insert_eq by lia. rewrite decide_True by done. done.
    + rewrite list_lookup_insert_ne by lia. rewrite decide_False by tauto. done.
  - rewrite list_lookup_alter_ne by done. rewrite decide_False by tauto. done.
Qed.

Lemma slot_set_index w n k m j : slot (set_index n k w) m j = slot w m j.
Proof.
  unfold slot, set_index, alter_vec, with_tvecs; cbn [tvecs]. destruct (decide (m = n)) as [->|].
  - rewrite list_lookup_alter_eq. by destruct (tvecs w !! n).
  - by rewrite list_lookup_alter_ne.
Qed.

Lemma idx_set_slot w n i l m : idx_of (set_slot n i l w) m = idx_of w m.
Proof.
  unfold idx_of, set_slot, alter_vec, with_tvecs; cbn [tvecs]. destruct (decide (m = n)) as [->|].
  - rewrite list_lookup_alter_eq. by destruct (tvecs w !! n).
  - by rewrite list_lookup_alter_ne.
Qed.

Lemma idx_set_index w n k m :
  shape w -> (n < 5)%nat -> idx_of (set_index n k w) m = if decide (m = n) then k else idx_of w m.
Proof.
  intros [Hl _] Hn. unfold idx_of, set_index, alter_vec, with_tvecs; cbn [tvecs].
  destruct (lookup_lt_is_Some_2 (tvecs w) n) as [tv E]; [lia|]. destruct (decide (m = n)) as [->|].
  - by rewrite list_lookup_alter_eq, E.
  - by rewrite list_lookup_alter_ne.
Qed.

Definition dropped (t : Z) (w : wheel) : wheel := with_tvecs (map (drop_from t) (tvecs w)) w.

Lemma slot_dropped w t n i : slot (dropped t w) n i = filter (.≠ t) (slot w n i).
Proof.
  unfold slot, dropped, with_tvecs; cbn [tvecs]. rewrite list_lookup_fmap.
  destruct (tvecs w !! n) as [tv|]; cbn; [|done]. rewrite list_lookup_fmap.
  by destruct (vec tv !! Z.to_nat i).
Qed.

Lemma idx_dropped w t n : idx_of (dropped t w) n = idx_of w n.
Proof.
  unfold idx_of, dropped, with_tvecs; cbn [tvecs]. rewrite list_lookup_fmap. by destruct (tvecs w !! n).
Qed.

Lemma shape_alter w n f :
  shape w -> (forall tv, length (vec (f tv)) = length (vec tv)) -> shape (alter_vec n f w).
Proof.
  intros [Hl Hs] Hf. split; unfold alter_vec, with_tvecs; cbn [tvecs]; [by rewrite length_alter|].
  intros m tv. destruct (decide (m = n)) as [->|].
  - rewrite list_lookup_alter_eq. destruct (tvecs w !! n) as [tv'|] eqn:E; cbn; [|done].
    intros [= <-]. rewrite Hf. eauto.
  - rewrite list_lookup_alter_ne by done. apply Hs.
Qed.

Lemma shape_set_slot w n i l : shape w -> shape (set_slot n i l w).
Proof. intros H. apply shape_alter; [done|]. intros tv. apply length_insert. Qed.

Lemma shape_set_index w n i : shape w -> shape (set_index n i w).
Proof. intros H. by apply shape_alter. Qed.

Lemma shape_dropped w t : shape w -> shape (dropped t w).
Proof.
  intros [Hl Hs]. split; unfold dropped, with_tvecs; cbn [tvecs]; [by rewrite length_map|].
  intros n tv. rewrite list_lookup_fmap. destruct (tvecs w !! n) as [tv'|] eqn:E; cbn; [|done].
  intros [= <-]. cbn. rewrite length_map. eauto.
Qed.

(** * Where a timer belongs

    [g n] is the number of ticks one list of level [n >= 1] spans.  Level [n]
    has been cascaded up to tick [T n], the current tick or the next one. *)

Definition g (n : nat) : Z := 2 ^ (2 + 6 * Z.of_nat n).

Definition cdiv (a b : Z) : Z := (a + b - 1) / b.

Definition place (tj : Z) (T : nat -> Z) (n : nat) (i e : Z) : Prop :=
  if (n =? 0)%nat
  then (tj <= e < tj + 256 /\ i = e mod 256) \/ (e < tj /\ i = tj mod 256)
  else cdiv (T n) (g n) <= e / g n < cdiv (T n) (g n) + 64 /\ i = (e / g n) mod 64.

Definition pending (w : wheel) (t : Z) : Prop := exists n i, 0 <= i /\ t ∈ slot w n i.

Definition max_tick : Z := 2 ^ 62.

Record inv (T : nat -> Z) (w : wheel) : Prop := {
  inv_shape : shape w;
  inv_tj : 0 <= timer_jiffies w < max_tick;
  inv_T : forall n, timer_jiffies w <= T n <= timer_jiffies w + 1;
  inv_idx0 : idx_of w 0 = timer_jiffies w mod 256;
  inv_idx : forall n, (1 <= n < 5)%nat -> idx_of w n = cdiv (T n) (g n) mod 64;
  inv_place : forall n i t, 0 <= i -> t ∈ slot w n i ->
    exists tm, timers w !! t = Some tm /\ linked tm = true /\ 0 <= expires tm < max_tick /\
      place (timer_jiffies w) T n i (expires tm);
  inv_nodup : forall n i, 0 <= i -> NoDup (slot w n i);
  inv_uniq : forall n i m j t, 0 <= i -> 0 <= j -> t ∈ slot w n i -> t ∈ slot w m j -> n = m /\ i = j
}.

(** The part of the state an addition keeps. *)
Definition same_rest (w w' : wheel) : Prop :=
  timer_jiffies w' = timer_jiffies w /\ jiffies w' = jiffies w /\
  timerlock w' = timerlock w /\ calls w' = calls w.

Definition set_link (b : bool) (tm : timer_list) : timer_list :=
  mkTimer b (expires tm) (data tm) (function tm).

(** [t] has been put into list [i] of level [n] and nothing else changed. *)
Definition put_at (n : nat) (i t : Z) (tm : timer_list) (w w' : wheel) : Prop :=
  same_rest w w' /\ timers w' = <[t := set_link true tm]> (timers w) /\
  (forall m, idx_of w' m = idx_of w m) /\ shape w' /\
  forall m j, 0 <= j -> slot w' m j = if decide (m = n /\ j = i)
                                      then list_push_back_prev (slot w n i) t else slot w m j.

Lemma put_run n i t tm w :
  shape w -> (n < 5)%nat -> 0 <= i < size n -> timers w !! t = Some tm ->
  exists w', put n i t w = Ret tt w' /\ put_at n i t tm w w'.
Proof.
  intros Hs Hn Hi Ht. unfold put, bind at 1, modify at 1, set_linked, bind, get_timer.
  replace (timers (set_slot n i _ w) !! t) with (Some tm). eexists; split; [reflexivity|]. split_and!; try done.
  - intros m. apply (idx_set_slot w n i (list_push_back_prev (slot w n i) t) m).
  - by apply (shape_set_slot w n i (list_push_back_prev (slot w n i) t)).
  - intros m j Hj. by apply (slot_set_slot w n i (list_push_back_prev (slot w n i) t)).
Qed.

Lemma put_at_inv T n i t tm w w' :
  inv T w -> put_at n i t tm w w' -> 0 <= i -> ~ pending w t ->
  0 <= expires tm < max_tick -> place (timer_jiffies w) T n i (expires tm) ->
  inv T w' /\ (forall x, pending w' x <-> x = t \/ pending w x).
Proof.
  intros [Hs Htj HT Hi0 Hidx Hpl Hnd Hu] ((E1 & E2 & E3 & E4) & Et & Ei & Hs' & Hsl) Hi Hp He Hplace.
  assert (Hin : forall m j x, 0 <= j -> x ∈ slot w' m j <-> (x = t /\ m = n /\ j = i) \/ x ∈ slot w m j).
  { intros m j x Hj. rewrite Hsl by done. destruct (decide (m = n /\ j = i)) as [[-> ->]|Hne]; [|tauto].
    rewrite elem_of_push_back_prev. tauto. }
  assert (Hnt : forall m j x, 0 <= j -> x ∈ slot w m j -> x <> t) by (intros m j x Hj Hx ->; apply Hp; by exists m, j).
  split.
  - constructor; rewrite ?E1; try done.
    + by rewrite Ei.
    + intros m Hm. rewrite Ei. auto.
    + intros m j x Hj Hx. apply Hin in Hx as [(-> & -> & ->)|Hx]; [|..|done].
      * rewrite Et, lookup_insert_eq. by exists (set_link true tm).
      * rewrite Et, lookup_insert_ne; [by apply Hpl|]. intros <-. by eapply Hnt.
    + intros m j Hj. rewrite Hsl by done. destruct (decide (m = n /\ j = i)) as [[-> ->]|]; [|auto].
      apply NoDup_push_back_prev; [auto|]. intros Hx. by eapply Hnt.
    + intros m j k l x Hj Hl [(-> & -> & ->)|Hx]%Hin [(Hx' & -> & ->)|Hx']%Hin; try done.
      * exfalso. by eapply Hnt.
      * subst. exfalso. by eapply (Hnt m j).
      * eauto.
  - intros x. split.
    + intros (m & j & Hj & [(-> & _)|Hx]%Hin); [by left|right; by exists m, j|done].
    + intros [->|(m & j & Hj & Hx)]; [exists n, i|exists m, j]; (split; [done|]); apply Hin; auto.
Qed.

(** * Adding a timer *)

Lemma g_pos n : 0 < g n.
Proof. apply Z.pow_pos_nonneg; lia. Qed.

Lemma cdiv_ge a b : 0 < b -> a <= b * cdiv a b.
Proof.
  intros Hb. unfold cdiv. pose proof (Z.div_mod (a + b - 1) b ltac:(lia)).
  pose proof (Z.mod_pos_bound (a + b - 1) b Hb). lia.
Qed.

Lemma level_bounds T tj n e :
  tj <= T <= tj + 1 -> tj + g n <= e < tj + 64 * g n ->
  cdiv T (g n) <= e / g n < cdiv T (g n) + 64.
Proof.
  intros HT He. pose proof (g_pos n) as Hg. split.
  - unfold cdiv. apply Z.div_le_mono; lia.
  - apply Z.div_lt_upper_bound; [done|]. pose proof (cdiv_ge T (g n) Hg). lia.
Qed.

Lemma land_mask8 e : Z.land e TVR_MASK = e mod 256.
Proof. change TVR_MASK with (Z.ones 8). by rewrite Z.land_ones. Qed.

Lemma land_mask6 e : Z.land e TVN_MASK = e mod 64.
Proof. change TVN_MASK with (Z.ones 6). by rewrite Z.land_ones. Qed.

(** The list the source picks for a timer that expires within 2^32 ticks. *)
Lemma internal_add_timer_put T w t tm :
  inv T w -> timers w !! t = Some tm -> 0 <= expires tm < max_tick ->
  expires tm - timer_jiffies w <= 0xffffffff ->
  exists n i, internal_add_timer t w = put n i t w /\ (n < 5)%nat /\ 0 <= i < size n /\
    place (timer_jiffies w) T n i (expires tm) /\
    forall k, (1 <= k)%nat -> expires tm < timer_jiffies w + g k -> (n < k)%nat.
Proof.
  intros HI Ht He Hle. destruct (inv_tj _ _ HI) as [Htj0 Htj1]. unfold max_tick in *.
  unfold internal_add_timer, bind at 1, get_timer. rewrite Ht.
  unfold bind at 1, gets at 1. set (e := expires tm) in *. set (tj := timer_jiffies w) in *.
  assert (Hlev : forall n k, (1 <= n < 5)%nat -> tj + g n <= e < tj + 64 * g n ->
    (1 <= k)%nat -> e < tj + g k -> (n < k)%nat).
  { intros n k Hn Hb Hk Hek. destruct (decide (n < k)%nat) as [|Hge]; [done|]. exfalso.
    assert (g k <= g n) by (apply Z.pow_le_mono_r; lia). lia. }
  assert (Hplace : forall n, (1 <= n < 5)%nat -> tj + g n <= e < tj + 64 * g n ->
    place tj T n ((e / g n) mod 64) e).
  { intros n Hn Hb. unfold place. destruct n; [lia|]. split; [|done].
    apply (level_bounds _ tj); [apply (inv_T _ _ HI)|done]. }
  assert (Hm : forall x, 0 <= x mod 64 < 64) by (intros; apply Z.mod_pos_bound; lia).
  change TVR_SIZE with 256.
  change (Z.shiftl 1 (TVR_BITS + TVN_BITS)) with (64 * g 1).
  change (Z.shiftl 1 (TVR_BITS + 2 * TVN_BITS)) with (64 * g 2).
  change (Z.shiftl 1 (TVR_BITS + 3 * TVN_BITS)) with (64 * g 3).
  destruct (Z.ltb_spec e tj) as [Hpast|Hfut].
  - replace (u64 (e - tj)) with (2 ^ 64 + (e - tj))
      by (unfold u64, wrap; apply Z.mod_unique with (-1); lia).
    destruct (Z.ltb_spec (2 ^ 64 + (e - tj)) 256); [lia|].
    destruct (Z.ltb_spec (2 ^ 64 + (e - tj)) (64 * g 1)); [change (g 1) with 256 in *; lia|].
    destruct (Z.ltb_spec (2 ^ 64 + (e - tj)) (64 * g 2)); [change (g 2) with 16384 in *; lia|].
    destruct (Z.ltb_spec (2 ^ 64 + (e - tj)) (64 * g 3)); [change (g 3) with 1048576 in *; lia|].
    replace (s64 (2 ^ 64 + (e - tj)) <? 0) with true.
    2:{ symmetry. apply Z.ltb_lt. unfold s64, swrap.
        replace ((2 ^ 64 + (e - tj) + 2 ^ (64 - 1)) mod 2 ^ 64) with (e - tj + 2 ^ 63); [lia|].
        apply Z.mod_unique with 1; lia. }
    exists 0%nat, (idx_of w 0). split; [done|]. rewrite (inv_idx0 _ _ HI). fold tj.
    split; [lia|]. split; [change (size 0) with 256; apply Z.mod_pos_bound; lia|]. split; [|lia]. right. split; [lia|done].
  - rewrite u64_id by lia.
    rewrite !land_mask6, land_mask8, !Z.shiftr_div_pow2 by (unfold TVR_BITS, TVN_BITS; lia).
    change (2 ^ TVR_BITS) with (g 1). change (2 ^ (TVR_BITS + TVN_BITS)) with (g 2).
    change (2 ^ (TVR_BITS + 2 * TVN_BITS)) with (g 3).
    change (2 ^ (TVR_BITS + 3 * TVN_BITS)) with (g 4).
    destruct (Z.ltb_spec (e - tj) 256).
    { exists 0%nat, (e mod 256). split; [done|].
      split; [lia|]. split; [change (size 0) with 256; apply Z.mod_pos_bound; lia|]. split; [|lia]. left. split; [lia|done]. }
    destruct (Z.ltb_spec (e - tj) (64 * g 1)).
    { exists 1%nat, ((e / g 1) mod 64). split; [done|]. split; [lia|]. split; [exact (Hm _)|].
      split; [apply Hplace|intros k; apply Hlev]; [lia|change (g 1) with 256 in *; lia..]. }
    destruct (Z.ltb_spec (e - tj) (64 * g 2)).
    { exists 2%nat, ((e / g 2) mod 64). split; [done|]. split; [lia|]. split; [exact (Hm _)|].
      split; [apply Hplace|intros k; apply Hlev]; [lia|change (g 1) with 256 in *; change (g 2) with 16384 in *; lia..]. }
    destruct (Z.ltb_spec (e - tj) (64 * g 3)).
    { exists 3%nat, ((e / g 3) mod 64). split; [done|]. split; [lia|]. split; [exact (Hm _)|].
      split; [apply Hplace|intros k; apply Hlev]; [lia|change (g 2) with 16384 in *; change (g 3) with 1048576 in *; lia..]. }
    rewrite s64_id by lia. destruct (Z.ltb_spec (e - tj) 0); [lia|].
    destruct (Z.leb_spec (e - tj) 0xffffffff); [|lia].
    exists 4%nat, ((e / g 4) mod 64). split; [done|]. split; [lia|]. split; [exact (Hm _)|].
      split; [apply Hplace|intros k; apply Hlev]; [lia|change (g 3) with 1048576 in *; change (g 4) with 67108864 in *; lia..].
Qed.

(** What the addition of [t] to the wheel changes, for its callers. *)
Record added (t : Z) (tm : timer_list) (w w' : wheel) : Prop := {
  added_rest : same_rest w w';
  added_timers : timers w' = <[t := set_link true tm]> (timers w);
  added_idx : forall m, idx_of w' m = idx_of w m;
  added_pending : forall x, pending w' x <-> x = t \/ pending w x
}.

Lemma internal_add_timer_run T w t tm :
  inv T w -> timers w !! t = Some tm -> ~ pending w t -> 0 <= expires tm < max_tick ->
  expires tm - timer_jiffies w <= 0xffffffff ->
  exists w', internal_add_timer t w = Ret tt w' /\ inv T w' /\ added t tm w w' /\
    forall k i, (1 <= k)%nat -> 0 <= i -> expires tm < timer_jiffies w + g k -> slot w' k i = slot w k i.
Proof.
  intros HI Ht Hp He Hle.
  destruct (internal_add_timer_put T w t tm) as (n & i & -> & Hn & Hi & Hpl & Hk); try done.
  destruct (put_run n i t tm w) as (w' & -> & Hput); [apply HI|done..|].
  destruct (put_at_inv T n i t tm w w') as [HI' Hpend]; try done; [lia|].
  exists w'. split; [done|]. split; [done|]. destruct Hput as (Hr & Htm & Hidx & _ & Hsl).
  split; [by constructor|]. intros k j Hk1 Hj Hek. rewrite Hsl by done.
  specialize (Hk k Hk1 Hek). rewrite decide_False; [done|lia].
Qed.

(** * Removing a timer *)

Lemma dropped_inv T w t :
  inv T w -> inv T (dropped t w) /\ forall x, pending (dropped t w) x <-> pending w x /\ x <> t.
Proof.
  intros [Hs Htj HT Hi0 Hidx Hpl Hnd Hu]. split.
  - constructor; try done.
    + by apply shape_dropped.
    + by rewrite idx_dropped.
    + intros n Hn. rewrite idx_dropped. auto.
    + intros n i x Hi. rewrite slot_dropped. intros [_ Hx]%list_elem_of_filter. by apply Hpl.
    + intros n i Hi. rewrite slot_dropped. apply NoDup_filter. auto.
    + intros n i m j x Hi Hj. rewrite !slot_dropped.
      intros [_ Hx]%list_elem_of_filter [_ Hx']%list_elem_of_filter. eauto.
  - intros x. split.
    + intros (n & i & Hi & Hx). rewrite slot_dropped in Hx. apply list_elem_of_filter in Hx as [Hne Hx].
      split; [by exists n, i|done].
    + intros [(n & i & Hi & Hx) Hne]. exists n, i. rewrite slot_dropped. split; [done|].
      by apply list_elem_of_filter.
Qed.

(** The fields of a timer outside the wheel may change. *)
Lemma retimed_inv T w t tm :
  inv T w -> ~ pending w t -> inv T (with_timers (<[t := tm]> (timers w)) w).
Proof.
  intros [Hs Htj HT Hi0 Hidx Hpl Hnd Hu] Hp. constructor; try done.
  intros n i x Hi Hx. cbn [timers with_timers]. rewrite lookup_insert_ne; [by apply Hpl|].
  intros <-. apply Hp. by exists n, i.
Qed.

(** * Cascading *)

Lemma cdiv_aligned a b : 0 < b -> a mod b = 0 -> cdiv a b = a / b.
Proof.
  intros Hb H. unfold cdiv. pose proof (Z.div_mod a b ltac:(lia)).
  symmetry. apply Z.div_unique with (b - 1); lia.
Qed.

Lemma cdiv_succ_aligned a b : 0 < b -> a mod b = 0 -> cdiv (a + 1) b = a / b + 1.
Proof.
  intros Hb H. unfold cdiv. pose proof (Z.div_mod a b ltac:(lia)).
  symmetry. apply Z.div_unique with 0; lia.
Qed.

Lemma cdiv_succ_unaligned a b : 0 < b -> a mod b <> 0 -> cdiv (a + 1) b = cdiv a b.
Proof.
  intros Hb H. unfold cdiv. pose proof (Z.div_mod a b ltac:(lia)). pose proof (Z.mod_pos_bound a b Hb).
  transitivity (a / b + 1); [symmetry; apply Z.div_unique with (a mod b); lia|].
  apply Z.div_unique with (a mod b - 1); lia.
Qed.

Lemma mod64_window a b : a <= b < a + 64 -> b mod 64 = a mod 64 -> b = a.
Proof.
  intros H E. pose proof (Z.div_mod a 64 ltac:(lia)). pose proof (Z.div_mod b 64 ltac:(lia)).
  pose proof (Z.mod_pos_bound a 64 ltac:(lia)). lia.
Qed.

(** The list that is cascaded at an aligned tick holds the timers of the next
    [g n] ticks. *)
Lemma cascade_slot T w n t :
  inv T w -> (1 <= n < 5)%nat -> T n = timer_jiffies w -> timer_jiffies w mod g n = 0 ->
  t ∈ slot w n (idx_of w n) ->
  exists tm, timers w !! t = Some tm /\ linked tm = true /\ 0 <= expires tm < max_tick /\
    timer_jiffies w <= expires tm < timer_jiffies w + g n.
Proof.
  intros HI Hn HT Ha Ht. pose proof (g_pos n) as Hg.
  assert (Hi : idx_of w n = (timer_jiffies w / g n) mod 64).
  { rewrite (inv_idx _ _ HI n Hn), HT, cdiv_aligned by done. done. }
  destruct (inv_place _ _ HI n (idx_of w n) t) as (tm & E & Hl & He & Hp); [|done|].
  { rewrite Hi. apply Z.mod_pos_bound; lia. }
  exists tm. split; [done|]. split; [done|]. split; [done|].
  unfold place in Hp. destruct n; [lia|]. rewrite HT, cdiv_aligned, Hi in Hp by done. destruct Hp as [Hw Hm].
  apply mod64_window in Hw; [|done]. pose proof (Z.div_mod (expires tm) (g (S n)) ltac:(lia)).
  pose proof (Z.div_mod (timer_jiffies w) (g (S n)) ltac:(lia)).
  pose proof (Z.mod_pos_bound (expires tm) (g (S n)) Hg). lia.
Qed.

(** The wheel after a cascade: the same timers, in other lists. *)
Record moved (w w' : wheel) : Prop := {
  moved_rest : same_rest w w';
  moved_timers : timers w' = timers w;
  moved_pending : forall x, pending w' x <-> pending w x
}.

Lemma moved_refl w : moved w w.
Proof. by constructor. Qed.

Lemma moved_trans w1 w2 w3 : moved w1 w2 -> moved w2 w3 -> moved w1 w3.
Proof.
  intros [(? & ? & ? & ?) Ht Hp] [(? & ? & ? & ?) Ht' Hp'].
  constructor; [split_and!; congruence|congruence|]. intros x. by rewrite Hp', Hp.
Qed.

Lemma cascade_step T w n t l :
  inv T w -> (1 <= n < 5)%nat -> T n = timer_jiffies w -> timer_jiffies w mod g n = 0 ->
  slot w n (idx_of w n) = t :: l ->
  exists w', (list_drop t ;; internal_add_timer t) w = Ret tt w' /\ inv T w' /\ moved w w' /\
    (forall m, idx_of w' m = idx_of w m) /\ slot w' n (idx_of w n) = l.
Proof.
  intros HI Hn HT Ha Hsl.
  assert (Hidx : 0 <= idx_of w n) by (rewrite (inv_idx _ _ HI n Hn); apply Z.mod_pos_bound; lia).
  destruct (cascade_slot T w n t) as (tm & Et & Hl & He & Hb); try done; [rewrite Hsl; by left|].
  destruct (dropped_inv T w t HI) as [HI1 Hp1].
  assert (g n <= g 4) as Hg4 by (apply Z.pow_le_mono_r; lia). change (g 4) with 67108864 in Hg4.
  destruct (internal_add_timer_run T (dropped t w) t tm) as (w' & Hr & HI' & [Hrest Htm Hi Hp] & Hslot); try done.
  { intros [_ Hx]%Hp1. done. }
  { change (timer_jiffies (dropped t w)) with (timer_jiffies w). lia. }
  exists w'. split; [done|]. split; [done|]. split_and!.
  - constructor; [done| |].
    + rewrite Htm. apply insert_id. cbn [timers dropped with_tvecs]. rewrite Et. f_equal.
      destruct tm; cbn in *. by subst.
    + intros x. rewrite Hp, Hp1. split; [|destruct (decide (x = t)); tauto].
      intros [->|[? _]]; [|done]. exists n, (idx_of w n). split; [done|]. rewrite Hsl. by left.
  - intros m. by rewrite Hi, idx_dropped.
  - rewrite Hslot; [|lia|done|]. 
    + rewrite slot_dropped, Hsl. apply filter_head. rewrite <- Hsl. by apply (inv_nodup _ _ HI).
    + change (timer_jiffies (dropped t w)) with (timer_jiffies w). lia.
Qed.

Lemma cascade_loop_run n l : forall fuel T w,
  (length l <= fuel)%nat -> inv T w -> (1 <= n < 5)%nat -> T n = timer_jiffies w ->
  timer_jiffies w mod g n = 0 -> slot w n (idx_of w n) = l ->
  exists w', cascade_loop fuel n (idx_of w n) (head l) w = Ret tt w' /\ inv T w' /\ moved w w' /\
    (forall m, idx_of w' m = idx_of w m) /\ slot w' n (idx_of w n) = [].
Proof.
  induction l as [|t l IH]; intros fuel T w Hf HI Hn HT Ha Hsl.
  - exists w. destruct fuel; split_and!; try done; apply moved_refl.
  - destruct fuel as [|fuel]; [cbn in Hf; lia|].
    destruct (cascade_step T w n t l HI Hn HT Ha Hsl) as (w1 & Hr & HI1 & Hm1 & Hi1 & Hs1).
    destruct (IH fuel T w1) as (w' & Hr' & HI' & Hm' & Hi' & Hs'); try done.
    + cbn in Hf. lia.
    + by rewrite (proj1 (moved_rest _ _ Hm1)).
    + by rewrite (proj1 (moved_rest _ _ Hm1)).
    + by rewrite Hi1.
    + exists w'. split_and!; [|done|by eapply moved_trans|congruence|by rewrite <- Hi1].
      cbn [cascade_loop head]. unfold bind at 1, gets. rewrite Hsl. cbn [next_in]. rewrite Z.eqb_refl.
      unfold bind in Hr |- *. destruct (list_drop t w) as [[] w2| | |]; try done.
      rewrite Hr. by rewrite Hi1 in Hr'.
Qed.

Definition upd (T : nat -> Z) (n : nat) (v : Z) : nat -> Z := fun m => if (m =? n)%nat then v else T m.

Lemma slot_level w n i t : shape w -> t ∈ slot w n i -> (n < 5)%nat.
Proof.
  intros [Hl _] Ht. unfold slot in Ht. destruct (tvecs w !! n) as [tv|] eqn:E; [|by apply elem_of_nil in Ht].
  apply lookup_lt_Some in E. lia.
Qed.

Lemma inv_ext T T' w :
  inv T w -> (forall n, timer_jiffies w <= T' n <= timer_jiffies w + 1) ->
  (forall n, (1 <= n < 5)%nat -> cdiv (T' n) (g n) = cdiv (T n) (g n)) -> inv T' w.
Proof.
  intros [Hs Htj HT Hi0 Hidx Hpl Hnd Hu] HT' Hc. constructor; try done.
  - intros n Hn. rewrite Hc by lia. auto.
  - intros n i t Hi Ht. destruct (Hpl n i t Hi Ht) as (tm & ? & ? & ? & Hp). exists tm. split_and!; try done; try lia.
    apply (slot_level w) in Ht as Hn; [|done].
    unfold place in *. destruct n; [done|]. cbn [Nat.eqb] in *. rewrite Hc by lia. done.
Qed.

(** [list_init(head)] and the index step after the loop of [cascade_timers]. *)
Definition finished (n : nat) (i : Z) (w : wheel) : wheel :=
  set_index n (Z.land (i + 1) TVN_MASK) (set_slot n i [] w).

Lemma slot_finished w n i m j :
  shape w -> (1 <= n < 5)%nat -> 0 <= i < 64 -> slot w n i = [] -> 0 <= j ->
  slot (finished n i w) m j = slot w m j.
Proof.
  intros Hs Hn Hi He Hj. unfold finished.
  rewrite slot_set_index, slot_set_slot; [|done|lia|destruct n; [lia|done]|done].
  destruct (decide (m = n /\ j = i)) as [[-> ->]|]; [by rewrite He|done].
Qed.

(** Emptying the cascaded list moves the level on to the next tick. *)
Lemma cascade_finish T w n :
  inv T w -> (1 <= n < 5)%nat -> T n = timer_jiffies w -> timer_jiffies w mod g n = 0 ->
  slot w n (idx_of w n) = [] ->
  inv (upd T n (timer_jiffies w + 1)) (finished n (idx_of w n) w).
Proof.
  intros HI Hn HT Ha He. pose proof (g_pos n) as Hg. pose proof HI as [Hs Htj HTb Hi0 Hidx Hpl Hnd Hu].
  assert (Hi : idx_of w n = (timer_jiffies w / g n) mod 64) by (rewrite Hidx, HT, cdiv_aligned; done).
  assert (Hr : 0 <= idx_of w n < 64) by (rewrite Hi; apply Z.mod_pos_bound; lia).
  assert (Hs1 : shape (set_slot n (idx_of w n) [] w)) by by apply shape_set_slot.
  assert (Hsl : forall m j, 0 <= j -> slot (finished n (idx_of w n) w) m j = slot w m j)
    by (intros; by apply slot_finished).
  constructor; try done; change (timer_jiffies (finished _ _ _)) with (timer_jiffies w); unfold finished.
  - by apply shape_set_index.
  - intros m. unfold upd. destruct (m =? n)%nat; [lia|auto].
  - rewrite idx_set_index, idx_set_slot by (done || lia). rewrite decide_False by lia. done.
  - intros m Hm. rewrite idx_set_index, idx_set_slot by (done || lia). unfold upd.
    destruct (decide (m = n)) as [->|Hne].
    + rewrite Nat.eqb_refl, cdiv_succ_aligned, land_mask6, Hi by done. by rewrite Zplus_mod_idemp_l.
    + rewrite (proj2 (Nat.eqb_neq m n)) by done. auto.
  - fold (finished n (idx_of w n) w). intros m j t Hj. rewrite Hsl by done. intros Ht.
    destruct (Hpl m j t Hj Ht) as (tm & Et & Hl & Hex & Hp). exists tm.
    split; [done|]. split; [done|]. split; [done|].
    unfold place, upd in *. destruct (Nat.eqb_spec m 0); [done|]. destruct (Nat.eqb_spec m n) as [->|]; [|done].
    rewrite cdiv_succ_aligned by done. rewrite HT, cdiv_aligned in Hp by done. destruct Hp as [Hw Hj'].
    split; [|done]. enough (expires tm / g n <> timer_jiffies w / g n) by lia.
    intros E. rewrite E, <- Hi in Hj'. subst j. rewrite He in Ht. by apply elem_of_nil in Ht.
  - fold (finished n (idx_of w n) w). intros m j Hj. rewrite Hsl by done. auto.
  - fold (finished n (idx_of w n) w). intros m j k l t Hj Hl. rewrite !Hsl by done. eauto.
Qed.

Lemma cascade_loop_mono n i f1 : forall curr f2 w1 w2, (f1 <= f2)%nat ->
  cascade_loop f1 n i curr w1 = Ret tt w2 -> cascade_loop f2 n i curr w1 = Ret tt w2.
Proof.
  induction f1 as [|f1 IH]; intros [t|] f2 w1 w2 Hf; [done|by destruct f2| |by destruct f2].
  destruct f2 as [|f2]; [lia|]. cbn [cascade_loop]. unfold bind, gets.
  destruct (list_drop t w1) as [[] w3| | |]; try done. destruct (internal_add_timer t w3) as [[] w4| | |]; try done.
  apply IH. lia.
Qed.

Lemma cascade_timers_run T w n :
  inv T w -> (1 <= n < 5)%nat -> T n = timer_jiffies w -> timer_jiffies w mod g n = 0 ->
  exists w', (forall fuel, (length (slot w n (idx_of w n)) <= fuel)%nat -> cascade_timers fuel n w = Ret tt w') /\
    inv (upd T n (timer_jiffies w + 1)) w' /\ moved w w' /\
    idx_of w' n = (timer_jiffies w / g n + 1) mod 64.
Proof.
  intros HI Hn HT Ha.
  destruct (cascade_loop_run n (slot w n (idx_of w n)) _ T w (le_n _) HI Hn HT Ha eq_refl)
    as (w1 & Hr & HI1 & Hm1 & Hi1 & Hs1).
  assert (E1 : timer_jiffies w1 = timer_jiffies w) by apply (moved_rest _ _ Hm1).
  pose proof (cascade_finish T w1 n HI1 Hn ltac:(congruence) ltac:(congruence)) as Hfin.
  rewrite Hi1, E1 in Hfin. specialize (Hfin Hs1).
  assert (Hi : 0 <= idx_of w n < 64) by (rewrite (inv_idx _ _ HI n Hn); apply Z.mod_pos_bound; lia).
  eexists. split; [|split; [exact Hfin|split]].
  - intros fuel Hf. unfold cascade_timers, bind, gets. by rewrite (cascade_loop_mono _ _ _ _ _ _ _ Hf Hr).
  - destruct Hm1 as [Hrest Htm Hp]. constructor; [done|done|]. intros x. rewrite <- Hp. unfold pending.
    pose proof (fun m j => slot_finished w1 n (idx_of w n) m j (inv_shape _ _ HI1) Hn Hi Hs1) as Hsl.
    split; intros (m & j & Hj & Hx); exists m, j; (split; [done|]); [by rewrite Hsl in Hx|by rewrite Hsl].
  - rewrite (inv_idx _ _ Hfin n Hn). unfold upd. rewrite Nat.eqb_refl, cdiv_succ_aligned by (apply g_pos || done). done.
Qed.

Lemma g_step n : (1 <= n)%nat -> g (S n) = 64 * g n.
Proof.
  intros Hn. unfold g. replace (2 + 6 * Z.of_nat (S n)) with (6 + (2 + 6 * Z.of_nat n)) by lia.
  by rewrite Z.pow_add_r by lia.
Qed.

(** The cascade goes on to the next level exactly at the ticks aligned for it. *)
Lemma cascade_goes_on tj n :
  (1 <= n)%nat -> tj mod g n = 0 -> ((tj / g n + 1) mod 64 =? 1) = (tj mod g (S n) =? 0).
Proof.
  intros Hn Ha. pose proof (g_pos n). rewrite g_step by done. rewrite (Z.mul_comm 64), Z.rem_mul_r, Ha by lia.
  pose proof (Z.mod_pos_bound (tj / g n) 64 ltac:(lia)) as Hm. rewrite <- Zplus_mod_idemp_l.
  destruct (decide ((tj / g n) mod 64 = 63)) as [E|E].
  - rewrite E. change ((63 + 1) mod 64) with 0. symmetry. apply Z.eqb_neq. lia.
  - rewrite (Z.mod_small (_ + 1)) by lia.
    destruct (Z.eqb_spec ((tj / g n) mod 64 + 1) 1), (Z.eqb_spec (0 + g n * ((tj / g n) mod 64)) 0); nia.
Qed.

Lemma g_divide n m : (1 <= n <= m)%nat -> (g n | g m).
Proof.
  intros H. exists (2 ^ (6 * Z.of_nat (m - n))). unfold g. rewrite <- Z.pow_add_r by lia. f_equal. lia.
Qed.

Lemma unaligned_above tj n m : (1 <= n <= m)%nat -> tj mod g n <> 0 -> tj mod g m <> 0.
Proof.
  intros Hn Ha E. apply Ha. apply Z.mod_divide in E; [|pose proof (g_pos m); lia].
  apply Z.mod_divide; [pose proof (g_pos n); lia|]. etransitivity; [by apply g_divide|done].
Qed.

(** Every level is up to the next tick. *)
Definition caught_up (w : wheel) : Prop := inv (fun _ => timer_jiffies w + 1) w.

Lemma cascades_run k : forall n T w,
  (n + k = 5)%nat -> (1 <= n)%nat -> inv T w ->
  (forall m, (1 <= m < n)%nat -> T m = timer_jiffies w + 1) ->
  (forall m, (n <= m)%nat -> T m = timer_jiffies w) ->
  timer_jiffies w mod g n = 0 ->
  exists w' f0, (forall fuel, (f0 <= fuel)%nat -> cascades fuel (seq n k) w = Ret tt w') /\
    caught_up w' /\ moved w w'.
Proof.
  induction k as [|k IH]; intros n T w Hnk Hn HI Hlo Hhi Ha.
  - exists w, 0%nat. split; [done|]. split; [|apply moved_refl].
    apply (inv_ext T); [done|intros; lia|]. intros m Hm. by rewrite Hlo by lia.
  - destruct (cascade_timers_run T w n HI ltac:(lia) (Hhi n (le_n n)) Ha) as (w1 & Hr & HI1 & Hm1 & Hi1).
    assert (E1 : timer_jiffies w1 = timer_jiffies w) by apply (moved_rest _ _ Hm1).
    pose proof (cascade_goes_on (timer_jiffies w) n Hn Ha) as Hgo.
    destruct (Z.eqb_spec (timer_jiffies w mod g (S n)) 0) as [Ha'|Ha'].
    + destruct (IH (S n) (upd T n (timer_jiffies w + 1)) w1) as (w' & f0 & Hr' & HI' & Hm');
        [lia|lia|done| | |by rewrite E1|].
      * intros m Hm. rewrite E1. unfold upd. destruct (Nat.eqb_spec m n); [done|apply Hlo; lia].
      * intros m Hm. rewrite E1. unfold upd. destruct (Nat.eqb_spec m n); [lia|apply Hhi; lia].
      * exists w', (Nat.max f0 (length (slot w n (idx_of w n)))). split; [|split; [done|by eapply moved_trans]].
        intros fuel Hf. cbn [seq cascades]. unfold bind, gets. rewrite Hr, Hi1, Hgo by lia. apply Hr'. lia.
    + exists w1, (length (slot w n (idx_of w n))). split; [|split; [|done]].
      * intros fuel Hf. cbn [seq cascades]. unfold bind, gets. rewrite Hr, Hi1, Hgo by lia. done.
      * apply (inv_ext (upd T n (timer_jiffies w + 1))); [done|intros; lia|]. intros m Hm. unfold upd. rewrite E1.
        destruct (Nat.eqb_spec m n); [done|]. destruct (decide (m < n)%nat); [by rewrite Hlo by lia|].
        rewrite Hhi by lia. apply cdiv_succ_unaligned; [apply g_pos|].
        apply (unaligned_above _ (S n)); [lia|done].
Qed.

(** * Firing *)

(** After the cascade, the list of the current tick holds the timers that are
    due, and no other does. *)
Lemma due_slot w t :
  caught_up w ->
  t ∈ slot w 0 (idx_of w 0) <->
  pending w t /\ exists tm, timers w !! t = Some tm /\ expires tm <= timer_jiffies w.
Proof.
  intros HI. pose proof HI as [Hs Htj HT Hi0 Hidx Hpl Hnd Hu].
  assert (H0 : 0 <= idx_of w 0) by (rewrite Hi0; apply Z.mod_pos_bound; lia). split.
  - intros Ht. split; [by exists 0%nat, (idx_of w 0)|]. destruct (Hpl 0%nat _ t H0 Ht) as (tm & Et & _ & _ & Hp).
    exists tm. split; [done|]. rewrite Hi0 in Hp. cbn in Hp. destruct Hp as [[Hr Hm]|[? _]]; [|lia].
    pose proof (Z.div_mod (expires tm) 256 ltac:(lia)). pose proof (Z.div_mod (timer_jiffies w) 256 ltac:(lia)). lia.
  - intros ((n & i & Hi & Ht) & tm & Et & He). destruct (Hpl n i t Hi Ht) as (tm' & Et' & _ & _ & Hp).
    simplify_eq. destruct n as [|n]; cbn [place Nat.eqb] in Hp.
    + rewrite Hi0. destruct Hp as [[Hr ->]|[_ ->]]; [|done]. by replace (timer_jiffies w) with (expires tm) by lia.
    + exfalso. destruct Hp as [[Hlow _] _]. pose proof (g_pos (S n)) as Hg.
      pose proof (cdiv_ge (timer_jiffies w + 1) (g (S n)) Hg).
      pose proof (Z.mul_div_le (expires tm) (g (S n)) Hg). nia.
Qed.

(** What a timer's function is called with. *)
Definition kind (tm : timer_list) : Z * Z := (function tm, data tm).

(** What is asked of the functions of timers, in the situation in which
    [run_timer_list] calls one: its timer [t] is off the wheel and the lock is
    free.  The function returns with the lock free, keeps the pending timers
    pending and unchanged, and adds only timers of later ticks.  [ok] is what the
    functions rely on; the wheel's own steps must keep it. *)
Class GoodCallbacks (ok : wheel -> Prop) (call : Z -> Z -> M wheel unit) : Prop := {
  call_ok t tm w :
    ok w -> caught_up w -> timerlock w = false -> timer_jiffies w <= jiffies w ->
    timers w !! t = Some tm -> linked tm = false -> ~ pending w t ->
    exists w', call (function tm) (data tm) w = Ret tt w' /\ ok w' /\ caught_up w' /\ same_rest w w' /\
      (forall x, pending w x -> pending w' x /\ timers w' !! x = timers w !! x) /\
      (forall x, pending w' x -> ~ pending w x ->
         exists tm, timers w' !! x = Some tm /\ timer_jiffies w < expires tm);
  ok_drift w w' :
    ok w -> jiffies w' = jiffies w -> timer_jiffies w <= timer_jiffies w' ->
    (forall t, kind <$> timers w' !! t = kind <$> timers w !! t) -> ok w'
}.

Section Firing.
Context (ok : wheel -> Prop) (call : Z -> Z -> M wheel unit) `{!GoodCallbacks ok call}.

Definition expired (w : wheel) (t : Z) (tick : Z) : Prop :=
  pending w t /\ exists tm, timers w !! t = Some tm /\ expires tm <= tick.

(** [w'] keeps the timers of [w] that expire after [tick]. *)
Definition keeps_later (tick : Z) (w w' : wheel) : Prop :=
  forall x tm, pending w x -> timers w !! x = Some tm -> tick < expires tm ->
    pending w' x /\ timers w' !! x = Some tm.

(** The calls [cs] are those of the timers of [w] in [l], at tick [tick]. *)
Definition calls_of (w : wheel) (tick : Z) (l : list Z) (cs : list (Z * Z * Z * Z)) : Prop :=
  Forall2 (fun t c => exists tm, timers w !! t = Some tm /\ c = (t, tick, function tm, data tm)) l cs.

(** One round of the [repeat] loop, up to the call. *)
Definition unlinked (t : Z) (tm : timer_list) (w : wheel) : wheel :=
  with_call (t, timer_jiffies w, function tm, data tm)
    (with_lock false (with_timers (<[t := set_link false tm]> (timers w)) (dropped t w))).

Lemma unlinked_ok w t tm :
  caught_up w -> timers w !! t = Some tm ->
  caught_up (unlinked t tm w) /\ (forall x, pending (unlinked t tm w) x <-> pending w x /\ x <> t).
Proof.
  intros HI Ht. destruct (dropped_inv _ w t HI) as [HI1 Hp1].
  assert (HI2 : inv (fun _ => timer_jiffies w + 1) (with_timers (<[t := set_link false tm]> (timers w)) (dropped t w))).
  { apply (retimed_inv _ (dropped t w)); [done|]. intros [_ Hx]%Hp1. done. }
  split; [|done]. destruct HI2. by constructor.
Qed.

Lemma repeat_loop_step fuel w t tm l :
  timerlock w = true -> slot w 0 (idx_of w 0) = t :: l -> timers w !! t = Some tm -> linked tm = true ->
  repeat_loop call (S fuel) w =
  (call (function tm) (data tm) ;; acquire ;; repeat_loop call fuel) (unlinked t tm w).
Proof.
  intros Hlk Hsl Ht Hl. cbn [repeat_loop]. unfold bind at 1, gets at 1. unfold bind at 1, gets at 1. rewrite Hsl.
  cbn [head]. unfold bind at 1, get_timer at 1. rewrite Ht.
  unfold bind at 1, detach_timer, timer_pending, bind at 1, bind at 1, get_timer at 1. rewrite Ht. cbn. rewrite Hl. cbn.
  unfold bind at 1, set_linked, bind at 1, get_timer at 1. cbn [timers with_tvecs]. rewrite Ht. cbn.
  unfold bind at 1, release at 1. cbn. rewrite Hlk. done.
Qed.

(** The due timers left after the function of the first one has run. *)
Lemma after_call w w2 t tm r :
  caught_up w -> slot w 0 (idx_of w 0) = t :: r -> timers w !! t = Some tm ->
  caught_up w2 -> timer_jiffies w2 = timer_jiffies w ->
  (forall x, pending (unlinked t tm w) x -> pending w2 x /\ timers w2 !! x = timers (unlinked t tm w) !! x) ->
  (forall x, pending w2 x -> ~ pending (unlinked t tm w) x ->
     exists tm, timers w2 !! x = Some tm /\ timer_jiffies w < expires tm) ->
  slot w2 0 (idx_of w2 0) ≡ₚ r /\ (forall x, pending w x -> x <> t -> pending w2 x /\ timers w2 !! x = timers w !! x).
Proof.
  intros HI Esl Et HI2 Ej Hkeep Hnew. destruct (unlinked_ok w t tm HI Et) as [_ Hp1].
  assert (Hk : forall x, pending w x -> x <> t -> pending w2 x /\ timers w2 !! x = timers w !! x).
  { intros x Hx Hne. destruct (Hkeep x) as [Hp2 E]; [by apply Hp1|]. split; [done|]. rewrite E. cbn.
    by rewrite lookup_insert_ne. }
  assert (Hpos : forall v, caught_up v -> 0 <= idx_of v 0)
    by (intros v HIv; rewrite (inv_idx0 _ _ HIv); apply Z.mod_pos_bound; lia).
  pose proof (inv_nodup _ _ HI 0 _ (Hpos w HI)) as Hnd. rewrite Esl in Hnd. apply NoDup_cons in Hnd as [Htr Hnd].
  split; [|done]. apply NoDup_Permutation; [apply (inv_nodup _ _ HI2); auto|done|].
  intros x. rewrite (due_slot w2 x HI2), Ej. split.
  - intros (Hx & tm2 & E2 & He2).
    destruct (decide (x ∈ slot w 0 (idx_of w 0))) as [Hin|Hni].
    + rewrite Esl in Hin. apply elem_of_cons in Hin as [->|?]; [|done]. exfalso.
      destruct (Hnew t Hx) as (tm3 & ? & ?); [intros [_ ?]%Hp1; done|]. simplify_eq. lia.
    + exfalso. assert (Hnp : ~ pending (unlinked t tm w) x).
      { intros Hp. pose proof (proj1 (Hp1 x) Hp) as [Hpw Hne]. apply Hni. apply due_slot; [done|]. split; [done|].
        exists tm2. split; [|done]. rewrite <- E2. symmetry. by apply Hk. }
      destruct (Hnew x Hx Hnp) as (tm3 & ? & ?). simplify_eq. lia.
  - intros Hx. assert (Hin : x ∈ slot w 0 (idx_of w 0)) by (rewrite Esl; by right).
    apply due_slot in Hin as (Hpx & tmx & Ex & Hex); [|done].
    destruct (Hk x Hpx) as [Hp2 E2]; [by intros ->|]. split; [done|]. exists tmx. by rewrite E2.
Qed.

Lemma repeat_loop_run n : forall w l,
  length l = n -> ok w -> timer_jiffies w <= jiffies w -> caught_up w -> timerlock w = true -> slot w 0 (idx_of w 0) ≡ₚ l ->
  exists w' l' cs, (forall fuel, (n < fuel)%nat -> repeat_loop call fuel w = Ret tt w') /\
    ok w' /\ caught_up w' /\ timerlock w' = true /\ timer_jiffies w' = timer_jiffies w /\ jiffies w' = jiffies w /\
    slot w' 0 (idx_of w' 0) = [] /\ calls w' = calls w ++ cs /\
    l' ≡ₚ l /\ calls_of w (timer_jiffies w) l' cs /\ keeps_later (timer_jiffies w) w w'.
Proof using GoodCallbacks0.
  induction n as [|n IH]; intros w l Hn Hok Hjj HI Hlk Hl.
  - destruct l; [|done]. apply Permutation_nil_r in Hl. exists w, [], [].
    split_and!; try done; [|by rewrite app_nil_r|constructor].
    intros [|fuel] Hf; [lia|]. cbn. unfold bind, gets. by rewrite Hl.
  - destruct (slot w 0 (idx_of w 0)) as [|t r] eqn:Esl.
    { apply Permutation_nil_l in Hl. by subst. }
    assert (Hr : length r = n) by (apply Permutation_length in Hl; cbn in Hl; lia).
    assert (Hin : t ∈ slot w 0 (idx_of w 0)) by (rewrite Esl; by left).
    pose proof (proj1 (due_slot w t HI) Hin) as (_ & tm & Et & He).
    assert (H0 : 0 <= idx_of w 0) by (rewrite (inv_idx0 _ _ HI); apply Z.mod_pos_bound; lia).
    destruct (inv_place _ _ HI _ _ _ H0 Hin) as (tm' & Et' & Hlnk & _).
    assert (tm' = tm) as -> by congruence. clear Et'.
    destruct (unlinked_ok w t tm HI Et) as [HI1 Hp1].
    assert (Hok1 : ok (unlinked t tm w)).
    { apply (ok_drift w); [done|done|done|]. intros x. cbn. destruct (decide (x = t)) as [->|]; [|by rewrite lookup_insert_ne].
      by rewrite lookup_insert_eq, Et. }
    destruct (call_ok t (set_link false tm) (unlinked t tm w) Hok1 HI1 eq_refl Hjj)
      as (w2 & Hc & Hok2 & HI2 & (Ej & Ejj & Elk & Ecs) & Hkeep & Hnew); [apply lookup_insert_eq|done|by intros [_ ?]%Hp1|].
    change (call (function tm) (data tm) (unlinked t tm w) = Ret tt w2) in Hc.
    destruct (after_call w w2 t tm r) as [Hperm Hk]; try done.
    assert (HI3 : caught_up (with_lock true w2)) by (destruct HI2; by constructor).
    assert (Hok3 : ok (with_lock true w2)) by (by apply (ok_drift w2)).
    destruct (IH (with_lock true w2) r Hr Hok3 ltac:(cbn; rewrite Ej, Ejj; done) HI3 eq_refl Hperm)
      as (w' & l' & cs & Hrun & Hok' & HI' & Hlk' & Etj' & Ejf' & Hsl' & Ecs' & Hl' & Hcs & Hlater).
    cbn [timer_jiffies jiffies calls with_lock] in *.
    exists w', (t :: l'), ((t, timer_jiffies w, function tm, data tm) :: cs).
    split_and!; [|done..|by rewrite Etj', Ej|by rewrite Ejf', Ejj|done| | | |].
    + intros [|fuel] Hf; [lia|]. rewrite (repeat_loop_step fuel w t tm r) by done. unfold bind. rewrite Hc.
      unfold acquire. rewrite Elk. cbn. apply Hrun. lia.
    + rewrite Ecs', Ecs. cbn. by rewrite <- app_assoc.
    + by rewrite Hl'.
    + constructor; [by exists tm|]. rewrite Ej in Hcs. apply (Forall2_impl_in _ _ _ _ Hcs).
      intros x c Hx (tmx & Ex & ->). exists tmx. split; [|done]. rewrite <- Ex. symmetry. 
      rewrite Hl' in Hx.
      assert (x <> t).
      { intros ->. pose proof (inv_nodup _ _ HI 0%nat _ H0) as Hnd. rewrite Esl in Hnd. by apply NoDup_cons in Hnd as [? _]. }
      apply Hk; [|done]. apply due_slot; [done|]. rewrite Esl. by right.
    + intros x tmx Hx Ex Hlt. destruct (Hk x Hx) as [Hp2 E2]; [intros ->; simplify_eq; lia|].
      apply Hlater; [done|cbn; by rewrite E2|rewrite Ej; done].
Qed.

(** Between ticks no level is ahead. *)
Definition resting (w : wheel) : Prop := inv (fun _ => timer_jiffies w) w.

Lemma next_tick_inv w :
  caught_up w -> slot w 0 (idx_of w 0) = [] -> timer_jiffies w + 1 < max_tick ->
  let w' := set_index 0 (Z.land (idx_of w 0 + 1) TVR_MASK) (with_tick (u64 (timer_jiffies w + 1)) w) in
  resting w' /\ timer_jiffies w' = timer_jiffies w + 1 /\
  forall x, (pending w' x <-> pending w x) /\ (pending w x -> exists tm, timers w !! x = Some tm /\ timer_jiffies w < expires tm).
Proof.
  intros HI Hsl Hmax w'. pose proof HI as [Hs Htj HT Hi0 Hidx Hpl Hnd Hu]. unfold max_tick in Hmax.
  assert (Etj : timer_jiffies w' = timer_jiffies w + 1) by (cbn; rewrite u64_id; lia).
  assert (Esl : forall m j, slot w' m j = slot w m j) by (intros; unfold w'; by rewrite slot_set_index).
  assert (Hlate : forall x, pending w x -> exists tm, timers w !! x = Some tm /\ timer_jiffies w < expires tm).
  { intros x (n & i & Hi & Hx). destruct (Hpl n i x Hi Hx) as (tm & Et & _). exists tm. split; [done|].
    destruct (Z.ltb_spec (timer_jiffies w) (expires tm)); [done|]. exfalso.
    assert (Hin : x ∈ slot w 0 (idx_of w 0)) by (apply due_slot; [done|]; split; [by exists n, i|eauto]).
    rewrite Hsl in Hin. by apply elem_of_nil in Hin. }
  split; [|split; [done|]].
  - unfold resting. constructor; rewrite ?Etj.
    + by apply shape_set_index.
    + unfold max_tick in *. lia.
    + intros; lia.
    + unfold w'. rewrite idx_set_index by (done || lia). rewrite decide_True by done.
      rewrite land_mask8, Hi0. by rewrite Zplus_mod_idemp_l.
    + intros n Hn. unfold w'. rewrite idx_set_index by (done || lia). rewrite decide_False by lia. by apply Hidx.
    + intros n i x Hi. rewrite Esl. intros Hx. destruct (Hpl n i x Hi Hx) as (tm & Et & Hl & He & Hp).
      exists tm. split; [done|]. split; [done|]. split; [done|]. unfold place in *. destruct (n =? 0)%nat; [|done].
      destruct (Hlate x) as (tm' & E' & ?); [by exists n, i|]. simplify_eq. left. lia.
    + intros n i Hi. rewrite Esl. auto.
    + intros n i m j x Hi Hj. rewrite !Esl. eauto.
  - intros x. split; [|apply Hlate]. unfold pending. by setoid_rewrite Esl.
Qed.

Lemma tick_run w :
  ok w -> timer_jiffies w <= jiffies w -> resting w -> timerlock w = true -> timer_jiffies w + 1 < max_tick ->
  exists w' l cs f0, (forall fuel, (f0 <= fuel)%nat -> tick call fuel w = Ret tt w') /\
    ok w' /\ resting w' /\ timerlock w' = true /\ timer_jiffies w' = timer_jiffies w + 1 /\ jiffies w' = jiffies w /\
    calls w' = calls w ++ cs /\ (forall x, x ∈ l <-> expired w x (timer_jiffies w)) /\
    calls_of w (timer_jiffies w) l cs /\ keeps_later (timer_jiffies w) w w' /\
    (forall x, pending w' x -> exists tm, timers w' !! x = Some tm /\ timer_jiffies w < expires tm).
Proof using GoodCallbacks0.
  intros Hok Hjj HI Hlk Hmax.
  assert (exists w1 f1, (forall fuel, (f1 <= fuel)%nat ->
      when (idx_of w 0 =? 0) (cascades fuel [1; 2; 3; 4]%nat) w = Ret tt w1) /\ caught_up w1 /\ moved w w1)
    as (w1 & f1 & Hr1 & HI1 & Hm1).
  { destruct (Z.eqb_spec (idx_of w 0) 0) as [E|E]; rewrite (inv_idx0 _ _ HI) in E.
    - destruct (cascades_run 4 1 _ w ltac:(lia) ltac:(lia) HI) as (w1 & f1 & ? & ? & ?); try done; [lia|]. by exists w1, f1.
    - exists w, 0%nat. split; [done|]. split; [|apply moved_refl]. eapply inv_ext; [done|intros; lia|].
      intros n Hn. apply cdiv_succ_unaligned; [apply g_pos|]. apply (unaligned_above _ 1); [lia|done]. }
  destruct Hm1 as [(Ej & Ejf & Elk & Ecs) Etm Hp].
  assert (Hok1 : ok w1) by (apply (ok_drift w); [done|done|lia|by rewrite Etm]).
  destruct (repeat_loop_run _ w1 _ eq_refl Hok1 ltac:(lia) HI1 ltac:(congruence) (reflexivity _))
    as (w2 & l & cs & Hr2 & Hok2 & HI2 & Hlk2 & Ej2 & Ejf2 & Hsl2 & Ecs2 & Hl & Hcs & Hlater).
  destruct (next_tick_inv w2 HI2 Hsl2) as (HI3 & Ej3 & Hp3); [congruence|].
  eexists _, l, cs, (Nat.max f1 (S (length (slot w1 0 (idx_of w1 0))))).
  split; [intros fuel Hf; unfold tick, bind, gets; rewrite Hr1 by lia; rewrite Hr2 by lia; reflexivity|].
  split; [apply (ok_drift w2); [done|done|etransitivity; [|apply Z.eq_le_incl; symmetry; exact Ej3]; lia|done]|].
  split; [exact HI3|]. split; [done|]. split; [etransitivity; [exact Ej3|congruence]|].
  split; [cbn; congruence|]. split; [cbn; congruence|]. split; [|split; [|split]].
  - intros x. rewrite Hl, due_slot, Ej by done. unfold expired. by rewrite Hp, Etm.
  - unfold calls_of in *. by rewrite Etm, Ej in Hcs.
  - intros x tm Hx Ex Hlt. rewrite <- Etm in Ex. destruct (Hlater x tm) as [? ?]; [by apply Hp|done|lia|].
    split; [by apply Hp3|done].
  - intros x Hx. apply Hp3 in Hx. apply Hp3 in Hx as (tm & ? & ?). exists tm. split; [done|lia].
Qed.

(** The outcome of running the wheel from [w] up to tick [j]. *)
Record ran (j : Z) (w w' : wheel) : Prop := {
  ran_inv : resting w';
  ran_lock : timerlock w' = timerlock w;
  ran_jiffies : jiffies w' = jiffies w;
  ran_tick : timer_jiffies w' = j + 1;
  ran_calls : exists cs, calls w' = calls w ++ cs /\
    (forall t k f d, (t, k, f, d) ∈ cs -> timer_jiffies w <= k <= j) /\
    forall x tm, pending w x -> timers w !! x = Some tm ->
      (expires tm <= j -> (x, Z.max (timer_jiffies w) (expires tm), function tm, data tm) ∈ cs) /\
      (forall k f d, (x, k, f, d) ∈ cs -> expires tm <= k);
  ran_later : keeps_later j w w';
  ran_left : forall x, pending w' x -> exists tm, timers w' !! x = Some tm /\ j < expires tm
}.

Lemma ran_cons j w w1 w' l cs :
  timer_jiffies w <= j -> (forall x, x ∈ l <-> expired w x (timer_jiffies w)) ->
  calls_of w (timer_jiffies w) l cs -> keeps_later (timer_jiffies w) w w1 ->
  timerlock w1 = timerlock w -> jiffies w1 = jiffies w -> timer_jiffies w1 = timer_jiffies w + 1 ->
  calls w1 = calls w ++ cs -> ran j w1 w' -> ran j w w'.
Proof.
  intros Hj Hl Hcs Hlater Elk Ejf Etj Ecs [HI Hlk' Hjf' Htk' (cs' & Ecs' & Hb' & Hcs') Hlater' Hleft].
  assert (Hk : forall x k f d, (x, k, f, d) ∈ cs -> k = timer_jiffies w /\ expired w x k).
  { intros x k f d [i Hi]%list_elem_of_lookup.
    destruct (Forall2_lookup_r _ _ _ _ _ Hcs Hi) as (t & Ht & tm' & E' & Hc). simplify_eq.
    split; [done|]. apply Hl. by eapply list_elem_of_lookup_2. }
  constructor; try done; try congruence.
  - exists (cs ++ cs'). split; [by rewrite Ecs', Ecs, app_assoc|]. split.
    { intros t k f d [[-> _]%Hk|Hin%Hb']%elem_of_app; lia. }
    intros x tm Hx Ex. split.
    + intros He. apply elem_of_app. destruct (Z.leb_spec (expires tm) (timer_jiffies w)) as [Hle|Hgt].
      * left. assert (Hin : x ∈ l) by (apply Hl; split; [done|eauto]).
        apply list_elem_of_lookup in Hin as [i Hi]. destruct (Forall2_lookup_l _ _ _ _ _ Hcs Hi) as (c & Hc & tm' & E' & ->).
        simplify_eq. rewrite Z.max_l by done. by eapply list_elem_of_lookup_2.
      * right. destruct (Hlater x tm Hx Ex Hgt) as [Hx1 Ex1]. destruct (Hcs' x tm Hx1 Ex1) as [Hfire _].
        rewrite Etj, Z.max_r in Hfire by lia. rewrite Z.max_r by lia. auto.
    + intros k f d [Hin|Hin]%elem_of_app.
      * apply Hk in Hin as (-> & _ & tm' & E' & ?). simplify_eq. lia.
      * pose proof (Hb' _ _ _ _ Hin).
        destruct (Z.leb_spec (expires tm) (timer_jiffies w)) as [Hle|Hgt]; [lia|].
        destruct (Hlater x tm Hx Ex Hgt) as [Hx1 Ex1]. by eapply (Hcs' x tm Hx1 Ex1).
  - intros x tm Hx Ex Hlt. destruct (Hlater x tm) as [? ?]; [done|done|lia|]. by apply Hlater'.
Qed.

Lemma run_loop_run n : forall w,
  ok w -> resting w -> timerlock w = true -> Z.of_nat n = jiffies w + 1 - timer_jiffies w ->
  jiffies w + 1 < max_tick -> (forall x, pending w x -> exists tm, timers w !! x = Some tm /\
    (n = O -> jiffies w < expires tm)) ->
  exists w' f0, (forall fuel, (f0 <= fuel)%nat -> run_loop call fuel w = Ret tt w') /\ ran (jiffies w) w w'.
Proof using GoodCallbacks0.
  induction n as [|n IH]; intros w Hok HI Hlk Hn Hmax Hdone; pose proof (inv_tj _ _ HI) as Htj; unfold max_tick in *.
  - exists w, 1%nat. split.
    + intros [|fuel] Hf; [lia|]. cbn [run_loop]. unfold bind, gets.
      replace (s64 (u64 (jiffies w - timer_jiffies w))) with (-1); [done|].
      replace (jiffies w - timer_jiffies w) with (-1) by lia. reflexivity.
    + constructor; [done..|lia| | |].
      * exists []. split; [by rewrite app_nil_r|]. split; [intros ???? []%elem_of_nil|].
        intros x tm Hx Ex. destruct (Hdone x Hx) as (tm' & ? & ?); simplify_eq. split; [lia|intros ??? []%elem_of_nil].
      * intros x tm ???. done.
      * intros x Hx. destruct (Hdone x Hx) as (tm & ? & ?). eauto.
  - destruct (tick_run w Hok ltac:(lia) HI Hlk) as (w1 & l & cs & f1 & Hr1 & Hok1 & HI1 & Hlk1 & Etj1 & Ejf1 & Ecs1 & Hl & Hcs & Hlater & Hleft);
      [unfold max_tick; lia|].
    destruct (IH w1) as (w' & f2 & Hr2 & Hran); [done|done|done|lia|lia| |].
    { intros x Hx. destruct (Hleft x Hx) as (tm & ? & ?). exists tm. split; [done|lia]. }
    exists w', (S (Nat.max f1 f2)). split.
    + intros [|fuel] Hf; [lia|]. cbn [run_loop]. unfold bind at 1, gets.
      rewrite u64_id, s64_id by lia. destruct (Z.geb_spec (jiffies w - timer_jiffies w) 0); [|lia].
      unfold bind. rewrite Hr1 by lia. apply Hr2. lia.
    + rewrite Ejf1 in Hran. apply (ran_cons (jiffies w) w w1 w' l cs); try done; [lia|congruence].
Qed.
End Firing.

(** * The operations the rest of the kernel uses *)

Lemma pending_linked T w t tm : inv T w -> timers w !! t = Some tm -> pending w t -> linked tm = true.
Proof. intros HI Ht (n & i & Hi & Hx). destruct (inv_place _ _ HI n i t Hi Hx) as (tm' & ? & ? & _). congruence. Qed.

Lemma inv_with_lock T b w : inv T w -> inv T (with_lock b w).
Proof. intros []. by constructor. Qed.

Lemma add_timer_run T w t tm :
  inv T w -> timerlock w = false -> timers w !! t = Some tm -> linked tm = false ->
  0 <= expires tm < max_tick -> expires tm - timer_jiffies w <= 0xffffffff ->
  exists w', add_timer t w = Ret tt w' /\ inv T w' /\ added t tm w w'.
Proof.
  intros HI Hlk Ht Hl He Hle. unfold add_timer, bind at 1, acquire. rewrite Hlk.
  unfold bind at 1, timer_pending, bind at 1, get_timer. cbn [timers with_lock]. rewrite Ht. cbn [ret]. rewrite Hl.
  assert (Hp : ~ pending w t) by (intros Hp; pose proof (pending_linked _ _ _ _ HI Ht Hp); congruence).
  destruct (internal_add_timer_run T (with_lock true w) t tm) as (w1 & Hr & HI1 & [(? & ? & Hlk1 & ?) Htm Hi Hpd] & _);
    [by apply inv_with_lock|done..|].
  unfold bind. rewrite Hr. unfold release. rewrite Hlk1. cbn. eexists. split; [reflexivity|].
  split; [by apply inv_with_lock|]. constructor; try done.
Qed.

(** Detaching a timer whose links are consistent. *)
Lemma detach_timer_run T w t tm :
  inv T w -> timers w !! t = Some tm ->
  exists w', detach_timer t w = Ret (b2z (linked tm)) w' /\ inv T w' /\ same_rest w w' /\
    timers w' = timers w /\ (forall x, pending w' x <-> pending w x /\ x <> t).
Proof.
  intros HI Ht. unfold detach_timer, bind at 1, timer_pending, bind at 1, get_timer. rewrite Ht. cbn [ret].
  destruct (linked tm) eqn:Hl; cbn [negb].
  - destruct (dropped_inv T w t HI) as [HI' Hp]. exists (dropped t w). split; [done|]. split; [done|]. done.
  - exists w. split; [done|]. split; [done|]. split; [done|]. split; [done|]. intros x. split; [|tauto].
    intros Hx. split; [done|]. intros ->. pose proof (pending_linked _ _ _ _ HI Ht Hx). congruence.
Qed.

(** [mod_timer] changes [expires] before it detaches: the detached wheel is
    the one the change leaves well formed. *)
Lemma mod_timer_run T w t tm e' :
  inv T w -> timerlock w = false -> timers w !! t = Some tm ->
  0 <= e' < max_tick -> e' - timer_jiffies w <= 0xffffffff ->
  exists w', mod_timer t e' w = Ret (b2z (linked tm)) w' /\ inv T w' /\ same_rest w w' /\
    timers w' !! t = Some (mkTimer true e' (data tm) (function tm)) /\
    forall x, pending w' x <-> x = t \/ pending w x.
Proof.
  intros HI Hlk Ht He Hle. set (tm1 := mkTimer (linked tm) e' (data tm) (function tm)).
  destruct (detach_timer_run T (with_lock true w) t tm (inv_with_lock _ true _ HI) Ht)
    as (w1 & Hr & HI1 & (Ej & Ejf & Elk & Ecs) & Htm & Hp).
  set (w2 := with_timers (<[t := tm1]> (timers w1)) w1).
  assert (Hr2 : detach_timer t (with_timers (<[t := tm1]> (timers w)) (with_lock true w)) = Ret (b2z (linked tm)) w2).
  { revert Hr. unfold detach_timer, bind, timer_pending, get_timer, bind. cbn [timers with_timers with_lock].
    rewrite lookup_insert_eq, Ht. cbn [linked tm1 ret]. destruct (linked tm); cbn; intros [= <-]; done. }
  assert (Hnp : ~ pending w1 t) by (intros Hx%Hp; tauto).
  destruct (internal_add_timer_run T w2 t tm1) as (w3 & Hr3 & HI3 & [(Ej3 & Ejf3 & Elk3 & Ecs3) Htm3 _ Hp3] & _); try done.
  { by apply retimed_inv. }
  { apply lookup_insert_eq. }
  { change (timer_jiffies w2) with (timer_jiffies w1). rewrite Ej. done. }
  exists (with_lock false w3). split; [|split; [by apply inv_with_lock|split; [|split]]].
  - unfold mod_timer, bind at 1, acquire. rewrite Hlk. unfold bind at 1, set_expires, bind at 1, get_timer.
    cbn [timers with_lock]. rewrite Ht. unfold set_timer, modify. unfold bind at 1.
    change (mkTimer (linked tm) e' (data tm) (function tm)) with tm1. cbn [timers with_lock]. rewrite Hr2.
    unfold bind at 1. rewrite Hr3. unfold bind, release. rewrite Elk3. change (timerlock w2) with (timerlock w1). by rewrite Elk.
  - change (timer_jiffies w3 = timer_jiffies w /\ jiffies w3 = jiffies w /\ false = timerlock w /\ calls w3 = calls w).
    rewrite Ej3, Ejf3, Ecs3. done.
  - cbn [timers with_lock]. rewrite Htm3. apply lookup_insert_eq.
  - intros x. change (pending (with_lock false w3) x) with (pending w3 x). rewrite Hp3.
    change (pending w2 x) with (pending w1 x). rewrite Hp. change (pending (with_lock true w) x) with (pending w x).
    destruct (decide (x = t)); tauto.
Qed.

Lemma run_timer_list_ran ok call `{!GoodCallbacks ok call} w :
  ok w -> resting w -> timerlock w = false -> timer_jiffies w <= jiffies w -> jiffies w + 1 < max_tick ->
  exists w' f0, (forall fuel, (f0 <= fuel)%nat -> run_timer_list call fuel w = Ret tt w') /\
    ran (jiffies w) w w'.
Proof.
  intros Hok HI Hlk Hj Hmax.
  assert (Hok1 : ok (with_lock true w)) by (by apply (ok_drift w)).
  destruct (run_loop_run ok call (Z.to_nat (jiffies w + 1 - timer_jiffies w)) (with_lock true w))
    as (w1 & f0 & Hr & Hran); [done|by apply inv_with_lock|done|cbn; lia|done| |].
  { intros x (n & i & Hi & Hx). destruct (inv_place _ _ HI n i x Hi Hx) as (tm & Et & _). exists tm. split; [done|lia]. }
  exists (with_lock false w1), f0. split.
  - intros fuel Hf. unfold run_timer_list, bind, acquire. rewrite Hlk, Hr by done. unfold release.
    by rewrite (ran_lock _ _ _ Hran).
  - destruct Hran. constructor; try done. by apply inv_with_lock.
Qed.

(** * The properties of the timers *)

(** The wheel at boot, after [init_timervecs]; timers 1 to 4 are initialised. *)
Definition boot_wheel : wheel :=
  mkWheel (mkVec 0 (replicate 256 []) :: replicate 4 (mkVec 0 (replicate 64 []))) 0 0
    (list_to_map [(1, mkTimer false 3 10 100); (2, mkTimer false 300 20 100);
                  (3, mkTimer false 3 30 100); (4, mkTimer false 3 40 100)])
    false [].

Lemma replicate_slot w n i :
  tvecs w = tvecs boot_wheel -> slot w n i = [].
Proof.
  intros E. unfold slot. rewrite E. cbn [tvecs boot_wheel].
  assert (H : forall k, default ([] : list Z) (replicate k [] !! Z.to_nat i) = []).
  { intros k. destruct (replicate k [] !! Z.to_nat i) eqn:El; [|done]. by apply lookup_replicate_1 in El as [-> _]. }
  destruct n as [|n]; cbn [lookup list_lookup]; [apply (H 256%nat)|].
  destruct (replicate 4 (mkVec 0 (replicate 64 [])) !! n) as [tv|] eqn:El; [|done].
  apply lookup_replicate_1 in El as [-> _]. apply (H 64%nat).
Qed.

Lemma boot_resting w :
  tvecs w = tvecs boot_wheel -> timer_jiffies w = 0 -> resting w.
Proof.
  intros E Etj. unfold resting. pose proof (fun n i => replicate_slot w n i E) as Hsl.
  constructor; rewrite ?Etj; unfold max_tick, idx_of; rewrite ?E; try done; try lia.
  - split; [by rewrite E|]. intros n tv. rewrite E. cbn [tvecs boot_wheel].
    destruct n as [|n]; cbn [lookup list_lookup]; [by intros [= <-]|].
    intros [-> Hn]%lookup_replicate_1. cbn. done.
  - intros n Hn. assert (cdiv 0 (g n) = 0) as -> by (unfold cdiv; pose proof (g_pos n); apply Z.div_small; lia).
    destruct n as [|[|[|[|[|n]]]]]; try lia; done.
  - intros n i t Hi. rewrite Hsl. intros []%elem_of_nil.
  - intros n i Hi. rewrite Hsl. constructor.
  - intros n i m j t Hi Hj. rewrite Hsl. intros []%elem_of_nil.
Qed.

#[export] Instance noop_callbacks : GoodCallbacks (fun _ => True) (fun _ _ => ret tt).
Proof.
  split; [|done]. intros t tm w _ HI Hlk _ _ _ _. exists w. split; [done|]. split; [done|]. split; [done|]. split; [done|]. split; [done|].
  intros x Hx Hn. done.
Qed.

(** C2: timers fire on time.  From a well-formed wheel, and with timer functions
    that return, leave the pending timers alone and arm timers for later ticks
    only ([GoodCallbacks]; [it_real_fn] is such a function whenever its [kill]
    returns), [run_timer_list] returns with the lock free and the tick past
    [jiffies].  Every timer that was pending with [expires <= jiffies] has been
    called, at tick [expires], or at the first tick of the run if that was past
    already; no timer was called before its tick, every later timer is still
    pending, and no expired timer is left. *)
Theorem run_timer_list_fires ok call `{!GoodCallbacks ok call} w :
  ok w -> resting w -> timerlock w = false -> timer_jiffies w <= jiffies w -> jiffies w + 1 < max_tick ->
  exists w' cs f0, (forall fuel, (f0 <= fuel)%nat -> run_timer_list call fuel w = Ret tt w') /\
    resting w' /\ timerlock w' = false /\ timer_jiffies w' = jiffies w + 1 /\ calls w' = calls w ++ cs /\
    (forall x tm, pending w x -> timers w !! x = Some tm ->
       (expires tm <= jiffies w ->
          (x, Z.max (timer_jiffies w) (expires tm), function tm, data tm) ∈ cs) /\
       (forall tick f d, (x, tick, f, d) ∈ cs -> expires tm <= tick) /\
       (jiffies w < expires tm -> pending w' x /\ timers w' !! x = Some tm)) /\
    (forall x, pending w' x -> exists tm, timers w' !! x = Some tm /\ jiffies w < expires tm).
Proof.
  intros Hok HI Hlk Hj Hmax. destruct (run_timer_list_ran ok call w Hok HI Hlk Hj Hmax)
    as (w' & f0 & Hr & [HI' Hlk' _ Ht (cs & Ecs & _ & Hcs) Hlater Hleft]).
  exists w', cs, f0. split; [done|]. split; [done|]. split; [congruence|]. split; [done|]. split; [done|].
  split; [|done]. intros x tm Hx Ex. destruct (Hcs x tm Hx Ex) as [H1 H2].
  split; [done|]. split; [done|]. intros Hlt. by apply Hlater.
Qed.

(** C3: [add_timer], [mod_timer] and [del_timer] keep the wheel well formed, leave
    the lock free, and change the set of pending timers as their names say: an
    idle timer becomes pending, a timer that is already linked is left alone
    (the "added twice" case), modification re-arms it with the new expiry, and
    deletion removes it and unlinks it; the result of the last two tells
    whether the timer was linked. *)
Theorem timer_ops_correct w t tm e' :
  resting w -> timerlock w = false -> timers w !! t = Some tm ->
  0 <= expires tm < max_tick -> expires tm - timer_jiffies w <= 0xffffffff ->
  0 <= e' < max_tick -> e' - timer_jiffies w <= 0xffffffff ->
  (exists w', add_timer t w = Ret tt w' /\ resting w' /\ timerlock w' = false /\
     if linked tm then w' = w else forall x, pending w' x <-> x = t \/ pending w x) /\
  (exists w', mod_timer t e' w = Ret (b2z (linked tm)) w' /\ resting w' /\ timerlock w' = false /\
     timers w' !! t = Some (mkTimer true e' (data tm) (function tm)) /\
     forall x, pending w' x <-> x = t \/ pending w x) /\
  (exists w', del_timer t w = Ret (b2z (linked tm)) w' /\ resting w' /\ timerlock w' = false /\
     timers w' !! t = Some (mkTimer false (expires tm) (data tm) (function tm)) /\
     forall x, pending w' x <-> pending w x /\ x <> t).
Proof.
  intros HI Hlk Ht He Hle He' Hle'. unfold resting in *. split; [|split].
  - destruct (linked tm) eqn:Hl.
    + exists w. split; [|done]. unfold add_timer, bind at 1, acquire. rewrite Hlk.
      unfold bind at 1, timer_pending, bind at 1, get_timer. cbn [timers with_lock]. rewrite Ht. cbn [ret]. rewrite Hl.
      unfold release, with_lock. cbn. destruct w; cbn in *. by subst.
    + destruct (add_timer_run _ w t tm HI) as (w' & Hr & HI' & [(Ej & _ & Elk & _) _ _ Hp]); try done.
      exists w'. rewrite Ej. split; [done|]. split; [done|]. split; [congruence|done].
  - destruct (mod_timer_run _ w t tm e' HI) as (w' & Hr & HI' & (Ej & _ & Elk & _) & Htm & Hp); try done.
    exists w'. rewrite Ej. split; [done|]. split; [done|]. split; [congruence|done].
  - destruct (detach_timer_run _ (with_lock true w) t tm (inv_with_lock _ true _ HI) Ht)
      as (w1 & Hr & HI1 & (Ej & _ & Elk & _) & Htm & Hp).
    unfold del_timer, bind at 1, acquire. rewrite Hlk. unfold bind at 1. rewrite Hr.
    unfold bind at 1, set_linked, bind at 1, get_timer. rewrite Htm. cbn [timers with_lock]. rewrite Ht.
    unfold bind at 1, set_timer, modify, release. cbn [timerlock with_timers]. rewrite Elk. cbn.
    eexists. split; [reflexivity|]. cbn. rewrite Ej. split; [|split; [done|split; [apply lookup_insert_eq|done]]].
    apply inv_with_lock. apply retimed_inv; [done|]. intros Hx%Hp. tauto.
Qed.

Lemma timer_ops_correct_witness :
  exists w', mod_timer 2 7 boot_wheel = Ret 0 w' /\ pending w' 2.
Proof.
  destruct (timer_ops_correct boot_wheel 2 (mkTimer false 300 20 100) 7) as (_ & (w' & Hr & _ & _ & _ & Hp) & _);
    [by apply (boot_resting boot_wheel)|done|done|cbn; unfold max_tick; lia|cbn; lia|unfold max_tick; lia|cbn; lia|].
  exists w'. split; [exact Hr|]. apply Hp. by left.
Defined.

Lemma add_timers_slot w t l tm :
  inv (fun _ => timer_jiffies w) w -> timers w !! t = Some tm -> ~ pending w t ->
  timer_jiffies w <= expires tm < timer_jiffies w + 256 -> 0 <= expires tm < max_tick ->
  slot w 0 (expires tm mod 256) = l ->
  exists w', internal_add_timer t w = Ret tt w' /\ inv (fun _ => timer_jiffies w) w' /\ added t tm w w' /\
    slot w' 0 (expires tm mod 256) = list_push_back_prev l t.
Proof.
  intros HI Ht Hp He Hmax Hsl. pose proof (inv_tj _ _ HI) as Htj. unfold max_tick in *.
  assert (Er : internal_add_timer t w = put 0 (expires tm mod 256) t w).
  { unfold internal_add_timer, bind, get_timer, gets. rewrite Ht, u64_id by lia. change TVR_SIZE with 256.
    destruct (Z.ltb_spec (expires tm - timer_jiffies w) 256); [|lia]. by rewrite land_mask8. }
  pose proof (Z.mod_pos_bound (expires tm) 256 ltac:(lia)) as Hm.
  destruct (put_run 0 (expires tm mod 256) t tm w) as (w' & Hr & Hput); [apply HI|lia|done|done|].
  destruct (put_at_inv _ 0 (expires tm mod 256) t tm w w' HI Hput) as [HI' Hpend]; [lia|done|done|left; split; [lia|done]|].
  exists w'. rewrite Er. split; [done|]. split; [done|]. destruct Hput as (Hrest & Htm & Hi & _ & Hslot).
  split; [by constructor|]. rewrite Hslot, decide_True, Hsl by (done || lia). done.
Qed.

(** Timers of one tick do not fire in the order in which they were armed:
    because the wheel inserts at [vec->prev], arming [t1] and then the timers of
    [ts] for the same tick (within the next 256) leaves them in the order of
    [ts] followed by [t1], so the first one armed is called last. *)
Theorem same_tick_not_fifo w e t1 ts :
  resting w -> timer_jiffies w <= e < timer_jiffies w + 256 -> e < max_tick -> NoDup (t1 :: ts) ->
  slot w 0 (e mod 256) = [] ->
  (forall t, t ∈ t1 :: ts -> ~ pending w t /\ exists tm, timers w !! t = Some tm /\ expires tm = e) ->
  exists w', for_each (t1 :: ts) internal_add_timer w = Ret tt w' /\ slot w' 0 (e mod 256) = ts ++ [t1].
Proof.
  intros HI He Hmax Hnd Hsl Hts. pose proof (inv_tj _ _ HI) as Htj.
  destruct (Hts t1) as (Hp1 & tm1 & Ht1 & Ee1); [by left|].
  destruct (add_timers_slot w t1 [] tm1 HI Ht1 Hp1) as (w1 & Hr1 & HI1 & [(Ej1 & _) Htm1 _ Hpd1] & Hs1);
    [lia|lia|by rewrite Ee1|]. cbn [for_each]. unfold bind at 1. rewrite Hr1. rewrite Ee1 in Hs1. cbn in Hs1.
  assert (Hgen : forall ts pre v, inv (fun _ => timer_jiffies w) v -> timer_jiffies v = timer_jiffies w ->
    NoDup ts -> slot v 0 (e mod 256) = pre ++ [t1] ->
    (forall t, t ∈ ts -> ~ pending v t /\ exists tm, timers v !! t = Some tm /\ expires tm = e) ->
    exists w', for_each ts internal_add_timer v = Ret tt w' /\ slot w' 0 (e mod 256) = (pre ++ ts) ++ [t1]).
  { clear -Htj He Hmax. induction ts as [|t ts IH]; intros pre v HI Ej Hnd Hsl Hts.
    - exists v. by rewrite app_nil_r.
    - destruct (Hts t) as (Hp & tm & Ht & Ee); [by left|]. rewrite <- Ej in HI.
      destruct (add_timers_slot v t (pre ++ [t1]) tm HI Ht Hp) as (v1 & Hr & HI1 & [(Ej1 & _) Htm _ Hpd] & Hs);
        [lia|lia|by rewrite Ee|]. rewrite Ee in Hs. apply NoDup_cons in Hnd as [Htn Hnd].
      cbn [for_each]. unfold bind at 1. rewrite Hr.
      replace (pre ++ t :: ts) with ((pre ++ [t]) ++ ts) by by rewrite <- app_assoc.
      apply IH; [by rewrite <- Ej|congruence|done| |].
      + rewrite Hs. unfold list_push_back_prev. rewrite removelast_snoc, List.last_last.
        rewrite <- app_assoc. by destruct pre.
      + intros x Hx. assert (x <> t) by (by intros ->). destruct (Hts x) as (Hpx & tmx & Ex & Eex); [by right|].
        split; [intros [->|?]%Hpd; done|]. exists tmx. rewrite Htm, lookup_insert_ne by done. done. }
  apply NoDup_cons in Hnd as [Htn Hnd]. apply (Hgen ts [] w1); try done.
  intros x Hx. assert (x <> t1) by (by intros ->). destruct (Hts x) as (Hpx & tmx & Ex & Eex); [by right|].
  split; [intros [->|?]%Hpd1; done|]. exists tmx. rewrite Htm1, lookup_insert_ne by done. done.
Qed.

Lemma same_tick_not_fifo_witness :
  exists w', for_each [1; 3; 4] internal_add_timer boot_wheel = Ret tt w' /\ slot w' 0 3 = [3; 4; 1].
Proof.
  apply (same_tick_not_fifo boot_wheel 3 1 [3; 4]).
  - by apply (boot_resting boot_wheel).
  - cbn. lia.
  - unfold max_tick. lia.
  - apply (bool_decide_unpack _). vm_compute. done.
  - apply replicate_slot. reflexivity.
  - intros t Ht. split.
    + intros (n & i & _ & Hx). rewrite replicate_slot in Hx by reflexivity. by apply elem_of_nil in Hx.
    + repeat (apply elem_of_cons in Ht as [->|Ht]; [eexists; split; reflexivity|]). by apply elem_of_nil in Ht.
Defined.

End Timer.
