(* ===== verification/Itimer.v ===== *)
(** Interval timers of a process: kern/itimer.c, on top of the timer wheel.

    [istate] is the wheel together with the interval-timer fields of the
    process ([thisproc()], and the owner of the timer in [it_real_fn]).
    [kill] (kern/proc.c) is an argument of [it_real_fn]: it acts on the process
    table, and the theorems assume that the calls at hand return and leave
    these fields alone. *)

From stdpp Require Import base list gmap.
From Stdlib Require Import ZArith Lia Bool.
From S2P Require Import Prelude Lists Timer.
Import Timer.

Module Itimer.

Definition HZ : Z := 100.
Definition ULLONG_MAX : Z := 2 ^ 64 - 1.
Definition LONG_MAX : Z := 2 ^ 63 - 1.
Definition ITIMER_REAL : Z := 0.
Definition ITIMER_VIRTUAL : Z := 1.
Definition ITIMER_PROF : Z := 2.
Definition SIGALRM : Z := 14.

Record timeval : Type := mkTv { tv_sec : Z; tv_usec : Z }.

Record itimerval : Type := mkIt { it_interval : timeval; it_value : timeval }.

Record istate : Type := mkIst {
  wh : wheel;
  it_real_value : Z; it_real_incr : Z;
  it_virt_value : Z; it_virt_incr : Z;
  it_prof_value : Z; it_prof_incr : Z
}.

Definition set_wh (w : wheel) (s : istate) : istate :=
  mkIst w (it_real_value s) (it_real_incr s) (it_virt_value s) (it_virt_incr s)
        (it_prof_value s) (it_prof_incr s).
Definition set_real (v i : Z) (s : istate) : istate :=
  mkIst (wh s) v i (it_virt_value s) (it_virt_incr s) (it_prof_value s) (it_prof_incr s).
Definition set_virt (v i : Z) (s : istate) : istate :=
  mkIst (wh s) (it_real_value s) (it_real_incr s) v i (it_prof_value s) (it_prof_incr s).
Definition set_prof (v i : Z) (s : istate) : istate :=
  mkIst (wh s) (it_real_value s) (it_real_incr s) (it_virt_value s) (it_virt_incr s) v i.

Definition wheel_op {A} (m : M wheel A) : M istate A := zoom wh set_wh m.

Definition tvtojiffies (value : timeval) : Z :=
  let sec := u64 (tv_sec value) in
  let usec := u64 (tv_usec value) in
  if sec >? ULLONG_MAX / HZ then ULLONG_MAX else
  let usec := u64 (usec + (1000000 / HZ - 1)) in
  let usec := usec / (1000000 / HZ) in
  u64 (HZ * sec + usec).

Definition jiffiestotv (jiffies : Z) : timeval :=
  mkTv (s64 (jiffies / HZ)) (s64 (u64 ((jiffies mod HZ) * (1000000 / HZ)))).

Section Process.
(** The address of [p->real_timer] and the pid of [p]. *)
Context (real_timer pid : Z).

(** The result and what is stored in [*value]. *)
Definition getitimer (which : Z) : M istate (Z * option itimerval) :=
  if which =? ITIMER_REAL then
    let* interval := gets it_real_incr in
    let* p := wheel_op (timer_pending real_timer) in
    let* val :=
      (if p then
         let* tm := wheel_op (get_timer real_timer) in
         let* j := gets (fun s => jiffies (wh s)) in
         let val := u64 (expires tm - j) in
         ret (if s64 val <=? 0 then 1 else val)
       else ret 0) in
    ret (0, Some (mkIt (jiffiestotv interval) (jiffiestotv val)))
  else if which =? ITIMER_VIRTUAL then ret (- EFAULT, None)
  else if which =? ITIMER_PROF then ret (- EFAULT, None)
  else ret (- EINVAL, None).

(** [ovalue] says whether the pointer is non-NULL; the second result is what
    is stored there. *)
Definition setitimer (which : Z) (value : itimerval) (ovalue : bool)
    : M istate (Z * option itimerval) :=
  let i := tvtojiffies (it_interval value) in
  let j := tvtojiffies (it_value value) in
  let* ko := (if ovalue then getitimer which else ret (0, None)) in
  if ko.1 <? 0 then ret (ko.1, None) else
  if which =? ITIMER_REAL then
    let* _d := wheel_op (del_timer real_timer) in
    modify (set_real j i) ;;
    if j =? 0 then ret (0, ko.2) else
    let j := if j >? LONG_MAX then LONG_MAX else j in
    let* jf := gets (fun s => jiffies (wh s)) in
    let i := u64 (j + jf) in
    wheel_op (set_expires real_timer i) ;;
    wheel_op (add_timer real_timer) ;;
    ret (0, ko.2)
  else if which =? ITIMER_VIRTUAL then
    let j := if truthy j then u64 (j + 1) else j in
    modify (set_virt j i) ;; ret (0, ko.2)
  else if which =? ITIMER_PROF then
    let j := if truthy j then u64 (j + 1) else j in
    modify (set_prof j i) ;; ret (0, ko.2)
  else ret (- EINVAL, ko.2).

Definition it_real_fn (kill : Z -> Z -> M istate Z) : M istate unit :=
  let* _r := kill pid SIGALRM in
  let* interval := gets it_real_incr in
  if truthy interval then
    let interval := if interval >? LONG_MAX then LONG_MAX else interval in
    let* jf := gets (fun s => jiffies (wh s)) in
    wheel_op (set_expires real_timer (u64 (jf + interval))) ;;
    wheel_op (add_timer real_timer)
  else ret tt.
End Process.

(** * Lemmas *)

Lemma wheel_op_run {A} (m : M wheel A) s a w : m (wh s) = Ret a w -> wheel_op m s = Ret a (set_wh w s).
Proof. intros E. unfold wheel_op, zoom. by rewrite E. Qed.

Lemma jiffies_back j : 0 <= j < 2 ^ 63 -> tvtojiffies (jiffiestotv j) = j.
Proof.
  intros Hj. unfold tvtojiffies, jiffiestotv, HZ, ULLONG_MAX. cbn [tv_sec tv_usec].
  pose proof (Z.div_mod j 100 ltac:(lia)). pose proof (Z.mod_pos_bound j 100 ltac:(lia)).
  assert (0 <= j / 100 <= j) by (split; [apply Z.div_pos; lia|apply Z.div_le_upper_bound; lia]).
  change (1000000 / 100) with 10000. change ((2 ^ 64 - 1) / 100) with 184467440737095516.
  rewrite (u64_id (j mod 100 * 10000)), !s64_id, !u64_id by lia.
  rewrite (Z.gtb_ltb (j / 100)). destruct (Z.ltb_spec 184467440737095516 (j / 100)); [lia|].
  rewrite (u64_id (j mod 100 * 10000)) by lia. rewrite (u64_id (_ + (10000 - 1))) by lia.
  assert ((j mod 100 * 10000 + (10000 - 1)) / 10000 = j mod 100) as ->
    by (symmetry; apply Z.div_unique with 9999; lia).
  rewrite u64_id by lia. lia.
Qed.

(** [set_expires] on an idle timer keeps the wheel well formed. *)
Lemma rearm_run T w t tm e :
  inv T w -> timerlock w = false -> timers w !! t = Some tm -> linked tm = false ->
  0 <= e < max_tick -> e - timer_jiffies w <= 0xffffffff ->
  exists w1 w', set_expires t e w = Ret tt w1 /\ add_timer t w1 = Ret tt w' /\ inv T w' /\ same_rest w w' /\
    timers w' = <[t := mkTimer true e (data tm) (function tm)]> (timers w) /\
    (forall x, pending w' x <-> x = t \/ pending w x).
Proof.
  intros HI Hlk Ht Hl He Hle.
  assert (Hp : ~ pending w t) by (intros Hp; pose proof (pending_linked _ _ _ _ HI Ht Hp); congruence).
  set (tm1 := mkTimer false e (data tm) (function tm)).
  destruct (add_timer_run T (with_timers (<[t := tm1]> (timers w)) w) t tm1)
    as (w' & Hr & HI' & [Hrest Htm _ Hpd]); [by apply retimed_inv|done|apply lookup_insert_eq|done..|].
  eexists _, w'. split; [unfold set_expires, bind, get_timer; rewrite Ht, Hl; reflexivity|].
  split; [done|]. split; [done|]. split; [done|]. split; [rewrite Htm; cbn; by rewrite insert_insert_eq|done].
Qed.

(** [getitimer] on a consistent state. *)
Lemma getitimer_real rt s tm :
  timers (wh s) !! rt = Some tm ->
  getitimer rt ITIMER_REAL s =
  Ret (0, Some (mkIt (jiffiestotv (it_real_incr s))
     (jiffiestotv (if linked tm then
        let val := u64 (expires tm - jiffies (wh s)) in if s64 val <=? 0 then 1 else val else 0)))) s.
Proof.
  intros Ht. assert (Hid : forall v, set_wh (wh v) v = v) by by intros []. unfold getitimer. cbn [Z.eqb ITIMER_REAL].
  unfold bind at 1, gets at 1.
  rewrite (bind_run (wheel_op (timer_pending rt)) _ s (linked tm) s).
  2:{ rewrite (wheel_op_run _ s (linked tm) (wh s)); [by rewrite Hid|]. unfold timer_pending, bind, get_timer. by rewrite Ht. }
  destruct (linked tm); [|done].
  unfold bind at 1. rewrite (bind_run (wheel_op (get_timer rt)) _ s tm s); [done|].
  rewrite (wheel_op_run _ s tm (wh s)); [by rewrite Hid|]. unfold get_timer. by rewrite Ht.
Qed.

(** * The properties of interval timers *)

(** Converting ticks to a [timeval] and back is the identity, and converting
    a valid [timeval] to ticks rounds it up to the next tick. *)
Theorem tick_conversion j tv :
  0 <= j < 2 ^ 63 -> 0 <= tv_sec tv < ULLONG_MAX / HZ -> 0 <= tv_usec tv < 1000000 ->
  tvtojiffies (jiffiestotv j) = j /\
  let us := tv_sec tv * 1000000 + tv_usec tv in
  (tvtojiffies tv - 1) * 10000 < us <= tvtojiffies tv * 10000.
Proof.
  intros Hj Hs Hu. split; [by apply jiffies_back|]. unfold tvtojiffies, HZ, ULLONG_MAX in *.
  change ((2 ^ 64 - 1) / 100) with 184467440737095516 in *. change (1000000 / 100) with 10000.
  rewrite (u64_id (tv_sec tv)), (u64_id (tv_usec tv)) by lia.
  rewrite Z.gtb_ltb. destruct (Z.ltb_spec 184467440737095516 (tv_sec tv)); [lia|].
  rewrite (u64_id (tv_usec tv + _)) by lia.
  pose proof (Z.div_mod (tv_usec tv + (10000 - 1)) 10000 ltac:(lia)).
  pose proof (Z.mod_pos_bound (tv_usec tv + (10000 - 1)) 10000 ltac:(lia)).
  assert (0 <= (tv_usec tv + (10000 - 1)) / 10000 < 101)
    by (split; [apply Z.div_pos; lia|apply Z.div_lt_upper_bound; lia]).
  cbv zeta. rewrite u64_id by lia. lia.
Qed.

Lemma tick_conversion_witness :
  tvtojiffies (jiffiestotv 12345) = 12345 /\ (tvtojiffies (mkTv 1 5) - 1) * 10000 < 1000005.
Proof.
  destruct (tick_conversion 12345 (mkTv 1 5)) as [H1 [H2 _]]; [lia|vm_compute; split; congruence|cbn; lia|].
  split; [exact H1|exact H2].
Defined.

(** [setitimer(ITIMER_REAL)] arms the process's timer for [it_value] ticks
    from now (or disarms it when the value is zero), and [getitimer] then
    returns the value and the interval just set, rounded to ticks. *)
Theorem setitimer_getitimer rt s tm value j :
  resting (wh s) -> timerlock (wh s) = false -> timers (wh s) !! rt = Some tm ->
  0 <= expires tm < max_tick -> 0 <= jiffies (wh s) ->
  tvtojiffies (it_value value) = j -> jiffies (wh s) + j < max_tick ->
  jiffies (wh s) + j - timer_jiffies (wh s) <= 0xffffffff ->
  exists s', setitimer rt ITIMER_REAL value false s = Ret (0, None) s' /\
    resting (wh s') /\ timerlock (wh s') = false /\
    (forall x, pending (wh s') x <-> (if j =? 0 then pending (wh s) x /\ x <> rt else x = rt \/ pending (wh s) x)) /\
    (j <> 0 -> exists tm', timers (wh s') !! rt = Some tm' /\ expires tm' = jiffies (wh s) + j) /\
    getitimer rt ITIMER_REAL s' =
      Ret (0, Some (mkIt (jiffiestotv (tvtojiffies (it_interval value))) (jiffiestotv j))) s'.
Proof.
  intros HI Hlk Ht He Hjf Ej Hmax Hle.
  assert (H0 : 0 <= j).
  { subst j. unfold tvtojiffies. destruct (_ >? _); [unfold ULLONG_MAX; lia|]. apply wrap_range. lia. }
  destruct (detach_timer_run _ (with_lock true (wh s)) rt tm (inv_with_lock _ true _ HI) Ht)
    as (w1 & Hr1 & HI1 & (Etj1 & Ejf1 & Elk1 & _) & Htm1 & Hp1).
  set (tm2 := mkTimer false (expires tm) (data tm) (function tm)).
  set (w2 := with_lock false (with_timers (<[rt := tm2]> (timers w1)) w1)).
  assert (Hdel : del_timer rt (wh s) = Ret (b2z (linked tm)) w2).
  { unfold del_timer, bind at 1, acquire. rewrite Hlk. unfold bind at 1. rewrite Hr1.
    unfold bind at 1, set_linked, bind at 1, get_timer. rewrite Htm1. cbn [timers with_lock]. rewrite Ht.
    unfold bind at 1, set_timer, modify, release. cbn [timerlock with_timers]. rewrite Elk1. done. }
  assert (HI2 : inv (fun _ => timer_jiffies (wh s)) w2).
  { apply inv_with_lock, retimed_inv; [done|]. intros Hx%Hp1. tauto. }
  unfold setitimer. cbn [Z.eqb ITIMER_REAL]. rewrite Ej. unfold bind at 1, ret at 1. cbn [fst snd Z.ltb Z.compare].
  rewrite (bind_run _ _ _ _ _ (wheel_op_run _ s _ _ Hdel)). unfold bind at 1, modify at 1.
  destruct (Z.eqb_spec j 0) as [Hj0|Hj0].
  - eexists. split; [reflexivity|]. cbn [wh set_real set_wh].
    split; [unfold resting; change (timer_jiffies w2) with (timer_jiffies w1); by rewrite Etj1|].
    split; [done|]. split; [exact Hp1|]. split; [done|].
    rewrite (getitimer_real rt _ tm2) by apply lookup_insert_eq. cbn. by rewrite Hj0.
  - rewrite Z.gtb_ltb. unfold LONG_MAX, max_tick in *. destruct (Z.ltb_spec (2 ^ 63 - 1) j); [lia|].
    unfold bind at 1, gets at 1. cbn [wh set_real set_wh].
    change (jiffies w2) with (jiffies w1). rewrite Ejf1. change (jiffies (with_lock true (wh s))) with (jiffies (wh s)).
    rewrite u64_id by lia.
    destruct (rearm_run _ w2 rt tm2 (j + jiffies (wh s)) HI2) as (w3 & w4 & Hr3 & Hr4 & HI4 & (Etj4 & Ejf4 & Elk4 & _) & Htm4 & Hp4);
      [done|apply lookup_insert_eq|done|unfold max_tick; lia| |].
    { change (timer_jiffies w2) with (timer_jiffies w1). rewrite Etj1. cbn. lia. }
    assert (timers w4 !! rt = Some (mkTimer true (j + jiffies (wh s)) (data tm) (function tm))) as Htm4' by (rewrite Htm4; apply lookup_insert_eq).
    erewrite bind_run by (apply wheel_op_run; exact Hr3). erewrite bind_run by (apply wheel_op_run; exact Hr4).
    eexists. split; [reflexivity|]. cbn [wh set_wh set_real].
    assert (E4 : timer_jiffies w4 = timer_jiffies (wh s)) by (rewrite Etj4; exact Etj1).
    split; [unfold resting; by rewrite E4|]. split; [by rewrite Elk4|]. split; [|split].
    + intros x. rewrite Hp4. change (pending w2 x) with (pending w1 x). rewrite Hp1.
      change (pending (with_lock true (wh s)) x) with (pending (wh s) x). destruct (decide (x = rt)); tauto.
    + intros _. eexists. split; [exact Htm4'|]. cbn. lia.
    + erewrite getitimer_real by exact Htm4'. cbn [linked expires wh set_wh set_real it_real_incr].
      assert (jiffies w4 = jiffies (wh s)) as -> by (rewrite Ejf4; exact Ejf1).
      replace (j + jiffies (wh s) - jiffies (wh s)) with j by lia.
      cbv zeta. rewrite u64_id, s64_id by lia. destruct (Z.leb_spec j 0); [lia|done].
Qed.

Lemma setitimer_getitimer_witness :
  exists s', setitimer 1 ITIMER_REAL (mkIt (mkTv 1 0) (mkTv 0 25000)) false
               (mkIst boot_wheel 0 0 0 0 0 0) = Ret (0, None) s' /\
    getitimer 1 ITIMER_REAL s' = Ret (0, Some (mkIt (mkTv 1 0) (mkTv 0 30000))) s'.
Proof.
  destruct (setitimer_getitimer 1 (mkIst boot_wheel 0 0 0 0 0 0) (mkTimer false 3 10 100)
              (mkIt (mkTv 1 0) (mkTv 0 25000)) 3) as (s' & Hr & _ & _ & _ & _ & Hg);
    [by apply boot_resting|done|done|cbn; unfold max_tick; lia|cbn; lia|reflexivity|cbn; unfold max_tick; lia|cbn; lia|].
  exists s'. split; [exact Hr|exact Hg].
Defined.

(** When the real timer fires and [kill] returns, [it_real_fn] re-arms it one
    interval later if the interval is not zero, and leaves it idle otherwise; it
    keeps the wheel well formed and changes no other timer. *)
Theorem it_real_fn_rearms rt pid kill T s tm r :
  kill pid SIGALRM s = Ret r s ->
  inv T (wh s) -> timerlock (wh s) = false -> timers (wh s) !! rt = Some tm -> linked tm = false ->
  0 <= it_real_incr s -> timer_jiffies (wh s) <= jiffies (wh s) ->
  jiffies (wh s) + it_real_incr s < max_tick ->
  jiffies (wh s) + it_real_incr s - timer_jiffies (wh s) <= 0xffffffff ->
  exists s', it_real_fn rt pid kill s = Ret tt s' /\ inv T (wh s') /\ same_rest (wh s) (wh s') /\
    if it_real_incr s =? 0 then s' = s
    else (forall x, pending (wh s') x <-> x = rt \/ pending (wh s) x) /\
         timers (wh s') = <[rt := mkTimer true (jiffies (wh s) + it_real_incr s) (data tm) (function tm)]> (timers (wh s)).
Proof.
  intros Hk HI Hlk Ht Hl Hi Htj Hmax Hle.
  unfold it_real_fn. rewrite (bind_run _ _ _ _ _ Hk). unfold bind at 1, gets at 1, truthy.
  pose proof (inv_tj _ _ HI). unfold max_tick in *.
  destruct (Z.eqb_spec (it_real_incr s) 0) as [E|E]; cbn [negb]; [by exists s|].
  rewrite Z.gtb_ltb. unfold LONG_MAX. destruct (Z.ltb_spec (2 ^ 63 - 1) (it_real_incr s)); [lia|].
  unfold bind at 1, gets at 1. rewrite u64_id by lia.
  destruct (rearm_run T (wh s) rt tm (jiffies (wh s) + it_real_incr s) HI)
    as (w1 & w2 & Hr1 & Hr2 & HI2 & Hrest & Htm2 & Hp2); try done; [unfold max_tick; lia|].
  rewrite (bind_run _ _ _ _ _ (wheel_op_run _ s _ _ Hr1)). erewrite wheel_op_run by exact Hr2.
  eexists. split; [reflexivity|]. split; [done|]. split; [done|]. split; [done|exact Htm2].
Qed.

Lemma it_real_fn_rearms_witness :
  exists s', it_real_fn 1 7 (fun _ _ => ret 0) (mkIst boot_wheel 0 50 0 0 0 0) = Ret tt s' /\
    timers (wh s') = <[1 := mkTimer true (0 + 50) 10 100]> (timers boot_wheel).
Proof.
  destruct (it_real_fn_rearms 1 7 (fun _ _ => ret 0) (fun _ => 0) (mkIst boot_wheel 0 50 0 0 0 0) (mkTimer false 3 10 100) 0)
    as (s' & Hr & _ & _ & _ & Hx);
    [done|by apply (boot_resting boot_wheel)|done|done|done|cbn; lia|cbn; lia|cbn; unfold max_tick; lia|cbn; lia|].
  exists s'. split; [exact Hr|exact Hx].
Defined.

(** * The interval timers on the wheel *)

(** [it_real_fn] as the wheel calls it: [p] is the process, [rt p] its
    [real_timer] and [incr p] its [it_real_incr]. *)
Section Wheel.
Context (rt incr pid : Z -> Z) (kill : Z -> Z -> M istate Z) (start : Z).
Context (kill_returns : forall p s, exists r, kill p SIGALRM s = Ret r s).

Definition real_call (fn p : Z) : M wheel unit :=
  fun w => match it_real_fn (rt p) (pid p) kill (mkIst w 0 (incr p) 0 0 0 0) with
           | Ret _ s => Ret tt (wh s)
           | Panic s => Panic (wh s)
           | Block s => Block (wh s)
           | NoFuel => NoFuel
           end.

(** Every timer is the [real_timer] of its process, and no interval
    leads out of the range of the wheel. *)
Definition real_timers (w : wheel) : Prop :=
  start <= timer_jiffies w /\
  forall t tm, timers w !! t = Some tm ->
    rt (data tm) = t /\ 0 <= incr (data tm) /\ jiffies w + incr (data tm) < max_tick /\ jiffies w + incr (data tm) - start <= 0xffffffff.

#[local] Instance real_callbacks : GoodCallbacks real_timers real_call.
Proof using kill_returns.
  split.
  - intros t tm w [Hst Hok] HI Hlk Hj Ht Hl Hnp. destruct (Hok t tm Ht) as (Hrt & Hi & Hmax & Hle).
    destruct (kill_returns (pid (data tm)) (mkIst w 0 (incr (data tm)) 0 0 0 0)) as [r Hk].
    destruct (it_real_fn_rearms (rt (data tm)) (pid (data tm)) kill _ (mkIst w 0 (incr (data tm)) 0 0 0 0) tm r Hk HI Hlk)
      as (s' & E & HI' & Hrest & Hs); [by rewrite Hrt|done|done|done|done|cbn; lia|].
    exists (wh s'). unfold real_call. rewrite E. split; [done|]. cbn [it_real_incr wh] in *. pose proof Hrest as (Ej & Ejf & _).
    destruct (incr (data tm) =? 0) eqn:Ei; [subst s'; done|]. apply Z.eqb_neq in Ei. destruct Hs as [Hp Htm]. rewrite Hrt in Hp, Htm.
    assert (caught_up (wh s')) as HC by (unfold caught_up in *; by rewrite Ej).
    split; [|split; [done|split; [done|split]]].
    + split; [lia|]. rewrite Ejf, Htm. intros x y Hy. apply lookup_insert_Some in Hy as [[<- <-]|[_ Hy]]; [done|by apply Hok].
    + intros x Hx. split; [apply Hp; by right|]. rewrite Htm, lookup_insert_ne; [done|]. by intros ->.
    + intros x Hx Hnx. apply Hp in Hx as [->|?]; [|done]. rewrite Htm, lookup_insert_eq. eexists. split; [done|]. cbn. lia.
  - intros w w' [Hst Hok] Ej Htj Hk. split; [lia|]. intros t tm' Ht'. specialize (Hk t). rewrite Ht' in Hk.
    destruct (timers w !! t) as [tm|] eqn:Ht; [|done]. injection Hk as _ Hd. rewrite Hd, Ej. by apply (Hok t).
Qed.
End Wheel.

(** Timer 1 belongs to process 10, timer 2 to process 20 and so on; the first is
    armed for tick 3, and its process wants it every 4 ticks. *)
Definition demo_incr (p : Z) : Z := if p =? 10 then 4 else 0.
Definition demo_call : Z -> Z -> M wheel unit := real_call (fun p => p / 10) demo_incr (fun p => p) (fun _ _ => ret 0).

Lemma run_timer_list_fires_witness :
  exists w1 w' f0, add_timer 1 boot_wheel = Ret tt w1 /\
    let w2 := mkWheel (tvecs w1) (timer_jiffies w1) 5 (timers w1) false (calls w1) in
    run_timer_list demo_call f0 w2 = Ret tt w' /\ (1, 3, 100, 10) ∈ calls w' /\
    timer_jiffies w' = 6.
Proof.
  destruct (add_timer_run (fun _ => 0) boot_wheel 1 (mkTimer false 3 10 100)) as (w1 & Hr & HI & [(Ej & _) Htm _ Hp]);
    [by apply (boot_resting boot_wheel)|done|done|done|cbn; unfold max_tick; lia|cbn; lia|].
  set (w2 := mkWheel (tvecs w1) (timer_jiffies w1) 5 (timers w1) false (calls w1)).
  assert (HI2 : resting w2).
  { unfold resting. replace (timer_jiffies w2) with 0 by (cbn; by rewrite Ej). destruct HI. by constructor. }
  assert (Hcb : GoodCallbacks (real_timers (fun p => p / 10) demo_incr 0) demo_call).
  { apply real_callbacks. intros p s. by exists 0. }
  assert (Hok : real_timers (fun p => p / 10) demo_incr 0 w2).
  { split; [cbn; rewrite Ej; cbn; lia|]. change (timers w2) with (timers w1). rewrite Htm. cbn [timers boot_wheel jiffies w2].
    intros t tm Ht. apply lookup_insert_Some in Ht as [[<- <-]|[_ Ht]]; [vm_compute; done|]. apply elem_of_list_to_map_2 in Ht.
    repeat (apply elem_of_cons in Ht as [[= -> ->]|Ht]; [vm_compute; done|]). by apply not_elem_of_nil in Ht. }
  destruct (run_timer_list_fires (real_timers (fun p => p / 10) demo_incr 0) demo_call w2) as (w' & cs & f0 & Hrun & _ & _ & Ht & Ecs & Hcs & _);
    [exact Hok|exact HI2|reflexivity|cbn; rewrite Ej; cbn; lia|cbn; unfold max_tick; lia|].
  exists w1, w', f0. split; [exact Hr|]. split; [apply Hrun; lia|]. split; [|exact Ht].
  rewrite Ecs. apply elem_of_app. right.
  assert (Hp1 : pending w2 1) by (apply (proj2 (Hp 1)); by left).
  destruct (Hcs 1 (mkTimer true 3 10 100) Hp1) as [Hf _].
  { change (timers w2) with (timers w1). rewrite Htm. apply lookup_insert_eq. }
  cbn in Hf. rewrite Ej in Hf. apply Hf. lia.
Defined.

End Itimer.
