(* ===== verification/Rtc.v ===== *)
(** The real-time clock: kern/rtc.c and the DS3231 driver kern/ds3231.c.

    The driver is compiled in two ways, with and without [USING_RASPI]
    (inc/rtc.h undefines it); the flag is an argument here.  The I2C bus
    (kern/i2c.c, register accesses to the controller) and the clock chip
    behind it are the interface [I2C]; [Chip] states what the chip's data
    sheet promises of its time registers, and [ds3231_chip] is a register file
    that keeps the promise. *)

From stdpp Require Import base list.
From Stdlib Require Import ZArith Lia Bool.
From S2P Require Import Prelude.

Module Rtc.

(** * Calendar arithmetic (rtc.c) *)

Record rtc_time : Type := mkRtc {
  tm_sec : Z; tm_min : Z; tm_hour : Z; tm_mday : Z; tm_mon : Z;
  tm_year : Z; tm_wday : Z; tm_yday : Z; tm_isdst : Z
}.

Record timespec : Type := mkTs { tv_sec : Z; tv_nsec : Z }.

Definition rtc_days_in_month : list Z := [31; 28; 31; 30; 31; 30; 31; 31; 30; 31; 30; 31].

Definition LEAPS_THRU_END_OF (y : Z) : Z := y / 4 - y / 100 + y / 400.

Definition is_leap_year (year : Z) : bool :=
  ((Z.rem year 4 =? 0) && negb (Z.rem year 100 =? 0)) || (Z.rem year 400 =? 0).

(** [month] is within the array at every call. *)
Definition rtc_month_days (month year : Z) : Z :=
  nth (Z.to_nat month) rtc_days_in_month 0 + b2z (is_leap_year year && (month =? 1)).

Definition rtc_valid_tm (tm : rtc_time) : Z :=
  if (199 <? tm_year tm)
     || (12 <=? u32 (tm_mon tm))
     || (tm_mday tm <? 1)
     || (rtc_month_days (tm_mon tm) (s32 (tm_year tm + 1900)) <? tm_mday tm)
     || (24 <=? u32 (tm_hour tm))
     || (60 <=? u32 (tm_min tm))
     || (60 <=? u32 (tm_sec tm))
  then - EINVAL else 0.

Definition rtc_tm_to_time (year0 mon0 day hour min sec : Z) : Z :=
  let mon := u32 (mon0 + 1) in
  let year := u32 (year0 + 1900) in
  let mon := u32 (mon - 2) in
  let '(mon, year) := if 0 >=? s32 mon then (u32 (mon + 12), u32 (year - 1)) else (mon, year) in
  let days := u32 (year / 4 - year / 100 + year / 400 + u32 (367 * mon) / 12 + day)
              + u32 (year * 365) - 719499 in
  s64 (s64 (s64 (days * 24 + hour) * 60 + min) * 60 + sec).

(** The month loop: [month] counts up to 11. *)
Fixpoint month_loop (fuel : nat) (month year days : Z) : Z * Z :=
  match fuel with
  | O => (month, days)
  | S fuel' =>
      let newdays := s32 (days - rtc_month_days month (s32 year)) in
      if newdays <? 0 then (month, days)
      else month_loop fuel' (month + 1) year newdays
  end.

Definition rtc_time_to_tm (time : Z) : rtc_time :=
  let days := s32 (Z.quot time 86400) in
  let secs := u64 (time - u32 (u32 days * 86400)) in
  let wday := Z.rem (s32 (days + 4)) 7 in
  let year := u32 (1970 + Z.quot days 365) in
  let days := s32 (days - u32 (u32 ((year - 1970) * 365) + LEAPS_THRU_END_OF (u32 (year - 1))
                               - LEAPS_THRU_END_OF (1970 - 1))) in
  let '(year, days) :=
    if days <? 0
    then let year := u32 (year - 1) in (year, s32 (days + (365 + b2z (is_leap_year (s32 year)))))
    else (year, days) in
  let yday := days + 1 in
  let '(month, days) := month_loop 11 0 year days in
  let hour := s32 (secs / 3600) in
  let secs := u64 (secs - s32 (hour * 3600)) in
  let min := s32 (secs / 60) in
  let sec := s32 (secs - s32 (min * 60)) in
  mkRtc sec min hour (days + 1) month (s32 (year - 1900)) wday yday 0.

(** * The DS3231 driver (ds3231.c) *)

(** The [while] loop of [bin2bcd]; [fuel] bounds the number of tens. *)
Fixpoint bcd_loop (fuel : nat) (msbcd value : Z) : Z * Z :=
  match fuel with
  | O => (msbcd, value)
  | S fuel' => if 10 <=? value then bcd_loop fuel' (u8 (msbcd + 1)) (value - 10) else (msbcd, value)
  end.

Definition bin2bcd (value : Z) : Z :=
  let '(msbcd, value) := bcd_loop (Z.to_nat value) 0 value in
  u8 (Z.lor (Z.shiftl msbcd 4) value).

Definition bcd2bin (value : Z) : Z :=
  let tens := Z.shiftr value 4 * 10 in
  tens + Z.land value 0x0f.

Definition DS3231_I2C_ADDRESS : Z := 0x68.
Definition DS3231_SECS_REG : nat := 0.
Definition DS3231_MIN_REG : nat := 1.
Definition DS3231_HOUR_REG : nat := 2.
Definition DS3231_WDAY_REG : nat := 3.
Definition DS3231_MDAY_REG : nat := 4.
Definition DS3231_MONTH_REG : nat := 5.
Definition DS3231_YEAR_REG : nat := 6.
Definition DS3231_12HR_BIT : Z := 0x40.
Definition DS3231_CENTURY_BIT : Z := 0x80.
Definition DS1337_STATUS_REG : Z := 0x0f.
Definition DS3231_OSF_BIT : Z := 0x80.
Definition I2CS_SUCCESS : Z := 0.

(** The bus: [i2c_send(address, bytes)] and [i2c_recv(address, n)] with their
    status; the received bytes are meaningful when the status is success. *)
Class I2C (D : Type) : Type := {
  i2c_send : Z -> list Z -> D -> Z * D;
  i2c_recv : Z -> nat -> D -> Z * list Z * D
}.

(** The chip's time registers: writing [0] and seven bytes succeeds, and a read
    of seven bytes that follows the selection of register 0 returns them. *)
Class Chip (D : Type) `{!I2C D} : Prop :=
  chip_keeps : forall (d : D) (regs : list Z), length regs = 7%nat ->
    exists d1 d2 d3,
      i2c_send DS3231_I2C_ADDRESS (Z.of_nat DS3231_SECS_REG :: regs) d = (I2CS_SUCCESS, d1) /\
      i2c_send DS3231_I2C_ADDRESS [Z.of_nat DS3231_SECS_REG] d1 = (I2CS_SUCCESS, d2) /\
      i2c_recv DS3231_I2C_ADDRESS 7 d2 = (I2CS_SUCCESS, regs, d3).

Section Driver.
Context {D : Type} `{!I2C D} (USING_RASPI : bool).

(** [reg regs i] is [regs[i]] of the received buffer. *)
Definition reg (regs : list Z) (i : nat) : Z := nth i regs 0.

(** The result and [*t], which is [None] while nothing was stored.  The
    compiled-in date of the other variant leaves [tm_yday] and [tm_isdst]
    alone; the callers do not read them. *)
Definition ds3231_get_datetime (d : D) : Z * option rtc_time * D :=
  if USING_RASPI then
    let '(r, d) := i2c_send DS3231_I2C_ADDRESS [Z.of_nat DS3231_SECS_REG] d in
    if negb (r =? I2CS_SUCCESS) then (r, None, d) else
    let '(r, regs, d) := i2c_recv DS3231_I2C_ADDRESS 7 d in
    if negb (r =? I2CS_SUCCESS) then (r, None, d) else
    let sec := bcd2bin (Z.land (reg regs DS3231_SECS_REG) 0x7f) in
    let min := bcd2bin (Z.land (reg regs DS3231_MIN_REG) 0x7f) in
    let hour := if truthy (Z.land (reg regs DS3231_HOUR_REG) DS3231_12HR_BIT)
                then bcd2bin (Z.land (reg regs DS3231_HOUR_REG) 0x1f)
                else bcd2bin (Z.land (reg regs DS3231_HOUR_REG) 0x3f) in
    let wday := bcd2bin (Z.land (reg regs DS3231_WDAY_REG) 0x07) - 1 in
    let mday := bcd2bin (Z.land (reg regs DS3231_MDAY_REG) 0x3f) in
    let mon := bcd2bin (Z.land (reg regs DS3231_MONTH_REG) 0x1f) - 1 in
    let year := bcd2bin (reg regs DS3231_YEAR_REG) in
    let year := if truthy (Z.land (reg regs DS3231_MONTH_REG) DS3231_CENTURY_BIT)
                then year + 100 else year in
    let t := mkRtc sec min hour mday mon year wday 0 0 in
    (rtc_valid_tm t, Some t, d)
  else (0, Some (mkRtc 23 31 1 21 5 122 2 0 0), d).

(** The seven register bytes of [*t], and [*t] afterwards (its year is reduced
    in place). *)
Definition time_regs (t : rtc_time) : list Z * rtc_time :=
  let month := bin2bcd (tm_mon t + 1) in
  let '(year, month) := if 99 <? tm_year t
                        then (tm_year t - 100, Z.lor month DS3231_CENTURY_BIT)
                        else (tm_year t, month) in
  ([bin2bcd (tm_sec t); bin2bcd (tm_min t); bin2bcd (tm_hour t); bin2bcd (tm_wday t + 1);
    bin2bcd (tm_mday t); month; bin2bcd year],
   mkRtc (tm_sec t) (tm_min t) (tm_hour t) (tm_mday t) (tm_mon t) year
         (tm_wday t) (tm_yday t) (tm_isdst t)).

Definition ds3231_set_datetime (t : rtc_time) (d : D) : Z * rtc_time * D :=
  if USING_RASPI then
    if 199 <? tm_year t then (- EINVAL, t, d) else
    let '(regs, t) := time_regs t in
    let '(r, d) := i2c_send DS3231_I2C_ADDRESS (Z.of_nat DS3231_SECS_REG :: regs) d in
    if negb (r =? I2CS_SUCCESS) then (r, t, d) else (0, t, d)
  else (0, t, d).

Definition ds3231_init (d : D) : D :=
  if USING_RASPI then
    let '(_, d) := i2c_send DS3231_I2C_ADDRESS [DS1337_STATUS_REG] d in
    let '(_, data, d) := i2c_recv DS3231_I2C_ADDRESS 1 d in
    let status_data := Z.land (nth 0 data 0) (not_w 8 DS3231_OSF_BIT) in
    let '(_, d) := i2c_send DS3231_I2C_ADDRESS [DS1337_STATUS_REG] d in
    let '(_, d) := i2c_send DS3231_I2C_ADDRESS [status_data] d in
    d
  else d.

(** [rtc_gettime]: the result and what is stored in [*tp]. *)
Definition rtc_gettime (d : D) : Z * option timespec * D :=
  let '(r, t, d) := ds3231_get_datetime d in
  if negb (r =? 0) then (r, None, d) else
  match t with
  | None => (0, None, d)
  | Some t =>
      (0, Some (mkTs (rtc_tm_to_time (u32 (tm_year t)) (u32 (tm_mon t)) (u32 (tm_mday t))
                        (u32 (tm_hour t)) (u32 (tm_min t)) (u32 (tm_sec t))) 0), d)
  end.

Definition rtc_settime (tp : timespec) (d : D) : Z * D :=
  let t := rtc_time_to_tm (tv_sec tp) in
  let '(r, _, d) := ds3231_set_datetime t d in (r, d).

Definition rtc_init (d : D) : D := ds3231_init d.
End Driver.

(** * Calendar lemmas *)

Lemma div_step y k : 0 < k -> y / k - (y - 1) / k = b2z (y mod k =? 0).
Proof.
  intros Hk. pose proof (Z.div_mod y k ltac:(lia)). pose proof (Z.mod_pos_bound y k Hk).
  destruct (Z.eqb_spec (y mod k) 0); cbn [b2z].
  - enough ((y - 1) / k = y / k - 1) by lia. symmetry. apply Z.div_unique with (k - 1); lia.
  - enough ((y - 1) / k = y / k) by lia. symmetry. apply Z.div_unique with (y mod k - 1); lia.
Qed.

Lemma mod_multiple y k m : 0 < k -> 0 < m -> y mod (k * m) = 0 -> y mod k = 0.
Proof. intros Hk Hm H. rewrite Z.rem_mul_r in H by lia. pose proof (Z.mod_pos_bound y k Hk).
  pose proof (Z.mod_pos_bound (y / k) m Hm). nia. Qed.

Lemma leaps_step y : 0 <= y -> LEAPS_THRU_END_OF y - LEAPS_THRU_END_OF (y - 1) = b2z (is_leap_year y).
Proof.
  intros Hy. unfold LEAPS_THRU_END_OF, is_leap_year. rewrite !Z.rem_mod_nonneg by lia.
  pose proof (div_step y 4 ltac:(lia)). pose proof (div_step y 100 ltac:(lia)). pose proof (div_step y 400 ltac:(lia)).
  pose proof (mod_multiple y 100 4 ltac:(lia) ltac:(lia)). pose proof (mod_multiple y 4 25 ltac:(lia) ltac:(lia)).
  change (100 * 4) with 400 in *. change (4 * 25) with 100 in *.
  destruct (Z.eqb_spec (y mod 4) 0), (Z.eqb_spec (y mod 100) 0), (Z.eqb_spec (y mod 400) 0); cbn [b2z andb orb negb] in *; lia.
Qed.

(** Days of the year before the first of month [m]. *)
Fixpoint days_before (m : nat) (year : Z) : Z :=
  match m with
  | O => 0
  | S m' => days_before m' year + rtc_month_days (Z.of_nat m') year
  end.

Lemma days_before_S m year : days_before (S m) year = days_before m year + rtc_month_days (Z.of_nat m) year.
Proof. reflexivity. Qed.

Lemma month_days_range m year : (m < 12)%nat -> 28 <= rtc_month_days (Z.of_nat m) year <= 31.
Proof.
  intros Hm. unfold rtc_month_days. rewrite Nat2Z.id. destruct (is_leap_year year).
  all: do 12 (destruct m as [|m]; [vm_compute; split; congruence|]); lia.
Qed.

Lemma days_before_year year : days_before 12 year = 365 + b2z (is_leap_year year).
Proof. unfold days_before, rtc_month_days. cbn. destruct (is_leap_year year); reflexivity. Qed.

Lemma month_loop_spec year yday fuel : forall m d,
  (m + fuel = 11)%nat -> 0 <= year < 2 ^ 31 -> 0 <= yday < days_before 12 year -> 0 <= d ->
  yday = days_before m year + d ->
  exists m' d', month_loop fuel (Z.of_nat m) year d = (Z.of_nat m', d') /\ (m' < 12)%nat /\
    0 <= d' < rtc_month_days (Z.of_nat m') year /\ yday = days_before m' year + d'.
Proof.
  induction fuel as [|fuel IH]; intros m d Hm Hy Hyd Hd E.
  - exists m, d. assert (m = 11%nat) as -> by lia. split; [done|]. split; [lia|]. split; [|done].
    rewrite (days_before_S 11) in Hyd. lia.
  - cbn [month_loop]. rewrite (s32_id year) by lia.
    assert (days_before 12 year <= 366) by (rewrite days_before_year; destruct (is_leap_year year); cbn; lia).
    assert (0 <= days_before m year).
    { clear -Hm. assert (m < 12)%nat as Hm' by lia. clear Hm. induction m as [|m IHm]; cbn; [lia|].
      pose proof (month_days_range m year ltac:(lia)). specialize (IHm ltac:(lia)). lia. }
    pose proof (month_days_range m year ltac:(lia)).
    rewrite s32_id by lia. destruct (Z.ltb_spec (d - rtc_month_days (Z.of_nat m) year) 0).
    + exists m, d. split; [done|]. split; [lia|]. split; [lia|done].
    + replace (Z.of_nat m + 1) with (Z.of_nat (S m)) by lia.
      apply IH; [lia|done|done|lia|]. rewrite days_before_S. lia.
Qed.

(** Days since 1970-01-01 of the first day of [year]. *)
Definition year_start (year : Z) : Z :=
  (year - 1970) * 365 + LEAPS_THRU_END_OF (year - 1) - LEAPS_THRU_END_OF 1969.

(** What [rtc_time_to_tm] stores, for a time the 32-bit product covers. *)
Record broken_down (time : Z) (t : rtc_time) : Prop := {
  bd_year : 70 <= tm_year t <= 206;
  bd_mon : exists m, tm_mon t = Z.of_nat m /\ (m < 12)%nat /\
    1 <= tm_mday t <= rtc_month_days (tm_mon t) (tm_year t + 1900) /\
    time / 86400 = year_start (tm_year t + 1900) + days_before m (tm_year t + 1900) + (tm_mday t - 1);
  bd_hour : tm_hour t = time mod 86400 / 3600;
  bd_min : tm_min t = time mod 3600 / 60;
  bd_sec : tm_sec t = time mod 60;
  bd_wday : tm_wday t = (time / 86400 + 4) mod 7;
  bd_yday : year_start (tm_year t + 1900) + (tm_yday t - 1) = time / 86400
}.

(** The estimated year is at most one too late. *)
Lemma year_estimate days :
  0 <= days <= 49710 ->
  let q := days / 365 in
  0 <= q <= 136 /\ 0 <= LEAPS_THRU_END_OF (1969 + q) - LEAPS_THRU_END_OF 1969 <= 40 /\
  days - year_start (1970 + q) = days mod 365 - (LEAPS_THRU_END_OF (1969 + q) - LEAPS_THRU_END_OF 1969).
Proof.
  intros Hd q. assert (Hq : 0 <= q < 137)
    by (unfold q; split; [apply Z.div_pos; lia|apply Z.div_lt_upper_bound; lia]).
  split; [lia|]. split.
  - change (LEAPS_THRU_END_OF 1969) with 477. unfold LEAPS_THRU_END_OF.
    pose proof (Z.div_mod (1969 + q) 4 ltac:(lia)). pose proof (Z.mod_pos_bound (1969 + q) 4 ltac:(lia)).
    pose proof (Z.div_mod (1969 + q) 100 ltac:(lia)). pose proof (Z.mod_pos_bound (1969 + q) 100 ltac:(lia)).
    pose proof (Z.div_mod (1969 + q) 400 ltac:(lia)). pose proof (Z.mod_pos_bound (1969 + q) 400 ltac:(lia)). lia.
  - unfold year_start. replace (1970 + q - 1) with (1969 + q) by lia.
    pose proof (Z.div_mod days 365 ltac:(lia)). unfold q in *. lia.
Qed.

(** The year and the day of the year that the estimate and its correction give. *)
Lemma year_of_days days :
  0 <= days <= 49710 ->
  let d0 := days - year_start (1970 + days / 365) in
  let year := if d0 <? 0 then 1970 + days / 365 - 1 else 1970 + days / 365 in
  1970 <= year <= 2106 /\ 0 <= days - year_start year < days_before 12 year /\
  days - year_start year = (if d0 <? 0 then d0 + (365 + b2z (is_leap_year year)) else d0) /\ -40 <= d0 < 365 /\
  0 <= year_start (1970 + days / 365).
Proof.
  intros Hdays d0 year. destruct (year_estimate days Hdays) as (Hq & Hl & Eest). cbv zeta in *.
  pose proof (Z.mod_pos_bound days 365 ltac:(lia)) as Hr. set (q := days / 365) in *.
  assert (0 <= year_start (1970 + q))
    by (unfold year_start; replace (1970 + q - 1) with (1969 + q) by lia; lia).
  rewrite days_before_year. unfold year. fold d0 in Eest. destruct (Z.ltb_spec d0 0) as [Hneg|Hpos].
  - pose proof (leaps_step (1970 + q - 1) ltac:(lia)) as Hst.
    assert (Ey : year_start (1970 + q) = year_start (1970 + q - 1) + 365 + b2z (is_leap_year (1970 + q - 1)))
      by (unfold year_start; lia).
    assert (0 < q) by (destruct (decide (q = 0)) as [E0|]; [exfalso; rewrite E0, Z.add_0_r in Eest; lia|lia]).
    assert (0 <= b2z (is_leap_year (1970 + q - 1)) <= 1) by (destruct (is_leap_year _); cbn; lia).
    unfold d0 in *. lia.
  - assert (0 <= b2z (is_leap_year (1970 + q)) <= 1) by (destruct (is_leap_year _); cbn; lia). unfold d0 in *. lia.
Qed.

Lemma sixty secs : 0 <= secs < 86400 ->
  secs / 3600 < 24 /\ (secs - secs / 3600 * 3600) / 60 = secs mod 3600 / 60 /\
  secs - secs / 3600 * 3600 - (secs mod 3600 / 60) * 60 = secs mod 60.
Proof.
  intros Hs. pose proof (Z.div_mod secs 3600 ltac:(lia)). pose proof (Z.mod_pos_bound secs 3600 ltac:(lia)).
  pose proof (Z.div_mod (secs mod 3600) 60 ltac:(lia)). pose proof (Z.mod_pos_bound (secs mod 3600) 60 ltac:(lia)).
  split; [lia|]. split; [f_equal; lia|]. rewrite (Z.mod_mod_divide secs 3600 60) in * by (by exists 60). lia.
Qed.

Lemma rtc_time_to_tm_spec time : 0 <= time < 2 ^ 32 -> broken_down time (rtc_time_to_tm time).
Proof.
  intros Ht. set (days := time / 86400).
  pose proof (Z.div_mod time 86400 ltac:(lia)) as Edm. pose proof (Z.mod_pos_bound time 86400 ltac:(lia)) as Hsec.
  fold days in Edm. assert (Hdays : 0 <= days <= 49710) by lia.
  destruct (year_of_days days Hdays) as (Hy & Hyd & Eyd & Hd0 & Hys). cbv zeta in *.
  set (d0 := days - year_start (1970 + days / 365)) in *.
  set (year := if d0 <? 0 then 1970 + days / 365 - 1 else 1970 + days / 365) in *.
  set (yday := days - year_start year) in *.
  destruct (month_loop_spec year yday 11 0 yday ltac:(lia) ltac:(lia) Hyd ltac:(lia) ltac:(cbn; lia))
    as (m & d & Eloop & Hm & Hd & Emd).
  destruct (sixty (time mod 86400) Hsec) as (Hh & Emin & Es).
  rewrite (Z.mod_mod_divide time 86400 3600) in Emin, Es by (by exists 24).
  rewrite (Z.mod_mod_divide time 86400 60) in Es by (by exists 1440).
  assert (Hq : 0 <= days / 365 < 137) by (split; [apply Z.div_pos; lia|apply Z.div_lt_upper_bound; lia]).
  assert (Hmd : rtc_month_days (Z.of_nat m) year <= 31) by by apply month_days_range.
  assert (E : rtc_time_to_tm time = mkRtc (time mod 60) (time mod 3600 / 60) (time mod 86400 / 3600) (d + 1)
    (Z.of_nat m) (year - 1900) ((days + 4) mod 7) (yday + 1) 0).
  { unfold rtc_time_to_tm. rewrite (Z.quot_div_nonneg time 86400) by lia. fold days. rewrite (s32_id days), (u32_id days) by lia.
    rewrite (Z.quot_div_nonneg days) by lia. rewrite (u32_id (days * 86400)), (s32_id (days + 4)) by lia.
    rewrite (u32_id (1970 + days / 365)) by lia.
    replace (1970 + days / 365 - 1970) with (days / 365) by lia. rewrite (u32_id (days / 365 * 365)) by lia.
    rewrite (u32_id (1970 + days / 365 - 1)) by lia. change (1970 - 1) with 1969.
    replace (days / 365 * 365 + LEAPS_THRU_END_OF (1970 + days / 365 - 1) - LEAPS_THRU_END_OF 1969)
      with (year_start (1970 + days / 365)) by (unfold year_start; lia).
    rewrite (u32_id (year_start _)) by (unfold d0 in *; lia). fold d0. rewrite (s32_id d0) by lia.
    replace (if d0 <? 0 then _ else _) with (year, yday).
    2:{ rewrite Eyd. unfold year. destruct (Z.ltb_spec d0 0); [|done].
        assert (0 <= b2z (is_leap_year (1970 + days / 365 - 1)) <= 1) by (destruct (is_leap_year _); cbn; lia).
        rewrite !s32_id by (rewrite ?s32_id; lia). done. }
    change (Z.of_nat 0) with 0 in Eloop. rewrite Eloop. rewrite (Z.rem_mod_nonneg (days + 4)) by lia.
    replace (time - days * 86400) with (time mod 86400) by lia. rewrite (u64_id (time mod 86400)) by lia.
    pose proof (Z.div_mod (time mod 86400) 3600 ltac:(lia)). pose proof (Z.mod_pos_bound (time mod 86400) 3600 ltac:(lia)).
    rewrite !(s32_id (time mod 86400 / 3600)) by lia. rewrite !(s32_id (time mod 86400 / 3600 * 3600)) by lia.
    rewrite !(u64_id (time mod 86400 - _)) by lia. rewrite Emin.
    pose proof (Z.mod_pos_bound time 60 ltac:(lia)). rewrite !(s32_id (time mod 3600 / 60)) by lia.
    rewrite (s32_id (time mod 3600 / 60 * 60)) by lia. rewrite Es, !s32_id by lia. done. }
  rewrite E. constructor; cbn [tm_year tm_mon tm_mday tm_hour tm_min tm_sec tm_wday tm_yday]; try done; try lia.
  - exists m. replace (year - 1900 + 1900) with year by lia. split; [done|]. split; [done|]. split; [lia|].
    fold days. unfold yday in *. lia.
  - replace (year - 1900 + 1900) with year by lia. fold days. unfold yday. lia.
Qed.

(** February last: the shifted month and year of [rtc_tm_to_time]. *)
Definition shifted (m : nat) (y : Z) : Z * Z :=
  if (m <? 2)%nat then (Z.of_nat m + 11, y - 1) else (Z.of_nat m - 1, y).

Lemma shift_months m y :
  (m < 12)%nat -> 0 < y < 2 ^ 31 ->
  (let mon := u32 (Z.of_nat m + 1 - 2) in
   if 0 >=? s32 mon then (u32 (mon + 12), u32 (y - 1)) else (mon, y)) = shifted m y.
Proof. intros Hm Hy. rewrite (u32_id (y - 1)) by lia. do 12 (destruct m as [|m]; [reflexivity|]). lia. Qed.

Lemma shifted_days m y :
  (m < 12)%nat -> 0 <= y ->
  LEAPS_THRU_END_OF (shifted m y).2 + 367 * (shifted m y).1 / 12 + (shifted m y).2 * 365 - 719498 =
  year_start y + days_before m y.
Proof.
  intros Hm Hy. pose proof (leaps_step y Hy) as Hl. unfold year_start. change (LEAPS_THRU_END_OF 1969) with 477.
  assert (Hdb : days_before m y = nth m [0; 31; 59; 90; 120; 151; 181; 212; 243; 273; 304; 334] 0
    + (if (m <? 2)%nat then 0 else b2z (is_leap_year y))).
  { clear -Hm. do 12 (destruct m as [|m]; [unfold days_before, rtc_month_days; cbn; destruct (is_leap_year y); reflexivity|]). lia. }
  rewrite Hdb. clear Hdb. unfold shifted.
  do 12 (destruct m as [|m]; [cbn [Nat.ltb Nat.leb fst snd nth]; match goal with |- context [367 * ?x / 12] =>
    let v := eval vm_compute in (367 * x / 12) in change (367 * x / 12) with v end; lia|]). lia.
Qed.

(** [rtc_tm_to_time] counts the days of a date of [broken_down]. *)
Lemma rtc_tm_to_time_spec m year mday h mi sc :
  70 <= year <= 206 -> (m < 12)%nat -> 1 <= mday <= 31 -> 0 <= h < 24 -> 0 <= mi < 60 -> 0 <= sc < 60 ->
  rtc_tm_to_time year (Z.of_nat m) mday h mi sc =
  (((year_start (year + 1900) + days_before m (year + 1900) + (mday - 1)) * 24 + h) * 60 + mi) * 60 + sc.
Proof.
  intros Hy Hm Hd Hh Hmi Hsc. unfold rtc_tm_to_time.
  rewrite (u32_id (year + 1900)), (u32_id (Z.of_nat m + 1)) by lia. set (y := year + 1900).
  rewrite shift_months by (unfold y; lia). pose proof (shifted_days m y Hm ltac:(unfold y; lia)) as E.
  assert (Hs : 1 <= (shifted m y).1 <= 12 /\ 1969 <= (shifted m y).2 <= 2106)
    by (unfold shifted; destruct (Nat.ltb_spec m 2); cbn; unfold y; lia).
  destruct (shifted m y) as [mon y']. cbn [fst snd] in *. fold (LEAPS_THRU_END_OF y').
  assert (Hl : 0 <= LEAPS_THRU_END_OF y' <= y').
  { unfold LEAPS_THRU_END_OF.
    pose proof (Z.div_mod y' 4 ltac:(lia)). pose proof (Z.mod_pos_bound y' 4 ltac:(lia)).
    pose proof (Z.div_mod y' 100 ltac:(lia)). pose proof (Z.mod_pos_bound y' 100 ltac:(lia)).
    pose proof (Z.div_mod y' 400 ltac:(lia)). pose proof (Z.mod_pos_bound y' 400 ltac:(lia)). lia. }
  assert (0 <= 367 * mon / 12 <= 367 * mon) by (split; [apply Z.div_pos; lia|apply Z.div_le_upper_bound; lia]).
  rewrite (u32_id (367 * mon)), (u32_id (LEAPS_THRU_END_OF y' + _ + _)), (u32_id (y' * 365)) by lia.
  rewrite (s64_id (_ * 24 + h)) by lia. rewrite (s64_id (_ * 60 + mi)) by lia. rewrite s64_id by lia. lia.
Qed.

(** Quantifying over a range of small numbers by computation. *)
Lemma small_range (P : Z -> bool) lo n :
  forallb (fun k => P (lo + Z.of_nat k)) (seq 0 n) = true ->
  forall v, lo <= v < lo + Z.of_nat n -> P v = true.
Proof.
  intros H v Hv. rewrite forallb_forall in H. specialize (H (Z.to_nat (v - lo)) ltac:(apply in_seq; lia)).
  cbn beta in H. by replace (lo + Z.of_nat (Z.to_nat (v - lo))) with v in H by lia.
Qed.

(** A register that holds [v] in BCD reads back as [v] through [mask]. *)
Definition reads_back (mask v : Z) : bool := bcd2bin (Z.land (bin2bcd v) mask) =? v.

Lemma bcd_roundtrip v : 0 <= v < 100 -> bcd2bin (bin2bcd v) = v.
Proof. intros Hv. apply Z.eqb_eq. by apply (small_range (fun v => bcd2bin (bin2bcd v) =? v) 0 100). Qed.

Lemma valid_of_broken_down time t :
  0 <= time -> broken_down time t -> tm_year t <= 199 -> rtc_valid_tm t = 0.
Proof.
  intros Ht [Hy (m & Em & Hm & Hd & _) Hh Hmi Hs _ _] Hle. unfold rtc_valid_tm.
  pose proof (Z.mod_pos_bound time 86400 ltac:(lia)). pose proof (Z.mod_pos_bound time 3600 ltac:(lia)).
  pose proof (Z.mod_pos_bound time 60 ltac:(lia)).
  assert (0 <= tm_hour t < 24) by (rewrite Hh; split; [apply Z.div_pos; lia|apply Z.div_lt_upper_bound; lia]).
  assert (0 <= tm_min t < 60) by (rewrite Hmi; split; [apply Z.div_pos; lia|apply Z.div_lt_upper_bound; lia]).
  rewrite (u32_id (tm_mon t)), (u32_id (tm_hour t)), (u32_id (tm_min t)), (u32_id (tm_sec t)), s32_id by lia.
  repeat match goal with |- context [?a <? ?b] => destruct (Z.ltb_spec a b); [lia|]
                       | |- context [?a <=? ?b] => destruct (Z.leb_spec a b); [lia|] end. done.
Qed.

Lemma time_of_broken_down time t :
  0 <= time -> broken_down time t ->
  rtc_tm_to_time (u32 (tm_year t)) (u32 (tm_mon t)) (u32 (tm_mday t)) (u32 (tm_hour t)) (u32 (tm_min t)) (u32 (tm_sec t)) = time.
Proof.
  intros Ht [Hy (m & Em & Hm & Hd & Edays) Hh Hmi Hs _ _].
  pose proof (Z.div_mod time 86400 ltac:(lia)). pose proof (Z.mod_pos_bound time 86400 ltac:(lia)) as Hsec.
  destruct (sixty (time mod 86400) Hsec) as (Hh24 & Emin & Es).
  rewrite (Z.mod_mod_divide time 86400 3600) in Emin, Es by (by exists 24).
  rewrite (Z.mod_mod_divide time 86400 60) in Es by (by exists 1440).
  pose proof (Z.mod_pos_bound time 3600 ltac:(lia)). pose proof (Z.mod_pos_bound time 60 ltac:(lia)).
  assert (0 <= tm_hour t < 24) by (rewrite Hh; split; [apply Z.div_pos; lia|done]).
  assert (0 <= tm_min t < 60) by (rewrite Hmi; split; [apply Z.div_pos; lia|apply Z.div_lt_upper_bound; lia]).
  pose proof (month_days_range m (tm_year t + 1900) Hm). rewrite Em in *.
  rewrite !u32_id by lia. rewrite rtc_tm_to_time_spec by lia. rewrite <- Edays. lia.
Qed.

(** [*t] as the driver reads it back. *)
Definition read_time (t : rtc_time) : rtc_time :=
  mkRtc (tm_sec t) (tm_min t) (tm_hour t) (tm_mday t) (tm_mon t) (tm_year t) (tm_wday t) 0 0.

(** The driver's registers carry a broken-down time of the years up to 2099. *)
Lemma regs_carry time t :
  0 <= time -> broken_down time t -> tm_year t <= 199 ->
  forall {D} `{!I2C D} (d d1 d2 : D),
    i2c_send DS3231_I2C_ADDRESS [Z.of_nat DS3231_SECS_REG] d = (I2CS_SUCCESS, d1) ->
    i2c_recv DS3231_I2C_ADDRESS 7 d1 = (I2CS_SUCCESS, (time_regs t).1, d2) ->
    ds3231_get_datetime true d = (rtc_valid_tm t, Some (read_time t), d2).
Proof.
  intros Ht HB Hle. pose proof HB as [Hy (m & Em & Hm & Hd & Edays) Hh Hmi Hs Hw Hyd].
  pose proof (Z.mod_pos_bound time 86400 ltac:(lia)). pose proof (Z.mod_pos_bound time 3600 ltac:(lia)).
  pose proof (Z.mod_pos_bound time 60 ltac:(lia)).
  assert (Hhr : 0 <= tm_hour t < 24) by (rewrite Hh; split; [apply Z.div_pos; lia|apply Z.div_lt_upper_bound; lia]).
  assert (Hmr : 0 <= tm_min t < 60) by (rewrite Hmi; split; [apply Z.div_pos; lia|apply Z.div_lt_upper_bound; lia]).
  assert (Hwr : 0 <= tm_wday t < 7) by (rewrite Hw; apply Z.mod_pos_bound; lia).
  pose proof (month_days_range m (tm_year t + 1900) Hm). rewrite <- Em in *.
  pose proof (small_range (reads_back 0x7f) 0 60 eq_refl (tm_sec t) ltac:(lia)) as R1.
  pose proof (small_range (reads_back 0x7f) 0 60 eq_refl (tm_min t) ltac:(lia)) as R2.
  pose proof (small_range (fun v => reads_back 0x3f v && negb (truthy (Z.land (bin2bcd v) DS3231_12HR_BIT))) 0 24 eq_refl
    (tm_hour t) ltac:(lia)) as R3. cbn beta in R3. apply andb_prop in R3 as [R3 R3b].
  pose proof (small_range (reads_back 0x07) 1 7 eq_refl (tm_wday t + 1) ltac:(lia)) as R4.
  pose proof (small_range (reads_back 0x3f) 1 31 eq_refl (tm_mday t) ltac:(lia)) as R5.
  pose proof (small_range (fun v => reads_back 0x1f v && negb (truthy (Z.land (bin2bcd v) DS3231_CENTURY_BIT))
    && (bcd2bin (Z.land (Z.lor (bin2bcd v) DS3231_CENTURY_BIT) 0x1f) =? v)
    && truthy (Z.land (Z.lor (bin2bcd v) DS3231_CENTURY_BIT) DS3231_CENTURY_BIT)) 1 12 eq_refl
    (tm_mon t + 1) ltac:(lia)) as R6. cbn beta in R6.
  apply andb_prop in R6 as [[[R6 R6b]%andb_prop R6c]%andb_prop R6d].
  unfold reads_back in *. rewrite !Z.eqb_eq in *. apply negb_true_iff in R3b, R6b.
  intros D HI d d1 d2 E1 E2. unfold ds3231_get_datetime. rewrite E1. cbn [negb Z.eqb I2CS_SUCCESS]. rewrite E2.
  cbn [negb Z.eqb I2CS_SUCCESS]. unfold time_regs.
  destruct (Z.ltb_spec 99 (tm_year t)); cbn [fst reg nth DS3231_SECS_REG DS3231_MIN_REG DS3231_HOUR_REG DS3231_WDAY_REG
    DS3231_MDAY_REG DS3231_MONTH_REG DS3231_YEAR_REG].
  - rewrite R1, R2, R3b, R3, R4, R5, R6c, R6d, bcd_roundtrip by lia.
    replace (tm_wday t + 1 - 1) with (tm_wday t) by lia. replace (tm_mon t + 1 - 1) with (tm_mon t) by lia.
    by replace (tm_year t - 100 + 100) with (tm_year t) by lia.
  - rewrite R1, R2, R3b, R3, R4, R5, R6, R6b, bcd_roundtrip by lia.
    replace (tm_wday t + 1 - 1) with (tm_wday t) by lia. by replace (tm_mon t + 1 - 1) with (tm_mon t) by lia.
Qed.

(** * The properties of the real-time clock *)

(** C34: breaking a time down into a calendar date and back is the identity for
    every second the 32-bit arithmetic covers (1970 to February 2106); the date
    is a real date (month length, leap years, day of week and day of year
    right), and [rtc_valid_tm] accepts it up to the end of 2099. *)
Theorem rtc_calendar_roundtrip time :
  0 <= time < 2 ^ 32 ->
  let t := rtc_time_to_tm time in
  broken_down time t /\
  rtc_tm_to_time (u32 (tm_year t)) (u32 (tm_mon t)) (u32 (tm_mday t))
    (u32 (tm_hour t)) (u32 (tm_min t)) (u32 (tm_sec t)) = time /\
  (tm_year t <= 199 -> rtc_valid_tm t = 0).
Proof.
  intros Ht t. pose proof (rtc_time_to_tm_spec time Ht) as HB. split; [done|]. split.
  - apply time_of_broken_down; [lia|done].
  - intros Hy. apply (valid_of_broken_down time); [lia|done..].
Qed.

Lemma rtc_calendar_roundtrip_witness :
  let t := rtc_time_to_tm 1709164800 in (* 2024-02-29 *)
  rtc_tm_to_time (u32 (tm_year t)) (u32 (tm_mon t)) (u32 (tm_mday t))
    (u32 (tm_hour t)) (u32 (tm_min t)) (u32 (tm_sec t)) = 1709164800 /\ tm_mday t = 29 /\ tm_mon t = 1.
Proof.
  destruct (rtc_calendar_roundtrip 1709164800) as (_ & H & _); [lia|].
  split; [exact H|]. split; vm_compute; reflexivity.
Defined.

(** With the hardware clock compiled in, a time set with [rtc_settime] is
    read back unchanged by [rtc_gettime], to the second, for every time of the
    years 1970 to 2099, on any chip that keeps its registers. *)
Theorem rtc_set_get {D} `{!I2C D, !Chip D} (d : D) time ns :
  0 <= time < 2 ^ 32 -> tm_year (rtc_time_to_tm time) <= 199 ->
  exists d1 d2, rtc_settime true (mkTs time ns) d = (0, d1) /\
    rtc_gettime true d1 = (0, Some (mkTs time 0), d2).
Proof.
  intros Ht Hy. pose proof (rtc_time_to_tm_spec time Ht) as HB. set (t := rtc_time_to_tm time) in *.
  assert (Hlen : length (time_regs t).1 = 7%nat) by (unfold time_regs; by destruct (99 <? tm_year t)).
  destruct (chip_keeps d (time_regs t).1 Hlen) as (d1 & d2 & d3 & E1 & E2 & E3).
  exists d1, d3. split.
  - unfold rtc_settime, ds3231_set_datetime. cbn [tv_sec]. fold t. destruct (Z.ltb_spec 199 (tm_year t)); [lia|].
    destruct (time_regs t) as [regs t1]. cbn [fst] in *. by rewrite E1.
  - unfold rtc_gettime. rewrite (regs_carry time t ltac:(lia) HB Hy d1 d2 d3 E2 E3).
    rewrite (valid_of_broken_down time) by (done || lia). cbn [negb Z.eqb].
    pose proof (time_of_broken_down time t ltac:(lia) HB) as E. unfold read_time. cbn. by rewrite E.
Qed.

(** A DS3231 as a file of registers with the address pointer of its protocol. *)
Definition ds3231_chip : Type := nat * list Z.

#[export] Instance ds3231_bus : I2C ds3231_chip := {
  i2c_send := fun _ bytes c =>
    match bytes with
    | [] => (I2CS_SUCCESS, c)
    | a :: data =>
        let p := Z.to_nat a in
        (I2CS_SUCCESS, ((p + length data)%nat, take p c.2 ++ data ++ drop (p + length data) c.2))
    end;
  i2c_recv := fun _ n c => (I2CS_SUCCESS, take n (drop c.1 c.2), ((c.1 + n)%nat, c.2))
}.

#[export] Instance ds3231_keeps : Chip ds3231_chip.
Proof.
  intros d regs Hl. eexists _, _, _. split; [reflexivity|]. split; [reflexivity|].
  cbn [i2c_recv ds3231_bus fst snd]. change (Z.to_nat (Z.of_nat DS3231_SECS_REG)) with 0%nat.
  cbn [length Nat.add fst snd]. rewrite !take_0, !drop_0, !app_nil_l, (take_app_le regs), (take_ge regs) by lia. done.
Qed.

Lemma rtc_set_get_witness :
  exists d1 d2, rtc_settime true (mkTs 4102444799 5) ((0%nat, replicate 19 0) : ds3231_chip) = (0, d1) /\
    rtc_gettime true d1 = (0, Some (mkTs 4102444799 0), d2).
Proof.
  apply (rtc_set_get (D := ds3231_chip) (0%nat, replicate 19 0) 4102444799 5); [lia|vm_compute; congruence].
Defined.

End Rtc.
