(* ===== verification/Clock.v ===== *)
(** The system clock: kern/clock.c.

    [cstate] is the clock's globals together with the wheel (which holds
    [jiffies]) and the CPU times of the current process.  The local timer's
    registers ([put32] in [clock_init] and [clock_reset]) are hardware and have
    no state here. *)

From stdpp Require Import base list.
From Stdlib Require Import ZArith Lia Bool.
From S2P Require Import Prelude Timer Rtc.
Import Timer Rtc.

Module Clock.

Definition TICK_NSEC : Z := 10000000.
Definition HZ : Z := 100.
Definition CLOCK_REALTIME : Z := 0.
Definition CLOCK_PROCESS_CPUTIME_ID : Z := 2.

Record cstate : Type := mkC {
  wheel_of : wheel;
  wall_jiffies : Z;
  xtime : timespec;
  stime : Z;
  utime : Z
}.

Definition set_wheel (w : wheel) (s : cstate) : cstate :=
  mkC w (wall_jiffies s) (xtime s) (stime s) (utime s).
Definition set_wall (j : Z) (s : cstate) : cstate :=
  mkC (wheel_of s) j (xtime s) (stime s) (utime s).
Definition set_xtime (t : timespec) (s : cstate) : cstate :=
  mkC (wheel_of s) (wall_jiffies s) t (stime s) (utime s).
Definition set_stime (t : Z) (s : cstate) : cstate :=
  mkC (wheel_of s) (wall_jiffies s) (xtime s) t (utime s).

Definition with_jiffies (j : Z) (w : wheel) : wheel :=
  mkWheel (tvecs w) (timer_jiffies w) j (timers w) (timerlock w) (calls w).

(** [clock_init], after the register writes: [r] and [tp] are the result of
    [rtc_gettime(&xtime)]. *)
Definition clock_init (r : Z) (tp : option timespec) : M cstate unit :=
  modify (fun s => match tp with Some t => set_xtime t s | None => s end) ;;
  when (r <? 0) (modify (set_xtime (mkTs 1655644975 0))).

(** One turn of the [do ... while] of [update_wall_time]. *)
Definition add_tick (t : timespec) : timespec :=
  let nsec := s64 (tv_nsec t + TICK_NSEC) in
  if 1000000000 <=? nsec then mkTs (s64 (tv_sec t + 1)) (s64 (nsec - 1000000000))
  else mkTs (tv_sec t) nsec.

Fixpoint update_wall_time (fuel : nat) (ticks : Z) : M cstate unit :=
  match fuel with
  | O => nofuel
  | S fuel' =>
      let ticks := u64 (ticks - 1) in
      modify (fun s => set_xtime (add_tick (xtime s)) s) ;;
      if truthy ticks then update_wall_time fuel' ticks else ret tt
  end.

Definition update_times (fuel : nat) : M cstate unit :=
  let* ticks := gets (fun s => u64 (jiffies (wheel_of s) - wall_jiffies s)) in
  when (truthy ticks)
    (modify (fun s => set_wall (u64 (wall_jiffies s + ticks)) s) ;;
     update_wall_time fuel ticks).

Definition clock_intr (call : Z -> Z -> M wheel unit) (fuel : nat) : M cstate unit :=
  modify (fun s => set_wheel (with_jiffies (u64 (jiffies (wheel_of s) + 1)) (wheel_of s)) s) ;;
  modify (fun s => set_stime (u64 (jiffies (wheel_of s) * 1000000000) / HZ) s) ;;
  update_times fuel ;;
  zoom wheel_of set_wheel (run_timer_list call fuel).

(** The result and [*tp]. *)
Definition clock_gettime (clk_id : Z) : M cstate (Z * option timespec) :=
  if clk_id =? CLOCK_REALTIME then
    let* t := gets xtime in ret (0, Some (mkTs (tv_sec t) (tv_nsec t)))
  else if clk_id =? CLOCK_PROCESS_CPUTIME_ID then
    let* ptime := gets (fun s => u64 (stime s + utime s)) in
    ret (0, Some (mkTs (s64 (ptime / 1000000000)) (s64 (ptime mod 1000000000))))
  else ret (- EINVAL, None).

(** [capable_sys_time] is [capable(CAP_SYS_TIME)]. *)
Definition clock_settime (capable_sys_time : bool) (clk_id : Z) (tp : timespec) : M cstate Z :=
  if clk_id =? CLOCK_REALTIME then
    if capable_sys_time then
      modify (set_xtime (mkTs (tv_sec tp) (tv_nsec tp))) ;; ret 0
    else ret (- EPERM)
  else ret (- EINVAL).

Definition get_uptime : M cstate Z := gets (fun s => tv_sec (xtime s)).

(** * Lemmas *)

Definition total_ns (t : timespec) : Z := tv_sec t * 1000000000 + tv_nsec t.

Definition normal (t : timespec) : Prop :=
  0 <= tv_sec t < 2 ^ 62 /\ 0 <= tv_nsec t < 1000000000.

Lemma add_tick_ok t :
  normal t -> tv_sec t + 1 < 2 ^ 62 ->
  normal (add_tick t) /\ total_ns (add_tick t) = total_ns t + TICK_NSEC /\ tv_sec (add_tick t) <= tv_sec t + 1.
Proof.
  intros [Hs Hn] Hmax. unfold add_tick, normal, total_ns, TICK_NSEC. rewrite (s64_id (tv_nsec t + _)) by lia.
  destruct (Z.leb_spec 1000000000 (tv_nsec t + 10000000)); cbn [tv_sec tv_nsec]; [rewrite !s64_id by lia|]; lia.
Qed.

(** The wall clock after [n] ticks. *)
Definition ticked (n : nat) (t : timespec) : timespec := Nat.iter n add_tick t.

Lemma ticked_ok n t :
  normal t -> tv_sec t + Z.of_nat n < 2 ^ 62 ->
  normal (ticked n t) /\ total_ns (ticked n t) = total_ns t + Z.of_nat n * TICK_NSEC /\
  tv_sec (ticked n t) <= tv_sec t + Z.of_nat n.
Proof.
  intros Hn. induction n as [|n IH]; intros Hs; [split; [done|]; cbn; lia|].
  destruct IH as (Hn1 & Ht1 & Hs1); [lia|].
  destruct (add_tick_ok (ticked n t) Hn1) as (Hn2 & Ht2 & Hs2); [lia|].
  change (ticked (S n) t) with (add_tick (ticked n t)). split; [done|]. lia.
Qed.

Lemma update_wall_time_run n : forall s fuel ticks,
  ticks = Z.of_nat (S n) -> ticks < 2 ^ 62 -> (n < fuel)%nat ->
  update_wall_time fuel ticks s = Ret tt (set_xtime (ticked (S n) (xtime s)) s).
Proof.
  induction n as [|n IH]; intros s [|fuel] ticks Et Hmax Hf; try lia; cbn [update_wall_time].
  all: rewrite u64_id by lia; unfold bind, modify.
  - by replace (truthy (ticks - 1)) with false by (unfold truthy; destruct (Z.eqb_spec (ticks - 1) 0); [done|lia]).
  - replace (truthy (ticks - 1)) with true by (unfold truthy; destruct (Z.eqb_spec (ticks - 1) 0); [lia|done]).
    rewrite IH by lia. unfold ticked. cbn [xtime set_xtime]. by rewrite <- (Nat.iter_succ_r (S n)).
Qed.

(** * The properties of the clock *)

(** C32: a clock interrupt returns with [jiffies] one higher; it adds to the wall
    clock exactly 10 ms for every tick since the last update (none is lost or
    counted twice), keeps [xtime] normalised, charges the process, and runs the
    wheel up to the new tick. *)
Theorem clock_intr_correct ok call `{!GoodCallbacks ok call} s :
  ok (with_jiffies (jiffies (wheel_of s) + 1) (wheel_of s)) -> resting (wheel_of s) -> timerlock (wheel_of s) = false ->
  timer_jiffies (wheel_of s) <= jiffies (wheel_of s) + 1 -> 0 <= wall_jiffies s <= jiffies (wheel_of s) ->
  jiffies (wheel_of s) < 2 ^ 33 -> normal (xtime s) -> tv_sec (xtime s) < 2 ^ 61 ->
  exists s' f0, (forall fuel, (f0 <= fuel)%nat -> clock_intr call fuel s = Ret tt s') /\
    jiffies (wheel_of s') = jiffies (wheel_of s) + 1 /\
    wall_jiffies s' = jiffies (wheel_of s') /\ normal (xtime s') /\
    total_ns (xtime s') = total_ns (xtime s) + (jiffies (wheel_of s') - wall_jiffies s) * TICK_NSEC /\
    stime s' = jiffies (wheel_of s') * TICK_NSEC /\
    ran (jiffies (wheel_of s')) (with_jiffies (jiffies (wheel_of s')) (wheel_of s)) (wheel_of s').
Proof.
  intros Hok HI Hlk Htj Hw Hj Hn Hsec.
  set (j := jiffies (wheel_of s) + 1). set (w0 := with_jiffies j (wheel_of s)).
  assert (HI0 : resting w0) by (destruct HI; by constructor).
  destruct (run_timer_list_ran ok call w0 Hok HI0 Hlk) as (w1 & f1 & Hr & Hran);
    [cbn; unfold j; lia|cbn; unfold max_tick, j; lia|].
  set (ticks := j - wall_jiffies s). set (s1 := set_wall j (set_stime (j * TICK_NSEC) (set_wheel w0 s))).
  set (n := Z.to_nat (ticks - 1)).
  assert (En : ticks = Z.of_nat (S n)) by (unfold n, ticks, j; lia).
  destruct (ticked_ok (S n) (xtime s) Hn) as (Hnt & Htt & _); [unfold ticks, j in *; lia|].
  exists (set_wheel w1 (set_xtime (ticked (S n) (xtime s)) s1)), (Nat.max f1 (S n)).
  assert (Ej : jiffies w1 = j) by apply (ran_jiffies _ _ _ Hran).
  split; [|cbn [wheel_of set_wheel wall_jiffies xtime stime set_xtime s1 set_wall set_stime]; rewrite Ej; fold ticks;
           rewrite En; split; [done|split; [done|split; [done|split; [exact Htt|split; [done|exact Hran]]]]]].
  intros fuel Hf. unfold clock_intr, bind at 1, modify at 1. cbn [wheel_of set_wheel]. rewrite (u64_id (jiffies _ + 1)) by lia.
  fold j w0. unfold bind at 1, modify at 1. cbn [wheel_of set_stime set_wheel]. change (jiffies w0) with j.
  rewrite (u64_id (j * _)) by (unfold j; lia).
  replace (j * 1000000000 / HZ) with (j * TICK_NSEC)
    by (unfold HZ, TICK_NSEC; apply Z.div_unique with 0; lia).
  unfold bind at 1, update_times, bind at 1, gets at 1. cbn [wheel_of set_stime set_wheel wall_jiffies].
  change (jiffies w0) with j. fold ticks. rewrite (u64_id ticks) by (unfold ticks, j; lia).
  replace (truthy ticks) with true by (unfold truthy; destruct (Z.eqb_spec ticks 0); [unfold ticks, j in *; lia|done]).
  unfold when, bind at 1, modify at 1. cbn [wall_jiffies set_stime set_wheel].
  rewrite (u64_id (wall_jiffies s + ticks)) by (unfold ticks, j; lia). replace (wall_jiffies s + ticks) with j by (unfold ticks; lia).
  rewrite (update_wall_time_run n _ fuel ticks En) by (unfold ticks, j in *; lia).
  unfold zoom. cbn [wheel_of set_xtime]. change (wheel_of _) with w0. rewrite Hr by lia. done.
Qed.

Lemma clock_intr_correct_witness :
  exists s' f0, clock_intr (fun _ _ => ret tt) f0 (mkC boot_wheel 0 (mkTs 1655644975 995000000) 0 0) = Ret tt s' /\
    jiffies (wheel_of s') = 0 + 1 /\ total_ns (xtime s') = 1655644975995000000 + (jiffies (wheel_of s') - 0) * TICK_NSEC.
Proof.
  destruct (clock_intr_correct (fun _ => True) (fun _ _ => ret tt) (mkC boot_wheel 0 (mkTs 1655644975 995000000) 0 0))
    as (s' & f0 & Hr & Hj & _ & _ & Ht & _); cbn [wheel_of wall_jiffies xtime];
    [exact I|by apply boot_resting|done|cbn; lia|cbn; lia|cbn; lia|split; cbn; lia|cbn; lia|].
  exists s', f0. split; [apply Hr; lia|]. split; [exact Hj|exact Ht].
Defined.

End Clock.
