(* ===== verification/Cred.v ===== *)
(** Credentials and permissions: the user and group id system calls of
    kern/sysproc.c, [capable] (inc/proc.h), [generic_permission] (kern/vfs.c)
    and the decisions of [faccess] and [filechown] (kern/file.c).

    [cred] is the part of [struct proc] these functions read and write; [x] is
    the argument registers of the trap frame, read through [argint].  Ids and
    capability sets are 32-bit words.  In [faccess] and [filechown] the inode
    that [namei] found is an argument ([None]: not found); the journal and
    inode-cache calls around the decision are those of the file layer. *)

From stdpp Require Import base list sets.
From Stdlib Require Import ZArith Lia Bool.
From S2P Require Import Prelude.

Module Cred.

Definition CAP_CHOWN : Z := 0.
Definition CAP_DAC_OVERRIDE : Z := 1.
Definition CAP_FS_MASK : Z := 0x1f.
Definition CAP_SETGID : Z := 6.
Definition CAP_SETUID : Z := 7.
Definition CAP_SYS_TIME : Z := 25.

Definition CAP_TO_MASK (x : Z) : Z := Z.shiftl 1 x.

Record cred : Type := mkCred {
  uid : Z; euid : Z; suid : Z; fsuid : Z;
  gid : Z; egid : Z; sgid : Z; fsgid : Z;
  groups : list Z;  (* the first [ngroups] entries *)
  cap_effective : Z; cap_inheritable : Z; cap_permitted : Z;
  umask : Z
}.

Definition set_uids (r e s f : Z) (p : cred) : cred :=
  mkCred r e s f (gid p) (egid p) (sgid p) (fsgid p) (groups p)
         (cap_effective p) (cap_inheritable p) (cap_permitted p) (umask p).
Definition set_gids (r e s f : Z) (p : cred) : cred :=
  mkCred (uid p) (euid p) (suid p) (fsuid p) r e s f (groups p)
         (cap_effective p) (cap_inheritable p) (cap_permitted p) (umask p).
Definition set_caps (eff perm : Z) (p : cred) : cred :=
  mkCred (uid p) (euid p) (suid p) (fsuid p) (gid p) (egid p) (sgid p) (fsgid p) (groups p)
         eff (cap_inheritable p) perm (umask p).
Definition set_umask (m : Z) (p : cred) : cred :=
  mkCred (uid p) (euid p) (suid p) (fsuid p) (gid p) (egid p) (sgid p) (fsgid p) (groups p)
         (cap_effective p) (cap_inheritable p) (cap_permitted p) m.

Definition capable (p : cred) (cap : Z) : bool :=
  truthy (Z.land (cap_effective p) (CAP_TO_MASK cap)).

(** [argint(n, ip)]: the low 32 bits of register [n]; ids are then unsigned. *)
Definition argint (x : list Z) (n : nat) : option Z :=
  if (5 <? n)%nat then None else Some (s32 (nth n x 0)).

Definition arg_id (x : list Z) (n : nat) : option Z :=
  match argint x n with Some v => Some (u32 v) | None => None end.

(** [(uid_t)-1]. *)
Definition NOID : Z := u32 (-1).

Definition S_IRWXUGO : Z := 0x1ff.

Definition sys_umask (x : list Z) (p : cred) : Z * cred :=
  let oumask := umask p in
  match arg_id x 0 with
  | None => (u32 (- EINVAL), p)
  | Some m => (oumask, set_umask (Z.land m S_IRWXUGO) p)
  end.

Definition cap_emulate_setxuid (old_ruid old_euid old_suid : Z) (p : cred) : cred :=
  let p := if ((old_ruid =? 0) || (old_euid =? 0) || (old_suid =? 0))
              && (negb (uid p =? 0) && negb (euid p =? 0) && negb (suid p =? 0))
           then set_caps 0 0 p else p in
  let p := if (old_euid =? 0) && negb (euid p =? 0)
           then set_caps 0 (cap_permitted p) p else p in
  if negb (old_euid =? 0) && (euid p =? 0)
  then set_caps (cap_permitted p) (cap_permitted p) p else p.

Definition sys_setuid (x : list Z) (p : cred) : Z * cred :=
  match arg_id x 0 with
  | None => (- EINVAL, p)
  | Some u =>
      let old_euid := euid p in
      let old_ruid := uid p in
      let old_suid := suid p in
      let new_suid := old_suid in
      let go (p : cred) (new_suid : Z) :=
        let p := set_uids (uid p) u new_suid u p in
        (0, cap_emulate_setxuid old_ruid old_euid old_suid p) in
      if capable p CAP_SETUID then
        if negb (u =? old_ruid) then go (set_uids u (euid p) (suid p) (fsuid p) p) u
        else if negb (u =? uid p) && negb (u =? new_suid) then (- EPERM, p)
        else go p new_suid
      else go p new_suid
  end.

Definition sys_setreuid (x : list Z) (p : cred) : Z * cred :=
  match arg_id x 0, arg_id x 1 with
  | Some ruid, Some eid =>
      let old_ruid := uid p in
      let old_euid := euid p in
      let old_suid := suid p in
      if negb (ruid =? NOID)
         && (negb (old_ruid =? ruid) && negb (euid p =? ruid) && negb (capable p CAP_SETUID))
      then (- EPERM, p) else
      let new_ruid := if negb (ruid =? NOID) then ruid else old_ruid in
      if negb (eid =? NOID)
         && (negb (old_euid =? eid) && negb (suid p =? eid) && negb (capable p CAP_SETUID))
      then (- EPERM, p) else
      let new_euid := if negb (eid =? NOID) then eid else old_euid in
      let p := if negb (new_ruid =? old_ruid) then set_uids ruid (euid p) (suid p) (fsuid p) p else p in
      let p := set_uids (uid p) new_euid (suid p) new_euid p in
      let p := if negb (ruid =? NOID) || (negb (eid =? NOID) && negb (eid =? old_ruid))
               then set_uids (uid p) (euid p) (euid p) (fsuid p) p else p in
      let p := set_uids (uid p) (euid p) (suid p) (euid p) p in
      (0, cap_emulate_setxuid old_ruid old_euid old_suid p)
  | _, _ => (- EINVAL, p)
  end.

(** One of the three tests of [sys_setresuid] and [sys_setresgid]. *)
Definition foreign (i a b c : Z) : bool :=
  negb (i =? NOID) && negb (i =? a) && negb (i =? b) && negb (i =? c).

Definition sys_setresuid (x : list Z) (p : cred) : Z * cred :=
  let old_ruid := uid p in
  let old_euid := euid p in
  let old_suid := suid p in
  match arg_id x 0, arg_id x 1, arg_id x 2 with
  | Some ruid, Some eid, Some sid =>
      if negb (capable p CAP_SETUID)
         && (foreign ruid (uid p) (euid p) (suid p) || foreign eid (uid p) (euid p) (suid p)
             || foreign sid (uid p) (euid p) (suid p))
      then (- EPERM, p) else
      let p := if negb (ruid =? NOID) then set_uids ruid (euid p) (suid p) (fsuid p) p else p in
      let p := if negb (eid =? NOID) then set_uids (uid p) eid (suid p) eid p else p in
      let p := if negb (sid =? NOID) then set_uids (uid p) (euid p) sid (fsuid p) p else p in
      (0, cap_emulate_setxuid old_ruid old_euid old_suid p)
  | _, _, _ => (- EINVAL, p)
  end.

Definition sys_setfsuid (x : list Z) (p : cred) : Z * cred :=
  let old_fsuid := fsuid p in
  match arg_id x 0 with
  | None => (- EINVAL, p)
  | Some f =>
      let p := if (f =? uid p) || (f =? euid p) || (f =? suid p) || (f =? fsuid p)
                  || capable p CAP_SETUID
               then set_uids (uid p) (euid p) (suid p) f p else p in
      let p := if (old_fsuid =? 0) && negb (fsuid p =? 0)
               then set_caps (Z.land (cap_effective p) (not_w 32 CAP_FS_MASK)) (cap_permitted p) p else p in
      let p := if negb (old_fsuid =? 0) && (fsuid p =? 0)
               then set_caps (Z.lor (cap_effective p) (Z.land (cap_permitted p) CAP_FS_MASK)) (cap_permitted p) p
               else p in
      (old_fsuid, p)
  end.

Definition sys_setgid (x : list Z) (p : cred) : Z * cred :=
  match arg_id x 0 with
  | None => (- EINVAL, p)
  | Some g =>
      if capable p CAP_SETGID then (0, set_gids g g g (fsgid p) p)
      else if (g =? gid p) || (g =? sgid p) then (0, set_gids (gid p) g (sgid p) (fsgid p) p)
      else (- EPERM, p)
  end.

Definition sys_setregid (x : list Z) (p : cred) : Z * cred :=
  match arg_id x 0, arg_id x 1 with
  | Some rg, Some eg =>
      let old_rgid := gid p in
      let old_egid := egid p in
      if negb (rg =? NOID)
         && negb ((old_rgid =? rg) || (egid p =? rg) || capable p CAP_SETGID)
      then (- EPERM, p) else
      let new_rgid := if negb (rg =? NOID) then rg else old_rgid in
      if negb (eg =? NOID)
         && negb ((old_rgid =? eg) || (egid p =? eg) || (sgid p =? eg) || capable p CAP_SETGID)
      then (- EPERM, p) else
      let new_egid := if negb (eg =? NOID) then eg else old_egid in
      let new_sgid := if negb (rg =? NOID) || (negb (eg =? NOID) && negb (eg =? old_rgid))
                      then new_egid else sgid p in
      (0, set_gids new_rgid new_egid new_sgid new_egid p)
  | _, _ => (- EINVAL, p)
  end.

Definition sys_setresgid (x : list Z) (p : cred) : Z * cred :=
  match arg_id x 0, arg_id x 1, arg_id x 2 with
  | Some rg, Some eg, Some sg =>
      if negb (capable p CAP_SETGID)
         && (foreign rg (gid p) (egid p) (sgid p) || foreign eg (gid p) (egid p) (sgid p)
             || foreign sg (gid p) (egid p) (sgid p))
      then (- EPERM, p) else
      let p := if negb (eg =? NOID) then set_gids (gid p) eg (sgid p) eg p else p in
      let p := if negb (rg =? NOID) then set_gids rg (egid p) (sgid p) (fsgid p) p else p in
      let p := if negb (sg =? NOID) then set_gids (gid p) (egid p) sg (fsgid p) p else p in
      (0, p)
  | _, _, _ => (- EINVAL, p)
  end.

Definition sys_setfsgid (x : list Z) (p : cred) : Z * cred :=
  let old_fsgid := fsgid p in
  match arg_id x 0 with
  | None => (- EINVAL, p)
  | Some f =>
      let p := if (f =? gid p) || (f =? egid p) || (f =? sgid p) || (f =? fsgid p)
                  || capable p CAP_SETGID
               then set_gids (gid p) (egid p) (sgid p) f p else p in
      (old_fsgid, p)
  end.

Definition sys_getuid (p : cred) : Z := uid p.
Definition sys_geteuid (p : cred) : Z := euid p.
Definition sys_getgid (p : cred) : Z := gid p.
Definition sys_getegid (p : cred) : Z := egid p.

(** * Access decisions on inodes *)

Record inode : Type := mkInode { i_mode : Z; i_uid : Z; i_gid : Z }.

Definition MAY_EXEC : Z := 1.
Definition MAY_WRITE : Z := 2.
Definition MAY_READ : Z := 4.
Definition S_IXUGO : Z := 0x49.
Definition S_ISUID : Z := 0x800.
Definition S_ISGID : Z := 0x400.
Definition S_IRWXO : Z := 7.
Definition S_IRUSR : Z := 0x100.
Definition S_IWUSR : Z := 0x80.
Definition S_IXUSR : Z := 0x40.
Definition S_IRGRP : Z := 0x20.
Definition S_IWGRP : Z := 0x10.
Definition S_IROTH : Z := 4.
Definition S_IWOTH : Z := 2.
Definition S_IXOTH : Z := 1.
Definition R_OK : Z := 4.
Definition W_OK : Z := 2.
Definition X_OK : Z := 1.
Definition AT_EACCESS : Z := 0x200.

Definition generic_permission (p : cred) (ip : inode) (mask : Z) : Z :=
  let mode := i_mode ip in
  if fsuid p =? 0 then 0 else
  let mode := if fsuid p =? i_uid ip then Z.shiftr mode 6
              else if fsgid p =? i_gid ip then Z.shiftr mode 3 else mode in
  if Z.land (Z.land mode mask) (Z.lor (Z.lor MAY_READ MAY_WRITE) MAY_EXEC) =? mask then 0
  else if truthy (Z.land mask (Z.lor MAY_READ MAY_WRITE)) || truthy (Z.land (i_mode ip) S_IXUGO) then
    if capable p CAP_DAC_OVERRIDE then 0 else - EACCES
  else - EACCES.

(** The result and the inode (unchanged when it is not found). *)
Definition filechown (p : cred) (ip : option inode) (owner group : Z) : Z * option inode :=
  match ip with
  | None => (- ENOENT, None)
  | Some ip =>
      if negb (owner =? NOID) && negb (capable p CAP_CHOWN) then (- EPERM, Some ip) else
      let ip := if negb (owner =? NOID) then mkInode (i_mode ip) owner (i_gid ip) else ip in
      if negb (group =? NOID)
         && negb (capable p CAP_CHOWN)
         && negb ((i_uid ip =? euid p) && existsb (fun g => g =? group) (groups p))
      then (- EPERM, Some ip) else
      let ip := if negb (group =? NOID) then mkInode (i_mode ip) (i_uid ip) group else ip in
      let ip := if truthy (Z.land (i_mode ip) S_IXUGO) && negb (capable p CAP_CHOWN)
                then mkInode (Z.land (i_mode ip) (not_w 32 (Z.lor S_ISUID S_ISGID))) (i_uid ip) (i_gid ip)
                else ip in
      (0, Some ip)
  end.

Definition faccess (p : cred) (ip : option inode) (mode flags : Z) : Z :=
  if truthy (Z.land mode (not_w 32 S_IRWXO)) then - EINVAL else
  match ip with
  | None => - ENOENT
  | Some ip =>
      let fmode := i_mode ip in
      let fuid := i_uid ip in
      let fgid := i_gid ip in
      if mode =? 0 then 0 else
      if uid p =? 0 then
        if truthy (Z.land mode X_OK) && negb (truthy (Z.land fmode S_IXUGO)) then - EACCES else 0
      else
      let '(u, g) := if truthy (Z.land flags AT_EACCESS) then (euid p, egid p) else (uid p, gid p) in
      let without bit := negb (truthy (Z.land fmode bit)) in
      if truthy (Z.land mode R_OK)
         && (((fuid =? u) && without S_IRUSR) && ((fgid =? g) && without S_IRGRP) && without S_IROTH)
      then - EACCES else
      if truthy (Z.land mode W_OK)
         && (((fuid =? u) && without S_IWUSR) && ((fgid =? g) && without S_IWGRP) && without S_IWOTH)
      then - EACCES else
      if truthy (Z.land mode X_OK)
         && (((fuid =? u) && without S_IXUSR) && ((fgid =? g) && without S_IXOTH) && without S_IXOTH)
      then - EACCES else 0
  end.

(** * Lemmas *)

(** Case analysis on the conditions of a system call. *)
Ltac conds :=
  repeat match goal with
  | |- context [if ?b then _ else _] => destruct b eqn:?
  | |- context [match ?o with Some _ => _ | None => _ end] => destruct o eqn:?
  end;
  repeat match goal with
  | H : (_ =? _) = true |- _ => apply Z.eqb_eq in H
  | H : (_ =? _) = false |- _ => apply Z.eqb_neq in H
  | H : _ && _ = true |- _ => apply andb_prop in H as [? ?]
  | H : _ || _ = false |- _ => apply orb_false_elim in H as [? ?]
  | H : negb _ = true |- _ => apply negb_true_iff in H
  | H : negb _ = false |- _ => apply negb_false_iff in H
  | H : _ && _ = false |- _ => apply andb_false_iff in H
  | H : _ || _ = true |- _ => apply orb_prop in H
  end.

Definition user_ids (p : cred) : list Z := [uid p; euid p; suid p].
Definition group_ids (p : cred) : list Z := [gid p; egid p; sgid p].

(** [p'] has no capability [p] did not have or was not permitted. *)
Definition caps_within (p p' : cred) : Prop :=
  (cap_permitted p' = cap_permitted p \/ cap_permitted p' = 0) /\
  forall i, 0 <= i -> Z.testbit (cap_effective p') i = true ->
    Z.testbit (cap_effective p) i = true \/ Z.testbit (cap_permitted p) i = true.

Lemma caps_within_refl p : caps_within p p.
Proof. split; [by left|]. intros i _ H. by left. Qed.

Lemma emulate_frame r e s p :
  let p' := cap_emulate_setxuid r e s p in
  uid p' = uid p /\ euid p' = euid p /\ suid p' = suid p /\ fsuid p' = fsuid p /\
  gid p' = gid p /\ egid p' = egid p /\ sgid p' = sgid p /\ fsgid p' = fsgid p /\ groups p' = groups p /\
  caps_within p p'.
Proof.
  unfold cap_emulate_setxuid, caps_within. cbv zeta. conds; cbn; split_and!; try done; auto.
  all: intros i Hi; rewrite ?Z.bits_0; auto; done.
Qed.

(** Which user ids a process may give itself. *)
Definition uids_within (p p' : cred) : Prop :=
  uid p' ∈ user_ids p /\ euid p' ∈ user_ids p /\ suid p' ∈ user_ids p /\
  (fsuid p' ∈ user_ids p \/ fsuid p' = fsuid p) /\
  group_ids p' = group_ids p /\ fsgid p' = fsgid p /\ groups p' = groups p /\ caps_within p p'.

Definition gids_within (p p' : cred) : Prop :=
  gid p' ∈ group_ids p /\ egid p' ∈ group_ids p /\ sgid p' ∈ group_ids p /\
  (fsgid p' ∈ group_ids p \/ fsgid p' = fsgid p) /\
  user_ids p' = user_ids p /\ fsuid p' = fsuid p /\ groups p' = groups p /\
  cap_effective p' = cap_effective p /\ cap_permitted p' = cap_permitted p.

Lemma user_ids_in p : uid p ∈ user_ids p /\ euid p ∈ user_ids p /\ suid p ∈ user_ids p.
Proof. unfold user_ids. set_solver. Qed.

Lemma group_ids_in p : gid p ∈ group_ids p /\ egid p ∈ group_ids p /\ sgid p ∈ group_ids p.
Proof. unfold group_ids. set_solver. Qed.

(** Setting user ids to ids of the process, then emulating. *)
Lemma emulate_within r e s p a b c f :
  a ∈ user_ids p -> b ∈ user_ids p -> c ∈ user_ids p -> (f ∈ user_ids p \/ f = fsuid p) ->
  uids_within p (cap_emulate_setxuid r e s (set_uids a b c f p)).
Proof.
  intros Ha Hb Hc Hf. destruct (emulate_frame r e s (set_uids a b c f p))
    as (E1 & E2 & E3 & E4 & E5 & E6 & E7 & E8 & E9 & Hcaps).
  unfold uids_within, group_ids. rewrite E1, E2, E3, E4, E5, E6, E7, E8, E9. cbn. split_and!; try done; tauto.
Qed.

Lemma emulate_same_within r e s p : uids_within p (cap_emulate_setxuid r e s p).
Proof.
  destruct (user_ids_in p) as (? & ? & ?).
  pose proof (emulate_within r e s p (uid p) (euid p) (suid p) (fsuid p)) as H2.
  assert (set_uids (uid p) (euid p) (suid p) (fsuid p) p = p) as E by by destruct p.
  rewrite E in H2. auto.
Qed.

Lemma set_uids_twice a b c d a' b' c' d' p : set_uids a b c d (set_uids a' b' c' d' p) = set_uids a b c d p.
Proof. reflexivity. Qed.

Lemma set_gids_twice a b c d a' b' c' d' p : set_gids a b c d (set_gids a' b' c' d' p) = set_gids a b c d p.
Proof. reflexivity. Qed.

Lemma foreign_false i p :
  foreign i (uid p) (euid p) (suid p) = false -> i = NOID \/ i ∈ user_ids p.
Proof.
  unfold foreign, user_ids. intros H.
  destruct (Z.eqb_spec i NOID); [by left|]. right. destruct (Z.eqb_spec i (uid p)) as [->|]; [set_solver|].
  destruct (Z.eqb_spec i (euid p)) as [->|]; [set_solver|]. destruct (Z.eqb_spec i (suid p)) as [->|]; [set_solver|done].
Qed.

Lemma foreign_false_g i p :
  foreign i (gid p) (egid p) (sgid p) = false -> i = NOID \/ i ∈ group_ids p.
Proof.
  unfold foreign, group_ids. intros H.
  destruct (Z.eqb_spec i NOID); [by left|]. right. destruct (Z.eqb_spec i (gid p)) as [->|]; [set_solver|].
  destruct (Z.eqb_spec i (egid p)) as [->|]; [set_solver|]. destruct (Z.eqb_spec i (sgid p)) as [->|]; [set_solver|done].
Qed.

Lemma uids_within_refl p : uids_within p p.
Proof. destruct (user_ids_in p) as (? & ? & ?). unfold uids_within. split_and!; auto using caps_within_refl. Qed.

Lemma gids_within_refl p : gids_within p p.
Proof. destruct (group_ids_in p) as (? & ? & ?). unfold gids_within. split_and!; auto. Qed.

Lemma arg_id_0 x : exists v, arg_id x 0 = Some v.
Proof. unfold arg_id, argint. cbn. eauto. Qed.

Lemma setreuid_within x p : capable p CAP_SETUID = false -> uids_within p (sys_setreuid x p).2.
Proof.
  intros Hc. destruct (user_ids_in p) as (Hu & He & Hs). unfold sys_setreuid. rewrite Hc.
  destruct (arg_id x 0) as [r|]; [|apply uids_within_refl]. destruct (arg_id x 1) as [e|]; [|apply uids_within_refl].
  destruct (negb (r =? NOID) && _) eqn:E1; [apply uids_within_refl|].
  destruct (negb (e =? NOID) && _) eqn:E2; [apply uids_within_refl|].
  assert (Hr : r <> NOID -> r ∈ user_ids p).
  { intros Hn. unfold user_ids. destruct (Z.eqb_spec r NOID); [done|]. cbn in E1.
    destruct (Z.eqb_spec (uid p) r) as [<-|]; [set_solver|]. destruct (Z.eqb_spec (euid p) r) as [<-|]; [set_solver|done]. }
  assert (Hen : e <> NOID -> e ∈ user_ids p).
  { intros Hn. unfold user_ids. destruct (Z.eqb_spec e NOID); [done|]. cbn in E2.
    destruct (Z.eqb_spec (euid p) e) as [<-|]; [set_solver|]. destruct (Z.eqb_spec (suid p) e) as [<-|]; [set_solver|done]. }
  cbn [snd]. clear E1 E2.
  assert (He' : (if negb (e =? NOID) then e else euid p) ∈ user_ids p) by (destruct (Z.eqb_spec e NOID); cbn; auto).
  set (e' := if negb (e =? NOID) then e else euid p) in *.
  destruct (Z.eqb_spec r NOID) as [->|Hrn]; cbn [negb orb].
  - rewrite Z.eqb_refl. cbn [negb].
    destruct (negb (e =? NOID) && _); cbn; rewrite ?set_uids_twice; apply emulate_within; auto.
  - destruct (Z.eqb_spec r (uid p)); cbn [negb]; cbn; rewrite ?set_uids_twice; apply emulate_within; auto.
Qed.

Lemma setresuid_within x p : capable p CAP_SETUID = false -> uids_within p (sys_setresuid x p).2.
Proof.
  intros Hc. destruct (user_ids_in p) as (Hu & He & Hs). unfold sys_setresuid. rewrite Hc. cbn [negb andb].
  destruct (arg_id x 0) as [r|]; [|apply uids_within_refl]. destruct (arg_id x 1) as [e|]; [|apply uids_within_refl].
  destruct (arg_id x 2) as [t|]; [|apply uids_within_refl].
  destruct (foreign r _ _ _) eqn:E1; [apply uids_within_refl|]. destruct (foreign e _ _ _) eqn:E2; [apply uids_within_refl|].
  destruct (foreign t _ _ _) eqn:E3; [apply uids_within_refl|]. cbn [orb snd].
  apply foreign_false in E1, E2, E3.
  destruct (Z.eqb_spec r NOID), (Z.eqb_spec e NOID), (Z.eqb_spec t NOID); cbn; rewrite ?set_uids_twice;
    try apply emulate_same_within; apply emulate_within; naive_solver.
Qed.

Lemma setfsuid_within x p : capable p CAP_SETUID = false -> 0 <= cap_effective p < 2 ^ 32 -> uids_within p (sys_setfsuid x p).2.
Proof.
  intros Hc Hcap. destruct (user_ids_in p) as (Hu & He & Hs). unfold sys_setfsuid. rewrite Hc.
  destruct (arg_id_0 x) as [f ->]. cbn [snd]. rewrite orb_false_r.
  set (p1 := if _ || _ then set_uids (uid p) (euid p) (suid p) f p else p).
  assert (H1 : uids_within p p1 /\ cap_effective p1 = cap_effective p /\ cap_permitted p1 = cap_permitted p).
  { unfold p1. destruct (_ || _) eqn:E; [|split; [apply uids_within_refl|done]]. split; [|done].
    assert (Hf : f ∈ user_ids p \/ f = fsuid p).
    { rewrite !orb_true_iff, !Z.eqb_eq in E. destruct E as [[[->| ->]| ->]| ->]; auto. }
    repeat (split; [done|]). exact (caps_within_refl p). }
  clearbody p1. destruct H1 as [(Ha & Hb & Hc1 & Hd & Hg & Hfg & Hgr & [Hp Hef]) [Ee Ep]].
  assert (Hset : forall eff, (forall i, 0 <= i -> Z.testbit eff i = true ->
      Z.testbit (cap_effective p) i = true \/ Z.testbit (cap_permitted p) i = true) ->
    uids_within p (set_caps eff (cap_permitted p1) p1)).
  { intros eff H. unfold uids_within, group_ids in *. cbn. split_and!; try done. }
  assert (Hand : forall i m, 0 <= i -> Z.testbit (Z.land (cap_effective p1) m) i = true -> Z.testbit (cap_effective p) i = true).
  { intros i m Hi. rewrite Z.land_spec, Ee. intros [? _]%andb_prop. done. }
  destruct ((fsuid p =? 0) && negb (fsuid p1 =? 0)) eqn:E1.
  - apply andb_prop in E1 as [E1 E2]. rewrite E1. cbn. apply Hset. intros i Hi H. left. by eapply Hand.
  - destruct (negb (fsuid p =? 0) && (fsuid p1 =? 0)); [|unfold uids_within; split_and!; try done; by split].
    apply Hset. intros i Hi. rewrite Z.lor_spec, Z.land_spec, Ee, Ep.
    intros [?|[? _]%andb_prop]%orb_prop; auto.
Qed.

Lemma setgids_within x p :
  capable p CAP_SETGID = false ->
  gids_within p (sys_setgid x p).2 /\ gids_within p (sys_setregid x p).2 /\
  gids_within p (sys_setresgid x p).2 /\ gids_within p (sys_setfsgid x p).2.
Proof.
  intros Hc. destruct (group_ids_in p) as (Hg & He & Hs).
  assert (Hset : forall a b c f, a ∈ group_ids p -> b ∈ group_ids p -> c ∈ group_ids p ->
    (f ∈ group_ids p \/ f = fsgid p) -> gids_within p (set_gids a b c f p)) by by (intros; unfold gids_within; split_and!).
  split_and!.
  - unfold sys_setgid. rewrite Hc. destruct (arg_id_0 x) as [g ->].
    destruct (_ || _) eqn:E; [|apply gids_within_refl]. apply Hset; auto.
    rewrite orb_true_iff, !Z.eqb_eq in E. destruct E as [->| ->]; done.
  - unfold sys_setregid. rewrite Hc. destruct (arg_id x 0) as [r|]; [|apply gids_within_refl].
    destruct (arg_id x 1) as [e|]; [|apply gids_within_refl]. rewrite !orb_false_r.
    destruct (negb (r =? NOID) && _) eqn:E1; [apply gids_within_refl|].
    destruct (negb (e =? NOID) && _) eqn:E2; [apply gids_within_refl|]. cbn [snd].
    assert (Hr : r <> NOID -> r ∈ group_ids p).
    { intros Hn. destruct (Z.eqb_spec r NOID); [done|]. cbn in E1.
      destruct (Z.eqb_spec (gid p) r) as [<-|]; [done|]. destruct (Z.eqb_spec (egid p) r) as [<-|]; done. }
    assert (Hen : e <> NOID -> e ∈ group_ids p).
    { intros Hn. destruct (Z.eqb_spec e NOID); [done|]. cbn in E2.
      destruct (Z.eqb_spec (gid p) e) as [<-|]; [done|]. destruct (Z.eqb_spec (egid p) e) as [<-|]; [done|].
      destruct (Z.eqb_spec (sgid p) e) as [<-|]; done. }
    clear E1 E2. destruct (Z.eqb_spec r NOID), (Z.eqb_spec e NOID); cbn; try (destruct (negb _)); apply Hset; auto.
  - unfold sys_setresgid. rewrite Hc. cbn [negb andb]. destruct (arg_id x 0) as [r|]; [|apply gids_within_refl].
    destruct (arg_id x 1) as [e|]; [|apply gids_within_refl]. destruct (arg_id x 2) as [t|]; [|apply gids_within_refl].
    destruct (foreign r _ _ _) eqn:E1; [apply gids_within_refl|]. destruct (foreign e _ _ _) eqn:E2; [apply gids_within_refl|].
    destruct (foreign t _ _ _) eqn:E3; [apply gids_within_refl|]. cbn [orb snd]. apply foreign_false_g in E1, E2, E3.
    destruct (Z.eqb_spec r NOID), (Z.eqb_spec e NOID), (Z.eqb_spec t NOID); cbn; rewrite ?set_gids_twice;
      try apply gids_within_refl; apply Hset; naive_solver.
  - unfold sys_setfsgid. rewrite Hc. destruct (arg_id_0 x) as [f ->]. cbn [snd]. rewrite orb_false_r.
    destruct (_ || _) eqn:E; [|apply gids_within_refl]. apply Hset; auto.
    rewrite !orb_true_iff, !Z.eqb_eq in E. destruct E as [[[->| ->]| ->]| ->]; auto.
Qed.

(** * The properties of credentials *)

(** C37: a process without [CAP_SETUID] cannot give itself a user id it does not
    already have through setreuid, setresuid or setfsuid, whatever the
    arguments; without [CAP_SETGID] the same holds for group ids through
    setgid, setregid, setresgid and setfsgid; none of these calls gives a
    capability that was neither effective nor permitted. *)
Theorem unprivileged_ids_closed x p :
  0 <= cap_effective p < 2 ^ 32 ->
  (capable p CAP_SETUID = false ->
     uids_within p (sys_setreuid x p).2 /\ uids_within p (sys_setresuid x p).2 /\
     uids_within p (sys_setfsuid x p).2) /\
  (capable p CAP_SETGID = false ->
     gids_within p (sys_setgid x p).2 /\ gids_within p (sys_setregid x p).2 /\
     gids_within p (sys_setresgid x p).2 /\ gids_within p (sys_setfsgid x p).2).
Proof.
  intros Hcap. split; intros Hc.
  - split; [by apply setreuid_within|]. split; [by apply setresuid_within|by apply setfsuid_within].
  - by apply setgids_within.
Qed.

(** A user process with one supplementary group and no capability. *)
Definition user_cred : cred := mkCred 1000 1000 1000 1000 100 100 100 100 [100] 0 0 0 0x12.

Lemma unprivileged_ids_closed_witness :
  uids_within user_cred (sys_setresuid [0; 0; 0] user_cred).2 /\
  gids_within user_cred (sys_setregid [0; 100] user_cred).2.
Proof.
  destruct (unprivileged_ids_closed [0; 0; 0] user_cred) as [Hu _]; [cbn; lia|].
  destruct (unprivileged_ids_closed [0; 100] user_cred) as [_ Hg]; [cbn; lia|].
  split; [apply Hu; reflexivity|apply Hg; reflexivity].
Defined.

(** Setuid does not have that protection: a process without [CAP_SETUID] may
    set its effective and file-system user ids to any id, and a process that
    takes id 0 this way has every permitted capability raised. *)
Theorem setuid_unprotected x u p :
  capable p CAP_SETUID = false -> 0 <= u < 2 ^ 31 -> nth 0 x 0 = u ->
  exists p', sys_setuid x p = (0, p') /\ euid p' = u /\ fsuid p' = u /\ uid p' = uid p /\
    (euid p <> 0 -> u = 0 -> cap_effective p' = cap_permitted p).
Proof.
  intros Hc Hu Hx. unfold sys_setuid, arg_id, argint. cbn [Nat.ltb Nat.leb]. rewrite Hx, Hc, s32_id, u32_id by lia.
  eexists. split; [reflexivity|].
  destruct (emulate_frame (uid p) (euid p) (suid p) (set_uids (uid p) u (suid p) u p)) as (-> & -> & _ & -> & _).
  split; [done|]. split; [done|]. split; [done|]. intros He ->. unfold cap_emulate_setxuid.
  apply Z.eqb_neq in He. cbn. rewrite He. destruct (uid p =? 0), (suid p =? 0); cbn; rewrite ?He; done.
Qed.

Lemma setuid_unprotected_witness :
  exists p', sys_setuid [0] user_cred = (0, p') /\ euid p' = 0.
Proof.
  destruct (setuid_unprotected [0] 0 user_cred) as (p' & H & He & _); [reflexivity|lia|reflexivity|].
  exists p'. split; [exact H|exact He].
Defined.

(** [generic_permission] grants a request of a process without
    [CAP_DAC_OVERRIDE] exactly when the class of mode bits that applies to it
    (owner, else group, else others) contains every requested bit, or the
    process acts as root. *)
Theorem generic_permission_exact p ip mask :
  0 <= mask < 8 -> 0 <= i_mode ip -> capable p CAP_DAC_OVERRIDE = false ->
  generic_permission p ip mask =
  if (fsuid p =? 0) || forallb (fun b => negb (Z.testbit mask b) ||
       Z.testbit (i_mode ip) (b + (if fsuid p =? i_uid ip then 6 else if fsgid p =? i_gid ip then 3 else 0)))
       [0; 1; 2]
  then 0 else - EACCES.
Proof.
  intros Hm Hmode Hc. unfold generic_permission. rewrite Hc. destruct (fsuid p =? 0); [done|]. cbn [orb].
  set (k := if fsuid p =? i_uid ip then 6 else if fsgid p =? i_gid ip then 3 else 0).
  assert (Hk : 0 <= k) by (unfold k; destruct (_ =? _); [lia|destruct (_ =? _); lia]).
  replace (if fsuid p =? i_uid ip then _ else _) with (Z.shiftr (i_mode ip) k)
    by (unfold k; destruct (_ =? _); [done|]; destruct (_ =? _); [done|apply Z.shiftr_0_r]).
  change (Z.lor (Z.lor MAY_READ MAY_WRITE) MAY_EXEC) with (Z.ones 3).
  replace (Z.land (Z.land (Z.shiftr (i_mode ip) k) mask) (Z.ones 3)) with (Z.land (Z.shiftr (i_mode ip) k) mask).
  2:{ rewrite <- Z.land_assoc, (Z.land_ones mask) by lia. by rewrite (Z.mod_small mask) by (cbn; lia). }
  assert (E : (Z.land (Z.shiftr (i_mode ip) k) mask =? mask) =
    forallb (fun b => negb (Z.testbit mask b) || Z.testbit (i_mode ip) (b + k)) [0; 1; 2]).
  { apply eq_iff_eq_true. rewrite Z.eqb_eq, forallb_forall. split.
    - intros Em b Hb. destruct (Z.testbit mask b) eqn:Eb; [|done]. rewrite <- Em, Z.land_spec, Z.shiftr_spec in Eb
        by (cbn in Hb; lia). apply andb_prop in Eb as [-> _]. done.
    - intros Hall. apply Z.bits_inj'. intros b Hb. rewrite Z.land_spec, Z.shiftr_spec by lia.
      destruct (decide (b < 3)) as [Hlt|Hge].
      + assert (Hin : In b [0; 1; 2]) by (cbn; lia). specialize (Hall b Hin).
        destruct (Z.testbit mask b); [|apply andb_false_r]. cbn in Hall. by rewrite Hall.
      + rewrite <- (Z.mod_small mask (2 ^ 3)) by (cbn; lia). rewrite Z.mod_pow2_bits_high by lia. apply andb_false_r. }
  rewrite E. destruct (forallb _ _); [done|]. by destruct (_ || _).
Qed.

Lemma generic_permission_exact_witness :
  generic_permission user_cred (mkInode 0x81a4 0 0) MAY_WRITE = - EACCES /\
  generic_permission user_cred (mkInode 0x81a4 0 0) MAY_READ = 0.
Proof.
  split.
  - rewrite (generic_permission_exact user_cred (mkInode 0x81a4 0 0) MAY_WRITE); [reflexivity|unfold MAY_WRITE; lia|cbn; lia|reflexivity].
  - rewrite (generic_permission_exact user_cred (mkInode 0x81a4 0 0) MAY_READ); [reflexivity|unfold MAY_READ; lia|cbn; lia|reflexivity].
Defined.

(** [faccess] denies far too little: for a caller that is not root, and for
    every combination of permission bits asked for, it answers "allowed" on
    every file the caller does not own, and on every file whose group is not
    the caller's, whatever the file's mode. *)
Theorem faccess_grants_non_owner p ip mode flags :
  0 <= mode < 8 -> uid p <> 0 ->
  (i_uid ip <> (if truthy (Z.land flags AT_EACCESS) then euid p else uid p) \/
   i_gid ip <> (if truthy (Z.land flags AT_EACCESS) then egid p else gid p)) ->
  faccess p (Some ip) mode flags = 0.
Proof.
  intros Hm Hu Hne. unfold faccess.
  assert (truthy (Z.land mode (not_w 32 S_IRWXO)) = false) as ->.
  { destruct (decide (mode = 0)) as [->|]; [reflexivity|].
    assert (mode = 1 \/ mode = 2 \/ mode = 3 \/ mode = 4 \/ mode = 5 \/ mode = 6 \/ mode = 7) as Hc by lia.
    repeat (destruct Hc as [->|Hc]; [reflexivity|]). by subst. }
  destruct (Z.eqb_spec mode 0); [done|]. destruct (Z.eqb_spec (uid p) 0); [done|].
  destruct (truthy (Z.land flags AT_EACCESS)); destruct Hne as [Hne|Hne]; apply Z.eqb_neq in Hne; rewrite Hne.
  all: cbn [andb]; rewrite ?andb_false_r; cbn [andb]; rewrite ?andb_false_r; done.
Qed.

Lemma faccess_grants_non_owner_witness :
  faccess user_cred (Some (mkInode 0x8000 0 0)) (Z.lor R_OK W_OK) 0 = 0.
Proof. apply faccess_grants_non_owner; [vm_compute; split; congruence|cbn; lia|left; vm_compute; congruence]. Defined.

End Cred.
