(* ===== verification/Pipe.v ===== *)
(** Pipes: kern/pipe.c.

    A pipe is its ring buffer, its two 32-bit counters, its two "open" flags
    and its lock.  [sleep] gives up the lock and the CPU, so an operation runs
    in atomic segments between an [acquire] (or a wake-up, which reacquires
    the lock) and a [release] or [sleep]; [woken] records the channels passed
    to [wakeup].  A writer or reader that slept runs the next segment from the
    test of its [while] loop, with the bytes it still has to write.  The step
    relation [pstep] interleaves segments of any number of processes. *)

From stdpp Require Import base list relations.
From Stdlib Require Import ZArith Lia Bool.
From S2P Require Import Prelude.

Module Pipe.

Definition PIPESIZE : Z := 512.

Record pipe : Type := mkPipe {
  lock : bool;
  pdata : list Z;
  nread : Z;
  nwrite : Z;
  readopen : Z;
  writeopen : Z
}.

(** The channels processes sleep on: [&pi->nread] and [&pi->nwrite]. *)
Inductive chan : Type := ch_nread | ch_nwrite.

Record pstate : Type := mkP { pi : pipe; woken : list chan; freed : bool }.

Definition upd_pi (f : pipe -> pipe) : M pstate unit :=
  modify (fun s => mkP (f (pi s)) (woken s) (freed s)).
Definition set_lock (b : bool) (p : pipe) : pipe :=
  mkPipe b (pdata p) (nread p) (nwrite p) (readopen p) (writeopen p).

Definition acquire : M pstate unit :=
  fun s => if lock (pi s) then Block s else upd_pi (set_lock true) s.
Definition release : M pstate unit :=
  fun s => if lock (pi s) then upd_pi (set_lock false) s else Panic s.
Definition wakeup (c : chan) : M pstate unit :=
  modify (fun s => mkP (pi s) (woken s ++ [c]) (freed s)).
Definition kfree : M pstate unit :=
  modify (fun s => mkP (pi s) (woken s) true).

(** The fields [pipealloc] sets in a page whose old contents are [junk]. *)
Definition pipe_init (junk : list Z) : pipe := mkPipe false junk 0 0 1 1.

Definition pipeclose (writable : bool) : M pstate unit :=
  acquire ;;
  (if writable then
     upd_pi (fun p => mkPipe (lock p) (pdata p) (nread p) (nwrite p) (readopen p) 0) ;;
     wakeup ch_nread
   else
     upd_pi (fun p => mkPipe (lock p) (pdata p) (nread p) (nwrite p) 0 (writeopen p)) ;;
     wakeup ch_nwrite) ;;
  let* p := gets pi in
  if (readopen p =? 0) && (writeopen p =? 0) then release ;; kfree else release.

(** How a segment of [pipewrite] ends: with a result, or asleep on
    [&pi->nwrite] with bytes left. *)
Inductive wres : Type :=
| WRet (r : Z) (left : list Z)
| WSleep (i : Z) (left : list Z).

(** [pi->data[pi->nwrite++ % PIPESIZE] = b]. *)
Definition put_byte (b : Z) (p : pipe) : pipe :=
  mkPipe (lock p) (<[Z.to_nat (nwrite p mod PIPESIZE) := b]> (pdata p))
         (nread p) (u32 (nwrite p + 1)) (readopen p) (writeopen p).

(** The [for] loop from index [i] with [bytes] still to write, the lock held. *)
Fixpoint write_loop (killed : bool) (i : Z) (bytes : list Z) : M pstate wres :=
  match bytes with
  | [] =>
      wakeup ch_nread ;;
      release ;;
      ret (WRet i [])
  | b :: bytes' =>
      let* p := gets pi in
      if nwrite p =? u32 (nread p + PIPESIZE) then
        if (readopen p =? 0) || killed then release ;; ret (WRet (-1) bytes)
        else
          wakeup ch_nread ;;
          release ;;  (* sleep(&pi->nwrite, &pi->lock) *)
          ret (WSleep i bytes)
      else
        upd_pi (put_byte b) ;;
        write_loop killed (i + 1) bytes'
  end.

(** A segment: the first one has [i = 0] and all the bytes. *)
Definition pipewrite (killed : bool) (i : Z) (bytes : list Z) : M pstate wres :=
  acquire ;;
  write_loop killed i bytes.

Inductive rres : Type :=
| RRet (r : Z) (got : list Z)
| RSleep.

(** [addr[i] = pi->data[pi->nread++ % PIPESIZE]]. *)
Definition get_byte (p : pipe) : Z * pipe :=
  (nth (Z.to_nat (nread p mod PIPESIZE)) (pdata p) 0,
   mkPipe (lock p) (pdata p) (u32 (nread p + 1)) (nwrite p) (readopen p) (writeopen p)).

(** The [for] loop with [n] iterations left; [got] holds [addr[0..i-1]]. *)
Fixpoint read_loop (n : nat) (got : list Z) : M pstate (list Z) :=
  match n with
  | O => ret got
  | S n' =>
      let* p := gets pi in
      if nread p =? nwrite p then ret got
      else upd_pi (fun p => (get_byte p).2) ;;
           read_loop n' (got ++ [(get_byte p).1])
  end.

Definition piperead (killed : bool) (n : Z) : M pstate rres :=
  acquire ;;
  let* p := gets pi in
  if (nread p =? nwrite p) && truthy (writeopen p) then
    if killed then release ;; ret (RRet (-1) [])
    else release ;; ret RSleep  (* sleep(&pi->nread, &pi->lock) *)
  else
    let* got := read_loop (Z.to_nat n) [] in
    wakeup ch_nwrite ;;
    release ;;
    ret (RRet (Z.of_nat (length got)) got).

(** * Contents *)

(** Number of bytes in the pipe, and the bytes, oldest first. *)
Definition count (p : pipe) : Z := u32 (nwrite p - nread p).

Definition byte_at (p : pipe) (k : nat) : Z :=
  nth (Z.to_nat ((nread p + Z.of_nat k) mod PIPESIZE)) (pdata p) 0.

Definition contents (p : pipe) : list Z := map (byte_at p) (seq 0 (Z.to_nat (count p))).

Record wf (p : pipe) : Prop := {
  wf_len : length (pdata p) = 512%nat;
  wf_nread : 0 <= nread p < 2 ^ 32;
  wf_nwrite : 0 <= nwrite p < 2 ^ 32;
  wf_count : count p <= 512
}.

Lemma length_contents p : length (contents p) = Z.to_nat (count p).
Proof. unfold contents. by rewrite length_map, length_seq. Qed.

Lemma count_range p : 0 <= count p < 2 ^ 32.
Proof. apply wrap_range. lia. Qed.

(** Two counters in range differ by [d] modulo 2^32. *)
Lemma count_eq p d : 0 <= d < 2 ^ 32 -> nwrite p = u32 (nread p + d) -> count p = d.
Proof.
  intros Hd E. unfold count. rewrite E. unfold u32, wrap. rewrite Zminus_mod_idemp_l.
  replace (nread p + d - nread p) with d by lia. by apply Z.mod_small.
Qed.

Lemma nwrite_count p : wf p -> nwrite p = u32 (nread p + count p).
Proof.
  intros [_ Hr Hw _]. unfold count, u32, wrap. rewrite Zplus_mod_idemp_r.
  replace (nread p + (nwrite p - nread p)) with (nwrite p) by lia. symmetry. by apply Z.mod_small.
Qed.

Lemma full_iff p : wf p -> (nwrite p =? u32 (nread p + PIPESIZE)) = (count p =? 512).
Proof.
  intros Hwf. pose proof (count_range p). apply eq_iff_eq_true. rewrite !Z.eqb_eq. split.
  - intros E. apply count_eq; [lia|done].
  - intros E. rewrite (nwrite_count p Hwf), E. done.
Qed.

Lemma empty_iff p : wf p -> (nread p =? nwrite p) = (count p =? 0).
Proof.
  intros Hwf. apply eq_iff_eq_true. rewrite !Z.eqb_eq. split.
  - intros E. apply count_eq; [lia|]. rewrite Z.add_0_r, <- E. symmetry. apply u32_id, Hwf.
  - intros E. rewrite (nwrite_count p Hwf), E, Z.add_0_r. symmetry. apply u32_id, Hwf.
Qed.

(** Wrapping a counter at 2^32 does not move the ring position. *)
Lemma ring_wrap x k : u32 x mod PIPESIZE = x mod PIPESIZE /\ (u32 x + k) mod PIPESIZE = (x + k) mod PIPESIZE.
Proof.
  unfold u32, wrap, PIPESIZE. assert (E : forall y, (y mod 2 ^ 32) mod 512 = y mod 512)
    by (intros; apply Z.mod_mod_divide; by exists 8388608).
  split; [apply E|]. by rewrite <- (Zplus_mod_idemp_l (x mod 2 ^ 32)), E, Zplus_mod_idemp_l.
Qed.

Lemma ring_ne x a b : 0 <= a < b -> b - a < 512 -> (x + a) mod PIPESIZE <> (x + b) mod PIPESIZE.
Proof.
  intros Hab Hd E. unfold PIPESIZE in E.
  pose proof (Z.div_mod (x + a) 512 ltac:(lia)). pose proof (Z.div_mod (x + b) 512 ltac:(lia)). lia.
Qed.

Lemma nwrite_slot p : wf p -> nwrite p mod PIPESIZE = (nread p + count p) mod PIPESIZE.
Proof. intros Hwf. rewrite (nwrite_count p Hwf) at 1. apply (ring_wrap _ 0). Qed.

Lemma put_byte_ok b p :
  wf p -> count p < 512 -> wf (put_byte b p) /\ contents (put_byte b p) = contents p ++ [b].
Proof.
  intros Hwf Hlt. pose proof (count_range p) as Hcr. pose proof Hwf as [Hl Hr Hw Hc].
  assert (Ec : count (put_byte b p) = count p + 1).
  { apply count_eq; [lia|]. cbn. rewrite (nwrite_count p Hwf). unfold u32, wrap. rewrite Zplus_mod_idemp_l. f_equal. lia. }
  split; [constructor; cbn; [by rewrite length_insert|done|apply wrap_range; lia|lia]|].
  unfold contents. rewrite Ec. replace (Z.to_nat (count p + 1)) with (Z.to_nat (count p) + 1)%nat by lia.
  rewrite seq_app, map_app. cbn [seq map Nat.add]. f_equal.
  - apply map_ext_in. intros k Hk%in_seq. unfold byte_at, put_byte. cbn [nread pdata]. rewrite !nth_lookup.
    rewrite list_lookup_insert_ne; [done|]. rewrite (nwrite_slot p Hwf). intros E.
    apply (ring_ne (nread p) (Z.of_nat k) (count p)); [lia|lia|].
    apply Z2Nat.inj; [apply Z.mod_pos_bound; done..|done].
  - f_equal. unfold byte_at, put_byte. cbn [nread pdata]. rewrite nth_lookup, (nwrite_slot p Hwf).
    rewrite Z2Nat.id by lia. rewrite list_lookup_insert_eq; [done|].
    pose proof (Z.mod_pos_bound (nread p + count p) PIPESIZE eq_refl) as Hm. unfold PIPESIZE in *. lia.
Qed.

Lemma get_byte_ok p :
  wf p -> 0 < count p -> wf (get_byte p).2 /\ contents p = (get_byte p).1 :: contents (get_byte p).2.
Proof.
  intros Hwf Hlt. pose proof (count_range p) as Hcr. pose proof Hwf as [Hl Hr Hw Hc].
  assert (Ec : count (get_byte p).2 = count p - 1).
  { apply count_eq; [lia|]. cbn. rewrite (nwrite_count p Hwf) at 1. unfold u32, wrap. rewrite Zplus_mod_idemp_l. f_equal. lia. }
  split; [constructor; cbn in *; [done|apply wrap_range; lia|done|lia]|].
  unfold contents. rewrite Ec. replace (Z.to_nat (count p)) with (S (Z.to_nat (count p - 1))) by lia.
  cbn [seq map]. f_equal; [unfold byte_at, get_byte; cbn; by rewrite Z.add_0_r|].
  rewrite <- seq_shift, map_map. apply map_ext. intros k. unfold byte_at, get_byte. cbn [snd nread pdata].
  destruct (ring_wrap (nread p + 1) (Z.of_nat k)) as [_ ->]. do 3 f_equal. lia.
Qed.

(** * What a segment does *)

(** The parts of the state a data transfer keeps. *)
Definition same_flags (p p' : pipe) : Prop := readopen p' = readopen p /\ writeopen p' = writeopen p.

Definition wf_free (s : pstate) : Prop := wf (pi s) /\ lock (pi s) = false.

(** A segment of [pipewrite] takes a prefix of its bytes. *)
Lemma write_loop_run killed bytes : forall i s,
  wf (pi s) -> lock (pi s) = true ->
  exists r s' taken left, write_loop killed i bytes s = Ret r s' /\ wf_free s' /\
    bytes = taken ++ left /\ contents (pi s') = contents (pi s) ++ taken /\ same_flags (pi s) (pi s') /\
    nread (pi s') = nread (pi s) /\ freed s' = freed s /\
    ((left = [] /\ r = WRet (i + Z.of_nat (length bytes)) [] /\ woken s' = woken s ++ [ch_nread]) \/
     (left <> [] /\ count (pi s') = 512 /\
      if (readopen (pi s) =? 0) || killed then r = WRet (-1) left /\ woken s' = woken s
      else r = WSleep (i + Z.of_nat (length taken)) left /\ woken s' = woken s ++ [ch_nread])).
Proof.
  induction bytes as [|b bytes IH]; intros i s Hwf Hlk; cbn [write_loop].
  - unfold bind, wakeup, modify, release, upd_pi. cbn. rewrite Hlk. unfold modify, ret. cbn.
    eexists _, _, [], []. split; [reflexivity|]. split_and!; try done; [by destruct Hwf|by rewrite app_nil_r|].
    left. by rewrite Z.add_0_r.
  - unfold bind at 1, gets at 1. rewrite (full_iff _ Hwf). destruct (Z.eqb_spec (count (pi s)) 512) as [Hfull|Hroom].
    + destruct ((readopen (pi s) =? 0) || killed) eqn:Ek.
      * unfold bind, release. rewrite Hlk. cbn. eexists _, _, [], (b :: bytes). split; [reflexivity|].
        split_and!; try done; [by destruct Hwf|by rewrite app_nil_r|]. right. done.
      * unfold bind, wakeup, modify, release. cbn. rewrite Hlk. cbn. eexists _, _, [], (b :: bytes). split; [reflexivity|].
        split_and!; try done; [by destruct Hwf|by rewrite app_nil_r|]. right. cbn. by rewrite Z.add_0_r.
    + pose proof (wf_count _ Hwf). destruct (put_byte_ok b (pi s) Hwf) as [Hwf1 Ec1]; [lia|].
      destruct (IH (i + 1) (mkP (put_byte b (pi s)) (woken s) (freed s)) Hwf1 Hlk)
        as (r & s' & taken & left & Hr & Hf & -> & Ec & Hfl & Hnr & Hfr & Hend).
      exists r, s', (b :: taken), left. unfold bind at 1, upd_pi, modify. split; [exact Hr|].
      cbn [pi woken freed put_byte nread readopen] in *. split_and!; try done.
      * by rewrite Ec, Ec1, <- app_assoc.
      * destruct Hend as [(-> & -> & Hw)|(Hne & Hcnt & Hend)]; [left|right].
        -- split; [done|]. split; [f_equal; cbn [length]; rewrite !length_app; lia|done].
        -- split; [done|]. split; [done|]. destruct ((readopen (pi s) =? 0) || killed); [done|].
           destruct Hend as [-> ->]. split; [f_equal; cbn [length]; lia|done].
Qed.

Lemma read_loop_run n : forall got s,
  wf (pi s) ->
  exists s' taken, read_loop n got s = Ret (got ++ taken) s' /\ wf (pi s') /\
    contents (pi s) = taken ++ contents (pi s') /\ same_flags (pi s) (pi s') /\ lock (pi s') = lock (pi s) /\
    woken s' = woken s /\ freed s' = freed s /\ length taken = Nat.min n (length (contents (pi s))).
Proof.
  induction n as [|n IH]; intros got s Hwf; cbn [read_loop].
  - exists s, []. unfold ret. rewrite app_nil_r. by split_and!.
  - unfold bind at 1, gets at 1. rewrite (empty_iff _ Hwf). destruct (Z.eqb_spec (count (pi s)) 0) as [He|He].
    + exists s, []. unfold ret. rewrite app_nil_r. split_and!; try done. rewrite length_contents, He. done.
    + pose proof (count_range (pi s)). destruct (get_byte_ok (pi s) Hwf) as [Hwf1 Ec1]; [lia|].
      destruct (IH (got ++ [(get_byte (pi s)).1]) (mkP (get_byte (pi s)).2 (woken s) (freed s)) Hwf1)
        as (s' & taken & Hr & Hf & Ec & Hfl & Hlk & Hw & Hfr & Hlen).
      exists s', ((get_byte (pi s)).1 :: taken). unfold bind at 1, upd_pi, modify. rewrite Hr.
      cbn [pi woken freed] in *. split_and!; try done; [by rewrite <- app_assoc|by rewrite Ec1, Ec|].
      rewrite Ec1. cbn [length]. rewrite Hlen. lia.
Qed.

Lemma piperead_run killed n s :
  wf_free s ->
  exists r s' taken, piperead killed n s = Ret r s' /\ wf_free s' /\
    contents (pi s) = taken ++ contents (pi s') /\ same_flags (pi s) (pi s') /\ freed s' = freed s /\
    if (count (pi s) =? 0) && truthy (writeopen (pi s))
    then taken = [] /\ woken s' = woken s /\ r = (if killed then RRet (-1) [] else RSleep)
    else r = RRet (Z.of_nat (length taken)) taken /\ woken s' = woken s ++ [ch_nwrite] /\
         length taken = Nat.min (Z.to_nat n) (length (contents (pi s))).
Proof.
  intros [Hwf Hlk]. unfold piperead, bind at 1, acquire. rewrite Hlk. unfold upd_pi, modify.
  unfold bind at 1, gets at 1. cbn [pi]. set (p1 := set_lock true (pi s)).
  assert (Hwf1 : wf p1) by by destruct Hwf. rewrite (empty_iff p1 Hwf1). change (count p1) with (count (pi s)).
  change (writeopen p1) with (writeopen (pi s)).
  destruct ((count (pi s) =? 0) && truthy (writeopen (pi s))) eqn:Ee.
  - destruct killed; unfold bind, release; cbn; eexists _, _, []; (split; [reflexivity|]); split_and!; try done; by destruct Hwf.
  - destruct (read_loop_run (Z.to_nat n) [] (mkP p1 (woken s) (freed s)) Hwf1)
      as (s' & taken & Hr & Hf & Ec & Hfl & Hlk' & Hw & Hfr & Hlen).
    unfold bind at 1. rewrite Hr. unfold bind, wakeup, modify, release. cbn [pi] in *. rewrite Hlk'. cbn.
    eexists _, _, taken. split; [reflexivity|]. cbn. split_and!; try done; [by destruct Hf|by rewrite Hw].
Qed.

Lemma pipewrite_run killed i bytes s :
  wf_free s ->
  exists r s' taken left, pipewrite killed i bytes s = Ret r s' /\ wf_free s' /\
    bytes = taken ++ left /\ contents (pi s') = contents (pi s) ++ taken /\ same_flags (pi s) (pi s') /\
    freed s' = freed s /\
    ((left = [] /\ r = WRet (i + Z.of_nat (length bytes)) [] /\ woken s' = woken s ++ [ch_nread]) \/
     (left <> [] /\ count (pi s') = 512 /\
      if (readopen (pi s) =? 0) || killed then r = WRet (-1) left /\ woken s' = woken s
      else r = WSleep (i + Z.of_nat (length taken)) left /\ woken s' = woken s ++ [ch_nread])).
Proof.
  intros [Hwf Hlk]. set (s1 := mkP (set_lock true (pi s)) (woken s) (freed s)).
  assert (Hwf1 : wf (pi s1)) by by destruct Hwf.
  destruct (write_loop_run killed bytes i s1 Hwf1 eq_refl) as (r & s' & taken & left & Hr & Hf & E & Ec & Hfl & _ & Hfr & Hend).
  exists r, s', taken, left. unfold pipewrite, bind at 1, acquire. rewrite Hlk. by split_and!.
Qed.

Lemma pipeclose_run writable s :
  wf_free s ->
  exists s', pipeclose writable s = Ret tt s' /\ wf_free s' /\ contents (pi s') = contents (pi s) /\
    (if writable then writeopen (pi s') = 0 /\ readopen (pi s') = readopen (pi s) /\ woken s' = woken s ++ [ch_nread]
     else readopen (pi s') = 0 /\ writeopen (pi s') = writeopen (pi s) /\ woken s' = woken s ++ [ch_nwrite]) /\
    freed s' = freed s || ((readopen (pi s') =? 0) && (writeopen (pi s') =? 0)).
Proof.
  intros [Hwf Hlk]. unfold pipeclose, bind at 1, acquire. rewrite Hlk. unfold upd_pi, modify.
  destruct writable; unfold bind, wakeup, modify, gets, release, kfree; cbn;
    [destruct (readopen (pi s) =? 0) eqn:E|destruct (writeopen (pi s) =? 0) eqn:E]; cbn;
    eexists; (split; [reflexivity|]); cbn; rewrite ?E, ?orb_true_r, ?orb_false_r; split_and!; try done; by destruct Hwf.
Qed.

(** * Interleavings *)

(** The bytes a segment of a writer put into the pipe, and those a reader took. *)
Definition accepted (r : wres) (bytes : list Z) : list Z :=
  match r with WRet _ rest | WSleep _ rest => take (length bytes - length rest) bytes end.

Definition delivered (r : rres) : list Z :=
  match r with RRet _ got => got | RSleep => [] end.

(** A state of the pipe with everything written to it and read from it so far. *)
Definition config : Type := pstate * list Z * list Z.

Inductive pstep : config -> config -> Prop :=
| step_write s W R killed i bytes r s' :
    pipewrite killed i bytes s = Ret r s' -> pstep (s, W, R) (s', W ++ accepted r bytes, R)
| step_read s W R killed n r s' :
    piperead killed n s = Ret r s' -> pstep (s, W, R) (s', W, R ++ delivered r)
| step_close s W R writable s' :
    pipeclose writable s = Ret tt s' -> pstep (s, W, R) (s', W, R).

Definition pipe_inv (c : config) : Prop :=
  let '(s, W, R) := c in wf_free s /\ W = R ++ contents (pi s).

Lemma take_prefix {A} (l k : list A) : take (length (l ++ k) - length k) (l ++ k) = l.
Proof. rewrite length_app. replace (length l + length k - length k)%nat with (length l) by lia. apply take_app_length. Qed.

Lemma pstep_inv c c' : pipe_inv c -> pstep c c' -> pipe_inv c'.
Proof.
  intros HI Hs. destruct Hs as [s W R killed i bytes r s' E|s W R killed n r s' E|s W R writable s' E];
    destruct HI as [Hwf ->].
  - destruct (pipewrite_run killed i bytes s Hwf) as (r' & s2 & taken & left & E' & Hwf' & -> & Ec & _ & _ & Hend).
    rewrite E in E'. injection E' as -> ->. split; [done|]. rewrite Ec, app_assoc. f_equal.
    enough (accepted r' (taken ++ left) = taken) as -> by done.
    destruct Hend as [(-> & -> & _)|(_ & _ & Hend)].
    + unfold accepted. apply take_prefix.
    + destruct (_ || _); destruct Hend as [-> _]; apply take_prefix.
  - destruct (piperead_run killed n s Hwf) as (r' & s2 & taken & E' & Hwf' & Ec & _ & _ & Hend).
    rewrite E in E'. injection E' as -> ->. split; [done|]. rewrite Ec, app_assoc. do 2 f_equal.
    destruct (_ && _); [|by destruct Hend as [-> _]]. destruct Hend as (-> & _ & ->). by destruct killed.
  - destruct (pipeclose_run writable s Hwf) as (s2 & E' & Hwf' & Ec & _). rewrite E in E'. injection E' as ->.
    split; [done|]. by rewrite Ec.
Qed.

Lemma psteps_inv c c' : rtc pstep c c' -> pipe_inv c -> pipe_inv c'.
Proof. induction 1 as [|c c1 c' Hs _ IH]; [done|]. intros HI. apply IH. by eapply pstep_inv. Qed.

Lemma pipe_init_inv junk : length junk = 512%nat -> pipe_inv (mkP (pipe_init junk) [] false, [], []).
Proof. intros Hl. split; [|done]. split; [constructor; cbn; done || lia|done]. Qed.

(** * The properties of pipes *)

(** C38: a pipe is a bounded FIFO under every interleaving of any number of
    readers, writers and closers: in every reachable state the bytes written
    are the bytes read followed by the bytes in the buffer, in order, none
    lost, duplicated or invented, the buffer never exceeds 512 bytes, and the
    lock is free between segments. *)
Theorem pipe_fifo junk s W R :
  length junk = 512%nat -> rtc pstep (mkP (pipe_init junk) [] false, [], []) (s, W, R) ->
  W = R ++ contents (pi s) /\ (length (contents (pi s)) <= 512)%nat /\ lock (pi s) = false.
Proof.
  intros Hl Hr. assert (HI : pipe_inv (s, W, R)).
  { eapply psteps_inv; [exact Hr|by apply pipe_init_inv]. }
  destruct HI as [[Hwf Hlk] E]. split; [done|]. split; [|done]. rewrite length_contents.
  pose proof (wf_count _ Hwf). lia.
Qed.

Lemma pipe_fifo_witness :
  exists s, [7; 8; 9] = [7; 8] ++ contents (pi s).
Proof.
  eexists. refine (proj1 (pipe_fifo (replicate 512 0) _ [7; 8; 9] [7; 8] (length_replicate 512 0) _)).
  eapply rtc_l; [eapply (step_write _ _ _ false 0 [7; 8; 9]); vm_compute; reflexivity|].
  eapply rtc_l; [eapply (step_read _ _ _ false 2); vm_compute; reflexivity|]. apply rtc_refl.
Defined.

(** Each segment does what a bounded buffer should: a write stores as many
    bytes as there is room for, and either returns the number written or, with
    the buffer full, wakes the readers and sleeps (it fails with -1 only when no
    reader is left or the process was killed); a read waits only while the pipe
    is empty and a writer exists, and otherwise returns the oldest
    [min(n, available)] bytes and wakes the writers. *)
Theorem pipe_segments_exact s killed bytes n :
  wf_free s ->
  (exists r s', pipewrite killed 0 bytes s = Ret r s' /\
     contents (pi s') = contents (pi s) ++ take (512 - length (contents (pi s))) bytes /\
     r = (if (length (contents (pi s)) + length bytes <=? 512)%nat then WRet (Z.of_nat (length bytes)) []
          else let left := drop (512 - length (contents (pi s))) bytes in
               if (readopen (pi s) =? 0) || killed then WRet (-1) left
               else WSleep (512 - Z.of_nat (length (contents (pi s)))) left) /\
     (r <> WRet (-1) (drop (512 - length (contents (pi s))) bytes) -> woken s' = woken s ++ [ch_nread])) /\
  (exists r s', piperead killed n s = Ret r s' /\
     if (length (contents (pi s)) =? 0)%nat && truthy (writeopen (pi s))
     then r = (if killed then RRet (-1) [] else RSleep) /\ contents (pi s') = contents (pi s)
     else r = RRet (Z.of_nat (Nat.min (Z.to_nat n) (length (contents (pi s))))) (take (Z.to_nat n) (contents (pi s))) /\
          contents (pi s') = drop (Z.to_nat n) (contents (pi s)) /\ woken s' = woken s ++ [ch_nwrite]).
Proof.
  intros Hwf. pose proof (wf_count _ (proj1 Hwf)) as Hc. pose proof (count_range (pi s)) as Hcr. split.
  - destruct (pipewrite_run killed 0 bytes s Hwf) as (r & s' & taken & left & Hr & [Hwf' _] & -> & Ec & _ & _ & Hend).
    exists r, s'. split; [done|]. rewrite Ec.
    assert (Hlen : (length (contents (pi s)) + length taken)%nat = Z.to_nat (count (pi s')))
      by (rewrite <- length_contents, Ec, length_app; done).
    pose proof (wf_count _ Hwf') as Hc'. pose proof (count_range (pi s')). rewrite length_contents in *.
    destruct Hend as [(-> & -> & Hw)|(Hne & Hfull & Hend)].
    + rewrite app_nil_r. rewrite take_ge by lia. destruct (Nat.leb_spec (Z.to_nat (count (pi s)) + length taken) 512); [|lia].
      split; [done|]. split; [done|]. done.
    + assert (length left <> 0%nat) by (by destruct left). rewrite Hfull in Hlen.
      replace (512 - Z.to_nat (count (pi s)))%nat with (length taken) by lia.
      rewrite take_app_length, drop_app_length, length_app.
      destruct (Nat.leb_spec (Z.to_nat (count (pi s)) + (length taken + length left)) 512); [lia|].
      replace (512 - Z.of_nat (Z.to_nat (count (pi s)))) with (0 + Z.of_nat (length taken)) by lia.
      destruct (_ || _); destruct Hend as [-> Hw]; done.
  - destruct (piperead_run killed n s Hwf) as (r & s' & taken & Hr & Hwf' & Ec & _ & _ & Hend).
    exists r, s'. split; [done|].
    assert ((length (contents (pi s)) =? 0)%nat = (count (pi s) =? 0)) as ->.
    { rewrite length_contents. apply eq_iff_eq_true. rewrite Nat.eqb_eq, Z.eqb_eq. lia. }
    destruct (_ && _); [destruct Hend as (-> & _ & ->); split; [done|by rewrite Ec]|].
    destruct Hend as (-> & -> & Hlen). rewrite <- Hlen. split; [|split; [|done]].
    + f_equal. rewrite Ec. destruct (decide (length (contents (pi s)) <= Z.to_nat n)%nat).
      * assert (contents (pi s') = []) as -> by (apply nil_length_inv; apply (f_equal length) in Ec; rewrite length_app in Ec; lia).
        rewrite app_nil_r, take_ge; [done|]. rewrite Ec, length_app in *. lia.
      * by rewrite take_app_length' by lia.
    + rewrite Ec. destruct (decide (length (contents (pi s)) <= Z.to_nat n)%nat).
      * assert (contents (pi s') = []) as -> by (apply nil_length_inv; apply (f_equal length) in Ec; rewrite length_app in Ec; lia).
        rewrite app_nil_r, drop_ge; [done|]. rewrite Ec, length_app in *. lia.
      * by rewrite drop_app_length' by lia.
Qed.

Lemma pipe_segments_exact_witness :
  exists r s', piperead false 2 (mkP (put_byte 5 (pipe_init (replicate 512 0))) [] false) = Ret r s' /\ r = RRet 1 [5].
Proof.
  destruct (pipe_segments_exact (mkP (put_byte 5 (pipe_init (replicate 512 0))) [] false) false [] 2)
    as [_ (r & s' & Hr & H)].
  - split; [constructor; vm_compute; done || lia || congruence|reflexivity].
  - exists r, s'. split; [exact Hr|]. exact (proj1 H).
Defined.

End Pipe.
