(* ===== verification/Console.v ===== *)
(** The console: kern/console.c, with [uart_putchar] of kern/uart.c.

    The line discipline is a ring buffer of 128 characters with three 64-bit
    indices that only count up and wrap around: [r] to [w] is what a reader may
    take, [w] to [e] is the line still being edited.  The interrupt handler is
    run on the characters [getc] gives until it gives none.  A reader that
    finds nothing sleeps: [console_read] runs in segments that end with the
    call ([RDone]), or with the bytes got so far and the number still wanted
    ([RSleep]), from which the next segment goes on.  The caller's inode lock,
    released around the call, belongs to the inode cache.  What is sent to the
    UART is the list [out]. *)

From stdpp Require Import base list sets.
From Stdlib Require Import ZArith Lia Bool.
From S2P Require Import Prelude.

Module Console.

Definition INPUT_BUF : Z := 128.
Definition BACKSPACE : Z := 0x100.
Definition ICANON : Z := 2.
Definition ECHO : Z := 8.

(** [C(x)] of a letter. *)
Definition Ctrl (x : Z) : Z := x - 64.

Record cons : Type := mkC {
  buf : list Z;
  r : Z;
  w : Z;
  e : Z;
  c_lflag : Z;
  locked : bool;        (* conslock *)
  panicked : Z;         (* the CPU that panicked, or -1 *)
  out : list Z;
  woken : nat           (* calls of wakeup(&input.r) *)
}.

Definition set_lock (b : bool) (s : cons) : cons :=
  mkC (buf s) (r s) (w s) (e s) (c_lflag s) b (panicked s) (out s) (woken s).
Definition set_r (x : Z) (s : cons) : cons :=
  mkC (buf s) x (w s) (e s) (c_lflag s) (locked s) (panicked s) (out s) (woken s).
Definition set_w (x : Z) (s : cons) : cons :=
  mkC (buf s) (r s) x (e s) (c_lflag s) (locked s) (panicked s) (out s) (woken s).
Definition set_e (x : Z) (s : cons) : cons :=
  mkC (buf s) (r s) (w s) x (c_lflag s) (locked s) (panicked s) (out s) (woken s).
Definition set_buf (l : list Z) (s : cons) : cons :=
  mkC l (r s) (w s) (e s) (c_lflag s) (locked s) (panicked s) (out s) (woken s).
Definition set_out (l : list Z) (s : cons) : cons :=
  mkC (buf s) (r s) (w s) (e s) (c_lflag s) (locked s) (panicked s) l (woken s).
Definition set_panicked (x : Z) (s : cons) : cons :=
  mkC (buf s) (r s) (w s) (e s) (c_lflag s) (locked s) x (out s) (woken s).

Definition set_woken (n : nat) (s : cons) : cons :=
  mkC (buf s) (r s) (w s) (e s) (c_lflag s) (locked s) (panicked s) (out s) n.

Definition acquire : M cons unit := fun s => if locked s then Block s else Ret tt (set_lock true s).
Definition release : M cons unit := fun s => if locked s then Ret tt (set_lock false s) else Panic s.
Definition wakeup : M cons unit := modify (fun s => set_woken (S (woken s)) s).

Definition isecho (s : cons) : bool := negb (Z.land (c_lflag s) ECHO =? 0).
Definition islbuf (s : cons) : bool := negb (Z.land (c_lflag s) ICANON =? 0).

(** * Output *)

(** The bytes the UART gets. *)
Definition uart_putchar (c : Z) : list Z := Z.land c 255 :: (if c =? 10 then [13] else []).

Definition putchars (l : list Z) : M cons unit := modify (fun s => set_out (out s ++ l) s).

Definition consputc (c : Z) : M cons unit :=
  if c =? BACKSPACE then putchars (uart_putchar 8 ++ uart_putchar 32 ++ uart_putchar 8)
  else putchars (uart_putchar c).

(** The [while (1)] of a kernel that has panicked never ends. *)
Definition hang {A} : M cons A := nofuel.

Definition console_write (src : list Z) : M cons Z :=
  acquire ;;
  for_each src (fun c => consputc (Z.land c 255)) ;;
  release ;;
  ret (Z.of_nat (length src)).

(** * Input *)

Definition char_at (i : Z) (s : cons) : Z := default 0 (buf s !! Z.to_nat (i mod INPUT_BUF)).

(** Kill line; 128 rounds are enough. *)
Fixpoint kill_line (fuel : nat) : M cons unit :=
  match fuel with
  | O => nofuel
  | S f =>
      let* s := gets id in
      if negb (e s =? w s) && negb (char_at (u64 (e s - 1)) s =? 10) then
        modify (fun s => set_e (u64 (e s - 1)) s) ;;
        consputc BACKSPACE ;;
        kill_line f
      else ret tt
  end.

(** One turn of the loop of [console_intr1]; the result is [prof]. *)
Definition intr_char (prof : bool) (c : Z) : M cons bool :=
  if c =? Ctrl 80 then ret true
  else if c =? Ctrl 85 then kill_line 129 ;; ret prof
  else if (c =? Ctrl 72) || (c =? 0x7f) then
    let* s := gets id in
    when (negb (e s =? w s))
      (modify (fun s => set_e (u64 (e s - 1)) s) ;; consputc BACKSPACE) ;;
    ret prof
  else
    let* s := gets id in
    when (negb (c =? 0) && (u64 (e s - r s) <? INPUT_BUF))
      (let c := (if c =? 13 then 10 else c) in
       modify (fun s => set_e (u64 (e s + 1)) (set_buf (<[Z.to_nat (e s mod INPUT_BUF) := u8 c]> (buf s)) s)) ;;
       when (isecho s) (consputc c) ;;
       let* s := gets id in
       when (negb (islbuf s) || (c =? 10) || (c =? Ctrl 68) || (e s =? u64 (r s + INPUT_BUF)))
         (modify (fun s => set_w (e s) s) ;; wakeup)) ;;
    ret prof.

Fixpoint intr_chars (prof : bool) (cs : list Z) : M cons bool :=
  match cs with
  | [] => ret prof
  | c :: cs' => let* p := intr_char prof c in intr_chars p cs'
  end.

(** [cs] are the characters [getc] gives before it returns a negative
    number.  The result says whether the process list is printed. *)
Definition console_intr1 (cs : list Z) : M cons bool :=
  acquire ;;
  let* s := gets id in
  if 0 <=? panicked s then release ;; hang else
  let* prof := intr_chars false cs in
  release ;;
  ret prof.

Inductive read_res : Type :=
  | RDone (ret : Z) (dst : list Z)
  | RSleep (dst : list Z) (n : nat).

(** The loop of [console_read] from the test of its outer [while]: [dst] is
    what has been stored, [n] what is still wanted. *)
Fixpoint read_loop (killed : bool) (target : Z) (dst : list Z) (n : nat) : M cons read_res :=
  match n with
  | O => release ;; ret (RDone (target - Z.of_nat n) dst)
  | S n' =>
      let* s := gets id in
      if r s =? w s then
        if killed then release ;; ret (RDone (-1) dst)
        else release ;; ret (RSleep dst n)
      else
        let c := char_at (r s) s in
        modify (fun s => set_r (u64 (r s + 1)) s) ;;
        if negb (islbuf s) then release ;; ret (RDone 1 (dst ++ [c]))
        else if c =? Ctrl 68 then
          when (Z.of_nat n <? target) (modify (fun s => set_r (u64 (r s - 1)) s)) ;;
          release ;;
          ret (RDone (target - Z.of_nat n) dst)
        else if c =? 10 then
          release ;; ret (RDone (target - Z.of_nat n') (dst ++ [c]))
        else read_loop killed target (dst ++ [c]) n'
  end.

Definition console_read (killed : bool) (n : nat) : M cons read_res :=
  acquire ;;
  read_loop killed (Z.of_nat n) [] n.

(** A reader that was woken: [sleep] has taken the lock again. *)
Definition console_read_resume (killed : bool) (target : Z) (dst : list Z) (n : nat) : M cons read_res :=
  acquire ;;
  read_loop killed target dst n.

(** * Formatted output *)

Definition digit : list Z := [48; 49; 50; 51; 52; 53; 54; 55; 56; 57; 97; 98; 99; 100; 101; 102].

(** The digits of [t], the last first; a 64-bit number has 64 at most. *)
Fixpoint digits (fuel : nat) (t base : Z) : list Z :=
  match fuel with
  | O => []
  | S f => default 0 (digit !! Z.to_nat (t mod base)) :: (if t / base =? 0 then [] else digits f (t / base) base)
  end.

(** What [printint] gives to [uart_putchar]; a write behind the 64 bytes of
    [buf] is [None]. *)
Definition printint (x base : Z) (sign : bool) (zero col : Z) : option (list Z) :=
  let minus := sign && (x <? 0) in
  let x := if minus then s64 (- x) else x in
  let ds := digits 64 (u64 x) base in
  let pad := (if zero =? 1 then replicate (Z.to_nat col - length ds) 48
              else if zero =? -1 then replicate (Z.to_nat col - length ds) 32
              else []) in
  if (length (ds ++ pad) <=? 64)%nat then Some ((if minus then [45] else []) ++ rev (ds ++ pad)) else None.

(** A variable argument: a register or stack slot, or a string. *)
Inductive arg : Type :=
  | AInt (v : Z)
  | AStr (s : option (list Z)).

Definition head0 (l : list Z) : Z := match l with c :: _ => c | [] => 0 end.

(** The field width and the rest. *)
Fixpoint width (n : Z) (l : list Z) : Z * list Z :=
  match l with
  | c :: l' => if (48 <=? c) && (c <=? 57) then width (s32 (n * 10 + (c - 48) mod 10)) l' else (n, l)
  | [] => (n, [])
  end.

(** The number of length modifiers and the rest. *)
Fixpoint ells (k : Z) (l : list Z) : Z * list Z :=
  match l with
  | c :: l' => if c =? 108 then ells (k + 1) l' else (k, l)
  | [] => (k, [])
  end.

Definition putch (c : Z) : M cons unit := putchars (uart_putchar c).
Definition puts (l : list Z) : M cons unit := for_each l putch.

Definition put_int (x base : Z) (sign : bool) (zero col : Z) : M cons unit :=
  match printint x base sign zero col with
  | Some l => puts l
  | None => panic
  end.

(** One conversion [c] with flag [z], width [n] and [l] length modifiers. *)
Definition convert (c z n l : Z) (args : list arg) : M cons (list arg) :=
  if c =? 117 then
    match args with
    | AInt v :: args' => put_int (if l =? 2 then s64 v else u32 v) 10 false z n ;; ret args'
    | _ => panic
    end
  else if c =? 100 then
    match args with
    | AInt v :: args' => put_int (if l =? 2 then s64 v else s32 v) 10 true z n ;; ret args'
    | _ => panic
    end
  else if c =? 120 then
    match args with
    | AInt v :: args' => put_int (if l =? 2 then s64 v else u32 v) 16 false z n ;; ret args'
    | _ => panic
    end
  else if c =? 112 then
    match args with
    | AInt v :: args' => put_int (s64 v) 16 false 0 16 ;; ret args'
    | _ => panic
    end
  else if c =? 99 then
    match args with
    | AInt v :: args' => putch (s32 v) ;; ret args'
    | _ => panic
    end
  else if c =? 115 then
    match args with
    | AStr o :: args' =>
        let '(s, j) := match o with Some s => (s, 0) | None => ([40; 110; 117; 108; 108; 41], 6) end in
        puts s ;;
        let j := j + Z.of_nat (length s) in
        when (j <? n) (puts (replicate (Z.to_nat (n - j)) 32)) ;;
        ret args'
    | _ => panic
    end
  else if c =? 37 then putch 37 ;; ret args
  else putch 37 ;; putch c ;; ret args.

Fixpoint fmt_loop (fuel : nat) (fmt : list Z) (args : list arg) : M cons unit :=
  match fuel with
  | O => nofuel
  | S f =>
      match fmt with
      | [] => ret tt
      | c :: t =>
          if negb (c =? 37) then putch c ;; fmt_loop f t args
          else
            let '(z, t1) := (if head0 t =? 48 then (1, tail t) else if head0 t =? 45 then (-1, tail t) else (0, t)) in
            let '(n, t2) := width 0 t1 in
            let '(l, t3) := ells 0 t2 in
            match t3 with
            | [] => ret tt
            | c :: t4 => let* args' := convert c z n l args in fmt_loop f t4 args'
            end
      end
  end.

(** [fmt] is the string without its terminator. *)
Definition vprintfmt (cpuid : Z) (fmt : list Z) (args : list arg) : M cons unit :=
  let* s := gets id in
  if (0 <=? panicked s) && negb (panicked s =? cpuid) then release ;; hang
  else fmt_loop (S (length fmt)) fmt args.

Definition cprintf (cpuid : Z) (fmt : list Z) (args : list arg) : M cons unit :=
  acquire ;;
  vprintfmt cpuid fmt args ;;
  release.

Definition cprintf1 (cpuid : Z) (fmt : list Z) (args : list arg) : M cons unit := vprintfmt cpuid fmt args.

(** * The line discipline as a queue and a line *)

(** What a terminal promises: characters a reader may take, and a line that
    is still edited. *)
Record tty : Type := mkT { queue : list Z; line : list Z }.

Definition total (t : tty) : nat := (length (queue t) + length (line t))%nat.

Definition tty_accepts (t : tty) (c : Z) : bool := negb (c =? 0) && (total t <? 128)%nat.

Definition tty_char (canon : bool) (t : tty) (c : Z) : tty :=
  if c =? 16 then t
  else if c =? 21 then mkT (queue t) []
  else if (c =? 8) || (c =? 127) then mkT (queue t) (take (length (line t) - 1) (line t))
  else if tty_accepts t c then
    let c := if c =? 13 then 10 else c in
    if negb canon || (c =? 10) || (c =? 4) || (total t =? 127)%nat then mkT (queue t ++ line t ++ [c]) []
    else mkT (queue t) (line t ++ [c])
  else t.

Definition rubout : list Z := [8; 32; 8].

Definition tty_echo (echo : bool) (t : tty) (c : Z) : list Z :=
  if c =? 16 then []
  else if c =? 21 then concat (replicate (length (line t)) rubout)
  else if (c =? 8) || (c =? 127) then (match line t with [] => [] | _ => rubout end)
  else if tty_accepts t c && echo then uart_putchar (if c =? 13 then 10 else c)
  else [].

Fixpoint tty_read (canon killed : bool) (target : Z) (dst : list Z) (n : nat) (q : list Z) : read_res * list Z :=
  match n with
  | O => (RDone target dst, q)
  | S n' =>
      match q with
      | [] => (if killed then RDone (-1) dst else RSleep dst n, [])
      | c :: q' =>
          if negb canon then (RDone 1 (dst ++ [c]), q')
          else if c =? 4 then (RDone (target - Z.of_nat n) dst, if Z.of_nat n <? target then q else q')
          else if c =? 10 then (RDone (target - Z.of_nat n') (dst ++ [c]), q')
          else tty_read canon killed target (dst ++ [c]) n' q'
      end
  end.

(** [n] characters of the ring from index [i] on. *)
Definition ring (s : cons) (i : Z) (n : nat) : list Z := (fun k => char_at (i + k) s) <$> seqZ 0 (Z.of_nat n).

(** The ring holds the queue and then the line. *)
Record rep (s : cons) (t : tty) : Prop := {
  rep_buf : length (buf s) = 128%nat;
  rep_r : 0 <= r s < 2 ^ 64;
  rep_w : w s = u64 (r s + Z.of_nat (length (queue t)));
  rep_e : e s = u64 (r s + Z.of_nat (total t));
  rep_fits : (total t <= 128)%nat;
  rep_chars : queue t ++ line t = ring s (r s) (total t)
}.

(** The line being edited has no newline: it would be committed. *)
Definition tty_ok (t : tty) : Prop := 10 ∉ line t.

Lemma u64_mod_ring i : u64 i mod INPUT_BUF = i mod INPUT_BUF.
Proof. unfold u64, wrap, INPUT_BUF. rewrite <- Znumtheory.Zmod_div_mod; [done|lia|lia|]. by exists (2 ^ 57). Qed.

Lemma char_at_u64 i s : char_at (u64 i) s = char_at i s.
Proof. unfold char_at. by rewrite u64_mod_ring. Qed.

Lemma u64_add_l a b : u64 (u64 a + b) = u64 (a + b).
Proof. unfold u64, wrap. apply Zplus_mod_idemp_l. Qed.

Lemma u64_cancel i a : 0 <= a < 2 ^ 64 -> u64 (u64 (i + a) - i) = a.
Proof.
  intros H. replace (u64 (i + a) - i) with (u64 (i + a) + - i) by lia. rewrite u64_add_l.
  replace (i + a + - i) with a by lia. by apply u64_id.
Qed.

Lemma u64_inj i a b : 0 <= a < 2 ^ 64 -> 0 <= b < 2 ^ 64 -> u64 (i + a) = u64 (i + b) <-> a = b.
Proof. intros Ha Hb. split; [|by intros ->]. intros E. rewrite <- (u64_cancel i a Ha), <- (u64_cancel i b Hb). by rewrite E. Qed.

Lemma ring_length s i n : length (ring s i n) = n.
Proof. unfold ring. rewrite length_fmap, length_seqZ. lia. Qed.

Lemma ring_lookup s i n k : (k < n)%nat -> ring s i n !! k = Some (char_at (i + Z.of_nat k) s).
Proof. intros H. unfold ring. rewrite list_lookup_fmap, lookup_seqZ_lt by lia. done. Qed.

Lemma ring_cons s i n : ring s i (S n) = char_at i s :: ring s (i + 1) n.
Proof.
  apply list_eq. intros k. destruct (decide (k < S n)%nat) as [Hk|Hk].
  - rewrite ring_lookup by done. destruct k as [|k]; cbn; [by rewrite Z.add_0_r|]. rewrite ring_lookup by lia. do 2 f_equal. lia.
  - rewrite !lookup_ge_None_2; [done|cbn; rewrite ring_length; lia|rewrite ring_length; lia].
Qed.

Lemma ring_take s i n m : (m <= n)%nat -> take m (ring s i n) = ring s i m.
Proof.
  intros H. apply list_eq. intros k. destruct (decide (k < m)%nat) as [Hk|Hk].
  - rewrite lookup_take_lt, !ring_lookup by lia. done.
  - rewrite !lookup_ge_None_2; [done|rewrite ring_length; lia|rewrite length_take, ring_length; lia].
Qed.

Lemma ring_u64 s i n : ring s (u64 i) n = ring s i n.
Proof.
  unfold ring. apply list_fmap_ext. intros k x Hx. unfold char_at. rewrite Zplus_mod, u64_mod_ring, <- Zplus_mod. done.
Qed.

(** A character written behind the [n] of a ring that is not full. *)
Lemma ring_push s i n c :
  length (buf s) = 128%nat -> (n < 128)%nat ->
  ring (set_buf (<[Z.to_nat ((i + Z.of_nat n) mod INPUT_BUF) := c]> (buf s)) s) i (S n) = ring s i n ++ [c].
Proof.
  intros Hb Hn. unfold INPUT_BUF. pose proof (Z.mod_pos_bound (i + Z.of_nat n) 128 ltac:(lia)) as Hm.
  apply list_eq. intros k. destruct (decide (k < S n)%nat) as [Hk|Hk].
  - rewrite ring_lookup by done. unfold char_at, INPUT_BUF. cbn [buf set_buf]. pose proof (Z.mod_pos_bound (i + Z.of_nat k) 128 ltac:(lia)).
    destruct (decide (k = n)) as [->|Hne].
    + rewrite list_lookup_insert_eq by lia. by rewrite lookup_app_r, ring_length, Nat.sub_diag by (rewrite ring_length; lia).
    + rewrite list_lookup_insert_ne, lookup_app_l, ring_lookup; [done|lia|rewrite ring_length; lia|].
      intros E. apply Z2Nat.inj in E; [|lia|lia]. clear -E Hne Hk Hn.
      pose proof (Z.div_mod (i + Z.of_nat n) 128 ltac:(lia)). pose proof (Z.div_mod (i + Z.of_nat k) 128 ltac:(lia)). lia.
  - rewrite !lookup_ge_None_2; [done|rewrite length_app, ring_length; cbn; lia|rewrite ring_length; lia].
Qed.

(** ** Its operations *)

(** The fields the operations leave alone. *)
Definition frame (s s' : cons) : Prop := c_lflag s' = c_lflag s /\ locked s' = locked s /\ panicked s' = panicked s.

Lemma char_last s t l c : rep s t -> line t = l ++ [c] -> char_at (u64 (e s - 1)) s = c.
Proof.
  intros H El. rewrite char_at_u64, (rep_e _ _ H). unfold char_at. rewrite Zminus_mod, u64_mod_ring, <- Zminus_mod.
  change (char_at (r s + Z.of_nat (total t) - 1) s = c).
  assert (Hl : length (line t) = S (length l)) by (rewrite El, length_app; cbn; lia).
  assert (Hlk : (queue t ++ line t) !! (total t - 1)%nat = Some c).
  { unfold total. rewrite lookup_app_r by lia. rewrite Hl, El, lookup_app_r by lia.
    by replace (length (queue t) + S (length l) - 1 - length (queue t) - length l)%nat with 0%nat by lia. }
  rewrite (rep_chars _ _ H), ring_lookup in Hlk by (unfold total; lia). injection Hlk as <-. f_equal. unfold total. lia.
Qed.

Lemma rep_pop s t l c : rep s t -> line t = l ++ [c] -> rep (set_e (u64 (e s - 1)) s) (mkT (queue t) l).
Proof.
  intros H El. assert (Ht : total t = S (total (mkT (queue t) l))) by (unfold total; rewrite El, length_app; cbn; lia).
  destruct H as [H1 H2 H3 H4 H5 H6]. split; cbn [buf r w e set_e queue line]; [done|done|done| |lia|].
  - rewrite H4, Ht. replace (u64 _ - 1) with (u64 (r s + Z.of_nat (S (total (mkT (queue t) l)))) + -1) by lia.
    rewrite u64_add_l. f_equal. lia.
  - change (ring (set_e (u64 (e s - 1)) s)) with (ring s). rewrite <- (ring_take s (r s) (total t)) by lia. rewrite <- H6, El, app_assoc.
    rewrite take_app_length' ; [done|]. unfold total. cbn. by rewrite length_app.
Qed.

Lemma line_empty s t : rep s t -> (e s =? w s) = match line t with [] => true | _ => false end.
Proof.
  intros H. pose proof (rep_fits _ _ H) as Hf. unfold total in Hf. rewrite (rep_e _ _ H), (rep_w _ _ H). unfold total.
  destruct (line t) as [|x l]; cbn [length] in *; [apply Z.eqb_eq; do 2 f_equal; lia|].
  apply Z.eqb_neq. intros E. apply u64_inj in E; lia.
Qed.

Lemma kill_line_run s t fuel :
  rep s t -> tty_ok t -> (length (line t) < fuel)%nat ->
  exists s', kill_line fuel s = Ret tt s' /\ rep s' (mkT (queue t) []) /\ frame s s' /\ woken s' = woken s /\
    out s' = out s ++ concat (replicate (length (line t)) rubout).
Proof.
  destruct t as [q l]. revert s fuel. induction l as [|c l IH] using rev_ind; intros s [|fuel] H Hok Hf; try (cbn in Hf; lia);
    cbn [kill_line]; unfold gets; run_step; unfold id; rewrite (line_empty _ _ H).
  - exists s. cbn. rewrite app_nil_r. done.
  - rewrite (char_last _ _ l c H eq_refl). assert (Hc : c <> 10) by (intros ->; apply Hok; cbn; set_solver).
    rewrite (proj2 (Z.eqb_neq _ _) Hc). cbn [line queue] in *. replace (match l ++ [c] with [] => true | _ => false end) with false by by destruct l.
    cbn [negb andb]. do 2 run_step. rewrite length_app, Nat.add_1_r in *.
    destruct (IH (set_out (out s ++ rubout) (set_e (u64 (e s - 1)) s)) fuel) as (s' & E & Hr & Hfr & Hw & Ho); [| |lia|].
    + by destruct (rep_pop _ _ l c H eq_refl).
    + unfold tty_ok in *. cbn in *. set_solver.
    + exists s'. do 4 (split; [done|]). rewrite Ho. cbn [out set_out replicate concat]. by rewrite <- app_assoc.
Qed.

(** A character that is accepted. *)
Lemma rep_push s t c :
  rep s t -> (total t < 128)%nat -> 0 <= c < 256 ->
  rep (set_e (u64 (e s + 1)) (set_buf (<[Z.to_nat (e s mod INPUT_BUF) := u8 c]> (buf s)) s)) (mkT (queue t) (line t ++ [c])).
Proof.
  intros [H1 H2 H3 H4 H5 H6] Hn Hc. assert (Ht : total (mkT (queue t) (line t ++ [c])) = S (total t)) by (unfold total; cbn; rewrite length_app; cbn; lia).
  split; cbn [buf r w e set_e set_buf queue line]; [by rewrite length_insert|done|done| |lia|].
  - rewrite H4, u64_add_l, Ht. f_equal. lia.
  - rewrite Ht, app_assoc, H6, H4, u64_mod_ring, u8_id by lia.
    change (ring (set_e _ ?x)) with (ring x). by rewrite ring_push.
Qed.

Lemma rep_commit s t : rep s t -> rep (set_w (e s) s) (mkT (queue t ++ line t) []).
Proof.
  intros [H1 H2 H3 H4 H5 H6]. unfold total in *. split; cbn [buf r w e set_w queue line]; unfold total; cbn [queue line length];
    rewrite ?length_app, ?Nat.add_0_r, ?app_nil_r; done.
Qed.

Lemma rep_full s t k : rep s t -> (k <= 128)%nat -> (e s =? u64 (r s + Z.of_nat k)) = (total t =? k)%nat.
Proof.
  intros H Hk. pose proof (rep_fits _ _ H). rewrite (rep_e _ _ H). destruct (Nat.eqb_spec (total t) k) as [->|Hne]; [apply Z.eqb_refl|].
  apply Z.eqb_neq. intros E. apply u64_inj in E; lia.
Qed.

Lemma rep_room s t : rep s t -> (u64 (e s - r s) <? INPUT_BUF) = (total t <? 128)%nat.
Proof.
  intros H. pose proof (rep_fits _ _ H). rewrite (rep_e _ _ H), u64_cancel by lia. unfold INPUT_BUF.
  destruct (Nat.ltb_spec (total t) 128); [apply Z.ltb_lt; lia|apply Z.ltb_ge; lia].
Qed.

(** Fields the ring does not depend on. *)
Lemma rep_same s s' t : buf s' = buf s -> r s' = r s -> w s' = w s -> e s' = e s -> rep s t -> rep s' t.
Proof.
  intros Hb Hr Hw He [H1 H2 H3 H4 H5 H6]. split; rewrite ?Hb, ?Hr, ?Hw, ?He; try done. rewrite H6. unfold ring, char_at. by rewrite Hb.
Qed.

(** ** The interrupt *)

(** What one character does to the machine [s], which holds [t]. *)
Definition typed (s : cons) (t : tty) (c : Z) (s' : cons) : Prop :=
  let t' := tty_char (islbuf s) t c in
  rep s' t' /\ tty_ok t' /\ frame s s' /\ out s' = out s ++ tty_echo (isecho s) t c /\
  woken s' = (if decide (queue t' = queue t) then woken s else S (woken s)).

Lemma tty_char_ok canon t c : tty_ok t -> tty_ok (tty_char canon t c).
Proof.
  intros H. unfold tty_char, tty_ok in *. destruct (c =? 16); [done|]. destruct (c =? 21); [cbn; set_solver|].
  destruct ((c =? 8) || (c =? 127)); [cbn; intros (i & Hi & _)%elem_of_take; by apply H, (list_elem_of_lookup_2 _ i)|].
  destruct (tty_accepts t c); [|done]. cbv zeta. set (c' := if c =? 13 then 10 else c).
  destruct (_ || (total t =? 127)%nat) eqn:E; cbn; [set_solver|].
  assert (c' <> 10) by (intros E'; rewrite E', orb_true_r in E; done). set_solver.
Qed.

Lemma isecho_frame s s' : frame s s' -> isecho s' = isecho s /\ islbuf s' = islbuf s.
Proof. intros (H & _). unfold isecho, islbuf. by rewrite H. Qed.

Lemma total_snoc t c : total (mkT (queue t) (line t ++ [c])) = S (total t).
Proof. unfold total. cbn. rewrite length_app. cbn. lia. Qed.

(** A character that is stored. *)
Lemma store_run s t c prof :
  rep s t -> tty_ok t -> 0 < c < 256 -> c <> 16 -> c <> 21 -> c <> 8 -> c <> 127 ->
  exists s', intr_char prof c s = Ret prof s' /\ typed s t c s'.
Proof.
  intros H Hok Hc H16 H21 H8 H127. pose proof (tty_char_ok (islbuf s) t c Hok) as Hok'. revert Hok'. unfold typed.
  unfold intr_char, tty_char, tty_echo, tty_accepts.
  change (Ctrl 80) with 16. change (Ctrl 85) with 21. change (Ctrl 72) with 8. change (Ctrl 68) with 4.
  rewrite (proj2 (Z.eqb_neq _ _) H16), (proj2 (Z.eqb_neq _ _) H21), (proj2 (Z.eqb_neq _ _) H8), (proj2 (Z.eqb_neq _ _) H127).
  cbn [orb]. unfold gets at 1. run_step. unfold id at 1 2. rewrite (rep_room _ _ H), (proj2 (Z.eqb_neq c 0)) by lia. cbn [negb andb].
  destruct (Nat.ltb_spec (total t) 128) as [Hlt|Hge].
  2: { intros _. exists s. cbn. rewrite app_nil_r, decide_True by done. done. }
  cbn [andb when]. cbv zeta. set (c' := if c =? 13 then 10 else c). assert (Hc' : 0 <= c' < 256) by (subst c'; destruct (c =? 13); lia).
  pose proof (rep_push s t c' H Hlt Hc') as Hp.
  set (s1 := set_e (u64 (e s + 1)) (set_buf (<[Z.to_nat (e s mod INPUT_BUF) := u8 c']> (buf s)) s)) in *.
  set (s2 := set_out (out s ++ if isecho s then uart_putchar c' else []) s1).
  assert (H2 : rep s2 (mkT (queue t) (line t ++ [c']))) by (by apply (rep_same s1)).
  assert (E2 : when (isecho s) (consputc c') s1 = Ret tt s2).
  { unfold s2, consputc. rewrite (proj2 (Z.eqb_neq c' BACKSPACE)) by (unfold BACKSPACE; lia).
    destruct (isecho s); cbn; [done|]. by rewrite app_nil_r. }
  unfold id. rewrite (bind_run _ _ s tt (if negb (islbuf s) || (c' =? 10) || (c' =? 4) || (total t =? 127)%nat
    then set_woken (S (woken s)) (set_w (e s2) s2) else s2)).
  2: { run_step. fold s1. rewrite (bind_run _ _ _ _ _ E2). unfold gets. run_step. unfold id.
       change (islbuf s2) with (islbuf s). change INPUT_BUF with (Z.of_nat 128). rewrite (rep_full _ _ 128 H2 (le_n _)), total_snoc.
       change (S (total t) =? 128)%nat with (total t =? 127)%nat. by destruct (_ || _). }
  intros Hok'. eexists. split; [reflexivity|]. split; [|split; [exact Hok'|]].
  - destruct (_ || _); [|done]. by eapply (rep_same (set_w (e s2) s2)), (rep_commit _ _ H2).
  - destruct (_ || _); (split; [done|]); (split; [done|]); cbn [queue].
    + rewrite decide_False; [done|]. intros E%(f_equal length). rewrite !length_app in E. cbn in E. lia.
    + by rewrite decide_True.
Qed.

(** Backspace. *)
Lemma rubout_run s t c prof :
  rep s t -> tty_ok t -> c = 8 \/ c = 127 -> exists s', intr_char prof c s = Ret prof s' /\ typed s t c s'.
Proof.
  intros H Hok Hc. pose proof (tty_char_ok (islbuf s) t c Hok) as Hok'. unfold typed.
  assert (Et : tty_char (islbuf s) t c = mkT (queue t) (take (length (line t) - 1) (line t))) by (by destruct Hc as [-> | ->]).
  assert (Eo : tty_echo (isecho s) t c = match line t with [] => [] | _ => rubout end) by (by destruct Hc as [-> | ->]).
  assert (Ei : intr_char prof c s = (when (negb (e s =? w s)) (modify (fun s => set_e (u64 (e s - 1)) s) ;; consputc BACKSPACE) ;; ret prof) s)
    by (by destruct Hc as [-> | ->]).
  rewrite Et in *. rewrite Eo, Ei, (line_empty _ _ H). cbn [queue]. rewrite decide_True by done.
  destruct (decide (line t = [])) as [El|(l & c' & El)%List.exists_last].
  - rewrite El in *. exists s. cbn in *. rewrite app_nil_r. split; [done|]. split; [|done].
    destruct t; cbn in *. by subst.
  - pose proof (rep_pop _ _ _ _ H El) as Hp.
    assert (Ht : take (length (line t) - 1) (line t) = l).
    { rewrite El, length_app, Nat.add_sub. by apply take_app_length. }
    rewrite Ht in *. destruct (line t) as [|x l'] eqn:Ex; [by destruct l|]. cbn [negb when].
    exists (set_out (out s ++ rubout) (set_e (u64 (e s - 1)) s)). split; [done|]. split; [by eapply rep_same, Hp|done].
Qed.

Lemma intr_char_run s t c prof :
  rep s t -> tty_ok t -> 0 <= c < 256 -> exists p s', intr_char prof c s = Ret p s' /\ typed s t c s'.
Proof.
  intros H Hok Hc. pose proof (tty_char_ok (islbuf s) t c Hok) as Hok'.
  destruct (decide (c = 16)) as [->|H16].
  { exists true, s. split; [done|]. unfold typed, tty_echo. cbn. rewrite app_nil_r, decide_True by done. done. }
  destruct (decide (c = 21)) as [->|H21].
  { destruct (kill_line_run s t 129 H Hok) as (s' & E & Hr & Hf & Hw & Ho).
    { pose proof (rep_fits _ _ H). unfold total in *. lia. }
    exists prof, s'. unfold intr_char. change (21 =? Ctrl 80) with false. change (21 =? Ctrl 85) with true. cbv iota.
    rewrite (bind_run _ _ _ _ _ E). split; [done|]. unfold typed. cbn. rewrite decide_True by done. done. }
  destruct (decide (c = 8 \/ c = 127)) as [Hb|Hb].
  { exists prof. by apply rubout_run. }
  destruct (decide (c = 0)) as [->|H0].
  { exists prof, s. split; [done|]. unfold typed, tty_echo. cbn. rewrite app_nil_r, decide_True by done. done. }
  destruct (store_run s t c prof H Hok) as (s' & ? & ?); try lia. by exists prof, s'.
Qed.

Lemma tty_chars_run canon echo : forall cs s t prof,
  rep s t -> tty_ok t -> Forall (fun c => 0 <= c < 256) cs -> islbuf s = canon -> isecho s = echo ->
  exists p s', intr_chars prof cs s = Ret p s' /\ rep s' (foldl (tty_char canon) t cs) /\
    tty_ok (foldl (tty_char canon) t cs) /\ frame s s'.
Proof.
  induction cs as [|c cs IH]; intros s t prof H Hok Hcs Hc He; cbn; [by exists prof, s|].
  apply Forall_cons in Hcs as [Hb Hcs]. destruct (intr_char_run s t c prof H Hok Hb) as (p & s1 & E1 & Hr1 & Hok1 & Hf1 & _).
  rewrite (bind_run _ _ _ _ _ E1). destruct (isecho_frame _ _ Hf1) as [He1 Hc1]. rewrite Hc in *.
  destruct (IH s1 _ p Hr1 Hok1 Hcs) as (p' & s2 & E2 & Hr2 & Hok2 & Hf2); [congruence|congruence|].
  exists p', s2. split; [done|]. split; [done|]. split; [done|]. destruct Hf1 as (? & ? & ?), Hf2 as (? & ? & ?). split_and!; congruence.
Qed.

(** ** Reading *)

Lemma rep_take s q c l : rep s (mkT (c :: q) l) ->
  (r s =? w s) = false /\ char_at (r s) s = c /\ rep (set_r (u64 (r s + 1)) s) (mkT q l) /\ u64 (u64 (r s + 1) - 1) = r s.
Proof.
  intros [H1 H2 H3 H4 H5 H6]. unfold total in *. cbn [queue line length Nat.add] in *. rewrite ring_cons in H6. injection H6 as Hc H6.
  split_and!; [|done| |].
  - apply Z.eqb_neq. rewrite H3. intros E. assert (E' : u64 (r s + 0) = u64 (r s + Z.of_nat (S (length q)))) by (rewrite Z.add_0_r, u64_id; lia).
    apply u64_inj in E'; lia.
  - split; cbn [r w e buf set_r queue line]; [done|apply wrap_range; lia| | |unfold total; cbn; lia|].
    + rewrite H3, u64_add_l. f_equal. lia.
    + rewrite H4, u64_add_l. unfold total. cbn [queue line]. f_equal. lia.
    + change (ring (set_r ?x s)) with (ring s). by rewrite ring_u64, H6.
  - replace (u64 (r s + 1) - 1) with (u64 (r s + 1) + -1) by lia. rewrite u64_add_l. replace (r s + 1 + -1) with (r s) by lia. by apply u64_id.
Qed.

Lemma rep_none s l : rep s (mkT [] l) -> (r s =? w s) = true.
Proof. intros H. rewrite (rep_w _ _ H). cbn. rewrite Z.add_0_r, u64_id by apply H. apply Z.eqb_refl. Qed.

Definition read_frame (s s' : cons) : Prop :=
  c_lflag s' = c_lflag s /\ locked s' = false /\ panicked s' = panicked s /\ out s' = out s /\ woken s' = woken s.

Lemma console_read_loop_run killed target n : forall s q l dst,
  rep s (mkT q l) -> locked s = true ->
  exists s', read_loop killed target dst n s = Ret (tty_read (islbuf s) killed target dst n q).1 s' /\
    rep s' (mkT (tty_read (islbuf s) killed target dst n q).2 l) /\ read_frame s s'.
Proof.
  induction n as [|n IH]; intros s q l dst H Hl; cbn [read_loop tty_read].
  - exists (set_lock false s). unfold release, bind. rewrite Hl. cbn. rewrite Z.sub_0_r. split; [done|]. split; [|done]. by eapply rep_same, H.
  - assert (Hrel : forall s0, locked s0 = true -> release s0 = Ret tt (set_lock false s0)) by (intros s0 H0; unfold release; by rewrite H0).
    unfold gets. run_step. unfold id. destruct q as [|c q].
    + rewrite (rep_none _ _ H). exists (set_lock false s). destruct killed; rewrite (bind_run _ _ _ _ _ (Hrel s Hl));
        (split; [done|]); (split; [by eapply rep_same, H|done]).
    + destruct (rep_take _ _ _ _ H) as (-> & -> & Hr & Hb). run_step. pose proof (Hrel (set_r (u64 (r s + 1)) s) Hl) as Hrel1.
      destruct (negb (islbuf s)) eqn:Ecan; [|change (Ctrl 68) with 4; destruct (Z.eqb_spec c 4) as [->|_]; [|destruct (Z.eqb_spec c 10) as [->|_]]].
      * exists (set_lock false (set_r (u64 (r s + 1)) s)). rewrite (bind_run _ _ _ _ _ Hrel1). split; [done|]. split; [by eapply rep_same, Hr|done].
      * cbn [fst snd]. destruct (Z.of_nat (S n) <? target); cbn [when].
        -- run_step. cbn [r set_r]. rewrite Hb. exists (set_lock false s). rewrite (bind_run _ _ _ tt (set_lock false s)).
           2: { unfold release. cbn. rewrite Hl. by destruct s. }
           split; [done|]. split; [by eapply rep_same, H|done].
        -- run_step. exists (set_lock false (set_r (u64 (r s + 1)) s)). rewrite (bind_run _ _ _ _ _ Hrel1). split; [done|].
           split; [by eapply rep_same, Hr|done].
      * exists (set_lock false (set_r (u64 (r s + 1)) s)). rewrite (bind_run _ _ _ _ _ Hrel1). split; [done|]. split; [by eapply rep_same, Hr|done].
      * destruct (IH _ q l (dst ++ [c]) Hr Hl) as (s' & E & Hr' & Hf'). change (islbuf (set_r _ s)) with (islbuf s) in *. by exists s'.
Qed.

Lemma console_read_resume_run killed target n dst s t :
  rep s t -> locked s = false ->
  exists s', console_read_resume killed target dst n s = Ret (tty_read (islbuf s) killed target dst n (queue t)).1 s' /\
    rep s' (mkT (tty_read (islbuf s) killed target dst n (queue t)).2 (line t)) /\ read_frame s s'.
Proof.
  intros H Hl. unfold console_read_resume. rewrite (bind_run _ _ s tt (set_lock true s)) by (unfold acquire; by rewrite Hl).
  destruct t as [q l]. assert (H' : rep (set_lock true s) (mkT q l)) by (by eapply rep_same, H).
  exact (console_read_loop_run killed target n _ q l dst H' eq_refl).
Qed.

Lemma console_intr1_run s t cs :
  rep s t -> tty_ok t -> locked s = false -> panicked s < 0 -> Forall (fun c => 0 <= c < 256) cs ->
  exists p s', console_intr1 cs s = Ret p s' /\ rep s' (foldl (tty_char (islbuf s)) t cs) /\
    tty_ok (foldl (tty_char (islbuf s)) t cs) /\ frame s s'.
Proof.
  intros H Hok Hl Hp Hcs. unfold console_intr1. rewrite (bind_run _ _ s tt (set_lock true s)) by (unfold acquire; by rewrite Hl).
  unfold gets. run_step. unfold id. cbn [panicked set_lock]. rewrite (proj2 (Z.leb_gt _ _)) by lia.
  destruct (tty_chars_run (islbuf s) (isecho s) cs (set_lock true s) t false) as (p & s1 & E1 & Hr & Hok1 & Hf); try done.
  { by eapply rep_same, H. }
  rewrite (bind_run _ _ _ _ _ E1). destruct Hf as (? & Hl1 & ?). exists p, (set_lock false s1).
  rewrite (bind_run _ _ _ tt (set_lock false s1)) by (unfold release; by rewrite Hl1). split; [done|].
  split; [by eapply rep_same, Hr|]. done.
Qed.

(** C22: the console is a queue of committed characters and a line being
    edited, whatever its three 64-bit indices are, their wrap-around included.
    An interrupt that delivers any characters edits the line and commits it as
    [tty_char] says (newline, end-of-file and a full buffer commit; kill and
    backspace erase the line's own characters only), with the echo and the
    wakeup of the readers it owes; a read, and its continuation after a sleep,
    takes from the queue what [tty_read] says, an end-of-file mark staying for
    the next read when bytes were delivered before it.  Neither ever runs out
    of bounds or leaves the lock taken. *)
Theorem console_refines s t
    (Hr : rep s t) (Hok : tty_ok t) (Hl : locked s = false) (Hp : panicked s < 0) :
  (forall cs, Forall (fun c => 0 <= c < 256) cs ->
     exists p s', console_intr1 cs s = Ret p s' /\ rep s' (foldl (tty_char (islbuf s)) t cs) /\
       tty_ok (foldl (tty_char (islbuf s)) t cs) /\ frame s s') /\
  (forall prof c, 0 <= c < 256 -> exists p s', intr_char prof c s = Ret p s' /\ typed s t c s') /\
  (forall killed target dst n, exists s',
     console_read_resume killed target dst n s = Ret (tty_read (islbuf s) killed target dst n (queue t)).1 s' /\
     rep s' (mkT (tty_read (islbuf s) killed target dst n (queue t)).2 (line t)) /\ read_frame s s') /\
  (forall killed n, console_read killed n s = console_read_resume killed (Z.of_nat n) [] n s).
Proof.
  split; [intros cs Hcs; by apply console_intr1_run|]. split; [intros prof c Hc; by apply intr_char_run|].
  split; [|done]. intros killed target dst n. by apply console_read_resume_run.
Qed.

(** ** A line from the keyboard to the reader *)

Lemma tty_chars_plain cs : forall l,
  Forall (fun c => 32 <= c < 127) cs -> (length l + length cs < 127)%nat ->
  foldl (tty_char true) (mkT [] l) cs = mkT [] (l ++ cs).
Proof.
  induction cs as [|c cs IH]; intros l Hcs Hl; cbn [foldl]; [by rewrite app_nil_r|]. apply Forall_cons in Hcs as [Hc Hcs].
  cbn [length] in Hl. replace (tty_char true (mkT [] l) c) with (mkT [] (l ++ [c])).
  - rewrite IH; [by rewrite <- app_assoc|done|rewrite length_app; cbn; lia].
  - unfold tty_char, tty_accepts, total. cbn [queue line length Nat.add negb orb].
    repeat rewrite (proj2 (Z.eqb_neq c _)) by lia. cbn [orb andb negb]. rewrite (proj2 (Nat.ltb_lt _ _)), (proj2 (Nat.eqb_neq _ _)) by lia.
    repeat rewrite (proj2 (Z.eqb_neq c _)) by lia. done.
Qed.

Lemma tty_read_line killed cs : forall dst n k q,
  Forall (fun c => 32 <= c < 127) cs -> (length cs < n)%nat -> Z.of_nat n = k - Z.of_nat (length dst) ->
  tty_read true killed k dst n (cs ++ 10 :: q) = (RDone (Z.of_nat (length dst + length cs + 1)) (dst ++ cs ++ [10]), q).
Proof.
  induction cs as [|c cs IH]; intros dst n k q Hcs Hn Hk; destruct n as [|n]; try (cbn in Hn; lia); cbn [tty_read app negb].
  - change (10 =? 4) with false. change (10 =? 10) with true. cbv iota. do 2 f_equal. cbn [length]. lia.
  - apply Forall_cons in Hcs as [Hc Hcs]. repeat rewrite (proj2 (Z.eqb_neq c _)) by lia. cbn [length] in Hn.
    rewrite IH; [|done|lia|rewrite length_app; cbn; lia]. rewrite length_app, <- app_assoc. cbn [length app]. do 2 f_equal. lia.
Qed.

(** A line of printable characters typed at an idle terminal in line mode
    and ended with Enter reaches the reader whole and in order, with the
    newline, and leaves the terminal idle. *)
Theorem line_delivered s cs n killed
    (Hr : rep s (mkT [] [])) (Hl : locked s = false) (Hp : panicked s < 0) (Hm : islbuf s = true)
    (Hcs : Forall (fun c => 32 <= c < 127) cs) (Hlen : (length cs < 127)%nat) (Hn : (length cs < n)%nat) :
  exists p s1 s2, console_intr1 (cs ++ [13]) s = Ret p s1 /\
    console_read killed n s1 = Ret (RDone (Z.of_nat (length cs + 1)) (cs ++ [10])) s2 /\ rep s2 (mkT [] []).
Proof.
  destruct (console_intr1_run s (mkT [] []) (cs ++ [13]) Hr) as (p & s1 & E1 & Hr1 & _ & Hf1); [unfold tty_ok; set_solver|done|done| |].
  { apply Forall_app. split; [eapply Forall_impl; [done|]; cbn; lia|by apply Forall_singleton]. }
  assert (Et : foldl (tty_char (islbuf s)) (mkT [] []) (cs ++ [13]) = mkT (cs ++ [10]) []).
  { rewrite Hm, foldl_app, tty_chars_plain by (done || cbn; lia). cbn [foldl app]. unfold tty_char, tty_accepts, total.
    cbn [queue line length Nat.add]. rewrite (proj2 (Nat.ltb_lt _ _)) by lia. done. }
  rewrite Et in Hr1. destruct (isecho_frame _ _ Hf1) as [_ Hm1]. destruct Hf1 as (_ & Hl1 & _).
  destruct (console_read_resume_run killed (Z.of_nat n) n [] s1 _ Hr1 ltac:(congruence)) as (s2 & E2 & Hr2 & _).
  rewrite Hm1, Hm in E2, Hr2. cbn [queue line] in E2, Hr2. rewrite (tty_read_line killed cs [] n _ []) in E2, Hr2 by (done || cbn; lia).
  exists p, s1, s2. done.
Qed.

(** * Numbers *)

Definition digit_value (c : Z) : Z := if c <=? 57 then c - 48 else c - 87.

Definition number (base : Z) (l : list Z) : Z := foldl (fun a c => a * base + digit_value c) 0 l.

Fixpoint strip (l : list Z) : list Z :=
  match l with
  | c :: l' => if c =? 32 then strip l' else l
  | [] => []
  end.

(** What a reader makes of a printed number. *)
Definition parse (base : Z) (l : list Z) : Z :=
  match l with
  | 45 :: l' => - number base (strip l')
  | _ => number base (strip l)
  end.

Lemma digit_ok d : 0 <= d < 16 -> exists c, digit !! Z.to_nat d = Some c /\ digit_value c = d /\ 48 <= c.
Proof.
  intros H. assert (Hd : d ∈ seqZ 0 16) by (apply elem_of_seqZ; lia). change (seqZ 0 16) with [0;1;2;3;4;5;6;7;8;9;10;11;12;13;14;15] in Hd.
  repeat (apply elem_of_cons in Hd as [->|Hd]; [eexists; split; [reflexivity|by vm_compute]|]). by apply elem_of_nil in Hd.
Qed.

Lemma digits_number fuel t base :
  2 <= base <= 16 -> 0 <= t < base ^ Z.of_nat fuel -> (0 < fuel)%nat ->
  number base (rev (digits fuel t base)) = t /\ (length (digits fuel t base) <= fuel)%nat /\ Forall (fun c => 48 <= c) (digits fuel t base).
Proof.
  intros Hb. revert t. induction fuel as [|f IH]; intros t Ht Hf; [lia|]. cbn [digits].
  pose proof (Z.mod_pos_bound t base ltac:(lia)) as Hm. destruct (digit_ok (t mod base) ltac:(lia)) as (c & -> & Hv & Hc). change (default 0 (Some c)) with c.
  pose proof (Z.div_mod t base ltac:(lia)) as Hdm. unfold number. cbn [rev]. rewrite foldl_app. cbn [foldl]. rewrite Hv.
  destruct (Z.eqb_spec (t / base) 0) as [Hz|Hz]; [cbn; split_and!; [lia|lia|by apply Forall_singleton]|].
  assert (0 <= t / base < base ^ Z.of_nat f).
  { split; [apply Z.div_pos; lia|]. apply Z.div_lt_upper_bound; [lia|]. rewrite Nat2Z.inj_succ, Z.pow_succ_r in Ht by lia. lia. }
  destruct f as [|f]; [cbn in *; lia|]. destruct (IH (t / base)) as (H1 & H2 & H3); [done|lia|].
  unfold number in H1. rewrite H1. split_and!; [lia|cbn [length] in *; lia|by constructor].
Qed.

Lemma number_zeros base k l : number base (replicate k 48 ++ l) = number base l.
Proof. unfold number. induction k as [|k IH]; [done|]. cbn. exact IH. Qed.

Lemma strip_pad k l : Forall (fun c => 48 <= c) l -> strip (replicate k 32 ++ l) = l.
Proof.
  intros Hl. induction k as [|k IH]; [|done]. cbn. destruct l as [|c l]; [done|]. cbn. apply Forall_cons in Hl as [Hc _].
  by rewrite (proj2 (Z.eqb_neq _ _)) by lia.
Qed.

Lemma rev_replicate {A} k (x : A) : rev (replicate k x) = replicate k x.
Proof. induction k as [|k IH]; [done|]. cbn [replicate rev]. by rewrite IH, <- replicate_S_end. Qed.

(** The digits, with their padding, read back. *)
Lemma padded_number base ds zero k v :
  number base (rev ds) = v -> Forall (fun c => 48 <= c) ds ->
  let pad := if zero =? 1 then replicate k 48 else if zero =? -1 then replicate k 32 else [] in
  number base (strip (rev (ds ++ pad))) = v /\ head0 (rev (ds ++ pad)) <> 45.
Proof.
  intros Hv Hd pad. assert (Hd' : Forall (fun c => 48 <= c) (rev ds)) by (by apply Forall_rev).
  rewrite rev_app_distr. assert (Hh : forall l, Forall (fun c => 48 <= c) l -> head0 l <> 45).
  { intros [|c l] H; [done|]. apply Forall_cons in H as [? _]. cbn. lia. }
  unfold pad. repeat case_match.
  - rewrite rev_replicate. assert (Hz : Forall (fun c => 48 <= c) (replicate k 48 ++ rev ds)).
    { apply Forall_app. split; [apply Forall_replicate; lia|done]. }
    split; [|by apply Hh]. pose proof (strip_pad 0 _ Hz) as Hs. cbn [replicate app] in Hs. by rewrite Hs, number_zeros.
  - rewrite rev_replicate, strip_pad by done. split; [done|]. destruct k; [by apply Hh|done].
  - cbn [rev app]. pose proof (strip_pad 0 _ Hd') as Hs. cbn [replicate app] in Hs. rewrite Hs. split; [done|by apply Hh].
Qed.

Lemma parse_nonneg base l : head0 l <> 45 -> parse base l = number base (strip l).
Proof. intros H. unfold parse. repeat case_match; try done; cbn in H; congruence. Qed.

(** C35: what [printint] prints of any 64-bit number, the most negative one
    included, in any base up to 16 and with either padding, reads back as the
    number, and the characters fit its 64-byte buffer when the field does. *)
Theorem printint_roundtrip x base sign zero col
    (Hx : - 2 ^ 63 <= x < 2 ^ 63) (Hb : 2 <= base <= 16) (Hc : col <= 64) :
  exists l, printint x base sign zero col = Some l /\ parse base l = (if sign then x else u64 x).
Proof.
  unfold printint. set (m := sign && (x <? 0)). set (t := u64 (if m then s64 (- x) else x)).
  assert (Ht : 0 <= t < 2 ^ 64) by (apply wrap_range; lia).
  assert (Hp : 2 ^ 64 <= base ^ Z.of_nat 64) by (apply Z.pow_le_mono_l; lia).
  destruct (digits_number 64 t base Hb ltac:(lia) ltac:(lia)) as (H1 & H2 & H3).
  destruct (padded_number base _ zero (Z.to_nat col - length (digits 64 t base)) t H1 H3) as [Hn Hh].
  set (pad := if zero =? 1 then _ else _) in *.
  rewrite (proj2 (Nat.leb_le _ _)).
  2: { rewrite length_app. subst pad. repeat case_match; rewrite ?length_replicate; cbn [length]; lia. }
  eexists. split; [reflexivity|]. assert (Hv : t = if m then - x else if sign then x else u64 x).
  { subst t m. unfold u64, s64, swrap, wrap. destruct sign; cbn [andb]; [|done]. destruct (Z.ltb_spec x 0) as [Hneg|Hpos].
    - destruct (decide (x = - 2 ^ 63)) as [->|]; [done|]. rewrite (Z.mod_small (- x + _)) by lia.
      rewrite Z.mod_small; lia.
    - apply Z.mod_small. lia. }
  destruct m eqn:Em; cbn [app].
  - cbn [parse]. rewrite Hn, Hv. subst m. apply andb_true_iff in Em as [-> _]. lia.
  - by rewrite parse_nonneg, Hn.
Qed.

(** * Formats *)

(** An operation that always ends. *)
Definition ends {A} (m : M cons A) : Prop := forall s, m s <> NoFuel.

Lemma ends_ret {A} (a : A) : ends (ret a).
Proof. done. Qed.

Lemma ends_panic {A} : ends (@panic cons A).
Proof. done. Qed.

Lemma ends_bind {A B} (m : M cons A) (k : A -> M cons B) : ends m -> (forall a, ends (k a)) -> ends (bind m k).
Proof. intros Hm Hk s. unfold bind. specialize (Hm s). destruct (m s); [apply Hk|done|done|done]. Qed.

Lemma ends_puts l : ends (puts l).
Proof. unfold puts. induction l as [|c l IH]; cbn [for_each]; [done|]. by apply ends_bind. Qed.

Create HintDb ends.
#[local] Hint Resolve ends_ret ends_panic ends_bind ends_puts : ends.

Lemma ends_put_int x base sign zero col : ends (put_int x base sign zero col).
Proof. unfold put_int. destruct (printint _ _ _ _ _); auto with ends. Qed.
#[local] Hint Resolve ends_put_int : ends.

Lemma ends_putch c : ends (putch c).
Proof. done. Qed.

Lemma ends_when b m : ends m -> ends (when b m).
Proof. by destruct b. Qed.
#[local] Hint Resolve ends_putch ends_when : ends.

Lemma ends_convert c z n l args : ends (convert c z n l args).
Proof. unfold convert. repeat case_match; auto 8 with ends. Qed.

Lemma width_shorter l : forall n, (length (width n l).2 <= length l)%nat.
Proof. induction l as [|c l IH]; intros n; cbn; [done|]. case_match; [|done]. specialize (IH (s32 (n * 10 + (c - 48) mod 10))). lia. Qed.

Lemma ells_shorter l : forall k, (length (ells k l).2 <= length l)%nat.
Proof. induction l as [|c l IH]; intros k; cbn; [done|]. case_match; [|done]. specialize (IH (k + 1)). lia. Qed.

Lemma fmt_loop_ends fuel : forall fmt args, (length fmt < fuel)%nat -> ends (fmt_loop fuel fmt args).
Proof.
  induction fuel as [|f IH]; intros fmt args Hf; [lia|]. cbn [fmt_loop]. destruct fmt as [|c t]; [apply ends_ret|]. cbn [length] in Hf.
  destruct (negb (c =? 37)); [apply ends_bind; [done|intros _; apply IH; lia]|].
  assert (Ht : forall z t1, (if head0 t =? 48 then (1, tail t) else if head0 t =? 45 then (-1, tail t) else (0, t)) = (z, t1) -> (length t1 <= length t)%nat).
  { intros z t1. destruct t as [|d t]; cbn; repeat case_match; intros [= <- <-]; cbn; lia. }
  destruct (if head0 t =? 48 then _ else _) as [z t1]. specialize (Ht z t1 eq_refl).
  pose proof (width_shorter t1 0) as Hw. destruct (width 0 t1) as [n t2]. cbn [snd] in Hw.
  pose proof (ells_shorter t2 0) as He. destruct (ells 0 t2) as [l t3]. cbn [snd] in He.
  destruct t3 as [|d t4]; [apply ends_ret|]. cbn [length] in He. apply ends_bind; [apply ends_convert|]. intros args'. apply IH. lia.
Qed.

(** On a kernel that has not panicked, or on the CPU that did, the
    formatter ends for every format string, unterminated conversions and
    unknown letters included. *)
Theorem vprintfmt_ends cpuid fmt args s (Hp : panicked s < 0 \/ panicked s = cpuid) :
  vprintfmt cpuid fmt args s <> NoFuel.
Proof.
  unfold vprintfmt, gets. run_step. unfold id.
  assert (((0 <=? panicked s) && negb (panicked s =? cpuid)) = false) as ->.
  { destruct Hp as [Hp | ->]; [by rewrite (proj2 (Z.leb_gt _ _)) by lia|]. by rewrite Z.eqb_refl, andb_false_r. }
  apply fmt_loop_ends. lia.
Qed.

(** [%ld], which C reads as a 64-bit long, prints the low 32 bits. *)
Theorem ld_is_truncated cpuid v s :
  panicked s < 0 -> vprintfmt cpuid [37; 108; 100] [AInt v] s = vprintfmt cpuid [37; 100] [AInt (s32 v)] s.
Proof.
  intros Hp. unfold vprintfmt, gets. do 2 run_step. unfold id. rewrite (proj2 (Z.leb_gt _ _)) by lia. cbn [andb].
  cbn. change (convert 100 0 0 1 [AInt v]) with (put_int (s32 v) 10 true 0 0 ;; ret (@nil arg)).
  change (convert 100 0 0 0 [AInt (s32 v)]) with (put_int (s32 (s32 v)) 10 true 0 0 ;; ret (@nil arg)).
  assert (s32 (s32 v) = s32 v) as ->; [|done]. apply s32_id. unfold s32, swrap.
  pose proof (Z.mod_pos_bound (v + 2 ^ (32 - 1)) (2 ^ 32) ltac:(lia)). cbn in *. lia.
Qed.

(** * Concrete runs *)

(** An idle terminal whose indices are about to wrap around. *)
Definition idle : cons := mkC (replicate 128 0) (2 ^ 64 - 2) (2 ^ 64 - 2) (2 ^ 64 - 2) (ICANON + ECHO) false (-1) [] 0.

Lemma idle_rep : rep idle (mkT [] []).
Proof. split; [done|cbn; lia|by vm_compute|by vm_compute|cbn; lia|done]. Qed.

Lemma console_refines_witness :
  exists p s', console_intr1 [97; 98; 8; 10] idle = Ret p s' /\ rep s' (mkT [97; 10] []) /\ frame idle s'.
Proof.
  destruct (proj1 (console_refines idle (mkT [] []) idle_rep ltac:(unfold tty_ok; cbn; apply not_elem_of_nil) eq_refl eq_refl) [97; 98; 8; 10])
    as (p & s' & E & Hr & _ & Hf); [repeat constructor; lia|].
  exists p, s'. split; [exact E|]. split; [exact Hr|exact Hf].
Defined.

Lemma line_delivered_witness :
  exists p s1 s2, console_intr1 [108; 115; 13] idle = Ret p s1 /\
    console_read false 10 s1 = Ret (RDone 3 [108; 115; 10]) s2 /\ rep s2 (mkT [] []).
Proof. apply (line_delivered idle [108; 115] 10 false); [apply idle_rep|done|done|done|repeat constructor; lia|cbn; lia|cbn; lia]. Defined.

Lemma printint_roundtrip_witness :
  exists l, printint (- 2 ^ 63) 10 true 0 0 = Some l /\ parse 10 l = - 2 ^ 63.
Proof. apply (printint_roundtrip (- 2 ^ 63) 10 true 0 0); lia. Defined.

Lemma vprintfmt_ends_witness : vprintfmt 0 [37; 48; 49; 50] [] idle <> NoFuel.
Proof. apply vprintfmt_ends. left. done. Defined.

End Console.
