(* ===== verification/File.v ===== *)
(** Open files: the file table and the descriptors of kern/file.c and
    kern/sysfile.c, [pipealloc] of kern/pipe.c, and what fork, exit (kern/proc.c)
    and execve (kern/exec.c) do to descriptors.

    A [struct file *] is an index of [ftable.file], NULL is [None].  The state
    holds the table and, for every process, its [ofile] and [fdflag]; an
    operation runs as a whole for the process [cur], whose system call
    arguments it gets.  What [fileclose] does with the last reference (close an
    end of a pipe, put an inode within a transaction) is the business of other
    components: it is recorded in [closed].  A NULL pointer that is followed,
    and an index outside [ofile], end with [Panic]. *)

From stdpp Require Import base list.
From Stdlib Require Import ZArith Lia Bool.
From S2P Require Import Prelude.

Module File.

Definition NFILE : nat := 512.
Definition NOFILE : Z := 16.
Definition O_ACCMODE : Z := 0x200003.
Definition O_RDONLY : Z := 0.
Definition O_WRONLY : Z := 1.
Definition O_RDWR : Z := 2.
Definition O_APPEND : Z := 0x400.
Definition O_CLOEXEC : Z := 0x80000.
(** O_CLOEXEC, O_DIRECT and O_NONBLOCK *)
Definition PIPE2_FLAGS : Z := 0x90800.
(** O_APPEND, O_ASYNC, O_DIRECT, O_DSYNC, O_NOATIME, O_NONBLOCK and O_SYNC *)
Definition FILE_STATUS_FLAGS : Z := 0x153c00.
Definition FD_CLOEXEC : Z := 1.

Definition FILE_READABLE (flags : Z) : bool := (Z.land flags O_ACCMODE =? O_RDWR) || (Z.land flags O_ACCMODE =? O_RDONLY).
Definition FILE_WRITABLE (flags : Z) : bool := (Z.land flags O_ACCMODE =? O_RDWR) || (Z.land flags O_ACCMODE =? O_WRONLY).

Inductive ftype : Type := FD_NONE | FD_PIPE | FD_INODE.

Record file : Type := mkF {
  type : ftype;
  ref : Z;
  pipe : nat;
  ip : nat;
  off : Z;
  flags : Z;
  readable : bool;
  writable : bool
}.

Record fproc : Type := mkP { ofile : list (option nat); fdflag : Z }.

Inductive event : Type :=
  | ClosePipe (p : nat) (w : bool)
  | PutInode (i : nat).

Record fstate : Type := mkS {
  ftable : list file;
  ft_lock : bool;
  procs : list fproc;
  closed : list event
}.

Definition set_ftable (l : list file) (s : fstate) : fstate := mkS l (ft_lock s) (procs s) (closed s).
Definition set_ft_lock (b : bool) (s : fstate) : fstate := mkS (ftable s) b (procs s) (closed s).
Definition set_procs (l : list fproc) (s : fstate) : fstate := mkS (ftable s) (ft_lock s) l (closed s).

Definition set_ref (r : Z) (f : file) : file := mkF (type f) r (pipe f) (ip f) (off f) (flags f) (readable f) (writable f).
Definition set_off (o : Z) (f : file) : file := mkF (type f) (ref f) (pipe f) (ip f) o (flags f) (readable f) (writable f).
Definition set_flags (g : Z) (f : file) : file := mkF (type f) (ref f) (pipe f) (ip f) (off f) g (readable f) (writable f).
Definition set_type (t : ftype) (f : file) : file := mkF t (ref f) (pipe f) (ip f) (off f) (flags f) (readable f) (writable f).

Definition acquire : M fstate unit := fun s => if ft_lock s then Block s else Ret tt (set_ft_lock true s).
Definition release : M fstate unit := fun s => if ft_lock s then Ret tt (set_ft_lock false s) else Panic s.
Definition record (e : event) : M fstate unit := modify (fun s => mkS (ftable s) (ft_lock s) (procs s) (closed s ++ [e])).

Definition getf (f : nat) : M fstate file := fun s => match ftable s !! f with Some x => Ret x s | None => Panic s end.
Definition updf (f : nat) (g : file -> file) : M fstate unit := modify (fun s => set_ftable (alter g f (ftable s)) s).

(** * The file table *)

Fixpoint find_free (l : list file) (k : nat) : option nat :=
  match l with
  | [] => None
  | f :: l' => if ref f =? 0 then Some k else find_free l' (S k)
  end.

Definition filealloc : M fstate (option nat) :=
  acquire ;;
  let* l := gets ftable in
  match find_free l 0 with
  | Some f => updf f (set_ref 1) ;; release ;; ret (Some f)
  | None => release ;; ret None
  end.

Definition filedup (f : nat) : M fstate nat :=
  acquire ;;
  let* x := getf f in
  if ref x <? 1 then panic else
  updf f (set_ref (s32 (ref x + 1))) ;;
  release ;;
  ret f.

Definition fileclose (f : nat) : M fstate unit :=
  acquire ;;
  let* x := getf f in
  if ref x <? 1 then panic else
  updf f (set_ref (ref x - 1)) ;;
  if 0 <? ref x - 1 then release else
  updf f (fun x => set_type FD_NONE (set_ref 0 x)) ;;
  release ;;
  match type x with
  | FD_PIPE => record (ClosePipe (pipe x) (writable x))
  | FD_INODE => record (PutInode (ip x))
  | FD_NONE => ret tt
  end.

(** * Descriptors of a process *)

Section Calls.
Context (cur : nat).

Definition getp : M fstate fproc := fun s => match procs s !! cur with Some p => Ret p s | None => Panic s end.
Definition updp (g : fproc -> fproc) : M fstate unit := modify (fun s => set_procs (alter g cur (procs s)) s).

(** [p->ofile[fd]] *)
Definition get_ofile (fd : Z) : M fstate (option nat) :=
  let* p := getp in
  if (0 <=? fd) && (fd <? NOFILE) then
    match ofile p !! Z.to_nat fd with Some o => ret o | None => panic end
  else panic.

Definition set_ofile (fd : Z) (o : option nat) : M fstate unit :=
  if (0 <=? fd) && (fd <? NOFILE) then updp (fun p => mkP (<[Z.to_nat fd := o]> (ofile p)) (fdflag p)) else panic.

(** [bit_add], [bit_remove] and [bit_test] of [fdflag] *)
Definition flag_add (fd : Z) : M fstate unit := updp (fun p => mkP (ofile p) (Z.lor (fdflag p) (Z.shiftl 1 fd))).
Definition flag_remove (fd : Z) : M fstate unit :=
  updp (fun p => mkP (ofile p) (Z.land (fdflag p) (not_w 32 (Z.shiftl 1 fd)))).
Definition flag_test (fd : Z) : M fstate bool :=
  let* p := getp in ret (negb (Z.land (fdflag p) (Z.shiftl 1 fd) =? 0)).

Fixpoint fdalloc_loop (fds : list Z) (f : nat) : M fstate Z :=
  match fds with
  | [] => ret (- EBADF)
  | fd :: fds' =>
      let* o := get_ofile fd in
      match o with
      | None => set_ofile fd (Some f) ;; ret fd
      | Some _ => fdalloc_loop fds' f
      end
  end.

Definition fdalloc (f : nat) (from : Z) : M fstate Z := fdalloc_loop (seqZ from (NOFILE - from)) f.

(** The file of a descriptor argument. *)
Definition argfd (fd : Z) : M fstate (option nat) :=
  if (fd <? 0) || (NOFILE <=? fd) then ret None else get_ofile fd.

Definition dupfd (fd from : Z) : M fstate Z :=
  let* o := get_ofile fd in
  match o with
  | None => ret (- EBADF)
  | Some f => filedup f ;; fdalloc f from
  end.

Definition sys_dup (fd : Z) : M fstate Z := dupfd fd 0.

Definition sys_dup3 (fd1 fd2 flags : Z) : M fstate Z :=
  if negb (Z.land flags (not_w 32 O_CLOEXEC) =? 0) then ret (- EINVAL)
  else if fd1 =? fd2 then ret (- EINVAL)
  else if (fd1 <? 0) || (NOFILE <=? fd1) then ret (- EBADF)
  else if (fd2 <? 0) || (NOFILE <=? fd2) then ret (- EBADF)
  else
    let* o := get_ofile fd1 in
    let* o2 := get_ofile fd2 in
    match o2 with Some g => fileclose g | None => ret tt end ;;
    match o with
    | None => panic
    | Some f =>
        filedup f ;;
        when (negb (Z.land flags O_CLOEXEC =? 0)) (flag_add fd2) ;;
        set_ofile fd2 (Some f) ;;
        ret fd2
    end.

(** The two ends, or -1; [page]: what [kalloc] gives. *)
Definition pipealloc (page : option nat) (fl : Z) : M fstate (option (nat * nat)) :=
  let* o0 := filealloc in
  match o0 with
  | None => ret None
  | Some f0 =>
      let* o1 := filealloc in
      match o1 with
      | None => fileclose f0 ;; ret None
      | Some f1 =>
          match page with
          | None => fileclose f0 ;; fileclose f1 ;; ret None
          | Some pi =>
              updf f0 (fun f => mkF FD_PIPE (ref f) pi (ip f) 0 (Z.lor O_RDONLY (Z.land fl PIPE2_FLAGS)) true false) ;;
              updf f1 (fun f => mkF FD_PIPE (ref f) pi (ip f) 0 (Z.lor (Z.lor O_WRONLY O_APPEND) (Z.land fl PIPE2_FLAGS)) false true) ;;
              ret (Some (f0, f1))
          end
      end
  end.

(** The result and the two descriptors stored for the caller. *)
Definition sys_pipe2 (page : option nat) (fl : Z) : M fstate (Z * option (Z * Z)) :=
  if negb (Z.land fl (not_w 32 PIPE2_FLAGS) =? 0) then ret (- EINVAL, None) else
  let* o := pipealloc page fl in
  match o with
  | None => ret (- ENFILE, None)
  | Some (rf, wf) =>
      let* fd0 := fdalloc rf 0 in
      let* fd1 := (if fd0 <? 0 then ret (- 1) else fdalloc wf 0) in
      if (fd0 <? 0) || (fd1 <? 0) then
        when (0 <=? fd0) (set_ofile fd0 None) ;;
        fileclose rf ;;
        fileclose wf ;;
        ret (- EMFILE, None)
      else
        when (negb (Z.land fl O_CLOEXEC =? 0)) (flag_add fd0 ;; flag_add fd1) ;;
        ret (0, Some (fd0, fd1))
  end.

Definition sys_fcntl (fd cmd args : Z) : M fstate Z :=
  let* o := argfd fd in
  match o with
  | None => ret (- EINVAL)
  | Some f =>
      if cmd =? 0 then dupfd fd args
      else if cmd =? 1 then let* b := flag_test fd in ret (if b then FD_CLOEXEC else 0)
      else if cmd =? 2 then
        (if negb (Z.land args FD_CLOEXEC =? 0) then flag_add fd else flag_remove fd) ;; ret 0
      else if cmd =? 3 then let* x := getf f in ret (Z.land (flags x) (Z.lor FILE_STATUS_FLAGS O_ACCMODE))
      else if cmd =? 4 then
        updf f (fun x => set_flags (Z.lor (Z.land args FILE_STATUS_FLAGS) (Z.land (flags x) O_ACCMODE)) x) ;; ret 0
      else ret (- EINVAL)
  end.

Definition sys_close (fd : Z) : M fstate Z :=
  let* o := argfd fd in
  match o with
  | None => ret (- 1)
  | Some f =>
      set_ofile fd None ;;
      fileclose f ;;
      flag_remove fd ;;
      ret 0
  end.

(** [fork]: the descriptors of the new process [np]. *)
Definition fork_slot (np : nat) (i : nat) : M fstate unit :=
  let* o := get_ofile (Z.of_nat i) in
  match o with
  | None => ret tt
  | Some f =>
      filedup f ;;
      modify (fun s => set_procs (alter (fun p => mkP (<[i := Some f]> (ofile p)) (fdflag p)) np (procs s)) s)
  end.

Definition fork_files (np : nat) : M fstate unit :=
  for_each (seq 0 16) (fork_slot np) ;;
  let* p := getp in
  modify (fun s => set_procs (alter (fun q => mkP (ofile q) (fdflag p)) np (procs s)) s).

(** [exit] closes everything. *)
Definition exit_slot (i : nat) : M fstate unit :=
  let* o := get_ofile (Z.of_nat i) in
  match o with
  | None => ret tt
  | Some f => fileclose f ;; set_ofile (Z.of_nat i) None
  end.

Definition exit_files : M fstate unit := for_each (seq 0 16) exit_slot.

(** [flush_old_exec] closes what is marked close-on-exec. *)
Definition exec_slot (i : nat) : M fstate unit :=
  let* o := get_ofile (Z.of_nat i) in
  match o with
  | None => ret tt
  | Some f =>
      let* b := flag_test (Z.of_nat i) in
      when b (fileclose f ;; set_ofile (Z.of_nat i) None ;; flag_remove (Z.of_nat i))
  end.

Definition exec_files : M fstate unit := for_each (seq 0 16) exec_slot.

End Calls.

(** * Reference counts *)

Definition at_file (f : nat) (o : option nat) : Z := if decide (o = Some f) then 1 else 0.

Fixpoint slots (l : list (option nat)) (f : nat) : Z :=
  match l with
  | [] => 0
  | o :: l' => at_file f o + slots l' f
  end.

(** The descriptors of all processes that refer to [f]. *)
Fixpoint descs (l : list fproc) (f : nat) : Z :=
  match l with
  | [] => 0
  | p :: l' => slots (ofile p) f + descs l' f
  end.

(** [extra]: references that no descriptor holds. *)
Definition counted (extra : nat -> Z) (s : fstate) : Prop :=
  forall f x, ftable s !! f = Some x -> ref x = descs (procs s) f + extra f.

Record proc_ok (n : nat) (p : fproc) : Prop := {
  ok_len : length (ofile p) = 16%nat;
  ok_slot i f : ofile p !! i = Some (Some f) -> (f < n)%nat;
  ok_flag : 0 <= fdflag p < 2 ^ 32
}.

(** Only open descriptors are marked close-on-exec. *)
Definition flags_ok (p : fproc) : Prop := forall i, ofile p !! i = Some None -> Z.testbit (fdflag p) (Z.of_nat i) = false.

(** The state between two system calls, but for references in [extra]. *)
Record files_ok (extra : nat -> Z) (s : fstate) : Prop := {
  ok_lock : ft_lock s = false;
  ok_procs i p : procs s !! i = Some p -> proc_ok (length (ftable s)) p;
  ok_count : counted extra s;
  ok_type f x : ftable s !! f = Some x -> ref x = 0 -> type x = FD_NONE
}.

(** One more reference, or one less, to [f]. *)
Definition plus (f : nat) (d : Z) (extra : nat -> Z) : nat -> Z := fun g => if decide (g = f) then extra g + d else extra g.

Lemma at_file_range f o : 0 <= at_file f o <= 1.
Proof. unfold at_file. destruct (decide _); lia. Qed.

Lemma slots_nonneg l f : 0 <= slots l f <= Z.of_nat (length l).
Proof. induction l as [|o l IH]; cbn; [lia|]. pose proof (at_file_range f o). lia. Qed.

Lemma descs_nonneg l f : 0 <= descs l f.
Proof. induction l as [|p l IH]; cbn; [lia|]. pose proof (slots_nonneg (ofile p) f). lia. Qed.

Lemma slots_insert l i o o' f : l !! i = Some o -> slots (<[i := o']> l) f = slots l f - at_file f o + at_file f o'.
Proof.
  revert i. induction l as [|x l IH]; intros [|i] E; try done; [cbn in *; simplify_eq; lia|].
  change (<[S i := o']> (x :: l)) with (x :: <[i := o']> l). cbn [slots]. rewrite (IH i) by done. lia.
Qed.

Lemma descs_insert l i p p' f : l !! i = Some p -> descs (<[i := p']> l) f = descs l f - slots (ofile p) f + slots (ofile p') f.
Proof.
  revert i. induction l as [|x l IH]; intros [|i] E; try done; [cbn in *; simplify_eq; lia|].
  change (<[S i := p']> (x :: l)) with (x :: <[i := p']> l). cbn [descs]. rewrite (IH i) by done. lia.
Qed.

Lemma slots_pos l i f : l !! i = Some (Some f) -> 1 <= slots l f.
Proof.
  revert i. induction l as [|x l IH]; intros [|i] E; try done; cbn in *.
  - injection E as ->. unfold at_file. rewrite decide_True by done. pose proof (slots_nonneg l f). lia.
  - specialize (IH i E). pose proof (at_file_range f x). lia.
Qed.

Lemma descs_pos l i p j f : l !! i = Some p -> ofile p !! j = Some (Some f) -> 1 <= descs l f.
Proof.
  revert i. induction l as [|x l IH]; intros [|i] E Hj; try done; cbn in *.
  - injection E as ->. pose proof (slots_pos _ _ _ Hj). pose proof (descs_nonneg l f). lia.
  - specialize (IH i E Hj). pose proof (slots_nonneg (ofile x) f). lia.
Qed.

Lemma descs_bound l f : Forall (fun p => length (ofile p) = 16%nat) l -> descs l f <= 16 * Z.of_nat (length l).
Proof. induction 1 as [|p l Hp Hl IH]; cbn; [lia|]. pose proof (slots_nonneg (ofile p) f). lia. Qed.

Lemma alter_entry {A} (g : A -> A) (l : list A) (i : nat) x : l !! i = Some x -> alter g i l = <[i := g x]> l.
Proof.
  revert i. induction l as [|y l IH]; intros [|i] E; try done; cbn in *; [by simplify_eq|].
  change (y :: alter g i l = y :: <[i := g x]> l). f_equal. by apply IH.
Qed.

(** A file entry that is rewritten, its count changed by [d]. *)
Lemma files_upd extra s f x x' d :
  files_ok extra s -> ftable s !! f = Some x -> ref x' = ref x + d -> (ref x' = 0 -> type x' = FD_NONE) ->
  files_ok (plus f d extra) (set_ftable (<[f := x']> (ftable s)) s).
Proof.
  intros [H1 H2 H3 H5] E Hr Ht. assert (f < length (ftable s))%nat by by eapply lookup_lt_Some.
  split; cbn [ft_lock procs ftable set_ftable]; [done| | |].
  - intros i p Hp. rewrite length_insert. eauto.
  - intros g y. cbn. unfold plus. destruct (decide (g = f)) as [->|Hne].
    + rewrite list_lookup_insert_eq by done. intros [= <-]. rewrite Hr, (H3 _ _ E). lia.
    + rewrite list_lookup_insert_ne by done. apply H3.
  - intros g y. destruct (decide (g = f)) as [->|Hne]; [rewrite list_lookup_insert_eq by done; by intros [= <-]|].
    rewrite list_lookup_insert_ne by done. apply H5.
Qed.

(** The table and the log after the last reference to [x] is gone. *)
Definition last_event (x : file) : list event :=
  match type x with
  | FD_PIPE => [ClosePipe (pipe x) (writable x)]
  | FD_INODE => [PutInode (ip x)]
  | FD_NONE => []
  end.

Lemma files_closed extra s e : files_ok extra s -> files_ok extra (mkS (ftable s) (ft_lock s) (procs s) e).
Proof. by intros [? ? ? ?]. Qed.

Definition dropped (x : file) : file := if ref x =? 1 then set_type FD_NONE (set_ref 0 x) else set_ref (ref x - 1) x.
Definition released (x : file) : list event := if ref x =? 1 then last_event x else [].

Lemma filedup_run s f x :
  ft_lock s = false -> ftable s !! f = Some x -> 1 <= ref x < 2 ^ 31 - 1 ->
  filedup f s = Ret f (set_ftable (<[f := set_ref (ref x + 1) x]> (ftable s)) s).
Proof.
  intros Hl E Hr. unfold filedup, acquire. unfold bind at 1. rewrite Hl. cbn. unfold getf, bind. cbn. rewrite E.
  rewrite (proj2 (Z.ltb_ge _ _)) by lia. cbn. rewrite (alter_entry _ _ _ _ E), s32_id by lia. unfold set_ftable. cbn. by rewrite Hl.
Qed.

Lemma fileclose_run s f x :
  ft_lock s = false -> ftable s !! f = Some x -> 1 <= ref x ->
  fileclose f s = Ret tt (mkS (<[f := dropped x]> (ftable s)) false (procs s) (closed s ++ released x)).
Proof.
  intros Hl E Hr. assert (Hlt : (f < length (ftable s))%nat) by by eapply lookup_lt_Some.
  unfold fileclose, acquire. unfold bind at 1. rewrite Hl. unfold getf, bind at 1. cbn [ftable set_ft_lock]. rewrite E.
  rewrite (proj2 (Z.ltb_ge _ _)) by lia. run_step. cbn [set_ftable set_ft_lock ftable]. unfold dropped, released.
  destruct (Z.ltb_spec 0 (ref x - 1)) as [Hp|Hp].
  - rewrite (alter_entry _ _ _ _ E), (proj2 (Z.eqb_neq _ _)) by lia. unfold release. cbn. by rewrite app_nil_r.
  - rewrite (proj2 (Z.eqb_eq _ _)) by lia.
    assert (Ha : forall g, alter g f (alter (set_ref (ref x - 1)) f (ftable s)) = <[f := g (set_ref (ref x - 1) x)]> (ftable s)).
    { intros g. rewrite (alter_entry _ _ _ _ E). rewrite (alter_entry g _ f (set_ref (ref x - 1) x)) by by rewrite list_lookup_insert_eq.
      by rewrite list_insert_insert_eq. }
    run_step. cbn [set_ftable ftable]. rewrite Ha. cbn. unfold release. cbn.
    unfold last_event, record, modify. cbn. destruct (type x); cbn; rewrite ?app_nil_r; done.
Qed.

Lemma files_drop extra s f x e :
  files_ok extra s -> ftable s !! f = Some x -> 1 <= ref x ->
  files_ok (plus f (-1) extra) (mkS (<[f := dropped x]> (ftable s)) false (procs s) e).
Proof.
  intros H E Hr. pose proof (files_upd extra s f x (dropped x) (-1) H E) as H'.
  unfold dropped in *. rewrite <- (ok_lock _ _ H). apply (files_closed _ (set_ftable _ s)). apply H'; destruct (Z.eqb_spec (ref x) 1); cbn; try done; lia.
Qed.

Lemma files_dup extra s f x :
  files_ok extra s -> ftable s !! f = Some x -> 1 <= ref x ->
  files_ok (plus f 1 extra) (set_ftable (<[f := set_ref (ref x + 1) x]> (ftable s)) s).
Proof. intros H E Hr. eapply files_upd; [done|done|done|cbn; lia]. Qed.

(** ** Descriptors *)

Lemma files_ext e1 e2 s : (forall f, e1 f = e2 f) -> files_ok e1 s -> files_ok e2 s.
Proof. intros He [H1 H2 H3 H4]. split; try done. intros f x E. rewrite <- He. by apply H3. Qed.

(** A descriptor that is redirected, and the flags with it. *)
Lemma files_slot extra s c p i o o' fl :
  files_ok extra s -> procs s !! c = Some p -> ofile p !! i = Some o ->
  (forall f, o' = Some f -> (f < length (ftable s))%nat) -> 0 <= fl < 2 ^ 32 ->
  files_ok (fun f => extra f + at_file f o - at_file f o') (set_procs (<[c := mkP (<[i := o']> (ofile p)) fl]> (procs s)) s).
Proof.
  intros [H1 H2 H3 H4] Ep Eo Ho Hfl. assert (c < length (procs s))%nat by by eapply lookup_lt_Some.
  assert (Hi : (i < length (ofile p))%nat) by by eapply lookup_lt_Some. pose proof (H2 _ _ Ep) as Hp.
  split; cbn [ft_lock procs ftable set_procs]; [done| | |done].
  - intros j q. destruct (decide (j = c)) as [->|Hne]; [|rewrite list_lookup_insert_ne by done; apply H2].
    rewrite list_lookup_insert_eq by done. intros [= <-]. split; cbn [ofile fdflag]; [rewrite length_insert; apply Hp| |done].
    intros k f. destruct (decide (k = i)) as [->|Hk]; [rewrite list_lookup_insert_eq by done; intros [= ->]; by apply Ho|].
    rewrite list_lookup_insert_ne by done. apply Hp.
  - intros f x E. cbn in E. rewrite (H3 _ _ E). cbn. rewrite (descs_insert _ _ _ _ _ Ep). cbn [ofile].
    rewrite (slots_insert _ _ _ _ _ Eo). lia.
Qed.

Lemma files_flag extra s c p fl :
  files_ok extra s -> procs s !! c = Some p -> 0 <= fl < 2 ^ 32 ->
  files_ok extra (set_procs (<[c := mkP (ofile p) fl]> (procs s)) s).
Proof.
  intros [H1 H2 H3 H4] Ep Hfl. assert (c < length (procs s))%nat by by eapply lookup_lt_Some. pose proof (H2 _ _ Ep) as Hp.
  split; cbn [ft_lock procs ftable set_procs]; [done| | |done].
  - intros j q. destruct (decide (j = c)) as [->|Hne]; [|rewrite list_lookup_insert_ne by done; apply H2].
    rewrite list_lookup_insert_eq by done. intros [= <-]. split; cbn [ofile fdflag]; [apply Hp|apply Hp|done].
  - intros f x E. cbn in E. rewrite (H3 _ _ E). cbn. rewrite (descs_insert _ _ _ _ _ Ep). cbn [ofile]. lia.
Qed.

Lemma bit_below i : (i < 16)%nat -> 0 <= Z.shiftl 1 (Z.of_nat i) < 2 ^ 32.
Proof.
  intros H. rewrite Z.shiftl_1_l. split; [apply Z.pow_nonneg; lia|]. apply Z.pow_lt_mono_r; lia.
Qed.

Lemma bits_below x : 0 <= x < 2 ^ 32 <-> 0 <= x /\ Z.log2 x < 32.
Proof.
  destruct (decide (x <= 0)) as [Hx|Hx].
  - destruct (decide (x = 0)) as [->|]; [cbn; lia|]. rewrite Z.log2_nonpos by done. lia.
  - rewrite Z.log2_lt_pow2 by lia. lia.
Qed.

Lemma lor_below a b : 0 <= a < 2 ^ 32 -> 0 <= b < 2 ^ 32 -> 0 <= Z.lor a b < 2 ^ 32.
Proof. intros [Ha1 Ha]%bits_below [Hb1 Hb]%bits_below. apply bits_below. split; [by apply Z.lor_nonneg|]. rewrite Z.log2_lor by done. lia. Qed.

Lemma land_below a b : 0 <= a < 2 ^ 32 -> 0 <= Z.land a b < 2 ^ 32.
Proof.
  intros Ha. pose proof (proj1 (bits_below a) Ha) as [Ha1 Ha2]. apply bits_below. split; [apply Z.land_nonneg; lia|].
  assert (H0 : 0 <= Z.land a b) by (apply Z.land_nonneg; lia). destruct (decide (Z.land a b = 0)) as [->|]; [cbn; lia|].
  assert (Z.land a b <= a); [|pose proof (Z.log2_le_mono _ _ H); lia]. apply Z.ldiff_le; [done|].
  apply Z.bits_inj'. intros k Hk. rewrite Z.ldiff_spec, Z.land_spec, Z.bits_0. by destruct (Z.testbit a k), (Z.testbit b k).
Qed.

Lemma testbit_add fl i j : Z.testbit (Z.lor fl (Z.shiftl 1 (Z.of_nat i))) (Z.of_nat j) = Z.testbit fl (Z.of_nat j) || bool_decide (i = j).
Proof.
  rewrite Z.lor_spec, Z.shiftl_1_l, Z.pow2_bits_eqb by lia. f_equal. destruct (Z.eqb_spec (Z.of_nat i) (Z.of_nat j)).
  - by rewrite bool_decide_true by lia.
  - by rewrite bool_decide_false by lia.
Qed.

Lemma testbit_remove fl i j : 0 <= fl < 2 ^ 32 -> (i < 16)%nat ->
  Z.testbit (Z.land fl (not_w 32 (Z.shiftl 1 (Z.of_nat i)))) (Z.of_nat j) = Z.testbit fl (Z.of_nat j) && negb (bool_decide (i = j)).
Proof.
  intros Hf Hi. unfold not_w. rewrite Z.land_spec, Z.lxor_spec, Z.shiftl_1_l, Z.pow2_bits_eqb by lia.
  change (2 ^ 32 - 1) with (Z.ones 32). destruct (decide (j < 32)%nat) as [Hj|Hj].
  - rewrite Z.ones_spec_low by lia. f_equal. destruct (Z.eqb_spec (Z.of_nat i) (Z.of_nat j)).
    + by rewrite bool_decide_true by lia.
    + by rewrite bool_decide_false by lia.
  - assert (Z.testbit fl (Z.of_nat j) = false) as ->; [|done]. destruct (decide (fl = 0)) as [->|]; [apply Z.bits_0|].
    apply Z.bits_above_log2; [lia|]. apply bits_below in Hf. lia.
Qed.

Section Run.
Context (cur : nat).

Lemma file_getp_run s p : procs s !! cur = Some p -> getp cur s = Ret p s.
Proof. intros E. unfold getp. by rewrite E. Qed.

Lemma get_ofile_run s p i o : procs s !! cur = Some p -> ofile p !! i = Some o -> (i < 16)%nat -> get_ofile cur (Z.of_nat i) s = Ret o s.
Proof.
  intros Ep Eo Hi. unfold get_ofile, NOFILE. rewrite (bind_run _ _ _ _ _ (file_getp_run _ _ Ep)).
  rewrite (proj2 (Z.leb_le _ _)), (proj2 (Z.ltb_lt _ _)) by lia. cbn [andb]. rewrite Nat2Z.id, Eo. done.
Qed.

Lemma set_ofile_run s p i o : procs s !! cur = Some p -> (i < 16)%nat ->
  set_ofile cur (Z.of_nat i) o s = Ret tt (set_procs (<[cur := mkP (<[i := o]> (ofile p)) (fdflag p)]> (procs s)) s).
Proof.
  intros Ep Hi. unfold set_ofile, NOFILE, updp. rewrite (proj2 (Z.leb_le _ _)), (proj2 (Z.ltb_lt _ _)) by lia. cbn [andb].
  unfold modify. by rewrite (alter_entry _ _ _ _ Ep), Nat2Z.id.
Qed.

Lemma updp_run s p g : procs s !! cur = Some p -> updp cur g s = Ret tt (set_procs (<[cur := g p]> (procs s)) s).
Proof. intros Ep. unfold updp, modify. by rewrite (alter_entry _ _ _ _ Ep). Qed.

Lemma ofile_some extra s p i : files_ok extra s -> procs s !! cur = Some p -> (i < 16)%nat -> exists o, ofile p !! i = Some o.
Proof. intros H Ep Hi. apply lookup_lt_is_Some. by rewrite (ok_len _ _ (ok_procs _ _ H _ _ Ep)). Qed.

(** The first free descriptor from [from] on. *)
Lemma fdalloc_run extra s p f from :
  files_ok extra s -> procs s !! cur = Some p ->
  (fdalloc cur f (Z.of_nat from) s = Ret (- EBADF) s /\ forall j, (from <= j < 16)%nat -> exists g, ofile p !! j = Some (Some g)) \/
  exists i, (from <= i < 16)%nat /\ ofile p !! i = Some None /\ (forall j, (from <= j < i)%nat -> exists g, ofile p !! j = Some (Some g)) /\
    fdalloc cur f (Z.of_nat from) s = Ret (Z.of_nat i) (set_procs (<[cur := mkP (<[i := Some f]> (ofile p)) (fdflag p)]> (procs s)) s).
Proof.
  intros H Ep. unfold fdalloc, NOFILE. remember (16 - from)%nat as n eqn:En. revert from En.
  induction n as [|n IH]; intros from En.
  - left. rewrite seqZ_nil by lia. split; [done|]. intros j Hj. lia.
  - rewrite seqZ_cons by lia. cbn [fdalloc_loop]. destruct (ofile_some _ _ _ from H Ep ltac:(lia)) as [o Eo].
    rewrite (bind_run _ _ _ _ _ (get_ofile_run _ _ _ _ Ep Eo ltac:(lia))). destruct o as [g|].
    + replace (Z.succ (Z.of_nat from)) with (Z.of_nat (S from)) by lia. replace (Z.pred (16 - Z.of_nat from)) with (16 - Z.of_nat (S from)) by lia.
      destruct (IH (S from) ltac:(lia)) as [[E Hall]|(i & Hi & Ei & Hall & E)]; [left|right; exists i].
      * split; [done|]. intros j Hj. destruct (decide (j = from)) as [->|]; [by exists g|]. apply Hall. lia.
      * split; [lia|]. split; [done|]. split; [|done]. intros j Hj. destruct (decide (j = from)) as [->|]; [by exists g|]. apply Hall. lia.
    + right. exists from. split; [lia|]. split; [done|]. split; [intros; lia|].
      by rewrite (bind_run _ _ _ _ _ (set_ofile_run s p from (Some f) Ep ltac:(lia))).
Qed.

End Run.
(** ** System calls *)

(** Counts stay below the limit of an int. *)
Definition small (extra : nat -> Z) (s : fstate) : Prop :=
  forall f, 0 <= extra f /\ extra f + 16 * Z.of_nat (length (procs s)) < 2 ^ 31 - 2.

Definition leaked (o : option nat) (extra : nat -> Z) : nat -> Z := fun f => extra f + at_file f o.

Lemma live extra s c p i f :
  files_ok extra s -> small extra s -> procs s !! c = Some p -> ofile p !! i = Some (Some f) ->
  exists x, ftable s !! f = Some x /\ ref x = descs (procs s) f + extra f /\ 1 <= ref x < 2 ^ 31 - 2.
Proof.
  intros H Hs Ep Ei. destruct (lookup_lt_is_Some_2 (ftable s) f) as [x Ex]; [by eapply (ok_slot _ _ (ok_procs _ _ H _ _ Ep))|].
  exists x. pose proof (ok_count _ _ H _ _ Ex) as Hr. destruct (Hs f). pose proof (descs_pos _ _ _ _ _ Ep Ei).
  assert (descs (procs s) f <= 16 * Z.of_nat (length (procs s))).
  { apply descs_bound, Forall_lookup. intros j q Eq. apply (ok_procs _ _ H _ _ Eq). }
  split; [done|]. split; [done|lia].
Qed.

Lemma insert_ne_none {A} (l : list (option A)) (i j : nat) x : <[i := Some x]> l !! j = Some None -> l !! j = Some None.
Proof.
  destruct (decide (i = j)) as [->|]; [|by rewrite list_lookup_insert_ne].
  destruct (decide (j < length l)%nat); [by rewrite list_lookup_insert_eq|]. by rewrite list_insert_ge by lia.
Qed.

(** A descriptor is closed: its file loses one reference. *)
Lemma files_close_slot extra s c p i f x fl e :
  files_ok extra s -> procs s !! c = Some p -> ofile p !! i = Some (Some f) -> ftable s !! f = Some x -> 1 <= ref x -> 0 <= fl < 2 ^ 32 ->
  files_ok extra (mkS (<[f := dropped x]> (ftable s)) false (<[c := mkP (<[i := None]> (ofile p)) fl]> (procs s)) e).
Proof.
  intros H Ep Ei Ex Hr Hfl.
  pose proof (files_slot extra s c p i (Some f) None fl H Ep Ei ltac:(done) Hfl) as H1.
  pose proof (files_drop _ _ f x e H1 Ex Hr) as H2. eapply files_ext; [|exact H2].
  intros g. unfold plus, at_file. destruct (decide (g = f)) as [->|]; [rewrite decide_True, decide_False by done; lia|].
  rewrite !decide_False by congruence. lia.
Qed.

Section Sys.
Context (cur : nat) (extra : nat -> Z) (s : fstate) (p : fproc).
Context (Hok : files_ok extra s) (Hsm : small extra s) (Ep : procs s !! cur = Some p) (Hfl : flags_ok p).

(** What a call leaves: counts in order but for [leak], and the process with its flags. *)
Definition done_ok (leak : option nat) (s' : fstate) : Prop :=
  files_ok (leaked leak extra) s' /\ exists p', procs s' = <[cur := p']> (procs s) /\ flags_ok p'.

Lemma done_same : done_ok None s.
Proof using Hok Ep Hfl.
  split; [eapply files_ext, Hok; intros f; unfold leaked, at_file; rewrite decide_False by done; lia|].
  exists p. split; [|done]. by rewrite list_insert_id.
Qed.

(** One more reference that goes nowhere. *)
Lemma dupfd_run i from :
  (i < 16)%nat ->
  exists r s', dupfd cur (Z.of_nat i) (Z.of_nat from) s = Ret r s' /\ closed s' = closed s /\
    match ofile p !! i with
    | Some (Some f) =>
        (r = - EBADF /\ (forall j, (from <= j < 16)%nat -> exists g, ofile p !! j = Some (Some g)) /\ done_ok (Some f) s') \/
        (exists j, r = Z.of_nat j /\ (from <= j < 16)%nat /\ ofile p !! j = Some None /\
           (forall k, (from <= k < j)%nat -> exists g, ofile p !! k = Some (Some g)) /\
           procs s' = <[cur := mkP (<[j := Some f]> (ofile p)) (fdflag p)]> (procs s) /\ done_ok None s')
    | _ => r = - EBADF /\ s' = s
    end.
Proof using Hok Hsm Ep Hfl.
  intros Hi. destruct (ofile_some cur _ _ _ i Hok Ep Hi) as [o Eo]. rewrite Eo. unfold dupfd.
  rewrite (bind_run _ _ _ _ _ (get_ofile_run cur _ _ _ _ Ep Eo Hi)). destruct o as [f|]; [|by exists (- EBADF), s].
  destruct (live _ _ _ _ _ _ Hok Hsm Ep Eo) as (x & Ex & _ & Hr).
  rewrite (bind_run _ _ _ _ _ (filedup_run s f x (ok_lock _ _ Hok) Ex ltac:(lia))).
  set (s1 := set_ftable (<[f := set_ref (ref x + 1) x]> (ftable s)) s).
  pose proof (files_dup extra s f x Hok Ex ltac:(lia)) as H1. fold s1 in H1.
  assert (Hfx : (f < length (ftable s1))%nat) by (cbn; rewrite length_insert; by eapply lookup_lt_Some).
  destruct (fdalloc_run cur _ s1 p f from H1 Ep) as [[E Hall]|(j & Hj & Ej & Hall & E)].
  - exists (- EBADF), s1. split; [done|]. split; [done|]. left. split; [done|]. split; [done|]. split.
    + eapply files_ext, H1. intros g. unfold plus, leaked, at_file. destruct (decide (g = f)) as [->|]; [by rewrite decide_True|].
      rewrite decide_False by congruence. lia.
    + exists p. split; [by rewrite list_insert_id|done].
  - eexists _, _. split; [exact E|]. split; [done|]. right. exists j. do 5 (split; [done|]). split.
    + pose proof (files_slot _ s1 cur p j None (Some f) (fdflag p) H1 Ep Ej ltac:(intros g [= <-]; done) (ok_flag _ _ (ok_procs _ _ Hok _ _ Ep))) as H2.
      eapply files_ext, H2. intros g. unfold plus, leaked, at_file. rewrite !(decide_False (P := None = Some g)) by done.
      destruct (decide (g = f)) as [->|]; [rewrite decide_True by done; lia|]. rewrite decide_False by congruence. lia.
    + eexists. split; [reflexivity|]. intros k Hk. cbn in *. apply Hfl. by eapply insert_ne_none.
Qed.

Lemma flag_remove_run s1 q i :
  procs s1 !! cur = Some q -> (i < 16)%nat -> 0 <= fdflag q < 2 ^ 32 ->
  flag_remove cur (Z.of_nat i) s1 = Ret tt (set_procs (<[cur := mkP (ofile q) (Z.land (fdflag q) (not_w 32 (Z.shiftl 1 (Z.of_nat i))))]> (procs s1)) s1).
Proof. intros E Hi Hf. unfold flag_remove. by rewrite (updp_run cur s1 q _ E). Qed.

Lemma sys_close_run i :
  (i < 16)%nat ->
  exists r s', sys_close cur (Z.of_nat i) s = Ret r s' /\ done_ok None s' /\
    match ofile p !! i with
    | Some (Some f) => exists x fl, ftable s !! f = Some x /\ r = 0 /\ closed s' = closed s ++ released x /\
        procs s' = <[cur := mkP (<[i := None]> (ofile p)) fl]> (procs s) /\
        (forall j, Z.testbit fl (Z.of_nat j) = Z.testbit (fdflag p) (Z.of_nat j) && negb (bool_decide (i = j)))
    | _ => r = -1 /\ s' = s
    end.
Proof using Hok Hsm Ep Hfl.
  intros Hi. destruct (ofile_some cur _ _ _ i Hok Ep Hi) as [o Eo]. rewrite Eo. unfold sys_close, argfd, NOFILE.
  rewrite (proj2 (Z.ltb_ge _ _)), (proj2 (Z.leb_gt _ _)) by lia. cbn [orb].
  rewrite (bind_run _ _ _ _ _ (get_ofile_run cur _ _ _ _ Ep Eo Hi)). pose proof (ok_flag _ _ (ok_procs _ _ Hok _ _ Ep)) as Hfr.
  destruct o as [f|]; [|exists (-1), s; split; [done|]; split; [apply done_same|done]].
  destruct (live _ _ _ _ _ _ Hok Hsm Ep Eo) as (x & Ex & _ & Hr).
  rewrite (bind_run _ _ _ _ _ (set_ofile_run cur s p i None Ep Hi)).
  erewrite bind_run by (apply (fileclose_run _ f x); [apply (ok_lock _ _ Hok)|exact Ex|lia]).
  erewrite bind_run by (eapply flag_remove_run; [cbn; apply list_lookup_insert_eq; by eapply lookup_lt_Some|done|done]).
  set (fl := Z.land (fdflag p) (not_w 32 (Z.shiftl 1 (Z.of_nat i)))).
  cbn [procs set_procs ftable closed ofile fdflag]. fold fl. rewrite list_insert_insert_eq. unfold set_procs. cbn [ftable ft_lock closed].
  assert (Hflr : 0 <= fl < 2 ^ 32) by by apply land_below.
  assert (Hb : forall j, Z.testbit fl (Z.of_nat j) = Z.testbit (fdflag p) (Z.of_nat j) && negb (bool_decide (i = j))) by (intros j; by apply testbit_remove).
  eexists _, _. split; [reflexivity|]. split; [split|by exists x, fl].
  - eapply files_ext; [|eapply files_close_slot; eauto; lia]. intros g. unfold leaked, at_file. rewrite decide_False by done. lia.
  - eexists. split; [reflexivity|]. intros j. cbn. rewrite Hb. destruct (decide (i = j)) as [->|]; [by rewrite bool_decide_true, andb_false_r|].
    rewrite list_lookup_insert_ne by done. intros Ej. by rewrite (Hfl j Ej).
Qed.

End Sys.
(** Two descriptors of one file. *)
Lemma descs_two l c p i j f :
  l !! c = Some p -> ofile p !! i = Some (Some f) -> ofile p !! j = Some (Some f) -> i <> j -> 2 <= descs l f.
Proof.
  intros Ep Ei Ej Hne. pose proof (descs_insert l c p (mkP (<[j := None]> (ofile p)) 0) f Ep) as Hd. cbn [ofile] in Hd.
  rewrite (slots_insert _ _ _ _ _ Ej) in Hd. unfold at_file in Hd. rewrite decide_True, decide_False in Hd by done.
  assert (1 <= descs (<[c := mkP (<[j := None]> (ofile p)) 0]> l) f); [|lia].
  eapply (descs_pos _ c _ i); [apply list_lookup_insert_eq; by eapply lookup_lt_Some|]. cbn. by rewrite list_lookup_insert_ne.
Qed.

Section Sys2.
Context (cur : nat) (extra : nat -> Z) (s : fstate) (p : fproc).
Context (Hok : files_ok extra s) (Hsm : small extra s) (Ep : procs s !! cur = Some p) (Hfl : flags_ok p).

Notation done_ok := (done_ok cur extra s).

(** The old file of the descriptor that [dup3] overwrites loses a reference first. *)
Lemma dup3_close i j f x :
  i <> j -> (j < 16)%nat -> ofile p !! i = Some (Some f) -> ftable s !! f = Some x ->
  exists o s1 x1, ofile p !! j = Some o /\
    (match o with Some g => fileclose g | None => ret tt end) s = Ret tt s1 /\ procs s1 = procs s /\ length (ftable s1) = length (ftable s) /\
    files_ok (fun g => extra g - at_file g o) s1 /\ ftable s1 !! f = Some x1 /\ 1 <= ref x1 < 2 ^ 31 - 2 /\
    closed s1 = closed s ++ (match o with Some g => match ftable s !! g with Some y => released y | None => [] end | None => [] end).
Proof using Hok Hsm Ep.
  intros Hne Hj Ei Ex. destruct (ofile_some cur _ _ _ j Hok Ep Hj) as [o Ej]. exists o.
  destruct (live _ _ _ _ _ _ Hok Hsm Ep Ei) as (x' & Ex' & Hrc & Hr). assert (x' = x) as -> by congruence.
  destruct o as [g|].
  - destruct (live _ _ _ _ _ _ Hok Hsm Ep Ej) as (y & Ey & Hyc & Hy).
    assert (Hlt : (g < length (ftable s))%nat) by by eapply lookup_lt_Some.
    exists (mkS (<[g := dropped y]> (ftable s)) false (procs s) (closed s ++ released y)), (if decide (f = g) then dropped x else x).
    split; [done|]. split; [by apply fileclose_run; [apply Hok| |lia]|]. split; [done|]. split; [apply length_insert|].
    split; [eapply files_ext; [|apply (files_drop extra s g y (closed s ++ released y) Hok Ey); lia]; intros h; unfold plus, at_file;
      destruct (decide (h = g)) as [->|]; [rewrite decide_True by done; lia|rewrite decide_False by congruence; lia]|].
    cbn [ftable closed]. rewrite Ey. split; [|split; [|done]].
    + destruct (decide (f = g)) as [->|]; [|by rewrite list_lookup_insert_ne]. assert (y = x) as -> by congruence. by apply list_lookup_insert_eq.
    + destruct (decide (f = g)) as [->|]; [|lia]. pose proof (descs_two _ _ _ _ _ _ Ep Ei Ej Hne). destruct (Hsm g) as [? _].
      unfold dropped. destruct (Z.eqb_spec (ref x) 1); cbn; lia.
  - exists s, x. rewrite app_nil_r. do 4 (split; [done|]). split; [|done].
    eapply files_ext, Hok. intros h. unfold at_file. rewrite decide_False by done. lia.
Qed.

Lemma sys_dup3_run i j f fl :
  i <> j -> (i < 16)%nat -> (j < 16)%nat -> ofile p !! i = Some (Some f) -> Z.land fl (not_w 32 O_CLOEXEC) = 0 ->
  exists s' fl', sys_dup3 cur (Z.of_nat i) (Z.of_nat j) fl s = Ret (Z.of_nat j) s' /\ done_ok None s' /\
    procs s' = <[cur := mkP (<[j := Some f]> (ofile p)) fl']> (procs s) /\
    (forall k, Z.testbit fl' (Z.of_nat k) = Z.testbit (fdflag p) (Z.of_nat k) || (negb (Z.land fl O_CLOEXEC =? 0) && bool_decide (j = k))).
Proof using Hok Hsm Ep Hfl.
  intros Hne Hi Hj Ei Hflg. destruct (live _ _ _ _ _ _ Hok Hsm Ep Ei) as (x & Ex & _ & _).
  destruct (dup3_close i j f x Hne Hj Ei Ex) as (o & s1 & x1 & Ej & E1 & Hp1 & Hl1 & H1 & Ex1 & Hr1 & _).
  pose proof (ok_flag _ _ (ok_procs _ _ Hok _ _ Ep)) as Hfr.
  unfold sys_dup3, NOFILE. rewrite Hflg. rewrite (proj2 (Z.eqb_neq (Z.of_nat i) (Z.of_nat j))) by lia.
  rewrite (proj2 (Z.ltb_ge (Z.of_nat i) 0)), (proj2 (Z.leb_gt 16 (Z.of_nat i))), (proj2 (Z.ltb_ge (Z.of_nat j) 0)), (proj2 (Z.leb_gt 16 (Z.of_nat j))) by lia.
  cbn [Z.eqb negb orb]. rewrite (bind_run _ _ _ _ _ (get_ofile_run cur _ _ _ _ Ep Ei Hi)), (bind_run _ _ _ _ _ (get_ofile_run cur _ _ _ _ Ep Ej Hj)).
  rewrite (bind_run _ _ _ _ _ E1), (bind_run _ _ _ _ _ (filedup_run s1 f x1 (ok_lock _ _ H1) Ex1 ltac:(lia))).
  set (s2 := set_ftable _ s1). pose proof (files_dup _ s1 f x1 H1 Ex1 ltac:(lia)) as H2. fold s2 in H2.
  set (fl' := if Z.land fl O_CLOEXEC =? 0 then fdflag p else Z.lor (fdflag p) (Z.shiftl 1 (Z.of_nat j))).
  assert (Ep2 : procs s2 !! cur = Some p) by (cbn; by rewrite Hp1).
  assert (Hlt : (cur < length (procs s))%nat) by by eapply lookup_lt_Some.
  assert (E3 : when (negb (Z.land fl O_CLOEXEC =? 0)) (flag_add cur (Z.of_nat j)) s2 = Ret tt (set_procs (<[cur := mkP (ofile p) fl']> (procs s2)) s2)).
  { subst fl'. destruct (Z.land fl O_CLOEXEC =? 0); cbn [negb when]; [|unfold flag_add; by rewrite (updp_run cur s2 p _ Ep2)].
    rewrite (list_insert_id (procs s2)) by (rewrite Ep2; by destruct p). done. }
  rewrite (bind_run _ _ _ _ _ E3).
  erewrite bind_run by (apply (set_ofile_run cur _ (mkP (ofile p) fl') j (Some f)); [cbn; apply list_lookup_insert_eq; by rewrite Hp1|done]).
  cbn [procs set_procs ofile fdflag]. rewrite list_insert_insert_eq.
  assert (Hb : forall k, Z.testbit fl' (Z.of_nat k) = Z.testbit (fdflag p) (Z.of_nat k) || (negb (Z.land fl O_CLOEXEC =? 0) && bool_decide (j = k))).
  { intros k. subst fl'. destruct (Z.land fl O_CLOEXEC =? 0); cbn [negb andb]; [by rewrite orb_false_r|apply testbit_add]. }
  assert (Hfl' : 0 <= fl' < 2 ^ 32) by (subst fl'; destruct (_ =? 0); [done|by apply lor_below, bit_below]).
  eexists _, fl'. split; [reflexivity|]. change (procs s2) with (procs s1). rewrite Hp1. split; [|done]. split.
  - pose proof (files_slot _ s2 cur p j o (Some f) fl' H2 Ep2 Ej) as H3. change (procs s2) with (procs s1) in H3. rewrite Hp1 in H3.
    eapply files_ext; [|apply H3; [|done]]; [|intros g [= <-]; cbn; rewrite length_insert; by eapply lookup_lt_Some].
    intros g. unfold plus, leaked, at_file. rewrite (decide_False (P := None = Some g)) by done.
    destruct (decide (g = f)) as [->|]; [rewrite (decide_True (P := Some f = Some f)) by done; lia|]. rewrite (decide_False (P := Some f = Some g)) by congruence. lia.
  - eexists. split; [reflexivity|]. intros k. cbn. intros Hk. rewrite Hb. destruct (decide (j = k)) as [->|Hjk].
    { rewrite list_lookup_insert_eq in Hk by (by eapply lookup_lt_Some). done. }
    rewrite list_lookup_insert_ne in Hk by done. by rewrite (Hfl k Hk), bool_decide_false, andb_false_r.
Qed.

End Sys2.
(** ** Pipes *)

Lemma find_free_spec l : forall k,
  match find_free l k with
  | Some f => exists i x, f = (k + i)%nat /\ l !! i = Some x /\ ref x = 0
  | None => Forall (fun x => ref x <> 0) l
  end.
Proof.
  induction l as [|x l IH]; intros k; cbn; [done|]. destruct (Z.eqb_spec (ref x) 0); [exists 0%nat, x; split_and!; [lia|done|done]|].
  specialize (IH (S k)). destruct (find_free l (S k)); [|by constructor]. destruct IH as (i & y & -> & ? & ?). exists (S i), y. split_and!; [lia|done|done].
Qed.

Lemma filealloc_run s :
  ft_lock s = false ->
  (filealloc s = Ret None s /\ Forall (fun x => ref x <> 0) (ftable s)) \/
  exists f x, filealloc s = Ret (Some f) (set_ftable (<[f := set_ref 1 x]> (ftable s)) s) /\ ftable s !! f = Some x /\ ref x = 0.
Proof.
  intros Hl. pose proof (find_free_spec (ftable s) 0) as Hf.
  assert (Ha : acquire s = Ret tt (set_ft_lock true s)) by (unfold acquire; by rewrite Hl).
  destruct (find_free (ftable s) 0) as [f|] eqn:Ef; [right|left].
  - destruct Hf as (i & x & -> & E & Hr). exists i, x. split; [|done]. unfold filealloc, gets.
    rewrite (bind_run _ _ _ _ _ Ha). run_step. cbn [ftable set_ft_lock]. rewrite Ef. run_step. unfold set_ftable, set_ft_lock.
    cbn [ftable ft_lock procs closed Nat.add]. rewrite (alter_entry _ _ _ _ E). unfold release, bind, ret, set_ft_lock.
    cbn [ftable ft_lock procs closed]. by rewrite Hl.
  - split; [|done]. unfold filealloc, gets. rewrite (bind_run _ _ _ _ _ Ha). run_step. cbn [ftable set_ft_lock]. rewrite Ef.
    unfold release, bind, ret, set_ft_lock. destruct s; cbn in *; by subst.
Qed.

Lemma plus_comm f g a b extra h : plus f a (plus g b extra) h = plus g b (plus f a extra) h.
Proof. unfold plus. repeat destruct (decide _); lia. Qed.

Lemma plus_cancel f extra h : plus f (-1) (plus f 1 extra) h = extra h.
Proof. unfold plus. destruct (decide _); lia. Qed.

Lemma released_new x : type x = FD_NONE -> released (set_ref 1 x) = [].
Proof. intros H. unfold released, last_event. cbn. by rewrite H. Qed.

(** A new file of one reference that no descriptor holds. *)
Lemma files_new extra s f x x' :
  files_ok extra s -> ftable s !! f = Some x -> ref x = 0 -> ref x' = 1 ->
  files_ok (plus f 1 extra) (set_ftable (<[f := x']> (ftable s)) s).
Proof. intros H E Hr Hr'. eapply files_upd; [done|done|lia|lia]. Qed.

Lemma pipealloc_run extra s page fl :
  files_ok extra s ->
  exists o s', pipealloc page fl s = Ret o s' /\ procs s' = procs s /\ length (ftable s') = length (ftable s) /\
    match o with
    | None => files_ok extra s' /\ closed s' = closed s
    | Some (f0, f1) => exists x0 x1 pi, f0 <> f1 /\ files_ok (plus f1 1 (plus f0 1 extra)) s' /\
        ftable s' !! f0 = Some x0 /\ ftable s' !! f1 = Some x1 /\ page = Some pi /\ closed s' = closed s /\
        ref x0 = 1 /\ ref x1 = 1 /\ type x0 = FD_PIPE /\ type x1 = FD_PIPE /\ pipe x0 = pi /\ pipe x1 = pi /\
        readable x0 = true /\ writable x0 = false /\ readable x1 = false /\ writable x1 = true
    end.
Proof.
  intros H. unfold pipealloc. destruct (filealloc_run s (ok_lock _ _ H)) as [[E _]|(f0 & x0 & E & Ex0 & Hr0)].
  { exists None, s. rewrite (bind_run _ _ _ _ _ E). done. }
  rewrite (bind_run _ _ _ _ _ E). set (s1 := set_ftable _ s) in *.
  pose proof (files_new _ _ _ _ (set_ref 1 x0) H Ex0 Hr0 eq_refl) as H1. fold s1 in H1.
  assert (Hlt0 : (f0 < length (ftable s))%nat) by by eapply lookup_lt_Some.
  assert (Ex01 : ftable s1 !! f0 = Some (set_ref 1 x0)) by by apply list_lookup_insert_eq.
  pose proof (ok_type _ _ H _ _ Ex0 Hr0) as Ht0.
  destruct (filealloc_run s1 (ok_lock _ _ H1)) as [[E2 _]|(f1 & x1 & E2 & Ex1 & Hr1)]; rewrite (bind_run _ _ _ _ _ E2).
  { eexists None, _. rewrite (bind_run _ _ _ _ _ (fileclose_run s1 f0 _ (ok_lock _ _ H1) Ex01 ltac:(cbn; lia))). split; [reflexivity|].
    split; [done|]. split; [cbn; by rewrite !length_insert|]. split; [|cbn [closed]; rewrite released_new by done; apply app_nil_r].
    eapply files_ext; [|apply files_drop; [exact H1|exact Ex01|cbn; lia]]. intros g. apply plus_cancel. }
  set (s2 := set_ftable _ s1) in *. pose proof (files_new _ _ _ _ (set_ref 1 x1) H1 Ex1 Hr1 eq_refl) as H2. fold s2 in H2.
  assert (Hne : f0 <> f1) by (intros ->; rewrite Ex01 in Ex1; injection Ex1 as <-; done).
  assert (Hlt1 : (f1 < length (ftable s1))%nat) by by eapply lookup_lt_Some.
  assert (Ex12 : ftable s2 !! f1 = Some (set_ref 1 x1)) by by apply list_lookup_insert_eq.
  assert (Ex02 : ftable s2 !! f0 = Some (set_ref 1 x0)) by (cbn; by rewrite list_lookup_insert_ne).
  pose proof (ok_type _ _ H1 _ _ Ex1 Hr1) as Ht1. destruct page as [pi|].
  - set (y0 := mkF FD_PIPE 1 pi (ip x0) 0 (Z.lor O_RDONLY (Z.land fl PIPE2_FLAGS)) true false).
    set (y1 := mkF FD_PIPE 1 pi (ip x1) 0 (Z.lor (Z.lor O_WRONLY O_APPEND) (Z.land fl PIPE2_FLAGS)) false true).
    pose proof (files_upd _ s2 f0 _ y0 0 H2 Ex02 eq_refl ltac:(done)) as H3. set (s3 := set_ftable (<[f0 := y0]> (ftable s2)) s2) in *.
    assert (Ex13 : ftable s3 !! f1 = Some (set_ref 1 x1)) by (unfold s3; cbn [ftable set_ftable]; by rewrite list_lookup_insert_ne).
    pose proof (files_upd _ s3 f1 _ y1 0 H3 Ex13 eq_refl ltac:(done)) as H4. set (s4 := set_ftable (<[f1 := y1]> (ftable s3)) s3) in *.
    exists (Some (f0, f1)), s4. split.
    { rewrite (bind_run _ _ s2 tt s3) by (unfold updf, modify; by rewrite (alter_entry _ _ _ _ Ex02)).
      by rewrite (bind_run _ _ s3 tt s4) by (unfold updf, modify; by rewrite (alter_entry _ _ _ _ Ex13)). }
    split; [done|]. split; [unfold s4, s3, s2, s1; cbn [ftable set_ftable]; by rewrite !length_insert|].
    exists y0, y1, pi. split; [done|]. split; [eapply files_ext, H4; intros g; unfold plus; repeat destruct (decide _); lia|].
    split; [unfold s4; cbn [ftable set_ftable]; rewrite list_lookup_insert_ne by done; apply list_lookup_insert_eq; by eapply lookup_lt_Some|].
    split; [apply list_lookup_insert_eq; by eapply lookup_lt_Some|]. done.
  - eexists None, _. rewrite (bind_run _ _ _ _ _ (fileclose_run s2 f0 _ (ok_lock _ _ H2) Ex02 ltac:(cbn; lia))).
    erewrite bind_run by (apply (fileclose_run _ f1 (set_ref 1 x1)); [done|cbn; rewrite list_lookup_insert_ne by done; exact Ex12|cbn; lia]).
    split; [reflexivity|]. split; [done|]. split; [cbn; by rewrite !length_insert|]. split; [|cbn [closed]; rewrite !released_new by done; by rewrite !app_nil_r].
    eapply files_ext; [|eapply files_drop; [eapply files_drop; [exact H2|exact Ex02|cbn; lia]|cbn; rewrite list_lookup_insert_ne by done; exact Ex12|cbn; lia]].
    intros g. unfold plus. repeat destruct (decide _); lia.
Qed.

Section Sys3.
Context (cur : nat) (extra : nat -> Z) (s : fstate) (p : fproc).
Context (Hok : files_ok extra s) (Hsm : small extra s) (Ep : procs s !! cur = Some p) (Hfl : flags_ok p).

Notation done_ok := (done_ok cur extra s).

(** Both ends closed again. *)
Lemma close_both s1 f0 f1 x0 x1 :
  f0 <> f1 -> files_ok (plus f1 1 (plus f0 1 extra)) s1 -> ftable s1 !! f0 = Some x0 -> ftable s1 !! f1 = Some x1 ->
  1 <= ref x0 -> 1 <= ref x1 -> procs s1 = procs s ->
  exists s', (fileclose f0 ;; fileclose f1 ;; ret (- EMFILE, @None (Z * Z))) s1 = Ret (- EMFILE, None) s' /\ done_ok None s'.
Proof using Hok Ep Hfl.
  intros Hne H E0 E1 Hr0 Hr1 Hp.
  pose proof (files_drop _ s1 f0 x0 (closed s1 ++ released x0) H E0 Hr0) as H2. set (s2 := mkS _ _ _ _) in H2.
  assert (E12 : ftable s2 !! f1 = Some x1) by (unfold s2; cbn [ftable]; by rewrite list_lookup_insert_ne).
  pose proof (files_drop _ s2 f1 x1 (closed s2 ++ released x1) H2 E12 Hr1) as H3. set (s3 := mkS _ _ _ _) in H3.
  exists s3. split.
  { rewrite (bind_run _ _ s1 tt s2) by (by apply fileclose_run; [apply (ok_lock _ _ H)|..]).
    by rewrite (bind_run _ _ s2 tt s3) by (by apply fileclose_run; [apply (ok_lock _ _ H2)|..]). }
  split; [eapply files_ext, H3; intros g; unfold plus, leaked, at_file; rewrite (decide_False (P := None = Some g)) by done; repeat destruct (decide _); lia|].
  exists p. split; [|done]. cbn. by rewrite Hp, list_insert_id.
Qed.

(** A new file gets a descriptor. *)
Lemma fdalloc_new e s1 q f x :
  files_ok (plus f 1 e) s1 -> procs s1 !! cur = Some q -> ftable s1 !! f = Some x ->
  (fdalloc cur f 0 s1 = Ret (- EBADF) s1) \/
  exists i, (i < 16)%nat /\ ofile q !! i = Some None /\
    let s2 := set_procs (<[cur := mkP (<[i := Some f]> (ofile q)) (fdflag q)]> (procs s1)) s1 in
    fdalloc cur f 0 s1 = Ret (Z.of_nat i) s2 /\ files_ok e s2.
Proof.
  intros H Eq Ex. destruct (fdalloc_run cur _ s1 q f 0 H Eq) as [[E _]|(i & Hi & Ei & _ & E)]; [by left|right].
  exists i. split; [lia|]. split; [done|]. split; [done|].
  pose proof (files_slot _ s1 cur q i None (Some f) (fdflag q) H Eq Ei) as H2. eapply files_ext; [|apply H2].
  - intros g. unfold plus, at_file. rewrite (decide_False (P := None = Some g)) by done.
    destruct (decide (g = f)) as [->|]; [rewrite decide_True by done; lia|]. rewrite decide_False by congruence. lia.
  - intros g [= <-]. by eapply lookup_lt_Some.
  - apply (ok_procs _ _ H _ _ Eq).
Qed.

Lemma flag_add_run s1 q i :
  procs s1 !! cur = Some q ->
  flag_add cur (Z.of_nat i) s1 = Ret tt (set_procs (<[cur := mkP (ofile q) (Z.lor (fdflag q) (Z.shiftl 1 (Z.of_nat i)))]> (procs s1)) s1).
Proof. intros E. unfold flag_add. by rewrite (updp_run cur s1 q _ E). Qed.

Lemma flags_ok_add q i : (exists f, ofile q !! i = Some (Some f)) -> flags_ok q -> flags_ok (mkP (ofile q) (Z.lor (fdflag q) (Z.shiftl 1 (Z.of_nat i)))).
Proof.
  intros [f Hi] Hq j Hj. cbn in *. rewrite testbit_add, (Hq j Hj). rewrite bool_decide_false; [done|]. intros ->. congruence.
Qed.

Lemma flags_ok_open q i f : flags_ok q -> flags_ok (mkP (<[i := Some f]> (ofile q)) (fdflag q)).
Proof. intros Hq j Hj. cbn in *. apply Hq. by eapply insert_ne_none. Qed.

(** Two descriptors marked close-on-exec. *)
Lemma mark_run (b : bool) e s1 q i j :
  files_ok e s1 -> procs s1 !! cur = Some q -> flags_ok q -> (i < 16)%nat -> (j < 16)%nat ->
  (exists f, ofile q !! i = Some (Some f)) -> (exists f, ofile q !! j = Some (Some f)) ->
  exists s2 q2, when b (flag_add cur (Z.of_nat i) ;; flag_add cur (Z.of_nat j)) s1 = Ret tt s2 /\ files_ok e s2 /\
    procs s2 = <[cur := q2]> (procs s1) /\ flags_ok q2 /\ ofile q2 = ofile q /\ ftable s2 = ftable s1.
Proof.
  intros H Eq Hq Hi Hj Oi Oj. destruct b; cbn [when]; [|exists s1, q; rewrite list_insert_id by done; done].
  pose proof (ok_flag _ _ (ok_procs _ _ H _ _ Eq)) as Hf. assert (Hlt : (cur < length (procs s1))%nat) by by eapply lookup_lt_Some.
  set (q1 := mkP (ofile q) (Z.lor (fdflag q) (Z.shiftl 1 (Z.of_nat i)))). set (s2 := set_procs (<[cur := q1]> (procs s1)) s1).
  assert (Hf1 : 0 <= fdflag q1 < 2 ^ 32) by (by apply lor_below, bit_below).
  assert (Eq1 : procs s2 !! cur = Some q1) by by apply list_lookup_insert_eq.
  rewrite (bind_run _ _ s1 tt s2) by by apply flag_add_run. rewrite (flag_add_run s2 q1 j Eq1).
  eexists _, (mkP (ofile q) (Z.lor (fdflag q1) (Z.shiftl 1 (Z.of_nat j)))). split; [reflexivity|].
  split; [apply (files_flag e s2 cur q1); [by apply files_flag|done|by apply lor_below, bit_below]|].
  split; [cbn; by rewrite list_insert_insert_eq|]. split; [|done]. apply (flags_ok_add q1 j Oj), (flags_ok_add q i Oi), Hq.
Qed.

Lemma sys_pipe2_run page fl :
  exists r s', sys_pipe2 cur page fl s = Ret r s' /\ done_ok None s' /\
    (r.1 < 0 \/ exists i j f0 f1 x0 x1 p', r = (0, Some (Z.of_nat i, Z.of_nat j)) /\ i <> j /\
       ofile p !! i = Some None /\ ofile p !! j = Some None /\ procs s' = <[cur := p']> (procs s) /\
       ofile p' = <[j := Some f1]> (<[i := Some f0]> (ofile p)) /\ ftable s' !! f0 = Some x0 /\ ftable s' !! f1 = Some x1 /\
       type x0 = FD_PIPE /\ type x1 = FD_PIPE /\ pipe x0 = pipe x1 /\ readable x0 = true /\ writable x0 = false /\
       readable x1 = false /\ writable x1 = true).
Proof using Hok Ep Hfl.
  unfold sys_pipe2. destruct (negb _).
  { eexists _, s. split; [reflexivity|]. split; [by eapply done_same|left; cbn; unfold EINVAL; lia]. }
  assert (Hlt : (cur < length (procs s))%nat) by by eapply lookup_lt_Some.
  destruct (pipealloc_run extra s page fl Hok) as (o & s1 & E1 & Hp1 & Hl1 & Ho). rewrite (bind_run _ _ _ _ _ E1).
  assert (Ep1 : procs s1 !! cur = Some p) by by rewrite Hp1. destruct o as [[f0 f1]|].
  2: { destruct Ho as [H1 _]. exists (- ENFILE, None), s1. split; [done|]. split; [|left; cbn; unfold ENFILE; lia].
       split; [|exists p; split; [by rewrite Hp1, list_insert_id|done]]. eapply files_ext, H1. intros g. unfold leaked, at_file.
       rewrite decide_False by done. lia. }
  destruct Ho as (x0 & x1 & pi & Hne & H1 & E0 & E1' & _ & _ & Hr0 & Hr1 & Ht0 & Ht1 & Hpi0 & Hpi1 & Ra & Wa & Rb & Wb).
  assert (H1' : files_ok (plus f0 1 (plus f1 1 extra)) s1) by (eapply files_ext, H1; intros g; apply plus_comm).
  destruct (fdalloc_new _ s1 p f0 x0 H1' Ep1 E0) as [E2|(i & Hi & Ei & E2 & H2)]; rewrite (bind_run _ _ _ _ _ E2).
  { change (- EBADF <? 0) with true. change (0 <=? - EBADF) with false. run_step. cbn [orb when]. run_step.
    destruct (close_both s1 f0 f1 x0 x1 Hne H1 E0 E1' ltac:(lia) ltac:(lia) Hp1) as (s' & E' & D).
    exists (- EMFILE, None), s'. split; [exact E'|]. split; [done|left; cbn; unfold EMFILE; lia]. }
  rewrite (proj2 (Z.ltb_ge (Z.of_nat i) 0)), (proj2 (Z.leb_le 0 (Z.of_nat i))) by lia.
  set (p2 := mkP (<[i := Some f0]> (ofile p)) (fdflag p)) in *. set (s2 := set_procs (<[cur := p2]> (procs s1)) s1) in *.
  assert (Hil : (i < length (ofile p))%nat) by by eapply lookup_lt_Some.
  assert (Ep2 : procs s2 !! cur = Some p2) by (apply list_lookup_insert_eq; by rewrite Hp1).
  destruct (fdalloc_new _ s2 p2 f1 x1 H2 Ep2 E1') as [E3|(j & Hj & Ej & E3 & H3)]; rewrite (bind_run _ _ _ _ _ E3).
  { change (- EBADF <? 0) with true. cbn [orb when].
    erewrite bind_run by (apply (set_ofile_run cur s2 p2 i None Ep2); lia). cbn [ofile fdflag p2].
    replace (set_procs _ s2) with s1.
    2: { unfold s2, set_procs. cbn [procs ftable ft_lock closed]. rewrite !list_insert_insert_eq, (list_insert_id (ofile p)) by done.
         replace (mkP (ofile p) (fdflag p)) with p by by destruct p. rewrite list_insert_id by done. by destruct s1. }
    destruct (close_both s1 f0 f1 x0 x1 Hne H1 E0 E1' ltac:(lia) ltac:(lia) Hp1) as (s' & E' & D).
    exists (- EMFILE, None), s'. split; [exact E'|]. split; [done|left; cbn; unfold EMFILE; lia]. }
  rewrite (proj2 (Z.ltb_ge (Z.of_nat j) 0)) by lia. cbn [orb].
  set (p3 := mkP (<[j := Some f1]> (ofile p2)) (fdflag p2)) in *. set (s3 := set_procs (<[cur := p3]> (procs s2)) s2) in *.
  assert (Hij : i <> j) by (intros ->; cbn in Ej; rewrite list_lookup_insert_eq in Ej by done; done).
  assert (Ep3 : procs s3 !! cur = Some p3) by (apply list_lookup_insert_eq; cbn; rewrite length_insert; by rewrite Hp1).
  destruct (mark_run (negb (Z.land fl O_CLOEXEC =? 0)) _ s3 p3 i j H3 Ep3) as (s4 & p4 & E4 & H4 & Hp4 & Hf4 & Ho4 & Ht4); try done.
  { by apply flags_ok_open, flags_ok_open. }
  { exists f0. cbn. rewrite list_lookup_insert_ne by done. by apply list_lookup_insert_eq. }
  { exists f1. apply list_lookup_insert_eq. by eapply lookup_lt_Some. }
  exists (0, Some (Z.of_nat i, Z.of_nat j)), s4. rewrite (bind_run _ _ _ _ _ E4). split; [done|].
  assert (Hps : procs s4 = <[cur := p4]> (procs s)) by (rewrite Hp4; cbn; by rewrite !list_insert_insert_eq, Hp1).
  split; [split; [eapply files_ext, H4; intros g; unfold leaked, at_file; rewrite decide_False by done; lia|by exists p4]|].
  right. exists i, j, f0, f1, x0, x1, p4. rewrite Ht4, Hpi0, Hpi1. cbn in Ej. rewrite list_lookup_insert_ne in Ej by done. done.
Qed.

End Sys3.
(** ** fork, exit and execve *)

Lemma proc_eta p : mkP (ofile p) (fdflag p) = p.
Proof. by destruct p. Qed.

Lemma small_same extra s s' : length (procs s') = length (procs s) -> small extra s -> small extra s'.
Proof. intros Hl H f. rewrite Hl. apply H. Qed.

Lemma land_bit x i : negb (Z.land x (Z.shiftl 1 (Z.of_nat i)) =? 0) = Z.testbit x (Z.of_nat i).
Proof.
  rewrite Z.shiftl_1_l. destruct (Z.testbit x (Z.of_nat i)) eqn:Hb.
  - apply negb_true_iff, Z.eqb_neq. intros E%(f_equal (fun z => Z.testbit z (Z.of_nat i))).
    rewrite Z.land_spec, Hb, Z.pow2_bits_true, Z.bits_0 in E by lia. done.
  - apply negb_false_iff, Z.eqb_eq, Z.bits_inj'. intros k Hk. rewrite Z.land_spec, Z.pow2_bits_eqb, Z.bits_0 by lia.
    destruct (Z.eqb_spec (Z.of_nat i) k) as [<-|]; [by rewrite Hb|apply andb_false_r].
Qed.

Section Loops.
Context (cur : nat) (extra : nat -> Z).

Lemma exit_slot_run s p i :
  files_ok extra s -> small extra s -> procs s !! cur = Some p -> (i < 16)%nat ->
  exists s', exit_slot cur i s = Ret tt s' /\ files_ok extra s' /\
    procs s' = <[cur := mkP (<[i := None]> (ofile p)) (fdflag p)]> (procs s).
Proof.
  intros H Hsm Ep Hi. destruct (ofile_some cur _ _ _ i H Ep Hi) as [o Eo]. unfold exit_slot.
  rewrite (bind_run _ _ _ _ _ (get_ofile_run cur _ _ _ _ Ep Eo Hi)). destruct o as [f|].
  - destruct (live _ _ _ _ _ _ H Hsm Ep Eo) as (x & Ex & _ & Hr).
    rewrite (bind_run _ _ _ _ _ (fileclose_run s f x (ok_lock _ _ H) Ex ltac:(lia))).
    eexists. split; [apply (set_ofile_run cur (mkS _ _ (procs s) _) p i None Ep Hi)|]. split; [|done].
    unfold set_procs. cbn [ftable ft_lock procs closed]. eapply files_close_slot; eauto; [lia|apply (ok_procs _ _ H _ _ Ep)].
  - exists s. split; [done|]. split; [done|]. rewrite (list_insert_id (ofile p)) by done.
    by rewrite proc_eta, list_insert_id.
Qed.

Lemma exit_loop_run n : forall a s p,
  files_ok extra s -> small extra s -> procs s !! cur = Some p -> (a + n <= 16)%nat ->
  exists s' of', for_each (seq a n) (exit_slot cur) s = Ret tt s' /\ files_ok extra s' /\
    procs s' = <[cur := mkP of' (fdflag p)]> (procs s) /\
    forall k, of' !! k = if decide (a <= k < a + n)%nat then Some None else ofile p !! k.
Proof.
  induction n as [|n IH]; intros a s p H Hsm Ep Ha; cbn [seq for_each].
  - exists s, (ofile p). split; [done|]. split; [done|]. split; [by rewrite proc_eta, list_insert_id|].
    intros k. by rewrite decide_False by lia.
  - destruct (exit_slot_run s p a H Hsm Ep ltac:(lia)) as (s1 & E1 & H1 & Hp1). rewrite (bind_run _ _ _ _ _ E1).
    assert (Hlt : (cur < length (procs s))%nat) by by eapply lookup_lt_Some.
    destruct (IH (S a) s1 (mkP (<[a := None]> (ofile p)) (fdflag p)) H1) as (s' & of' & E' & H' & Hp' & Hk); try lia.
    { eapply small_same, Hsm. rewrite Hp1. apply length_insert. }
    { rewrite Hp1. by apply list_lookup_insert_eq. }
    exists s', of'. split; [done|]. split; [done|]. split; [rewrite Hp', Hp1; by rewrite list_insert_insert_eq|].
    assert (Hla : (a < length (ofile p))%nat) by (rewrite (ok_len _ _ (ok_procs _ _ H _ _ Ep)); lia).
    intros k. rewrite Hk. cbn [ofile]. destruct (decide (S a <= k < S a + n)%nat).
    + by rewrite decide_True by lia.
    + destruct (decide (k = a)) as [->|]; [rewrite decide_True by lia; by rewrite list_lookup_insert_eq|].
      rewrite list_lookup_insert_ne by done. by rewrite decide_False by lia.
Qed.

(** One descriptor handed to the new process. *)
Lemma fork_slot_run np s p q i :
  files_ok extra s -> small extra s -> procs s !! cur = Some p -> procs s !! np = Some q -> np <> cur -> (i < 16)%nat ->
  ofile q !! i = Some None ->
  exists s', fork_slot cur np i s = Ret tt s' /\ files_ok extra s' /\
    procs s' = <[np := mkP (<[i := default None (ofile p !! i)]> (ofile q)) (fdflag q)]> (procs s).
Proof.
  intros H Hsm Ep Eq Hne Hi Ei. destruct (ofile_some cur _ _ _ i H Ep Hi) as [o Eo]. unfold fork_slot. rewrite Eo. cbn [default].
  rewrite (bind_run _ _ _ _ _ (get_ofile_run cur _ _ _ _ Ep Eo Hi)). change (default None (Some o)) with o. destruct o as [f|].
  - destruct (live _ _ _ _ _ _ H Hsm Ep Eo) as (x & Ex & _ & Hr).
    rewrite (bind_run _ _ _ _ _ (filedup_run s f x (ok_lock _ _ H) Ex ltac:(lia))).
    pose proof (files_dup extra s f x H Ex ltac:(lia)) as H1. set (s1 := set_ftable _ s) in *.
    eexists. split; [unfold modify; by rewrite (alter_entry _ _ _ _ (Eq : procs s1 !! np = Some q))|]. split; [|done].
    pose proof (files_slot _ s1 np q i None (Some f) (fdflag q) H1 Eq Ei) as H2. eapply files_ext; [|apply H2].
    + intros g. unfold plus, at_file. rewrite (decide_False (P := None = Some g)) by done.
      destruct (decide (g = f)) as [->|]; [rewrite decide_True by done; lia|]. rewrite decide_False by congruence. lia.
    + intros g [= <-]. cbn. rewrite length_insert. by eapply lookup_lt_Some.
    + apply (ok_procs _ _ H _ _ Eq).
  - exists s. split; [done|]. split; [done|]. rewrite (list_insert_id (ofile q)) by done.
    by rewrite proc_eta, list_insert_id.
Qed.

Lemma fork_loop_run np n : forall a s p q,
  files_ok extra s -> small extra s -> procs s !! cur = Some p -> procs s !! np = Some q -> np <> cur -> (a + n <= 16)%nat ->
  (forall k, (a <= k < 16)%nat -> ofile q !! k = Some None) ->
  exists s' of', for_each (seq a n) (fork_slot cur np) s = Ret tt s' /\ files_ok extra s' /\
    procs s' = <[np := mkP of' (fdflag q)]> (procs s) /\
    forall k, of' !! k = if decide (a <= k < a + n)%nat then ofile p !! k else ofile q !! k.
Proof.
  induction n as [|n IH]; intros a s p q H Hsm Ep Eq Hne Ha Hq; cbn [seq for_each].
  - exists s, (ofile q). split; [done|]. split; [done|]. split; [by rewrite proc_eta, list_insert_id|].
    intros k. by rewrite decide_False by lia.
  - destruct (fork_slot_run np s p q a H Hsm Ep Eq Hne ltac:(lia) (Hq a ltac:(lia))) as (s1 & E1 & H1 & Hp1). rewrite (bind_run _ _ _ _ _ E1).
    assert (Hlt : (np < length (procs s))%nat) by by eapply lookup_lt_Some.
    destruct (IH (S a) s1 p (mkP (<[a := default None (ofile p !! a)]> (ofile q)) (fdflag q)) H1) as (s' & of' & E' & H' & Hp' & Hk); try lia.
    { eapply small_same, Hsm. rewrite Hp1. apply length_insert. }
    { rewrite Hp1. by rewrite list_lookup_insert_ne. }
    { rewrite Hp1. by apply list_lookup_insert_eq. }
    { intros k Hk. cbn [ofile]. rewrite list_lookup_insert_ne by lia. apply Hq. lia. }
    exists s', of'. split; [done|]. split; [done|]. split; [rewrite Hp', Hp1; by rewrite list_insert_insert_eq|].
    assert (Hla : (a < length (ofile q))%nat) by (rewrite (ok_len _ _ (ok_procs _ _ H _ _ Eq)); lia).
    destruct (ofile_some cur _ _ _ a H Ep ltac:(lia)) as [o Eo].
    intros k. rewrite Hk. cbn [ofile]. destruct (decide (S a <= k < S a + n)%nat).
    + by rewrite decide_True by lia.
    + destruct (decide (k = a)) as [->|]; [rewrite decide_True by lia; rewrite list_lookup_insert_eq by done; by rewrite Eo|].
      rewrite list_lookup_insert_ne by done. by rewrite decide_False by lia.
Qed.

Lemma fork_files_run np s p q :
  files_ok extra s -> small extra s -> procs s !! cur = Some p -> procs s !! np = Some q -> np <> cur ->
  (forall k, (k < 16)%nat -> ofile q !! k = Some None) ->
  exists s', fork_files cur np s = Ret tt s' /\ files_ok extra s' /\ procs s' = <[np := p]> (procs s).
Proof.
  intros H Hsm Ep Eq Hne Hq. assert (Hlt : (np < length (procs s))%nat) by by eapply lookup_lt_Some.
  destruct (fork_loop_run np 16 0 s p q H Hsm Ep Eq Hne ltac:(lia)) as (s1 & of' & E1 & H1 & Hp1 & Hk).
  { intros k Hk. apply Hq. lia. }
  assert (Hof : of' = ofile p).
  { apply list_eq. intros k. rewrite Hk. destruct (decide (0 <= k < 0 + 16)%nat); [done|].
    rewrite !lookup_ge_None_2; [done|rewrite (ok_len _ _ (ok_procs _ _ H _ _ Ep)); lia|rewrite (ok_len _ _ (ok_procs _ _ H _ _ Eq)); lia]. }
  unfold fork_files. rewrite (bind_run _ _ _ _ _ E1). subst of'.
  assert (Ep1 : procs s1 !! cur = Some p) by (rewrite Hp1; by rewrite list_lookup_insert_ne).
  assert (Eq1 : procs s1 !! np = Some (mkP (ofile p) (fdflag q))) by (rewrite Hp1; by apply list_lookup_insert_eq).
  rewrite (bind_run _ _ _ _ _ (file_getp_run cur _ _ Ep1)). eexists. split; [unfold modify; by rewrite (alter_entry _ _ _ _ Eq1)|].
  cbn [ofile]. split; [apply (files_flag extra s1 np (mkP (ofile p) (fdflag q)) _ H1 Eq1), (ok_procs _ _ H _ _ Ep)|].
  cbn [procs set_procs]. rewrite Hp1, list_insert_insert_eq. by destruct p.
Qed.

(** A descriptor that is marked is closed, with its mark. *)
Lemma exec_slot_run s p i :
  files_ok extra s -> small extra s -> procs s !! cur = Some p -> flags_ok p -> (i < 16)%nat ->
  exists s' p', exec_slot cur i s = Ret tt s' /\ files_ok extra s' /\ procs s' = <[cur := p']> (procs s) /\ flags_ok p' /\
    (forall k, ofile p' !! k = if decide (k = i /\ Z.testbit (fdflag p) (Z.of_nat i) = true) then Some None else ofile p !! k) /\
    (forall k, Z.testbit (fdflag p') (Z.of_nat k) = Z.testbit (fdflag p) (Z.of_nat k) && negb (bool_decide (i = k))).
Proof.
  intros H Hsm Ep Hfl Hi. destruct (ofile_some cur _ _ _ i H Ep Hi) as [o Eo]. unfold exec_slot.
  rewrite (bind_run _ _ _ _ _ (get_ofile_run cur _ _ _ _ Ep Eo Hi)). pose proof (ok_flag _ _ (ok_procs _ _ H _ _ Ep)) as Hf.
  assert (Hsame : Z.testbit (fdflag p) (Z.of_nat i) = false ->
    files_ok extra s /\ procs s = <[cur := p]> (procs s) /\ flags_ok p /\
    (forall k, ofile p !! k = if decide (k = i /\ Z.testbit (fdflag p) (Z.of_nat i) = true) then Some None else ofile p !! k) /\
    (forall k, Z.testbit (fdflag p) (Z.of_nat k) = Z.testbit (fdflag p) (Z.of_nat k) && negb (bool_decide (i = k)))).
  { intros Hb. split; [done|]. split; [by rewrite list_insert_id|]. split; [done|]. rewrite Hb. split.
    - intros k. rewrite decide_False; [done|]. by intros [_ ?].
    - intros k. destruct (decide (i = k)) as [<-|]; [by rewrite Hb|]. by rewrite bool_decide_false, andb_true_r. }
  destruct o as [f|]; [|exists s, p; split; [done|]; by apply Hsame, Hfl].
  destruct (live _ _ _ _ _ _ H Hsm Ep Eo) as (x & Ex & _ & Hr). unfold flag_test.
  erewrite bind_run by (rewrite (bind_run _ _ _ _ _ (file_getp_run cur _ _ Ep)); reflexivity). rewrite land_bit.
  destruct (Z.testbit (fdflag p) (Z.of_nat i)) eqn:Hb; cbn [when]; [|exists s, p; split; [done|]; by apply Hsame].
  rewrite (bind_run _ _ _ _ _ (fileclose_run s f x (ok_lock _ _ H) Ex ltac:(lia))). set (s1 := mkS _ _ _ _).
  rewrite (bind_run _ _ _ _ _ (set_ofile_run cur s1 p i None Ep Hi)). set (s2 := set_procs _ s1).
  assert (Hlt : (cur < length (procs s))%nat) by by eapply lookup_lt_Some.
  assert (Ep2 : procs s2 !! cur = Some (mkP (<[i := None]> (ofile p)) (fdflag p))) by by apply list_lookup_insert_eq.
  rewrite (flag_remove_run cur s2 _ i Ep2 Hi Hf). cbn [ofile fdflag].
  set (fl := Z.land (fdflag p) _). assert (Hbits : forall k, Z.testbit fl (Z.of_nat k) = Z.testbit (fdflag p) (Z.of_nat k) && negb (bool_decide (i = k)))
    by (intros k; by apply testbit_remove).
  eexists _, (mkP (<[i := None]> (ofile p)) fl). split; [reflexivity|].
  assert (Hps : procs (set_procs (<[cur := mkP (<[i := None]> (ofile p)) fl]> (procs s2)) s2) = <[cur := mkP (<[i := None]> (ofile p)) fl]> (procs s))
    by (cbn; by rewrite list_insert_insert_eq).
  split; [change (files_ok extra (mkS (<[f := dropped x]> (ftable s)) false (procs (set_procs (<[cur := mkP (<[i := None]> (ofile p)) fl]> (procs s2)) s2)) (closed s ++ released x)));
    rewrite Hps; eapply files_close_slot; eauto; [lia|by apply land_below]|].
  split; [done|]. assert (Hil : (i < length (ofile p))%nat) by by eapply lookup_lt_Some.
  assert (Hk : forall k, <[i := None]> (ofile p) !! k = if decide (k = i /\ true = true) then Some None else ofile p !! k).
  { intros k. destruct (decide (k = i)) as [->|]; [rewrite decide_True by done; by apply list_lookup_insert_eq|].
    rewrite decide_False by naive_solver. by apply list_lookup_insert_ne. }
  split; [|done]. intros k. cbn. rewrite Hk, Hbits. destruct (decide (i = k)) as [->|]; [by rewrite bool_decide_true, andb_false_r|].
  rewrite decide_False by naive_solver. intros Ek. by rewrite (Hfl k Ek).
Qed.

Lemma exec_loop_run n : forall a s p,
  files_ok extra s -> small extra s -> procs s !! cur = Some p -> flags_ok p -> (a + n <= 16)%nat ->
  exists s' p', for_each (seq a n) (exec_slot cur) s = Ret tt s' /\ files_ok extra s' /\ procs s' = <[cur := p']> (procs s) /\ flags_ok p' /\
    (forall k, ofile p' !! k = if decide ((a <= k < a + n)%nat /\ Z.testbit (fdflag p) (Z.of_nat k) = true) then Some None else ofile p !! k).
Proof.
  induction n as [|n IH]; intros a s p H Hsm Ep Hfl Ha; cbn [seq for_each].
  - exists s, p. split; [done|]. split; [done|]. split; [by rewrite list_insert_id|]. split; [done|].
    intros k. rewrite decide_False; [done|]. intros [? _]. lia.
  - destruct (exec_slot_run s p a H Hsm Ep Hfl ltac:(lia)) as (s1 & p1 & E1 & H1 & Hp1 & Hf1 & Ho1 & Hb1). rewrite (bind_run _ _ _ _ _ E1).
    assert (Hlt : (cur < length (procs s))%nat) by by eapply lookup_lt_Some.
    destruct (IH (S a) s1 p1 H1) as (s' & p' & E' & H' & Hp' & Hf' & Hk); try done; try lia.
    { eapply small_same, Hsm. rewrite Hp1. apply length_insert. }
    { rewrite Hp1. by apply list_lookup_insert_eq. }
    exists s', p'. split; [done|]. split; [done|]. split; [rewrite Hp', Hp1; by rewrite list_insert_insert_eq|]. split; [done|].
    intros k. rewrite Hk, Ho1, Hb1. destruct (decide (k = a)) as [->|Hka].
    + rewrite (decide_False (P := (S a <= a < S a + n)%nat /\ _)) by (intros [? _]; lia).
      destruct (Z.testbit (fdflag p) (Z.of_nat a)); [rewrite !decide_True by (split; [done || lia|done]); done|].
      rewrite !decide_False by naive_solver. done.
    + rewrite (decide_False (P := k = a /\ _)) by naive_solver. rewrite bool_decide_false, andb_true_r by congruence.
      apply decide_ext. split; intros [? ?]; (split; [lia|done]).
Qed.

End Loops.
(** ** Every sequence of calls *)

Definition no_file : file := mkF FD_NONE 0 0 0 0 0 false false.
Definition no_files : fproc := mkP (replicate 16 None) 0.

(** [reach leaks live s]: [s] comes about from a boot state by system calls
    of the processes in [live]; [leaks] counts the references that were taken
    and belong to no descriptor. *)
Inductive reach : (nat -> Z) -> (nat -> bool) -> fstate -> Prop :=
  | R_boot nf np : reach (fun _ => 0) (fun c => (c =? 0)%nat) (mkS (replicate nf no_file) false (replicate np no_files) [])
  | R_dup e lv s s' c p i from r :
      reach e lv s -> lv c = true -> small e s -> procs s !! c = Some p -> (i < 16)%nat ->
      dupfd c (Z.of_nat i) (Z.of_nat from) s = Ret r s' ->
      reach (leaked (if r <? 0 then default None (ofile p !! i) else None) e) lv s'
  | R_dup3 e lv s s' c p i j f fl r :
      reach e lv s -> lv c = true -> small e s -> procs s !! c = Some p -> i <> j -> (i < 16)%nat -> (j < 16)%nat ->
      ofile p !! i = Some (Some f) -> Z.land fl (not_w 32 O_CLOEXEC) = 0 ->
      sys_dup3 c (Z.of_nat i) (Z.of_nat j) fl s = Ret r s' -> reach e lv s'
  | R_close e lv s s' c p i r :
      reach e lv s -> lv c = true -> small e s -> procs s !! c = Some p -> (i < 16)%nat ->
      sys_close c (Z.of_nat i) s = Ret r s' -> reach e lv s'
  | R_pipe2 e lv s s' c p page fl r :
      reach e lv s -> lv c = true -> small e s -> procs s !! c = Some p ->
      sys_pipe2 c page fl s = Ret r s' -> reach e lv s'
  | R_exec e lv s s' c p :
      reach e lv s -> lv c = true -> small e s -> procs s !! c = Some p ->
      exec_files c s = Ret tt s' -> reach e lv s'
  | R_fork e lv s s' c p np q :
      reach e lv s -> lv c = true -> small e s -> procs s !! c = Some p -> lv np = false -> procs s !! np = Some q ->
      fork_files c np s = Ret tt s' -> reach e (fun k => if decide (k = np) then true else lv k) s'
  | R_exit e lv s s' c p :
      reach e lv s -> lv c = true -> small e s -> procs s !! c = Some p ->
      exit_files c s = Ret tt s' -> reach e (fun k => if decide (k = c) then false else lv k) s'.

(** The invariant. *)
Record in_order (e : nat -> Z) (lv : nat -> bool) (s : fstate) : Prop := {
  io_files : files_ok e s;
  io_flags c p : lv c = true -> procs s !! c = Some p -> flags_ok p;
  io_dead c p : lv c = false -> procs s !! c = Some p -> forall k, (k < 16)%nat -> ofile p !! k = Some None
}.

Lemma in_order_ext e1 e2 lv s : (forall f, e1 f = e2 f) -> in_order e1 lv s -> in_order e2 lv s.
Proof. intros He [H1 H2 H3]. split; [by eapply files_ext|done|done]. Qed.

(** A live process that changed only itself. *)
Lemma in_order_step e e' lv s s' c p' :
  in_order e lv s -> lv c = true -> files_ok e' s' -> procs s' = <[c := p']> (procs s) -> flags_ok p' -> in_order e' lv s'.
Proof.
  intros [H1 H2 H3] Hc H' Hp Hf. split; [done| |]; rewrite Hp; intros k q Hk.
  - destruct (decide (k = c)) as [->|]; [|rewrite list_lookup_insert_ne by done; by apply H2].
    intros E. apply list_lookup_insert_Some in E as [(_ & <- & _)|[? _]]; [done|congruence].
  - rewrite list_lookup_insert_ne by congruence. by apply H3.
Qed.

Lemma done_step e lv s s' c o :
  in_order e lv s -> lv c = true -> done_ok c e s o s' -> in_order (leaked o e) lv s'.
Proof. intros H Hc (H1 & p' & Hp & Hf). by eapply in_order_step. Qed.

Lemma leaked_none e f : leaked None e f = e f.
Proof. unfold leaked, at_file. rewrite decide_False by done. lia. Qed.

Lemma slots_none n f : slots (replicate n None) f = 0.
Proof. induction n as [|n IH]; [done|]. cbn [replicate slots]. unfold at_file. rewrite decide_False by done. lia. Qed.

Lemma in_order_boot nf np : in_order (fun _ => 0) (fun c => (c =? 0)%nat) (mkS (replicate nf no_file) false (replicate np no_files) []).
Proof.
  assert (Hd : forall f, descs (replicate np no_files) f = 0) by (intros f; induction np; cbn [replicate descs]; [done|]; change (ofile no_files) with (replicate 16 (@None nat)); rewrite slots_none; lia).
  split; cbn; [split; cbn; [done| | |]| |].
  - intros i p [-> _]%lookup_replicate. split; cbn; [done| |lia]. intros k f Hf. change (replicate 16 (@None nat) !! k = Some (Some f)) in Hf. by apply lookup_replicate in Hf as [? _].
  - intros f x [-> _]%lookup_replicate. cbn. by rewrite Hd.
  - intros f x [-> _]%lookup_replicate. done.
  - intros c p _ [-> _]%lookup_replicate i _. cbn. apply Z.bits_0.
  - intros c p _ [-> _]%lookup_replicate k Hk. change (replicate 16 (@None nat) !! k = Some None). by apply lookup_replicate_2.
Qed.

(** C17: in every state that fork, exit, execve, dup, dup3, fcntl's F_DUPFD,
    close and pipe2 can bring about, the reference count of every file is
    the number of descriptors that refer to it in all processes plus the
    references lost to calls that failed ([leaks]); a descriptor refers
    to an existing file, only open descriptors are marked close-on-exec, and a
    process that has exited holds nothing. *)
Theorem reference_counts_exact e lv s (H : reach e lv s) : in_order e lv s.
Proof.
  induction H as [nf np|e lv s s' c p i from r H IH Hc Hsm Ep Hi E|e lv s s' c p i j f fl r H IH Hc Hsm Ep Hne Hi Hj Ei Hflg E
    |e lv s s' c p i r H IH Hc Hsm Ep Hi E|e lv s s' c p page fl r H IH Hc Hsm Ep E|e lv s s' c p H IH Hc Hsm Ep E
    |e lv s s' c p np q H IH Hc Hsm Ep Hn Eq E|e lv s s' c p H IH Hc Hsm Ep E];
    [apply in_order_boot|..]; pose proof (io_files _ _ _ IH) as Hok; pose proof (io_flags _ _ _ IH _ _ Hc Ep) as Hfl.
  - destruct (dupfd_run c e s p Hok Hsm Ep Hfl i from Hi) as (r' & s1 & E1 & _ & Hd). rewrite E1 in E. injection E as <- <-.
    destruct (ofile p !! i) as [[f|]|]; [destruct Hd as [(-> & _ & D)|(j & -> & _ & _ & _ & _ & D)]|destruct Hd as [-> ->]..].
    + by eapply done_step.
    + rewrite (proj2 (Z.ltb_ge _ _)) by lia. by eapply done_step.
    + eapply in_order_ext, IH. intros g. symmetry. apply leaked_none.
    + eapply in_order_ext, IH. intros g. symmetry. apply leaked_none.
  - destruct (sys_dup3_run c e s p Hok Hsm Ep Hfl i j f fl Hne Hi Hj Ei Hflg) as (s1 & fl' & E1 & D & _).
    rewrite E1 in E. injection E as <- <-. eapply in_order_ext, done_step; [apply leaked_none|done..].
  - destruct (sys_close_run c e s p Hok Hsm Ep Hfl i Hi) as (r' & s1 & E1 & D & _). rewrite E1 in E. injection E as <- <-.
    eapply in_order_ext, done_step; [apply leaked_none|done..].
  - destruct (sys_pipe2_run c e s p Hok Ep Hfl page fl) as (r' & s1 & E1 & D & _). rewrite E1 in E. injection E as <- <-.
    eapply in_order_ext, done_step; [apply leaked_none|done..].
  - destruct (exec_loop_run c e 16 0 s p Hok Hsm Ep Hfl ltac:(lia)) as (s1 & p' & E1 & H1 & Hp & Hf & _).
    unfold exec_files in E. rewrite E1 in E. injection E as <-. by eapply in_order_step.
  - assert (Hcn : np <> c) by congruence.
    destruct (fork_files_run c e np s p q Hok Hsm Ep Eq Hcn (io_dead _ _ _ IH _ _ Hn Eq)) as (s1 & E1 & H1 & Hp).
    rewrite E1 in E. injection E as <-. split; [done| |]; rewrite Hp; intros k x; destruct (decide (k = np)) as [->|].
    + intros _ [(_ & <- & _)|[? _]]%list_lookup_insert_Some; done.
    + rewrite list_lookup_insert_ne by done. apply IH.
    + done.
    + rewrite list_lookup_insert_ne by done. apply IH.
  - destruct (exit_loop_run c e 16 0 s p Hok Hsm Ep ltac:(lia)) as (s1 & of' & E1 & H1 & Hp & Hk).
    unfold exit_files in E. rewrite E1 in E. injection E as <-. split; [done| |]; rewrite Hp; intros k x; destruct (decide (k = c)) as [->|].
    + done.
    + rewrite list_lookup_insert_ne by done. apply IH.
    + intros _ [(_ & <- & _)|[? _]]%list_lookup_insert_Some; [|done]. intros j Hj. cbn. rewrite Hk. by rewrite decide_True by lia.
    + rewrite list_lookup_insert_ne by done. apply IH.
Qed.

(** C30: closing an open descriptor frees it and its close-on-exec mark, leaves
    every other descriptor and mark alone, and hands the pipe end or inode back
    exactly when the count of references to the file was one. *)
Theorem close_exact cur e s p i f
    (Hok : files_ok e s) (Hsm : small e s) (Ep : procs s !! cur = Some p) (Hfl : flags_ok p) (Hi : (i < 16)%nat)
    (Ei : ofile p !! i = Some (Some f)) :
  exists x fl s', ftable s !! f = Some x /\ sys_close cur (Z.of_nat i) s = Ret 0 s' /\ files_ok e s' /\
    procs s' = <[cur := mkP (<[i := None]> (ofile p)) fl]> (procs s) /\
    (forall j, Z.testbit fl (Z.of_nat j) = Z.testbit (fdflag p) (Z.of_nat j) && negb (bool_decide (i = j))) /\
    closed s' = closed s ++ (if descs (procs s) f + e f =? 1 then last_event x else []).
Proof.
  destruct (sys_close_run cur e s p Hok Hsm Ep Hfl i Hi) as (r & s' & E & [D _] & H). rewrite Ei in H.
  destruct H as (x & fl & Ex & -> & Hc & Hp & Hb). exists x, fl, s'. do 2 (split; [done|]).
  split; [eapply files_ext, D; intros g; apply leaked_none|]. do 2 (split; [done|]). rewrite Hc. unfold released.
  by rewrite (ok_count _ _ Hok _ _ Ex).
Qed.

(** A [dup] that finds no free descriptor returns -EBADF and keeps the
    reference it has taken. *)
Theorem dup_failure_leaks cur e s p i f from :
  files_ok e s -> small e s -> procs s !! cur = Some p -> flags_ok p -> (i < 16)%nat -> ofile p !! i = Some (Some f) ->
  (forall j, (from <= j < 16)%nat -> ofile p !! j <> Some None) ->
  exists s', dupfd cur (Z.of_nat i) (Z.of_nat from) s = Ret (- EBADF) s' /\ procs s' = procs s /\ files_ok (leaked (Some f) e) s'.
Proof.
  intros Hok Hsm Ep Hfl Hi Ei Hfull. destruct (dupfd_run cur e s p Hok Hsm Ep Hfl i from Hi) as (r & s' & E & _ & H). rewrite Ei in H.
  destruct H as [(-> & Hall & D & p' & Hp & _)|(j & _ & Hj & Ej & _)]; [|by destruct (Hfull j Hj)].
  exists s'. split; [done|]. split; [|done]. unfold dupfd in E. rewrite (bind_run _ _ _ _ _ (get_ofile_run cur _ _ _ _ Ep Ei Hi)) in E.
  destruct (live _ _ _ _ _ _ Hok Hsm Ep Ei) as (x & Ex & _ & Hr).
  rewrite (bind_run _ _ _ _ _ (filedup_run s f x (ok_lock _ _ Hok) Ex ltac:(lia))) in E.
  pose proof (files_dup e s f x Hok Ex ltac:(lia)) as H1.
  destruct (fdalloc_run cur _ _ p f from H1 Ep) as [[E2 _]|(j & Hj & Ej & _)]; [|by destruct (Hfull j Hj)].
  rewrite E2 in E. by injection E as <-.
Qed.

(** [dup3] without O_CLOEXEC leaves the mark of the descriptor it replaces. *)
Theorem dup3_keeps_mark cur e s p i j f :
  files_ok e s -> small e s -> procs s !! cur = Some p -> flags_ok p -> (i < 16)%nat -> (j < 16)%nat -> i <> j ->
  ofile p !! i = Some (Some f) -> Z.testbit (fdflag p) (Z.of_nat j) = true ->
  exists s' p', sys_dup3 cur (Z.of_nat i) (Z.of_nat j) 0 s = Ret (Z.of_nat j) s' /\ procs s' = <[cur := p']> (procs s) /\
    ofile p' !! j = Some (Some f) /\ Z.testbit (fdflag p') (Z.of_nat j) = true.
Proof.
  intros Hok Hsm Ep Hfl Hi Hj Hne Ei Hb. destruct (sys_dup3_run cur e s p Hok Hsm Ep Hfl i j f 0 Hne Hi Hj Ei eq_refl) as (s' & fl & E & _ & Hp & Hk).
  eexists s', _. split; [done|]. split; [exact Hp|]. cbn. split; [|by rewrite Hk, Hb].
  apply list_lookup_insert_eq. by rewrite (ok_len _ _ (ok_procs _ _ Hok _ _ Ep)).
Qed.

(** [dup3] from a descriptor that is not open follows a NULL pointer, after it
    has closed the target. *)
Theorem dup3_closed_panics cur e s p i j :
  files_ok e s -> procs s !! cur = Some p -> (i < 16)%nat -> (j < 16)%nat -> i <> j -> ofile p !! i = Some None -> ofile p !! j = Some None ->
  sys_dup3 cur (Z.of_nat i) (Z.of_nat j) 0 s = Panic s.
Proof.
  intros Hok Ep Hi Hj Hne Ei Ej. unfold sys_dup3, NOFILE. rewrite (proj2 (Z.eqb_neq (Z.of_nat i) (Z.of_nat j))) by lia.
  rewrite (proj2 (Z.ltb_ge (Z.of_nat i) 0)), (proj2 (Z.leb_gt 16 (Z.of_nat i))), (proj2 (Z.ltb_ge (Z.of_nat j) 0)), (proj2 (Z.leb_gt 16 (Z.of_nat j))) by lia.
  rewrite Z.land_0_l. cbn [Z.eqb negb orb]. by rewrite (bind_run _ _ _ _ _ (get_ofile_run cur _ _ _ _ Ep Ei Hi)), (bind_run _ _ _ _ _ (get_ofile_run cur _ _ _ _ Ep Ej Hj)).
Qed.

(** * A concrete system *)

(** Four file entries and three processes; the first has made a pipe and
    duplicated its write end. *)
Definition boot3 : fstate := mkS (replicate 4 no_file) false (replicate 3 no_files) [].
Definition after {A} (m : M fstate A) (s : fstate) : fstate := match m s with Ret _ s' => s' | _ => s end.
Definition piped : fstate := after (sys_pipe2 0 (Some 7%nat) 0) boot3.
Definition duped : fstate := after (dupfd 0 1 0) piped.

Lemma small_none s : 16 * Z.of_nat (length (procs s)) < 2 ^ 31 - 2 -> small (fun _ => 0) s.
Proof. intros H f. lia. Qed.

Lemma reference_counts_exact_witness :
  reach (leaked None (fun _ => 0)) (fun c => (c =? 0)%nat) duped /\ in_order (leaked None (fun _ => 0)) (fun c => (c =? 0)%nat) duped /\
  (ref <$> ftable duped) = [1; 2; 0; 0].
Proof.
  assert (H : reach (leaked None (fun _ => 0)) (fun c => (c =? 0)%nat) duped).
  { eapply (R_dup _ _ piped duped 0 _ 1 0 2); [|done|by apply small_none|reflexivity|lia|reflexivity].
    eapply (R_pipe2 _ _ boot3 piped 0 _ (Some 7%nat) 0); [apply R_boot|done|by apply small_none|reflexivity|reflexivity]. }
  split; [exact H|]. split; [exact (reference_counts_exact _ _ _ H)|reflexivity].
Defined.

Lemma piped_ok : files_ok (fun _ => 0) piped.
Proof.
  split; [done| | |].
  - intros i p. change (procs piped) with [mkP (<[1%nat := Some 1%nat]> (<[0%nat := Some 0%nat]> (replicate 16 None))) 0; no_files; no_files].
    intros Hp. assert (Hf : fdflag p = 0 /\ length (ofile p) = 16%nat /\ forall k f, ofile p !! k = Some (Some f) -> (f < 4)%nat).
    { destruct i as [|[|[|i]]]; cbn in Hp; simplify_eq; cbn [fdflag ofile]; (split; [done|]); (split; [done|]); intros k f;
        do 16 (destruct k as [|k]; [cbn; intros; simplify_eq; lia|]); done. }
    destruct Hf as (H1 & H2 & H3). split; [done|done|rewrite H1; lia].
  - intros f x. do 4 (destruct f as [|f]; [intros [= <-]; reflexivity|]). done.
  - intros f x. do 4 (destruct f as [|f]; [intros [= <-] ?; done|]). done.
Qed.

Definition pipe_proc : fproc := mkP (<[1%nat := Some 1%nat]> (<[0%nat := Some 0%nat]> (replicate 16 None))) 0.

Lemma close_exact_witness :
  exists s', sys_close 0 1 piped = Ret 0 s' /\ files_ok (fun _ => 0) s' /\ closed s' = [ClosePipe 7 true].
Proof.
  destruct (close_exact 0 (fun _ => 0) piped pipe_proc 1 1 piped_ok) as (x & fl & s' & Ex & E & H & _ & _ & Hc);
    [by apply small_none|reflexivity|intros k _; apply Z.bits_0|lia|reflexivity|].
  exists s'. split; [exact E|]. split; [exact H|]. rewrite Hc. injection Ex as <-. reflexivity.
Defined.

End File.
