(* ===== verification/Mm.v ===== *)
(** The page allocator: kern/mm.c, with the address macros of inc/memlayout.h,
    inc/mmu.h and inc/types.h.

    Memory is a map from word addresses to 64-bit words.  The free list runs
    through the free pages themselves (the word at the start of a free page is
    the address of the next one, 0 at the end), as in the code.  [kend] is
    the linker's symbol [end]. *)

From stdpp Require Import base list gmap relations.
From Stdlib Require Import ZArith Lia Bool.
From S2P Require Import Prelude.

Module Mm.

Definition PGSIZE : Z := 4096.
Definition PGSHIFT : Z := 12.
Definition KERNBASE : Z := 0xFFFF000000000000.
Definition PHYSTOP : Z := 0x3b400000.
Definition NFRAMES : Z := PHYSTOP / PGSIZE.

Definition V2P (a : Z) : Z := u64 (a - KERNBASE).
Definition P2V (a : Z) : Z := u64 (a + KERNBASE).
Definition ROUNDDOWN (a n : Z) : Z := a - a mod n.
Definition ROUNDUP (a n : Z) : Z := ROUNDDOWN (u64 (a + n - 1)) n.

Record kstate : Type := mkK {
  mem : gmap Z Z;
  freelist : Z;
  fpages : Z;
  kmem_lock : bool;
  ref : gmap Z Z;      (* kmem_reftable.ref, zero where absent *)
  ref_lock : bool;
  totalram : Z
}.

Definition set_free (l n : Z) (s : kstate) : kstate :=
  mkK (mem s) l n (kmem_lock s) (ref s) (ref_lock s) (totalram s).
Definition set_mem (m : gmap Z Z) (s : kstate) : kstate :=
  mkK m (freelist s) (fpages s) (kmem_lock s) (ref s) (ref_lock s) (totalram s).
Definition set_klock (b : bool) (s : kstate) : kstate :=
  mkK (mem s) (freelist s) (fpages s) b (ref s) (ref_lock s) (totalram s).
Definition set_ref (r : gmap Z Z) (s : kstate) : kstate :=
  mkK (mem s) (freelist s) (fpages s) (kmem_lock s) r (ref_lock s) (totalram s).
Definition set_rlock (b : bool) (s : kstate) : kstate :=
  mkK (mem s) (freelist s) (fpages s) (kmem_lock s) (ref s) b (totalram s).
Definition set_total (t : Z) (s : kstate) : kstate :=
  mkK (mem s) (freelist s) (fpages s) (kmem_lock s) (ref s) (ref_lock s) t.

Definition acquire_kmem : M kstate unit :=
  fun s => if kmem_lock s then Block s else Ret tt (set_klock true s).
Definition release_kmem : M kstate unit :=
  fun s => if kmem_lock s then Ret tt (set_klock false s) else Panic s.
Definition acquire_ref : M kstate unit :=
  fun s => if ref_lock s then Block s else Ret tt (set_rlock true s).
Definition release_ref : M kstate unit :=
  fun s => if ref_lock s then Ret tt (set_rlock false s) else Panic s.

Definition load (a : Z) : M kstate Z := gets (fun s => default 0 (mem s !! a)).
Definition store (a v : Z) : M kstate unit := modify (fun s => set_mem (<[a := v]> (mem s)) s).

(** [kmem_reftable.ref[pa >> PGSHIFT]]: the entry of a frame; an index beyond
    the table is outside the array. *)
Definition frame (pa : Z) : M kstate Z :=
  let i := Z.shiftr pa PGSHIFT in
  if (0 <=? i) && (i <? NFRAMES) then ret i else panic.

Definition ref_of (s : kstate) (i : Z) : Z := default 0 (ref s !! i).

Definition update_ref (pa : Z) (f : Z -> Z) : M kstate unit :=
  acquire_ref ;;
  let* i := frame pa in
  modify (fun s => set_ref (<[i := f (ref_of s i)]> (ref s)) s) ;;
  release_ref.

Definition inc_kmem_ref (pa : Z) : M kstate unit := update_ref pa (fun r => s32 (r + 1)).

Definition dec_kmem_ref (pa : Z) : M kstate unit := update_ref pa (fun r => s32 (r - 1)).

Definition set_kmem_ref (pa count : Z) : M kstate unit := update_ref pa (fun _ => count).

Definition get_kmem_ref (pa : Z) : M kstate Z :=
  acquire_ref ;;
  let* i := frame pa in
  let* r := gets (fun s => ref_of s i) in
  release_ref ;;
  ret r.

Definition get_totalram : M kstate Z := gets totalram.

Definition get_freeram : M kstate Z :=
  acquire_kmem ;;
  let* n := gets fpages in
  release_kmem ;;
  ret (u64 (n * PGSIZE)).

Definition kalloc : M kstate Z :=
  acquire_kmem ;;
  let* r := gets freelist in
  (if truthy r then
     let* next := load r in
     modify (fun s => set_free next (u64 (fpages s - 1)) s) ;;
     set_kmem_ref (V2P r) 1
   else ret tt) ;;
  release_kmem ;;
  ret r.

Section Kernel.
Context (kend : Z).

Definition kfree (va : Z) : M kstate unit :=
  if truthy (va mod PGSIZE) || (va <? kend) || (V2P va >=? PHYSTOP) then panic else
  acquire_kmem ;;
  let* fl := gets freelist in
  store va fl ;;
  modify (fun s => set_free va (u64 (fpages s + 1)) s) ;;
  set_kmem_ref (V2P va) 0 ;;
  release_kmem.

(** The loop from [p] on. *)
Fixpoint free_range (fuel : nat) (p stop : Z) : M kstate unit :=
  if p + PGSIZE <=? stop then
    match fuel with
    | O => nofuel
    | S fuel' =>
        kfree p ;;
        modify (fun s => set_total (u64 (totalram s + PGSIZE)) s) ;;
        free_range fuel' (p + PGSIZE) stop
    end
  else ret tt.

Definition mm_init (fuel : nat) : M kstate unit :=
  modify (fun s => set_klock false (set_rlock false s)) ;;
  acquire_ref ;;
  modify (set_ref ∅) ;;
  release_ref ;;
  modify (fun s => set_free (freelist s) 0 s) ;;
  free_range fuel (ROUNDUP kend PGSIZE) (P2V PHYSTOP).

(** * The free list *)

(** A page the allocator manages. *)
Definition page (p : Z) : Prop := p mod PGSIZE = 0 /\ kend <= p < KERNBASE + PHYSTOP.

(** The pages [l], linked through their first words, start at [a]. *)
Fixpoint chain (m : gmap Z Z) (a : Z) (l : list Z) : Prop :=
  match l with
  | [] => a = 0
  | p :: l' => a = p /\ chain m (default 0 (m !! p)) l'
  end.

Record inv (l : list Z) (s : kstate) : Prop := {
  inv_locks : kmem_lock s = false /\ ref_lock s = false;
  inv_pages : Forall page l;
  inv_nodup : NoDup l;
  inv_chain : chain (mem s) (freelist s) l;
  inv_count : fpages s = Z.of_nat (length l);
  inv_refs : Forall (fun p => ref_of s (Z.shiftr (V2P p) PGSHIFT) = 0) l
}.

Hypothesis kend_ok : KERNBASE < kend < KERNBASE + PHYSTOP.

Lemma chain_frame m m' a l :
  chain m a l -> (forall p, p ∈ l -> m' !! p = m !! p) -> chain m' a l.
Proof.
  revert a. induction l as [|p l IH]; intros a Hc Hf; [done|]. destruct Hc as [-> Hc]. split; [done|].
  rewrite Hf by by left. apply IH; [done|]. intros q Hq. apply Hf. by right.
Qed.

Lemma page_v2p p : page p -> V2P p = p - KERNBASE /\ 0 <= Z.shiftr (V2P p) PGSHIFT < NFRAMES.
Proof using kend_ok.
  pose proof kend_ok as Hend. intros [Hm Hr].
  assert (E : V2P p = p - KERNBASE) by (unfold V2P, KERNBASE, PHYSTOP in *; apply u64_id; lia).
  split; [done|]. rewrite E, Z.shiftr_div_pow2 by done. unfold KERNBASE, PHYSTOP, NFRAMES, PGSIZE, PGSHIFT in *.
  split; [apply Z.div_pos; lia|]. apply Z.div_lt_upper_bound; [lia|].
  change (2 ^ 12 * (PHYSTOP / 4096)) with 0x3b400000. lia.
Qed.

(** Different pages have different frames. *)
Lemma page_frame_inj p q : page p -> page q -> Z.shiftr (V2P p) PGSHIFT = Z.shiftr (V2P q) PGSHIFT -> p = q.
Proof using kend_ok.
  intros Hp Hq. destruct (page_v2p p Hp) as [-> _], (page_v2p q Hq) as [-> _].
  destruct Hp as [Hp _], Hq as [Hq _]. unfold PGSIZE, KERNBASE, PGSHIFT in *. rewrite !Z.shiftr_div_pow2 by lia.
  change (2 ^ 12) with 4096. intros E.
  pose proof (Z.div_mod (p - 0xFFFF000000000000) 4096 ltac:(lia)) as E1.
  pose proof (Z.div_mod (q - 0xFFFF000000000000) 4096 ltac:(lia)) as E2.
  assert (forall x, x mod 4096 = 0 -> (x - 0xFFFF000000000000) mod 4096 = 0) as Hz.
  { intros x Hx. rewrite Zminus_mod, Hx. reflexivity. }
  rewrite (Hz p Hp) in E1. rewrite (Hz q Hq) in E2. lia.
Qed.

Lemma update_ref_run pa f s :
  ref_lock s = false -> 0 <= Z.shiftr pa PGSHIFT < NFRAMES ->
  update_ref pa f s =
  Ret tt (set_ref (<[Z.shiftr pa PGSHIFT := f (ref_of s (Z.shiftr pa PGSHIFT))]> (ref s)) s).
Proof.
  intros Hl Hi. unfold update_ref, bind at 1, acquire_ref. rewrite Hl. unfold bind at 1, frame.
  destruct (Z.leb_spec 0 (Z.shiftr pa PGSHIFT)); [|lia]. destruct (Z.ltb_spec (Z.shiftr pa PGSHIFT) NFRAMES); [|lia].
  cbn. unfold bind, modify, release_ref. cbn. unfold set_ref, set_rlock. cbn. by rewrite Hl.
Qed.

Lemma ref_of_insert s i j v : ref_of (set_ref (<[i := v]> (ref s)) s) j = if decide (i = j) then v else ref_of s j.
Proof.
  unfold ref_of. cbn. destruct (decide (i = j)) as [->|]; [by rewrite lookup_insert_eq|by rewrite lookup_insert_ne].
Qed.

Lemma kalloc_run s l :
  inv l s -> Z.of_nat (length l) < 2 ^ 64 ->
  match l with
  | [] => kalloc s = Ret 0 s
  | p :: l' => exists s', kalloc s = Ret p s' /\ inv l' s' /\ ref_of s' (Z.shiftr (V2P p) PGSHIFT) = 1 /\
                 mem s' = mem s /\ page p /\ totalram s' = totalram s /\
                 (forall i, i <> Z.shiftr (V2P p) PGSHIFT -> ref_of s' i = ref_of s i)
  end.
Proof using kend_ok.
  intros [[Hk Hr] Hp Hn Hc Hcnt Hz] Hlen. destruct l as [|p l].
  - cbn in Hc. unfold kalloc, bind at 1, acquire_kmem. rewrite Hk. unfold bind at 1, gets. cbn. rewrite Hc. cbn.
    unfold bind, ret, release_kmem. cbn. unfold set_klock. cbn. destruct s; cbn in *. by subst.
  - destruct Hc as [Efl Hc]. apply Forall_cons in Hp as [Hpg Hp]. apply NoDup_cons in Hn as [Hnp Hn].
    apply Forall_cons in Hz as [_ Hz]. destruct (page_v2p p Hpg) as [_ Hfr].
    unfold kalloc, bind at 1, acquire_kmem. rewrite Hk. unfold bind at 1, gets at 1. cbn [freelist set_klock].
    rewrite Efl. assert (truthy p = true) as ->.
    { unfold truthy. destruct (Z.eqb_spec p 0) as [->|]; [|done]. destruct Hpg as [_ Hb]. pose proof kend_ok. unfold KERNBASE in *. lia. }
    unfold bind at 1. unfold bind at 1, load, gets. unfold bind at 1, modify. cbn [mem set_klock fpages].
    unfold set_kmem_ref. rewrite update_ref_run by done.
    unfold bind, release_kmem. cbn. eexists. split; [reflexivity|].
    rewrite Hcnt. cbn [length] in *. split.
    + constructor; cbn; [done|done|done|done|rewrite u64_id by lia; lia|].
      rewrite Forall_forall in *. intros q Hq. unfold ref_of. cbn. rewrite lookup_insert_ne; [by apply Hz|].
      intros E. apply page_frame_inj in E; [by subst|done|by apply Hp].
    + unfold ref_of. cbn. rewrite lookup_insert_eq. split_and!; try done. intros i Hi. by rewrite lookup_insert_ne.
Qed.

Lemma kfree_run s l va :
  inv l s -> page va -> va ∉ l -> Z.of_nat (length l) + 1 < 2 ^ 64 ->
  exists s', kfree va s = Ret tt s' /\ inv (va :: l) s' /\ totalram s' = totalram s /\
    (forall a, a <> va -> mem s' !! a = mem s !! a) /\
    (forall i, i <> Z.shiftr (V2P va) PGSHIFT -> ref_of s' i = ref_of s i).
Proof using kend_ok.
  intros [[Hk Hr] Hp Hn Hc Hcnt Hz] Hpg Hni Hlen. destruct (page_v2p va Hpg) as [Ev Hfr].
  unfold kfree. destruct Hpg as [Hm Hb] eqn:Epg. rewrite Hm, Ev.
  destruct (Z.ltb_spec va kend); [lia|]. rewrite Z.geb_leb. destruct (Z.leb_spec PHYSTOP (va - KERNBASE)); [lia|]. cbn [truthy Z.eqb negb orb].
  unfold bind at 1, acquire_kmem. rewrite Hk. unfold bind at 1, gets at 1. unfold bind at 1, store, modify at 1.
  unfold bind at 1, modify at 1. unfold bind at 1, set_kmem_ref. rewrite <- Ev. rewrite update_ref_run by done.
  unfold release_kmem. cbn. eexists. split; [reflexivity|]. split; [|split; [done|]].
  - constructor; cbn; [done|by constructor|by constructor| |rewrite Hcnt, u64_id; lia|].
    + split; [done|]. rewrite lookup_insert_eq. cbn. eapply chain_frame; [done|]. intros q Hq.
      by rewrite lookup_insert_ne by set_solver.
    + apply Forall_cons. split; [unfold ref_of; cbn; by rewrite lookup_insert_eq|].
      rewrite Forall_forall in *. intros q Hq. unfold ref_of. cbn. rewrite lookup_insert_ne; [by apply Hz|].
      intros E. apply page_frame_inj in E; [by subst|done|by apply Hp].
  - split; [intros a Ha; cbn; by rewrite lookup_insert_ne|]. intros i Hi. unfold ref_of. cbn. by rewrite lookup_insert_ne.
Qed.

(** * Initialisation *)

(** [n] pages from [p] up. *)
Definition pages_from (p : Z) (n : nat) : list Z := map (fun k => p + PGSIZE * Z.of_nat k) (seq 0 n).

Lemma pages_from_S p n : pages_from p (S n) = p :: pages_from (p + PGSIZE) n.
Proof.
  unfold pages_from. cbn [seq map]. f_equal; [lia|]. rewrite <- seq_shift, map_map. apply map_ext. intros k. lia.
Qed.

Lemma in_pages_from p n q : q ∈ pages_from p n <-> exists k, (k < n)%nat /\ q = p + PGSIZE * Z.of_nat k.
Proof.
  unfold pages_from. rewrite list_elem_of_fmap. split.
  - intros (k & -> & Hk%elem_of_seq). exists k. split; [lia|done].
  - intros (k & Hk & ->). exists k. split; [done|]. apply elem_of_seq. lia.
Qed.

Lemma free_range_run n : forall p stop s l,
  inv l s -> (forall q, q ∈ l -> q < p) -> p mod PGSIZE = 0 -> kend <= p ->
  p + PGSIZE * Z.of_nat n <= stop < p + PGSIZE * (Z.of_nat n + 1) -> stop <= KERNBASE + PHYSTOP ->
  Z.of_nat (length l) + Z.of_nat n < 2 ^ 63 -> 0 <= totalram s ->
  totalram s + PGSIZE * Z.of_nat n < 2 ^ 64 ->
  exists s', (forall fuel, (n <= fuel)%nat -> free_range fuel p stop s = Ret tt s') /\
    inv (reverse (pages_from p n) ++ l) s' /\ totalram s' = totalram s + PGSIZE * Z.of_nat n.
Proof using kend_ok.
  induction n as [|n IH]; intros p stop s l HI Hlt Hal Hkp Hst Htop Hlen Ht0 Ht.
  - exists s. split; [|split; [done|lia]]. intros fuel _. destruct fuel; cbn [free_range];
    (destruct (Z.leb_spec (p + PGSIZE) stop); [lia|done]).
  - unfold PGSIZE in *. assert (Hpg : page p) by (split; unfold PGSIZE; [done|lia]).
    destruct (kfree_run s l p HI Hpg) as (s1 & Hr & HI1 & Ht1 & _); [intros Hx; specialize (Hlt p Hx); lia|lia|].
    destruct (IH (p + 4096) stop (set_total (u64 (totalram s1 + 4096)) s1) (p :: l)) as (s' & Hr' & HI' & Ht').
    + by destruct HI1.
    + intros q [->|Hq]%elem_of_cons; [lia|]. specialize (Hlt q Hq). lia.
    + rewrite <- Zplus_mod_idemp_r. cbn. by rewrite Z.add_0_r.
    + lia.
    + lia.
    + done.
    + cbn [length]. lia.
    + cbn. apply wrap_range. lia.
    + cbn. rewrite Ht1, u64_id by lia. lia.
    + exists s'. split; [|split].
      * intros [|fuel] Hf; [lia|]. cbn [free_range]. unfold PGSIZE. destruct (Z.leb_spec (p + 4096) stop); [|lia].
        unfold bind at 1. rewrite Hr. unfold bind at 1, modify. apply Hr'. lia.
      * rewrite pages_from_S, reverse_cons, <- app_assoc. exact HI'.
      * rewrite Ht'. cbn. rewrite Ht1, u64_id by lia. lia.
Qed.

(** Every page between the kernel and the top of memory. *)
Definition all_pages : list Z :=
  reverse (pages_from (ROUNDUP kend PGSIZE) (Z.to_nat ((KERNBASE + PHYSTOP - ROUNDUP kend PGSIZE) / PGSIZE))).

Lemma roundup_kend :
  ROUNDUP kend PGSIZE mod PGSIZE = 0 /\ kend <= ROUNDUP kend PGSIZE < kend + PGSIZE.
Proof using kend_ok.
  pose proof kend_ok. unfold ROUNDUP, ROUNDDOWN, PGSIZE, KERNBASE, PHYSTOP in *. rewrite u64_id by lia.
  pose proof (Z.div_mod (kend + 4096 - 1) 4096 ltac:(lia)). pose proof (Z.mod_pos_bound (kend + 4096 - 1) 4096 ltac:(lia)).
  split; [|lia]. rewrite Zminus_mod, Z.mod_mod, Z.sub_diag by lia. done.
Qed.

Lemma page_in_all p : page p <-> p ∈ all_pages.
Proof using kend_ok.
  pose proof kend_ok as Hk. destruct roundup_kend as [Hal Hb]. set (r := ROUNDUP kend PGSIZE) in *.
  unfold all_pages. fold r. rewrite elem_of_reverse, in_pages_from. unfold page, PGSIZE in *.
  pose proof (Z.div_mod r 4096 ltac:(lia)) as Er. rewrite Hal in Er.
  pose proof (Z.div_mod (KERNBASE + PHYSTOP - r) 4096 ltac:(lia)) as Eq.
  pose proof (Z.mod_pos_bound (KERNBASE + PHYSTOP - r) 4096 ltac:(lia)).
  assert (Htop : (KERNBASE + PHYSTOP) mod 4096 = 0) by reflexivity.
  assert (Hz : (KERNBASE + PHYSTOP - r) mod 4096 = 0) by (rewrite Zminus_mod, Htop, Hal; reflexivity).
  split.
  - intros [Hm Hp]. pose proof (Z.div_mod p 4096 ltac:(lia)) as Ep. rewrite Hm in Ep.
    exists (Z.to_nat (p / 4096 - r / 4096)). unfold KERNBASE, PHYSTOP in *. lia.
  - intros (k & Hkn & ->). split; [rewrite Zplus_mod, Hal, Z.mul_comm, Z.mod_mul by lia; done|].
    unfold KERNBASE, PHYSTOP in *. lia.
Qed.

Lemma nodup_all : NoDup all_pages.
Proof.
  unfold all_pages. rewrite reverse_Permutation. apply NoDup_fmap_2; [|apply NoDup_seq].
  intros a b E. unfold PGSIZE in E. lia.
Qed.

(** * Clients *)

(** One step of the system: a client allocates a page, frees one it holds,
    writes to one it holds, or changes its reference count. *)
Inductive kstep : kstate * list Z -> kstate * list Z -> Prop :=
| k_alloc s H p s' : kalloc s = Ret p s' -> p <> 0 -> kstep (s, H) (s', p :: H)
| k_none s H s' : kalloc s = Ret 0 s' -> kstep (s, H) (s', H)
| k_free s H1 p H2 s' : kfree p s = Ret tt s' -> kstep (s, H1 ++ p :: H2) (s', H1 ++ H2)
| k_write s H p a v : p ∈ H -> p <= a < p + PGSIZE -> kstep (s, H) (set_mem (<[a := v]> (mem s)) s, H)
| k_inc s H p s' : p ∈ H -> inc_kmem_ref (V2P p) s = Ret tt s' -> kstep (s, H) (s', H)
| k_dec s H p s' : p ∈ H -> dec_kmem_ref (V2P p) s = Ret tt s' -> kstep (s, H) (s', H).

(** Free and held pages partition the pages of the machine. *)
Definition owned (c : kstate * list Z) : Prop :=
  exists l, inv l c.1 /\ c.2 ++ l ≡ₚ all_pages.

Lemma owned_len (H l : list Z) : H ++ l ≡ₚ all_pages -> Z.of_nat (length l) < 2 ^ 32.
Proof using kend_ok.
  intros HP. apply Permutation_length in HP. rewrite length_app in HP.
  destruct roundup_kend as [_ Hb]. pose proof kend_ok. unfold all_pages, pages_from in HP.
  rewrite length_reverse, length_map, length_seq in HP. unfold KERNBASE, PHYSTOP, PGSIZE in *.
  assert ((18446462598732840960 + 994050048 - ROUNDUP kend 4096) / 4096 < 2 ^ 32)
    by (apply Z.div_lt_upper_bound; lia). lia.
Qed.

Lemma inv_other_refs l s p f :
  inv l s -> page p -> p ∉ l ->
  inv l (set_ref (<[Z.shiftr (V2P p) PGSHIFT := f]> (ref s)) s).
Proof using kend_ok.
  intros [Hlk Hp Hn Hc Hcnt Hz] Hpg Hni. constructor; try done.
  rewrite Forall_forall in *. intros q Hq. rewrite ref_of_insert. rewrite decide_False; [by apply Hz|].
  intros E. apply page_frame_inj in E; [by subst|done|by apply Hp].
Qed.

Lemma kstep_owned c c' : owned c -> kstep c c' -> owned c'.
Proof using kend_ok.
  intros (l & HI & HP) Hs. pose proof (owned_len _ _ HP) as Hlen.
  assert (Hheld : forall p, p ∈ c.2 -> page p /\ p ∉ l).
  { intros p Hp. split; [apply page_in_all; rewrite <- HP; set_solver|]. intros Hl.
    pose proof nodup_all as Hn. rewrite <- HP in Hn. apply NoDup_app in Hn as (_ & Hd & _). by eapply Hd. }
  destruct Hs as [s H p s' E Hne|s H s' E|s H1 p H2 s' E|s H p a v Hp Ha|s H p s' Hp E|s H p s' Hp E]; cbn [fst snd] in *.
  - pose proof (kalloc_run s l HI ltac:(lia)) as Hk. destruct l as [|q l]; [rewrite E in Hk; by injection Hk as ->|].
    destruct Hk as (s2 & E2 & HI2 & _). rewrite E in E2. injection E2 as -> ->. exists l. split; [done|].
    cbn [snd]. rewrite <- HP. cbn. by rewrite Permutation_middle.
  - pose proof (kalloc_run s l HI ltac:(lia)) as Hk. destruct l as [|q l]; [rewrite E in Hk; injection Hk as ->; by exists []|].
    destruct Hk as (s2 & E2 & _ & _ & _ & Hpg & _). rewrite E in E2. injection E2 as <- _.
    destruct Hpg as [_ Hb]. pose proof kend_ok. unfold KERNBASE in *. lia.
  - destruct (Hheld p) as [Hpg Hni]; [set_solver|].
    destruct (kfree_run s l p HI Hpg Hni ltac:(lia)) as (s2 & E2 & HI2 & _). rewrite E in E2. injection E2 as ->.
    exists (p :: l). split; [done|]. cbn [snd]. rewrite <- HP, <- !app_assoc. apply Permutation_app_head.
    cbn. by rewrite <- Permutation_middle.
  - destruct (Hheld p Hp) as [Hpg Hni]. exists l. split; [|done]. destruct HI as [Hlk Hpp Hn Hc Hcnt Hz].
    constructor; try done. cbn. eapply chain_frame; [done|]. intros q Hq. rewrite lookup_insert_ne; [done|].
    intros <-. rewrite Forall_forall in Hpp. destruct (Hpp a Hq) as [Hqm _], Hpg as [Hpm _]. unfold PGSIZE in *.
    pose proof (Z.div_mod a 4096 ltac:(lia)). pose proof (Z.div_mod p 4096 ltac:(lia)).
    assert (a = p) by lia. by subst.
  - destruct (Hheld p Hp) as [Hpg Hni]. destruct (page_v2p p Hpg) as [_ Hf].
    unfold inc_kmem_ref in E. rewrite update_ref_run in E by (done || apply HI). injection E as <-.
    exists l. split; [by apply inv_other_refs|done].
  - destruct (Hheld p Hp) as [Hpg Hni]. destruct (page_v2p p Hpg) as [_ Hf].
    unfold dec_kmem_ref in E. rewrite update_ref_run in E by (done || apply HI). injection E as <-.
    exists l. split; [by apply inv_other_refs|done].
Qed.

Lemma ksteps_owned c c' : rtc kstep c c' -> owned c -> owned c'.
Proof using kend_ok. induction 1 as [|c c1 c' Hs _ IH]; [done|]. intros HI. apply IH. by eapply kstep_owned. Qed.

Lemma mm_init_run s :
  freelist s = 0 -> totalram s = 0 ->
  exists s', mm_init (Z.to_nat NFRAMES) s = Ret tt s' /\ inv all_pages s' /\
    totalram s' = PGSIZE * Z.of_nat (length all_pages).
Proof using kend_ok.
  intros Hf Ht. pose proof kend_ok as Hk. destruct roundup_kend as [Hal Hb]. set (r := ROUNDUP kend PGSIZE) in *.
  set (n := Z.to_nat ((KERNBASE + PHYSTOP - r) / PGSIZE)).
  set (s0 := set_free (freelist s) 0 (set_ref ∅ (set_rlock false (set_klock false s)))).
  assert (HI : inv [] s0) by (constructor; try done; constructor).
  assert (Hn : r + PGSIZE * Z.of_nat n <= KERNBASE + PHYSTOP < r + PGSIZE * (Z.of_nat n + 1)).
  { unfold n, PGSIZE in *. assert (Htop : (KERNBASE + PHYSTOP) mod 4096 = 0) by reflexivity.
    pose proof (Z.div_mod (KERNBASE + PHYSTOP - r) 4096 ltac:(lia)). pose proof (Z.mod_pos_bound (KERNBASE + PHYSTOP - r) 4096 ltac:(lia)).
    pose proof (Z.div_mod r 4096 ltac:(lia)). pose proof (Z.div_mod (KERNBASE + PHYSTOP) 4096 ltac:(lia)).
    unfold KERNBASE, PHYSTOP in *. lia. }
  assert (Hsm : PGSIZE * Z.of_nat n < 2 ^ 32) by (unfold KERNBASE, PHYSTOP in *; lia).
  destruct (free_range_run n r (P2V PHYSTOP) s0 [] HI) as (s' & Hr & HI' & Ht').
  - intros q Hq. by apply elem_of_nil in Hq.
  - done.
  - lia.
  - exact Hn.
  - done.
  - cbn. unfold PGSIZE in *. lia.
  - cbn. lia.
  - cbn. lia.
  - exists s'. split; [|split].
    + unfold mm_init, bind, modify, acquire_ref, release_ref. cbn [ref_lock set_rlock set_klock kmem_lock set_ref].
      apply Hr. unfold NFRAMES, PHYSTOP, PGSIZE, KERNBASE in *. change (994050048 / 4096) with 242688. lia.
    + rewrite app_nil_r in HI'. exact HI'.
    + rewrite Ht'. cbn [totalram s0 set_free set_ref set_rlock set_klock]. rewrite Ht. unfold all_pages, pages_from.
      rewrite length_reverse, length_map, length_seq. fold r n. lia.
Qed.
End Kernel.

(** * The properties of the page allocator *)

(** C39: pages are never shared by accident.  [mm_init] returns (as many loop
    turns as there are page frames suffice), and in every state reachable from
    there by clients that allocate pages, free pages they hold, write to pages
    they hold and change reference counts, [kalloc] returns a page-aligned page
    of the managed range that no client holds, and it fails only when every page
    is held; [fpages] always counts the pages nobody holds. *)
Theorem kalloc_exclusive kend s0 :
  KERNBASE < kend < KERNBASE + PHYSTOP -> freelist s0 = 0 -> totalram s0 = 0 ->
  exists s1, mm_init kend (Z.to_nat NFRAMES) s0 = Ret tt s1 /\
    forall s H, rtc (kstep kend) (s1, []) (s, H) ->
    exists r s', kalloc s = Ret r s' /\ fpages s = Z.of_nat (length (all_pages kend)) - Z.of_nat (length H) /\
      if r =? 0 then H ≡ₚ all_pages kend else page kend r /\ r ∉ H.
Proof.
  intros Hk Hf Ht. destruct (mm_init_run kend Hk s0 Hf Ht) as (s1 & Hr & HI & _).
  exists s1. split; [done|]. intros s H Hsteps.
  assert (Ho : owned kend (s, H)).
  { eapply ksteps_owned; [done|done|]. exists (all_pages kend). split; [done|reflexivity]. }
  destruct Ho as (l & HIl & HP). cbn in HIl, HP. pose proof (owned_len kend Hk _ _ HP).
  assert (Hcnt : fpages s = Z.of_nat (length (all_pages kend)) - Z.of_nat (length H)).
  { rewrite (inv_count _ _ _ HIl). apply Permutation_length in HP. rewrite length_app in HP. lia. }
  pose proof (kalloc_run kend Hk s l HIl ltac:(lia)) as Hrun. destruct l as [|p l].
  - exists 0, s. split; [done|]. split; [done|]. cbn. by rewrite app_nil_r in HP.
  - destruct Hrun as (s' & Hrun & _ & _ & _ & Hpg & _). exists p, s'. split; [done|]. split; [done|].
    destruct (Z.eqb_spec p 0) as [->|]; [destruct Hpg as [_ Hb]; unfold KERNBASE in *; lia|]. split; [done|].
    pose proof (nodup_all kend) as Hn. rewrite <- HP in Hn. apply NoDup_app in Hn as (_ & Hd & _).
    intros Hx. eapply Hd; [done|by left].
Qed.

(** The allocator's state before [mm_init]. *)
Definition boot_kmem : kstate := mkK ∅ 0 0 false ∅ false 0.

Lemma kalloc_exclusive_witness :
  exists s1, mm_init (KERNBASE + PHYSTOP - 5000) (Z.to_nat NFRAMES) boot_kmem = Ret tt s1 /\
    exists r s', kalloc s1 = Ret r s'.
Proof.
  destruct (kalloc_exclusive (KERNBASE + PHYSTOP - 5000) boot_kmem) as (s1 & Hr & H);
    [unfold KERNBASE, PHYSTOP; lia|reflexivity|reflexivity|].
  exists s1. split; [exact Hr|]. destruct (H s1 [] (rtc_refl _ _)) as (r & s' & Hk & _). exists r, s'. exact Hk.
Defined.

(** One operation at a time: [kalloc] pops the free list and sets the page's
    reference count to 1, and reports 0 without any change when the list is
    empty; [kfree] pushes a valid page and clears its count; [kfree] of an
    address that is unaligned, below the kernel's end or above physical memory
    panics before touching anything. *)
Theorem kalloc_kfree_exact kend s l va :
  KERNBASE < kend < KERNBASE + PHYSTOP -> inv kend l s -> Z.of_nat (length l) + 1 < 2 ^ 64 ->
  0 <= va < 2 ^ 64 ->
  match l with
  | [] => kalloc s = Ret 0 s
  | p :: l' => exists s', kalloc s = Ret p s' /\ inv kend l' s' /\ ref_of s' (Z.shiftr (V2P p) PGSHIFT) = 1
  end /\
  (page kend va -> va ∉ l -> exists s', kfree kend va s = Ret tt s' /\ inv kend (va :: l) s') /\
  (~ page kend va -> kfree kend va s = Panic s).
Proof.
  intros Hk HI Hlen Hva. split; [|split].
  - pose proof (kalloc_run kend Hk s l HI ltac:(lia)) as H. destruct l as [|p l]; [done|].
    destruct H as (s' & ? & ? & ? & _). by exists s'.
  - intros Hp Hn. destruct (kfree_run kend Hk s l va HI Hp Hn Hlen) as (s' & ? & ? & _). by exists s'.
  - intros Hnp. unfold kfree. destruct (truthy (va mod PGSIZE)) eqn:Em; [done|].
    destruct (Z.ltb_spec va kend); [done|]. rewrite Z.geb_leb. destruct (Z.leb_spec PHYSTOP (V2P va)) as [|Hlt]; [done|].
    exfalso. apply Hnp. unfold truthy in Em. apply negb_false_iff, Z.eqb_eq in Em. split; [done|].
    unfold V2P, KERNBASE, PHYSTOP in *. rewrite u64_id in Hlt; lia.
Qed.

Lemma kalloc_kfree_exact_witness :
  kalloc boot_kmem = Ret 0 boot_kmem /\ kfree (KERNBASE + 0x100000) 12345 boot_kmem = Panic boot_kmem.
Proof.
  destruct (kalloc_kfree_exact (KERNBASE + 0x100000) boot_kmem [] 12345) as (H1 & _ & H3);
    [unfold KERNBASE, PHYSTOP; lia|constructor; try done; constructor|cbn; lia|lia|].
  split; [exact H1|]. apply H3. intros [Hm _]. vm_compute in Hm. discriminate.
Defined.

End Mm.
