(* ===== verification/Pages.v ===== *)
(** Words and pages of memory: what the components that keep their data in
    pages of [Mm] share.  [zero_page] and [copy_page] are the calls
    [memset(p, 0, PGSIZE)] and [memmove(np, p, PGSIZE)] on pages. *)

From stdpp Require Import base list gmap.
From Stdlib Require Import ZArith Lia Bool.
From S2P Require Import Prelude Mm.

Module Pages.
Import Mm.

(** [memset(p, 0, PGSIZE)] of a page. *)
Definition zero_page (p : Z) : M kstate unit := for_each (seqZ 0 512) (fun i => store (p + 8 * i) 0).

(** [memmove(np, p, PGSIZE)] between two different pages. *)
Definition copy_page (np p : Z) : M kstate unit :=
  for_each (seqZ 0 512) (fun i => let* w := load (p + 8 * i) in store (np + 8 * i) w).

Definition word (m : gmap Z Z) (a : Z) : Z := default 0 (m !! a).

(** * Pages of memory *)

Definition in_page (p a : Z) : Prop := p <= a < p + PGSIZE.

Lemma in_page_slot p i : 0 <= i < 512 -> in_page p (p + 8 * i).
Proof. unfold in_page, PGSIZE. lia. Qed.

Lemma page_disjoint p q a : p mod PGSIZE = 0 -> q mod PGSIZE = 0 -> in_page p a -> in_page q a -> p = q.
Proof.
  unfold in_page, PGSIZE. intros Hp Hq Ha Hb. pose proof (Z.div_mod p 4096 ltac:(lia)). pose proof (Z.div_mod q 4096 ltac:(lia)). lia.
Qed.

Lemma word_insert m a v b : word (<[a := v]> m) b = if decide (a = b) then v else word m b.
Proof. unfold word. case_decide; subst; [by rewrite lookup_insert_eq|by rewrite lookup_insert_ne]. Qed.

Lemma word_insert_ne m a v b : a <> b -> word (<[a := v]> m) b = word m b.
Proof. intros. by rewrite word_insert, decide_False. Qed.

Lemma set_mem_id s : set_mem (mem s) s = s.
Proof. by destruct s. Qed.

Lemma zero_page_run p s :
  exists m, zero_page p s = Ret tt (set_mem m s) /\
    (forall i, 0 <= i < 512 -> word m (p + 8 * i) = 0) /\ (forall a, ~ in_page p a -> word m a = word (mem s) a).
Proof.
  unfold zero_page.
  assert (forall (l : list Z) s, (forall i, i ∈ l -> 0 <= i < 512) ->
    exists m, for_each l (fun i => store (p + 8 * i) 0) s = Ret tt (set_mem m s) /\
      (forall i, i ∈ l -> word m (p + 8 * i) = 0) /\
      (forall a, word m a = word (mem s) a \/ word m a = 0) /\
      (forall a, ~ in_page p a -> word m a = word (mem s) a)) as H.
  { clear s. induction l as [|i l IH]; intros s Hr.
    - exists (mem s). split; [by rewrite set_mem_id|]. split; [by intros i ?%elem_of_nil|]. split; [by left|done].
    - destruct (IH (set_mem (<[p + 8 * i := 0]> (mem s)) s)) as (m & E & Hz & Hor & Hf).
      { intros j Hj. apply Hr. by right. }
      exists m. split; [exact E|]. cbn [mem set_mem] in *. split; [|split].
      + intros j [->|Hj]%elem_of_cons; [|by apply Hz].
        destruct (Hor (p + 8 * i)) as [->|]; [|done]. by rewrite word_insert, decide_True.
      + intros a. destruct (Hor a) as [->|]; [|by right]. rewrite word_insert. case_decide; auto.
      + intros a Ha. rewrite Hf by done. rewrite word_insert, decide_False; [done|]. intros <-. apply Ha, in_page_slot, Hr. by left. }
  destruct (H (seqZ 0 512) s) as (m & E & Hz & _ & Hf); [intros i Hi; apply elem_of_seqZ in Hi; lia|].
  exists m. split; [done|]. split; [|done]. intros i Hi. apply Hz, elem_of_seqZ. lia.
Qed.

Lemma copy_page_run np p s :
  np mod PGSIZE = 0 -> p mod PGSIZE = 0 -> np <> p ->
  exists m, copy_page np p s = Ret tt (set_mem m s) /\
    (forall i, 0 <= i < 512 -> word m (np + 8 * i) = word (mem s) (p + 8 * i)) /\
    (forall a, ~ in_page np a -> word m a = word (mem s) a).
Proof.
  intros Hn Hp Hne. unfold copy_page.
  assert (forall (l : list Z) s, (forall i, i ∈ l -> 0 <= i < 512) -> NoDup l ->
    exists m, for_each l (fun i => let* w := load (p + 8 * i) in store (np + 8 * i) w) s = Ret tt (set_mem m s) /\
      (forall i, i ∈ l -> word m (np + 8 * i) = word (mem s) (p + 8 * i)) /\
      (forall a, (forall i, i ∈ l -> a <> np + 8 * i) -> word m a = word (mem s) a)) as H.
  { clear s. induction l as [|i l IH]; intros s Hr Hnd.
    - exists (mem s). split; [by rewrite set_mem_id|]. split; [by intros i ?%elem_of_nil|done].
    - apply NoDup_cons in Hnd as [Hni Hnd]. set (w := word (mem s) (p + 8 * i)).
      destruct (IH (set_mem (<[np + 8 * i := w]> (mem s)) s)) as (m & E & Hz & Hf); [intros j Hj; apply Hr; by right|done|].
      exists m. split; [exact E|]. cbn [mem set_mem] in *. split.
      + intros j [->|Hj]%elem_of_cons.
        * rewrite Hf; [by rewrite word_insert, decide_True|]. intros j Hj E'. assert (i = j) by lia. by subst.
        * rewrite Hz by done. rewrite word_insert, decide_False; [done|]. intros E'. apply Hne.
          apply (page_disjoint np p (np + 8 * i)); [done|done|apply in_page_slot, Hr; by left|].
          rewrite E'. apply in_page_slot, Hr. by right.
      + intros a Ha. rewrite Hf by (intros j Hj; apply Ha; by right).
        rewrite word_insert, decide_False; [done|]. intros <-. apply (Ha i); [by left|done]. }
  destruct (H (seqZ 0 512) s) as (m & E & Hz & Hf); [intros i Hi; apply elem_of_seqZ in Hi; lia|apply NoDup_seqZ|].
  exists m. split; [done|]. split; [intros i Hi; apply Hz, elem_of_seqZ; lia|].
  intros a Ha. apply Hf. intros i Hi ->. apply elem_of_seqZ in Hi. apply Ha, in_page_slot. lia.
Qed.

Definition rc (s : kstate) (p : Z) : Z := ref_of s (Z.shiftr (V2P p) PGSHIFT).

Section Kernel.
Context (kend : Z).
Hypothesis kend_ok : KERNBASE < kend < KERNBASE + PHYSTOP.

Lemma chain_word m m' a l : chain m a l -> (forall p, p ∈ l -> word m' p = word m p) -> chain m' a l.
Proof.
  revert a. induction l as [|p l IH]; intros a Hc Hf; [done|]. destruct Hc as [-> Hc]. split; [done|].
  change (chain m' (word m' p) l). rewrite Hf by by left. apply IH; [done|]. intros q Hq. apply Hf. by right.
Qed.

(** Memory outside the free pages does not matter to the allocator. *)
Lemma inv_mem l s m : inv kend l s -> (forall p, p ∈ l -> word m p = word (mem s) p) -> inv kend l (set_mem m s).
Proof. intros [A B C D E F] H. split; try done. cbn. by eapply chain_word. Qed.

Lemma inv_len l s : inv kend l s -> Z.of_nat (length l) + 1 < 2 ^ 64.
Proof using kend_ok.
  intros HI. assert (length l <= length (all_pages kend))%nat as Hle.
  { apply submseteq_length, NoDup_submseteq; [apply HI|]. intros p Hp. apply page_in_all; [done|].
    pose proof (inv_pages _ _ _ HI) as H. rewrite Forall_forall in H. by apply H. }
  pose proof (owned_len kend kend_ok [] (all_pages kend) ltac:(done)). lia.
Qed.

Lemma frames_differ p q : page kend p -> page kend q -> p <> q -> Z.shiftr (V2P p) PGSHIFT <> Z.shiftr (V2P q) PGSHIFT.
Proof using kend_ok. intros Hp Hq Hne E. by apply (page_frame_inj kend kend_ok) in E. Qed.

(** [kalloc] in an address space. *)
Lemma kalloc_vm l s :
  inv kend l s ->
  match l with
  | [] => kalloc s = Ret 0 s
  | p :: l' => exists s', kalloc s = Ret p s' /\ inv kend l' s' /\ mem s' = mem s /\ page kend p /\ p ∉ l' /\ p <> 0 /\
                 rc s' p = 1 /\ (forall q, page kend q -> q <> p -> rc s' q = rc s q)
  end.
Proof using kend_ok.
  intros HI. pose proof (kalloc_run kend kend_ok s l HI ltac:(pose proof (inv_len _ _ HI); lia)) as H.
  destruct l as [|p l]; [done|]. destruct H as (s' & E & HI' & Hr & Hm & Hp & _ & Ho). exists s'. split_and!; try done.
  - pose proof (inv_nodup _ _ _ HI) as Hn. by apply NoDup_cons in Hn as [Hn _].
  - destruct Hp as [_ Hp]. pose proof kend_ok. unfold KERNBASE in *. lia.
  - intros q Hq Hne. apply Ho. by apply frames_differ.
Qed.

End Kernel.

End Pages.
