(* ===== verification/Kmalloc.v ===== *)
(** The allocator of small objects: kern/kmalloc.c, above the page allocator.

    A [Header] is two words of memory: the address of the next free block and
    the size of the block in units of 16 bytes, header included.  Free blocks
    form a ring through the static header [base] (its address is an argument),
    [freep] is where the next search starts.  The searches take a number of
    rounds; the theorems show that finitely many are enough.

    [units] lists the addresses of the units of some blocks.  The invariant
    [heap] says that the units of the free blocks and of the blocks clients
    hold are, each exactly once, the units of the pages taken from
    [kalloc]. *)

From stdpp Require Import base list gmap sorting relations.
From Stdlib Require Import ZArith Lia Bool.
From S2P Require Import Prelude Mm Pages.

Module Kmalloc.
Import Mm Pages.

(** [sizeof(Header)] *)
Definition HDR : Z := 16.

Record hstate : Type := mkH { pages_of : kstate; freep : Z }.

Definition set_pages (k : kstate) (s : hstate) : hstate := mkH k (freep s).
Definition set_freep (p : Z) (s : hstate) : hstate := mkH (pages_of s) p.

Definition on_pages {A} : M kstate A -> M hstate A := zoom pages_of set_pages.

(** [p->s.ptr] and [p->s.size] *)
Definition get_ptr (p : Z) : M hstate Z := on_pages (load p).
Definition get_size (p : Z) : M hstate Z := on_pages (load (p + 8)).
Definition put_ptr (p v : Z) : M hstate unit := on_pages (store p v).
Definition put_size (p v : Z) : M hstate unit := on_pages (store (p + 8) v).

(** The [for] loop of [kmfree]: the block behind which [bp] belongs. *)
Fixpoint kmfree_search (fuel : nat) (bp p : Z) : M hstate Z :=
  match fuel with
  | O => nofuel
  | S f =>
      let* next := get_ptr p in
      if (p <? bp) && (bp <? next) then ret p
      else if (next <=? p) && ((p <? bp) || (bp <? next)) then ret p
      else kmfree_search f bp next
  end.

(** Joining [bp] with the free block behind it, or linking it to that block. *)
Definition join_next (bp p : Z) : M hstate unit :=
  let* bsize := get_size bp in
  let* next := get_ptr p in
  if bp + HDR * bsize =? next then
    let* nsize := get_size next in
    put_size bp (u64 (bsize + nsize)) ;;
    let* nnext := get_ptr next in
    put_ptr bp nnext
  else put_ptr bp next.

(** Joining [bp] with the free block [p] before it, or linking it there. *)
Definition join_prev (bp p : Z) : M hstate unit :=
  let* psize := get_size p in
  if p + HDR * psize =? bp then
    let* bsize := get_size bp in
    put_size p (u64 (psize + bsize)) ;;
    let* bnext := get_ptr bp in
    put_ptr p bnext
  else put_ptr p bp.

Definition kmfree (fuel : nat) (ap : Z) : M hstate unit :=
  let bp := ap - HDR in
  let* start := gets freep in
  let* p := kmfree_search fuel bp start in
  join_next bp p ;;
  join_prev bp p ;;
  modify (set_freep p).

Definition morecore (fuel : nat) : M hstate Z :=
  let* p := on_pages kalloc in
  if p =? 0 then ret 0 else
  on_pages (zero_page p) ;;
  put_size p (PGSIZE / HDR) ;;
  kmfree fuel (p + HDR) ;;
  gets freep.

(** Taking [nunits] units from the free block [p] of [size] units. *)
Definition carve (nunits prevp p size : Z) : M hstate Z :=
  let* q :=
    (if size =? nunits then
       let* next := get_ptr p in
       put_ptr prevp next ;; ret p
     else
       put_size p (u64 (size - nunits)) ;;
       let p' := p + HDR * u64 (size - nunits) in
       put_size p' nunits ;; ret p') in
  modify (set_freep prevp) ;;
  ret (q + HDR).

(** The [for] loop of [kmalloc]; [prevp] and [p] are its variables. *)
Fixpoint kmalloc_loop (fuel : nat) (nunits prevp p : Z) : M hstate Z :=
  match fuel with
  | O => nofuel
  | S f =>
      let* size := get_size p in
      if nunits <=? size then carve nunits prevp p size
      else
        let* fp := gets freep in
        if p =? fp then
          let* p' := morecore f in
          if p' =? 0 then ret 0
          else let* next := get_ptr p' in kmalloc_loop f nunits p' next
        else let* next := get_ptr p in kmalloc_loop f nunits p next
  end.

Section Base.
Context (base : Z).

Definition kmalloc (fuel : nat) (nbytes : Z) : M hstate Z :=
  if nbytes >? PGSIZE then panic else
  let nunits := u64 (nbytes + HDR - 1) / HDR + 1 in
  let* fp := gets freep in
  (if fp =? 0 then
     modify (set_freep base) ;;
     put_ptr base base ;;
     put_size base 0
   else ret tt) ;;
  let* prevp := gets freep in
  let* p := get_ptr prevp in
  kmalloc_loop fuel nunits prevp p.

End Base.

(** * Units *)

Definition units1 (b : Z * Z) : list Z := (fun i => b.1 + HDR * i) <$> seqZ 0 b.2.

Definition units (l : list (Z * Z)) : list Z := l ≫= units1.

(** The blocks that are whole pages. *)
Definition whole (pgs : list Z) : list (Z * Z) := (fun p => (p, PGSIZE / HDR)) <$> pgs.

Lemma elem_units1 b x : x ∈ units1 b <-> exists i, 0 <= i < b.2 /\ x = b.1 + HDR * i.
Proof.
  unfold units1. rewrite list_elem_of_fmap. split.
  - intros (i & -> & Hi%elem_of_seqZ). exists i. split; [lia|done].
  - intros (i & Hi & ->). exists i. split; [done|]. apply elem_of_seqZ. lia.
Qed.

Lemma elem_units l x : x ∈ units l <-> exists b, b ∈ l /\ x ∈ units1 b.
Proof. unfold units. rewrite list_elem_of_bind. naive_solver. Qed.

Lemma units_cons b l : units (b :: l) = units1 b ++ units l.
Proof. done. Qed.

Lemma units_app l k : units (l ++ k) = units l ++ units k.
Proof. unfold units. apply bind_app. Qed.

#[export] Instance units_perm : Proper ((≡ₚ) ==> (≡ₚ)) units.
Proof. intros l k H. unfold units. by rewrite H. Qed.

Lemma units1_split a k n :
  0 <= k -> 0 <= n -> units1 (a, k + n) = units1 (a, k) ++ units1 (a + HDR * k, n).
Proof.
  intros Hk Hn. unfold units1. cbn [fst snd]. rewrite seqZ_app by lia. rewrite fmap_app. f_equal.
  replace (0 + k) with (k + 0) by lia. rewrite <- fmap_add_seqZ, <- list_fmap_compose.
  apply list_fmap_ext. intros _ i _. cbn. lia.
Qed.

Lemma nodup_units1 b : NoDup (units1 b).
Proof. apply NoDup_fmap_2; [|apply NoDup_seqZ]. intros i j. unfold HDR. lia. Qed.

Lemma units1_page p x : x ∈ units1 (p, PGSIZE / HDR) -> in_page p x /\ (x - p) mod HDR = 0.
Proof.
  rewrite elem_units1. cbn [fst snd]. change (PGSIZE / HDR) with 256. intros (i & Hi & ->).
  unfold in_page, PGSIZE, HDR. split; [lia|]. replace (p + 16 * i - p) with (i * 16) by lia. by apply Z.mod_mul.
Qed.

Lemma nodup_whole pgs :
  NoDup pgs -> Forall (fun p => p mod PGSIZE = 0) pgs -> NoDup (units (whole pgs)).
Proof.
  induction 1 as [|p l Hp _ IH]; intros Ha; [by constructor|]. apply Forall_cons in Ha as [Hpa Ha].
  unfold whole. rewrite fmap_cons, units_cons. apply NoDup_app. split_and!; [apply nodup_units1| |by apply IH].
  intros x [Hx _]%units1_page (b & Hb & Hxb)%elem_units. apply list_elem_of_fmap in Hb as (q & -> & Hq).
  apply units1_page in Hxb as [Hxb _]. assert (p = q); [|by subst].
  rewrite Forall_forall in Ha. eapply page_disjoint; eauto.
Qed.

(** Blocks without common units do not overlap. *)
Lemma units_disjoint x y r :
  NoDup (units (x :: y :: r)) -> 0 < x.2 -> 0 < y.2 -> x.1 mod HDR = 0 -> y.1 mod HDR = 0 ->
  x.1 + HDR * x.2 <= y.1 \/ y.1 + HDR * y.2 <= x.1.
Proof.
  rewrite !units_cons, app_assoc. intros (Hn & _ & _)%NoDup_app Hx Hy Ax Ay.
  apply NoDup_app in Hn as (_ & Hd & _). unfold HDR in *.
  pose proof (Z.div_mod x.1 16 ltac:(lia)) as Ex. pose proof (Z.div_mod y.1 16 ltac:(lia)) as Ey.
  destruct (decide (x.1 + 16 * x.2 <= y.1)); [by left|].
  destruct (decide (y.1 + 16 * y.2 <= x.1)); [by right|]. exfalso.
  apply (Hd (Z.max x.1 y.1)); apply elem_units1; unfold HDR.
  - exists (Z.max x.1 y.1 / 16 - x.1 / 16). destruct (Z.max_spec x.1 y.1) as [[? ->]|[? ->]]; lia.
  - exists (Z.max x.1 y.1 / 16 - y.1 / 16). destruct (Z.max_spec x.1 y.1) as [[? ->]|[? ->]]; lia.
Qed.

(** * The ring of free blocks *)

Definition hd_addr (l : list (Z * Z)) (d : Z) : Z := match l with [] => d | b :: _ => b.1 end.

(** The blocks [l] are linked in this order, the last one to [d]. *)
Fixpoint seg (m : gmap Z Z) (l : list (Z * Z)) (d : Z) : Prop :=
  match l with
  | [] => True
  | b :: l' => word m b.1 = hd_addr l' d /\ word m (b.1 + 8) = b.2 /\ seg m l' d
  end.

Definition gap (x y : Z * Z) : Prop := x.1 + HDR * x.2 < y.1.

Lemma seg_app m l k d : seg m (l ++ k) d <-> seg m l (hd_addr k d) /\ seg m k d.
Proof.
  induction l as [|b l IH]; cbn [app seg]; [naive_solver|]. rewrite IH.
  assert (hd_addr (l ++ k) d = hd_addr l (hd_addr k d)) as -> by by destruct l. naive_solver.
Qed.

Lemma seg_frame m m' l d :
  (forall b, b ∈ l -> word m' b.1 = word m b.1 /\ word m' (b.1 + 8) = word m (b.1 + 8)) ->
  seg m l d -> seg m' l d.
Proof.
  induction l as [|b l IH]; cbn [seg]; [done|]. intros H (E1 & E2 & Hs).
  destruct (H b ltac:(by left)) as [-> ->]. split_and!; [done|done|]. apply IH; [|done].
  intros c Hc. apply H. by right.
Qed.

(** The link of the block at index [i] of a ring. *)
Lemma seg_link m l d i b :
  seg m l d -> l !! i = Some b ->
  word m b.1 = (match l !! S i with Some c => c.1 | None => d end) /\ word m (b.1 + 8) = b.2.
Proof.
  revert i. induction l as [|c l IH]; intros i; cbn [seg]; [done|]. intros (E1 & E2 & Hs) Hi.
  destruct i as [|i]; [|by apply (IH i)]. injection Hi as ->. split; [|done]. rewrite E1. by destruct l.
Qed.

Lemma ring_link m base fl i b :
  seg m ((base, 0) :: fl) base -> ((base, 0) :: fl) !! i = Some b ->
  exists c, ((base, 0) :: fl) !! (S i mod S (length fl))%nat = Some c /\ word m b.1 = c.1 /\ word m (b.1 + 8) = b.2.
Proof.
  intros Hs Hi. destruct (seg_link _ _ _ _ _ Hs Hi) as [E1 E2].
  pose proof (lookup_lt_Some _ _ _ Hi) as Hl. cbn [length] in Hl.
  destruct (decide (S i = S (length fl))) as [El|Hne].
  - exists (base, 0). rewrite El, Nat.Div0.mod_same. split_and!; [done| |done].
    rewrite E1, lookup_ge_None_2 by (cbn; lia). done.
  - rewrite Nat.mod_small by lia.
    destruct (lookup_lt_is_Some_2 ((base, 0) :: fl) (S i)) as [c Hc]; [cbn; lia|].
    exists c. rewrite E1, Hc. done.
Qed.

(** * The heap *)

Section Heap.
Context (kend base : Z).
Hypothesis kend_ok : KERNBASE < kend < KERNBASE + PHYSTOP.
Hypothesis base_ok : 0 < base /\ base + HDR <= kend /\ base mod HDR = 0.

Definition hmem (s : hstate) : gmap Z Z := mem (pages_of s).

(** [fl]: the free blocks by address; [al]: the blocks clients hold; [pgs]:
    the pages taken from [kalloc]; [l]: the free pages. *)
Record heap (fl al : list (Z * Z)) (pgs l : list Z) (s : hstate) : Prop := {
  hp_pages : inv kend l (pages_of s);
  hp_own : NoDup pgs /\ Forall (page kend) pgs /\ (forall p, p ∈ pgs -> p ∉ l);
  hp_units : units (fl ++ al) ≡ₚ units (whole pgs);
  hp_pos : Forall (fun b => 0 < b.2) (fl ++ al);
  hp_sorted : StronglySorted gap ((base, 0) :: fl);
  hp_ring : seg (hmem s) ((base, 0) :: fl) base;
  hp_freep : freep s ∈ ((base, 0) :: fl).*1;
  hp_held : Forall (fun b => word (hmem s) (b.1 + 8) = b.2) al
}.

(** Words that an operation leaves alone: those of the held blocks, and those
    outside the heap. *)
Definition outside (al : list (Z * Z)) (pgs : list Z) (x : Z) : Prop :=
  (exists b, b ∈ al /\ b.1 <= x < b.1 + HDR * b.2) \/
  (x <> base /\ x <> base + 8 /\ forall p, p ∈ pgs -> ~ in_page p x).

(** ... and the counts of the pages that are not the heap's. *)
Record kept (al : list (Z * Z)) (pgs : list Z) (s s' : hstate) : Prop := {
  kp_mem x : outside al pgs x -> word (hmem s') x = word (hmem s) x;
  kp_ref p : page kend p -> p ∉ pgs -> rc (pages_of s') p = rc (pages_of s) p
}.

Lemma block_in_pages blocks pgs b x :
  units blocks ≡ₚ units (whole pgs) -> b ∈ blocks -> b.1 <= x < b.1 + HDR * b.2 ->
  exists p, p ∈ pgs /\ in_page p x /\ (b.1 - p) mod HDR = 0.
Proof using.
  intros HP Hb Hx. pose proof (Z.div_mod (x - b.1) 16 ltac:(lia)) as Ex.
  pose proof (Z.mod_pos_bound (x - b.1) 16 ltac:(lia)) as Hm. unfold HDR in Hx.
  assert (Hu : b.1 + HDR * ((x - b.1) / 16) ∈ units (whole pgs)).
  { rewrite <- HP. apply elem_units. exists b. split; [done|]. apply elem_units1. exists ((x - b.1) / 16). split; [lia|done]. }
  apply elem_units in Hu as (c & Hc & Hu). apply list_elem_of_fmap in Hc as (p & -> & Hp).
  exists p. split; [done|]. apply elem_units1 in Hu as (i & Hi & E). cbn [fst snd] in *.
  change (PGSIZE / HDR) with 256 in Hi. unfold in_page, PGSIZE, HDR in *. split; [lia|].
  replace (b.1 - p) with ((i - (x - b.1) / 16) * 16) by lia. by apply Z.mod_mul.
Qed.

Lemma block_bounds fl al pgs l s b :
  heap fl al pgs l s -> b ∈ fl ++ al ->
  kend <= b.1 /\ b.1 + HDR * b.2 <= KERNBASE + PHYSTOP /\ b.1 mod HDR = 0 /\ 0 < b.2.
Proof using kend_ok.
  intros H Hb. pose proof (hp_pos _ _ _ _ _ H) as Hpos. rewrite Forall_forall in Hpos. specialize (Hpos b Hb). cbn in Hpos.
  destruct (hp_own _ _ _ _ _ H) as (_ & Hpg & _). rewrite Forall_forall in Hpg.
  destruct (block_in_pages _ _ b b.1 (hp_units _ _ _ _ _ H) Hb ltac:(unfold HDR; lia)) as (p & Hp & Hin & Hm).
  destruct (block_in_pages _ _ b (b.1 + HDR * b.2 - 1) (hp_units _ _ _ _ _ H) Hb ltac:(unfold HDR; lia)) as (q & Hq & Hin' & _).
  destruct (Hpg p Hp) as [Ap Bp], (Hpg q Hq) as [Aq Bq].
  assert (Htop : (KERNBASE + PHYSTOP) mod 4096 = 0) by reflexivity.
  unfold in_page, PGSIZE, HDR in *.
  pose proof (Z.div_mod p 4096 ltac:(lia)). pose proof (Z.div_mod q 4096 ltac:(lia)).
  pose proof (Z.div_mod (KERNBASE + PHYSTOP) 4096 ltac:(lia)). pose proof (Z.div_mod (b.1 - p) 16 ltac:(lia)).
  split_and!; [lia|lia| |lia]. replace b.1 with ((256 * (p / 4096) + (b.1 - p) / 16) * 16) by lia. by apply Z.mod_mul.
Qed.

Lemma blocks_disjoint fl al pgs l s x y r :
  heap fl al pgs l s -> fl ++ al ≡ₚ x :: y :: r ->
  x.1 + HDR * x.2 <= y.1 \/ y.1 + HDR * y.2 <= x.1.
Proof using kend_ok.
  intros H HP. destruct (hp_own _ _ _ _ _ H) as (Hnd & Hpg & _).
  destruct (block_bounds _ _ _ _ _ x H) as (_ & _ & Ax & Px); [rewrite HP; by left|].
  destruct (block_bounds _ _ _ _ _ y H) as (_ & _ & Ay & Py); [rewrite HP; right; by left|].
  apply (units_disjoint x y r); try done. rewrite <- HP, (hp_units _ _ _ _ _ H).
  apply nodup_whole; [done|]. eapply Forall_impl; [exact Hpg|]. by intros p [Hp _].
Qed.

(** Two blocks at different places do not overlap. *)
Lemma blocks_apart fl al pgs l s l1 x l2 y :
  heap fl al pgs l s -> fl ++ al ≡ₚ l1 ++ x :: l2 -> y ∈ l1 ++ l2 ->
  x.1 + HDR * x.2 <= y.1 \/ y.1 + HDR * y.2 <= x.1.
Proof using kend_ok.
  intros H HP Hy. apply list_elem_of_split in Hy as (k1 & k2 & Ek).
  apply (blocks_disjoint _ _ _ _ _ x y (k1 ++ k2) H). rewrite HP, <- Permutation_middle, Ek.
  by rewrite <- Permutation_middle.
Qed.

(** A store into a word of the heap or into [base] leaves the page allocator alone. *)
Lemma not_free_page fl al pgs l s x :
  heap fl al pgs l s -> (exists p, p ∈ pgs /\ in_page p x) \/ x < kend -> x ∉ l.
Proof using.
  intros H Hx Hl. destruct (hp_own _ _ _ _ _ H) as (_ & Hpg & Hno). pose proof (inv_pages _ _ _ (hp_pages _ _ _ _ _ H)) as Hfp.
  rewrite Forall_forall in Hpg, Hfp. destruct (Hfp x Hl) as [Ax Bx]. destruct Hx as [(p & Hp & Hin)|]; [|lia].
  apply (Hno p Hp). destruct (Hpg p Hp) as [Ap _]. replace p with x; [done|]. symmetry.
  apply (page_disjoint p x x); [done|done|done|]. unfold in_page, PGSIZE. lia.
Qed.

(** Where a block belongs in the ring. *)
Lemma ring_place N bp :
  StronglySorted gap N -> Forall (fun b => b.1 <> bp) N -> (exists b, head N = Some b /\ b.1 < bp) -> Forall (fun b => 0 <= b.2) N ->
  exists A p B, N = A ++ p :: B /\ p.1 < bp /\ Forall (fun b => b.1 < bp) A /\ Forall (fun b => bp < b.1) B.
Proof using.
  intros Hs. induction Hs as [|b N Hs IH Hb]; intros Hne (b0 & Hh & Hlt) Hpos; [done|].
  injection Hh as <-. apply Forall_cons in Hne as [Hnb Hne]. apply Forall_cons in Hpos as [Hpb Hpos].
  destruct N as [|c N].
  - exists [], b, []. split_and!; [done|done|constructor|constructor].
  - destruct (decide (c.1 < bp)) as [Hc|Hc].
    + destruct IH as (A & p & B & E & H1 & H2 & H3); [done|by exists c|done|].
      exists (b :: A), p, B. rewrite E. split_and!; [done|done|by constructor|done].
    + exists [], b, (c :: N). split_and!; [done|done|constructor|].
      apply Forall_cons in Hne as [Hnc Hne]. constructor; [lia|].
      apply StronglySorted_inv in Hs as [_ Hcs]. eapply Forall_impl; [exact Hcs|]. intros d Hd.
      apply Forall_cons in Hpos as [Hpc _]. unfold gap, HDR in Hd. cbn in *. lia.
Qed.

(** * Searching the ring *)

Lemma sorted_lookup N i j x y :
  StronglySorted gap N -> N !! i = Some x -> N !! j = Some y -> (i < j)%nat -> gap x y.
Proof using.
  intros Hs. revert i j. induction Hs as [|b N _ IH Hb]; intros i j Hi Hj Hij; [done|].
  destruct j as [|j]; [lia|]. destruct i as [|i].
  - injection Hi as ->. rewrite Forall_forall in Hb. apply Hb. by apply (list_elem_of_lookup_2 _ j).
  - apply (IH i j); [done|done|lia].
Qed.

Lemma get_ptr_run p s : get_ptr p s = Ret (word (hmem s) p) s.
Proof using. by destruct s. Qed.

Lemma get_size_run p s : get_size p s = Ret (word (hmem s) (p + 8)) s.
Proof using. by destruct s. Qed.

Definition hput (a v : Z) (s : hstate) : hstate := set_pages (set_mem (<[a := v]> (hmem s)) (pages_of s)) s.

Lemma put_ptr_run p v s : put_ptr p v s = Ret tt (hput p v s).
Proof using. done. Qed.

Lemma put_size_run p v s : put_size p v s = Ret tt (hput (p + 8) v s).
Proof using. done. Qed.

Lemma word_hput a v s x : word (hmem (hput a v s)) x = if decide (a = x) then v else word (hmem s) x.
Proof using. unfold hmem, hput. cbn. apply word_insert. Qed.

(** The node at which [kmfree] stops. *)
Definition place (fl A : list (Z * Z)) (p : Z * Z) (B : list (Z * Z)) (bp : Z) : Prop :=
  (base, 0) :: fl = A ++ p :: B /\ p.1 < bp /\ Forall (fun b => b.1 < bp) A /\ Forall (fun b => bp < b.1) B.

(** Whether [kmfree] stops at the node with address [x] and successor [y]. *)
Definition stops (bp x y : Z) : bool := ((x <? bp) && (bp <? y)) || ((y <=? x) && ((x <? bp) || (bp <? y))).

Lemma stops_exactly fl A p B bp s i b y :
  place fl A p B bp -> StronglySorted gap ((base, 0) :: fl) -> Forall (fun b => 0 < b.2) fl ->
  seg (hmem s) ((base, 0) :: fl) base -> base < bp -> ((base, 0) :: fl) !! i = Some b -> word (hmem s) b.1 = y ->
  stops bp b.1 y = bool_decide (i = length A).
Proof using.
  intros (EN & Hp & HA & HB) Hs Hpos Hseg Hbp Hi Hy. rewrite Forall_forall in HA, HB, Hpos.
  destruct (seg_link _ _ _ _ _ Hseg Hi) as [El _]. rewrite Hy in El. clear Hy.
  assert (Hgt : forall j c, ((base, 0) :: fl) !! j = Some c -> (i < j)%nat -> b.1 < c.1).
  { intros j c Hj Hij. pose proof (sorted_lookup _ _ _ _ _ Hs Hi Hj Hij) as Hg. unfold gap, HDR in Hg.
    assert (0 <= b.2); [|lia]. destruct i as [|i]; [by injection Hi as <-|].
    specialize (Hpos _ (list_elem_of_lookup_2 fl i b Hi)). cbn in Hpos. lia. }
  assert (Hb0 : base <= b.1).
  { destruct i as [|i]; [by injection Hi as <-|]. pose proof (sorted_lookup _ 0 (S i) (base, 0) b Hs eq_refl Hi ltac:(lia)) as Hg.
    unfold gap, HDR in Hg. cbn in Hg. lia. }
  assert (Hy : match ((base, 0) :: fl) !! S i with Some c => y = c.1 /\ b.1 < y | None => y = base end).
  { destruct (((base, 0) :: fl) !! S i) as [c|] eqn:Ec; [|done]. split; [done|]. rewrite El. apply (Hgt (S i)); [done|lia]. }
  clear El Hgt. unfold stops. rewrite EN in Hi, Hy.
  destruct (decide (i < length A)%nat) as [Hlt|Hge]; [|destruct (decide (i = length A)) as [->|Hne]].
  - rewrite bool_decide_false by lia. rewrite lookup_app_l in Hi by done. pose proof (HA b (list_elem_of_lookup_2 _ _ _ Hi)) as HAb.
    destruct ((A ++ p :: B) !! S i) as [c|] eqn:Ec.
    2:{ apply lookup_ge_None_1 in Ec. rewrite length_app in Ec. cbn in Ec. lia. }
    assert (Hc : c.1 < bp).
    { destruct (decide (S i < length A)%nat).
      - rewrite lookup_app_l in Ec by done. by apply HA, (list_elem_of_lookup_2 _ (S i)).
      - replace (S i) with (length A) in Ec by lia. rewrite list_lookup_middle in Ec by done. by injection Ec as <-. }
    destruct Hy as [-> Hlt']. destruct (Z.ltb_spec b.1 bp), (Z.ltb_spec bp c.1), (Z.leb_spec c.1 b.1); try lia; done.
  - rewrite bool_decide_true by done. rewrite list_lookup_middle in Hi by done. injection Hi as <-.
    replace (S (length A)) with (length A + 1)%nat in Hy by lia. rewrite lookup_app_r in Hy by lia.
    replace (length A + 1 - length A)%nat with 1%nat in Hy by lia. cbn in Hy. destruct B as [|c B]; cbn in Hy.
    + subst y. destruct (Z.ltb_spec p.1 bp), (Z.ltb_spec bp base), (Z.leb_spec base p.1); try lia; done.
    + destruct Hy as [-> Hlt']. specialize (HB c ltac:(by left)).
      destruct (Z.ltb_spec p.1 bp), (Z.ltb_spec bp c.1), (Z.leb_spec c.1 p.1); try lia; done.
  - rewrite bool_decide_false by lia. rewrite lookup_app_r in Hi by lia.
    destruct (i - length A)%nat as [|k] eqn:Ek; [lia|]. specialize (HB b (list_elem_of_lookup_2 _ k _ Hi)).
    destruct ((A ++ p :: B) !! S i) as [c|].
    { destruct Hy as [-> Hlt']. destruct (Z.ltb_spec b.1 bp), (Z.leb_spec c.1 b.1); try lia; done. }
    subst y. destruct (Z.ltb_spec b.1 bp), (Z.ltb_spec bp base), (Z.leb_spec base b.1); try lia; done.
Qed.

Lemma kmfree_search_run fl A p B bp s c : forall fuel i b,
  place fl A p B bp -> StronglySorted gap ((base, 0) :: fl) -> Forall (fun b => 0 < b.2) fl ->
  seg (hmem s) ((base, 0) :: fl) base -> base < bp -> ((base, 0) :: fl) !! i = Some b ->
  ((i + c) mod S (length fl) = length A)%nat -> (c < fuel)%nat -> kmfree_search fuel bp b.1 s = Ret p.1 s.
Proof using.
  induction c as [|c IH]; intros fuel i b HP Hs Hpos Hseg Hbp Hi Hc Hf; (destruct fuel as [|fuel]; [lia|]);
  cbn [kmfree_search]; rewrite (bind_run _ _ _ _ _ (get_ptr_run _ _));
  pose proof (stops_exactly _ _ _ _ _ _ _ _ _ HP Hs Hpos Hseg Hbp Hi eq_refl) as Hst; unfold stops in Hst;
  pose proof (lookup_lt_Some _ _ _ Hi) as Hil; cbn [length] in Hil.
  all: assert (HpA : i = length A -> b.1 = p.1) by
    (intros ->; destruct HP as (EN & _); rewrite EN, list_lookup_middle in Hi by done; by injection Hi as <-).
  all: destruct (decide (i = length A)) as [Ei|Ei];
    [rewrite bool_decide_true in Hst by done; rewrite <- (HpA Ei);
     apply orb_true_iff in Hst as [->| ->]; [done|by destruct (_ && _)]|rewrite bool_decide_false in Hst by done].
  - rewrite Nat.add_0_r, Nat.mod_small in Hc by done. done.
  - apply orb_false_iff in Hst as [-> ->].
    destruct (ring_link _ _ _ _ _ Hseg Hi) as (d & Hd & -> & _).
    apply (IH _ (S i mod S (length fl))%nat); try done; [|lia].
    rewrite Nat.Div0.add_mod_idemp_l. by replace (S i + c)%nat with (i + S c)%nat by lia.
Qed.

(** * Freeing *)

(** The block [bp] of [n] units takes in its right neighbour ... *)
Definition absorb (bp n : Z) (B : list (Z * Z)) : Z * list (Z * Z) :=
  match B with
  | c :: B' => if bp + HDR * n =? c.1 then (n + c.2, B') else (n, B)
  | [] => (n, [])
  end.

(** ... and is taken in by its left neighbour [p], or linked behind it. *)
Definition attach (p : Z * Z) (bp n : Z) (B : list (Z * Z)) : list (Z * Z) :=
  if p.1 + HDR * p.2 =? bp then (p.1, p.2 + n) :: B else p :: (bp, n) :: B.

Lemma absorb_ok bp n B n' B' :
  absorb bp n B = (n', B') -> StronglySorted gap B -> Forall (fun c => bp + HDR * n <= c.1 /\ 0 < c.2) B -> 0 < n ->
  n <= n' /\ StronglySorted gap ((bp, n') :: B') /\ units ((bp, n') :: B') ≡ₚ units ((bp, n) :: B)
  /\ (forall c, c ∈ B' -> c ∈ B) /\ (length B' <= length B)%nat.
Proof using.
  intros E Hs HB Hn. unfold absorb in E. destruct B as [|c B].
  - injection E as <- <-. split_and!; [lia|repeat constructor|done|done|done].
  - apply Forall_cons in HB as [[Hc Hc2] HB]. apply StronglySorted_inv in Hs as [Hs Hgc].
    destruct (Z.eqb_spec (bp + HDR * n) c.1) as [Ec|Ec]; injection E as <- <-.
    + split_and!; [lia| | |by right|cbn; lia].
      * constructor; [done|]. eapply Forall_impl; [exact Hgc|]. intros d. unfold gap, HDR in *. cbn. lia.
      * rewrite !units_cons, units1_split by lia. rewrite Ec, <- app_assoc. by destruct c.
    + split_and!; [lia| |done|done|done]. constructor; [by constructor|]. constructor.
      * unfold gap. cbn. lia.
      * rewrite Forall_forall in *. intros d Hd. specialize (Hgc d Hd). unfold gap, HDR in *. cbn in *. lia.
Qed.

Lemma attach_ok A p bp n B B' :
  StronglySorted gap (A ++ p :: B) -> (forall c, c ∈ B' -> c ∈ B) -> StronglySorted gap ((bp, n) :: B') ->
  p.1 + HDR * p.2 <= bp -> 0 <= p.2 -> 0 < n ->
  StronglySorted gap (A ++ attach p bp n B') /\ units (attach p bp n B') ≡ₚ units (p :: (bp, n) :: B').
Proof using.
  intros Hs Hin Hb Hp Hp2 Hn. apply StronglySorted_app in Hs as (HA & HsA & HsB).
  apply StronglySorted_inv in Hb as Hb'. destruct Hb' as [HsB' Hgb].
  assert (Hap : forall x, x ∈ A -> x.1 + HDR * x.2 < p.1) by (intros x Hx; apply (HA x p Hx); by left).
  assert (Hbp : forall c, c ∈ B' -> bp + HDR * n < c.1).
  { intros c Hc. rewrite Forall_forall in Hgb. apply (Hgb c Hc). }
  unfold attach. destruct (Z.eqb_spec (p.1 + HDR * p.2) bp) as [Ep|Ep]; (split; [apply StronglySorted_app; split_and!; [|done|]|]).
  - intros x c Hx [->|Hc]%elem_of_cons; [by apply Hap|]. apply HA; [done|]. right. auto.
  - constructor; [done|]. apply Forall_forall. intros c Hc. specialize (Hbp c Hc). unfold gap, HDR in *. cbn. lia.
  - rewrite !units_cons, units1_split by lia. rewrite Ep, <- app_assoc. by destruct p.
  - intros x c Hx Hc. apply elem_of_cons in Hc as [->|Hc]; [by apply Hap|]. specialize (Hap x Hx).
    apply elem_of_cons in Hc as [->|Hc]; [unfold gap, HDR in *; cbn; lia|]. apply HA; [done|]. right. auto.
  - constructor; [done|]. constructor; [unfold gap; cbn; lia|]. apply Forall_forall. intros c Hc. specialize (Hbp c Hc).
    unfold gap, HDR in *. cbn. lia.
  - done.
Qed.

(** The words of different headers are different. *)
Lemma headers_differ x y :
  x mod HDR = 0 -> y mod HDR = 0 -> x <> y -> x <> y /\ x <> y + 8 /\ x + 8 <> y /\ x + 8 <> y + 8.
Proof using.
  unfold HDR. intros Hx Hy Hne. pose proof (Z.div_mod x 16 ltac:(lia)). pose proof (Z.div_mod y 16 ltac:(lia)). lia.
Qed.

(** Only the words [L] may have changed. *)
Definition wrote (L : list Z) (s s' : hstate) : Prop :=
  freep s' = freep s /\ pages_of s' = set_mem (hmem s') (pages_of s) /\
  (forall x, x ∉ L -> word (hmem s') x = word (hmem s) x).

Lemma wrote_hput a v s L : a ∈ L -> wrote L s (hput a v s).
Proof using.
  intros Ha. split_and!; [done|done|]. intros x Hx. rewrite word_hput, decide_False; [done|]. by intros <-.
Qed.

Lemma wrote_trans L s s1 s2 : wrote L s s1 -> wrote L s1 s2 -> wrote L s s2.
Proof using.
  intros (A1 & A2 & A3) (B1 & B2 & B3). split_and!; [congruence| |].
  - rewrite B2, A2. by destruct s2, s1.
  - intros x Hx. rewrite B3, A3 by done. done.
Qed.

Lemma wrote_mono L L' s s' : wrote L s s' -> L ⊆ L' -> wrote L' s s'.
Proof using. intros (A1 & A2 & A3) H. split_and!; [done|done|]. intros x Hx. apply A3. intros Hc. by apply Hx, H. Qed.

Lemma seg_wrote L s s' l d :
  wrote L s s' -> (forall b, b ∈ l -> b.1 ∉ L /\ b.1 + 8 ∉ L) -> seg (hmem s) l d -> seg (hmem s') l d.
Proof using.
  intros (_ & _ & H) Hl. apply seg_frame. intros b Hb. destruct (Hl b Hb). split; by apply H.
Qed.

(** The header words of [x], when [y] is another header. *)
Lemma header_apart x y : x mod HDR = 0 -> y mod HDR = 0 -> x <> y -> x ∉ [y; y + 8] /\ x + 8 ∉ [y; y + 8].
Proof using.
  intros Hx Hy Hne. destruct (headers_differ x y Hx Hy Hne) as (H1 & H2 & H3 & H4).
  rewrite !not_elem_of_cons. split_and!; (done || apply not_elem_of_nil).
Qed.

Lemma join_next_run bp n B n' B' p s :
  absorb bp n B = (n', B') -> word (hmem s) p = hd_addr B base -> word (hmem s) (bp + 8) = n ->
  seg (hmem s) B base -> (forall b, b ∈ B -> b.1 mod HDR = 0 /\ b.1 <> bp) -> bp mod HDR = 0 ->
  bp + HDR * n <> base -> u64 n' = n' ->
  exists s', join_next bp p s = Ret tt s' /\ wrote [bp; bp + 8] s s' /\
    word (hmem s') bp = hd_addr B' base /\ word (hmem s') (bp + 8) = n' /\ seg (hmem s') B' base.
Proof using.
  intros Hab Hp Hn HsB Hal Hbp Hnb Hu. unfold join_next.
  rewrite (bind_run _ _ _ _ _ (get_size_run _ _)), (bind_run _ _ _ _ _ (get_ptr_run _ _)), Hp, Hn.
  assert (Hframe : forall s' l, wrote [bp; bp + 8] s s' -> (forall b, b ∈ l -> b ∈ B) -> seg (hmem s) l base -> seg (hmem s') l base).
  { intros s' l Hw Hin. eapply seg_wrote; [exact Hw|]. intros b Hb. destruct (Hal b (Hin b Hb)). by apply header_apart. }
  unfold absorb in Hab. destruct B as [|c B]; cbn [hd_addr] in *.
  - injection Hab as <- <-. destruct (Z.eqb_spec (bp + HDR * n) base); [done|].
    exists (hput bp base s). split_and!; [done|apply wrote_hput; rewrite !elem_of_cons; auto| | |done].
    + by rewrite word_hput, decide_True.
    + by rewrite word_hput, decide_False by lia.
  - destruct HsB as (Ec & Ec2 & HsB). destruct (Hal c ltac:(by left)) as [Hca Hcb].
    destruct (Z.eqb_spec (bp + HDR * n) c.1) as [E|E]; injection Hab as <- <-.
    + rewrite (bind_run _ _ _ _ _ (get_size_run _ _)), Ec2, Hu, (bind_run _ _ _ _ _ (put_size_run _ _ _)).
      rewrite (bind_run _ _ _ _ _ (get_ptr_run _ _)), word_hput, Ec, put_ptr_run.
      destruct (headers_differ c.1 bp Hca Hbp Hcb) as (_ & Hne & _). rewrite decide_False by done.
      eexists. split; [reflexivity|].
      assert (Hw : wrote [bp; bp + 8] s (hput bp (hd_addr B base) (hput (bp + 8) (n + c.2) s))).
      { eapply wrote_trans; apply wrote_hput; rewrite !elem_of_cons; auto. }
      split_and!; [exact Hw| | |apply Hframe; [done|by right|done]].
      * by rewrite word_hput, decide_True.
      * rewrite word_hput, decide_False by lia. by rewrite word_hput, decide_True.
    + exists (hput bp c.1 s). assert (Hw : wrote [bp; bp + 8] s (hput bp c.1 s)) by (apply wrote_hput; rewrite !elem_of_cons; auto).
      split_and!; [done|done| | |apply Hframe; [done|done|by split_and!]].
      * by rewrite word_hput, decide_True.
      * by rewrite word_hput, decide_False by lia.
Qed.

Lemma join_prev_run bp n p R s :
  word (hmem s) bp = hd_addr R base -> word (hmem s) (bp + 8) = n -> word (hmem s) (p.1 + 8) = p.2 ->
  seg (hmem s) R base -> (forall b, b ∈ R -> b.1 mod HDR = 0 /\ b.1 <> p.1) -> bp mod HDR = 0 -> p.1 mod HDR = 0 -> p.1 <> bp ->
  u64 (p.2 + n) = p.2 + n ->
  exists s', join_prev bp p.1 s = Ret tt s' /\ wrote [p.1; p.1 + 8] s s' /\ seg (hmem s') (attach p bp n R) base.
Proof using.
  intros Hb Hn Hp2 HsR Hal Hbp Hpa Hne Hu. unfold join_prev, attach.
  rewrite (bind_run _ _ _ _ _ (get_size_run _ _)), Hp2.
  assert (Hframe : forall s', wrote [p.1; p.1 + 8] s s' -> seg (hmem s') R base).
  { intros s' Hw. eapply seg_wrote; [exact Hw| |done]. intros b Hb'. destruct (Hal b Hb'). by apply header_apart. }
  destruct (Z.eqb_spec (p.1 + HDR * p.2) bp) as [E|E].
  - rewrite (bind_run _ _ _ _ _ (get_size_run _ _)), Hn, Hu, (bind_run _ _ _ _ _ (put_size_run _ _ _)).
    destruct (headers_differ p.1 bp Hpa Hbp Hne) as (_ & _ & Hne' & _).
    rewrite (bind_run _ _ _ _ _ (get_ptr_run _ _)), word_hput, decide_False, Hb, put_ptr_run by done.
    eexists. split; [reflexivity|].
    assert (Hw : wrote [p.1; p.1 + 8] s (hput p.1 (hd_addr R base) (hput (p.1 + 8) (p.2 + n) s))).
    { eapply wrote_trans; apply wrote_hput; rewrite !elem_of_cons; auto. }
    split; [exact Hw|]. cbn [seg fst snd]. split_and!; [| |by apply Hframe].
    + by rewrite word_hput, decide_True.
    + rewrite word_hput, decide_False by lia. by rewrite word_hput, decide_True.
  - exists (hput p.1 bp s). assert (Hw : wrote [p.1; p.1 + 8] s (hput p.1 bp s)) by (apply wrote_hput; rewrite !elem_of_cons; auto).
    split; [done|]. split; [done|]. destruct (headers_differ p.1 bp Hpa Hbp Hne) as (_ & Hne' & _).
    cbn [seg fst snd hd_addr]. rewrite !word_hput. rewrite decide_True by done.
    rewrite !decide_False by (lia || done). split_and!; try done. by apply Hframe.
Qed.

(** * [kmfree] *)

(** A word of a block is in the pages of the heap, and is not one that the
    clients of other blocks, or the rest of the kernel, see. *)
Lemma block_inside fl al pgs l s y r al' x :
  heap fl al pgs l s -> fl ++ al ≡ₚ y :: r -> (forall b, b ∈ al' -> b ∈ r) -> y.1 <= x < y.1 + HDR * y.2 ->
  ~ outside al' pgs x /\ x ∉ l.
Proof using kend_ok base_ok.
  intros H HP Hin Hr. assert (Hy : y ∈ fl ++ al) by (rewrite HP; by left).
  destruct (block_in_pages _ _ y x (hp_units _ _ _ _ _ H) Hy Hr) as (p & Hp & Hpx & _). split.
  - intros [(b & Hb & Hbx)|(_ & _ & Hno)]; [|by apply (Hno p)].
    destruct (blocks_apart _ _ _ _ _ [] y r b H HP (Hin b Hb)); lia.
  - eapply not_free_page; [exact H|]. left. by exists p.
Qed.

Lemma header_inside fl al pgs l s y r al' x :
  heap fl al pgs l s -> fl ++ al ≡ₚ y :: r -> (forall b, b ∈ al' -> b ∈ r) -> x ∈ [y.1; y.1 + 8] ->
  ~ outside al' pgs x /\ x ∉ l.
Proof using kend_ok base_ok.
  intros H HP Hin Hx. destruct (block_bounds _ _ _ _ _ y H) as (_ & _ & _ & Hy2); [rewrite HP; by left|].
  eapply block_inside; [done..|]. rewrite !elem_of_cons, elem_of_nil in Hx. unfold HDR. lia.
Qed.

Lemma base_inside fl al pgs l s al' x :
  heap fl al pgs l s -> (forall b, b ∈ al' -> b ∈ fl ++ al) -> x ∈ [base; base + 8] -> ~ outside al' pgs x /\ x ∉ l.
Proof using kend_ok base_ok.
  intros H Hin Hx. assert (Hr : x < kend) by (rewrite !elem_of_cons, elem_of_nil in Hx; pose proof base_ok; unfold HDR in *; lia).
  split; [|eapply not_free_page; [exact H|by right]].
  intros [(b & Hb & Hbx)|(H1 & H2 & _)]; [|rewrite !elem_of_cons, elem_of_nil in Hx; lia].
  destruct (block_bounds _ _ _ _ _ b H (Hin b Hb)). lia.
Qed.

(** Writing such words keeps the page allocator's invariant and what others see. *)
Lemma wrote_kept L al pgs l s s' :
  inv kend l (pages_of s) -> wrote L s s' -> (forall x, x ∈ L -> ~ outside al pgs x /\ x ∉ l) ->
  inv kend l (pages_of s') /\ kept al pgs s s'.
Proof using.
  intros HI (_ & E & Hf) HL. split.
  - rewrite E. apply inv_mem; [done|]. intros q Hq. apply Hf. intros Hc. by apply (HL q).
  - split; [|intros p _ _; by rewrite E]. intros x Hx. apply Hf. intros Hc. by destruct (HL x Hc) as [Ho _].
Qed.

Lemma kept_freep al pgs x s s' : kept al pgs (set_freep x s) s' -> kept al pgs s s'.
Proof using. intros [A B]. split; [exact A|exact B]. Qed.

Lemma kept_held al pgs s s' :
  kept al pgs s s' -> Forall (fun b => 0 < b.2) al -> Forall (fun b => word (hmem s) (b.1 + 8) = b.2) al ->
  Forall (fun b => word (hmem s') (b.1 + 8) = b.2) al.
Proof using.
  intros Hk Hp Hh. rewrite Forall_forall in *. intros b Hb. rewrite <- (Hh b Hb). apply (kp_mem _ _ _ _ Hk). left.
  exists b. split; [done|]. specialize (Hp b Hb). unfold HDR. cbn in Hp. lia.
Qed.

Lemma node_aligned fl al pgs l s b :
  heap fl al pgs l s -> b ∈ (base, 0) :: fl -> b.1 mod HDR = 0.
Proof using kend_ok base_ok.
  intros H [->|Hb]%elem_of_cons; [apply base_ok|]. eapply block_bounds; [exact H|]. apply elem_of_app. by left.
Qed.

(** Where the block [(bp, n)] belongs, and how far its neighbours are. *)
Lemma free_place fl al pgs l s bp n :
  heap fl ((bp, n) :: al) pgs l s ->
  exists A p B, place fl A p B bp /\ p.1 + HDR * p.2 <= bp /\ 0 <= p.2 /\
    Forall (fun c => bp + HDR * n <= c.1 /\ 0 < c.2) B.
Proof using kend_ok base_ok.
  intros H. destruct (block_bounds _ _ _ _ _ (bp, n) H) as (Hk & _ & _ & Hn); [set_solver|]. cbn in Hk, Hn.
  pose proof base_ok as (Hb0 & Hbk & _). unfold HDR in Hbk.
  assert (Hfl : forall b, b ∈ fl -> 0 < b.2 /\ (bp + HDR * n <= b.1 \/ b.1 + HDR * b.2 <= bp)).
  { intros b Hb. destruct (block_bounds _ _ _ _ _ b H) as (_ & _ & _ & Hb2); [set_solver|]. split; [done|].
    apply (blocks_apart _ _ _ _ _ fl (bp, n) al b H); [done|set_solver]. }
  destruct (ring_place ((base, 0) :: fl) bp) as (A & p & B & EN & Hp & HA & HB).
  - apply (hp_sorted _ _ _ _ _ H).
  - constructor; [cbn; lia|]. apply Forall_forall. intros b Hb. destruct (Hfl b Hb). unfold HDR in *. lia.
  - exists (base, 0). split; [done|]. cbn. lia.
  - constructor; [done|]. apply Forall_forall. intros b Hb. destruct (Hfl b Hb). lia.
  - exists A, p, B. split; [done|].
    assert (HpN : p ∈ (base, 0) :: fl) by (rewrite EN; set_solver).
    assert (HBfl : forall c, c ∈ B -> c ∈ fl).
    { intros c Hc. assert (Hcn : c ∈ (base, 0) :: fl) by (rewrite EN; set_solver).
      apply elem_of_cons in Hcn as [->|]; [|done]. rewrite Forall_forall in HB. specialize (HB _ Hc). cbn in HB. lia. }
    split_and!.
    + apply elem_of_cons in HpN as [->|Hpf]; [unfold HDR; cbn; lia|]. destruct (Hfl p Hpf). unfold HDR in *. lia.
    + apply elem_of_cons in HpN as [->|Hpf]; [done|]. destruct (Hfl p Hpf). lia.
    + rewrite Forall_forall in *. intros c Hc. destruct (Hfl c (HBfl c Hc)) as [Hc2 Hap]. specialize (HB c Hc).
      unfold HDR in *. split; [lia|done].
Qed.

Lemma freep_index fl al pgs l s :
  heap fl al pgs l s -> exists i b, ((base, 0) :: fl) !! i = Some b /\ freep s = b.1 /\ (i < S (length fl))%nat.
Proof using.
  intros H. pose proof (hp_freep _ _ _ _ _ H) as Hf. apply list_elem_of_fmap in Hf as (b & E & Hb).
  apply list_elem_of_lookup_1 in Hb as [i Hi]. exists i, b. split_and!; [done|done|]. by apply lookup_lt_Some in Hi.
Qed.

Lemma cyclic_distance i k n : (i < n)%nat -> (k < n)%nat -> exists c, (c < n)%nat /\ ((i + c) mod n = k)%nat.
Proof using.
  intros Hi Hk. destruct (decide (i <= k)%nat).
  - exists (k - i)%nat. split; [lia|]. rewrite Nat.mod_small; lia.
  - exists (k + n - i)%nat. split; [lia|]. replace (i + (k + n - i))%nat with (k + 1 * n)%nat by lia.
    rewrite Nat.Div0.mod_add, Nat.mod_small; lia.
Qed.

(** The whole of [kmfree]: the memory it leaves. *)
Lemma kmfree_mem fl al pgs l s bp n A p B n' B' :
  heap fl ((bp, n) :: al) pgs l s -> place fl A p B bp -> absorb bp n B = (n', B') ->
  n <= n' -> (forall c, c ∈ B' -> c ∈ B) -> 0 <= p.2 -> 0 <= p.2 + n' < 2 ^ 64 ->
  exists s', (forall fuel, (S (length fl) <= fuel)%nat -> kmfree fuel (bp + HDR) s = Ret tt s') /\
    freep s' = p.1 /\ seg (hmem s') (A ++ attach p bp n' B') base /\
    wrote [bp; bp + 8; p.1; p.1 + 8] (set_freep p.1 s) s'.
Proof using kend_ok base_ok.
  intros H HP Hab Hnn HB' Hp2 Hu. pose proof HP as (EN & Hp & HA & HB).
  destruct (block_bounds _ _ _ _ _ (bp, n) H) as (Hk & Htop & Hal & Hn); [set_solver|]. cbn in Hk, Hn, Htop, Hal.
  pose proof base_ok as (Hb0 & Hbk & _). unfold HDR in Hbk.
  pose proof (hp_ring _ _ _ _ _ H) as Hseg. pose proof (hp_sorted _ _ _ _ _ H) as Hsort.
  assert (Hpos : Forall (fun b => 0 < b.2) fl) by (pose proof (hp_pos _ _ _ _ _ H) as Hq; by apply Forall_app in Hq as [Hq _]).
  assert (Hna : forall b, b ∈ A ++ p :: B -> b.1 mod HDR = 0) by (intros b Hb; rewrite <- EN in Hb; by eapply node_aligned).
  destruct (freep_index _ _ _ _ _ H) as (i & b & Hi & Ef & Hil).
  destruct (cyclic_distance i (length A) (S (length fl))) as (c & Hc & Hmod); [done| |].
  { apply (f_equal length) in EN. cbn in EN. rewrite length_app in EN. cbn in EN. lia. }
  pose proof (fun fuel (Hf : (S (length fl) <= fuel)%nat) =>
    kmfree_search_run fl A p B bp s c fuel i b HP Hsort Hpos Hseg ltac:(lia) Hi Hmod ltac:(lia)) as Hsearch.
  rewrite EN in Hseg, Hsort. apply seg_app in Hseg as [HsA (Ep & Ep2 & HsB)]. cbn [hd_addr] in HsA.
  rewrite Forall_forall in HA, HB.
  destruct (join_next_run bp n B n' B' p.1 s) as (s1 & E1 & W1 & Eb & Eb2 & HsB'); try done.
  { pose proof (hp_held _ _ _ _ _ H) as Hh. by apply Forall_cons in Hh as [Hh _]. }
  { intros d Hd. split; [apply Hna; set_solver|]. specialize (HB d Hd). cbn in HB. lia. }
  { unfold HDR. lia. }
  { apply u64_id. lia. }
  assert (HpB : forall d, d ∈ B -> p.1 < d.1).
  { intros d Hd. specialize (HB d Hd). cbn in HB. lia. }
  assert (Hpx : p.1 mod HDR = 0) by (apply Hna; set_solver).
  destruct (header_apart p.1 bp Hpx Hal ltac:(lia)) as [Hpo Hpo8].
  destruct (join_prev_run bp n' p B' s1) as (s2 & E2 & W2 & HsR); try done.
  { destruct W1 as (_ & _ & W1). by rewrite W1. }
  { intros d Hd. split; [apply Hna; set_solver|]. specialize (HpB d (HB' d Hd)). lia. }
  { lia. }
  { apply u64_id. lia. }
  exists (set_freep p.1 s2). split; [|split; [done|split]].
  - intros fuel Hf. unfold kmfree. replace (bp + HDR - HDR) with bp by lia.
    unfold bind at 1, gets. rewrite Ef. rewrite (bind_run _ _ _ _ _ (Hsearch fuel Hf)).
    rewrite (bind_run _ _ _ _ _ E1), (bind_run _ _ _ _ _ E2). done.
  - apply seg_app. split; [|exact HsR]. assert (hd_addr (attach p bp n' B') base = p.1) as -> by (unfold attach; by destruct (_ =? _)).
    change (hmem (set_freep p.1 s2)) with (hmem s2).
    assert (HA1 : forall d, d ∈ A -> d.1 <> bp /\ d.1 <> p.1).
    { intros d Hd. specialize (HA d Hd). cbn in HA. split; [lia|].
      assert (gap d p) as Hg by (apply (StronglySorted_app_1_elem_of _ _ _ d p Hsort); [done|by left]).
      unfold gap, HDR in Hg. assert (0 <= d.2); [|lia].
      assert (d ∈ (base, 0) :: fl) as Hdf by (rewrite EN; set_solver).
      apply elem_of_cons in Hdf as [->|Hdf]; [done|]. rewrite Forall_forall in Hpos. specialize (Hpos d Hdf). cbn in Hpos. lia. }
    eapply seg_wrote; [exact W2| |eapply seg_wrote; [exact W1| |exact HsA]];
      intros d Hd; destruct (HA1 d Hd); apply header_apart; (done || apply Hna; set_solver).
  - eapply (wrote_trans _ _ (set_freep p.1 s1)).
    + destruct W1 as (_ & W1b & W1c). split_and!; [done|exact W1b|]. intros x Hx. apply W1c. set_solver.
    + destruct W2 as (_ & W2b & W2c). split_and!; [done|exact W2b|]. intros x Hx. apply W2c. set_solver.
Qed.

(** A held block becomes free, joined with its neighbours. *)
Lemma kmfree_run fl al pgs l s bp n :
  heap fl ((bp, n) :: al) pgs l s ->
  exists s' fl', (forall fuel, (S (length fl) <= fuel)%nat -> kmfree fuel (bp + HDR) s = Ret tt s') /\
    heap fl' al pgs l s' /\ kept al pgs s s' /\ exists b, b ∈ fl' /\ n <= b.2.
Proof using kend_ok base_ok.
  intros H. destruct (free_place _ _ _ _ _ _ _ H) as (A & p & B & HP & Hpb & Hp2 & HB).
  destruct (block_bounds _ _ _ _ _ (bp, n) H) as (Hk & Htop & _ & Hn); [set_solver|]. cbn in Hk, Hn, Htop.
  pose proof base_ok as (Hb0 & Hbk & _). unfold HDR in Hbk. pose proof HP as (EN & Hp & HA & _).
  pose proof (hp_sorted _ _ _ _ _ H) as Hsort. rewrite EN in Hsort.
  destruct (absorb bp n B) as [n' B'] eqn:Hab.
  destruct (absorb_ok _ _ _ _ _ Hab) as (Hnn & Hsb & Hub & HB' & _); [|done|done|].
  { apply StronglySorted_app in Hsort as (_ & _ & Hs). by apply StronglySorted_inv in Hs as [Hs _]. }
  destruct (attach_ok A p bp n' B B' Hsort HB' Hsb Hpb Hp2 ltac:(lia)) as [Hsn Hun].
  assert (HBfl : forall c, c ∈ B -> c ∈ fl).
  { intros c Hc. assert (c ∈ (base, 0) :: fl) as Hcn by (rewrite EN; set_solver). apply elem_of_cons in Hcn as [->|]; [|done].
    destruct HP as (_ & _ & _ & HPB). rewrite Forall_forall in HPB. specialize (HPB _ Hc). cbn in HPB. lia. }
  assert (Hn' : bp + HDR * n' <= KERNBASE + PHYSTOP).
  { unfold absorb in Hab. destruct B as [|c B0]; [by injection Hab as <- <-|].
    destruct (Z.eqb_spec (bp + HDR * n) c.1); injection Hab as <- <-; [|done].
    destruct (block_bounds _ _ _ _ _ c H) as (_ & Hc & _); [set_solver|]. unfold HDR in *. lia. }
  destruct (kmfree_mem _ _ _ _ _ _ _ _ _ _ _ _ H HP Hab Hnn HB' Hp2) as (s' & E & Ef & Hseg & Hw).
  { unfold HDR, KERNBASE, PHYSTOP in *. destruct (decide (p.2 = 0)); [lia|].
    assert (p ∈ (base, 0) :: fl) as Hpf by (rewrite EN; set_solver). apply elem_of_cons in Hpf as [->|Hpf]; [done|].
    destruct (block_bounds _ _ _ _ _ p H) as (Hpk & _); [set_solver|]. lia. }
  assert (HN' : exists fl', A ++ attach p bp n' B' = (base, 0) :: fl').
  { destruct A as [|a A]; [|by injection EN as -> ?; eexists]. injection EN as <- ?. unfold attach. cbn [fst snd].
    destruct (Z.eqb_spec (base + HDR * 0) bp); [unfold HDR in *; lia|]. by eexists. }
  destruct HN' as [fl' EN'].
  assert (HU : units fl' ≡ₚ units fl ++ units1 (bp, n)).
  { change (units fl') with (units ((base, 0) :: fl')). change (units fl) with (units ((base, 0) :: fl)).
    rewrite EN, <- EN', !units_app, Hun, !units_cons. rewrite units_cons in Hub. rewrite Hub, units_cons. solve_Permutation. }
  assert (Hin : forall b, b ∈ attach p bp n' B' -> b.1 = p.1 \/ b = (bp, n') \/ b ∈ B').
  { intros b. unfold attach. destruct (_ =? _); set_solver. }
  destruct (wrote_kept [bp; bp + 8; p.1; p.1 + 8] al pgs l (set_freep p.1 s) s') as [HI Hkept]; [apply H|exact Hw| |].
  { assert (Hold : forall x, x ∈ [bp; bp + 8] -> ~ outside al pgs x /\ x ∉ l).
    { intros x Hx. apply (header_inside _ _ _ _ _ (bp, n) (fl ++ al) _ _ H); [by rewrite Permutation_middle|set_solver|done]. }
    assert (Hpx : forall x, x ∈ [p.1; p.1 + 8] -> ~ outside al pgs x /\ x ∉ l); [|set_solver].
    intros x Hx. assert (p ∈ (base, 0) :: fl) as Hpf by (rewrite EN; set_solver). apply elem_of_cons in Hpf as [->|Hpf].
    - apply (base_inside _ _ _ _ _ _ _ H); [set_solver|done].
    - apply list_elem_of_split in Hpf as (f1 & f2 & ->).
      apply (header_inside _ _ _ _ _ p (f1 ++ f2 ++ (bp, n) :: al) _ _ H); [|set_solver|done].
      solve_Permutation. }
  assert (Hpal : Forall (fun b => 0 < b.2) al /\ Forall (fun b => 0 < b.2) fl).
  { pose proof (hp_pos _ _ _ _ _ H) as Hq. apply Forall_app in Hq as [Hq1 Hq]. by apply Forall_cons in Hq as [_ Hq2]. }
  apply kept_freep in Hkept. exists s', fl'. split; [exact E|]. split; [|split; [exact Hkept|]].
  - constructor.
    + exact HI.
    + apply H.
    + rewrite units_app, HU, <- (hp_units _ _ _ _ _ H), units_app, units_cons. solve_Permutation.
    + apply Forall_app. split; [|apply Hpal]. apply Forall_forall. intros b Hb.
      rewrite EN' in Hsn. apply StronglySorted_inv in Hsn as [_ Hgt]. rewrite Forall_forall in Hgt. specialize (Hgt b Hb).
      assert (Hold : b ∈ (base, 0) :: fl -> 0 < b.2).
      { intros [->|Hbf]%elem_of_cons; [unfold gap, HDR in Hgt; cbn in Hgt; lia|]. destruct Hpal as [_ Hq]. rewrite Forall_forall in Hq. by apply Hq. }
      assert (Hbn : b ∈ A ++ attach p bp n' B') by (rewrite EN'; by right).
      apply elem_of_app in Hbn as [HbA|Hbn]; [apply Hold; rewrite EN; set_solver|].
      unfold attach in Hbn. destruct (_ =? _); apply elem_of_cons in Hbn as [Eb|Hbn].
      * rewrite Eb. cbn. lia.
      * apply Hold. right. auto.
      * apply Hold. rewrite EN. set_solver.
      * apply elem_of_cons in Hbn as [->|Hbn]; [cbn; lia|]. apply Hold. right. auto.
    + by rewrite <- EN'.
    + by rewrite <- EN'.
    + rewrite Ef, <- EN'. unfold attach. rewrite fmap_app. destruct (_ =? _); set_solver.
    + eapply kept_held; [exact Hkept|apply Hpal|]. pose proof (hp_held _ _ _ _ _ H) as Hh. by apply Forall_cons in Hh as [_ Hh].
  - assert (Hb : exists b, b ∈ attach p bp n' B' /\ n <= b.2).
    { unfold attach. destruct (_ =? _); [exists (p.1, p.2 + n')|exists (bp, n')]; (split; [set_solver|cbn; lia]). }
    destruct Hb as (b & Hb & Hbn). exists b. split; [|done].
    assert (b ∈ (base, 0) :: fl') as Hbf by (rewrite <- EN'; set_solver). apply elem_of_cons in Hbf as [->|]; [|done].
    cbn in Hbn. lia.
Qed.

(** * Allocating *)

Lemma on_pages_run {A} (m : M kstate A) s a t :
  m (pages_of s) = Ret a t -> on_pages m s = Ret a (set_pages t s).
Proof using. intros E. unfold on_pages, zoom. by rewrite E. Qed.

Lemma kept_trans al pgs s s1 s2 : kept al pgs s s1 -> kept al pgs s1 s2 -> kept al pgs s s2.
Proof using. intros [A1 A2] [B1 B2]. split; [intros x Hx; by rewrite B1, A1|intros p Hp Hn; by rewrite B2, A2]. Qed.

Lemma outside_more al pgs pgs' x : (forall p, p ∈ pgs -> p ∈ pgs') -> outside al pgs' x -> outside al pgs x.
Proof using. intros H [Hb|(H1 & H2 & H3)]; [by left|]. right. split_and!; auto. Qed.

Lemma kept_more al pgs pgs' s s' : (forall p, p ∈ pgs -> p ∈ pgs') -> kept al pgs s s' -> kept al pgs' s s'.
Proof using.
  intros H [A B]. split; [intros x Hx; apply A; by eapply outside_more|]. intros p Hp Hn. apply B; [done|]. auto.
Qed.

(** A word of a block is not in a page that was free. *)
Lemma block_off_page fl al pgs p l s b x :
  heap fl al pgs (p :: l) s -> page kend p -> b ∈ fl ++ al -> b.1 <= x < b.1 + HDR * b.2 -> ~ in_page p x.
Proof using.
  intros H Hp Hb Hx Hin. destruct (block_in_pages _ _ b x (hp_units _ _ _ _ _ H) Hb Hx) as (q & Hq & Hqx & _).
  destruct (hp_own _ _ _ _ _ H) as (_ & Hpg & Hno). rewrite Forall_forall in Hpg. apply (Hno q Hq).
  replace q with p; [by left|]. apply (page_disjoint p q x); [apply Hp|by apply Hpg|done|done].
Qed.

(** A new page as a block that is held. *)
Lemma new_page fl al pgs p l s s' :
  heap fl al pgs (p :: l) s -> page kend p -> p ∉ l -> inv kend l (pages_of s') -> freep s' = freep s ->
  word (hmem s') (p + 8) = PGSIZE / HDR -> (forall x, ~ in_page p x -> word (hmem s') x = word (hmem s) x) ->
  (forall q, page kend q -> q <> p -> rc (pages_of s') q = rc (pages_of s) q) ->
  heap fl ((p, PGSIZE / HDR) :: al) (p :: pgs) l s' /\ kept al (p :: pgs) s s'.
Proof using kend_ok base_ok.
  intros H Hp Hpl HI Hf Hw Hx Href. destruct (hp_own _ _ _ _ _ H) as (Hnd & Hpg & Hno).
  pose proof (hp_pos _ _ _ _ _ H) as Hpos. apply Forall_app in Hpos as [Hpf Hpa].
  assert (Hold : forall b x, b ∈ fl ++ al -> b.1 <= x < b.1 + HDR * b.2 -> word (hmem s') x = word (hmem s) x).
  { intros b x Hb Hbx. apply Hx. by eapply block_off_page. }
  assert (Hhdr : forall b, b ∈ fl ++ al -> word (hmem s') b.1 = word (hmem s) b.1 /\ word (hmem s') (b.1 + 8) = word (hmem s) (b.1 + 8)).
  { intros b Hb. destruct (block_bounds _ _ _ _ _ b H Hb) as (_ & _ & _ & Hb2). unfold HDR in *. split; apply (Hold b); (done || lia). }
  split.
  - constructor.
    + done.
    + split_and!; [constructor; [|done]|by constructor|].
      * intros Hc. apply (Hno p Hc). by left.
      * intros q [->|Hq]%elem_of_cons; [done|]. intros Hc. apply (Hno q Hq). by right.
    + unfold whole. rewrite fmap_cons, units_app, !units_cons. fold (whole pgs). rewrite <- (hp_units _ _ _ _ _ H), units_app. solve_Permutation.
    + apply Forall_app. split; [done|]. by constructor.
    + apply H.
    + eapply seg_frame; [|apply H]. intros b [->|Hb]%elem_of_cons; [|apply Hhdr; set_solver].
      pose proof base_ok as (Hb0 & Hbk & _). destruct Hp as [_ Hp]. unfold HDR in *. cbn. split; apply Hx; unfold in_page; lia.
    + rewrite Hf. apply H.
    + constructor; [done|]. pose proof (hp_held _ _ _ _ _ H) as Hh. rewrite Forall_forall in *. intros b Hb.
      rewrite <- (Hh b Hb). apply Hhdr. set_solver.
  - split; [intros x [(b & Hb & Hbx)|(_ & _ & Hno')]; [apply (Hold b); [set_solver|done]|]; apply Hx, Hno'; by left|].
    intros q Hq Hn. apply Href; [done|]. intros ->. apply Hn. by left.
Qed.

Lemma morecore_run fl al pgs l s :
  heap fl al pgs l s ->
  match l with
  | [] => forall fuel, morecore fuel s = Ret 0 s
  | p :: l' => exists s' fl', (forall fuel, (S (length fl) <= fuel)%nat -> morecore fuel s = Ret (freep s') s') /\
      heap fl' al (p :: pgs) l' s' /\ kept al (p :: pgs) s s' /\ exists b, b ∈ fl' /\ PGSIZE / HDR <= b.2
  end.
Proof using kend_ok base_ok.
  intros H. pose proof (kalloc_vm kend kend_ok l (pages_of s) (hp_pages _ _ _ _ _ H)) as Hk. destruct l as [|p l].
  - intros fuel. unfold morecore. rewrite (bind_run _ _ _ _ _ (on_pages_run _ _ _ _ Hk)). by destruct s.
  - destruct Hk as (k1 & Ek & HI1 & Em & Hp & Hpl & Hp0 & _ & Href). destruct (zero_page_run p k1) as (m & Ez & _ & Hm).
    set (s2 := hput (p + 8) (PGSIZE / HDR) (set_pages (set_mem m k1) s)).
    destruct (new_page fl al pgs p l s s2) as [H2 Hk2]; try done.
    + unfold s2, hput, hmem. cbn. apply (inv_mem kend l k1 (<[p + 8 := PGSIZE / HDR]> m)); [done|]. intros q Hq.
      assert (Hqp : page kend q) by (pose proof (inv_pages _ _ _ HI1) as Hf; rewrite Forall_forall in Hf; by apply Hf).
      assert (~ in_page p q) as Hn.
      { intros Hc. apply Hpl. replace p with q; [done|]. symmetry. apply (page_disjoint p q q); [apply Hp|apply Hqp|done|unfold in_page, PGSIZE; lia]. }
      rewrite word_insert_ne; [by apply Hm|]. intros <-. apply Hn. unfold in_page, PGSIZE. lia.
    + unfold s2. by rewrite word_hput, decide_True.
    + intros x Hx. unfold s2. rewrite word_hput, decide_False.
      * unfold hmem. cbn. rewrite Hm by done. by rewrite Em.
      * intros <-. apply Hx. unfold in_page, PGSIZE. lia.
    + destruct (kmfree_run _ _ _ _ _ _ _ H2) as (s' & fl' & E & H' & Hk' & Hb). exists s', fl'. split_and!; [|done|by eapply kept_trans|done].
      intros fuel Hf. unfold morecore. rewrite (bind_run _ _ _ _ _ (on_pages_run _ _ _ _ Ek)).
      destruct (Z.eqb_spec p 0); [done|].
      rewrite (bind_run _ _ _ _ _ (on_pages_run _ (set_pages k1 s) _ _ Ez)).
      rewrite (bind_run _ _ _ _ _ (put_size_run _ _ _)). rewrite (bind_run _ _ _ _ _ (E fuel Hf)). done.
Qed.

(** Taking a block out of the ring. *)
Lemma carve_exact fl al pgs l s A prev p B :
  heap fl al pgs l s -> (base, 0) :: fl = A ++ prev :: p :: B -> p.1 <> base ->
  exists s' fl', carve p.2 prev.1 p.1 p.2 s = Ret (p.1 + HDR) s' /\ (base, 0) :: fl' = A ++ prev :: B /\ fl ≡ₚ p :: fl' /\
    freep s' = prev.1 /\ seg (hmem s') ((base, 0) :: fl') base /\ wrote [prev.1; prev.1 + 8] (set_freep prev.1 s) s'.
Proof using kend_ok base_ok.
  intros H EN Hpb. assert (HF : exists fl', (base, 0) :: fl' = A ++ prev :: B /\ fl ≡ₚ p :: fl').
  { destruct A as [|a A]; injection EN as <- ->; eexists; (split; [reflexivity|]); [done|]. solve_Permutation. }
  destruct HF as (fl' & EN' & HP). pose proof (hp_ring _ _ _ _ _ H) as Hseg. rewrite EN in Hseg.
  apply seg_app in Hseg as [HsA (Ev & Ev2 & Ep & Ep2 & HsB)]. cbn [hd_addr] in *.
  exists (set_freep prev.1 (hput prev.1 (hd_addr B base) s)), fl'. split.
  { unfold carve. rewrite Z.eqb_refl. unfold bind at 1. rewrite (bind_run _ _ _ _ _ (get_ptr_run _ _)), Ep. done. }
  split_and!; [done|done|done| |].
  - change (hmem (set_freep prev.1 (hput prev.1 (hd_addr B base) s))) with (hmem (hput prev.1 (hd_addr B base) s)).
    assert (Hother : forall b, b ∈ A ++ B -> b.1 ∉ [prev.1; prev.1 + 8] /\ b.1 + 8 ∉ [prev.1; prev.1 + 8]).
    { intros b Hb. pose proof (hp_sorted _ _ _ _ _ H) as Hs. rewrite EN in Hs.
      assert (Hbn : b ∈ (base, 0) :: fl) by (rewrite EN; set_solver). assert (Hvn : prev ∈ (base, 0) :: fl) by (rewrite EN; set_solver).
      assert (Hz : forall c, c ∈ (base, 0) :: fl -> 0 <= c.2).
      { intros c [->|Hc]%elem_of_cons; [done|]. destruct (block_bounds _ _ _ _ _ c H) as (_ & _ & _ & Hc2); [set_solver|]. lia. }
      apply header_apart; [by eapply node_aligned|by eapply node_aligned|].
      pose proof (Hz b Hbn). pose proof (Hz prev Hvn). apply elem_of_app in Hb as [Hb|Hb].
      - assert (gap b prev) as Hg by (apply (StronglySorted_app_1_elem_of _ _ _ b prev Hs); [done|by left]). unfold gap, HDR in Hg. lia.
      - apply StronglySorted_app in Hs as (_ & _ & Hs). apply StronglySorted_inv in Hs as [_ Hg]. rewrite Forall_forall in Hg.
        specialize (Hg b ltac:(by right)). unfold gap, HDR in Hg. lia. }
    assert (Hw : wrote [prev.1; prev.1 + 8] s (hput prev.1 (hd_addr B base) s)) by (apply wrote_hput; by left).
    rewrite EN'. apply seg_app. split; [|split_and!].
    + eapply seg_wrote; [exact Hw| |exact HsA]. intros b Hb. apply Hother. set_solver.
    + by rewrite word_hput, decide_True.
    + by rewrite word_hput, decide_False by lia.
    + eapply seg_wrote; [exact Hw| |exact HsB]. intros b Hb. apply Hother. set_solver.
  - split_and!; [done|done|]. intros x Hx. unfold hmem at 1. cbn. apply word_insert_ne. set_solver.
Qed.

Lemma carve_split fl al pgs l s A prev p B k :
  heap fl al pgs l s -> (base, 0) :: fl = A ++ prev :: p :: B -> p.1 <> base -> 0 < k < p.2 ->
  let q := p.1 + HDR * (p.2 - k) in
  exists s' fl', carve k prev.1 p.1 p.2 s = Ret (q + HDR) s' /\
    (base, 0) :: fl' = A ++ prev :: (p.1, p.2 - k) :: B /\ units fl ≡ₚ units1 (q, k) ++ units fl' /\
    freep s' = prev.1 /\ seg (hmem s') ((base, 0) :: fl') base /\ word (hmem s') (q + 8) = k /\
    wrote [p.1 + 8; q + 8] (set_freep prev.1 s) s'.
Proof using kend_ok base_ok.
  intros H EN Hpb Hk q. assert (Hpf : exists F1, fl = F1 ++ p :: B /\ (base, 0) :: F1 = A ++ [prev]).
  { destruct A as [|a A]; injection EN as <- ->; [by exists []|exists (A ++ [prev])]. by rewrite <- app_assoc. }
  destruct Hpf as (F1 & Hpf & EF). destruct (block_bounds _ _ _ _ _ p H) as (Hpk & Hpt & Hpa & _); [set_solver|].
  assert (HF : exists fl', (base, 0) :: fl' = A ++ prev :: (p.1, p.2 - k) :: B /\ units fl ≡ₚ units1 (q, k) ++ units fl').
  { assert (Hu : units1 p ≡ₚ units1 (q, k) ++ units1 (p.1, p.2 - k)).
    { subst q. destruct p as [pa pn]. cbn [fst snd] in *. replace pn with ((pn - k) + k) at 1 by lia. rewrite units1_split by lia. by rewrite Permutation_app_comm. }
    destruct A as [|a A]; injection EN as <- ->; eexists; (split; [reflexivity|]).
    - rewrite !units_cons, Hu. solve_Permutation.
    - rewrite !units_app, !units_cons, Hu. solve_Permutation. }
  destruct HF as (fl' & EN' & HU). pose proof (hp_ring _ _ _ _ _ H) as Hseg. rewrite EN in Hseg.
  exists (set_freep prev.1 (hput (q + 8) k (hput (p.1 + 8) (p.2 - k) s))), fl'.
  split.
  { unfold carve. destruct (Z.eqb_spec p.2 k); [lia|]. rewrite u64_id by (unfold HDR, KERNBASE, PHYSTOP in *; lia). done. }
  assert (Hq : p.1 + 8 <> q + 8) by (unfold q, HDR; lia).
  split_and!; [done|done|done| | |].
  - change (seg (hmem (hput (q + 8) k (hput (p.1 + 8) (p.2 - k) s))) ((base, 0) :: fl') base).
    assert (Hw : wrote [p.1 + 8; q + 8] s (hput (q + 8) k (hput (p.1 + 8) (p.2 - k) s))).
    { eapply wrote_trans; apply wrote_hput; rewrite !elem_of_cons; auto. }
    assert (Hother : forall b, b ∈ A ++ prev :: B -> b.1 ∉ [p.1 + 8; q + 8] /\ b.1 + 8 ∉ [p.1 + 8; q + 8]).
    { intros b Hb. assert (Hap : b.1 + 16 <= p.1 \/ p.1 + HDR * p.2 <= b.1).
      { assert (b = (base, 0) \/ b ∈ F1 ++ B) as [->|Hbf].
        - assert (b ∈ (base, 0) :: F1 \/ b ∈ B) as Hb' by (rewrite EF; set_solver). set_solver.
        - pose proof base_ok as (_ & Hbk & _). unfold HDR in Hbk. cbn. lia.
        - destruct (blocks_apart _ _ _ _ _ F1 p (B ++ al) b H) as [|Hl]; [rewrite Hpf; by rewrite <- app_assoc|set_solver|by right|].
          left. destruct (block_bounds _ _ _ _ _ b H) as (_ & _ & _ & Hb2); [rewrite Hpf; set_solver|]. unfold HDR in Hl. lia. }
      unfold q, HDR in *. rewrite !not_elem_of_cons. split_and!; (lia || apply not_elem_of_nil). }
    apply seg_app in Hseg as [HsA (Ev & Ev2 & Ep & Ep2 & HsB)]. cbn [hd_addr] in *.
    destruct Hw as (Hw0 & Hw1 & Hw2). destruct (Hother prev ltac:(set_solver)) as [Hv Hv8].
    rewrite EN'. apply seg_app. cbn [seg hd_addr fst snd]. split_and!.
    + eapply seg_wrote; [by split_and!| |exact HsA]. intros b Hb. apply Hother. set_solver.
    + by rewrite Hw2.
    + by rewrite Hw2.
    + rewrite Hw2; [done|]. rewrite !not_elem_of_cons. unfold q, HDR. split_and!; [lia|lia|apply not_elem_of_nil].
    + rewrite word_hput, decide_False by done. by rewrite word_hput, decide_True.
    + eapply seg_wrote; [by split_and!| |exact HsB]. intros b Hb. apply Hother. set_solver.
  - unfold hmem at 1. cbn. by rewrite word_insert, decide_True.
  - eapply (wrote_trans _ _ (set_freep prev.1 (hput (p.1 + 8) (p.2 - k) s))).
    + split_and!; [done|done|]. intros x Hx. unfold hmem at 1. cbn. apply word_insert_ne. set_solver.
    + split_and!; [done|done|]. intros x Hx. unfold hmem at 1. cbn. apply word_insert_ne. set_solver.
Qed.

Lemma node_free fl b : b ∈ (base, 0) :: fl -> b <> (base, 0) -> b ∈ fl.
Proof using. by intros [->|Hb]%elem_of_cons. Qed.

(** What is left of the ring when [k] units of [p] are taken. *)
Definition rest (p : Z * Z) (k : Z) (B : list (Z * Z)) : list (Z * Z) :=
  if decide (k = p.2) then B else (p.1, p.2 - k) :: B.

Lemma rest_sorted A prev p B k :
  0 < k <= p.2 -> StronglySorted gap (A ++ prev :: p :: B) -> StronglySorted gap (A ++ prev :: rest p k B).
Proof using.
  clear kend_ok base_ok. intros Hk Hs. unfold rest. apply StronglySorted_app in Hs as (HA & HsA & Hs). apply StronglySorted_app. split_and!; [|done|].
  - intros x y Hx Hy. destruct (decide (k = p.2)); [apply HA; set_solver|].
    apply elem_of_cons in Hy as [->|[->|Hy]%elem_of_cons]; [apply HA; set_solver| |apply HA; set_solver].
    exact (HA x p Hx ltac:(set_solver)).
  - apply StronglySorted_inv in Hs as [Hs Hv]. apply StronglySorted_inv in Hs as [Hs Hp].
    apply Forall_cons in Hv as [Hvp Hv]. destruct (decide (k = p.2)); [by constructor|]. constructor; [|by constructor].
    constructor; [done|]. eapply Forall_impl; [exact Hp|]. intros c Hc. unfold gap, HDR in *. cbn. lia.
Qed.

Lemma carve_heap fl al pgs l s A prev p B k fl' q s' L :
  heap fl al pgs l s -> (base, 0) :: fl = A ++ prev :: p :: B -> 0 < k <= p.2 ->
  (base, 0) :: fl' = A ++ prev :: rest p k B -> units fl ≡ₚ units1 (q, k) ++ units fl' -> freep s' = prev.1 ->
  seg (hmem s') ((base, 0) :: fl') base -> word (hmem s') (q + 8) = k -> wrote L (set_freep prev.1 s) s' ->
  (forall x, x ∈ L -> ~ outside al pgs x /\ x ∉ l) ->
  heap fl' ((q, k) :: al) pgs l s' /\ kept al pgs s s'.
Proof using kend_ok base_ok.
  intros H EN Hk EN' HU Hf Hseg Hq Hw HL.
  destruct (wrote_kept L al pgs l (set_freep prev.1 s) s' (hp_pages _ _ _ _ _ H) Hw HL) as [HI Hkept]. apply kept_freep in Hkept. split; [|exact Hkept].
  pose proof (hp_sorted _ _ _ _ _ H) as Hs. rewrite EN in Hs. apply (rest_sorted _ _ _ _ k Hk) in Hs. rewrite <- EN' in Hs.
  pose proof (hp_pos _ _ _ _ _ H) as Hpos. apply Forall_app in Hpos as [Hpf Hpa]. constructor; try done.
  - apply H.
  - rewrite <- (hp_units _ _ _ _ _ H), !units_app, units_cons, HU. solve_Permutation.
  - apply Forall_app. split; [|constructor; [cbn; lia|done]].
    apply StronglySorted_inv in Hs as [_ Hgt]. rewrite Forall_forall in Hgt, Hpf |- *. intros b Hb.
    specialize (Hgt b Hb). assert (Hbn : b ∈ A ++ prev :: rest p k B) by (rewrite <- EN'; by right).
    assert (Hold : b ∈ (base, 0) :: fl -> 0 < b.2).
    { intros Hbo. apply Hpf, node_free; [done|]. intros ->. unfold gap, HDR in Hgt. cbn in Hgt. lia. }
    rewrite EN in Hold. unfold rest in Hbn. destruct (decide (k = p.2)); [apply Hold; set_solver|].
    destruct (decide (b = (p.1, p.2 - k))) as [->|]; [cbn; lia|]. apply Hold. set_solver.
  - rewrite Hf, EN'. rewrite fmap_app. set_solver.
  - constructor; [done|]. eapply kept_held; [exact Hkept|done|apply H].
Qed.

(** The header of a node of the ring is not visible to others. *)
Lemma node_inside fl al pgs l s b x :
  heap fl al pgs l s -> b ∈ (base, 0) :: fl -> x ∈ [b.1; b.1 + 8] -> ~ outside al pgs x /\ x ∉ l.
Proof using kend_ok base_ok.
  intros H [->|Hb]%elem_of_cons Hx.
  - apply (base_inside _ _ _ _ _ _ _ H); [set_solver|done].
  - apply list_elem_of_split in Hb as (f1 & f2 & ->).
    apply (header_inside _ _ _ _ _ b (f1 ++ f2 ++ al) _ _ H); [solve_Permutation|set_solver|done].
Qed.

Lemma carve_run fl al pgs l s A prev p B k :
  heap fl al pgs l s -> (base, 0) :: fl = A ++ prev :: p :: B -> p.1 <> base -> 0 < k <= p.2 ->
  exists s' fl' q, carve k prev.1 p.1 p.2 s = Ret (q + HDR) s' /\ heap fl' ((q, k) :: al) pgs l s' /\ kept al pgs s s'.
Proof using kend_ok base_ok.
  intros H EN Hpb Hk.
  assert (Hpn : p ∈ (base, 0) :: fl) by (rewrite EN; set_solver). assert (Hvn : prev ∈ (base, 0) :: fl) by (rewrite EN; set_solver).
  assert (Hpf : p ∈ fl) by (apply node_free; [done|by intros ->]).
  destruct (decide (k = p.2)) as [->|Hne].
  - destruct (carve_exact _ _ _ _ _ _ _ _ _ H EN Hpb) as (s' & fl' & E & EN' & HP & Hf & Hseg & Hw).
    exists s', fl', p.1. split; [done|]. eapply (carve_heap _ _ _ _ _ _ _ _ _ _ _ _ _ [prev.1; prev.1 + 8] H EN Hk); try done.
    + unfold rest. by rewrite decide_True.
    + rewrite HP, units_cons. by destruct p.
    + destruct Hw as (_ & _ & Hw). rewrite Hw; [|apply header_apart].
      * pose proof (hp_ring _ _ _ _ _ H) as Hr. rewrite EN in Hr. apply seg_app in Hr as [_ (_ & _ & _ & Ep2 & _)]. done.
      * by eapply node_aligned.
      * by eapply node_aligned.
      * pose proof (hp_sorted _ _ _ _ _ H) as Hs. rewrite EN in Hs. apply StronglySorted_app in Hs as (_ & _ & Hs).
        apply StronglySorted_inv in Hs as [_ Hg]. apply Forall_cons in Hg as [Hg _]. unfold gap, HDR in Hg.
        assert (0 <= prev.2); [|lia]. apply elem_of_cons in Hvn as [->|Hv]; [done|].
        destruct (block_bounds _ _ _ _ _ prev H) as (_ & _ & _ & Hv2); [set_solver|lia].
    + intros x Hx. by eapply node_inside.
  - destruct (carve_split _ _ _ _ _ _ _ _ _ k H EN Hpb ltac:(lia)) as (s' & fl' & E & EN' & HP & Hf & Hseg & Hq & Hw).
    eexists s', fl', _. split; [exact E|]. eapply (carve_heap _ _ _ _ _ _ _ _ _ _ _ _ _ _ H EN Hk); try done.
    + unfold rest. by rewrite decide_False.
    + intros x Hx. apply list_elem_of_split in Hpf as (f1 & f2 & Ef).
      apply (block_inside _ _ _ _ _ p (f1 ++ f2 ++ al) _ _ H); [rewrite Ef; solve_Permutation|set_solver|].
      rewrite !elem_of_cons, elem_of_nil in Hx. unfold HDR in *. lia.
Qed.

(** What a search for [k] units gives: a block, or 0 when no free block is large enough
    and no page is left; [t] are the pages it took.  A request that fits into
    a page takes one page at most. *)
Definition alloc_post (k : Z) (fl al : list (Z * Z)) (pgs l : list Z) (s : hstate) (r : Z) (s' : hstate) : Prop :=
  exists t fl' l', l = t ++ l' /\ kept al (reverse t ++ pgs) s s' /\
    (r = 0 /\ l' = [] /\ heap fl' al (reverse t ++ pgs) [] s' /\ Forall (fun b => b.2 < k) fl'
     \/ exists q, r = q + HDR /\ heap fl' ((q, k) :: al) (reverse t ++ pgs) l' s') /\
    ((exists b, b ∈ fl /\ k <= b.2) -> r <> 0 /\ t = []) /\
    (k <= PGSIZE / HDR -> (length t <= 1)%nat /\ (r = 0 -> t = [])).

Lemma block_nonzero fl al pgs l s q k : heap fl ((q, k) :: al) pgs l s -> q + HDR <> 0.
Proof using kend_ok base_ok.
  intros H. destruct (block_bounds _ _ _ _ _ (q, k) H) as (Hq & _); [set_solver|]. unfold HDR, KERNBASE in *. cbn in Hq. lia.
Qed.

Lemma node_unique fl al pgs l s i j b c :
  heap fl al pgs l s -> ((base, 0) :: fl) !! i = Some b -> ((base, 0) :: fl) !! j = Some c -> b.1 = c.1 -> i = j.
Proof using kend_ok base_ok.
  intros H Hi Hj E. pose proof (hp_sorted _ _ _ _ _ H) as Hs.
  assert (Hz : forall d, d ∈ (base, 0) :: fl -> 0 <= d.2).
  { intros d [->|Hd]%elem_of_cons; [done|]. destruct (block_bounds _ _ _ _ _ d H) as (_ & _ & _ & Hd2); [set_solver|lia]. }
  pose proof (Hz b (list_elem_of_lookup_2 _ _ _ Hi)). pose proof (Hz c (list_elem_of_lookup_2 _ _ _ Hj)).
  destruct (Nat.lt_trichotomy i j) as [Hl|[|Hl]]; [|done|].
  - pose proof (sorted_lookup _ _ _ _ _ Hs Hi Hj Hl) as Hg. unfold gap, HDR in Hg. lia.
  - pose proof (sorted_lookup _ _ _ _ _ Hs Hj Hi Hl) as Hg. unfold gap, HDR in Hg. lia.
Qed.

(** A full turn of the ring has seen every block. *)
Lemma full_turn (N : list (Z * Z)) f (P : Z * Z -> Prop) :
  (f < length N)%nat -> (forall j b, (1 <= j <= length N)%nat -> N !! ((f + j) mod length N)%nat = Some b -> P b) -> Forall P N.
Proof using.
  intros Hf H. apply Forall_forall. intros b Hb. apply list_elem_of_lookup_1 in Hb as [i Hi].
  pose proof (lookup_lt_Some _ _ _ Hi) as Hil. destruct (cyclic_distance f i (length N) Hf Hil) as (c & Hc & Em).
  destruct c as [|c].
  - apply (H (length N) b); [lia|]. rewrite <- Hi, <- Em. rewrite <- Nat.Div0.add_mod_idemp_r, Nat.Div0.mod_same. done.
  - apply (H (S c) b); [lia|]. by rewrite Em.
Qed.

(** The position of the search: [p] is [c] places behind [freep]. *)
Definition at_place (fl : list (Z * Z)) (s : hstate) (k : Z) (f c : nat) (prev p : Z * Z) : Prop :=
  exists fb, ((base, 0) :: fl) !! f = Some fb /\ freep s = fb.1 /\ (1 <= c <= S (length fl))%nat /\
    ((base, 0) :: fl) !! ((f + c) mod S (length fl))%nat = Some p /\
    ((base, 0) :: fl) !! ((f + c - 1) mod S (length fl))%nat = Some prev /\
    (forall j b, (1 <= j < c)%nat -> ((base, 0) :: fl) !! ((f + j) mod S (length fl))%nat = Some b -> b.2 < k).

Lemma search_start fl al pgs l s k :
  heap fl al pgs l s -> exists f b p, at_place fl s k f 1 b p /\ freep s = b.1 /\ word (hmem s) b.1 = p.1.
Proof using.
  intros H. destruct (freep_index _ _ _ _ _ H) as (f & b & Hf & Ef & Hl).
  destruct (ring_link _ _ _ _ _ (hp_ring _ _ _ _ _ H) Hf) as (p & Hp & Ep & _).
  exists f, b, p. split_and!; [|done|done]. exists b. split_and!; [done|done|lia|lia| | |lia].
  - by rewrite Nat.add_1_r.
  - replace (f + 1 - 1)%nat with f by lia. by rewrite Nat.mod_small.
Qed.

(** The neighbour before a block that is not [base]. *)
Lemma at_place_found fl s k f c prev p :
  at_place fl s k f c prev p -> 0 < k <= p.2 -> exists A B, (base, 0) :: fl = A ++ prev :: p :: B.
Proof using.
  intros (fb & _ & _ & Hc & Hp & Hv & _) Hk. remember ((f + c) mod S (length fl))%nat as i eqn:Ei.
  destruct i as [|i]; [injection Hp as <-; cbn in Hk; lia|].
  assert (Ev : ((f + c - 1) mod S (length fl) = i)%nat).
  { pose proof (Nat.div_mod_eq (f + c) (S (length fl))) as Ed. rewrite <- Ei in Ed.
    pose proof (Nat.mod_upper_bound (f + c) (S (length fl)) ltac:(lia)) as Hu. rewrite <- Ei in Hu.
    symmetry. apply (Nat.mod_unique _ _ ((f + c) / S (length fl))); lia. }
  rewrite Ev in Hv. exists (take i ((base, 0) :: fl)), (drop (S (S i)) ((base, 0) :: fl)).
  rewrite <- (take_drop_middle _ i prev Hv) at 1. do 2 f_equal.
  rewrite <- (take_drop_middle (drop (S i) _) 0 p); [by rewrite drop_drop, Nat.add_1_r|].
  rewrite lookup_drop. by rewrite Nat.add_0_r.
Qed.

Lemma loop_found k al fl pgs l s f c prev p :
  heap fl al pgs l s -> at_place fl s k f c prev p -> 0 < k <= p.2 ->
  exists r s', (forall fuel, (1 <= fuel)%nat -> kmalloc_loop fuel k prev.1 p.1 s = Ret r s') /\ alloc_post k fl al pgs l s r s'.
Proof using kend_ok base_ok.
  intros H HP Hk. destruct (at_place_found _ _ _ _ _ _ _ HP Hk) as (A & B & EN).
  pose proof HP as (_ & _ & _ & _ & Hp & _). destruct (ring_link _ _ _ _ _ (hp_ring _ _ _ _ _ H) Hp) as (_ & _ & _ & Esz).
  destruct (carve_run _ _ _ _ _ _ _ _ _ k H EN) as (s' & fl' & q & E & H' & Hkept); [|done|].
  { intros E. assert (Hpz : ((base, 0) :: fl) !! 0%nat = Some (base, 0)) by done.
    pose proof (node_unique _ _ _ _ _ _ _ _ _ H Hp Hpz E) as E0. rewrite E0 in Hp. injection Hp as <-. cbn in Hk. lia. }
  exists (q + HDR), s'. split.
  - intros [|fuel] Hf; [lia|]. cbn [kmalloc_loop]. rewrite (bind_run _ _ _ _ _ (get_size_run _ _)), Esz.
    destruct (Z.leb_spec k p.2); [done|lia].
  - pose proof (block_nonzero _ _ _ _ _ _ _ H') as Hq. exists [], fl', l. cbn [reverse rev_append app].
    split_and!; [done|done| | |].
    + right. by exists q.
    + done.
    + intros _. split; [cbn; lia|done].
Qed.

(** One turn of the loop at a block that is too small. *)
Lemma loop_small k al fl pgs l s f c prev p :
  heap fl al pgs l s -> at_place fl s k f c prev p -> p.2 < k ->
  (c = S (length fl) ->
    Forall (fun b => b.2 < k) fl /\
    forall fuel, kmalloc_loop (S fuel) k prev.1 p.1 s =
      (let* p' := morecore fuel in if p' =? 0 then ret 0 else let* next := get_ptr p' in kmalloc_loop fuel k p' next) s) /\
  (c <> S (length fl) -> exists nx, at_place fl s k f (S c) p nx /\
    forall fuel, kmalloc_loop (S fuel) k prev.1 p.1 s = kmalloc_loop fuel k p.1 nx.1 s).
Proof using kend_ok base_ok.
  intros H (fb & Hfb & Hfp & Hc & Hp & Hv & Hseen) Hk.
  destruct (ring_link _ _ _ _ _ (hp_ring _ _ _ _ _ H) Hp) as (nx & Hnx & Enx & Esz).
  pose proof (lookup_lt_Some _ _ _ Hfb) as Hfl. cbn [length] in Hfl.
  assert (Hrun : forall fuel, kmalloc_loop (S fuel) k prev.1 p.1 s =
    (if p.1 =? fb.1 then (let* p' := morecore fuel in if p' =? 0 then ret 0 else let* next := get_ptr p' in kmalloc_loop fuel k p' next)
     else (let* next := get_ptr p.1 in kmalloc_loop fuel k p.1 next)) s).
  { intros fuel. cbn [kmalloc_loop]. rewrite (bind_run _ _ _ _ _ (get_size_run _ _)), Esz.
    destruct (Z.leb_spec k p.2); [lia|]. unfold bind at 1, gets. by rewrite Hfp. }
  assert (Hend : p.1 = fb.1 <-> c = S (length fl)).
  { split.
    - intros E. pose proof (node_unique _ _ _ _ _ _ _ _ _ H Hp Hfb E) as Em.
      destruct (decide (c = S (length fl))) as [|Hne]; [done|]. exfalso.
      destruct (decide (f + c < S (length fl))%nat); [rewrite Nat.mod_small in Em; lia|].
      replace (f + c)%nat with (f + c - S (length fl) + 1 * S (length fl))%nat in Em by lia.
      rewrite Nat.Div0.mod_add, Nat.mod_small in Em; lia.
    - intros ->. replace (f + S (length fl))%nat with (f + 1 * S (length fl))%nat in Hp by lia.
      rewrite Nat.Div0.mod_add, Nat.mod_small in Hp by done. congruence. }
  split; intros Ec.
  - split.
    + assert (Forall (fun b => b.2 < k) ((base, 0) :: fl)) as Hall; [|by apply Forall_cons in Hall as [_ Hall]].
      apply (full_turn _ f); [done|]. cbn [length]. intros j b Hj Hb.
      destruct (decide (j = c)) as [->|]; [rewrite Hp in Hb; by injection Hb as <-|]. apply (Hseen j); [lia|done].
    + intros fuel. rewrite Hrun. destruct (Z.eqb_spec p.1 fb.1) as [|Hne]; [done|]. exfalso. by apply Hne, Hend.
  - exists nx. split.
    + exists fb. split_and!; [done|done|lia|lia| | |].
      * rewrite <- Hnx. f_equal. rewrite Nat.add_succ_r. rewrite <- (Nat.add_1_r (_ mod _)), Nat.Div0.add_mod_idemp_l. f_equal. lia.
      * replace (f + S c - 1)%nat with (f + c)%nat by lia. done.
      * intros j b Hj Hb. destruct (decide (j = c)) as [->|]; [rewrite Hp in Hb; by injection Hb as <-|]. apply (Hseen j); [lia|done].
    + intros fuel. rewrite Hrun. destruct (Z.eqb_spec p.1 fb.1) as [Heq|_]; [by apply Hend in Heq|].
      by rewrite (bind_run _ _ _ _ _ (get_ptr_run _ _)), Enx.
Qed.

Lemma freep_nonzero fl al pgs l s : heap fl al pgs l s -> freep s <> 0.
Proof using kend_ok base_ok.
  intros H. pose proof (hp_freep _ _ _ _ _ H) as Hf. apply list_elem_of_fmap in Hf as (b & -> & [->|Hb]%elem_of_cons).
  - pose proof base_ok. cbn. lia.
  - destruct (block_bounds _ _ _ _ _ b H) as (Hk & _); [set_solver|]. unfold KERNBASE in *. lia.
Qed.

(** Pages taken one after the other. *)
Lemma alloc_post_more k fl al pgs pg l s fl2 s2 r s' :
  Forall (fun b => b.2 < k) fl -> kept al (pg :: pgs) s s2 -> (exists b, b ∈ fl2 /\ PGSIZE / HDR <= b.2) ->
  alloc_post k fl2 al (pg :: pgs) l s2 r s' -> alloc_post k fl al pgs (pg :: l) s r s'.
Proof using.
  intros Hsm Hk2 (b2 & Hb2 & Hbk) (t & fl' & l' & El & Hk & Hr & Hfit & Hone).
  assert (Er : reverse (pg :: t) ++ pgs = reverse t ++ pg :: pgs) by (rewrite reverse_cons, <- app_assoc; done).
  exists (pg :: t), fl', l'. rewrite Er. split_and!; [by rewrite El| |done| |].
  - eapply kept_trans; [|exact Hk]. eapply kept_more; [|exact Hk2]. intros q Hq. apply elem_of_app. by right.
  - intros (b & Hb & Hkb). rewrite Forall_forall in Hsm. specialize (Hsm b Hb). cbn in Hsm. lia.
  - intros Hkp. destruct Hfit as [Hr0 ->]; [exists b2; split; [done|lia]|]. split; [cbn; lia|]. by intros ?.
Qed.

Lemma kmalloc_loop_run k al (Hk : 0 < k) l : forall fl pgs s, heap fl al pgs l s ->
  forall d f c prev p, (d + c = S (length fl))%nat -> at_place fl s k f c prev p ->
  exists F r s', (forall fuel, (F <= fuel)%nat -> kmalloc_loop fuel k prev.1 p.1 s = Ret r s') /\
    alloc_post k fl al pgs l s r s'.
Proof using kend_ok base_ok.
  induction l as [|pg l IHl]; intros fl pgs s H d; induction d as [|d IHd]; intros f c prev p Hd HP.
  all: destruct (decide (k <= p.2)) as [Hle|Hgt];
    [destruct (loop_found _ _ _ _ _ _ _ _ _ _ H HP (conj Hk Hle)) as (r & s' & E & Hpost); exists 1%nat, r, s'; by split|].
  all: destruct (loop_small _ _ _ _ _ _ _ _ _ _ H HP ltac:(lia)) as [Hturn Hstep].
  2, 4: destruct (Hstep ltac:(lia)) as (nx & HP' & E);
    destruct (IHd f (S c) p nx ltac:(lia) HP') as (F & r & s' & HF & Hpost);
    exists (S F), r, s'; split; [|done]; intros [|fuel] Hf; [lia|]; rewrite E; apply HF; lia.
  all: destruct (Hturn ltac:(lia)) as [Hsm E];
    pose proof (morecore_run _ _ _ _ _ H) as Hm; cbn beta iota in Hm.
  - exists 1%nat, 0, s. split.
    + intros [|fuel] Hf; [lia|]. rewrite E, (bind_run _ _ _ _ _ (Hm fuel)). done.
    + exists [], fl, []. split_and!; [done|done|by left| |intros _; split; [cbn; lia|done]].
      intros (b & Hb & Hkb). rewrite Forall_forall in Hsm. specialize (Hsm b Hb). cbn in Hsm. lia.
  - destruct Hm as (s2 & fl2 & Em & H2 & Hk2 & Hb2).
    destruct (search_start _ _ _ _ _ k H2) as (f2 & b2 & p2 & HP2 & Ef2 & En2).
    destruct (IHl fl2 (pg :: pgs) s2 H2 (length fl2) f2 1%nat b2 p2 ltac:(lia) HP2) as (F & r & s' & HF & Hpost).
    exists (S (F + S (length fl))), r, s'. split; [|by eapply alloc_post_more].
    intros [|fuel] Hf; [lia|]. rewrite E, (bind_run _ _ _ _ _ (Em fuel ltac:(lia))).
    destruct (Z.eqb_spec (freep s2) 0) as [Ez|_]; [by apply freep_nonzero in H2|].
    rewrite (bind_run _ _ _ _ _ (get_ptr_run _ _)), Ef2, En2. apply HF. lia.
Qed.

(** * Requests *)

(** The number of units for [nbytes], a header included. *)
Definition nunits (nbytes : Z) : Z := (nbytes + HDR - 1) / HDR + 1.

Lemma nunits_ok n : 0 <= n <= PGSIZE -> u64 (n + HDR - 1) / HDR + 1 = nunits n /\ 0 < nunits n /\ n <= HDR * (nunits n - 1) < n + HDR.
Proof using.
  intros Hn. unfold PGSIZE, nunits, HDR in *. rewrite u64_id by lia.
  pose proof (Z.div_mod (n + 16 - 1) 16 ltac:(lia)). pose proof (Z.mod_pos_bound (n + 16 - 1) 16 ltac:(lia)). split; [done|lia].
Qed.

(** The heap, or its state before the first request. *)
Definition kheap (fl al : list (Z * Z)) (pgs l : list Z) (s : hstate) : Prop :=
  heap fl al pgs l s \/ (freep s = 0 /\ fl = [] /\ al = [] /\ pgs = [] /\ inv kend l (pages_of s)).

Lemma first_request l s :
  inv kend l (pages_of s) ->
  let s1 := hput (base + 8) 0 (hput base base (set_freep base s)) in heap [] [] [] l s1 /\ kept [] [] s s1.
Proof using kend_ok base_ok.
  intros HI s1. pose proof base_ok as (Hb0 & Hbk & _). unfold HDR in Hbk.
  assert (Hw : forall x, x <> base -> x <> base + 8 -> word (hmem s1) x = word (hmem s) x).
  { intros x H1 H2. unfold s1. rewrite !word_hput, !decide_False by done. done. }
  split; [|split; [intros x [(b & Hb & _)|(H1 & H2 & _)]; [by apply elem_of_nil in Hb|by apply Hw]|done]].
  constructor.
  - unfold s1, hput, hmem. cbn. apply (inv_mem kend l (pages_of s) (<[base + 8 := 0]> (<[base := base]> (mem (pages_of s))))); [done|].
    intros p Hp. pose proof (inv_pages _ _ _ HI) as Hpg. rewrite Forall_forall in Hpg. destruct (Hpg p Hp) as [_ Hpk].
    rewrite !word_insert_ne by lia. done.
  - split_and!; [constructor|constructor|]. by intros p ?%elem_of_nil.
  - done.
  - constructor.
  - repeat constructor.
  - unfold s1. cbn [seg hd_addr fst snd]. rewrite !word_hput. rewrite decide_False by lia. by rewrite !decide_True.
  - by left.
  - constructor.
Qed.

Lemma kmalloc_run fl al pgs l s n :
  kheap fl al pgs l s -> 0 <= n <= PGSIZE ->
  exists F r s', (forall fuel, (F <= fuel)%nat -> kmalloc base fuel n s = Ret r s') /\ alloc_post (nunits n) fl al pgs l s r s'.
Proof using kend_ok base_ok.
  intros H Hn. destruct (nunits_ok n Hn) as (En & Hpos & _).
  set (s1 := if freep s =? 0 then hput (base + 8) 0 (hput base base (set_freep base s)) else s).
  assert (H1 : heap fl al pgs l s1 /\ kept al pgs s s1).
  { unfold s1. destruct H as [H|(Ef & -> & -> & -> & HI)].
    - destruct (Z.eqb_spec (freep s) 0) as [Ez|_]; [by apply freep_nonzero in H|]. by split.
    - rewrite Ef. by apply first_request. }
  destruct H1 as [H1 Hk1]. destruct (search_start _ _ _ _ _ (nunits n) H1) as (f & b & p & HP & Ef & Ep).
  destruct (kmalloc_loop_run (nunits n) al Hpos l fl pgs s1 H1 (length fl) f 1%nat b p ltac:(lia) HP) as (F & r & s' & HF & Hpost).
  exists F, r, s'. split.
  - intros fuel Hf. unfold kmalloc. destruct (Z.gtb_spec n PGSIZE); [lia|]. rewrite En.
    erewrite bind_run by reflexivity. cbv beta.
    assert (Hi : (if freep s =? 0 then modify (set_freep base) ;; put_ptr base base ;; put_size base 0 else ret tt) s = Ret tt s1).
    { unfold s1. by destruct (freep s =? 0). }
    rewrite (bind_run _ _ _ _ _ Hi). erewrite bind_run by reflexivity. rewrite (bind_run _ _ _ _ _ (get_ptr_run _ _)), Ef, Ep.
    by apply HF.
  - destruct Hpost as (t & fl' & l' & El & Hk & Hr). exists t, fl', l'. split; [done|]. split; [|exact Hr].
    eapply kept_trans; [|exact Hk]. eapply kept_more; [|exact Hk1]. intros q Hq. apply elem_of_app. by right.
Qed.

(** * Clients *)

(** A loop returns: with enough turns it gives this result. *)
Definition returns {A} (m : nat -> M hstate A) (s : hstate) (a : A) (s' : hstate) : Prop :=
  exists F, forall fuel, (F <= fuel)%nat -> m fuel s = Ret a s'.

Lemma returns_unique {A} (m : nat -> M hstate A) s a a' s1 s2 : returns m s a s1 -> returns m s a' s2 -> a = a' /\ s1 = s2.
Proof using.
  intros [F1 H1] [F2 H2]. pose proof (H1 (F1 + F2)%nat ltac:(lia)) as E1. rewrite (H2 (F1 + F2)%nat) in E1 by lia.
  by injection E1 as -> ->.
Qed.

(** One step of the system: a client asks for memory, gives a block back, or
    writes to a block it holds. *)
Inductive hstep : hstate * list (Z * Z) -> hstate * list (Z * Z) -> Prop :=
| h_alloc s al n q s' : 0 <= n <= PGSIZE -> returns (fun f => kmalloc base f n) s (q + HDR) s' -> q + HDR <> 0 ->
    hstep (s, al) (s', (q, nunits n) :: al)
| h_none s al n s' : 0 <= n <= PGSIZE -> returns (fun f => kmalloc base f n) s 0 s' -> hstep (s, al) (s', al)
| h_free s al1 b al2 s' : returns (fun f => kmfree f (b.1 + HDR)) s tt s' -> hstep (s, al1 ++ b :: al2) (s', al1 ++ al2)
| h_write s al b x v : b ∈ al -> b.1 + HDR <= x < b.1 + HDR * b.2 -> hstep (s, al) (hput x v s, al).

(** [l0]: the pages that were free at boot. *)
Definition sound (l0 : list Z) (c : hstate * list (Z * Z)) : Prop :=
  exists fl pgs l, kheap fl c.2 pgs l c.1 /\ pgs ++ l ≡ₚ l0.

Lemma heap_perm fl al al' pgs l s : heap fl al pgs l s -> al ≡ₚ al' -> heap fl al' pgs l s.
Proof using. intros [A B C D E F G I] HP. constructor; try done; by rewrite <- HP. Qed.

(** A client's write to its own block. *)
Lemma heap_write fl al pgs l s b x v :
  heap fl al pgs l s -> b ∈ al -> b.1 + HDR <= x < b.1 + HDR * b.2 -> heap fl al pgs l (hput x v s).
Proof using kend_ok base_ok.
  intros H Hb Hx. apply list_elem_of_split in Hb as (a1 & a2 & ->).
  assert (Hbb : b ∈ fl ++ a1 ++ b :: a2) by set_solver.
  assert (Hxb : b.1 <= x < b.1 + HDR * b.2) by (unfold HDR in *; lia).
  assert (Happ : forall c, c ∈ fl ++ a1 ++ a2 -> b.1 + HDR * b.2 <= c.1 \/ c.1 + HDR * c.2 <= b.1).
  { intros c Hc. apply (blocks_apart _ _ _ _ _ (fl ++ a1) b a2 c H); [by rewrite <- app_assoc|by rewrite <- app_assoc]. }
  assert (Hhdr : forall c, c ∈ fl ++ a1 ++ a2 -> x <> c.1 /\ x <> c.1 + 8).
  { intros c Hc. destruct (block_bounds _ _ _ _ _ c H) as (_ & _ & _ & Hc2); [set_solver|]. destruct (Happ c Hc); unfold HDR in *; lia. }
  destruct (block_inside _ _ _ _ _ b (fl ++ a1 ++ a2) [] x H) as [_ Hxl]; [solve_Permutation|by intros c ?%elem_of_nil|done|].
  destruct (block_bounds _ _ _ _ _ b H Hbb) as (Hbk & _). pose proof base_ok as (Hb0 & Hbs & _). unfold HDR in Hbs.
  pose proof H as [A B C D E F G I]. constructor; try done.
  - apply inv_mem; [done|]. intros p Hp. apply word_insert_ne. by intros ->.
  - eapply seg_frame; [|exact F]. intros c Hc. rewrite !word_hput. apply elem_of_cons in Hc as [->|Hc].
    + cbn. unfold HDR in *. rewrite !decide_False by lia. done.
    + destruct (Hhdr c) as [H1 H2]; [set_solver|]. by rewrite !decide_False.
  - rewrite Forall_forall in I |- *. intros c Hc. rewrite word_hput, <- (I c Hc). apply decide_False.
    assert (c = b \/ c ∈ fl ++ a1 ++ a2) as [->|Hc'] by set_solver; [unfold HDR in *; lia|]. by destruct (Hhdr c Hc').
Qed.

Lemma hstep_sound l0 c c' : sound l0 c -> hstep c c' -> sound l0 c'.
Proof using kend_ok base_ok.
  intros (fl & pgs & l & H & HP) Hs. destruct Hs as [s al n q s' Hn Hr Hq|s al n s' Hn Hr|s al1 b al2 s' Hr|s al b x v Hb Hx]; cbn [fst snd] in *.
  - destruct (kmalloc_run _ _ _ _ _ n H Hn) as (F & r & s2 & HF & t & fl' & l' & El & _ & Hres & _).
    destruct (returns_unique _ _ _ _ _ _ Hr (ex_intro _ F HF)) as [Er Es]. subst r s2.
    destruct Hres as [(Ez & _)|(q' & E & H')]; [done|]. assert (q' = q) as -> by lia. exists fl', (reverse t ++ pgs), l'. split; [by left|]. rewrite <- HP, El, reverse_Permutation. solve_Permutation.
  - destruct (kmalloc_run _ _ _ _ _ n H Hn) as (F & r & s2 & HF & t & fl' & l' & El & _ & Hres & _).
    destruct (returns_unique _ _ _ _ _ _ Hr (ex_intro _ F HF)) as [Er Es]. subst r s2.
    destruct Hres as [(_ & -> & H' & _)|(q' & E & H')]; [|by apply block_nonzero in H'].
    exists fl', (reverse t ++ pgs), []. split; [by left|]. rewrite <- HP, El, reverse_Permutation. solve_Permutation.
  - destruct H as [H|(_ & _ & H & _)]; [|by destruct al1].
    destruct b as [bp n]. destruct (kmfree_run fl (al1 ++ al2) pgs l s bp n) as (s2 & fl' & HF & H' & _).
    { eapply heap_perm; [exact H|]. solve_Permutation. }
    destruct (returns_unique _ _ _ _ _ _ Hr (ex_intro _ _ HF)) as [_ Es]. subst s2. exists fl', pgs, l. split; [by left|done].
  - destruct H as [H|(_ & _ & -> & _)]; [|by apply elem_of_nil in Hb]. exists fl, pgs, l. split; [|done]. left. by eapply heap_write.
Qed.

Lemma hsteps_sound l0 c c' : rtc hstep c c' -> sound l0 c -> sound l0 c'.
Proof using kend_ok base_ok. induction 1 as [|c c1 c' Hs _ IH]; [done|]. intros HI. apply IH. by eapply hstep_sound. Qed.

(** When no client holds a block, every page of the heap is in one free block:
    what was split has been joined again. *)
Lemma whole_page_free fl pgs l s p :
  heap fl [] pgs l s -> p ∈ pgs -> exists b, b ∈ fl /\ PGSIZE / HDR <= b.2.
Proof using kend_ok base_ok.
  intros H Hp. assert (Hu : forall i, 0 <= i < 256 -> exists b j, b ∈ fl /\ 0 <= j < b.2 /\ p + HDR * i = b.1 + HDR * j).
  { intros i Hi. assert (Hin : p + HDR * i ∈ units fl).
    { pose proof (hp_units _ _ _ _ _ H) as HU. rewrite app_nil_r in HU. rewrite HU. apply elem_units. exists (p, PGSIZE / HDR).
      split; [apply list_elem_of_fmap; by exists p|]. apply elem_units1. by exists i. }
    apply elem_units in Hin as (b & Hb & (j & Hj & E)%elem_units1). by exists b, j. }
  destruct (Hu 0 ltac:(lia)) as (b & j & Hb & Hj & E0). exists b. split; [done|].
  assert (Hall : forall n, Z.of_nat n < 256 -> j + Z.of_nat n < b.2).
  { induction n as [|n IH]; intros Hn; [lia|]. specialize (IH ltac:(lia)).
    destruct (decide (j + Z.of_nat (S n) < b.2)) as [|Hge]; [done|]. exfalso.
    destruct (Hu (Z.of_nat (S n)) ltac:(lia)) as (c & i & Hc & Hi & Ec).
    apply list_elem_of_lookup_1 in Hb as [x Hx]. apply list_elem_of_lookup_1 in Hc as [y Hy].
    pose proof (hp_sorted _ _ _ _ _ H) as Hs. apply StronglySorted_inv in Hs as [Hs _]. unfold HDR in *.
    destruct (Nat.lt_trichotomy x y) as [Hl|[->|Hl]].
    - pose proof (sorted_lookup _ _ _ _ _ Hs Hx Hy Hl) as Hg. unfold gap, HDR in Hg. lia.
    - rewrite Hx in Hy. injection Hy as <-. lia.
    - pose proof (sorted_lookup _ _ _ _ _ Hs Hy Hx Hl) as Hg. unfold gap, HDR in Hg. lia. }
  change (PGSIZE / HDR) with 256. specialize (Hall 255%nat ltac:(lia)). lia.
Qed.

End Heap.

(** * The properties of the allocator *)

(** C23: objects never overlap.  In every state that clients reach from boot by
    asking for memory, giving blocks back and writing to the blocks they
    hold, the held blocks are apart and each can be given back; a request for
    up to a page returns (the loop ends), leaves the contents of all held blocks alone,
    and gives either 0, only when the page allocator is empty, or an aligned
    area of the size asked for that is apart from every held block.  A request
    for up to 4080 bytes fails only when there was no free page to begin with. *)
Theorem kmalloc_exclusive kend base l0 s0 (Hk : KERNBASE < kend < KERNBASE + PHYSTOP)
  (Hb : 0 < base /\ base + HDR <= kend /\ base mod HDR = 0) (HI : inv kend l0 (pages_of s0)) (Hf : freep s0 = 0)
  s al n (Hs : rtc (hstep base) (s0, []) (s, al)) (Hn : 0 <= n <= PGSIZE) :
  (forall a1 b a2 c, al = a1 ++ b :: a2 -> c ∈ a1 ++ a2 -> b.1 + HDR * b.2 <= c.1 \/ c.1 + HDR * c.2 <= b.1) /\
  (forall b, b ∈ al -> exists s', returns (fun f => kmfree f (b.1 + HDR)) s tt s') /\
  exists r s', returns (fun f => kmalloc base f n) s r s' /\
    (forall b x, b ∈ al -> b.1 <= x < b.1 + HDR * b.2 -> word (hmem s') x = word (hmem s) x) /\
    (r = 0 -> fpages (pages_of s') = 0 /\ (n <= PGSIZE - HDR -> fpages (pages_of s) = 0)) /\
    (r <> 0 -> r mod HDR = 0 /\ kend <= r /\ r + n <= KERNBASE + PHYSTOP /\
       forall b, b ∈ al -> r + n <= b.1 \/ b.1 + HDR * b.2 <= r - HDR).
Proof.
  destruct (hsteps_sound kend base Hk Hb l0 _ _ Hs) as (fl & pgs & l & H & _).
  { exists [], [], l0. split; [right; by split_and!|done]. }
  cbn [fst snd] in H. split; [|split].
  - intros a1 b a2 c -> Hc. destruct H as [H|(_ & _ & H & _)]; [|by destruct a1].
    apply (blocks_apart kend base Hk _ _ _ _ _ (fl ++ a1) b a2 c H); [by rewrite <- app_assoc|set_solver].
  - intros b (a1 & a2 & ->)%list_elem_of_split. destruct H as [H|(_ & _ & H & _)]; [|by destruct a1]. destruct b as [bp k].
    destruct (kmfree_run kend base Hk Hb fl (a1 ++ a2) pgs l s bp k) as (s' & fl' & HF & _).
    { eapply heap_perm; [exact H|]. solve_Permutation. }
    exists s'. eexists. exact HF.
  - destruct (kmalloc_run kend base Hk Hb _ _ _ _ _ n H Hn) as (F & r & s' & HF & t & fl' & l' & El & Hkept & Hr & _ & Hone).
    destruct (nunits_ok n Hn) as (_ & _ & Hbytes). unfold HDR in Hbytes.
    exists r, s'. split; [by exists F|]. split; [intros b x Hb' Hx; apply (kp_mem _ _ _ _ _ _ Hkept); left; by exists b|]. split.
    + intros ->. destruct Hr as [(_ & -> & H' & _)|(q & Eq & H')]; [|by apply (block_nonzero kend base Hk Hb) in H'].
      split; [exact (inv_count _ _ _ (hp_pages _ _ _ _ _ _ _ H'))|]. intros Hsmall.
      destruct Hone as [_ Ht]; [unfold HDR, PGSIZE in *; change (4096 / 16) with 256; lia|].
      rewrite (Ht eq_refl) in El. cbn in El. subst l.
      destruct H as [H|(_ & _ & _ & _ & H)]; [exact (inv_count _ _ _ (hp_pages _ _ _ _ _ _ _ H))|exact (inv_count _ _ _ H)].
    + intros Hr0. destruct Hr as [(-> & _)|(q & -> & H')]; [done|].
      destruct (block_bounds kend base Hk _ _ _ _ _ (q, nunits n) H') as (Hq1 & Hq2 & Hq3 & _); [set_solver|]. cbn [fst snd] in *.
      unfold HDR in *. split_and!; [|lia|lia|].
      * rewrite Zplus_mod, Hq3. reflexivity.
      * intros b Hb'. destruct (blocks_apart kend base Hk _ _ _ _ _ fl' (q, nunits n) al b H') as [Ha|Ha]; [done|set_solver| |]; cbn [fst snd] in Ha; unfold HDR in Ha; lia.
Qed.

(** C25: memory comes back.  When the clients have given back all their blocks, the
    parts of every page are one block again: a request for up to 4080 bytes is
    met without another page, if the allocator has ever taken one. *)
Theorem kmfree_coalesces kend base l0 s0 (Hk : KERNBASE < kend < KERNBASE + PHYSTOP)
  (Hb : 0 < base /\ base + HDR <= kend /\ base mod HDR = 0) (HI : inv kend l0 (pages_of s0)) (Hf : freep s0 = 0)
  s n (Hs : rtc (hstep base) (s0, []) (s, [])) (Hn : 0 <= n <= PGSIZE - HDR) (Htaken : fpages (pages_of s) < fpages (pages_of s0)) :
  exists r s', returns (fun f => kmalloc base f n) s r s' /\ r <> 0 /\ fpages (pages_of s') = fpages (pages_of s).
Proof.
  destruct (hsteps_sound kend base Hk Hb l0 _ _ Hs) as (fl & pgs & l & H & HP).
  { exists [], [], l0. split; [right; by split_and!|done]. }
  cbn [fst snd] in H. apply Permutation_length in HP. rewrite length_app in HP.
  rewrite (inv_count _ _ _ HI) in Htaken. destruct pgs as [|p pgs].
  { exfalso. assert (inv kend l (pages_of s)) as HIl by (destruct H as [H|(_ & _ & _ & _ & H)]; [apply H|done]).
    rewrite (inv_count _ _ _ HIl) in Htaken. cbn in HP. lia. }
  assert (Hle : 0 <= n <= PGSIZE) by (unfold HDR in Hn; lia).
  destruct (kmalloc_run kend base Hk Hb _ _ _ _ _ n H Hle) as (F & r & s' & HF & t & fl' & l' & El & Hkept & Hr & Hfit & _).
  destruct H as [H|(_ & _ & _ & H & _)]; [|done].
  destruct (whole_page_free kend base Hk Hb fl (p :: pgs) l s p H) as (b & Hbf & Hbk); [by left|].
  destruct Hfit as [Hr0 ->].
  { exists b. split; [done|]. destruct (nunits_ok n Hle) as (_ & _ & Hu). change (PGSIZE / HDR) with 256 in Hbk. unfold HDR, PGSIZE in *. lia. }
  exists r, s'. split; [by exists F|]. split; [done|]. cbn in El. subst l'.
  destruct Hr as [(? & _)|(q & _ & H')]; [done|].
  rewrite (inv_count _ _ _ (hp_pages _ _ _ _ _ _ _ H)). exact (inv_count _ _ _ (hp_pages _ _ _ _ _ _ _ H')).
Qed.

(** A machine with one free page. *)
Definition demo_page : Z := KERNBASE + PHYSTOP - PGSIZE.
Definition demo_kend : Z := demo_page - 100.
Definition demo_base : Z := demo_page - 4096.
Definition demo_heap : hstate := mkH (mkK ∅ demo_page 1 false ∅ false 0) 0.

Lemma demo_inv : inv demo_kend [demo_page] (pages_of demo_heap).
Proof.
  constructor.
  - by split.
  - constructor; [|constructor]. unfold page, demo_kend, demo_page, KERNBASE, PHYSTOP, PGSIZE. split; [reflexivity|lia].
  - repeat constructor; by intros ?%elem_of_nil.
  - by split.
  - done.
  - by repeat constructor.
Qed.

Lemma demo_bounds : KERNBASE < demo_kend < KERNBASE + PHYSTOP /\ (0 < demo_base /\ demo_base + HDR <= demo_kend /\ demo_base mod HDR = 0).
Proof. unfold demo_base, demo_kend, demo_page, KERNBASE, PHYSTOP, PGSIZE, HDR. split_and!; (lia || reflexivity). Qed.

Lemma kmalloc_exclusive_witness :
  exists r s', returns (fun f => kmalloc demo_base f 100) demo_heap r s' /\ r <> 0 /\ r mod 16 = 0.
Proof.
  destruct (kmalloc_exclusive demo_kend demo_base [demo_page] demo_heap (proj1 demo_bounds) (proj2 demo_bounds) demo_inv eq_refl
              demo_heap [] 100 (rtc_refl _ _) ltac:(unfold PGSIZE; lia)) as (_ & _ & r & s' & Hr & _ & H0 & H1).
  assert (Hne : r <> 0) by (intros E; destruct (H0 E) as [_ Hz]; specialize (Hz ltac:(unfold PGSIZE, HDR; lia)); discriminate Hz).
  exists r, s'. split; [exact Hr|]. split; [exact Hne|]. exact (proj1 (H1 Hne)).
Defined.

(** A client takes a block and gives it back; the page stays with the heap. *)
Lemma demo_trace : exists s, rtc (hstep demo_base) (demo_heap, []) (s, []) /\ fpages (pages_of s) = 0.
Proof.
  destruct demo_bounds as [Hk Hb]. assert (Hn : 0 <= 100 <= PGSIZE) by (unfold PGSIZE; lia).
  assert (H0 : kheap demo_kend demo_base [] [] [] [demo_page] demo_heap) by (right; split_and!; [done..|exact demo_inv]).
  destruct (kmalloc_run demo_kend demo_base Hk Hb _ _ _ _ _ 100 H0 Hn) as (F & r & s1 & HF & t & fl & l & El & _ & Hr & _ & Hone).
  destruct Hr as [(-> & -> & _ & _)|(q & -> & H1)].
  { exfalso. destruct Hone as [_ Ht]; [vm_compute; discriminate|]. rewrite (Ht eq_refl) in El. discriminate El. }
  destruct (kmfree_run demo_kend demo_base Hk Hb _ _ _ _ _ _ _ H1) as (s2 & fl2 & HF2 & H2 & _ & _).
  exists s2. split.
  - apply (rtc_l _ _ (s1, [(q, nunits 100)])).
    + apply (h_alloc _ _ _ 100); [done|by exists F|]. by apply (block_nonzero demo_kend demo_base Hk Hb) in H1.
    + apply rtc_once, (h_free _ _ [] (q, nunits 100) []). by eexists.
  - destruct t as [|p t].
    + exfalso. destruct (block_in_pages _ _ (q, nunits 100) q (hp_units _ _ _ _ _ _ _ H1)) as (p & Hp & _);
        [set_solver|cbn [fst snd]; change (HDR * nunits 100) with 128; lia|by apply elem_of_nil in Hp].
    + injection El as <- El. symmetry in El. apply app_eq_nil in El as [-> ->].
      exact (inv_count _ _ _ (hp_pages _ _ _ _ _ _ _ H2)).
Qed.

Lemma kmfree_coalesces_witness :
  exists s r s', rtc (hstep demo_base) (demo_heap, []) (s, []) /\
    returns (fun f => kmalloc demo_base f 4080) s r s' /\ r <> 0 /\ fpages (pages_of s') = 0.
Proof.
  destruct demo_trace as (s & Hs & Hz).
  destruct (kmfree_coalesces demo_kend demo_base [demo_page] demo_heap (proj1 demo_bounds) (proj2 demo_bounds) demo_inv eq_refl
              s 4080 Hs ltac:(unfold PGSIZE, HDR; lia) ltac:(rewrite Hz; reflexivity)) as (r & s' & H1 & H2 & H3).
  exists s, r, s'. split; [exact Hs|]. split; [exact H1|]. split; [exact H2|]. rewrite H3. exact Hz.
Defined.

(** A request for 4081 to 4096 bytes passes the check against PGSIZE but needs
    one unit more than a page has, so only adjacent pages can meet it. *)
Lemma large_request n : PGSIZE - HDR < n <= PGSIZE -> nunits n = PGSIZE / HDR + 1.
Proof.
  unfold PGSIZE, HDR, nunits. intros Hn. change (4096 / 16) with 256. f_equal. unfold HDR.
  symmetry. apply (Z.div_unique _ _ _ (n + 16 - 1 - 16 * 256)); lia.
Qed.

End Kmalloc.
