(* ===== verification/Bio.v ===== *)
(** The buffer cache (kern/bio.c), the disk queue below it ([dev_start] and
    [devrw] of kern/dev.c) and the addressing of the SD card ([emmc_seek],
    [emmc_read], [emmc_write] of kern/emmc.c).

    [bufs] is the array [bcache.buf]; [order] is the list of buffers from
    [bcache.head] on, acted on as the theorems of [Lists] say.  The card is a
    map from sector numbers to 512-byte sectors; [emmc_do_read] and
    [emmc_do_write] transfer consecutive sectors, in order.  [writes] is a
    history variable: the sectors written so far, for the crash theorem of
    [Log].  The partition table [sb[dev].lba], [sb[dev].nsecs] is the argument
    [sb].  A process that has to [sleep] ends its execution with [Block]; it
    starts again from the label [loop] when it is woken.

    [Geometry] says the partitions do not overlap and end below the 2^32-byte
    limit of the 32-bit product [bno * SD_BLOCK_SIZE].  [wf] is the invariant
    of the cache between operations; [cur] is what the file system sees of a
    block, [disk_block] what is on the card.  [bread_spec], [bwrite_spec],
    [brelse_spec] and [set_data_spec] are the contract [Log] is proved
    against. *)

From stdpp Require Import base list gmap.
From Stdlib Require Import ZArith Lia Bool.
From S2P Require Import Prelude.

Module Bio.

Definition MAXOPBLOCKS : Z := 42.
Definition NBUF : nat := 126.   (* MAXOPBLOCKS*3 *)
Definition B_BUSY : Z := 0x1.
Definition B_VALID : Z := 0x2.
Definition B_DIRTY : Z := 0x4.

Definition BSIZE : nat := 4096.
Definition SD_BLOCK_SIZE : Z := 512.

Notation bytes := (list Z).

Record buf : Type := mkBuf { flags : Z; dev : Z; blockno : Z; bdata : bytes }.

Record bstate : Type := mkB {
  bufs : list buf;
  order : list nat;
  bcache_lock : bool;
  devque : list nat;
  cardlock : bool;
  disk : gmap Z bytes;
  writes : list (Z * bytes);
  woken : list nat
}.

Definition set_bufs (l : list buf) (s : bstate) : bstate :=
  mkB l (order s) (bcache_lock s) (devque s) (cardlock s) (disk s) (writes s) (woken s).
Definition set_order (l : list nat) (s : bstate) : bstate :=
  mkB (bufs s) l (bcache_lock s) (devque s) (cardlock s) (disk s) (writes s) (woken s).
Definition set_block_lock (b : bool) (s : bstate) : bstate :=
  mkB (bufs s) (order s) b (devque s) (cardlock s) (disk s) (writes s) (woken s).
Definition set_devque (l : list nat) (s : bstate) : bstate :=
  mkB (bufs s) (order s) (bcache_lock s) l (cardlock s) (disk s) (writes s) (woken s).
Definition set_cardlock (b : bool) (s : bstate) : bstate :=
  mkB (bufs s) (order s) (bcache_lock s) (devque s) b (disk s) (writes s) (woken s).
Definition set_disk (d : gmap Z bytes) (w : list (Z * bytes)) (s : bstate) : bstate :=
  mkB (bufs s) (order s) (bcache_lock s) (devque s) (cardlock s) d w (woken s).

Definition acquire_bcache : M bstate unit :=
  fun s => if bcache_lock s then Block s else Ret tt (set_block_lock true s).
Definition release_bcache : M bstate unit :=
  fun s => if bcache_lock s then Ret tt (set_block_lock false s) else Panic s.
Definition acquire_card : M bstate unit :=
  fun s => if cardlock s then Block s else Ret tt (set_cardlock true s).
Definition release_card : M bstate unit :=
  fun s => if cardlock s then Ret tt (set_cardlock false s) else Panic s.
Definition wakeup (b : nat) : M bstate unit :=
  modify (fun s => mkB (bufs s) (order s) (bcache_lock s) (devque s) (cardlock s) (disk s) (writes s) (woken s ++ [b])).

(** A pointer to a buffer is its index; the code never makes another. *)
Definition get_buf (b : nat) : M bstate buf :=
  fun s => match bufs s !! b with Some x => Ret x s | None => Panic s end.
Definition upd_buf (b : nat) (f : buf -> buf) : M bstate unit :=
  modify (fun s => set_bufs (alter f b (bufs s)) s).

Definition set_flags (f : Z) (x : buf) : buf := mkBuf f (dev x) (blockno x) (bdata x).
Definition set_data (d : bytes) (x : buf) : buf := mkBuf (flags x) (dev x) (blockno x) d.

Definition has (x : buf) (f : Z) : bool := truthy (Z.land (flags x) f).

Definition binit : M bstate unit :=
  modify (set_block_lock false) ;;
  modify (set_order []) ;;
  for_each (seq 0 NBUF) (fun b => modify (fun s => set_order (order s ++ [b]) s)).

(** The first loop of [bget] over the nodes [l]: the buffer found. *)
Fixpoint find_cached (l : list nat) (bs : list buf) (d n : Z) : option nat :=
  match l with
  | [] => None
  | b :: l' =>
      match bs !! b with
      | Some x => if (dev x =? d) && (blockno x =? n) then Some b else find_cached l' bs d n
      | None => find_cached l' bs d n
      end
  end.

(** The second loop: the first buffer neither busy nor dirty. *)
Fixpoint find_unused (l : list nat) (bs : list buf) : option nat :=
  match l with
  | [] => None
  | b :: l' =>
      match bs !! b with
      | Some x => if negb (has x B_BUSY) && negb (has x B_DIRTY) then Some b else find_unused l' bs
      | None => find_unused l' bs
      end
  end.

Definition bget (d n : Z) : M bstate nat :=
  acquire_bcache ;;
  let* hit := gets (fun s => find_cached (order s) (bufs s) d n) in
  match hit with
  | Some b =>
      let* x := get_buf b in
      if negb (has x B_BUSY) then
        upd_buf b (fun x => set_flags (Z.lor (flags x) B_BUSY) x) ;;
        release_bcache ;;
        ret b
      else
        release_bcache ;;  (* sleep(b, &bcache.lock) *)
        block
  | None =>
      let* free := gets (fun s => find_unused (reverse (order s)) (bufs s)) in
      match free with
      | Some b =>
          upd_buf b (fun x => mkBuf B_BUSY d n (bdata x)) ;;
          release_bcache ;;
          ret b
      | None => panic
      end
  end.

(** * The SD card *)

Definition zero_sector : bytes := replicate 512 0.

Definition read_sector (c : gmap Z bytes) (n : Z) : bytes := default zero_sector (c !! n).

(** A block of [BSIZE] bytes is 8 sectors. *)
Definition read_block (c : gmap Z bytes) (n : Z) : bytes :=
  mjoin ((fun i => read_sector c (n + i)) <$> seqZ 0 8).

Definition sector_writes (n : Z) (d : bytes) : list (Z * bytes) :=
  (fun i => (n + i, take 512 (drop (512 * Z.to_nat i) d))) <$> seqZ 0 8.

Definition apply_write (c : gmap Z bytes) (w : Z * bytes) : gmap Z bytes := <[w.1 := w.2]> c.

Definition apply_writes (c : gmap Z bytes) (ws : list (Z * bytes)) : gmap Z bytes :=
  fold_left apply_write ws c.

Section Disk.
(** [sb[dev].lba] and [sb[dev].nsecs]. *)
Context (sb : Z -> Z * Z).

(** The sector [emmc_read] and [emmc_write] start at: [emmc_seek] is given
    the product [bno * SD_BLOCK_SIZE] of a [uint32_t] and an [int]. *)
Definition sector (d n : Z) : Z :=
  let bno := if n =? 2 ^ 32 - 1 then 0 else u32 (u32 (n * 8) + (sb d).1) in
  let ull_offset := u32 (bno * SD_BLOCK_SIZE) in
  u32 (ull_offset / SD_BLOCK_SIZE).

Definition dev_start_one (b : nat) : M bstate unit :=
  let* x := get_buf b in
  (if blockno x =? 2 ^ 32 - 1 then ret tt else assert (blockno x <? (sb (dev x)).2)) ;;
  let bno := sector (dev x) (blockno x) in
  (if has x B_DIRTY then
     modify (fun s => let ws := sector_writes bno (bdata x) in
                      set_disk (apply_writes (disk s) ws) (writes s ++ ws) s)
   else
     let* d := gets (fun s => read_block (disk s) bno) in
     upd_buf b (set_data d)) ;;
  upd_buf b (fun x => set_flags (Z.lor (flags x) B_VALID) x) ;;
  upd_buf b (fun x => set_flags (Z.land (flags x) (not_w 32 B_DIRTY)) x) ;;
  modify (fun s => set_devque (tail (devque s)) s) ;;
  wakeup b.

(** Each round takes one request off the queue, and no request is added
    while [cardlock] is held: the queue's length bounds the loop. *)
Fixpoint dev_start (fuel : nat) : M bstate unit :=
  let* q := gets devque in
  match q with
  | [] => ret tt
  | b :: _ =>
      match fuel with
      | O => nofuel
      | S fuel' => dev_start_one b ;; dev_start fuel'
      end
  end.

Definition devrw (b : nat) : M bstate unit :=
  acquire_card ;;
  modify (fun s => set_devque (devque s ++ [b]) s) ;;
  let* q := gets devque in
  when (bool_decide (head q = Some b)) (dev_start (length q)) ;;
  let* x := get_buf b in
  if negb (Z.land (flags x) (Z.lor B_VALID B_DIRTY) =? B_VALID) then
    release_card ;; block  (* dev_sleep(b) *)
  else release_card.

Definition bread (d n : Z) : M bstate nat :=
  let* b := bget d n in
  let* x := get_buf b in
  when (negb (has x B_VALID)) (devrw b) ;;
  ret b.

Definition bwrite (b : nat) : M bstate unit :=
  let* x := get_buf b in
  if negb (has x B_BUSY) then panic else
  upd_buf b (fun x => set_flags (Z.lor (flags x) B_DIRTY) x) ;;
  devrw b.
End Disk.

Definition brelse (b : nat) : M bstate unit :=
  let* x := get_buf b in
  if negb (has x B_BUSY) then panic else
  acquire_bcache ;;
  modify (fun s => set_order (filter (.≠ b) (order s) ++ [b]) s) ;;
  upd_buf b (fun x => set_flags (Z.land (flags x) (not_w 32 B_BUSY)) x) ;;
  wakeup b ;;
  release_bcache.

(** * Flags *)

Lemma enum8 (P : Z -> Prop) f :
  P 0 -> P 1 -> P 2 -> P 3 -> P 4 -> P 5 -> P 6 -> P 7 -> 0 <= f < 8 -> P f.
Proof.
  intros. assert (f = 0 \/ f = 1 \/ f = 2 \/ f = 3 \/ f = 4 \/ f = 5 \/ f = 6 \/ f = 7)
    as H' by lia. by destruct_or! H'; subst.
Qed.

Record flag_view (f : Z) (busy valid dirty : bool) : Prop := {
  fv_range : 0 <= f < 8;
  fv_busy : truthy (Z.land f B_BUSY) = busy;
  fv_valid : truthy (Z.land f B_VALID) = valid;
  fv_dirty : truthy (Z.land f B_DIRTY) = dirty }.

Lemma flag_view_of f : 0 <= f < 8 -> exists u v w, flag_view f u v w.
Proof. intros. do 3 eexists. by split. Qed.

Lemma flag_view_eq f u v w : flag_view f u v w -> f = b2z u + 2 * b2z v + 4 * b2z w.
Proof.
  intros [Hr <- <- <-]. revert Hr. apply (enum8 (fun f => f = b2z (truthy (Z.land f B_BUSY)) + 2 * b2z (truthy (Z.land f B_VALID)) + 4 * b2z (truthy (Z.land f B_DIRTY)))); reflexivity.
Qed.

Lemma lor_busy_view f u v w : flag_view f u v w -> flag_view (Z.lor f B_BUSY) true v w.
Proof. intros H. rewrite (flag_view_eq _ _ _ _ H). by destruct u, v, w. Qed.

Lemma lor_valid_view f u v w : flag_view f u v w -> flag_view (Z.lor f B_VALID) u true w.
Proof. intros H. rewrite (flag_view_eq _ _ _ _ H). by destruct u, v, w. Qed.

Lemma lor_dirty_view f u v w : flag_view f u v w -> flag_view (Z.lor f B_DIRTY) u v true.
Proof. intros H. rewrite (flag_view_eq _ _ _ _ H). by destruct u, v, w. Qed.

Lemma clear_busy_view f u v w : flag_view f u v w -> flag_view (Z.land f (not_w 32 B_BUSY)) false v w.
Proof. intros H. rewrite (flag_view_eq _ _ _ _ H). by destruct u, v, w. Qed.

Lemma clear_dirty_view f u v w : flag_view f u v w -> flag_view (Z.land f (not_w 32 B_DIRTY)) u v false.
Proof. intros H. rewrite (flag_view_eq _ _ _ _ H). by destruct u, v, w. Qed.

Lemma busy_view : flag_view B_BUSY true false false.
Proof. by split. Qed.

(** * The card *)

Definition card_ok (c : gmap Z bytes) : Prop := map_Forall (fun _ x => length x = 512%nat) c.

Lemma length_read_sector c n : card_ok c -> length (read_sector c n) = 512%nat.
Proof.
  intros H. unfold read_sector. destruct (c !! n) eqn:E; [by eapply H|done].
Qed.

Lemma length_read_block c n : card_ok c -> length (read_block c n) = BSIZE.
Proof. intros H. unfold read_block.
  change (seqZ 0 8) with [0; 1; 2; 3; 4; 5; 6; 7]. cbn.
  rewrite !length_app, !length_read_sector by done. done. Qed.

Lemma read_sector_insert c n x m :
  read_sector (<[n := x]> c) m = if decide (n = m) then x else read_sector c m.
Proof.
  unfold read_sector. case_decide; subst; [by rewrite lookup_insert_eq|by rewrite lookup_insert_ne].
Qed.

Lemma apply_writes_app c ws ws' : apply_writes c (ws ++ ws') = apply_writes (apply_writes c ws) ws'.
Proof. apply fold_left_app. Qed.

Lemma apply_writes_frame c ws m :
  (forall w, w ∈ ws -> w.1 <> m) -> read_sector (apply_writes c ws) m = read_sector c m.
Proof.
  revert c. induction ws as [|w ws IH]; intros c H; [done|].
  change (apply_writes c (w :: ws)) with (apply_writes (apply_write c w) ws). rewrite IH by set_solver.
  unfold apply_write. rewrite read_sector_insert. rewrite decide_False; [done|]. apply H. left.
Qed.

Lemma apply_writes_ok c ws :
  card_ok c -> Forall (fun w : Z * bytes => length w.2 = 512%nat) ws -> card_ok (apply_writes c ws).
Proof.
  intros H Hw. revert c H. induction Hw as [|w ws Hw _ IH]; intros c H; [done|].
  apply (IH (apply_write c w)). by apply map_Forall_insert_2.
Qed.

Lemma sector_writes_ok n d : length d = BSIZE -> Forall (fun w : Z * bytes => length w.2 = 512%nat) (sector_writes n d).
Proof.
  intros H. apply Forall_fmap, Forall_forall. intros i Hi%elem_of_seqZ. unfold compose. cbn [snd].
  rewrite length_take, length_drop, H. unfold BSIZE. lia.
Qed.

Lemma elem_of_sector_writes w n d : w ∈ sector_writes n d -> n <= w.1 < n + 8.
Proof. intros (i & -> & Hi%elem_of_seqZ)%list_elem_of_fmap. cbn. lia. Qed.

Lemma read_block_ext c c' n :
  (forall i, 0 <= i < 8 -> read_sector c (n + i) = read_sector c' (n + i)) -> read_block c n = read_block c' n.
Proof. intros H. unfold read_block. f_equal. apply list_fmap_ext. intros i x Hx%list_elem_of_lookup_2%elem_of_seqZ. apply H. lia. Qed.

Lemma read_block_frame c ws n :
  (forall w, w ∈ ws -> ~ (n <= w.1 < n + 8)) -> read_block (apply_writes c ws) n = read_block c n.
Proof. intros H. apply read_block_ext. intros i Hi. apply apply_writes_frame. intros w Hw E. apply (H w Hw). lia. Qed.

Lemma read_sector_written c n d i :
  0 <= i < 8 ->
  read_sector (apply_writes c (sector_writes n d)) (n + i) = take 512 (drop (512 * Z.to_nat i) d).
Proof.
  intros Hi. unfold sector_writes.
  change (seqZ 0 8) with [0; 1; 2; 3; 4; 5; 6; 7]. cbn -[take drop Z.to_nat].
  pattern i. apply enum8; [..|exact Hi];
    unfold apply_write; rewrite !read_sector_insert; cbn -[take drop Z.to_nat];
    repeat first [rewrite decide_True by lia|rewrite decide_False by lia]; done.
Qed.

Lemma join_chunks (d : bytes) k :
  mjoin ((fun i => take 512 (drop (512 * i) d)) <$> seq 0 k) = take (512 * k) d.
Proof.
  induction k as [|k IH]; [done|].
  rewrite seq_S, fmap_app, join_app, IH. cbn [fmap list_fmap mjoin list_join plus]. rewrite app_nil_r.
  replace (512 * S k)%nat with (512 * k + 512)%nat by lia. by rewrite take_take_drop.
Qed.

Lemma read_write_block c n d : length d = BSIZE -> read_block (apply_writes c (sector_writes n d)) n = d.
Proof.
  intros H. unfold read_block.
  transitivity (mjoin ((fun i => take 512 (drop (512 * i) d)) <$> seq 0 8)).
  - f_equal. change (seqZ 0 8) with (Z.of_nat <$> seq 0 8). rewrite <- list_fmap_compose.
    apply list_fmap_ext. intros i x Hx%list_elem_of_lookup_2%elem_of_seq. unfold compose.
    rewrite read_sector_written by lia. by rewrite Nat2Z.id.
  - rewrite join_chunks. apply take_ge. rewrite H. unfold BSIZE. lia.
Qed.

(** * The invariant and the view of the cache *)

(** The partitions in use: [extent d] blocks of device [d], on the card from
    sector [lba] on.  Device 0 is the FAT partition, never read through the
    cache. *)
Class Geometry (sb : Z -> Z * Z) : Type := {
  extent : Z -> Z;
  geo_fat : extent 0 <= 0;
  geo_lba d : 0 <= (sb d).1;
  geo_end d : 0 < extent d -> (sb d).1 + 8 * extent d <= 2 ^ 23;
  geo_nsecs d : extent d <= (sb d).2;
  geo_disjoint d d' : d <> d' -> 0 < extent d -> 0 < extent d' ->
    (sb d).1 + 8 * extent d <= (sb d').1 \/ (sb d').1 + 8 * extent d' <= (sb d).1 }.

Section Cache.
Context (sb : Z -> Z * Z) {geo : Geometry sb}.

Definition valid_block (d n : Z) : Prop := 0 <= n < extent d.

Lemma valid_block_dev d n : valid_block d n -> d <> 0.
Proof. intros H ->. pose proof geo_fat. unfold valid_block in H. lia. Qed.

Lemma sector_eq d n : valid_block d n -> sector sb d n = n * 8 + (sb d).1.
Proof.
  intros H. unfold valid_block in H. pose proof (geo_lba d). assert ((sb d).1 + 8 * extent d <= 2 ^ 23) by (apply geo_end; lia).
  unfold sector, SD_BLOCK_SIZE.
  destruct (Z.eqb_spec n (2 ^ 32 - 1)); [lia|]. cbn zeta.
  rewrite (u32_id (n * 8)) by lia. rewrite (u32_id (n * 8 + _)) by lia.
  rewrite (u32_id (_ * 512)) by lia. rewrite Z.div_mul by lia. apply u32_id. lia.
Qed.

Lemma sector_disjoint d n d' n' :
  valid_block d n -> valid_block d' n' -> (d, n) <> (d', n') ->
  sector sb d n + 8 <= sector sb d' n' \/ sector sb d' n' + 8 <= sector sb d n.
Proof.
  intros H H' Hne. rewrite !sector_eq by done. unfold valid_block in H, H'.
  destruct (decide (d = d')) as [->|Hd].
  - assert (n <> n') by congruence. lia.
  - destruct (geo_disjoint d d' Hd); lia.
Qed.

Definition disk_block (s : bstate) (d n : Z) : bytes := read_block (disk s) (sector sb d n).

Definition holds (x : buf) (d n : Z) : bool := has x B_VALID && (dev x =? d) && (blockno x =? n).

(** What a reader of the cache gets for block [n] of device [d]. *)
Definition cur (s : bstate) (d n : Z) : bytes :=
  match list_find (fun x => Is_true (holds x d n)) (bufs s) with
  | Some (_, x) => bdata x
  | None => disk_block s d n
  end.

Definition pinned (x : buf) : bool := has x B_BUSY || has x B_DIRTY.

Fixpoint npinned (l : list buf) : nat :=
  match l with [] => O | x :: l' => (Nat.b2n (pinned x) + npinned l')%nat end.

Record buf_ok (c : gmap Z bytes) (x : buf) : Prop := {
  ok_flags : 0 <= flags x < 8;
  ok_len : length (bdata x) = BSIZE;
  ok_block : has x B_VALID = true -> valid_block (dev x) (blockno x);
  ok_dirty : has x B_DIRTY = true -> has x B_VALID = true;
  ok_clean : has x B_VALID = true -> pinned x = false ->
             bdata x = read_block c (sector sb (dev x) (blockno x)) }.

(** At most one buffer per block.  [binit] leaves every buffer at block 0 of
    device 0. *)
Definition keys_unique (l : list buf) : Prop :=
  forall i j x y, l !! i = Some x -> l !! j = Some y ->
    dev x = dev y -> blockno x = blockno y -> dev x <> 0 -> i = j.

Record wf (s : bstate) : Prop := {
  wf_len : length (bufs s) = NBUF;
  wf_order : order s ≡ₚ seq 0 NBUF;
  wf_keys : keys_unique (bufs s);
  wf_bufs : Forall (buf_ok (disk s)) (bufs s);
  wf_card : card_ok (disk s);
  wf_idle : bcache_lock s = false /\ cardlock s = false /\ devque s = [] }.

Lemma cur_cached s b x :
  wf s -> bufs s !! b = Some x -> has x B_VALID = true -> cur s (dev x) (blockno x) = bdata x.
Proof.
  intros Hw Hb Hv. unfold cur. destruct (list_find _ _) as [[i y]|] eqn:E.
  - apply list_find_Some in E as (Hi & Hy & _). unfold holds in Hy.
    apply Is_true_true in Hy. rewrite !andb_true_iff, !Z.eqb_eq in Hy. destruct Hy as [[Hyv Hd] Hn].
    assert (dev y <> 0) as H0.
    { pose proof (Forall_lookup_1 _ _ _ _ (wf_bufs _ Hw) Hi) as Hok. eapply valid_block_dev, (ok_block _ _ Hok Hyv). }
    pose proof (wf_keys _ Hw _ _ _ _ Hi Hb Hd Hn H0). congruence.
  - apply list_find_None in E. rewrite Forall_lookup in E. exfalso. apply (E b x Hb).
    unfold holds. by rewrite Hv, !Z.eqb_refl.
Qed.

Lemma cur_uncached s d n :
  (forall b x, bufs s !! b = Some x -> holds x d n = false) -> cur s d n = disk_block s d n.
Proof.
  intros H. unfold cur. destruct (list_find _ _) as [[i y]|] eqn:E; [|done].
  apply list_find_Some in E as (Hi & Hy & _). by rewrite (H _ _ Hi) in Hy.
Qed.

Lemma cur_cases s d n :
  wf s ->
  (exists b x, bufs s !! b = Some x /\ holds x d n = true /\ cur s d n = bdata x) \/
  ((forall b x, bufs s !! b = Some x -> holds x d n = false) /\ cur s d n = disk_block s d n).
Proof.
  intros Hw. unfold cur. destruct (list_find _ _) as [[i y]|] eqn:E.
  - apply list_find_Some in E as (Hi & Hy%Is_true_true & _). left. by exists i, y.
  - right. split; [|done]. apply list_find_None in E. rewrite Forall_lookup in E.
    intros b x Hb. destruct (holds x d n) eqn:Eh; [|done]. exfalso. apply (E b x Hb). by rewrite Eh.
Qed.

Lemma length_cur s d n : wf s -> length (cur s d n) = BSIZE.
Proof.
  intros Hw. destruct (cur_cases s d n Hw) as [(i & y & Hi & _ & ->)|[_ ->]].
  - apply (ok_len _ _ (Forall_lookup_1 _ _ _ _ (wf_bufs _ Hw) Hi)).
  - apply length_read_block, wf_card, Hw.
Qed.

(** Changing one buffer, and perhaps the card, keeps the invariant. *)
Lemma wf_update s s' b x x' :
  wf s -> bufs s !! b = Some x -> bufs s' = <[b := x']> (bufs s) -> order s' ≡ₚ order s ->
  bcache_lock s' = false /\ cardlock s' = false /\ devque s' = [] ->
  card_ok (disk s') -> buf_ok (disk s') x' ->
  (forall j y, j <> b -> bufs s !! j = Some y -> dev y = dev x' -> blockno y = blockno x' -> dev x' = 0) ->
  (forall j y, j <> b -> bufs s !! j = Some y -> has y B_VALID = true ->
     read_block (disk s') (sector sb (dev y) (blockno y)) = read_block (disk s) (sector sb (dev y) (blockno y))) ->
  wf s'.
Proof.
  intros Hw Hb Hbufs Hord Hidle Hcard Hok Hfresh Hdisk.
  assert (b < length (bufs s))%nat as Hlt by by eapply lookup_lt_Some.
  split; [|by rewrite Hord; apply wf_order| | |done|done].
  - by rewrite Hbufs, length_insert, (wf_len _ Hw).
  - intros i j y z. rewrite Hbufs. intros Hi Hj Hd Hn H0.
    apply list_lookup_insert_Some in Hi as [(<- & -> & _)|[Hi1 Hi]];
      apply list_lookup_insert_Some in Hj as [(<- & -> & _)|[Hj1 Hj]].
    + done.
    + exfalso. apply H0. by eapply (Hfresh j z).
    + exfalso. rewrite Hd in H0. apply H0. by eapply (Hfresh i y).
    + by eapply (wf_keys _ Hw).
  - rewrite Hbufs. apply Forall_lookup. intros j y Hj.
    apply list_lookup_insert_Some in Hj as [(<- & -> & _)|[Hj1 Hj]]; [done|].
    pose proof (Forall_lookup_1 _ _ _ _ (wf_bufs _ Hw) Hj) as Hy. destruct Hy as [? ? ? ? Hclean].
    split; [done..|]. intros Hv Hp. rewrite (Hdisk j) by done. auto.
Qed.

(** Changing one buffer changes only what is seen of its own block. *)
Lemma cur_update s s' b x x' d n :
  wf s -> wf s' -> bufs s !! b = Some x -> bufs s' = <[b := x']> (bufs s) ->
  (holds x d n = true -> pinned x = false) ->
  (d, n) <> (dev x', blockno x') -> disk_block s' d n = disk_block s d n ->
  cur s' d n = cur s d n.
Proof.
  intros Hw Hw' Hb Hbufs Hev Hne Hdisk.
  assert (holds x' d n = false) as Hx'.
  { unfold holds. destruct (Z.eqb_spec (dev x') d), (Z.eqb_spec (blockno x') n); subst;
      rewrite ?andb_false_r, ?andb_true_r; try done; congruence. }
  destruct (cur_cases s d n Hw) as [(i & y & Hi & Hy & ->)|[Hun ->]].
  - destruct (decide (i = b)) as [->|Hib].
    + assert (y = x) as -> by congruence. specialize (Hev Hy).
      pose proof (Forall_lookup_1 _ _ _ _ (wf_bufs _ Hw) Hb) as Hok.
      unfold holds in Hy. rewrite !andb_true_iff, !Z.eqb_eq in Hy. destruct Hy as [[Hv Hd] Hn].
      rewrite (ok_clean _ _ Hok Hv Hev), Hd, Hn. rewrite cur_uncached; [exact Hdisk|].
      intros j z. rewrite Hbufs. intros Hj.
      apply list_lookup_insert_Some in Hj as [(<- & -> & _)|[Hj1 Hj]]; [done|].
      destruct (holds z d n) eqn:Ez; [|done]. exfalso. apply Hj1.
      unfold holds in Ez. rewrite !andb_true_iff, !Z.eqb_eq in Ez. destruct Ez as [[_ Hd'] Hn'].
      eapply (wf_keys _ Hw b j x z); try congruence. by eapply valid_block_dev, (ok_block _ _ Hok).
    + unfold holds in Hy. rewrite !andb_true_iff, !Z.eqb_eq in Hy. destruct Hy as [[Hv <-] <-].
      apply (cur_cached s' i); [done| |done]. rewrite Hbufs. by rewrite list_lookup_insert_ne.
  - rewrite cur_uncached; [exact Hdisk|]. intros j z. rewrite Hbufs. intros Hj.
    apply list_lookup_insert_Some in Hj as [(<- & -> & _)|[Hj1 Hj]]; [done|]. by eapply Hun.
Qed.

Lemma alter_lookup (f : buf -> buf) (l : list buf) b x : l !! b = Some x -> alter f b l = <[b := f x]> l.
Proof.
  intros H. apply list_eq. intros i. destruct (decide (i = b)) as [->|Hi].
  - rewrite list_lookup_alter_eq, list_lookup_insert_eq by by eapply lookup_lt_Some. by rewrite H.
  - by rewrite list_lookup_alter_ne, list_lookup_insert_ne by done.
Qed.

(** [devrw] on an idle disk serves the request at once. *)
Lemma devrw_read s b x u :
  bufs s !! b = Some x -> cardlock s = false -> devque s = [] ->
  flag_view (flags x) u false false -> valid_block (dev x) (blockno x) ->
  exists f', flag_view f' u true false /\
  devrw sb b s = Ret tt (mkB (<[b := mkBuf f' (dev x) (blockno x) (disk_block s (dev x) (blockno x))]> (bufs s))
                          (order s) (bcache_lock s) [] false (disk s) (writes s) (woken s ++ [b])).
Proof.
  intros Hb Hc Hq Hf Hv. exists (Z.land (Z.lor (flags x) B_VALID) (not_w 32 B_DIRTY)).
  assert (flag_view (Z.land (Z.lor (flags x) B_VALID) (not_w 32 B_DIRTY)) u true false) as Hf'
    by by eapply clear_dirty_view, lor_valid_view.
  split; [done|].
  assert (blockno x <? (sb (dev x)).2 = true) as Hlt.
  { apply Z.ltb_lt. unfold valid_block in Hv. pose proof (geo_nsecs (dev x)). lia. }
  assert (b < length (bufs s))%nat as Hl by by eapply lookup_lt_Some.
  destruct s as [bs ord bl q cl dk wr wk]. cbn in *. subst.
  unfold devrw, bind, acquire_card, modify, gets. cbn.
  rewrite bool_decide_eq_true_2 by done. cbn. unfold dev_start_one, bind, get_buf, modify, gets. cbn.
  rewrite Hb, Hlt. unfold has. rewrite (fv_dirty _ _ _ _ Hf). cbn.
  destruct (blockno x =? 2 ^ 32 - 1); cbn;
    rewrite !(alter_lookup _ bs b x Hb), (alter_lookup _ _ b _ (list_lookup_insert_eq _ _ _ Hl)); cbn;
    rewrite list_insert_insert_eq, (alter_lookup _ _ b _ (list_lookup_insert_eq _ _ _ Hl)), list_insert_insert_eq; cbn;
    rewrite list_lookup_insert_eq by done; cbn;
    rewrite (flag_view_eq _ _ _ _ Hf'); by destruct u.
Qed.

Lemma devrw_write s b x u v :
  bufs s !! b = Some x -> cardlock s = false -> devque s = [] ->
  flag_view (flags x) u v true -> valid_block (dev x) (blockno x) ->
  exists f', flag_view f' u true false /\
  let ws := sector_writes (sector sb (dev x) (blockno x)) (bdata x) in
  devrw sb b s = Ret tt (mkB (<[b := mkBuf f' (dev x) (blockno x) (bdata x)]> (bufs s))
                          (order s) (bcache_lock s) [] false (apply_writes (disk s) ws) (writes s ++ ws) (woken s ++ [b])).
Proof.
  intros Hb Hc Hq Hf Hv. exists (Z.land (Z.lor (flags x) B_VALID) (not_w 32 B_DIRTY)).
  assert (flag_view (Z.land (Z.lor (flags x) B_VALID) (not_w 32 B_DIRTY)) u true false) as Hf'
    by by eapply clear_dirty_view, lor_valid_view.
  split; [done|].
  assert (blockno x <? (sb (dev x)).2 = true) as Hlt.
  { apply Z.ltb_lt. unfold valid_block in Hv. pose proof (geo_nsecs (dev x)). lia. }
  assert (b < length (bufs s))%nat as Hl by by eapply lookup_lt_Some.
  destruct s as [bs ord bl q cl dk wr wk]. cbn in *. subst.
  unfold devrw, bind, acquire_card, modify, gets. cbn.
  rewrite bool_decide_eq_true_2 by done. cbn. unfold dev_start_one, bind, get_buf, modify, gets. cbn.
  rewrite Hb, Hlt. unfold has. rewrite (fv_dirty _ _ _ _ Hf). cbn.
  destruct (blockno x =? 2 ^ 32 - 1); cbn;
    rewrite !(alter_lookup _ bs b x Hb), (alter_lookup _ _ b _ (list_lookup_insert_eq _ _ _ Hl)); cbn;
    rewrite list_insert_insert_eq; cbn;
    rewrite list_lookup_insert_eq by done; cbn;
    rewrite (flag_view_eq _ _ _ _ Hf'); by destruct u.
Qed.

Lemma find_cached_Some l bs d n b :
  find_cached l bs d n = Some b -> exists x, bs !! b = Some x /\ dev x = d /\ blockno x = n.
Proof.
  induction l as [|i l IH]; cbn; [done|]. destruct (bs !! i) as [x|] eqn:E; [|done].
  destruct (Z.eqb_spec (dev x) d), (Z.eqb_spec (blockno x) n); cbn; try done. intros [= <-]. eauto.
Qed.

Lemma find_cached_None l bs d n :
  find_cached l bs d n = None ->
  forall b x, b ∈ l -> bs !! b = Some x -> dev x = d -> blockno x = n -> False.
Proof.
  induction l as [|i l IH]; cbn; [set_solver|]. intros H b x Hb Hx Hd Hn.
  apply elem_of_cons in Hb as [->|Hb].
  - rewrite Hx, Hd, Hn, !Z.eqb_refl in H. done.
  - apply (IH) with b x; try done. destruct (bs !! i) as [y|]; [|done].
    by destruct ((dev y =? d) && (blockno y =? n)).
Qed.

Lemma find_unused_Some l bs b :
  find_unused l bs = Some b -> exists x, bs !! b = Some x /\ pinned x = false.
Proof.
  induction l as [|i l IH]; cbn; [done|]. destruct (bs !! i) as [x|] eqn:E; [|done].
  destruct (has x B_BUSY) eqn:E1, (has x B_DIRTY) eqn:E2; cbn; try done.
  intros [= <-]. exists x. unfold pinned. by rewrite E1, E2.
Qed.

Lemma find_unused_None l bs :
  find_unused l bs = None -> forall b x, b ∈ l -> bs !! b = Some x -> pinned x = true.
Proof.
  induction l as [|i l IH]; cbn; [set_solver|]. intros H b x Hb Hx. unfold pinned.
  apply elem_of_cons in Hb as [->|Hb].
  - rewrite Hx in H. by destruct (has x B_BUSY), (has x B_DIRTY).
  - destruct (bs !! i) as [y|]; [|by eapply IH].
    destruct (negb (has y B_BUSY) && negb (has y B_DIRTY)); [done|by eapply IH].
Qed.

Lemma order_complete s b x : wf s -> bufs s !! b = Some x -> b ∈ order s.
Proof.
  intros Hw Hb. rewrite (wf_order _ Hw). apply elem_of_seq. rewrite <- (wf_len _ Hw).
  apply lookup_lt_Some in Hb. lia.
Qed.

Lemma npinned_insert l b x x' :
  l !! b = Some x -> (npinned (<[b := x']> l) + Nat.b2n (pinned x) = npinned l + Nat.b2n (pinned x'))%nat.
Proof.
  revert b. induction l as [|y l IH]; intros [|b]; cbn; try done.
  - intros [= ->]. lia.
  - intros H. specialize (IH b H).
    transitivity (Nat.b2n (pinned y) + (npinned (<[b := x']> l) + Nat.b2n (pinned x)))%nat;
      [symmetry; apply Nat.add_assoc|lia].
Qed.

Lemma npinned_full l : (forall i x, l !! i = Some x -> pinned x = true) -> npinned l = length l.
Proof.
  induction l as [|y l IH]; intros H; [done|]. cbn.
  rewrite (H 0%nat y) by done. cbn. rewrite IH; [done|]. intros i x Hi. by apply (H (S i)).
Qed.

(** [bget] gives a locked buffer for the block, found or recycled; of the
    buffers only that one changes. *)
Lemma bget_spec s d n :
  wf s -> d <> 0 ->
  (forall b x, bufs s !! b = Some x -> dev x = d -> blockno x = n -> has x B_BUSY = false) ->
  (npinned (bufs s) < NBUF)%nat ->
  exists b x x', bufs s !! b = Some x /\ has x B_BUSY = false /\
    bget d n s = Ret b (set_bufs (<[b := x']> (bufs s)) s) /\
    dev x' = d /\ blockno x' = n /\ bdata x' = bdata x /\
    (forall j y, j <> b -> bufs s !! j = Some y -> dev y = d -> blockno y = n -> False) /\
    flag_view (flags x') true (holds x d n) (has x B_DIRTY) /\
    (holds x d n = false -> pinned x = false).
Proof.
  intros Hw H0 Hnb Hfree. destruct (wf_idle _ Hw) as (Hl & _ & _).
  unfold bget, bind, acquire_bcache. rewrite Hl. unfold gets. cbn -[reverse].
  destruct (find_cached (order s) (bufs s) d n) as [b|] eqn:E.
  - apply find_cached_Some in E as (x & Hb & Hd & Hn). pose proof (Hnb _ _ Hb Hd Hn) as Hbusy.
    unfold get_buf. cbn. rewrite Hb, Hbusy. cbn. unfold upd_buf, modify, release_bcache. cbn.
    rewrite (alter_lookup _ _ _ _ Hb). exists b, x. eexists. split; [done|]. split; [done|]. split.
    { unfold ret. f_equal. unfold set_bufs, set_block_lock. cbn. by rewrite Hl. }
    cbn. split_and!; try done.
    + intros j y Hj Hy Hyd Hyn. apply Hj. eapply (wf_keys _ Hw j b); try done; congruence.
    + eapply lor_busy_view. unfold holds. rewrite Hd, Hn, !Z.eqb_refl, !andb_true_r.
      split; [|done..]. apply (ok_flags _ _ (Forall_lookup_1 _ _ _ _ (wf_bufs _ Hw) Hb)).
    + unfold holds, pinned. rewrite Hd, Hn, !Z.eqb_refl, !andb_true_r, Hbusy. intros Hxv.
      destruct (has x B_DIRTY) eqn:E; [|done].
      pose proof (ok_dirty _ _ (Forall_lookup_1 _ _ _ _ (wf_bufs _ Hw) Hb) E). congruence.
  - cbn -[reverse]. destruct (find_unused (reverse (order s)) (bufs s)) as [b|] eqn:E2; cbn.
    + apply find_unused_Some in E2 as (x & Hb & Hp). unfold upd_buf, modify, release_bcache. cbn.
      rewrite (alter_lookup _ _ _ _ Hb). exists b, x. eexists. split; [done|].
      split; [by unfold pinned in Hp; destruct (has x B_BUSY)|]. split.
      { unfold ret. f_equal. unfold set_bufs, set_block_lock. cbn. by rewrite Hl. }
      cbn. split_and!; try done.
      * intros j y Hj Hy. eapply (find_cached_None _ _ _ _ E); [by eapply order_complete|done].
      * assert (holds x d n = false) as ->.
        { unfold holds. destruct (Z.eqb_spec (dev x) d), (Z.eqb_spec (blockno x) n);
            rewrite ?andb_false_r; try done.
          exfalso. eapply (find_cached_None _ _ _ _ E); [by eapply order_complete|done..]. }
        assert (has x B_DIRTY = false) as -> by (unfold pinned in Hp; by destruct (has x B_BUSY), (has x B_DIRTY)).
        apply busy_view.
    + exfalso. rewrite npinned_full, (wf_len _ Hw) in Hfree; [lia|]. intros i x Hi.
      eapply (find_unused_None _ _ E2 i x); [|done]. apply elem_of_reverse. by eapply order_complete.
Qed.

(** With every buffer busy or dirty, a block that is not cached cannot be read. *)
Lemma bget_full s d n :
  wf s -> (forall b x, bufs s !! b = Some x -> (dev x, blockno x) <> (d, n) /\ pinned x = true) ->
  exists s', bget d n s = Panic s'.
Proof.
  intros Hw H. destruct (wf_idle _ Hw) as (Hl & _ & _).
  unfold bget, bind, acquire_bcache. rewrite Hl. unfold gets. cbn -[reverse].
  destruct (find_cached (order s) (bufs s) d n) as [b|] eqn:E.
  - apply find_cached_Some in E as (x & Hb & <- & <-). by destruct (H _ _ Hb).
  - cbn -[reverse]. destruct (find_unused (reverse (order s)) (bufs s)) as [b|] eqn:E2; [|by eexists].
    apply find_unused_Some in E2 as (x & Hb & Hp). destruct (H _ _ Hb). congruence.
Qed.

(** A buffer some process holds, with the contents of block [n] of [d]. *)
Record held (s : bstate) (b : nat) (d n : Z) (data : bytes) (dirty : bool) : Prop := {
  held_buf : exists f, bufs s !! b = Some (mkBuf f d n data) /\ flag_view f true true dirty;
  held_block : valid_block d n }.

Lemma bread_run s d n :
  wf s -> valid_block d n ->
  (forall b x, bufs s !! b = Some x -> dev x = d -> blockno x = n -> has x B_BUSY = false) ->
  (npinned (bufs s) < NBUF)%nat ->
  exists b x f s', bread sb d n s = Ret b s' /\ bufs s !! b = Some x /\
    bufs s' = <[b := mkBuf f d n (cur s d n)]> (bufs s) /\
    order s' = order s /\ disk s' = disk s /\ writes s' = writes s /\
    (bcache_lock s' = false /\ cardlock s' = false /\ devque s' = []) /\
    has x B_BUSY = false /\ flag_view f true true (has x B_DIRTY) /\
    (holds x d n = false -> pinned x = false) /\
    (forall j y, j <> b -> bufs s !! j = Some y -> dev y = d -> blockno y = n -> False).
Proof.
  intros Hw Hv Hnb Hfree.
  destruct (bget_spec s d n Hw (valid_block_dev _ _ Hv) Hnb Hfree)
    as (b & x & x1 & Hb & Hbusy & Hget & Hd & Hn & Hdata & Hfresh & Hf & Hev).
  destruct (wf_idle _ Hw) as (Hl & Hcl & Hq).
  assert (b < length (bufs s))%nat as Hlt by by eapply lookup_lt_Some.
  unfold bread, bind. rewrite Hget. unfold get_buf. cbn. rewrite list_lookup_insert_eq by done.
  unfold has at 1. rewrite (fv_valid _ _ _ _ Hf). destruct x1 as [f1 d1 n1 data1]. cbn in *. subst.
  exists b, x. destruct (holds x d n) eqn:Eh; cbn.
  - exists f1. eexists. split; [reflexivity|]. cbn. split_and!; try done. do 2 f_equal.
    unfold holds in Eh. rewrite !andb_true_iff, !Z.eqb_eq in Eh. destruct Eh as [[Ev <-] <-].
    symmetry. by apply cur_cached with b.
  - assert (has x B_DIRTY = false) as Hdx.
    { specialize (Hev eq_refl). unfold pinned in Hev. by destruct (has x B_BUSY), (has x B_DIRTY). }
    rewrite Hdx in *.
    destruct (devrw_read (set_bufs (<[b := mkBuf f1 d n (bdata x)]> (bufs s)) s) b (mkBuf f1 d n (bdata x)) true)
      as (f' & Hf' & Hrw); [by apply list_lookup_insert_eq|done..|].
    rewrite Hrw. exists f'. eexists. split; [reflexivity|]. cbn. rewrite list_insert_insert_eq.
    split_and!; try done. do 2 f_equal. rewrite cur_uncached; [done|]. intros j y Hj.
    destruct (decide (j = b)) as [->|Hj']; [congruence|].
    destruct (holds y d n) eqn:Ey; [|done]. exfalso. unfold holds in Ey.
    rewrite !andb_true_iff, !Z.eqb_eq in Ey. destruct Ey as [[_ Hyd] Hyn]. by apply (Hfresh j y).
Qed.

(** [bread] gives the current contents of the block and changes nothing that
    can be seen. *)
Lemma bread_spec s d n :
  wf s -> valid_block d n ->
  (forall b x, bufs s !! b = Some x -> dev x = d -> blockno x = n -> has x B_BUSY = false) ->
  (npinned (bufs s) < NBUF)%nat ->
  exists b x x' s', bread sb d n s = Ret b s' /\ wf s' /\
    bufs s !! b = Some x /\ bufs s' = <[b := x']> (bufs s) /\ has x B_BUSY = false /\
    held s' b d n (cur s d n) (has x B_DIRTY) /\
    (has x B_DIRTY = false -> cur s d n = disk_block s d n) /\
    disk s' = disk s /\ writes s' = writes s /\
    (forall d' n', cur s' d' n' = cur s d' n').
Proof.
  intros Hw Hv Hnb Hfree.
  destruct (bread_run s d n Hw Hv Hnb Hfree)
    as (b & x & f & s' & Hrun & Hb & Hbufs & Hord & Hdisk & Hwr & Hidle & Hbusy & Hf & Hev & Hfresh).
  assert (b < length (bufs s))%nat as Hlt by by eapply lookup_lt_Some.
  pose proof (length_cur s d n Hw) as Hlen.
  assert (wf s') as Hw'.
  { eapply (wf_update s s' b); try done.
    - by rewrite Hord.
    - rewrite Hdisk. apply Hw.
    - split; cbn; try done; [apply Hf| |].
      + unfold has; cbn. by rewrite (fv_valid _ _ _ _ Hf).
      + intros _. unfold pinned, has; cbn. by rewrite (fv_busy _ _ _ _ Hf).
    - cbn. intros j y Hj Hy Hyd Hyn. exfalso. by apply (Hfresh j y).
    - intros. by rewrite Hdisk. }
  exists b, x. do 2 eexists. split; [exact Hrun|]. split; [done|]. split; [done|].
  split; [exact Hbufs|]. split; [done|]. split; [|split; [|split; [done|split; [done|]]]].
  - split; [|done]. exists f. by rewrite Hbufs, list_lookup_insert_eq.
  - intros Hdx. destruct (cur_cases s d n Hw) as [(i & y & Hi & Hy & ->)|[_ ->]]; [|done].
    unfold holds in Hy. rewrite !andb_true_iff, !Z.eqb_eq in Hy. destruct Hy as [[Hyv <-] <-].
    destruct (decide (i = b)) as [->|Hib]; [|exfalso; by apply (Hfresh i y)].
    assert (y = x) as -> by congruence.
    apply (ok_clean _ _ (Forall_lookup_1 _ _ _ _ (wf_bufs _ Hw) Hb)); [done|].
    unfold pinned. by rewrite Hbusy, Hdx.
  - intros d' n'. destruct (decide ((d', n') = (d, n))) as [[= -> ->]|Hne].
    + apply (cur_cached s' b (mkBuf f d n (cur s d n)) Hw'); [by rewrite Hbufs, list_lookup_insert_eq|].
      apply (fv_valid _ _ _ _ Hf).
    + eapply (cur_update s s' b x); try done; [|unfold disk_block; by rewrite Hdisk].
      intros Hh. apply Hev. destruct (holds x d n) eqn:E; [|done]. exfalso. apply Hne.
      unfold holds in Hh, E. rewrite !andb_true_iff, !Z.eqb_eq in Hh, E. destruct Hh as [[_ <-] <-], E as [[_ <-] <-]. done.
Qed.

Lemma move_back_Permutation (l : list nat) b : NoDup l -> b ∈ l -> filter (.≠ b) l ++ [b] ≡ₚ l.
Proof.
  intros Hnd Hb. apply NoDup_Permutation; [|done|].
  - apply NoDup_app. split_and!; [by apply NoDup_filter| |apply NoDup_singleton].
    intros x [Hx _]%list_elem_of_filter. by rewrite list_elem_of_singleton.
  - intros x. rewrite elem_of_app, list_elem_of_filter, list_elem_of_singleton.
    destruct (decide (x = b)); naive_solver.
Qed.

(** A held buffer that changes its flags or its data, and perhaps the card
    with it: the shared part of the next four lemmas. *)
Lemma held_update s s' b d n data dirty f' data' :
  wf s -> held s b d n data dirty ->
  bufs s' = <[b := mkBuf f' d n data']> (bufs s) -> order s' ≡ₚ order s ->
  bcache_lock s' = false /\ cardlock s' = false /\ devque s' = [] ->
  card_ok (disk s') -> length data' = BSIZE ->
  (forall d' n', valid_block d' n' -> (d', n') <> (d, n) -> disk_block s' d' n' = disk_block s d' n') ->
  0 <= f' < 8 -> truthy (Z.land f' B_VALID) = true ->
  (truthy (Z.land f' B_BUSY) || truthy (Z.land f' B_DIRTY) = false -> data' = disk_block s' d n) ->
  wf s' /\ cur s' d n = data' /\
  (forall d' n', valid_block d' n' -> (d', n') <> (d, n) -> cur s' d' n' = cur s d' n').
Proof.
  intros Hw [(f & Hb & Hf) Hv] Hbufs Hord Hidle Hcard Hlen Hdisk Hr Hval Hclean.
  assert (b < length (bufs s))%nat as Hlt by by eapply lookup_lt_Some.
  pose proof (valid_block_dev _ _ Hv) as H0.
  assert (forall j y, j <> b -> bufs s !! j = Some y -> dev y = d -> blockno y = n -> False) as Hfresh.
  { intros j y Hj Hy <- <-. apply Hj. by eapply (wf_keys _ Hw j b). }
  assert (wf s') as Hw'.
  { eapply (wf_update s s' b); try done.
    - cbn. intros. exfalso. eauto.
    - intros j y Hj Hy Hyv. apply (Hdisk (dev y) (blockno y)).
      + by apply (ok_block _ _ (Forall_lookup_1 _ _ _ _ (wf_bufs _ Hw) Hy)).
      + intros [= E1 E2]. eauto. }
  split; [done|]. split.
  - apply (cur_cached s' b (mkBuf f' d n data') Hw'); [|done]. by rewrite Hbufs, list_lookup_insert_eq.
  - intros d' n' Hv' Hne. eapply (cur_update s s' b); try done; [|by apply Hdisk].
    unfold holds. cbn. intros Hh. exfalso. apply Hne.
    rewrite !andb_true_iff, !Z.eqb_eq in Hh. destruct Hh as [[_ ->] ->]. done.
Qed.

Lemma held_lookup s b d n data dirty :
  wf s -> held s b d n data dirty ->
  exists f, bufs s !! b = Some (mkBuf f d n data) /\ flag_view f true true dirty /\
            (b < length (bufs s))%nat /\ length data = BSIZE /\ cur s d n = data.
Proof.
  intros Hw [(f & Hb & Hf) Hv]. exists f. split_and!; try done; [by eapply lookup_lt_Some| |].
  - apply (ok_len _ _ (Forall_lookup_1 _ _ _ _ (wf_bufs _ Hw) Hb)).
  - by apply (cur_cached s b (mkBuf f d n data) Hw Hb), (fv_valid _ _ _ _ Hf).
Qed.

(** [memmove(b->data, ...)] and other stores into a held buffer. *)
Lemma set_data_spec s b d n data dirty data' :
  wf s -> held s b d n data dirty -> length data' = BSIZE ->
  exists s' x', upd_buf b (set_data data') s = Ret tt s' /\ wf s' /\ held s' b d n data' dirty /\
    bufs s' = <[b := x']> (bufs s) /\ disk s' = disk s /\ writes s' = writes s /\ cur s' d n = data' /\
    (forall d' n', valid_block d' n' -> (d', n') <> (d, n) -> cur s' d' n' = cur s d' n').
Proof.
  intros Hw Hh Hlen. destruct (held_lookup _ _ _ _ _ _ Hw Hh) as (f & Hb & Hf & Hlt & _).
  do 2 eexists. split; [reflexivity|]. cbn. rewrite (alter_lookup _ _ _ _ Hb). unfold set_data; cbn.
  destruct (held_update s (set_bufs (<[b := mkBuf f d n data']> (bufs s)) s) b d n data dirty f data')
    as (Hw' & Hc & Hfr); cbn; try done; try apply Hw; try apply Hf.
  { by rewrite (fv_busy _ _ _ _ Hf). }
  split; [done|]. split; [|done]. split; [|apply Hh]. exists f. cbn. by rewrite list_lookup_insert_eq.
Qed.

(** [b->flags |= B_DIRTY] in [log_write]. *)
Lemma set_dirty_spec s b d n data dirty :
  wf s -> held s b d n data dirty ->
  exists s' x', upd_buf b (fun x => set_flags (Z.lor (flags x) B_DIRTY) x) s = Ret tt s' /\ wf s' /\
    held s' b d n data true /\ bufs s' = <[b := x']> (bufs s) /\ disk s' = disk s /\ writes s' = writes s /\
    (forall d' n', valid_block d' n' -> cur s' d' n' = cur s d' n').
Proof.
  intros Hw Hh. destruct (held_lookup _ _ _ _ _ _ Hw Hh) as (f & Hb & Hf & Hlt & Hlen & Hcur).
  pose proof (lor_dirty_view _ _ _ _ Hf) as Hf'.
  do 2 eexists. split; [reflexivity|]. cbn. rewrite (alter_lookup _ _ _ _ Hb). unfold set_flags; cbn.
  destruct (held_update s (set_bufs (<[b := mkBuf (Z.lor f B_DIRTY) d n data]> (bufs s)) s) b d n data dirty (Z.lor f B_DIRTY) data)
    as (Hw' & Hc & Hfr); cbn; try done; try apply Hw; try apply Hf'.
  { by rewrite (fv_busy _ _ _ _ Hf'). }
  split; [done|]. split; [|split; [done|split; [done|split; [done|]]]].
  - split; [|apply Hh]. eexists. cbn. by rewrite list_lookup_insert_eq.
  - intros d' n' Hv'. destruct (decide ((d', n') = (d, n))) as [[= -> ->]|]; [congruence|by apply Hfr].
Qed.

(** [bwrite] puts the buffer on the card, sector by sector. *)
Lemma bwrite_spec s b d n data dirty :
  wf s -> held s b d n data dirty ->
  exists s' x', bwrite sb b s = Ret tt s' /\ wf s' /\ held s' b d n data false /\
    bufs s' = <[b := x']> (bufs s) /\
    disk s' = apply_writes (disk s) (sector_writes (sector sb d n) data) /\
    writes s' = writes s ++ sector_writes (sector sb d n) data /\
    disk_block s' d n = data /\
    (forall d' n', valid_block d' n' -> (d', n') <> (d, n) -> disk_block s' d' n' = disk_block s d' n') /\
    (forall d' n', valid_block d' n' -> cur s' d' n' = cur s d' n').
Proof.
  intros Hw Hh. destruct (held_lookup _ _ _ _ _ _ Hw Hh) as (f & Hb & Hf & Hlt & Hlen & Hcur).
  destruct (wf_idle _ Hw) as (Hl & Hcl & Hq). pose proof (held_block _ _ _ _ _ _ Hh) as Hv.
  pose proof (lor_dirty_view _ _ _ _ Hf) as Hf1.
  destruct (devrw_write (set_bufs (<[b := mkBuf (Z.lor f B_DIRTY) d n data]> (bufs s)) s) b
              (mkBuf (Z.lor f B_DIRTY) d n data) true true) as (f' & Hf' & Hrw);
    [by apply list_lookup_insert_eq|done..|]. cbn in Hrw.
  do 2 eexists. split.
  { unfold bwrite, bind, get_buf. rewrite Hb. unfold has. cbn [flags]. rewrite (fv_busy _ _ _ _ Hf).
    unfold upd_buf, modify. cbn. rewrite (alter_lookup _ _ _ _ Hb). apply Hrw. }
  cbn. rewrite list_insert_insert_eq.
  set (s' := mkB (<[b := mkBuf f' d n data]> (bufs s)) _ _ _ _ _ _ _).
  assert (disk_block s' d n = data) as Hsame by by apply read_write_block.
  assert (forall d' n', valid_block d' n' -> (d', n') <> (d, n) -> disk_block s' d' n' = disk_block s d' n') as Hoth.
  { intros d' n' Hv' Hne. apply read_block_frame. intros w Hin%elem_of_sector_writes.
    destruct (sector_disjoint _ _ _ _ Hv' Hv Hne); lia. }
  destruct (held_update s s' b d n data dirty f' data)
    as (Hw' & Hc & Hfr); cbn; try done; try apply Hf'.
  { apply apply_writes_ok; [apply Hw|by apply sector_writes_ok]. }
  split_and!; try done.
  - split; [|done]. eexists. cbn. by rewrite list_lookup_insert_eq.
  - intros d' n' Hv'. destruct (decide ((d', n') = (d, n))) as [[= -> ->]|]; [congruence|by apply Hfr].
Qed.

(** [brelse] of a buffer that is dirty or as on the card. *)
Lemma brelse_spec s b d n data dirty :
  wf s -> held s b d n data dirty -> (dirty = false -> data = disk_block s d n) ->
  exists s' f, brelse b s = Ret tt s' /\ wf s' /\
    bufs s' = <[b := mkBuf f d n data]> (bufs s) /\ flag_view f false true dirty /\
    disk s' = disk s /\ writes s' = writes s /\
    (forall d' n', valid_block d' n' -> cur s' d' n' = cur s d' n').
Proof.
  intros Hw Hh Hd. destruct (held_lookup _ _ _ _ _ _ Hw Hh) as (f & Hb & Hf & Hlt & Hlen & Hcur).
  destruct (wf_idle _ Hw) as (Hl & Hcl & Hq).
  pose proof (clear_busy_view _ _ _ _ Hf) as Hf'.
  do 2 eexists. split.
  { unfold brelse, bind, get_buf. rewrite Hb. unfold has. cbn [flags]. rewrite (fv_busy _ _ _ _ Hf). cbn.
    unfold acquire_bcache. rewrite Hl. cbn. unfold upd_buf, release_bcache, modify. cbn. reflexivity. }
  rewrite (alter_lookup _ _ _ _ Hb). unfold set_flags, set_block_lock. cbn.
  set (s' := mkB _ _ _ _ _ _ _ _).
  assert (filter (.≠ b) (order s) ++ [b] ≡ₚ order s) as Hperm.
  { apply move_back_Permutation; [|by eapply order_complete]. rewrite (wf_order _ Hw). apply NoDup_seq. }
  destruct (held_update s s' b d n data dirty (Z.land f (not_w 32 B_BUSY)) data)
    as (Hw' & Hc & Hfr); cbn; try done; try apply Hf'; try apply Hw.
  { rewrite (fv_busy _ _ _ _ Hf'), (fv_dirty _ _ _ _ Hf'). apply Hd. }
  split_and!; try done.
  intros d' n' Hv'. destruct (decide ((d', n') = (d, n))) as [[= -> ->]|]; [congruence|by apply Hfr].
Qed.

(** * The contract of the cache

    [cache s H k]: the invariant holds, only the buffers of [H] are locked and
    [k] buffers cannot be recycled. *)
Record cache (s : bstate) (H : list nat) (k : nat) : Prop := {
  cache_wf : wf s;
  cache_busy : forall b x, bufs s !! b = Some x -> has x B_BUSY = true -> b ∈ H;
  cache_pinned : npinned (bufs s) = k }.

(** What stays as it was when only buffer [b] and block [d], [n] change. *)
Definition keeps (s s' : bstate) (b : nat) : Prop :=
  forall b' d' n' data dirty, b' <> b -> held s b' d' n' data dirty -> held s' b' d' n' data dirty.

Lemma keeps_insert s s' b x' : bufs s' = <[b := x']> (bufs s) -> keeps s s' b.
Proof.
  intros Hbufs b' d' n' data dirty Hne [(f & Hb & Hf) Hv]. split; [|done]. exists f.
  by rewrite Hbufs, list_lookup_insert_ne.
Qed.

Lemma held_pinned s b d n data dirty :
  held s b d n data dirty -> exists x, bufs s !! b = Some x /\ pinned x = true /\ has x B_BUSY = true.
Proof.
  intros [(f & Hb & Hf) _]. eexists. split; [exact Hb|]. unfold pinned, has. cbn.
  by rewrite (fv_busy _ _ _ _ Hf).
Qed.

Lemma busy_insert s s' b x' (H H' : list nat) :
  (forall b x, bufs s !! b = Some x -> has x B_BUSY = true -> b ∈ H) ->
  bufs s' = <[b := x']> (bufs s) -> (has x' B_BUSY = true -> b ∈ H') ->
  (forall b', b' ∈ H -> b' <> b -> b' ∈ H') ->
  forall b x, bufs s' !! b = Some x -> has x B_BUSY = true -> b ∈ H'.
Proof.
  intros Hb Hbufs Hx HH j y Hj Hy. rewrite Hbufs in Hj.
  apply list_lookup_insert_Some in Hj as [(<- & -> & _)|[Hne Hj]]; [by apply Hx|]. eauto.
Qed.

Lemma cache_bread s H k d n :
  cache s H k -> valid_block d n -> (k < NBUF)%nat ->
  (forall b, b ∈ H -> exists d' n' data dirty, held s b d' n' data dirty /\ (d', n') <> (d, n)) ->
  exists b dirty s', bread sb d n s = Ret b s' /\
    cache s' (b :: H) (k + Nat.b2n (negb dirty)) /\ b ∉ H /\ keeps s s' b /\
    held s' b d n (cur s d n) dirty /\ (dirty = false -> cur s d n = disk_block s d n) /\
    disk s' = disk s /\ writes s' = writes s /\ (forall d' n', cur s' d' n' = cur s d' n').
Proof.
  intros [Hw Hbusy Hk] Hv Hlt HH.
  destruct (bread_spec s d n Hw Hv) as (b & x & x' & s' & Hrun & Hw' & Hb & Hbufs & Hnb & Hh & Hc & Hd & Hwr & Hcur).
  { intros b x Hb Hd Hn. destruct (has x B_BUSY) eqn:E; [|done].
    destruct (HH b (Hbusy _ _ Hb E)) as (d' & n' & data & dirty & [(f & Hb' & _) _] & Hne).
    assert (x = mkBuf f d' n' data) as -> by congruence. cbn in *. congruence. }
  { by rewrite Hk. }
  exists b, (has x B_DIRTY), s'. split; [done|].
  destruct (held_pinned _ _ _ _ _ _ Hh) as (y & Hy & Hpy & Hby).
  assert (y = x') as -> by (rewrite Hbufs, list_lookup_insert_eq in Hy by (by eapply lookup_lt_Some); congruence).
  split; [split; [done| |]|].
  - eapply (busy_insert s s' b x'); [done..|set_solver|set_solver].
  - pose proof (npinned_insert _ _ _ x' Hb) as Hnp. rewrite <- Hbufs, Hpy in Hnp.
    unfold pinned in Hnp. rewrite Hnb in Hnp. rewrite Hk in Hnp. destruct (has x B_DIRTY); cbn in *; lia.
  - split_and!; try done; [|by eapply keeps_insert].
    intros Hin. destruct (HH b Hin) as (d' & n' & data & dirty & Hh' & _).
    destruct (held_pinned _ _ _ _ _ _ Hh') as (z & Hz & _ & Hbz). congruence.
Qed.

(** Updating a held buffer that stays held. *)
Lemma cache_insert s s' H k b d n data dirty data' dirty' x' :
  cache s H k -> held s b d n data dirty -> wf s' -> bufs s' = <[b := x']> (bufs s) ->
  held s' b d n data' dirty' -> cache s' H k.
Proof.
  intros [Hw Hbusy Hk] Hh Hw' Hbufs Hh'.
  destruct (held_pinned _ _ _ _ _ _ Hh) as (y & Hy & Hpy & Hby).
  destruct (held_pinned _ _ _ _ _ _ Hh') as (z & Hz & Hpz & Hbz).
  assert (z = x') as -> by (rewrite Hbufs, list_lookup_insert_eq in Hz by (by eapply lookup_lt_Some); congruence).
  split; [done| |].
  - eapply (busy_insert s s' b x'); [done..| |done]. intros _. eauto.
  - pose proof (npinned_insert _ _ _ x' Hy) as Hnp. rewrite <- Hbufs, Hpy, Hpz in Hnp. lia.
Qed.

Lemma cache_brelse s H k b d n data dirty :
  cache s H k -> held s b d n data dirty -> (dirty = false -> data = disk_block s d n) ->
  exists s', brelse b s = Ret tt s' /\
    cache s' (filter (.≠ b) H) (k - Nat.b2n (negb dirty)) /\ keeps s s' b /\
    disk s' = disk s /\ writes s' = writes s /\
    (forall d' n', valid_block d' n' -> cur s' d' n' = cur s d' n').
Proof.
  intros [Hw Hbusy Hk] Hh Hd.
  destruct (brelse_spec s b d n data dirty Hw Hh Hd) as (s' & f & Hrun & Hw' & Hbufs & Hf & Hdisk & Hwr & Hcur).
  exists s'. split; [done|].
  destruct (held_pinned _ _ _ _ _ _ Hh) as (y & Hy & Hpy & Hby).
  split; [split; [done| |]|].
  - eapply (busy_insert s s' b _); [done..| |].
    + unfold has. cbn. by rewrite (fv_busy _ _ _ _ Hf).
    + intros b' Hb' Hne. apply list_elem_of_filter. done.
  - pose proof (npinned_insert _ _ _ (mkBuf f d n data) Hy) as Hnp. rewrite <- Hbufs, Hpy in Hnp.
    unfold pinned, has in Hnp. cbn in Hnp. rewrite (fv_busy _ _ _ _ Hf), (fv_dirty _ _ _ _ Hf) in Hnp.
    destruct dirty; cbn in *; lia.
  - split_and!; try done. by eapply keeps_insert.
Qed.

(** The cache after [binit], its array in zeroed memory. *)
Definition boot_state (c : gmap Z bytes) : bstate :=
  mkB (replicate NBUF (mkBuf 0 0 0 (replicate BSIZE 0))) (seq 0 NBUF) false [] false c [] [].

Lemma binit_run c ord lk :
  binit (mkB (replicate NBUF (mkBuf 0 0 0 (replicate BSIZE 0))) ord lk [] false c [] []) = Ret tt (boot_state c).
Proof.
  unfold binit, bind, modify. cbn -[NBUF for_each replicate seq].
  assert (forall l acc bs, for_each l (fun b s => Ret tt (set_order (order s ++ [b]) s))
    (mkB bs acc false [] false c [] []) = Ret tt (mkB bs (acc ++ l) false [] false c [] [])) as H.
  { induction l as [|b l IH]; intros acc bs; cbn; [by rewrite app_nil_r|].
    unfold bind, set_order. cbn. rewrite IH. by rewrite <- app_assoc. }
  apply (H (seq 0 NBUF) []).
Qed.

Lemma boot_cache c : card_ok c -> cache (boot_state c) [] 0.
Proof.
  intros Hc. split.
  - split; cbn [bufs order disk boot_state].
    + apply length_replicate.
    + done.
    + intros i j x y [-> _]%lookup_replicate _ _ _ H0. by destruct H0.
    + by apply Forall_replicate.
    + done.
    + done.
  - intros b x [-> _]%lookup_replicate. done.
  - cbn [bufs boot_state]. generalize NBUF. intros m. by induction m.
Qed.

Lemma boot_cur c d n : cur (boot_state c) d n = disk_block (boot_state c) d n.
Proof. apply cur_uncached. intros b x [-> _]%lookup_replicate. done. Qed.

(** C5: reading a block, overwriting it, writing and releasing the buffer
    never panics or blocks while a buffer can be recycled and no buffer is
    locked; afterwards the card and every later reader have the new contents,
    the eight sectors of the block were written and no others, and every
    other block is as it was, on the card and to readers. *)
Theorem cache_write_through s k d n data :
  cache s [] k -> valid_block d n -> (k < NBUF)%nat -> length data = BSIZE ->
  exists b s', (let* b := bread sb d n in upd_buf b (set_data data) ;; bwrite sb b ;; brelse b ;; ret b) s = Ret b s' /\
    (exists k', cache s' [] k' /\ (k' <= k)%nat) /\
    disk_block s' d n = data /\ cur s' d n = data /\
    writes s' = writes s ++ sector_writes (sector sb d n) data /\
    forall d' n', valid_block d' n' -> (d', n') <> (d, n) ->
      disk_block s' d' n' = disk_block s d' n' /\ cur s' d' n' = cur s d' n'.
Proof.
  intros Hc Hv Hk Hlen.
  destruct (cache_bread s [] k d n Hc Hv Hk) as (b & dirty & s1 & Hr1 & Hc1 & _ & _ & Hh1 & _ & Hd1 & Hw1 & Hcur1).
  { set_solver. }
  destruct (set_data_spec s1 b d n _ _ data (cache_wf _ _ _ Hc1) Hh1 Hlen)
    as (s2 & x2 & Hr2 & Hwf2 & Hh2 & Hb2 & Hd2 & Hw2 & Hcs2 & Hcur2).
  pose proof (cache_insert _ _ _ _ _ _ _ _ _ _ _ _ Hc1 Hh1 Hwf2 Hb2 Hh2) as Hc2.
  destruct (bwrite_spec s2 b d n _ _ Hwf2 Hh2)
    as (s3 & x3 & Hr3 & Hwf3 & Hh3 & Hb3 & Hd3 & Hw3 & Hds3 & Hdo3 & Hcur3).
  pose proof (cache_insert _ _ _ _ _ _ _ _ _ _ _ _ Hc2 Hh2 Hwf3 Hb3 Hh3) as Hc3.
  destruct (cache_brelse s3 _ _ b d n _ _ Hc3 Hh3 ltac:(done)) as (s4 & Hr4 & Hc4 & _ & Hd4 & Hw4 & Hcur4).
  exists b, s4. unfold bind. rewrite Hr1, Hr2, Hr3, Hr4.
  split; [done|]. split.
  { eexists. split; [|shelve]. rewrite filter_cons_False in Hc4 by (intros Hn; by apply Hn). exact Hc4. Unshelve. destruct dirty; cbn; lia. }
  unfold disk_block in *. rewrite Hd4. split_and!.
  - done.
  - by rewrite Hcur4, Hcur3.
  - by rewrite Hw4, Hw3, Hw2, Hw1.
  - intros d' n' Hv' Hne. rewrite Hcur4, Hcur3, Hcur2, Hcur1 by done. split; [|done].
    rewrite Hdo3 by done. by rewrite Hd2, Hd1.
Qed.

(** The comments call the list most recently used first and say a
    released buffer moves to its head; [brelse] appends it at the back, and
    [bget] looks for a buffer to recycle from the back.  The clean buffer
    released last is therefore the first to be recycled. *)
Theorem recycles_last_released s b d n data d2 n2 :
  wf s -> held s b d n data false -> data = disk_block s d n -> d2 <> 0 ->
  (forall j x, bufs s !! j = Some x -> (dev x, blockno x) <> (d2, n2)) ->
  exists s' s'', brelse b s = Ret tt s' /\ last (order s') = Some b /\ bget d2 n2 s' = Ret b s''.
Proof.
  intros Hw Hh Hd H2 Hun.
  destruct (held_lookup _ _ _ _ _ _ Hw Hh) as (f & Hb & Hf & Hlt & _).
  destruct (wf_idle _ Hw) as (Hl & _ & _). pose proof (clear_busy_view _ _ _ _ Hf) as Hf'.
  do 2 eexists. split.
  { unfold brelse, bind, get_buf. rewrite Hb. unfold has. cbn [flags]. rewrite (fv_busy _ _ _ _ Hf). cbn.
    unfold acquire_bcache. rewrite Hl. cbn. unfold upd_buf, release_bcache, modify. cbn. reflexivity. }
  split; [apply last_snoc|].
  rewrite (alter_lookup _ _ _ _ Hb). unfold set_flags, set_block_lock. cbn [flags dev blockno bdata].
  unfold bget, bind, acquire_bcache, gets. cbn -[reverse].
  destruct (find_cached _ _ d2 n2) as [j|] eqn:E.
  { exfalso. apply find_cached_Some in E as (x & Hx & <- & <-).
    apply list_lookup_insert_Some in Hx as [(<- & Hx & _)|[_ Hx]]; [|by eapply (Hun j x)].
    subst x. by eapply (Hun b _ Hb). }
  cbn -[reverse]. rewrite reverse_snoc. cbn -[reverse]. rewrite list_lookup_insert_eq by done.
  unfold has. cbn [flags]. rewrite (fv_busy _ _ _ _ Hf'), (fv_dirty _ _ _ _ Hf'). reflexivity.
Qed.

End Cache.

(** The byte offset of a sector is computed in 32 bits, so the card is
    addressed modulo 4 GiB: sector numbers are taken modulo 2^23, and blocks
    2^20 apart are the same sectors to the driver. *)
Theorem card_addresses_wrap (sb : Z -> Z * Z) d n :
  0 <= n -> 0 <= (sb d).1 -> (n + 2 ^ 20) * 8 + (sb d).1 < 2 ^ 32 ->
  sector sb d n = (n * 8 + (sb d).1) mod 2 ^ 23 /\ sector sb d (n + 2 ^ 20) = sector sb d n.
Proof.
  intros Hn Hl Hlt.
  assert (forall m, 0 <= m -> m * 8 + (sb d).1 < 2 ^ 32 -> sector sb d m = (m * 8 + (sb d).1) mod 2 ^ 23) as H.
  { intros m H1 H2. unfold sector, SD_BLOCK_SIZE. destruct (Z.eqb_spec m (2 ^ 32 - 1)); [lia|]. cbn zeta.
    rewrite (u32_id (m * 8)) by lia. rewrite (u32_id (m * 8 + _)) by lia.
    set (a := m * 8 + (sb d).1) in *. unfold u32 at 2, wrap.
    replace (2 ^ 32) with (2 ^ 23 * 512) by reflexivity.
    rewrite Z.mul_mod_distr_r by lia. rewrite Z.div_mul by lia.
    apply u32_id. pose proof (Z.mod_pos_bound a (2 ^ 23)). lia. }
  rewrite !H by lia. split; [done|].
  replace ((n + 2 ^ 20) * 8 + (sb d).1) with (n * 8 + (sb d).1 + 1 * 2 ^ 23) by lia.
  apply Z.mod_add. lia.
Qed.

Lemma card_addresses_wrap_witness :
  sector (fun _ => (0x20800, 0x600000)) 1 0x100002 = sector (fun _ => (0x20800, 0x600000)) 1 2.
Proof. apply (card_addresses_wrap (fun _ => (0x20800, 0x600000)) 1 2); cbn; lia. Defined.

(** A card with a FAT, a V6 and an ext2 partition. *)
Definition sd_table (d : Z) : Z * Z :=
  if d =? 0 then (0x800, 0x20000) else if d =? 1 then (0x20800, 800000) else if d =? 2 then (0x100000, 0x100000)
  else (0, 0).

#[export] Instance sd_geometry : Geometry sd_table.
Proof.
  refine {| extent := fun d => if d =? 1 then 100000 else if d =? 2 then 0x20000 else 0 |};
    unfold sd_table; [done|intros d..|intros d d'];
    repeat match goal with |- context[?x =? ?y] => destruct (Z.eqb_spec x y); subst end; cbn; intros; lia.
Defined.

Lemma cache_write_through_witness :
  exists b s', (let* b := bread sd_table 1 7 in upd_buf b (set_data (replicate BSIZE 5)) ;; bwrite sd_table b ;; brelse b ;; ret b)
                 (boot_state ∅) = Ret b s' /\ disk_block sd_table s' 1 7 = replicate BSIZE 5.
Proof.
  destruct (cache_write_through sd_table (boot_state ∅) 0 1 7 (replicate BSIZE 5)) as (b & s' & Hr & _ & Hd & _).
  - apply boot_cache. intros i x. by rewrite lookup_empty.
  - unfold valid_block. cbn. lia.
  - unfold NBUF. lia.
  - apply length_replicate.
  - by exists b, s'.
Defined.

Lemma recycles_last_released_witness :
  exists s b s' s'', bread sd_table 1 7 (boot_state ∅) = Ret b s /\ brelse b s = Ret tt s' /\ bget 1 8 s' = Ret b s''.
Proof.
  assert (card_ok ∅) as Hc by (intros i x; by rewrite lookup_empty).
  pose proof (cache_wf _ _ _ _ (boot_cache sd_table ∅ Hc)) as Hw.
  destruct (bread_spec sd_table (boot_state ∅) 1 7 Hw) as (b & x & x' & s & Hr & Hw' & Hb & Hbufs & _ & Hh & Hcl & Hd & _).
  - unfold valid_block. cbn. lia.
  - intros j y [-> _]%lookup_replicate. done.
  - rewrite (cache_pinned _ _ _ _ (boot_cache sd_table ∅ Hc)). unfold NBUF. lia.
  - apply lookup_replicate in Hb as [-> Hlt].
    destruct (recycles_last_released sd_table s b 1 7 (cur sd_table (boot_state ∅) 1 7) 1 8) as (s' & s'' & H1 & _ & H3);
      [done|exact Hh|by unfold disk_block in *; rewrite Hd; apply Hcl|done| |by exists s, b, s', s''].
    intros j y Hj. rewrite Hbufs in Hj. apply list_lookup_insert_Some in Hj as [(<- & <- & _)|[_ [-> _]%lookup_replicate]]; [|done].
    destruct Hh as [(f & Hb' & _) _]. rewrite Hbufs, list_lookup_insert_eq in Hb'; [by injection Hb' as ->|].
    cbn [bufs boot_state]. by rewrite length_replicate.
Defined.

End Bio.
