(* ===== verification/Log.v ===== *)
(** The write-ahead log of the V6 file system (kern/log.c), above the buffer
    cache of [Bio].

    [logs] is the array [log[NLOG]]; the log header is a record in memory and
    a little-endian [struct logheader] in the first block of the log area.
    The superblock facts [initlog] reads are arguments.  A process that has
    to wait for a commit ends with [Block] and starts the loop of its log
    again when woken; [wakeup] is recorded in [lwoken].  A store through an
    index outside [lh.block] ends with [Panic].

    [commit_crash_safe] is the theorem the log exists for: the card after any
    prefix of the sector writes of a commit, given to [recover_from_log] at
    the next boot, ends with all the blocks of the transaction or with none. *)

From stdpp Require Import base list gmap.
From Stdlib Require Import ZArith Lia Bool.
From S2P Require Import Prelude Bio.

Module Log.
Import Bio.

Definition NLOG : Z := 3.
Definition LOGSIZE : Z := 126.   (* MAXOPBLOCKS*3 *)
Definition LOGENABLED : Z := 1.

Record log : Type := mkLog {
  llock : bool;
  start : Z;
  size : Z;
  outstanding : Z;
  committing : bool;
  ldev : Z;
  lflag : Z;
  lh_n : Z;
  lh_block : list Z
}.

Record lstate : Type := mkL { bc : bstate; logs : list log; lwoken : list Z }.

Definition set_bc (b : bstate) (s : lstate) : lstate := mkL b (logs s) (lwoken s).
Definition bio {A} (m : M bstate A) : M lstate A := zoom bc set_bc m.

Definition get_log (i : Z) : M lstate log :=
  fun s => match logs s !! Z.to_nat i with Some l => Ret l s | None => Panic s end.
Definition upd_log (i : Z) (f : log -> log) : M lstate unit :=
  modify (fun s => mkL (bc s) (alter f (Z.to_nat i) (logs s)) (lwoken s)).
Definition wakeup_log (i : Z) : M lstate unit :=
  modify (fun s => mkL (bc s) (logs s) (lwoken s ++ [i])).

Definition set_lock (b : bool) (l : log) : log :=
  mkLog b (start l) (size l) (outstanding l) (committing l) (ldev l) (lflag l) (lh_n l) (lh_block l).
Definition set_outstanding (n : Z) (l : log) : log :=
  mkLog (llock l) (start l) (size l) n (committing l) (ldev l) (lflag l) (lh_n l) (lh_block l).
Definition set_committing (b : bool) (l : log) : log :=
  mkLog (llock l) (start l) (size l) (outstanding l) b (ldev l) (lflag l) (lh_n l) (lh_block l).
Definition set_lh (n : Z) (bl : list Z) (l : log) : log :=
  mkLog (llock l) (start l) (size l) (outstanding l) (committing l) (ldev l) (lflag l) n bl.

Definition acquire_log (i : Z) : M lstate unit :=
  let* l := get_log i in
  if llock l then block else upd_log i (set_lock true).
Definition release_log (i : Z) : M lstate unit :=
  let* l := get_log i in
  if llock l then upd_log i (set_lock false) else panic.

(** [dev >= NLOG || !(log[dev].flag & LOGENABLED)] *)
Definition log_off (dev : Z) : M lstate bool :=
  if NLOG <=? dev then ret true else
  let* l := get_log dev in ret (negb (truthy (Z.land (lflag l) LOGENABLED))).

(** [!log[i].flag & LOGENABLED] parses as [(!log[i].flag) & LOGENABLED]. *)
Definition log_unset (l : log) : bool := truthy (Z.land (b2z (lflag l =? 0)) LOGENABLED).

(** [struct logheader] in a block. *)
Definition lh_off (i : nat) : nat := (4 + 4 * i)%nat.

Definition encode_head (n : Z) (bl : list Z) (d : bytes) : bytes :=
  fold_left (fun d i => st 4 d (lh_off i) (default 0 (bl !! i))) (seq 0 (Z.to_nat n)) (st 4 d 0 n).

Definition head_n (d : bytes) : Z := s32 (ld 4 d 0).
Definition head_block (d : bytes) (i : nat) : Z := s32 (ld 4 d (lh_off i)).

Definition decode_blocks (d : bytes) (n : Z) (bl : list Z) : list Z :=
  fold_left (fun bl i => <[i := head_block d i]> bl) (seq 0 (Z.to_nat n)) bl.

Section Ops.
Context (sb : Z -> Z * Z).

Definition install_one (l : log) (tail : Z) : M bstate unit :=
  let* lbuf := bread sb (ldev l) (u32 (start l + tail + 1)) in
  let* dbuf := bread sb (ldev l) (u32 (default 0 (lh_block l !! Z.to_nat tail))) in
  let* x := get_buf lbuf in
  upd_buf dbuf (set_data (bdata x)) ;;
  bwrite sb dbuf ;;
  brelse lbuf ;;
  brelse dbuf.

Definition install_trans (dev : Z) : M lstate unit :=
  let* off := log_off dev in
  if off then ret tt else
  let* l := get_log dev in
  for_each (seqZ 0 (lh_n l)) (fun tail => bio (install_one l tail)).

Definition read_head (dev : Z) : M lstate unit :=
  let* off := log_off dev in
  if off then ret tt else
  let* l := get_log dev in
  let* b := bio (bread sb (ldev l) (u32 (start l))) in
  let* x := bio (get_buf b) in
  let n := head_n (bdata x) in
  if LOGSIZE <? n then panic else
  upd_log dev (fun l => set_lh n (decode_blocks (bdata x) n (lh_block l)) l) ;;
  bio (brelse b).

Definition write_head (dev : Z) : M lstate unit :=
  let* off := log_off dev in
  if off then ret tt else
  let* l := get_log dev in
  let* b := bio (bread sb (ldev l) (u32 (start l))) in
  let* x := bio (get_buf b) in
  bio (upd_buf b (set_data (encode_head (lh_n l) (lh_block l) (bdata x)))) ;;
  bio (bwrite sb b) ;;
  bio (brelse b).

Definition recover_from_log : M lstate unit :=
  for_each (seqZ 0 NLOG) (fun i =>
    read_head i ;;
    install_trans i ;;
    upd_log i (fun l => set_lh 0 (lh_block l) l) ;;
    write_head i).

(** [blocksize], [logstart] and [nlog] are those of the superblock of [dev]. *)
Definition initlog (blocksize logstart nlog dev : Z) : M lstate unit :=
  if blocksize <=? 4 * (LOGSIZE + 1) then panic else
  upd_log dev (fun l => mkLog false (s32 logstart) (s32 nlog) (outstanding l) (committing l) dev LOGENABLED
                              (lh_n l) (lh_block l)) ;;
  recover_from_log.

Definition write_log_one (l : log) (tail : Z) : M bstate unit :=
  let* to := bread sb (ldev l) (u32 (start l + tail + 1)) in
  let* from := bread sb (ldev l) (u32 (default 0 (lh_block l !! Z.to_nat tail))) in
  let* x := get_buf from in
  upd_buf to (set_data (bdata x)) ;;
  bwrite sb to ;;
  brelse from ;;
  brelse to.

Definition write_log (dev : Z) : M lstate unit :=
  let* off := log_off dev in
  if off then ret tt else
  let* l := get_log dev in
  for_each (seqZ 0 (lh_n l)) (fun tail => bio (write_log_one l tail)).

Definition commit (dev : Z) : M lstate unit :=
  let* off := log_off dev in
  if off then ret tt else
  let* l := get_log dev in
  when (0 <? lh_n l)
    (write_log dev ;;
     write_head dev ;;
     install_trans dev ;;
     upd_log dev (fun l => set_lh 0 (lh_block l) l) ;;
     write_head dev).

(** The loop of [begin_op] for log [i]; [sleep] releases the lock. *)
Definition begin_op_log (i : Z) : M lstate unit :=
  let* l := get_log i in
  if log_unset l then ret tt else
  acquire_log i ;;
  if committing l then release_log i ;; block
  else if LOGSIZE <? lh_n l + (outstanding l + 1) * MAXOPBLOCKS then release_log i ;; block
  else
    upd_log i (fun l => set_outstanding (outstanding l + 1) l) ;;
    release_log i.

Definition begin_op : M lstate unit := for_each (seqZ 0 NLOG) begin_op_log.

(** The first critical section of [end_op]; the result is [do_commit]. *)
Definition end_op_enter (i : Z) : M lstate bool :=
  acquire_log i ;;
  upd_log i (fun l => set_outstanding (outstanding l - 1) l) ;;
  let* l := get_log i in
  if committing l then panic else
  let do_commit := outstanding l =? 0 in
  (if do_commit then upd_log i (set_committing true) else wakeup_log i) ;;
  release_log i ;;
  ret do_commit.

(** The second critical section, after [commit]. *)
Definition end_op_leave (i : Z) : M lstate unit :=
  acquire_log i ;;
  upd_log i (set_committing false) ;;
  wakeup_log i ;;
  release_log i.

Definition end_op_log (i : Z) : M lstate unit :=
  let* l := get_log i in
  if log_unset l then ret tt else
  let* do_commit := end_op_enter i in
  when do_commit (commit i ;; end_op_leave i).

Definition end_op : M lstate unit := for_each (seqZ 0 NLOG) end_op_log.
End Ops.

(** The index the search loop of [log_write] stops at. *)
Fixpoint find_slot (bl : list Z) (blk : Z) (i : nat) : nat :=
  match bl with
  | [] => i
  | x :: bl' => if u32 x =? blk then i else find_slot bl' blk (S i)
  end.

Definition log_write (b : nat) : M lstate unit :=
  let* x := bio (get_buf b) in
  if NLOG <=? dev x then ret tt else
  let* l := get_log (dev x) in
  if log_unset l then ret tt else
  if (LOGSIZE <=? lh_n l) || (size l - 1 <=? lh_n l) then panic else
  if outstanding l <? 1 then panic else
  acquire_log (dev x) ;;
  let i := find_slot (take (Z.to_nat (lh_n l)) (lh_block l)) (blockno x) 0 in
  upd_log (dev x) (fun l => set_lh (lh_n l) (<[i := s32 (blockno x)]> (lh_block l)) l) ;;
  when (Z.of_nat i =? lh_n l) (upd_log (dev x) (fun l => set_lh (lh_n l + 1) (lh_block l) l)) ;;
  bio (upd_buf b (fun x => set_flags (Z.lor (flags x) B_DIRTY) x)) ;;
  release_log (dev x).

(** * Running cache operations from the log *)

Lemma bio_run {A} (m : M bstate A) s a t : m (bc s) = Ret a t -> bio m s = Ret a (set_bc t s).
Proof. intros H. unfold bio, zoom. by rewrite H. Qed.

Lemma for_each_bio {I} (l : list I) (f : I -> M bstate unit) s :
  for_each l (fun i => bio (f i)) s = bio (for_each l f) s.
Proof.
  revert s. induction l as [|i l IH]; intros s; cbn.
  - unfold bio, zoom, ret. by destruct s.
  - unfold bind, bio, zoom. destruct (f i (bc s)) as [a t|t|t|] eqn:E; done.
Qed.

(** * The header block *)

Section Header.
Context (bl : list Z) (n : Z) (d : bytes).
Context (Hn : 0 <= n <= LOGSIZE) (Hlen : length d = BSIZE).

Let part (m : nat) : bytes :=
  fold_left (fun d i => st 4 d (lh_off i) (default 0 (bl !! i))) (seq 0 m) (st 4 d 0 n).

Lemma part_S m : part (S m) = st 4 (part m) (lh_off m) (default 0 (bl !! m)).
Proof using. unfold part. by rewrite seq_S, fold_left_app. Qed.

Lemma part_spec m :
  (m <= 126)%nat -> length (part m) = BSIZE /\ ld 4 (part m) 0 = u32 n /\
  forall i, (i < m)%nat -> ld 4 (part m) (lh_off i) = u32 (default 0 (bl !! i)).
Proof using Hlen.
  induction m as [|m IH]; intros Hm.
  - unfold part. cbn [fold_left seq]. unfold BSIZE in *. rewrite length_st by lia. rewrite ld_st_same by lia. split_and!; [done|done|lia].
  - destruct IH as (IHl & IHn & IHb); [lia|]. rewrite part_S. unfold BSIZE, lh_off in *.
    rewrite length_st, ld_st_before by lia. split_and!; [done|done|].
    intros i Hi. destruct (decide (i = m)) as [->|]; [by rewrite ld_st_same by lia|].
    rewrite ld_st_before by lia. apply IHb. lia.
Qed.

Lemma length_encode_head : length (encode_head n bl d) = BSIZE.
Proof using Hn Hlen. apply part_spec. unfold LOGSIZE in Hn. lia. Qed.

Lemma head_n_encode : head_n (encode_head n bl d) = n.
Proof using Hn Hlen.
  unfold LOGSIZE in Hn. destruct (part_spec (Z.to_nat n) ltac:(lia)) as (_ & H & _).
  unfold head_n. change (encode_head n bl d) with (part (Z.to_nat n)). rewrite H.
  rewrite u32_id by lia. apply s32_id. lia.
Qed.

Lemma head_block_encode i e :
  (Z.of_nat i < n) -> bl !! i = Some e -> 0 <= e < 2 ^ 31 -> head_block (encode_head n bl d) i = e.
Proof using Hn Hlen.
  intros Hi He Hr. unfold LOGSIZE in Hn. destruct (part_spec (Z.to_nat n) ltac:(lia)) as (_ & _ & H).
  unfold head_block. change (encode_head n bl d) with (part (Z.to_nat n)). rewrite H by lia. rewrite He. cbn.
  rewrite u32_id by lia. apply s32_id. lia.
Qed.
End Header.

Lemma decode_blocks_spec d n bl :
  0 <= n <= Z.of_nat (length bl) ->
  length (decode_blocks d n bl) = length bl /\
  forall i, Z.of_nat i < n -> decode_blocks d n bl !! i = Some (head_block d i).
Proof.
  intros Hn. unfold decode_blocks.
  assert (forall m, (m <= length bl)%nat ->
    let r := fold_left (fun bl i => <[i := head_block d i]> bl) (seq 0 m) bl in
    length r = length bl /\ forall i, (i < m)%nat -> r !! i = Some (head_block d i)) as H.
  { induction m as [|m IH]; intros Hm; [split; [done|cbn; lia]|].
    destruct IH as [IHl IHb]; [lia|]. cbn zeta in *. rewrite seq_S, fold_left_app. cbn.
    rewrite length_insert. split; [done|]. intros i Hi. destruct (decide (i = m)) as [->|].
    - apply list_lookup_insert_eq. rewrite IHl. lia.
    - rewrite list_lookup_insert_ne by done. apply IHb. lia. }
  destruct (H (Z.to_nat n) ltac:(lia)) as [H1 H2]. split; [done|]. intros. apply H2. lia.
Qed.

(** The header lies in the first sector of its block. *)
Lemma take_read_block c S : card_ok c -> take 512 (read_block c S) = read_sector c S.
Proof.
  intros H. unfold read_block. change (seqZ 0 8) with [0; 1; 2; 3; 4; 5; 6; 7]. cbn -[take].
  rewrite Z.add_0_r. apply take_app_length'. by rewrite length_read_sector.
Qed.

Lemma head_n_sector c S : card_ok c -> head_n (read_block c S) = head_n (read_sector c S).
Proof. intros H. unfold head_n. rewrite <- take_read_block by done. by rewrite ld_take by lia. Qed.

Lemma head_block_sector c S i :
  card_ok c -> (i < 126)%nat -> head_block (read_block c S) i = head_block (read_sector c S) i.
Proof.
  intros H Hi. unfold head_block. rewrite <- take_read_block by done. by rewrite ld_take by (unfold lh_off; lia).
Qed.

Section Commit.
Context (sb : Z -> Z * Z) {geo : Geometry sb}.

Notation cache := (cache sb).
Notation held := (held sb).
Notation cur := (cur sb).
Notation disk_block := (disk_block sb).

(** One block was written through to the card. *)
Record wrote (s s' : bstate) (d n : Z) (data : bytes) : Prop := {
  wrote_disk : disk s' = apply_writes (disk s) (sector_writes (sector sb d n) data);
  wrote_writes : writes s' = writes s ++ sector_writes (sector sb d n) data;
  wrote_len : length data = BSIZE;
  wrote_cur : cur s' d n = data;
  wrote_other d' n' : valid_block sb d' n' -> (d', n') <> (d, n) -> cur s' d' n' = cur s d' n' }.

Lemma filter_out (b1 b2 : nat) (H : list nat) :
  (forall b, b ∈ H -> b = b1 \/ b = b2) -> filter (.≠ b1) (filter (.≠ b2) H) = [].
Proof.
  intros HH. destruct (filter _ _) as [|b l] eqn:E; [done|]. exfalso.
  assert (b ∈ filter (.≠ b1) (filter (.≠ b2) H)) as Hb by (rewrite E; left).
  apply list_elem_of_filter in Hb as [H1 Hb]. apply list_elem_of_filter in Hb as [H2 Hb].
  destruct (HH b Hb); auto.
Qed.

(** The tail the loops of [write_log] and [install_trans] share: copy the
    buffer [bs] to [bd], write it, release both. *)
Lemma copy_finish s H k bs bd d ns nd ds dd dirtys dirtyd :
  cache s H k -> (forall b, b ∈ H -> b = bd \/ b = bs) -> bs <> bd ->
  held s bs d ns ds dirtys -> held s bd d nd dd dirtyd -> ns <> nd ->
  (dirtys = false -> ds = disk_block s d ns) ->
  exists s', (let* x := get_buf bs in upd_buf bd (set_data (bdata x)) ;; bwrite sb bd ;; brelse bs ;; brelse bd) s = Ret tt s' /\
    cache s' [] (k - Nat.b2n (negb dirtys) - 1) /\ wrote s s' d nd ds.
Proof.
  intros Hc HH Hne Hs Hd Hn Hclean.
  destruct (held_lookup _ _ _ _ _ _ _ (cache_wf _ _ _ _ Hc) Hs) as (f & Hbs & _ & _ & Hlen & Hcs).
  destruct (set_data_spec sb s bd d nd _ _ ds (cache_wf _ _ _ _ Hc) Hd Hlen)
    as (s2 & x2 & Hr2 & Hwf2 & Hh2 & Hb2 & Hd2 & Hw2 & Hcs2 & Hcur2).
  pose proof (cache_insert _ _ _ _ _ _ _ _ _ _ _ _ _ Hc Hd Hwf2 Hb2 Hh2) as Hc2.
  pose proof (keeps_insert sb _ _ _ _ Hb2 _ _ _ _ _ Hne Hs) as Hs2.
  destruct (bwrite_spec sb s2 bd d nd _ _ Hwf2 Hh2)
    as (s3 & x3 & Hr3 & Hwf3 & Hh3 & Hb3 & Hd3 & Hw3 & Hds3 & Hdo3 & Hcur3).
  pose proof (cache_insert _ _ _ _ _ _ _ _ _ _ _ _ _ Hc2 Hh2 Hwf3 Hb3 Hh3) as Hc3.
  pose proof (keeps_insert sb _ _ _ _ Hb3 _ _ _ _ _ Hne Hs2) as Hs3.
  destruct (cache_brelse sb s3 _ _ bs d ns _ _ Hc3 Hs3) as (s4 & Hr4 & Hc4 & Hk4 & Hd4 & Hw4 & Hcur4).
  { intros E. rewrite Hdo3 by (apply Hs || congruence). unfold Bio.disk_block. rewrite Hd2. by apply Hclean. }
  pose proof (Hk4 _ _ _ _ _ (not_eq_sym Hne) Hh3) as Hh4.
  destruct (cache_brelse sb s4 _ _ bd d nd _ _ Hc4 Hh4) as (s5 & Hr5 & Hc5 & _ & Hd5 & Hw5 & Hcur5).
  { intros _. unfold Bio.disk_block in *. by rewrite Hd4. }
  exists s5. unfold bind, get_buf. rewrite Hbs. cbn [bdata]. rewrite Hr2, Hr3, Hr4, Hr5.
  split; [done|]. split; [by rewrite filter_out in Hc5|].
  pose proof (held_block _ _ _ _ _ _ _ Hd) as Hvd.
  split.
  - by rewrite Hd5, Hd4, Hd3, Hd2.
  - by rewrite Hw5, Hw4, Hw3, Hw2.
  - done.
  - by rewrite Hcur5, Hcur4, Hcur3.
  - intros d' n' Hv' Hne'. by rewrite Hcur5, Hcur4, Hcur3, Hcur2.
Qed.

(** Reading two different blocks. *)
Lemma bread2 s k d n1 n2 :
  cache s [] k -> (k + 2 <= NBUF)%nat -> valid_block sb d n1 -> valid_block sb d n2 -> n1 <> n2 ->
  exists b1 b2 dirty1 dirty2 s1 s2, bread sb d n1 s = Ret b1 s1 /\ bread sb d n2 s1 = Ret b2 s2 /\
    cache s2 [b2; b1] (k + Nat.b2n (negb dirty1) + Nat.b2n (negb dirty2)) /\ b1 <> b2 /\
    held s2 b1 d n1 (cur s d n1) dirty1 /\ held s2 b2 d n2 (cur s d n2) dirty2 /\
    (dirty1 = false -> cur s d n1 = disk_block s2 d n1) /\ (dirty2 = false -> cur s d n2 = disk_block s2 d n2) /\
    disk s2 = disk s /\ writes s2 = writes s /\ (forall d' n', cur s2 d' n' = cur s d' n').
Proof.
  intros Hc Hk Hv1 Hv2 Hne.
  destruct (cache_bread sb s [] k d n1 Hc Hv1 ltac:(lia)) as (b1 & dirty1 & s1 & Hr1 & Hc1 & _ & _ & Hh1 & Hcl1 & Hd1 & Hw1 & Hcur1).
  { set_solver. }
  destruct (cache_bread sb s1 _ _ d n2 Hc1 Hv2) as (b2 & dirty2 & s2 & Hr2 & Hc2 & Hnin & Hk2 & Hh2 & Hcl2 & Hd2 & Hw2 & Hcur2).
  { destruct dirty1; cbn; lia. }
  { intros b ->%list_elem_of_singleton. do 4 eexists. split; [exact Hh1|]. congruence. }
  assert (b1 <> b2) as Hbne by set_solver.
  exists b1, b2, dirty1, dirty2, s1, s2. unfold Bio.disk_block in *. rewrite Hcur1 in Hh2, Hcl2.
  split_and!; try done; try congruence.
  - apply Hk2; [done|exact Hh1].
  - rewrite Hd2, Hd1. done.
  - rewrite Hd2. done.
Qed.

Lemma wrote_from s s2 s' d n data :
  disk s2 = disk s -> writes s2 = writes s -> (forall d' n', cur s2 d' n' = cur s d' n') ->
  wrote s2 s' d n data -> wrote s s' d n data.
Proof. intros Hd Hw Hc [? ? ? ? Ho]. split; try congruence. intros. by rewrite Ho. Qed.

Lemma valid_u32 d n : valid_block sb d n -> u32 n = n.
Proof.
  intros H. unfold valid_block in H. assert ((sb d).1 + 8 * extent d <= 2 ^ 23) by (apply geo_end; lia).
  pose proof (geo_lba d). apply u32_id. lia.
Qed.

Lemma valid_s32 d n : valid_block sb d n -> s32 n = n.
Proof.
  intros H. unfold valid_block in H. assert ((sb d).1 + 8 * extent d <= 2 ^ 23) by (apply geo_end; lia).
  pose proof (geo_lba d). apply s32_id. lia.
Qed.

Lemma write_log_one_spec s k l t e :
  cache s [] k -> (k + 2 <= NBUF)%nat ->
  valid_block sb (ldev l) (start l + t + 1) -> lh_block l !! Z.to_nat t = Some e ->
  valid_block sb (ldev l) e -> e <> start l + t + 1 ->
  exists s' k', write_log_one sb l t s = Ret tt s' /\ cache s' [] k' /\ (k' <= k)%nat /\
    wrote s s' (ldev l) (start l + t + 1) (cur s (ldev l) e).
Proof.
  intros Hc Hk Hv1 He Hv2 Hne.
  destruct (bread2 s k _ _ _ Hc Hk Hv1 Hv2 (not_eq_sym Hne))
    as (b1 & b2 & dy1 & dy2 & s1 & s2 & Hr1 & Hr2 & Hc2 & Hbne & Hh1 & Hh2 & _ & Hcl2 & Hd & Hw & Hcur).
  destruct (copy_finish s2 _ _ b2 b1 _ _ _ _ _ _ _ Hc2 ltac:(set_solver) (not_eq_sym Hbne) Hh2 Hh1 Hne Hcl2)
    as (s' & Hr & Hc' & Hwr).
  exists s'. eexists. split.
  - unfold write_log_one, bind. rewrite He. cbn [default id]. rewrite !(valid_u32 (ldev l)) by done.
    rewrite Hr1, Hr2. exact Hr.
  - split; [exact Hc'|]. split; [destruct dy1, dy2; cbn; lia|]. by eapply wrote_from.
Qed.

Lemma install_one_spec s k l t e :
  cache s [] k -> (k + 2 <= NBUF)%nat ->
  valid_block sb (ldev l) (start l + t + 1) -> lh_block l !! Z.to_nat t = Some e ->
  valid_block sb (ldev l) e -> e <> start l + t + 1 ->
  exists s' k', install_one sb l t s = Ret tt s' /\ cache s' [] k' /\ (k' <= k)%nat /\
    wrote s s' (ldev l) e (cur s (ldev l) (start l + t + 1)).
Proof.
  intros Hc Hk Hv1 He Hv2 Hne.
  destruct (bread2 s k _ _ _ Hc Hk Hv1 Hv2 (not_eq_sym Hne))
    as (b1 & b2 & dy1 & dy2 & s1 & s2 & Hr1 & Hr2 & Hc2 & Hbne & Hh1 & Hh2 & Hcl1 & _ & Hd & Hw & Hcur).
  destruct (copy_finish s2 _ _ b1 b2 _ _ _ _ _ _ _ Hc2 ltac:(set_solver) Hbne Hh1 Hh2 (not_eq_sym Hne) Hcl1)
    as (s' & Hr & Hc' & Hwr).
  exists s'. eexists. split.
  - unfold install_one, bind. rewrite He. cbn [default id]. rewrite !(valid_u32 (ldev l)) by done.
    rewrite Hr1, Hr2. exact Hr.
  - split; [exact Hc'|]. split; [destruct dy1, dy2; cbn; lia|]. by eapply wrote_from.
Qed.

(** The sector writes of a sequence of block writes. *)
Definition wseq (d : Z) (l : list (Z * bytes)) : list (Z * bytes) :=
  l ≫= fun w => sector_writes (sector sb d w.1) w.2.

Lemma wseq_app d l l' : wseq d (l ++ l') = wseq d l ++ wseq d l'.
Proof. apply bind_app. Qed.

(** A loop of copies between disjoint sets of blocks. *)
Lemma run_copies d (dst src : Z -> Z) (f : Z -> M bstate unit) ops s k :
  (forall t s k, t ∈ ops -> cache s [] k -> (k + 2 <= NBUF)%nat ->
     exists s' k', f t s = Ret tt s' /\ cache s' [] k' /\ (k' <= k)%nat /\ wrote s s' d (dst t) (cur s d (src t))) ->
  NoDup (dst <$> ops) ->
  (forall t, t ∈ ops -> valid_block sb d (dst t) /\ valid_block sb d (src t)) ->
  (forall t t', t ∈ ops -> t' ∈ ops -> dst t <> src t') ->
  cache s [] k -> (k + 2 <= NBUF)%nat ->
  exists s' k', for_each ops f s = Ret tt s' /\ cache s' [] k' /\ (k' <= k)%nat /\
    let W := wseq d ((fun t => (dst t, cur s d (src t))) <$> ops) in
    disk s' = apply_writes (disk s) W /\ writes s' = writes s ++ W /\
    (forall t, t ∈ ops -> length (cur s d (src t)) = BSIZE /\ cur s' d (dst t) = cur s d (src t)) /\
    (forall d' n', valid_block sb d' n' -> (forall t, t ∈ ops -> (d', n') <> (d, dst t)) -> cur s' d' n' = cur s d' n').
Proof.
  revert s k. induction ops as [|t ops IH]; intros s k Hf Hnd Hv Hds Hc Hk.
  - exists s, k. cbn. rewrite app_nil_r. split_and!; try done. set_solver.
  - destruct (Hf t s k ltac:(left) Hc Hk) as (s1 & k1 & Hr1 & Hc1 & Hk1 & Hw1).
    apply NoDup_cons in Hnd as [Hnin Hnd].
    destruct (IH s1 k1) as (s' & k' & Hr & Hc' & Hk' & Hd & Hw & Hcs & Hco); clear IH.
    + intros. apply Hf; [by right|done..].
    + done.
    + intros. apply Hv. by right.
    + intros. apply Hds; by right.
    + done.
    + lia.
    + assert (forall t', t' ∈ ops -> cur s1 d (src t') = cur s d (src t')) as Hsrc.
      { intros t' Ht'. apply (wrote_other _ _ _ _ _ Hw1); [apply Hv; by right|].
        intros [= E]. apply (Hds t t'); [by left|by right|done]. }
      assert (((fun t => (dst t, cur s1 d (src t))) <$> ops) = ((fun t => (dst t, cur s d (src t))) <$> ops)) as HW.
      { apply list_fmap_ext. intros i x Hx%list_elem_of_lookup_2. by rewrite Hsrc. }
      exists s', k'. cbn zeta. rewrite HW in Hd, Hw. rewrite fmap_cons.
      change (wseq d ((dst t, cur s d (src t)) :: ?l)) with
        (sector_writes (sector sb d (dst t)) (cur s d (src t)) ++ wseq d l).
      rewrite apply_writes_app, app_assoc, <- (wrote_disk _ _ _ _ _ Hw1), <- (wrote_writes _ _ _ _ _ Hw1).
      split_and!; try done; [cbn; unfold bind; by rewrite Hr1|lia| |].
      * intros t' [->|Ht']%elem_of_cons; [split; [by apply Hw1|]|by rewrite <- Hsrc by done; apply Hcs].
        rewrite Hco; [apply Hw1|apply Hv; by left|].
        intros t' Ht' [= E]. apply Hnin. apply list_elem_of_fmap. by exists t'.
      * intros d' n' Hv' Hall. rewrite Hco; [|done|intros; apply Hall; by right].
        apply (wrote_other _ _ _ _ _ Hw1); [done|]. apply Hall. by left.
Qed.


(** * Whole operations *)

(** An enabled log whose area [start .. start+size-1] is in the partition. *)
Record log_good (dev : Z) (l : log) : Prop := {
  good_idx : 0 <= dev < NLOG;
  good_dev : ldev l = dev;
  good_flag : lflag l = LOGENABLED;
  good_start : 0 <= start l;
  good_area : start l + size l <= extent dev;
  good_n : 0 <= lh_n l <= LOGSIZE;
  good_fits : lh_n l < size l;
  good_len : length (lh_block l) = Z.to_nat LOGSIZE }.

(** A block of the device outside the log area. *)
Definition home (l : log) (n : Z) : Prop :=
  valid_block sb (ldev l) n /\ (n < start l \/ start l + size l <= n).

Definition blk (l : log) (t : Z) : Z := default 0 (lh_block l !! Z.to_nat t).

Definition blocks_good (l : log) : Prop :=
  (forall t, 0 <= t < lh_n l -> home l (blk l t)) /\
  (forall t t', 0 <= t < lh_n l -> 0 <= t' < lh_n l -> blk l t = blk l t' -> t = t').

Lemma blk_lookup dev l t : log_good dev l -> 0 <= t < lh_n l -> lh_block l !! Z.to_nat t = Some (blk l t).
Proof.
  intros Hg Ht. pose proof (good_n _ _ Hg). pose proof (good_len _ _ Hg). unfold blk.
  destruct (lh_block l !! Z.to_nat t) eqn:E; [done|]. apply lookup_ge_None in E. lia.
Qed.

Lemma get_buf_run s b x : bufs s !! b = Some x -> get_buf b s = Ret x s.
Proof. intros H. unfold get_buf. by rewrite H. Qed.

Lemma bio_step {A} (m : M bstate A) s t0 a t : m t0 = Ret a t -> bio m (set_bc t0 s) = Ret a (set_bc t s).
Proof. intros H. unfold bio, zoom. cbn. by rewrite H. Qed.

Lemma log_on s dev l :
  logs s !! Z.to_nat dev = Some l -> log_good dev l -> log_off dev s = Ret false s.
Proof.
  intros Hl Hg. unfold log_off. pose proof (good_idx _ _ Hg).
  destruct (Z.leb_spec NLOG dev); [lia|]. unfold bind, get_log. rewrite Hl.
  by rewrite (good_flag _ _ Hg).
Qed.

Lemma area_valid dev l t : log_good dev l -> -1 <= t < lh_n l -> valid_block sb dev (start l + t + 1).
Proof. intros [] Ht. unfold valid_block. lia. Qed.

Lemma write_head_run s dev l k :
  logs s !! Z.to_nat dev = Some l -> log_good dev l -> cache (bc s) [] k -> (k < NBUF)%nat ->
  exists t k', write_head sb dev s = Ret tt (set_bc t s) /\ cache t [] k' /\ (k' <= k)%nat /\
    wrote (bc s) t dev (start l) (encode_head (lh_n l) (lh_block l) (cur (bc s) dev (start l))).
Proof.
  intros Hl Hg Hc Hk.
  assert (valid_block sb dev (start l)) as Hv.
  { replace (start l) with (start l + -1 + 1) by lia. apply (area_valid dev l); [done|]. pose proof (good_n _ _ Hg). lia. }
  destruct (cache_bread sb (bc s) [] k dev (start l) Hc Hv Hk) as (b & dirty & s1 & Hr1 & Hc1 & _ & _ & Hh1 & _ & Hd1 & Hw1 & Hcur1).
  { set_solver. }
  destruct (held_lookup _ _ _ _ _ _ _ (cache_wf _ _ _ _ Hc1) Hh1) as (f & Hb & _ & _ & Hlen & _).
  pose proof (length_encode_head (lh_block l) (lh_n l) _ (good_n _ _ Hg) Hlen) as Hlen'.
  destruct (set_data_spec sb s1 b dev (start l) _ _ _ (cache_wf _ _ _ _ Hc1) Hh1 Hlen')
    as (s2 & x2 & Hr2 & Hwf2 & Hh2 & Hb2 & Hd2 & Hw2 & Hcs2 & Hcur2).
  pose proof (cache_insert _ _ _ _ _ _ _ _ _ _ _ _ _ Hc1 Hh1 Hwf2 Hb2 Hh2) as Hc2.
  destruct (bwrite_spec sb s2 b dev (start l) _ _ Hwf2 Hh2)
    as (s3 & x3 & Hr3 & Hwf3 & Hh3 & Hb3 & Hd3 & Hw3 & Hds3 & Hdo3 & Hcur3).
  pose proof (cache_insert _ _ _ _ _ _ _ _ _ _ _ _ _ Hc2 Hh2 Hwf3 Hb3 Hh3) as Hc3.
  destruct (cache_brelse sb s3 _ _ b dev (start l) _ _ Hc3 Hh3 ltac:(done)) as (s4 & Hr4 & Hc4 & _ & Hd4 & Hw4 & Hcur4).
  exists s4. eexists. split; [|split; [rewrite filter_cons_False in Hc4 by (intros E; by apply E); exact Hc4|split]].
  - unfold write_head. unfold bind at 1. rewrite (log_on _ _ _ Hl Hg). unfold bind, get_log. rewrite Hl.
    rewrite (good_dev _ _ Hg), (valid_u32 dev) by done.
    rewrite (bio_run _ _ _ _ Hr1), (bio_step _ _ _ _ _ (get_buf_run s1 _ _ Hb)). cbn [bdata].
    rewrite (bio_step _ _ _ _ _ Hr2), (bio_step _ _ _ _ _ Hr3), (bio_step _ _ _ _ _ Hr4). done.
  - destruct dirty; cbn; lia.
  - split.
    + by rewrite Hd4, Hd3, Hd2, Hd1.
    + by rewrite Hw4, Hw3, Hw2, Hw1.
    + done.
    + by rewrite Hcur4, Hcur3.
    + intros d' n' Hv' Hne. by rewrite Hcur4, Hcur3, Hcur2, Hcur1.
Qed.

Lemma logged_cases l n :
  (exists i, 0 <= i < lh_n l /\ n = blk l i) \/ (forall i, 0 <= i < lh_n l -> n <> blk l i).
Proof.
  destruct (decide (n ∈ blk l <$> seqZ 0 (lh_n l))) as [(i & -> & Hi%elem_of_seqZ)%list_elem_of_fmap|Hno].
  - left. exists i. split; [lia|done].
  - right. intros i Hi ->. apply Hno, list_elem_of_fmap_2, elem_of_seqZ. lia.
Qed.

Lemma home_not_area dev l t t' :
  log_good dev l -> blocks_good l -> 0 <= t < lh_n l -> -1 <= t' < lh_n l -> blk l t <> start l + t' + 1.
Proof. intros [] [Hh _] Ht Ht' E. destruct (Hh t Ht) as [_ Hor]. lia. Qed.

Lemma write_log_run s dev l k :
  logs s !! Z.to_nat dev = Some l -> log_good dev l -> blocks_good l ->
  cache (bc s) [] k -> (k + 2 <= NBUF)%nat ->
  exists t k', write_log sb dev s = Ret tt (set_bc t s) /\ cache t [] k' /\ (k' <= k)%nat /\
    let W := wseq dev ((fun i => (start l + i + 1, cur (bc s) dev (blk l i))) <$> seqZ 0 (lh_n l)) in
    disk t = apply_writes (disk (bc s)) W /\ writes t = writes (bc s) ++ W /\
    (forall i, 0 <= i < lh_n l -> length (cur (bc s) dev (blk l i)) = BSIZE /\
       cur t dev (start l + i + 1) = cur (bc s) dev (blk l i)) /\
    (forall n, valid_block sb dev n -> (forall i, 0 <= i < lh_n l -> n <> start l + i + 1) ->
       cur t dev n = cur (bc s) dev n).
Proof.
  intros Hl Hg Hb Hc Hk. pose proof (good_dev _ _ Hg) as Hd.
  destruct (run_copies dev (fun i => start l + i + 1) (blk l) (write_log_one sb l) (seqZ 0 (lh_n l)) (bc s) k)
    as (t & k' & Hr & Hc' & Hk' & Hdisk & Hwr & Hcs & Hco); [| | | |done..|].
  - intros i s0 k0 Hi%elem_of_seqZ Hc0 Hk0. rewrite <- Hd.
    apply write_log_one_spec; try done; rewrite ?Hd.
    + apply (area_valid dev); [done|lia].
    + apply (blk_lookup dev); [done|lia].
    + destruct (proj1 Hb i ltac:(lia)) as [Hv _]. by rewrite Hd in Hv.
    + apply (home_not_area dev); [done..|lia|lia].
  - apply NoDup_fmap_2; [intros ? ? ?; lia|apply NoDup_seqZ].
  - intros i Hi%elem_of_seqZ. split; [apply (area_valid dev); [done|lia]|].
    destruct (proj1 Hb i ltac:(lia)) as [Hv _]. by rewrite Hd in Hv.
  - intros i i' Hi%elem_of_seqZ Hi'%elem_of_seqZ E. apply (home_not_area dev l i' i); [done..|lia|lia|done].
  - exists t, k'. split.
    { unfold write_log. unfold bind at 1. rewrite (log_on _ _ _ Hl Hg). unfold bind, get_log. rewrite Hl.
      rewrite for_each_bio. by apply bio_run. }
    cbn zeta. split_and!; try done.
    + intros i Hi. apply Hcs, elem_of_seqZ. lia.
    + intros n Hv Hn. apply Hco; [done|]. intros i Hi%elem_of_seqZ [= E]. apply (Hn i); [lia|done].
Qed.

Lemma install_trans_run s dev l k :
  logs s !! Z.to_nat dev = Some l -> log_good dev l -> blocks_good l ->
  cache (bc s) [] k -> (k + 2 <= NBUF)%nat ->
  exists t k', install_trans sb dev s = Ret tt (set_bc t s) /\ cache t [] k' /\ (k' <= k)%nat /\
    let W := wseq dev ((fun i => (blk l i, cur (bc s) dev (start l + i + 1))) <$> seqZ 0 (lh_n l)) in
    disk t = apply_writes (disk (bc s)) W /\ writes t = writes (bc s) ++ W /\
    (forall i, 0 <= i < lh_n l -> length (cur (bc s) dev (start l + i + 1)) = BSIZE /\
       cur t dev (blk l i) = cur (bc s) dev (start l + i + 1)) /\
    (forall n, valid_block sb dev n -> (forall i, 0 <= i < lh_n l -> n <> blk l i) ->
       cur t dev n = cur (bc s) dev n).
Proof.
  intros Hl Hg Hb Hc Hk. pose proof (good_dev _ _ Hg) as Hd.
  destruct (run_copies dev (blk l) (fun i => start l + i + 1) (install_one sb l) (seqZ 0 (lh_n l)) (bc s) k)
    as (t & k' & Hr & Hc' & Hk' & Hdisk & Hwr & Hcs & Hco); [| | | |done..|].
  - intros i s0 k0 Hi%elem_of_seqZ Hc0 Hk0. rewrite <- Hd.
    apply install_one_spec; try done; rewrite ?Hd.
    + apply (area_valid dev); [done|lia].
    + apply (blk_lookup dev); [done|lia].
    + destruct (proj1 Hb i ltac:(lia)) as [Hv _]. by rewrite Hd in Hv.
    + apply (home_not_area dev); [done..|lia|lia].
  - apply NoDup_fmap_2_strong; [|apply NoDup_seqZ].
    intros i i' Hi%elem_of_seqZ Hi'%elem_of_seqZ E. apply (proj2 Hb); [lia..|done].
  - intros i Hi%elem_of_seqZ. split; [|apply (area_valid dev); [done|lia]].
    destruct (proj1 Hb i ltac:(lia)) as [Hv _]. by rewrite Hd in Hv.
  - intros i i' Hi%elem_of_seqZ Hi'%elem_of_seqZ E. apply (home_not_area dev l i i'); [done..|lia|lia|done].
  - exists t, k'. split.
    { unfold install_trans. unfold bind at 1. rewrite (log_on _ _ _ Hl Hg). unfold bind, get_log. rewrite Hl.
      rewrite for_each_bio. by apply bio_run. }
    cbn zeta. split_and!; try done.
    + intros i Hi. apply Hcs, elem_of_seqZ. lia.
    + intros n Hv Hn. apply Hco; [done|]. intros i Hi%elem_of_seqZ [= E]. apply (Hn i); [lia|done].
Qed.

(** The block writes of a commit, in order. *)
Definition commit_writes (s : bstate) (dev : Z) (l : log) : list (Z * bytes) :=
  let head1 := encode_head (lh_n l) (lh_block l) (cur s dev (start l)) in
  ((fun i => (start l + i + 1, cur s dev (blk l i))) <$> seqZ 0 (lh_n l)) ++
  [(start l, head1)] ++
  ((fun i => (blk l i, cur s dev (blk l i))) <$> seqZ 0 (lh_n l)) ++
  [(start l, encode_head 0 (lh_block l) head1)].

Lemma alter_log (f : log -> log) (ls : list log) i l : ls !! i = Some l -> alter f i ls = <[i := f l]> ls.
Proof.
  intros H. apply list_eq. intros j. destruct (decide (j = i)) as [->|Hj].
  - rewrite list_lookup_alter_eq, list_lookup_insert_eq by by eapply lookup_lt_Some. by rewrite H.
  - by rewrite list_lookup_alter_ne, list_lookup_insert_ne by done.
Qed.

Lemma commit_run s dev l k :
  logs s !! Z.to_nat dev = Some l -> log_good dev l -> blocks_good l -> 0 < lh_n l ->
  cache (bc s) [] k -> (k + 2 <= NBUF)%nat ->
  exists t k', commit sb dev s = Ret tt (mkL t (<[Z.to_nat dev := set_lh 0 (lh_block l) l]> (logs s)) (lwoken s)) /\
    cache t [] k' /\
    disk t = apply_writes (disk (bc s)) (wseq dev (commit_writes (bc s) dev l)) /\
    writes t = writes (bc s) ++ wseq dev (commit_writes (bc s) dev l) /\
    length (cur (bc s) dev (start l)) = BSIZE /\
    (forall i, 0 <= i < lh_n l -> length (cur (bc s) dev (blk l i)) = BSIZE) /\
    (forall n, home l n -> cur t dev n = cur (bc s) dev n).
Proof.
  intros Hl Hg Hb Hn Hc Hk. pose proof (good_dev _ _ Hg) as Hd.
  destruct (write_log_run s dev l k Hl Hg Hb Hc Hk) as (t1 & k1 & Hr1 & Hc1 & Hk1 & Hd1 & Hw1 & Hcs1 & Hco1).
  destruct (write_head_run (set_bc t1 s) dev l k1) as (t2 & k2 & Hr2 & Hc2 & Hk2 & Hwr2); [done..|lia|].
  destruct (install_trans_run (set_bc t2 (set_bc t1 s)) dev l k2) as (t3 & k3 & Hr3 & Hc3 & Hk3 & Hd3 & Hw3 & Hcs3 & Hco3);
    [done..|lia|].
  set (l' := set_lh 0 (lh_block l) l).
  set (s3 := mkL t3 (<[Z.to_nat dev := l']> (logs s)) (lwoken s)).
  assert (log_good dev l') as Hg'. { destruct Hg. split; cbn; try done; unfold LOGSIZE; lia. }
  assert (Z.to_nat dev < length (logs s))%nat as Hlt by by eapply lookup_lt_Some.
  destruct (write_head_run s3 dev l' k3) as (t4 & k4 & Hr4 & Hc4 & Hk4 & Hwr4);
    [by apply list_lookup_insert_eq|done|done|lia|].
  cbn [bc set_bc s3] in *. cbn [start lh_n lh_block set_lh l'] in Hwr4.
  assert (valid_block sb dev (start l)) as Hvs.
  { replace (start l) with (start l + -1 + 1) by lia. apply (area_valid dev l); [done|]. lia. }
  assert (cur t1 dev (start l) = cur (bc s) dev (start l)) as Hst1 by (apply Hco1; [done|lia]).
  assert (forall i, 0 <= i < lh_n l -> cur t2 dev (start l + i + 1) = cur (bc s) dev (blk l i)) as Hlog2.
  { intros i Hi. rewrite (wrote_other _ _ _ _ _ Hwr2); [by apply Hcs1|apply (area_valid dev); [done|lia]|].
    intros [= E]. lia. }
  assert (cur t3 dev (start l) = encode_head (lh_n l) (lh_block l) (cur (bc s) dev (start l))) as Hst3.
  { rewrite Hco3; [rewrite (wrote_cur _ _ _ _ _ Hwr2); by rewrite Hst1|done|].
    intros i Hi E. apply (home_not_area dev l i (-1)); [done..|lia|lia]. }
  assert (((fun i => (blk l i, cur t2 dev (start l + i + 1))) <$> seqZ 0 (lh_n l)) =
          ((fun i => (blk l i, cur (bc s) dev (blk l i))) <$> seqZ 0 (lh_n l))) as HW3.
  { apply list_fmap_ext. intros i x Hx%list_elem_of_lookup_2%elem_of_seqZ. by rewrite Hlog2 by lia. }
  rewrite HW3 in Hd3, Hw3.
  exists t4, k4. split; [|split; [done|]].
  - unfold commit. unfold bind at 1. rewrite (log_on _ _ _ Hl Hg). unfold bind at 1, get_log. rewrite Hl.
    unfold when. destruct (Z.ltb_spec 0 (lh_n l)); [|lia]. unfold bind. rewrite Hr1, Hr2, Hr3.
    unfold upd_log, modify. cbn. rewrite (alter_log _ _ _ _ Hl). exact Hr4.
  - unfold commit_writes. cbn zeta. rewrite !wseq_app.
    change (wseq dev [?w]) with (sector_writes (sector sb dev w.1) w.2 ++ []). cbn [fst snd]. rewrite !app_nil_r.
    rewrite !apply_writes_app, !app_assoc.
    rewrite (wrote_disk _ _ _ _ _ Hwr4), (wrote_writes _ _ _ _ _ Hwr4), Hst3, Hd3, Hw3.
    rewrite (wrote_disk _ _ _ _ _ Hwr2), (wrote_writes _ _ _ _ _ Hwr2), Hst1, Hd1, Hw1.
    split; [done|]. split; [done|]. split; [|split].
    + eapply length_cur, (cache_wf _ _ _ _ Hc).
    + intros i Hi. by apply Hcs1.
    + intros n [Hv Hor]. rewrite Hd in Hv.
      rewrite (wrote_other _ _ _ _ _ Hwr4) by (done || (intros [= E]; destruct Hg; lia)).
      destruct (logged_cases l n) as [(i & Hi & ->)|Hno].
      * destruct (Hcs3 i Hi) as [_ ->]. by apply Hlog2.
      * rewrite Hco3 by done.
        rewrite (wrote_other _ _ _ _ _ Hwr2) by (done || (intros [= E]; destruct Hg; lia)).
        apply Hco1; [done|]. intros i Hi. destruct Hg. lia.
Qed.

(** * What the card holds after a sequence of block writes *)

Definition over (x : Z) (l : list (Z * bytes)) (v : bytes) : bytes :=
  fold_left (fun v w => if decide (w.1 = x) then w.2 else v) l v.

Lemma over_none x l v : (forall w, w ∈ l -> w.1 <> x) -> over x l v = v.
Proof.
  revert v. induction l as [|w l IH]; intros v H; [done|]. cbn. rewrite decide_False by (apply H; by left).
  apply IH. intros. apply H. by right.
Qed.

Lemma over_app x l l' v : over x (l ++ l') v = over x l' (over x l v).
Proof. apply fold_left_app. Qed.

Lemma over_fmap (f : Z -> Z) (g : Z -> bytes) ops i v :
  NoDup (f <$> ops) -> i ∈ ops -> over (f i) ((fun j => (f j, g j)) <$> ops) v = g i.
Proof.
  revert v. induction ops as [|j ops IH]; intros v Hnd Hi; [by apply elem_of_nil in Hi|].
  apply NoDup_cons in Hnd as [Hnin Hnd]. cbn [fmap list_fmap over fold_left fst snd].
  apply elem_of_cons in Hi as [->|Hi].
  - rewrite decide_True by done. apply over_none. intros w (j' & -> & Hj')%list_elem_of_fmap. cbn. intros E.
    apply Hnin. rewrite <- E. by apply list_elem_of_fmap_2.
  - by apply IH.
Qed.

Lemma read_wseq D d l x :
  valid_block sb d x -> (forall w, w ∈ l -> valid_block sb d w.1 /\ length w.2 = BSIZE) ->
  read_block (apply_writes D (wseq d l)) (sector sb d x) = over x l (read_block D (sector sb d x)).
Proof.
  intros Hx. revert D. induction l as [|w l IH]; intros D Hl; [done|].
  change (wseq d (w :: l)) with (sector_writes (sector sb d w.1) w.2 ++ wseq d l).
  rewrite apply_writes_app, IH by (intros; apply Hl; by right).
  cbn [over fold_left]. unfold over. f_equal. destruct (Hl w ltac:(left)) as [Hw Hlen].
  case_decide as E.
  - rewrite <- E. by apply read_write_block.
  - apply read_block_frame. intros w' Hin%elem_of_sector_writes.
    destruct (sector_disjoint sb d x d w.1 Hx Hw); [congruence|lia|lia].
Qed.

Lemma elem_of_wseq d l w :
  w ∈ wseq d l -> exists v, v ∈ l /\ sector sb d v.1 <= w.1 < sector sb d v.1 + 8.
Proof. intros (v & Hw & Hv)%list_elem_of_bind. exists v. split; [done|]. by eapply elem_of_sector_writes. Qed.

Lemma wseq_ok d l :
  (forall w, w ∈ l -> length w.2 = BSIZE) -> Forall (fun w : Z * bytes => length w.2 = 512%nat) (wseq d l).
Proof.
  intros H. apply Forall_forall. intros w (v & Hw & Hv)%list_elem_of_bind.
  pose proof (sector_writes_ok (sector sb d v.1) v.2 (H v Hv)) as Hf. rewrite Forall_forall in Hf. by apply Hf.
Qed.

(** * Recovery *)

Lemma read_head_run s dev l k :
  logs s !! Z.to_nat dev = Some l -> log_good dev l -> cache (bc s) [] k -> (k < NBUF)%nat ->
  let hd := cur (bc s) dev (start l) in
  head_n hd <= LOGSIZE ->
  exists t k', read_head sb dev s =
      Ret tt (mkL t (<[Z.to_nat dev := set_lh (head_n hd) (decode_blocks hd (head_n hd) (lh_block l)) l]> (logs s)) (lwoken s)) /\
    cache t [] k' /\ (k' <= k)%nat /\ disk t = disk (bc s) /\
    (forall n, valid_block sb dev n -> cur t dev n = cur (bc s) dev n).
Proof.
  intros Hl Hg Hc Hk hd Hn.
  assert (valid_block sb dev (start l)) as Hv.
  { replace (start l) with (start l + -1 + 1) by lia. apply (area_valid dev l); [done|]. pose proof (good_n _ _ Hg). lia. }
  destruct (cache_bread sb (bc s) [] k dev (start l) Hc Hv Hk) as (b & dirty & s1 & Hr1 & Hc1 & _ & _ & Hh1 & Hcl1 & Hd1 & Hw1 & Hcur1).
  { set_solver. }
  destruct (held_lookup _ _ _ _ _ _ _ (cache_wf _ _ _ _ Hc1) Hh1) as (f & Hb & _).
  destruct (cache_brelse sb s1 _ _ b dev (start l) _ _ Hc1 Hh1) as (s2 & Hr2 & Hc2 & _ & Hd2 & Hw2 & Hcur2).
  { unfold Bio.disk_block in *. by rewrite Hd1. }
  exists s2. eexists. split; [|split; [rewrite filter_cons_False in Hc2 by (intros E; by apply E); exact Hc2|split; [destruct dirty; cbn; lia|]]].
  - unfold read_head. unfold bind at 1. rewrite (log_on _ _ _ Hl Hg). unfold bind, get_log. rewrite Hl.
    rewrite (good_dev _ _ Hg), (valid_u32 dev) by done.
    rewrite (bio_run _ _ _ _ Hr1), (bio_step _ _ _ _ _ (get_buf_run s1 _ _ Hb)). cbn [bdata]. cbn zeta. fold hd.
    destruct (Z.ltb_spec LOGSIZE (head_n hd)); [lia|]. unfold upd_log, modify. cbn [bc set_bc logs lwoken].
    rewrite (alter_log _ _ _ _ Hl). unfold bio, zoom. cbn [bc]. by rewrite Hr2.
  - split; [by rewrite Hd2, Hd1|]. intros n Hvn. by rewrite Hcur2, Hcur1.
Qed.

(** The body of [recover_from_log] for an enabled log. *)
Lemma recover_one s dev l k :
  logs s !! Z.to_nat dev = Some l -> log_good dev l -> cache (bc s) [] k -> (k + 2 <= NBUF)%nat ->
  let hd := cur (bc s) dev (start l) in
  let l1 := set_lh (head_n hd) (decode_blocks hd (head_n hd) (lh_block l)) l in
  log_good dev l1 -> blocks_good l1 ->
  exists t k', (read_head sb dev ;; install_trans sb dev ;; upd_log dev (fun l => set_lh 0 (lh_block l) l) ;; write_head sb dev) s =
      Ret tt (mkL t (<[Z.to_nat dev := set_lh 0 (lh_block l1) l1]> (logs s)) (lwoken s)) /\
    cache t [] k' /\ (k' <= k)%nat /\ length hd = BSIZE /\
    (forall i, 0 <= i < lh_n l1 -> length (cur (bc s) dev (start l + i + 1)) = BSIZE) /\
    disk t = apply_writes (disk (bc s)) (wseq dev
      (((fun i => (blk l1 i, cur (bc s) dev (start l + i + 1))) <$> seqZ 0 (lh_n l1)) ++ [(start l, encode_head 0 (lh_block l1) hd)])).
Proof.
  intros Hl Hg Hc Hk hd l1 Hg1 Hb1.
  destruct (read_head_run s dev l k Hl Hg Hc ltac:(lia)) as (t1 & k1 & Hr1 & Hc1 & Hk1 & Hd1 & Hcur1).
  { apply (good_n _ _ Hg1). }
  fold hd l1 in Hr1. set (s1 := mkL t1 _ _) in Hr1.
  assert (Z.to_nat dev < length (logs s))%nat as Hlt by by eapply lookup_lt_Some.
  assert (logs s1 !! Z.to_nat dev = Some l1) as Hl1 by by apply list_lookup_insert_eq.
  destruct (install_trans_run s1 dev l1 k1 Hl1 Hg1 Hb1 Hc1 ltac:(lia)) as (t2 & k2 & Hr2 & Hc2 & Hk2 & Hd2 & Hw2 & Hcs2 & Hco2).
  set (l2 := set_lh 0 (lh_block l1) l1).
  set (s2 := mkL t2 (<[Z.to_nat dev := l2]> (logs s)) (lwoken s)).
  assert (log_good dev l2) as Hg2.
  { destruct Hg1. split; cbn; try done; unfold LOGSIZE; cbn in *; lia. }
  destruct (write_head_run s2 dev l2 k2) as (t3 & k3 & Hr3 & Hc3 & Hk3 & Hwr3);
    [by apply list_lookup_insert_eq|done|done|lia|].
  cbn [bc set_bc s1 s2] in *.
  assert (valid_block sb dev (start l)) as Hvs.
  { replace (start l) with (start l + -1 + 1) by lia. apply (area_valid dev l); [done|]. pose proof (good_n _ _ Hg). lia. }
  assert (forall i, 0 <= i < lh_n l1 -> cur t1 dev (start l + i + 1) = cur (bc s) dev (start l + i + 1)) as Hlog.
  { intros i Hi. apply Hcur1. apply (area_valid dev l1); [done|lia]. }
  assert (cur t2 dev (start l) = hd) as Hst2.
  { rewrite Hco2; [by apply Hcur1|done|]. intros i Hi E. apply (home_not_area dev l1 i (-1)); [done..|lia|].
    cbn [start set_lh l1]. lia. }
  exists t3, k3. split; [|split; [done|split; [lia|split; [eapply length_cur, (cache_wf _ _ _ _ Hc)|split]]]].
  - unfold bind. rewrite Hr1, Hr2. unfold upd_log, modify. cbn [bc set_bc logs lwoken s1].
    rewrite (alter_log _ _ _ _ Hl1). cbn [logs s1]. rewrite list_insert_insert_eq. exact Hr3.
  - intros i Hi. eapply length_cur, (cache_wf _ _ _ _ Hc).
  - rewrite (wrote_disk _ _ _ _ _ Hwr3). cbn [start lh_n lh_block set_lh l2]. fold l1. cbn [start set_lh l1] in *.
    rewrite Hst2, Hd2, wseq_app, apply_writes_app, Hd1.
    change (wseq dev [?w]) with (sector_writes (sector sb dev w.1) w.2 ++ []). cbn [fst snd]. rewrite app_nil_r.
    do 3 f_equal. apply list_fmap_ext. intros i x Hx%list_elem_of_lookup_2%elem_of_seqZ. by rewrite Hlog by lia.
Qed.

(** The logs in zeroed memory; V6 is the file system of partition 1. *)
Definition zero_log : log := mkLog false 0 0 0 false 0 0 0 (replicate (Z.to_nat LOGSIZE) 0).
Definition boot_logs : list log := [zero_log; zero_log; zero_log].
Definition boot (D : gmap Z bytes) : lstate := mkL (boot_state D) boot_logs [].

Lemma recover_off s i :
  0 <= i < NLOG -> logs s !! Z.to_nat i = Some zero_log ->
  (read_head sb i ;; install_trans sb i ;; upd_log i (fun l => set_lh 0 (lh_block l) l) ;; write_head sb i) s = Ret tt s.
Proof.
  intros Hi Hl.
  assert (log_off i s = Ret true s) as Ho.
  { unfold log_off. destruct (Z.leb_spec NLOG i); [lia|]. unfold bind, get_log. by rewrite Hl. }
  assert (upd_log i (fun l => set_lh 0 (lh_block l) l) s = Ret tt s) as Hu.
  { unfold upd_log, modify. rewrite (alter_log _ _ _ _ Hl). change (set_lh 0 (lh_block zero_log) zero_log) with zero_log.
    rewrite list_insert_id by done. by destruct s. }
  unfold read_head, install_trans, write_head, bind, ret. by rewrite !Ho, Hu, Ho.
Qed.

(** The header and the log blocks found on a card at boot. *)
Record recoverable (D : gmap Z bytes) (st sz : Z) : Prop := {
  rec_card : card_ok D;
  rec_area : 0 <= st /\ 0 < sz /\ st + sz <= extent 1;
  rec_n : 0 <= head_n (read_sector D (sector sb 1 st)) <= LOGSIZE /\ head_n (read_sector D (sector sb 1 st)) < sz;
  rec_home i : 0 <= i < head_n (read_sector D (sector sb 1 st)) ->
    let e := head_block (read_sector D (sector sb 1 st)) (Z.to_nat i) in
    valid_block sb 1 e /\ (e < st \/ st + sz <= e);
  rec_inj i j : 0 <= i < head_n (read_sector D (sector sb 1 st)) -> 0 <= j < head_n (read_sector D (sector sb 1 st)) ->
    head_block (read_sector D (sector sb 1 st)) (Z.to_nat i) = head_block (read_sector D (sector sb 1 st)) (Z.to_nat j) -> i = j }.

Lemma recovery_run D st sz :
  recoverable D st sz ->
  let hd := read_sector D (sector sb 1 st) in
  exists t k ls, initlog sb 4096 st sz 1 (boot D) = Ret tt (mkL t ls []) /\ cache t [] k /\
    forall x, valid_block sb 1 x -> x <> st ->
      disk_block t 1 x =
      over x ((fun i => (head_block hd (Z.to_nat i), read_block D (sector sb 1 (st + i + 1)))) <$> seqZ 0 (head_n hd))
        (read_block D (sector sb 1 x)).
Proof.
  intros [Hcard (Hst & Hsz & Hend) [Hn Hns] Hhome Hinj] hd. fold hd in Hn, Hns, Hhome, Hinj.
  assert (valid_block sb 1 st) as Hvst by (unfold valid_block; lia).
  assert (s32 st = st) as Es by by apply (valid_s32 1).
  assert (s32 sz = sz) as Ez.
  { apply s32_id. assert ((sb 1).1 + 8 * extent 1 <= 2 ^ 23) by (apply geo_end; lia). pose proof (geo_lba 1). lia. }
  set (l := mkLog false st sz 0 false 1 LOGENABLED 0 (replicate (Z.to_nat LOGSIZE) 0)).
  set (s1 := mkL (boot_state D) [zero_log; l; zero_log] []).
  assert (log_good 1 l) as Hg.
  { split; cbn; try done; try lia; unfold LOGSIZE, NLOG; try lia. }
  set (hb := cur (boot_state D) 1 st).
  assert (hb = read_block D (sector sb 1 st)) as Ehb by apply boot_cur.
  assert (head_n hb = head_n hd) as Ehn by (rewrite Ehb; by apply head_n_sector).
  set (l1 := set_lh (head_n hb) (decode_blocks hb (head_n hb) (lh_block l)) l).
  destruct (decode_blocks_spec hb (head_n hb) (lh_block l)) as [Hdl Hdb].
  { rewrite Ehn. cbn [lh_block l]. rewrite length_replicate. lia. }
  assert (forall i, 0 <= i < head_n hd -> blk l1 i = head_block hd (Z.to_nat i)) as Hblk.
  { intros i Hi. unfold blk. cbn [lh_block set_lh l1]. rewrite Hdb by lia. cbn. rewrite Ehb.
    apply head_block_sector; [done|]. unfold LOGSIZE in Hn. lia. }
  assert (log_good 1 l1) as Hg1.
  { split; cbn [ldev lflag start size lh_n lh_block set_lh l1 l]; try done; try lia; by rewrite Hdl. }
  assert (blocks_good l1) as Hb1.
  { split; cbn [lh_n set_lh l1]; rewrite Ehn.
    - intros i Hi. rewrite Hblk by done. apply (Hhome i Hi).
    - intros i j Hi Hj. rewrite !Hblk by done. by apply Hinj. }
  destruct (recover_one s1 1 l 0) as (t & k & Hr & Hc & Hk & Hlen & Hlens & Hdisk);
    [done|done|by apply boot_cache|unfold NBUF; lia|done|done|].
  change (cur (bc s1) 1 (start l)) with hb in Hr, Hlen, Hlens, Hdisk. change (set_lh (head_n hb) (decode_blocks hb (head_n hb) (lh_block l)) l) with l1 in Hr, Hlens, Hdisk.
  exists t, k. eexists. split; [|split; [exact Hc|]].
  - unfold initlog. change (4096 <=? 4 * (LOGSIZE + 1)) with false. cbn iota. unfold bind at 1, upd_log, modify. cbn.
    rewrite Es, Ez. change (mkL (boot_state D) _ []) with s1. unfold recover_from_log.
    change (seqZ 0 NLOG) with [0; 1; 2]. cbn [for_each].
    unfold bind at 1. rewrite recover_off; [|unfold NLOG; lia|done].
    unfold bind at 1. rewrite Hr. unfold bind at 1. rewrite recover_off; [|unfold NLOG; lia|done]. reflexivity.
  - intros x Hvx Hne. unfold Bio.disk_block. rewrite Hdisk. cbn [bc s1 disk boot_state]. rewrite read_wseq; [|done|].
    + rewrite over_app. rewrite (over_none x [_]); [|intros w Hw%list_elem_of_singleton; subst w; cbn; congruence].
      f_equal. cbn [lh_n set_lh l1]. rewrite Ehn. apply list_fmap_ext.
      intros i y Hy%list_elem_of_lookup_2%elem_of_seqZ. by rewrite Hblk by lia.
    + intros w [(i & -> & Hi%elem_of_seqZ)%list_elem_of_fmap|Hw%list_elem_of_singleton]%elem_of_app; [|subst w]; cbn [fst snd].
      * split; [apply (proj1 Hb1); lia|apply Hlens; lia].
      * split; [done|]. apply length_encode_head; [unfold LOGSIZE; lia|done].
Qed.

(** * Crashes *)

Lemma sector_writes_cons n d :
  length d = BSIZE ->
  exists rest, sector_writes n d = (n, take 512 d) :: rest /\
    forall w, w ∈ rest -> n < w.1 < n + 8 /\ length w.2 = 512%nat.
Proof.
  intros Hlen. pose proof (sector_writes_ok n d Hlen) as Hok. unfold sector_writes in *.
  change (seqZ 0 8) with (0 :: [1; 2; 3; 4; 5; 6; 7]) in *. rewrite fmap_cons in *.
  rewrite Z.add_0_r in *. eexists. split; [done|]. intros w Hw. split.
  - apply list_elem_of_fmap in Hw as (i & -> & Hi). cbn [fst]. set_unfold in Hi. lia.
  - rewrite Forall_forall in Hok. apply Hok. by right.
Qed.

Section Crash.
Context (s : lstate) (l : log).
Context (Hg : log_good 1 l) (Hb : blocks_good l).

Let hs : Z := sector sb 1 (start l).

(** The contents of a block once the transaction is installed. *)
Definition after (x : Z) : bytes :=
  if decide (x ∈ blk l <$> seqZ 0 (lh_n l)) then cur (bc s) 1 x else disk_block (bc s) 1 x.

(** The card has the old contents and an empty log. *)
Record crash_old (D : gmap Z bytes) : Prop := {
  old_card : card_ok D;
  old_head : head_n (read_sector D hs) = 0;
  old_home x : home l x -> read_block D (sector sb 1 x) = disk_block (bc s) 1 x }.

(** The log has the transaction; blocks of the transaction may be half written. *)
Record crash_logged (D : gmap Z bytes) : Prop := {
  logged_card : card_ok D;
  logged_n : head_n (read_sector D hs) = lh_n l;
  logged_block i : 0 <= i < lh_n l -> head_block (read_sector D hs) (Z.to_nat i) = blk l i;
  logged_data i : 0 <= i < lh_n l -> read_block D (sector sb 1 (start l + i + 1)) = cur (bc s) 1 (blk l i);
  logged_home x : home l x -> (forall i, 0 <= i < lh_n l -> x <> blk l i) ->
    read_block D (sector sb 1 x) = disk_block (bc s) 1 x }.

(** The card has the new contents and an empty log. *)
Record crash_done (D : gmap Z bytes) : Prop := {
  done_card : card_ok D;
  done_head : head_n (read_sector D hs) = 0;
  done_home x : home l x -> read_block D (sector sb 1 x) = after x }.

(** Same header sector, and same blocks outside [B] and the header block. *)
Record agree (B : Z -> Prop) (D D' : gmap Z bytes) : Prop := {
  agree_card : card_ok D';
  agree_head : read_sector D' hs = read_sector D hs;
  agree_block x : valid_block sb 1 x -> x <> start l -> ~ B x ->
    read_block D' (sector sb 1 x) = read_block D (sector sb 1 x) }.

Lemma agree_writes B D p :
  card_ok D -> (forall w, w ∈ p -> length w.2 = 512%nat) ->
  (forall w, w ∈ p -> w.1 <> hs /\ exists b, valid_block sb 1 b /\ (B b \/ b = start l) /\
     sector sb 1 b <= w.1 < sector sb 1 b + 8) ->
  agree B D (apply_writes D p).
Proof using.
  intros Hc Hlen Hp. split.
  - apply apply_writes_ok; [done|by apply Forall_forall].
  - apply apply_writes_frame. intros w Hw. by apply Hp.
  - intros x Hx Hne HB. apply read_block_frame. intros w Hw Hin.
    destruct (Hp w Hw) as (_ & b & Hvb & HBb & Hr).
    assert ((1, x) <> (1, b)) as Hxb.
    { intros [= ->]. destruct HBb as [HBb|HBb]; [by apply HB|by apply Hne]. }
    destruct (sector_disjoint sb 1 x 1 b Hx Hvb Hxb); lia.
Qed.

Lemma start_valid : valid_block sb 1 (start l).
Proof using Hg.
  replace (start l) with (start l + -1 + 1) by lia. apply (area_valid 1 l); [done|]. pose proof (good_n _ _ Hg). lia.
Qed.

Lemma home_valid x : home l x -> valid_block sb 1 x /\ x <> start l /\ forall i, 0 <= i < lh_n l -> x <> start l + i + 1.
Proof using Hg. intros [Hv Hor]. rewrite (good_dev _ _ Hg) in Hv. destruct Hg. split_and!; [done|lia|lia]. Qed.

Lemma crash_old_agree D D' :
  agree (fun x => exists i, 0 <= i < lh_n l /\ x = start l + i + 1) D D' -> crash_old D -> crash_old D'.
Proof using Hg.
  intros [Hc Hh Hbk] [_ Ho Hx]. split; [done|by rewrite Hh|]. intros x Hxh.
  destruct (home_valid x Hxh) as (Hv & Hne & Hno). rewrite Hbk; [by apply Hx|done..|].
  intros (i & Hi & ->). by apply (Hno i).
Qed.

Lemma crash_logged_agree D D' :
  agree (fun x => exists i, 0 <= i < lh_n l /\ x = blk l i) D D' -> crash_logged D -> crash_logged D'.
Proof using Hg Hb.
  intros [Hc Hh Hbk] [_ Hn Hbl Hd Hx]. split; [done|by rewrite Hh|by rewrite Hh|..].
  - intros i Hi. rewrite Hbk; [by apply Hd|apply (area_valid 1); [done|lia]|lia|].
    intros (j & Hj & E). apply (home_not_area 1 l j i); [done..|lia|done].
  - intros x Hxh Hno. destruct (home_valid x Hxh) as (Hv & Hne & _). rewrite Hbk; [by apply Hx|done..|].
    intros (i & Hi & ->). by apply (Hno i).
Qed.

Lemma crash_done_agree D D' : agree (fun _ => False) D D' -> crash_done D -> crash_done D'.
Proof using Hg.
  intros [Hc Hh Hbk] [_ Ho Hx]. split; [done|by rewrite Hh|]. intros x Hxh.
  destruct (home_valid x Hxh) as (Hv & Hne & _). rewrite Hbk; [by apply Hx|done|done|by intros []].
Qed.

(** Writing the first sector of the header block switches the state. *)
Lemma agree_first D H :
  card_ok D -> length H = BSIZE ->
  let D' := apply_write D (hs, take 512 H) in
  card_ok D' /\ read_sector D' hs = take 512 H /\
  forall x, valid_block sb 1 x -> x <> start l -> read_block D' (sector sb 1 x) = read_block D (sector sb 1 x).
Proof using Hg.
  intros Hc Hlen. cbn zeta. split_and!.
  - apply map_Forall_insert_2; [|done]. cbn. rewrite length_take, Hlen. unfold BSIZE. lia.
  - unfold apply_write. rewrite read_sector_insert. by rewrite decide_True.
  - intros x Hv Hne. apply (read_block_frame D [(hs, take 512 H)]).
    intros w Hw%list_elem_of_singleton. subst w. cbn [fst]. intros Hin.
    destruct (sector_disjoint sb 1 x 1 (start l) Hv start_valid); [congruence|unfold hs in *; lia|unfold hs in *; lia].
Qed.

(** The state of the system at the commit. *)
Context (Hlens : forall i, 0 <= i < lh_n l -> length (cur (bc s) 1 (blk l i)) = BSIZE).
Context (Hlenh : length (cur (bc s) 1 (start l)) = BSIZE).
Context (Hcard : card_ok (disk (bc s))).
Context (Hempty : head_n (disk_block (bc s) 1 (start l)) = 0).

Let D0 : gmap Z bytes := disk (bc s).
Let W1 := (fun i => (start l + i + 1, cur (bc s) 1 (blk l i))) <$> seqZ 0 (lh_n l).
Let head1 := encode_head (lh_n l) (lh_block l) (cur (bc s) 1 (start l)).
Let W3 := (fun i => (blk l i, cur (bc s) 1 (blk l i))) <$> seqZ 0 (lh_n l).
Let head0 := encode_head 0 (lh_block l) head1.

Lemma head1_len : length head1 = BSIZE.
Proof using Hg Hb Hlens Hlenh Hcard Hempty. by apply length_encode_head; [apply (good_n _ _ Hg)|]. Qed.

Lemma head0_len : length head0 = BSIZE.
Proof using Hg Hb Hlens Hlenh Hcard Hempty. apply length_encode_head; [unfold LOGSIZE; lia|apply head1_len]. Qed.

Lemma W1_ok w : w ∈ W1 -> length w.2 = BSIZE /\ valid_block sb 1 w.1 /\ exists i, 0 <= i < lh_n l /\ w.1 = start l + i + 1.
Proof using Hg Hb Hlens Hlenh Hcard Hempty.
  intros (i & -> & Hi%elem_of_seqZ)%list_elem_of_fmap. cbn [fst snd].
  split_and!; [apply Hlens; lia|apply (area_valid 1); [done|lia]|exists i; split; [lia|done]].
Qed.

Lemma W3_ok w : w ∈ W3 -> length w.2 = BSIZE /\ valid_block sb 1 w.1 /\ exists i, 0 <= i < lh_n l /\ w.1 = blk l i.
Proof using Hg Hb Hlens Hlenh Hcard Hempty.
  intros (i & -> & Hi%elem_of_seqZ)%list_elem_of_fmap. cbn [fst snd].
  split_and!; [apply Hlens; lia| |exists i; split; [lia|done]].
  apply (home_valid (blk l i)), (proj1 Hb). lia.
Qed.

Lemma not_header x w : valid_block sb 1 x -> x <> start l -> sector sb 1 x <= w < sector sb 1 x + 8 -> w <> hs.
Proof using Hg Hb Hlens Hlenh Hcard Hempty.
  intros Hv Hne Hw ->. destruct (sector_disjoint sb 1 x 1 (start l) Hv start_valid); [congruence|unfold hs in *; lia..].
Qed.

(** While the log blocks are written. *)
Lemma phase1 p : (forall w, w ∈ p -> w ∈ wseq 1 W1) -> crash_old (apply_writes D0 p).
Proof using Hg Hb Hlens Hlenh Hcard Hempty.
  intros Hp. eapply crash_old_agree.
  - apply agree_writes; [exact Hcard|..].
    + intros w Hw. pose proof (wseq_ok 1 W1 (fun w Hw => proj1 (W1_ok w Hw))) as Hf.
      rewrite Forall_forall in Hf. by apply Hf, Hp.
    + intros w Hw. destruct (elem_of_wseq 1 W1 w (Hp w Hw)) as (v & Hv & Hr).
      destruct (W1_ok v Hv) as (_ & Hvv & i & Hi & Ei). split;
        [|exists v.1; split; [exact Hvv|split; [left; by exists i|exact Hr]]].
      eapply not_header; [exact Hvv|lia|exact Hr].
  - split; [exact Hcard| |].
    + unfold hs. by rewrite <- head_n_sector.
    + done.
Qed.

(** Once the header is on the card. *)
Lemma phase2 p :
  (forall w, w ∈ p -> hs < w.1 < hs + 8 /\ length w.2 = 512%nat) ->
  crash_logged (apply_writes (apply_write (apply_writes D0 (wseq 1 W1)) (hs, take 512 head1)) p).
Proof using Hg Hb Hlens Hlenh Hcard Hempty.
  intros Hp. pose proof (phase1 (wseq 1 W1) (fun w H => H)) as Hold.
  destruct (agree_first _ head1 (old_card _ Hold) head1_len) as (Hc1 & Hh1 & Hb1).
  eapply crash_logged_agree.
  { apply agree_writes; [exact Hc1|intros w Hw; by apply Hp|].
    intros w Hw. destruct (Hp w Hw) as [Hr _]. split; [lia|]. exists (start l).
    split_and!; [apply start_valid|by right|unfold hs in *; lia|unfold hs in *; lia]. }
  pose proof (good_n _ _ Hg) as Hn.
  split; [exact Hc1|..].
  - rewrite Hh1. unfold head_n. rewrite ld_take by lia. by apply head_n_encode.
  - intros i Hi. rewrite Hh1. unfold head_block. rewrite ld_take by (unfold lh_off, LOGSIZE in *; lia).
    apply (head_block_encode (lh_block l) (lh_n l) _ Hn Hlenh); [lia|by apply (blk_lookup 1)|].
    destruct (home_valid _ (proj1 Hb i Hi)) as (Hv & _). pose proof (valid_s32 1 _ Hv) as Hs. unfold valid_block in Hv.
    assert ((sb 1).1 + 8 * extent 1 <= 2 ^ 23) by (apply geo_end; lia). pose proof (geo_lba 1). lia.
  - intros i Hi. rewrite Hb1; [|apply (area_valid 1); [done|lia]|lia].
    rewrite read_wseq; [|apply (area_valid 1); [done|lia]|intros w Hw; destruct (W1_ok w Hw) as (? & ? & _); done].
    apply (over_fmap (fun i => start l + i + 1) (fun i => cur (bc s) 1 (blk l i))); [|apply elem_of_seqZ; lia].
    apply NoDup_fmap_2; [intros ? ? ?; lia|apply NoDup_seqZ].
  - intros x Hx Hno. destruct (home_valid x Hx) as (Hv & Hne & _). rewrite Hb1 by done. by apply (old_home _ Hold).
Qed.

Let D2 := apply_writes D0 (wseq 1 W1 ++ sector_writes hs head1).

Lemma D2_logged : crash_logged D2.
Proof using Hg Hb Hlens Hlenh Hcard Hempty.
  unfold D2. rewrite apply_writes_app. destruct (sector_writes_cons hs head1 head1_len) as (rest & -> & Hrest).
  by apply phase2.
Qed.

(** While the home blocks are written. *)
Lemma phase3 p : (forall w, w ∈ p -> w ∈ wseq 1 W3) -> crash_logged (apply_writes D2 p).
Proof using Hg Hb Hlens Hlenh Hcard Hempty.
  intros Hp. eapply crash_logged_agree; [|apply D2_logged].
  apply agree_writes; [apply D2_logged|..].
  - intros w Hw. pose proof (wseq_ok 1 W3 (fun w Hw => proj1 (W3_ok w Hw))) as Hf.
    rewrite Forall_forall in Hf. by apply Hf, Hp.
  - intros w Hw. destruct (elem_of_wseq 1 W3 w (Hp w Hw)) as (v & Hv & Hr).
    destruct (W3_ok v Hv) as (_ & Hvv & i & Hi & Ei). split;
        [|exists v.1; split; [exact Hvv|split; [left; by exists i|exact Hr]]].
    eapply not_header; [exact Hvv| |exact Hr]. rewrite Ei. apply (home_valid _ (proj1 Hb i Hi)).
Qed.

(** Once the header is erased. *)
Lemma phase4 p :
  (forall w, w ∈ p -> hs < w.1 < hs + 8 /\ length w.2 = 512%nat) ->
  crash_done (apply_writes (apply_write (apply_writes D2 (wseq 1 W3)) (hs, take 512 head0)) p).
Proof using Hg Hb Hlens Hlenh Hcard Hempty.
  intros Hp. pose proof (phase3 (wseq 1 W3) (fun w H => H)) as Hlog.
  destruct (agree_first _ head0 (logged_card _ Hlog) head0_len) as (Hc1 & Hh1 & Hb1).
  eapply crash_done_agree.
  { apply agree_writes; [exact Hc1|intros w Hw; by apply Hp|].
    intros w Hw. destruct (Hp w Hw) as [Hr _]. split; [lia|]. exists (start l).
    split_and!; [apply start_valid|by right|unfold hs in *; lia|unfold hs in *; lia]. }
  split; [exact Hc1|..].
  - rewrite Hh1. unfold head_n. rewrite ld_take by lia.
    apply head_n_encode; [unfold LOGSIZE; lia|apply head1_len].
  - intros x Hx. destruct (home_valid x Hx) as (Hv & Hne & _). rewrite Hb1 by done. unfold after.
    destruct (logged_cases l x) as [(i & Hi & ->)|Hno].
    + rewrite decide_True by (apply list_elem_of_fmap_2, elem_of_seqZ; lia).
      rewrite read_wseq; [|done|intros w Hw; destruct (W3_ok w Hw) as (? & ? & _); done].
      apply (over_fmap (blk l) (fun i => cur (bc s) 1 (blk l i))); [|apply elem_of_seqZ; lia].
      apply NoDup_fmap_2_strong; [|apply NoDup_seqZ].
      intros j j' Hj%elem_of_seqZ Hj'%elem_of_seqZ E. apply (proj2 Hb); [lia..|done].
    + rewrite decide_False; [by apply (logged_home _ Hlog)|].
      intros (i & -> & Hi%elem_of_seqZ)%list_elem_of_fmap. apply (Hno i); [lia|done].
Qed.

Lemma take_in {A} k (p : list A) w : w ∈ take k p -> w ∈ p.
Proof using. intros H. rewrite <- (take_drop k p). apply elem_of_app. by left. Qed.

(** Whatever prefix of the commit's sector writes reached the card. *)
Lemma crash_cases k :
  let D := apply_writes D0 (take k (wseq 1 (commit_writes (bc s) 1 l))) in
  crash_old D \/ crash_logged D \/ crash_done D.
Proof using Hg Hb Hlens Hlenh Hcard Hempty.
  assert (wseq 1 (commit_writes (bc s) 1 l) =
    (wseq 1 W1 ++ sector_writes hs head1) ++ (wseq 1 W3 ++ sector_writes hs head0)) as ->.
  { unfold commit_writes. cbn zeta. rewrite !wseq_app.
    change (wseq 1 [?w]) with (sector_writes (sector sb 1 w.1) w.2 ++ []). cbn [fst snd]. rewrite !app_nil_r.
    by rewrite <- !app_assoc. }
  destruct (sector_writes_cons hs head1 head1_len) as (rest1 & E1 & Hrest1).
  destruct (sector_writes_cons hs head0 head0_len) as (rest0 & E0 & Hrest0).
  cbn zeta. rewrite take_app. destruct (decide (k < length (wseq 1 W1 ++ sector_writes hs head1))%nat) as [Hk|Hk].
  - replace (k - _)%nat with 0%nat by lia. rewrite app_nil_r, take_app, apply_writes_app, E1.
    destruct (k - length (wseq 1 W1))%nat as [|k'] eqn:Ek.
    + left. cbn [apply_writes fold_left take]. apply phase1. intros w. apply take_in.
    + right; left. rewrite (take_ge (wseq 1 W1)) by lia. apply phase2. intros w Hw. by apply Hrest1, (take_in k').
  - rewrite (take_ge (_ ++ _)) by lia. rewrite apply_writes_app. change (apply_writes D0 _) with D2.
    generalize (k - length (wseq 1 W1 ++ sector_writes hs head1))%nat. intros j.
    rewrite take_app, apply_writes_app, E0. destruct (j - length (wseq 1 W3))%nat as [|k'] eqn:Ek.
    + right; left. cbn [apply_writes fold_left take]. apply phase3. intros w. apply take_in.
    + right; right. rewrite (take_ge (wseq 1 W3)) by lia. apply phase4. intros w Hw. by apply Hrest0, (take_in k').
Qed.
Lemma commit_done : crash_done (apply_writes D0 (wseq 1 (commit_writes (bc s) 1 l))).
Proof using Hg Hb Hlens Hlenh Hcard Hempty.
  assert (wseq 1 (commit_writes (bc s) 1 l) =
    (wseq 1 W1 ++ sector_writes hs head1) ++ (wseq 1 W3 ++ sector_writes hs head0)) as ->.
  { unfold commit_writes. cbn zeta. rewrite !wseq_app.
    change (wseq 1 [?w]) with (sector_writes (sector sb 1 w.1) w.2 ++ []). cbn [fst snd]. rewrite !app_nil_r.
    by rewrite <- !app_assoc. }
  destruct (sector_writes_cons hs head0 head0_len) as (rest0 & E0 & Hrest0).
  rewrite apply_writes_app, apply_writes_app, E0. by apply phase4.
Qed.

(** Recovery from each kind of card. *)
Lemma recover_empty D :
  card_ok D -> head_n (read_sector D hs) = 0 ->
  exists r, initlog sb 4096 (start l) (size l) 1 (boot D) = Ret tt r /\
    forall x, home l x -> disk_block (bc r) 1 x = read_block D (sector sb 1 x).
Proof using Hg Hb Hlens Hlenh Hcard Hempty.
  intros Hc Hh. destruct (recovery_run D (start l) (size l)) as (t & k & ls & Hr & _ & Hx).
  - split; [done|destruct Hg; lia|..]; fold hs; rewrite Hh; [|intros; lia..].
    unfold LOGSIZE. destruct Hg. lia.
  - exists (mkL t ls []). split; [done|]. intros x Hxh. destruct (home_valid x Hxh) as (Hv & Hne & _).
    cbn [bc]. rewrite Hx by done. fold hs. rewrite Hh. done.
Qed.

Lemma recover_logged D :
  crash_logged D ->
  exists r, initlog sb 4096 (start l) (size l) 1 (boot D) = Ret tt r /\
    forall x, home l x -> disk_block (bc r) 1 x = after x.
Proof using Hg Hb Hlens Hlenh Hcard Hempty.
  intros [Hc Hn Hbl Hd Hx]. destruct (recovery_run D (start l) (size l)) as (t & k & ls & Hr & _ & Hres).
  - split; [done|destruct Hg; lia|..]; fold hs; rewrite Hn.
    + split; [apply (good_n _ _ Hg)|apply (good_fits _ _ Hg)].
    + intros i Hi. cbn zeta. rewrite Hbl by done. destruct (proj1 Hb i Hi) as [Hv Hor].
      split; [|done]. by rewrite (good_dev _ _ Hg) in Hv.
    + intros i j Hi Hj. rewrite !Hbl by done. by apply (proj2 Hb).
  - exists (mkL t ls []). split; [done|]. intros x Hxh. destruct (home_valid x Hxh) as (Hv & Hne & _).
    cbn [bc]. rewrite Hres by done. fold hs. rewrite Hn.
    assert (((fun i => (head_block (read_sector D hs) (Z.to_nat i), read_block D (sector sb 1 (start l + i + 1)))) <$> seqZ 0 (lh_n l)) = W3) as ->.
    { apply list_fmap_ext. intros i y Hy%list_elem_of_lookup_2%elem_of_seqZ. by rewrite Hbl, Hd by lia. }
    unfold after. destruct (logged_cases l x) as [(i & Hi & ->)|Hno].
    + rewrite decide_True by (apply list_elem_of_fmap_2, elem_of_seqZ; lia).
      apply (over_fmap (blk l) (fun i => cur (bc s) 1 (blk l i))); [|apply elem_of_seqZ; lia].
      apply NoDup_fmap_2_strong; [|apply NoDup_seqZ].
      intros j j' Hj%elem_of_seqZ Hj'%elem_of_seqZ E. apply (proj2 Hb); [lia..|done].
    + rewrite decide_False.
      * rewrite over_none; [by apply Hx|]. intros w (i & -> & Hi%elem_of_seqZ)%list_elem_of_fmap. cbn. intros E.
        apply (Hno i); [lia|done].
      * intros (i & -> & Hi%elem_of_seqZ)%list_elem_of_fmap. apply (Hno i); [lia|done].
Qed.
End Crash.

(** C1: a transaction is atomic with respect to crashes.  [commit] of the V6
    log returns, with every block of the transaction on the card, every other
    block as it was and the log empty.  And if the machine stops after any
    number of the sector writes [commit] makes, in the middle of a block
    included, [initlog] at the next boot returns and leaves the card with
    either every block of the transaction as before it or every block as
    after it. *)
Theorem commit_crash_safe s l k :
  logs s !! 1%nat = Some l -> log_good 1 l -> blocks_good l -> 0 < lh_n l ->
  cache (bc s) [] k -> (k + 2 <= NBUF)%nat -> head_n (disk_block (bc s) 1 (start l)) = 0 ->
  exists t ws, commit sb 1 s = Ret tt t /\
    writes (bc t) = writes (bc s) ++ ws /\ disk (bc t) = apply_writes (disk (bc s)) ws /\
    (forall x, home l x -> disk_block (bc t) 1 x = after s l x) /\
    head_n (disk_block (bc t) 1 (start l)) = 0 /\
    forall j, exists r, initlog sb 4096 (start l) (size l) 1 (boot (apply_writes (disk (bc s)) (take j ws))) = Ret tt r /\
      ((forall x, home l x -> disk_block (bc r) 1 x = disk_block (bc s) 1 x) \/
       (forall x, home l x -> disk_block (bc r) 1 x = after s l x)).
Proof.
  intros Hl Hg Hb Hn Hc Hk He. pose proof (wf_card _ _ (cache_wf _ _ _ _ Hc)) as Hcard.
  destruct (commit_run s 1 l k Hl Hg Hb Hn Hc Hk) as (t & k' & Hr & Hc' & Hd & Hw & Hlh & Hls & Hcur).
  pose proof (commit_done s l Hg Hb Hls Hlh Hcard He) as Hdone.
  exists (mkL t (<[Z.to_nat 1 := set_lh 0 (lh_block l) l]> (logs s)) (lwoken s)), (wseq 1 (commit_writes (bc s) 1 l)).
  cbn [bc]. split; [done|]. split; [done|]. split; [done|]. split; [|split].
  - intros x Hx. unfold Bio.disk_block. rewrite Hd. by apply (done_home _ _ _ Hdone).
  - unfold Bio.disk_block. rewrite Hd. rewrite head_n_sector by apply Hdone. apply (done_head _ _ _ Hdone).
  - intros j. destruct (crash_cases s l Hg Hb Hls Hlh Hcard He j) as [Ho|[Hlg|Hdn]].
    + destruct (recover_empty s l Hg Hb Hls Hlh Hcard He _ (old_card _ _ _ Ho) (old_head _ _ _ Ho)) as (r & Hr' & Hx).
      exists r. split; [done|]. left. intros x Hh. rewrite Hx by done. by apply (old_home _ _ _ Ho).
    + destruct (recover_logged s l Hg Hb Hls Hlh Hcard He _ Hlg) as (r & Hr' & Hx).
      exists r. split; [done|]. by right.
    + destruct (recover_empty s l Hg Hb Hls Hlh Hcard He _ (done_card _ _ _ Hdn) (done_head _ _ _ Hdn)) as (r & Hr' & Hx).
      exists r. split; [done|]. right. intros x Hh. rewrite Hx by done. by apply (done_home _ _ _ Hdn).
Qed.

(** * Recording blocks in a transaction *)

Lemma find_slot_spec bl n i :
  exists j, find_slot bl n i = (i + j)%nat /\ (j <= length bl)%nat /\
    (forall m e, (m < j)%nat -> bl !! m = Some e -> u32 e <> n) /\
    ((j < length bl)%nat -> exists e, bl !! j = Some e /\ u32 e = n).
Proof.
  revert i. induction bl as [|x bl IH]; intros i; cbn.
  - exists 0%nat. split_and!; [lia|lia|lia|lia].
  - destruct (Z.eqb_spec (u32 x) n) as [E|E].
    + exists 0%nat. split_and!; [lia|lia|lia|]. intros _. by exists x.
    + destruct (IH (S i)) as (j & Hj & Hle & Hbefore & Hat). exists (S j). split_and!; [lia|lia| |].
      * intros [|m] e Hm He; cbn in He; [congruence|]. apply (Hbefore m e); [lia|done].
      * intros Hlt. apply Hat. lia.
Qed.

Lemma log_set_enabled l : lflag l = LOGENABLED -> log_unset l = false.
Proof. intros H. unfold log_unset. by rewrite H. Qed.

(** Running the operations on one log. *)
Lemma get_log_run s i l : logs s !! Z.to_nat i = Some l -> get_log i s = Ret l s.
Proof. intros H. unfold get_log. by rewrite H. Qed.

Lemma upd_log_run f s i l :
  logs s !! Z.to_nat i = Some l -> upd_log i f s = Ret tt (mkL (bc s) (<[Z.to_nat i := f l]> (logs s)) (lwoken s)).
Proof. intros H. unfold upd_log, modify. by rewrite (alter_log _ _ _ _ H). Qed.

Lemma acquire_log_run s i l :
  logs s !! Z.to_nat i = Some l -> llock l = false ->
  acquire_log i s = Ret tt (mkL (bc s) (<[Z.to_nat i := set_lock true l]> (logs s)) (lwoken s)).
Proof. intros H Hl. unfold acquire_log. erewrite bind_run by by apply get_log_run. rewrite Hl. by apply upd_log_run. Qed.

Lemma release_log_run s i l :
  logs s !! Z.to_nat i = Some l -> llock l = true ->
  release_log i s = Ret tt (mkL (bc s) (<[Z.to_nat i := set_lock false l]> (logs s)) (lwoken s)).
Proof. intros H Hl. unfold release_log. erewrite bind_run by by apply get_log_run. rewrite Hl. by apply upd_log_run. Qed.

(** The state after updating log [i]. *)
Definition with_log (i : Z) (l : log) (s : lstate) : lstate := mkL (bc s) (<[Z.to_nat i := l]> (logs s)) (lwoken s).

Lemma with_log_lookup s i l l' : logs s !! Z.to_nat i = Some l -> logs (with_log i l' s) !! Z.to_nat i = Some l'.
Proof. intros H. apply list_lookup_insert_eq. by eapply lookup_lt_Some. Qed.

Lemma with_log_twice s i l l' : with_log i l' (with_log i l s) = with_log i l' s.
Proof. unfold with_log. cbn. by rewrite list_insert_insert_eq. Qed.

Lemma blk_u32 l i : log_good 1 l -> blocks_good l -> 0 <= i < lh_n l -> u32 (blk l i) = blk l i.
Proof.
  intros Hg Hb Hi. destruct (proj1 Hb i Hi) as [Hv _]. by eapply valid_u32.
Qed.

(** Where [log_write] puts block [n]: on its entry, or behind the last. *)
Lemma slot_cases l n :
  log_good 1 l -> blocks_good l ->
  let i := find_slot (take (Z.to_nat (lh_n l)) (lh_block l)) n 0 in
  (Z.of_nat i < lh_n l /\ blk l (Z.of_nat i) = n) \/
  (Z.of_nat i = lh_n l /\ forall j, 0 <= j < lh_n l -> blk l j <> n).
Proof.
  intros Hg Hb i. pose proof (good_n _ _ Hg) as Hn. pose proof (good_len _ _ Hg) as Hlen.
  destruct (find_slot_spec (take (Z.to_nat (lh_n l)) (lh_block l)) n 0) as (j & Hj & Hle & Hbefore & Hat).
  fold i in Hj. cbn in Hj. subst j. rewrite length_take in *.
  assert (forall m, 0 <= m < lh_n l -> take (Z.to_nat (lh_n l)) (lh_block l) !! Z.to_nat m = Some (blk l m)) as Hlk.
  { intros m Hm. rewrite lookup_take_lt by lia. by apply (blk_lookup 1). }
  destruct (decide (Z.of_nat i < lh_n l)) as [Hlt|Hge].
  - left. split; [done|]. destruct Hat as (e & He & Eu); [lia|].
    pose proof (Hlk (Z.of_nat i) ltac:(lia)) as Hk. rewrite Nat2Z.id in Hk.
    rewrite <- Eu. assert (e = blk l (Z.of_nat i)) as -> by congruence. symmetry. by apply blk_u32; [done..|lia].
  - right. split; [lia|]. intros m Hm E. apply (Hbefore (Z.to_nat m) (blk l m)); [lia|by apply Hlk|].
    by rewrite blk_u32.
Qed.

Lemma log_write_run s b x l :
  bufs (bc s) !! b = Some x -> dev x < NLOG -> logs s !! Z.to_nat (dev x) = Some l ->
  lflag l = LOGENABLED -> llock l = false -> 1 <= outstanding l ->
  0 <= lh_n l < LOGSIZE -> lh_n l < size l - 1 ->
  let i := find_slot (take (Z.to_nat (lh_n l)) (lh_block l)) (blockno x) 0 in
  let n' := if Z.of_nat i =? lh_n l then lh_n l + 1 else lh_n l in
  log_write b s = Ret tt (mkL (set_bufs (alter (fun x => set_flags (Z.lor (flags x) B_DIRTY) x) b (bufs (bc s))) (bc s))
    (<[Z.to_nat (dev x) := set_lh n' (<[i := s32 (blockno x)]> (lh_block l)) l]> (logs s)) (lwoken s)).
Proof.
  intros Hb Hd Hl Hf Hlk Ho Hn Hs i n'.
  assert (set_bc (bc s) s = s) as Es by by destruct s.
  unfold log_write. erewrite bind_run by (apply bio_run, get_buf_run; exact Hb). rewrite Es.
  destruct (Z.leb_spec NLOG (dev x)); [lia|]. erewrite bind_run by (apply get_log_run; exact Hl).
  rewrite log_set_enabled by done.
  destruct (Z.leb_spec LOGSIZE (lh_n l)); [lia|]. destruct (Z.leb_spec (size l - 1) (lh_n l)); [lia|].
  destruct (Z.ltb_spec (outstanding l) 1); [lia|]. cbn [orb].
  erewrite bind_run by (apply acquire_log_run; done). cbn zeta. fold i. fold (with_log (dev x) (set_lock true l) s).
  erewrite bind_run by (apply upd_log_run, with_log_lookup with l; exact Hl).
  match goal with |- context[mkL ?b (<[?i := ?l']> (logs ?s')) ?w] => change (mkL b (<[i := l']> (logs s')) w) with (with_log (dev x) l' s') end.
  rewrite with_log_twice.
  set (l2 := set_lh _ _ (set_lock true l)).
  assert (when (Z.of_nat i =? lh_n l) (upd_log (dev x) (fun l => set_lh (lh_n l + 1) (lh_block l) l)) (with_log (dev x) l2 s) =
    Ret tt (with_log (dev x) (set_lh n' (lh_block l2) l2) s)) as Hw.
  { unfold n', when. destruct (Z.of_nat i =? lh_n l); [|by destruct l].
    rewrite (upd_log_run _ _ _ l2) by by eapply with_log_lookup. f_equal. apply with_log_twice. }
  erewrite bind_run by exact Hw. erewrite bind_run by by apply bio_run.
  rewrite (release_log_run _ _ (set_lh n' (lh_block l2) l2)); [|by eapply with_log_lookup|done].
  cbn. rewrite list_insert_insert_eq. do 3 f_equal. by destruct l; cbn in *; subst.
Qed.

(** [log_write] of a locked buffer, within the limits, returns.  The block
    is in the transaction afterwards, once: a block that was there already is
    absorbed and the count stays, a new one is added at the end.  The buffer is
    dirty, so it will not be recycled; what readers see and the card do not
    change; and the next commit finds a transaction it can write. *)
Theorem log_write_records s l b n data dirty H k :
  logs s !! 1%nat = Some l -> log_good 1 l -> blocks_good l -> llock l = false -> 1 <= outstanding l ->
  lh_n l < LOGSIZE -> lh_n l < size l - 1 ->
  cache (bc s) H k -> held (bc s) b 1 n data dirty -> home l n ->
  exists s' l', log_write b s = Ret tt s' /\ logs s' !! 1%nat = Some l' /\ log_good 1 l' /\ blocks_good l' /\
    (forall x, (exists i, 0 <= i < lh_n l' /\ blk l' i = x) <-> x = n \/ (exists i, 0 <= i < lh_n l /\ blk l i = x)) /\
    lh_n l' = (if decide (n ∈ blk l <$> seqZ 0 (lh_n l)) then lh_n l else lh_n l + 1) /\
    held (bc s') b 1 n data true /\ cache (bc s') H k /\ disk (bc s') = disk (bc s) /\
    (forall d' n', valid_block sb d' n' -> cur (bc s') d' n' = cur (bc s) d' n').
Proof.
  intros Hl Hg Hb Hlk Ho Hn Hs Hc Hh Hhome. pose proof (good_n _ _ Hg) as Hn0. pose proof (good_len _ _ Hg) as Hlen.
  destruct (held_lookup _ _ _ _ _ _ _ (cache_wf _ _ _ _ Hc) Hh) as (f & Hb0 & Hf & Hlt & _).
  pose proof (log_write_run s b (mkBuf f 1 n data) l Hb0 ltac:(done) Hl (good_flag _ _ Hg) Hlk Ho ltac:(lia) ltac:(lia)) as Hrun.
  cbn [dev blockno] in Hrun. cbn zeta in Hrun.
  rewrite (valid_s32 1 n) in Hrun by apply Hh.
  destruct (set_dirty_spec sb (bc s) b 1 n data dirty (cache_wf _ _ _ _ Hc) Hh) as (t & x' & Ht & Hw & Hh' & Hbufs & Hd & _ & Hcur).
  pose proof (cache_insert _ _ _ _ _ _ _ _ _ _ _ _ _ Hc Hh Hw Hbufs Hh') as Hc'.
  injection Ht as Ht. rewrite Ht in Hrun. clear Ht.
  set (i := find_slot _ _ _) in Hrun. set (l' := set_lh _ _ l) in Hrun.
  eexists. exists l'. split; [exact Hrun|]. cbn [logs bc].
  split; [apply list_lookup_insert_eq; by eapply lookup_lt_Some|].
  destruct (slot_cases l n Hg Hb) as [[Hi Ei]|[Hi Hno]]; fold i in Hi |- *.
  - fold i in Ei. assert (l' = l) as ->.
    { unfold l'. destruct (Z.eqb_spec (Z.of_nat i) (lh_n l)); [lia|].
      pose proof (blk_lookup 1 l (Z.of_nat i) Hg ltac:(lia)) as Hk. rewrite Nat2Z.id, Ei in Hk.
      rewrite list_insert_id by done. by destruct l. }
    split; [done|]. split; [done|]. split; [|split].
    + intros x. split; [intros Hx; by right|]. intros [->|Hx]; [|done]. exists (Z.of_nat i). split; [lia|done].
    + rewrite decide_True; [done|]. apply list_elem_of_fmap. exists (Z.of_nat i). split; [done|]. apply elem_of_seqZ. lia.
    + by split_and!.
  - assert (lh_n l' = lh_n l + 1) as En.
    { unfold l'. cbn. destruct (Z.eqb_spec (Z.of_nat i) (lh_n l)); lia. }
    assert (forall j, 0 <= j < lh_n l -> blk l' j = blk l j) as Hold.
    { intros j Hj. unfold blk, l'. cbn. rewrite list_lookup_insert_ne by lia. done. }
    assert (blk l' (lh_n l) = n) as Hnew.
    { unfold blk, l'. cbn. rewrite <- Hi, Nat2Z.id, list_lookup_insert_eq by lia. done. }
    split; [|split; [|split; [|split]]].
    + destruct Hg. split; try done; rewrite ?En; cbn [start size lh_block set_lh l']; try lia. by rewrite length_insert.
    + split; rewrite En.
      * intros j Hj. destruct (decide (j = lh_n l)) as [->|]; [by rewrite Hnew|]. rewrite Hold by lia. apply Hb. lia.
      * intros j j' Hj Hj'. destruct (decide (j = lh_n l)) as [->|], (decide (j' = lh_n l)) as [->|];
          rewrite ?Hnew, ?Hold by lia; try done.
        -- intros E. exfalso. apply (Hno j'); [lia|done].
        -- intros E. exfalso. apply (Hno j); [lia|done].
        -- apply Hb; lia.
    + intros x. rewrite En. split.
      * intros (j & Hj & Ej). destruct (decide (j = lh_n l)) as [->|]; [left; congruence|right].
        exists j. split; [lia|]. by rewrite <- Hold by lia.
      * intros [->|(j & Hj & Ej)]; [exists (lh_n l); split; [lia|done]|exists j; split; [lia|by rewrite Hold]].
    + rewrite decide_False; [done|]. intros (j & E & Hj%elem_of_seqZ)%list_elem_of_fmap. apply (Hno j); [lia|done].
    + by split_and!.
Qed.


(** * Reservations

    File system calls run between [begin_op] and [end_op] and may log
    [MAXOPBLOCKS] blocks each.  A configuration is the state, the blocks each
    call in progress may still log, and whether a commit of log [i] is to run,
    has run, or neither.  [sleep] is not a step: the process that sleeps tries
    again later. *)

Inductive phase : Type := Idle | Committing | Committed.

#[export] Instance phase_eq_dec : EqDecision phase.
Proof. solve_decision. Defined.

Definition config : Type := lstate * list Z * phase.

Inductive op_step (i : Z) : config -> config -> Prop :=
| step_begin s s' R ph :
    begin_op_log i s = Ret tt s' -> op_step i (s, R, ph) (s', MAXOPBLOCKS :: R, ph)
| step_write s s' b x R1 r R2 ph :
    bufs (bc s) !! b = Some x -> dev x = i -> 0 < r -> log_write b s = Ret tt s' ->
    op_step i (s, R1 ++ r :: R2, ph) (s', R1 ++ (r - 1) :: R2, ph)
| step_enter s s' c R1 r R2 ph :
    end_op_enter i s = Ret c s' ->
    op_step i (s, R1 ++ r :: R2, ph) (s', R1 ++ R2, if c then Committing else ph)
| step_commit s s' R :
    commit sb i s = Ret tt s' -> op_step i (s, R, Committing) (s', R, Committed)
| step_leave s s' R :
    end_op_leave i s = Ret tt s' -> op_step i (s, R, Committed) (s', R, Idle)
| step_cache s t R ph :
    op_step i (s, R, ph) (set_bc t s, R, ph).

Fixpoint zsum (R : list Z) : Z := match R with [] => 0 | r :: R' => r + zsum R' end.

Record reserved (i : Z) (c : config) (l : log) : Prop := {
  rsv_log : logs c.1.1 !! Z.to_nat i = Some l;
  rsv_flag : lflag l = LOGENABLED;
  rsv_lock : llock l = false;
  rsv_out : outstanding l = Z.of_nat (length c.1.2);
  rsv_pos : 0 <= lh_n l;
  rsv_each : Forall (fun r => 0 <= r <= MAXOPBLOCKS) c.1.2;
  rsv_sum : lh_n l + zsum c.1.2 <= LOGSIZE;
  rsv_phase : committing l = negb (bool_decide (c.2 = Idle));
  rsv_none : c.2 <> Idle -> c.1.2 = [];
  rsv_done : c.2 = Committed -> lh_n l = 0 }.

Lemma zsum_app R R' : zsum (R ++ R') = zsum R + zsum R'.
Proof. induction R as [|r R IH]; cbn; [done|]. lia. Qed.

Lemma zsum_bounds R :
  Forall (fun r => 0 <= r <= MAXOPBLOCKS) R -> 0 <= zsum R <= Z.of_nat (length R) * MAXOPBLOCKS.
Proof. unfold MAXOPBLOCKS. induction 1; cbn [zsum length]; lia. Qed.

(** Operations on the cache leave the logs alone. *)
Lemma bio_logs {A} (m : M bstate A) s a s' : bio m s = Ret a s' -> logs s' = logs s.
Proof. unfold bio, zoom. destruct (m (bc s)); [|done..]. by intros [= _ <-]. Qed.

Lemma bind_inv {S A B} (m : M S A) (k : A -> M S B) s b s' :
  bind m k s = Ret b s' -> exists a s1, m s = Ret a s1 /\ k a s1 = Ret b s'.
Proof. unfold bind. destruct (m s); [by eauto|done..]. Qed.

Lemma log_off_inv dev s b s' : log_off dev s = Ret b s' -> s' = s.
Proof.
  unfold log_off. destruct (NLOG <=? dev); [by intros [= _ ->]|].
  intros (l & s1 & Hg & Hr)%bind_inv. unfold get_log in Hg. destruct (logs s !! _); [|done].
  injection Hg as -> ->. by injection Hr as _ ->.
Qed.

Lemma get_log_inv dev s l s' : get_log dev s = Ret l s' -> s' = s /\ logs s !! Z.to_nat dev = Some l.
Proof. unfold get_log. destruct (logs s !! _); [|done]. by intros [= -> ->]. Qed.

Lemma write_log_logs dev s s' : write_log sb dev s = Ret tt s' -> logs s' = logs s.
Proof.
  intros (o & s1 & ->%log_off_inv & H)%bind_inv. destruct o; [by injection H as ->|].
  apply bind_inv in H as (l & s1 & [-> _]%get_log_inv & H). rewrite for_each_bio in H. by eapply bio_logs.
Qed.

Lemma install_trans_logs dev s s' : install_trans sb dev s = Ret tt s' -> logs s' = logs s.
Proof.
  intros (o & s1 & ->%log_off_inv & H)%bind_inv. destruct o; [by injection H as ->|].
  apply bind_inv in H as (l & s1 & [-> _]%get_log_inv & H). rewrite for_each_bio in H. by eapply bio_logs.
Qed.

Lemma write_head_logs dev s s' : write_head sb dev s = Ret tt s' -> logs s' = logs s.
Proof.
  intros (o & s1 & ->%log_off_inv & H)%bind_inv. destruct o; [by injection H as ->|].
  apply bind_inv in H as (l & s1 & [-> _]%get_log_inv & H).
  apply bind_inv in H as (b & s1 & H1%bio_logs & H). apply bind_inv in H as (x & s2 & H2%bio_logs & H).
  apply bind_inv in H as (u & s3 & H3%bio_logs & H). apply bind_inv in H as (v & s4 & H4%bio_logs & H5%bio_logs).
  congruence.
Qed.

Lemma commit_logs dev s s' l :
  commit sb dev s = Ret tt s' -> logs s !! Z.to_nat dev = Some l -> 0 <= dev < NLOG -> lflag l = LOGENABLED -> 0 <= lh_n l ->
  logs s' !! Z.to_nat dev = Some (set_lh 0 (lh_block l) l).
Proof.
  intros H Hl Hd Hf Hn. apply bind_inv in H as (o & s1 & H1 & H).
  assert (o = false) as ->.
  { unfold log_off in H1. destruct (Z.leb_spec NLOG dev); [lia|].
    erewrite bind_run in H1 by by apply get_log_run. rewrite Hf in H1. by injection H1 as <-. }
  apply log_off_inv in H1 as ->. apply bind_inv in H as (l0 & s1 & [-> Hl0]%get_log_inv & H).
  assert (l0 = l) as -> by congruence. unfold when in H. destruct (Z.ltb_spec 0 (lh_n l)).
  - apply bind_inv in H as ([] & s1 & H1%write_log_logs & H). apply bind_inv in H as ([] & s2 & H2%write_head_logs & H).
    apply bind_inv in H as ([] & s3 & H3%install_trans_logs & H). apply bind_inv in H as ([] & s4 & H4 & H5%write_head_logs).
    rewrite H5. rewrite (upd_log_run _ _ _ l) in H4 by congruence. injection H4 as <-.
    apply list_lookup_insert_eq. apply lookup_lt_Some with l. congruence.
  - injection H as <-. replace 0 with (lh_n l) by lia. by destruct l.
Qed.

Lemma begin_op_inv i s s' l :
  begin_op_log i s = Ret tt s' -> logs s !! Z.to_nat i = Some l -> lflag l = LOGENABLED -> llock l = false ->
  committing l = false /\ lh_n l + (outstanding l + 1) * MAXOPBLOCKS <= LOGSIZE /\
  logs s' !! Z.to_nat i = Some (set_outstanding (outstanding l + 1) l).
Proof.
  intros H Hl Hf Hk. unfold begin_op_log in H. erewrite bind_run in H by by apply get_log_run.
  rewrite log_set_enabled in H by done. erewrite bind_run in H by by apply acquire_log_run.
  fold (with_log i (set_lock true l) s) in H.
  assert (release_log i (with_log i (set_lock true l) s) = Ret tt (with_log i (set_lock false (set_lock true l)) s)) as Hrel.
  { rewrite (release_log_run _ _ (set_lock true l)); [|by eapply with_log_lookup|done]. f_equal. apply with_log_twice. }
  destruct (committing l).
  { erewrite bind_run in H by exact Hrel. done. }
  destruct (Z.ltb_spec LOGSIZE (lh_n l + (outstanding l + 1) * MAXOPBLOCKS)).
  { erewrite bind_run in H by exact Hrel. done. }
  split; [done|]. split; [done|].
  erewrite bind_run in H by (apply upd_log_run; by eapply with_log_lookup).
  erewrite release_log_run in H; [|apply list_lookup_insert_eq, lookup_lt_Some with (set_lock true l); by eapply with_log_lookup|done].
  injection H as <-. cbn. rewrite !list_insert_insert_eq. rewrite list_lookup_insert_eq by by eapply lookup_lt_Some.
  f_equal. by destruct l; cbn in *; subst.
Qed.

Lemma end_op_enter_inv i s s' c l :
  end_op_enter i s = Ret c s' -> logs s !! Z.to_nat i = Some l -> llock l = false ->
  committing l = false /\ c = (outstanding l - 1 =? 0) /\
  logs s' !! Z.to_nat i = Some (set_committing c (set_outstanding (outstanding l - 1) l)).
Proof.
  intros H Hl Hk. unfold end_op_enter in H. erewrite bind_run in H by by apply acquire_log_run.
  fold (with_log i (set_lock true l) s) in H.
  assert (Z.to_nat i < length (logs s))%nat as Hlt by by eapply lookup_lt_Some.
  erewrite bind_run in H by (apply upd_log_run; by eapply with_log_lookup). cbn in H.
  rewrite list_insert_insert_eq in H. erewrite bind_run in H by (apply get_log_run; by apply list_lookup_insert_eq).
  cbn in H. destruct (committing l) eqn:Ec; [done|]. split; [done|].
  destruct (outstanding l - 1 =? 0) eqn:Eo.
  - erewrite bind_run in H by (apply upd_log_run; by apply list_lookup_insert_eq). cbn in H.
    rewrite list_insert_insert_eq in H.
    erewrite bind_run in H by (apply release_log_run; [by apply list_lookup_insert_eq|done]).
    injection H as <- <-. split; [done|]. cbn. rewrite !list_insert_insert_eq, list_lookup_insert_eq by done.
    f_equal. by destruct l; cbn in *; subst.
  - erewrite bind_run in H by reflexivity. cbn in H.
    erewrite bind_run in H by (apply release_log_run; [by apply list_lookup_insert_eq|done]).
    injection H as <- <-. split; [done|]. cbn. rewrite !list_insert_insert_eq, list_lookup_insert_eq by done.
    f_equal. by destruct l; cbn in *; subst.
Qed.

Lemma end_op_leave_inv i s s' l :
  end_op_leave i s = Ret tt s' -> logs s !! Z.to_nat i = Some l -> llock l = false ->
  logs s' !! Z.to_nat i = Some (set_committing false l).
Proof.
  intros H Hl Hk. unfold end_op_leave in H. erewrite bind_run in H by by apply acquire_log_run.
  fold (with_log i (set_lock true l) s) in H.
  assert (Z.to_nat i < length (logs s))%nat as Hlt by by eapply lookup_lt_Some.
  erewrite bind_run in H by (apply upd_log_run; by eapply with_log_lookup). cbn in H.
  rewrite list_insert_insert_eq in H.
  erewrite release_log_run in H; [|by apply list_lookup_insert_eq|done].
  injection H as <-. cbn. rewrite !list_insert_insert_eq, list_lookup_insert_eq by done.
  f_equal. by destruct l; cbn in *; subst.
Qed.

Lemma log_write_inv s s' b x l :
  log_write b s = Ret tt s' -> bufs (bc s) !! b = Some x -> 0 <= dev x < NLOG ->
  logs s !! Z.to_nat (dev x) = Some l -> lflag l = LOGENABLED -> llock l = false -> 0 <= lh_n l ->
  exists n' bl, lh_n l <= n' <= lh_n l + 1 /\ logs s' !! Z.to_nat (dev x) = Some (set_lh n' bl l).
Proof.
  intros H Hb Hd Hl Hf Hk Hn.
  assert (1 <= outstanding l /\ lh_n l < LOGSIZE /\ lh_n l < size l - 1) as (Ho & Hn1 & Hn2).
  { unfold log_write in H. erewrite bind_run in H by (apply bio_run, get_buf_run; exact Hb).
    destruct (Z.leb_spec NLOG (dev x)); [lia|]. erewrite bind_run in H by (apply get_log_run; exact Hl).
    rewrite log_set_enabled in H by done.
    destruct (Z.leb_spec LOGSIZE (lh_n l)); [done|]. destruct (Z.leb_spec (size l - 1) (lh_n l)); [done|].
    destruct (Z.ltb_spec (outstanding l) 1); [done|]. lia. }
  rewrite (log_write_run s b x l) in H by (done || lia). injection H as <-. cbn.
  eexists _, _. split; [|apply list_lookup_insert_eq; by eapply lookup_lt_Some].
  case_match; lia.
Qed.

Lemma reserved_step i c c' l :
  0 <= i < NLOG -> reserved i c l -> op_step i c c' -> exists l', reserved i c' l' /\ size l' = size l.
Proof.
  intros Hi [Hl Hf Hk Ho Hn Hea Hs Hph Hnone Hdone] Hstep.
  destruct Hstep as [s s' R ph Hr|s s' b x R1 r R2 ph Hb Hd H0 Hr|s s' c R1 r R2 ph Hr|s s' R Hr|s s' R Hr|s t R ph]; cbn in *.
  - destruct (begin_op_inv _ _ _ _ Hr Hl Hf Hk) as (Hc & Hlim & Hl'). exists (set_outstanding (outstanding l + 1) l). split; [|done].
    assert (ph = Idle) as -> by (rewrite Hc in Hph; destruct ph; done).
    pose proof (zsum_bounds R Hea) as Hz. unfold MAXOPBLOCKS in *.
    split; cbn; try done; [lia|constructor; [unfold MAXOPBLOCKS; lia|done]|lia].
  - subst i. destruct (log_write_inv _ _ _ _ _ Hr Hb ltac:(lia) Hl Hf Hk Hn) as (n' & bl & Hn' & Hl').
    assert (ph = Idle) as -> by (destruct (decide (ph = Idle)) as [|E]; [done|]; pose proof (Hnone E); by destruct R1).
    apply Forall_app in Hea as [He1 He2]. apply Forall_cons in He2 as [Her He2].
    rewrite zsum_app in Hs. cbn in Hs. exists (set_lh n' bl l). split; [|done].
    split; cbn; try done; [by rewrite Ho, !length_app|lia| |rewrite zsum_app; cbn; lia].
    apply Forall_app. split; [done|]. constructor; [lia|done].
  - destruct (end_op_enter_inv _ _ _ _ _ Hr Hl Hk) as (Hc & -> & Hl').
    assert (ph = Idle) as -> by (rewrite Hc in Hph; destruct ph; done).
    apply Forall_app in Hea as [He1 He2]. apply Forall_cons in He2 as [Her He2].
    rewrite zsum_app in Hs. cbn in Hs. rewrite length_app in Ho. cbn in Ho. exists (set_committing (outstanding l - 1 =? 0) (set_outstanding (outstanding l - 1) l)). split; [|done].
    assert (outstanding l - 1 = Z.of_nat (length (R1 ++ R2))) as Ho' by (rewrite length_app; lia).
    split; cbn; try done; [by apply Forall_app|rewrite zsum_app; lia|..].
    + by destruct (outstanding l - 1 =? 0).
    + destruct (Z.eqb_spec (outstanding l - 1) 0); [|done]. intros _. apply length_zero_iff_nil. lia.
    + by destruct (outstanding l - 1 =? 0).
  - pose proof (commit_logs _ _ _ _ Hr Hl Hi Hf Hn) as Hl'. rewrite (Hnone ltac:(done)) in *.
    exists (set_lh 0 (lh_block l) l). split; [|done]. split; cbn; done.
  - pose proof (end_op_leave_inv _ _ _ _ Hr Hl Hk) as Hl'. rewrite (Hnone ltac:(done)) in *.
    exists (set_committing false l). split; [|done]. split; cbn; done.
  - exists l. split; [|done]. split; cbn; done.
Qed.

(** C4: the space check of [begin_op] is a reservation.  In every state
    reached by any interleaving of [begin_op], [log_write], [end_op] with its
    commit and changes of the cache, in which each call logs at most
    [MAXOPBLOCKS] times, the blocks logged and the blocks the calls in progress
    may still log fit in [lh.block]; so on a log area of more than [LOGSIZE]
    blocks no call that keeps to its share is stopped by [too big a
    transaction]. *)
Theorem reservation_safe i s l c :
  0 <= i < NLOG -> logs s !! Z.to_nat i = Some l -> lflag l = LOGENABLED -> llock l = false ->
  outstanding l = 0 -> lh_n l = 0 -> committing l = false ->
  rtc (op_step i) (s, [], Idle) c ->
  exists l', logs c.1.1 !! Z.to_nat i = Some l' /\ outstanding l' = Z.of_nat (length c.1.2) /\
    0 <= lh_n l' /\ lh_n l' + zsum c.1.2 <= LOGSIZE /\
    (LOGSIZE < size l -> forall b x r, bufs (bc c.1.1) !! b = Some x -> dev x = i -> r ∈ c.1.2 -> 0 < r ->
       exists s', log_write b c.1.1 = Ret tt s').
Proof.
  intros Hi Hl Hf Hk Ho Hn Hc Hsteps.
  assert (exists l', reserved i c l' /\ size l' = size l) as (l' & [Hl' Hf' Hk' Ho' Hn' Hea Hs _ _ _] & Es).
  { revert Hsteps. generalize (eq_refl (s, @nil Z, Idle)). generalize (s, @nil Z, Idle) at 1 3. intros c0 E Hsteps.
    assert (reserved i c0 l) as H0 by (subst c0; split; cbn; try done; unfold LOGSIZE; lia).
    clear E Hl Hf Hk Ho Hn Hc. revert l H0. induction Hsteps as [c0|c0 c1 c Hst _ IH]; intros l H0; [by exists l|].
    destruct (reserved_step i c0 c1 l Hi H0 Hst) as (l1 & H1 & E1). destruct (IH l1 H1) as (l' & H' & E').
    exists l'. split; [done|congruence]. }
  exists l'. split_and!; [done..|]. intros Hsz b x r Hb Hd Hr Hpos. subst i.
  assert (lh_n l' < LOGSIZE) as Hlt.
  { apply list_elem_of_split in Hr as (R1 & R2 & E). rewrite E in Hs, Hea.
    apply Forall_app in Hea as [H1 H2]. apply Forall_cons in H2 as [_ H2].
    rewrite zsum_app in Hs. cbn in Hs. pose proof (zsum_bounds _ H1). pose proof (zsum_bounds _ H2). lia. }
  eexists. apply (log_write_run _ b x l'); [done|lia|done|done|done| |lia|lia].
  rewrite Ho'. destruct c.1.2; [by apply elem_of_nil in Hr|cbn; lia].
Qed.

(** [mkfs] makes the log area [LOGSIZE] blocks long, header included, so
    [log_write] refuses the 126th block of a transaction.  [begin_op] reserves
    up to [LOGSIZE] data blocks: with two calls in progress and nothing logged
    it admits a third, and the three together may not log the blocks they were
    promised. *)
Theorem reservation_exceeds_area i s l b x :
  logs s !! Z.to_nat i = Some l -> lflag l = LOGENABLED -> llock l = false -> committing l = false ->
  0 <= i < NLOG -> size l = LOGSIZE -> bufs (bc s) !! b = Some x -> dev x = i ->
  (lh_n l = 0 -> outstanding l = 2 -> exists s', begin_op_log i s = Ret tt s') /\
  (lh_n l = 125 -> log_write b s = Panic s).
Proof.
  intros Hl Hf Hk Hc Hi Hs Hb Hd. split.
  - intros Hn Ho. eexists. unfold begin_op_log. erewrite bind_run by by apply get_log_run.
    rewrite log_set_enabled by done. erewrite bind_run by by apply acquire_log_run.
    rewrite Hc, Hn, Ho. change (LOGSIZE <? _) with false. cbn iota.
    erewrite bind_run by (apply upd_log_run, list_lookup_insert_eq; by eapply lookup_lt_Some).
    apply (release_log_run _ i (set_outstanding (outstanding (set_lock true l) + 1) (set_lock true l))); [|done].
    cbn. rewrite list_insert_insert_eq. apply list_lookup_insert_eq. by eapply lookup_lt_Some.
  - intros Hn. subst i. unfold log_write. erewrite bind_run by (apply bio_run, get_buf_run; exact Hb).
    destruct (Z.leb_spec NLOG (dev x)); [lia|].
    replace (set_bc (bc s) s) with s by by destruct s. erewrite bind_run by (apply get_log_run; exact Hl).
    rewrite log_set_enabled by done. rewrite Hn, Hs. done.
Qed.

End Commit.

(** * Witnesses *)

Definition log_one : log := mkLog false 2 126 1 false 1 LOGENABLED 1 (200 :: replicate 125 0).

Lemma log_one_good : log_good sd_table 1 log_one /\ blocks_good sd_table log_one.
Proof.
  split; [split; unfold NLOG, LOGSIZE; first [done|cbn; lia|vm_compute; split; congruence]|]. split; cbn [lh_n log_one].
  - intros t Ht. assert (t = 0) as -> by lia. split; [split|right]; vm_compute; congruence.
  - intros t t' Ht Ht' _. lia.
Qed.

Lemma empty_card : card_ok ∅.
Proof. intros i x. by rewrite lookup_empty. Qed.

Lemma commit_crash_safe_witness :
  exists t, commit sd_table 1 (mkL (boot_state ∅) [zero_log; log_one; zero_log] []) = Ret tt t /\
    head_n (disk_block sd_table (bc t) 1 2) = 0.
Proof.
  destruct log_one_good as [Hg Hb].
  destruct (commit_crash_safe sd_table (mkL (boot_state ∅) [zero_log; log_one; zero_log] []) log_one 0)
    as (t & ws & Hr & _ & _ & _ & Hh & _).
  - reflexivity.
  - exact Hg.
  - exact Hb.
  - cbn. lia.
  - apply boot_cache, empty_card.
  - unfold NBUF. lia.
  - cbn [bc]. unfold disk_block. rewrite head_n_sector by apply empty_card. unfold read_sector.
    cbn [disk boot_state]. rewrite lookup_empty. vm_compute. reflexivity.
  - exists t. split; [exact Hr|exact Hh].
Defined.

Lemma log_write_records_witness :
  exists b s s', bread sd_table 1 300 (boot_state ∅) = Ret b s /\
    log_write b (mkL s [zero_log; log_one; zero_log] []) = Ret tt s' /\ held sd_table (bc s') b 1 300 (cur sd_table (boot_state ∅) 1 300) true.
Proof.
  destruct log_one_good as [Hg Hb].
  destruct (cache_bread sd_table (boot_state ∅) [] 0 1 300 (boot_cache sd_table ∅ empty_card)) as (b & dy & s & Hr & Hc & _ & _ & Hh & _).
  - unfold valid_block. cbn. lia.
  - unfold NBUF. lia.
  - intros b Hin. by apply elem_of_nil in Hin.
  - destruct (log_write_records sd_table (mkL s [zero_log; log_one; zero_log] []) log_one b 300 (cur sd_table (boot_state ∅) 1 300) dy [b] (0 + Nat.b2n (negb dy)))
      as (s' & l' & Hw & _ & _ & _ & _ & _ & Hh' & _).
    + reflexivity.
    + exact Hg.
    + exact Hb.
    + reflexivity.
    + cbn. lia.
    + reflexivity.
    + reflexivity.
    + exact Hc.
    + exact Hh.
    + split; [split|right]; vm_compute; congruence.
    + exists b, s, s'. split; [exact Hr|]. split; [exact Hw|exact Hh'].
Defined.

Definition log_fresh : log := mkLog false 2 200 0 false 1 LOGENABLED 0 (replicate 126 0).

Lemma reservation_safe_witness :
  exists s' l', begin_op_log 1 (mkL (mkB [] [] false [] false ∅ [] []) [zero_log; log_fresh; zero_log] []) = Ret tt s' /\
    logs s' !! 1%nat = Some l' /\ lh_n l' + 42 <= LOGSIZE.
Proof.
  set (s := mkL (mkB [] [] false [] false ∅ [] []) [zero_log; log_fresh; zero_log] []).
  eexists.
  destruct (reservation_safe sd_table 1 s log_fresh
    (with_log 1 (set_outstanding 1 log_fresh) s, [MAXOPBLOCKS], Idle)) as (l' & Hl & _ & _ & Hs & _).
  - unfold NLOG. lia.
  - reflexivity.
  - reflexivity.
  - reflexivity.
  - reflexivity.
  - reflexivity.
  - reflexivity.
  - apply rtc_once. apply (step_begin sd_table 1 s _ [] Idle). reflexivity.
  - exists l'. split; [reflexivity|]. split; [exact Hl|]. cbn [fst snd zsum] in Hs. unfold MAXOPBLOCKS in Hs. lia.
Defined.

Definition log_crowded (out n : Z) : log := mkLog false 2 126 out false 1 LOGENABLED n (replicate 126 0).

Lemma reservation_exceeds_area_witness :
  let s out n := mkL (mkB [mkBuf 3 1 300 []] [] false [] false ∅ [] []) [zero_log; log_crowded out n; zero_log] [] in
  (exists s', begin_op_log 1 (s 2 0) = Ret tt s') /\ log_write 0 (s 3 125) = Panic (s 3 125).
Proof.
  split.
  - apply (reservation_exceeds_area 1 (mkL (mkB [mkBuf 3 1 300 []] [] false [] false ∅ [] []) [zero_log; log_crowded 2 0; zero_log] [])
      (log_crowded 2 0) 0 (mkBuf 3 1 300 [])); first [reflexivity|unfold NLOG; lia].
  - apply (reservation_exceeds_area 1 (mkL (mkB [mkBuf 3 1 300 []] [] false [] false ∅ [] []) [zero_log; log_crowded 3 125; zero_log] [])
      (log_crowded 3 125) 0 (mkBuf 3 1 300 [])); first [reflexivity|unfold NLOG; lia].
Defined.

End Log.
