(* ===== verification/V6.v ===== *)
(** The V6 file system (kern/v6.c): block allocation, inodes, the block map of
    a file, reading and writing.

    The state has the blocks of one device as the buffer cache shows them
    ([cur] of [Bio]); a buffer is named by its block, since the cache has one
    buffer per block.  [bread] of a block whose buffer is locked waits
    ([Block]), [brelse] of one that is not panics, and [log_write] records the
    block in the running transaction.  [bread] panics when it needs a buffer
    and none is left, [log_write] when the transaction is as long as the log or
    there is none; both depend on [limits].  These are the operations [Bio] and
    [Log] implement.  [ip] is the inode an operation works on, its
    [v6_inode] in [addrs].  The superblock and the number of sectors the
    driver checks against are arguments.

    [addr_at] gives the address found at each place of the tree of block
    addresses: a slot of the inode, of the indirect block, of the double
    indirect block, or of one of its children.  [tree_ok] says that the
    addresses are blocks of the data area, in use, and no block is at two
    places; [content] is the file as a function from offsets to bytes. *)

From stdpp Require Import base list gmap.
From Stdlib Require Import ZArith Lia Bool.
From S2P Require Import Prelude.

Module V6.

Definition BSIZE : Z := 4096.
Definition NDIRECT : Z := 11.
Definition NINDIRECT : Z := 1024.
Definition MAXFILE : Z := NDIRECT + NINDIRECT + NINDIRECT * NINDIRECT.
Definition IPB : Z := 32.
Definition BPB : Z := BSIZE * 8.
Definition NMAJOR : Z := 4.
Definition T_DIR : Z := 1.
Definition T_FILE : Z := 2.
Definition T_DEV : Z := 3.
Definition T_MOUNT : Z := 4.

Notation bytes := (list Z).

Record v6_superblock : Type := mkSb {
  size : Z;
  nblocks : Z;
  ninodes : Z;
  nlog : Z;
  logstart : Z;
  inodestart : Z;
  bmapstart : Z
}.

(** [struct inode] with its [struct v6_inode]; times are seconds and
    nanoseconds. *)
Record inode : Type := mkI {
  inum : Z;
  ref : Z;
  lock : bool;
  valid : bool;
  type : Z;
  major : Z;
  minor : Z;
  nlink : Z;
  isize : Z;
  mode : Z;
  uid : Z;
  gid : Z;
  atime : Z * Z;
  mtime : Z * Z;
  ctime : Z * Z;
  addrs : list Z
}.

Record state : Type := mkV {
  vol : gmap Z bytes;
  locked : list Z;
  logged : list Z;
  ip : inode
}.

Definition zero_block : bytes := replicate 4096 0.
Definition bdata (s : state) (n : Z) : bytes := default zero_block (vol s !! n).

Definition set_vol (v : gmap Z bytes) (s : state) : state := mkV v (locked s) (logged s) (ip s).
Definition set_locked (l : list Z) (s : state) : state := mkV (vol s) l (logged s) (ip s).
Definition set_logged (l : list Z) (s : state) : state := mkV (vol s) (locked s) l (ip s).
Definition set_ip (i : inode) (s : state) : state := mkV (vol s) (locked s) (logged s) i.

Definition set_addrs (a : list Z) (i : inode) : inode :=
  mkI (inum i) (ref i) (lock i) (valid i) (type i) (major i) (minor i) (nlink i) (isize i) (mode i) (uid i) (gid i)
      (atime i) (mtime i) (ctime i) a.
Definition set_size (n : Z) (i : inode) : inode :=
  mkI (inum i) (ref i) (lock i) (valid i) (type i) (major i) (minor i) (nlink i) n (mode i) (uid i) (gid i)
      (atime i) (mtime i) (ctime i) (addrs i).

(** How many blocks a transaction may log ([LOGSIZE], the size of the log on
    disk; 0 outside of a transaction) and how many buffers there are ([NBUF]). *)
Record limits : Type := mkLim { log_room : Z; nbuf : Z }.

(** The buffers that [bget] does not recycle: busy, or dirty since they are logged. *)
Definition pinned (s : state) : Z := Z.of_nat (length (locked s ++ filter (fun n => n ∉ locked s) (logged s))).

Section V6.
Context (sb : v6_superblock) (nsecs : Z).

(** Without limits the log and the cache are never full. *)
Context (lim : option limits).

(** * The buffer cache and the log, as V6 uses them *)

(** All buffers are pinned, and the block has none: [bget] panics. *)
Definition no_buffers (n : Z) (s : state) : bool :=
  match lim with Some l => bool_decide (n ∉ logged s) && (nbuf l <=? pinned s) | None => false end.

Definition bread (n : Z) : M state unit :=
  fun s => if bool_decide (n ∈ locked s) then Block s
           else if no_buffers n s then Panic s
           else if n <? nsecs then Ret tt (set_locked (n :: locked s) s) else Panic s.

Definition brelse (n : Z) : M state unit :=
  fun s => if bool_decide (n ∈ locked s) then Ret tt (set_locked (filter (.≠ n) (locked s)) s) else Panic s.

(** The transaction has as many blocks as the log holds: [log_write] panics, for
    a block that is logged already too. *)
Definition log_full (s : state) : bool :=
  match lim with Some l => log_room l <=? Z.of_nat (length (logged s)) | None => false end.

Definition log_write (n : Z) : M state unit :=
  fun s => if log_full s then Panic s
           else Ret tt (if bool_decide (n ∈ logged s) then s else set_logged (logged s ++ [n]) s).

Definition get_data (n : Z) : M state bytes := gets (fun s => bdata s n).
Definition put_data (n : Z) (d : bytes) : M state unit := modify (fun s => set_vol (<[n := d]> (vol s)) s).

Definition upd_ip (f : inode -> inode) : M state unit := modify (fun s => set_ip (f (ip s)) s).

(** * Blocks *)

Definition IBLOCK (i : Z) : Z := u32 (i / IPB + inodestart sb).
Definition BBLOCK (b : Z) : Z := u32 (b / BPB + bmapstart sb).

Definition bit_mask (bi : Z) : Z := Z.shiftl 1 (bi mod 8).
Definition map_byte (d : bytes) (bi : Z) : Z := default 0 (d !! Z.to_nat (bi / 8)).
Definition bit_clear (d : bytes) (bi : Z) : bool := Z.land (map_byte d bi) (bit_mask bi) =? 0.

(** The inner loop of [v6_balloc]: the first clear bit among the next [k]
    from [bi] on. *)
Fixpoint find_clear (d : bytes) (bi : Z) (k : nat) : option Z :=
  match k with
  | O => None
  | S k' => if bit_clear d bi then Some bi else find_clear d (bi + 1) k'
  end.

Definition v6_bzero (bno : Z) : M state unit :=
  bread bno ;;
  put_data bno zero_block ;;
  log_write bno ;;
  brelse bno.

Definition balloc_block (b : Z) : M state (option Z) :=
  let bn := BBLOCK b in
  bread bn ;;
  let* d := get_data bn in
  match find_clear d 0 (Z.to_nat (Z.min BPB (size sb - b))) with
  | Some bi =>
      put_data bn (<[Z.to_nat (bi / 8) := u8 (Z.lor (map_byte d bi) (bit_mask bi))]> d) ;;
      log_write bn ;;
      brelse bn ;;
      v6_bzero (b + bi) ;;
      ret (Some (b + bi))
  | None => brelse bn ;; ret None
  end.

(** [for (b = 0; b < v6sb->ninodes; b += BPB)] *)
Definition balloc_starts : list Z :=
  (fun i => i * BPB) <$> seqZ 0 ((ninodes sb + BPB - 1) / BPB).

Definition v6_balloc : M state Z :=
  let* r := loop balloc_starts balloc_block in
  match r with Some b => ret b | None => panic end.

Definition v6_bfree (b : Z) : M state unit :=
  let bn := BBLOCK b in
  bread bn ;;
  let* d := get_data bn in
  let bi := b mod BPB in
  if bit_clear d bi then panic else
  put_data bn (<[Z.to_nat (bi / 8) := Z.land (map_byte d bi) (not_w 8 (bit_mask bi))]> d) ;;
  log_write bn ;;
  brelse bn.

(** * Inodes on disk

    [struct dinode] is 128 bytes; the offsets of its fields follow the AArch64
    layout. *)

Definition dino (i : Z) : nat := Z.to_nat (128 * (i mod IPB)).

Definition put_time (d : bytes) (off : nat) (t : Z * Z) : bytes := st 8 (st 8 d off t.1) (off + 8) t.2.
Definition get_time (d : bytes) (off : nat) : Z * Z := (s64 (ld 8 d off), s64 (ld 8 d (off + 8))).

Definition put_addrs (d : bytes) (off : nat) (a : list Z) : bytes :=
  fold_left (fun d i => st 4 d (off + 4 * i) (default 0 (a !! i))) (seq 0 13) d.
Definition get_addrs (d : bytes) (off : nat) : list Z := (fun i => ld 4 d (off + 4 * i)) <$> seq 0 13.

Definition put_inode (o : nat) (i : inode) (d : bytes) : bytes :=
  let d := st 2 d o (type i) in
  let d := st 2 d (o + 2) (major i) in
  let d := st 2 d (o + 4) (minor i) in
  let d := st 2 d (o + 6) (nlink i) in
  let d := st 4 d (o + 8) (isize i) in
  let d := st 4 d (o + 16) (uid i) in
  let d := st 4 d (o + 20) (gid i) in
  let d := st 4 d (o + 12) (mode i) in
  let d := put_time d (o + 24) (atime i) in
  let d := put_time d (o + 40) (mtime i) in
  let d := put_time d (o + 56) (ctime i) in
  put_addrs d (o + 72) (addrs i).

Definition get_inode (o : nat) (d : bytes) (i : inode) : inode :=
  mkI (inum i) (ref i) (lock i) (valid i)
      (ld 2 d o) (ld 2 d (o + 2)) (ld 2 d (o + 4)) (ld 2 d (o + 6)) (ld 4 d (o + 8))
      (ld 4 d (o + 12)) (ld 4 d (o + 16)) (ld 4 d (o + 20))
      (get_time d (o + 24)) (get_time d (o + 40)) (get_time d (o + 56)) (get_addrs d (o + 72)).

Definition v6_iupdate : M state unit :=
  let* i := gets ip in
  let bn := IBLOCK (inum i) in
  bread bn ;;
  let* d := get_data bn in
  put_data bn (put_inode (dino (inum i)) i d) ;;
  log_write bn ;;
  brelse bn.

Definition set_lock (b : bool) (i : inode) : inode :=
  mkI (inum i) (ref i) b (valid i) (type i) (major i) (minor i) (nlink i) (isize i) (mode i) (uid i) (gid i)
      (atime i) (mtime i) (ctime i) (addrs i).
Definition set_valid (b : bool) (i : inode) : inode :=
  mkI (inum i) (ref i) (lock i) b (type i) (major i) (minor i) (nlink i) (isize i) (mode i) (uid i) (gid i)
      (atime i) (mtime i) (ctime i) (addrs i).

(** [acquiresleep] of an inode some process has locked waits. *)
Definition v6_ilock : M state unit :=
  let* i := gets ip in
  if ref i <? 1 then panic else
  if lock i then block else
  upd_ip (set_lock true) ;;
  if valid i then ret tt else
  let bn := IBLOCK (inum i) in
  bread bn ;;
  let* d := get_data bn in
  upd_ip (get_inode (dino (inum i)) d) ;;
  brelse bn ;;
  upd_ip (set_valid true) ;;
  let* i := gets ip in
  if type i =? 0 then panic else ret tt.

(** * The block map *)

(** [if ((addr = a[k]) == 0) { a[k] = addr = v6_balloc(); log_write(bp); }]
    on the held block [bn]. *)
Definition slot_addr (bn k : Z) : M state Z :=
  let* d := get_data bn in
  let addr := ld 4 d (Z.to_nat (4 * k)) in
  if addr =? 0 then
    let* addr := v6_balloc in
    let* d := get_data bn in
    put_data bn (st 4 d (Z.to_nat (4 * k)) addr) ;;
    log_write bn ;;
    ret addr
  else ret addr.

(** [if ((addr = v6ip->addrs[k]) == 0) v6ip->addrs[k] = addr = v6_balloc();] *)
Definition inode_addr (k : Z) : M state Z :=
  let* i := gets ip in
  let addr := default 0 (addrs i !! Z.to_nat k) in
  if addr =? 0 then
    let* addr := v6_balloc in
    upd_ip (fun i => set_addrs (<[Z.to_nat k := addr]> (addrs i)) i) ;;
    ret addr
  else ret addr.

Definition v6_bmap (bn : Z) : M state Z :=
  if bn <? NDIRECT then inode_addr bn else
  let bn := bn - NDIRECT in
  if bn <? NINDIRECT then
    let* a := inode_addr NDIRECT in
    bread a ;;
    let* addr := slot_addr a bn in
    brelse a ;;
    ret addr
  else
  let bn := bn - NINDIRECT in
  if bn <? NINDIRECT * NINDIRECT then
    let* a := inode_addr (NDIRECT + 1) in
    let idx1 := bn / NINDIRECT in
    let idx2 := bn mod NINDIRECT in
    bread a ;;
    let* a1 := slot_addr a idx1 in
    brelse a ;;
    bread a1 ;;
    let* addr := slot_addr a1 idx2 in
    brelse a1 ;;
    ret addr
  else panic.

(** * Reading and writing *)

(** The transfer loop of [v6_readi]; [n] bytes are left. *)
Fixpoint readi_loop (fuel : nat) (off n : Z) : M state bytes :=
  if n <=? 0 then ret [] else
  match fuel with
  | O => nofuel
  | S fuel' =>
      let* addr := v6_bmap (u32 (off / BSIZE)) in
      bread addr ;;
      let m := Z.min n (BSIZE - off mod BSIZE) in
      let* d := get_data addr in
      let chunk := take (Z.to_nat m) (drop (Z.to_nat (off mod BSIZE)) d) in
      brelse addr ;;
      let* rest := readi_loop fuel' (off + m) (n - m) in
      ret (chunk ++ rest)
  end.

Fixpoint writei_loop (fuel : nat) (src : bytes) (off n : Z) : M state unit :=
  if n <=? 0 then ret tt else
  match fuel with
  | O => nofuel
  | S fuel' =>
      let* addr := v6_bmap (u32 (off / BSIZE)) in
      bread addr ;;
      let m := Z.min n (BSIZE - off mod BSIZE) in
      let* d := get_data addr in
      put_data addr (take (Z.to_nat (off mod BSIZE)) d ++ take (Z.to_nat m) src ++
                     drop (Z.to_nat (off mod BSIZE + m)) d) ;;
      log_write addr ;;
      brelse addr ;;
      writei_loop fuel' (drop (Z.to_nat m) src) (off + m) (n - m)
  end.

(** The device switch: what [devsw[major].read] and [.write] do, if set. *)
Context (devsw_read : Z -> option (Z -> M state (Z * bytes))).
Context (devsw_write : Z -> option (bytes -> M state Z)).

(** The loops advance to the next block boundary in each round. *)
Definition rounds (n : Z) : nat := Z.to_nat (n / BSIZE + 2).

(** The result and the bytes stored at [dst]. *)
Definition v6_readi (off n : Z) : M state (Z * bytes) :=
  let* i := gets ip in
  if type i =? T_DEV then
    match (if NMAJOR <=? major i then None else devsw_read (major i)) with
    | None => ret (-1, [])
    | Some f => f n
    end
  else if (isize i <? off) || (u64 (off + n) <? off) then ret (-1, [])
  else
    let n := if isize i <? off + n then isize i - off else n in
    let* d := readi_loop (rounds n) off n in
    ret (n, d).

Definition v6_writei (src : bytes) (off n : Z) : M state Z :=
  let* i := gets ip in
  if type i =? T_DEV then
    match (if NMAJOR <=? major i then None else devsw_write (major i)) with
    | None => ret (-1)
    | Some f => f src
    end
  else if (isize i <? off) || (u64 (off + n) <? off) then ret (-1)
  else if MAXFILE * BSIZE <? off + n then ret (-1)
  else
    writei_loop (rounds n) src off n ;;
    when ((0 <? n) && (isize i <? off + n))
      (upd_ip (set_size (u32 (off + n))) ;; v6_iupdate) ;;
    ret n.
End V6.

(** * The limits of the log and of the cache

    An operation under limits does what it does without them, until it panics
    because the log or the cache is full.  So the lemmas below are about
    operations without limits; the theorems hold under any. *)

Definition over (lim : option limits) (s : state) : Prop :=
  match lim with Some l => log_room l <= Z.of_nat (length (logged s)) \/ nbuf l <= pinned s | None => False end.

(** The operation stops at a limit. *)
Definition overruns (lim : option limits) {A} (m : M state A) (s : state) : Prop := exists s', m s = Panic s' /\ over lim s'.

(** The outcome, unless a limit is in the way. *)
Definition gives (lim : option limits) {A} (m : M state A) (s : state) (o : outcome state A) : Prop := m s = o \/ overruns lim m s.

Definition obeys (lim : option limits) {A} (m m' : M state A) : Prop := forall s, gives lim m s (m' s).

Lemma overruns_none {A} (m : M state A) s : ~ overruns None m s.
Proof. by intros (? & _ & []). Qed.

Section Obeys.
Context (lim : option limits).

Lemma obeys_refl {A} (m : M state A) : obeys lim m m.
Proof. by left. Qed.

Lemma obeys_bind {A B} (m m' : M state A) (k k' : A -> M state B) :
  obeys lim m m' -> (forall a, obeys lim (k a) (k' a)) -> obeys lim (bind m k) (bind m' k').
Proof.
  intros Hm Hk s. destruct (Hm s) as [E|(s1 & E & Ho)].
  - unfold gives, overruns, bind. rewrite E. destruct (m' s) as [a s1| | |]; [apply (Hk a s1)|by left..].
  - right. exists s1. unfold bind. by rewrite E.
Qed.

Lemma obeys_if {A} (b : bool) (m m' n n' : M state A) : obeys lim m m' -> obeys lim n n' -> obeys lim (if b then m else n) (if b then m' else n').
Proof. by destruct b. Qed.

Lemma obeys_loop {I R} (l : list I) (m m' : I -> M state (option R)) : (forall i, obeys lim (m i) (m' i)) -> obeys lim (loop l m) (loop l m').
Proof.
  intros H. induction l as [|i l IH]; [apply obeys_refl|]. apply obeys_bind; [done|]. intros [|]; [apply obeys_refl|done].
Qed.

Lemma obeys_for_each {I} (l : list I) (m m' : I -> M state unit) : (forall i, obeys lim (m i) (m' i)) -> obeys lim (for_each l m) (for_each l m').
Proof. intros H. induction l as [|i l IH]; [apply obeys_refl|]. by apply obeys_bind. Qed.

Lemma obeys_bread nsecs n : obeys lim (bread nsecs lim n) (bread nsecs None n).
Proof.
  intros s. unfold gives, bread. case_bool_decide; [by left|]. destruct (no_buffers lim n s) eqn:E; [right|by left].
  exists s. rewrite bool_decide_eq_false_2, E by done. split; [done|]. unfold no_buffers in E. destruct lim as [l|]; [|done]. right.
  by apply andb_true_iff in E as [_ E%Z.leb_le].
Qed.

Lemma obeys_log_write n : obeys lim (log_write lim n) (log_write None n).
Proof.
  intros s. unfold gives, log_write. destruct (log_full lim s) eqn:E; [right|by left]. exists s. rewrite E. split; [done|].
  unfold log_full in E. destruct lim as [l|]; [|done]. left. by apply Z.leb_le.
Qed.
End Obeys.

Create HintDb limits discriminated.
#[export] Hint Resolve obeys_bread obeys_log_write : limits.

(** Walks through an operation, its branches and its loops. *)
Ltac obeys :=
  repeat (intros; cbv zeta; first
    [ solve [auto with limits nocore] | apply obeys_loop | apply obeys_for_each | apply obeys_bind | apply obeys_if
    | match goal with |- obeys _ (match ?x with _ => _ end) _ => destruct x end | apply obeys_refl ]).

Section Operations.
Context (sb : v6_superblock) (nsecs : Z) (lim : option limits).
Context (devsw_read : Z -> option (Z -> M state (Z * bytes))).
Context (devsw_write : Z -> option (bytes -> M state Z)).

Lemma obeys_bzero b : obeys lim (v6_bzero nsecs lim b) (v6_bzero nsecs None b).
Proof. unfold v6_bzero. obeys. Qed.
#[local] Hint Resolve obeys_bzero : limits.

Lemma obeys_balloc : obeys lim (v6_balloc sb nsecs lim) (v6_balloc sb nsecs None).
Proof. unfold v6_balloc, balloc_block. obeys. Qed.
#[local] Hint Resolve obeys_balloc : limits.

Lemma obeys_bfree b : obeys lim (v6_bfree sb nsecs lim b) (v6_bfree sb nsecs None b).
Proof. unfold v6_bfree. obeys. Qed.

Lemma obeys_iupdate : obeys lim (v6_iupdate sb nsecs lim) (v6_iupdate sb nsecs None).
Proof. unfold v6_iupdate. obeys. Qed.
#[local] Hint Resolve obeys_iupdate : limits.

Lemma obeys_ilock : obeys lim (v6_ilock sb nsecs lim) (v6_ilock sb nsecs None).
Proof. unfold v6_ilock. obeys. Qed.

Lemma obeys_bmap bn : obeys lim (v6_bmap sb nsecs lim bn) (v6_bmap sb nsecs None bn).
Proof. unfold v6_bmap, inode_addr, slot_addr. obeys. Qed.
#[local] Hint Resolve obeys_bmap : limits.

Lemma obeys_readi_loop fuel off n : obeys lim (readi_loop sb nsecs lim fuel off n) (readi_loop sb nsecs None fuel off n).
Proof. revert off n. induction fuel as [|fuel IH]; intros off n; cbn [readi_loop]; obeys. Qed.
#[local] Hint Resolve obeys_readi_loop : limits.

Lemma obeys_writei_loop fuel src off n : obeys lim (writei_loop sb nsecs lim fuel src off n) (writei_loop sb nsecs None fuel src off n).
Proof. revert src off n. induction fuel as [|fuel IH]; intros src off n; cbn [writei_loop]; obeys. Qed.
#[local] Hint Resolve obeys_writei_loop : limits.

Lemma obeys_readi off n : obeys lim (v6_readi sb nsecs lim devsw_read off n) (v6_readi sb nsecs None devsw_read off n).
Proof. unfold v6_readi. obeys. Qed.

Lemma obeys_writei src off n : obeys lim (v6_writei sb nsecs lim devsw_write src off n) (v6_writei sb nsecs None devsw_write src off n).
Proof. unfold v6_writei, when. obeys. Qed.
End Operations.
#[export] Hint Resolve obeys_bfree obeys_iupdate obeys_readi obeys_writei : limits.

(** * The bitmap *)

Lemma testbit_u8 x k : 0 <= k < 8 -> Z.testbit (u8 x) k = Z.testbit x k.
Proof. intros. apply Z.mod_pow2_bits_low. lia. Qed.

Lemma bit_clear_testbit d bi : bit_clear d bi = negb (Z.testbit (map_byte d bi) (bi mod 8)).
Proof.
  unfold bit_clear, bit_mask. rewrite Z.shiftl_1_l. pose proof (Z.mod_pos_bound bi 8 ltac:(lia)) as Hm.
  destruct (Z.eqb_spec (Z.land (map_byte d bi) (2 ^ (bi mod 8))) 0) as [E|E].
  - apply (f_equal (fun x => Z.testbit x (bi mod 8))) in E.
    rewrite Z.land_spec, Z.pow2_bits_true, Z.bits_0, andb_true_r in E by lia. by rewrite E.
  - destruct (Z.testbit (map_byte d bi) (bi mod 8)) eqn:Et; [done|]. exfalso. apply E. apply Z.bits_inj'. intros k Hk.
    rewrite Z.land_spec, Z.pow2_bits_eqb, Z.bits_0 by lia.
    destruct (Z.eqb_spec (bi mod 8) k) as [<-|]; [by rewrite Et|by rewrite andb_false_r].
Qed.

Lemma same_bit bi bj : 0 <= bi -> 0 <= bj -> bj / 8 = bi / 8 -> bj mod 8 = bi mod 8 -> bj = bi.
Proof. intros. pose proof (Z.div_mod bi 8). pose proof (Z.div_mod bj 8). lia. Qed.

Lemma bit_set_spec d bi bj :
  0 <= bi < Z.of_nat (8 * length d) -> 0 <= bj ->
  bit_clear (<[Z.to_nat (bi / 8) := u8 (Z.lor (map_byte d bi) (bit_mask bi))]> d) bj =
  (if bj =? bi then false else bit_clear d bj).
Proof.
  intros Hi Hj. rewrite !bit_clear_testbit. unfold map_byte at 1.
  pose proof (Z.mod_pos_bound bj 8 ltac:(lia)) as Hm. pose proof (Z.mod_pos_bound bi 8 ltac:(lia)) as Hm'.
  assert (0 <= bi / 8 < Z.of_nat (length d)) by (split; [apply Z.div_pos; lia|apply Z.div_lt_upper_bound; lia]).
  assert (0 <= bj / 8) by (apply Z.div_pos; lia).
  destruct (decide (bj / 8 = bi / 8)) as [E|E].
  - rewrite E, list_lookup_insert_eq by lia. cbn [default id]. rewrite testbit_u8 by lia.
    unfold bit_mask. rewrite Z.lor_spec, Z.shiftl_1_l, Z.pow2_bits_eqb by lia.
    destruct (Z.eqb_spec bj bi) as [->|Hne]; [by rewrite Z.eqb_refl, orb_true_r|].
    destruct (Z.eqb_spec (bi mod 8) (bj mod 8)) as [Em|]; [exfalso; apply Hne; apply same_bit; lia|].
    rewrite orb_false_r. unfold map_byte. by rewrite E.
  - rewrite list_lookup_insert_ne by lia. destruct (Z.eqb_spec bj bi) as [->|]; [done|]. done.
Qed.

Lemma bit_reset_spec d bi bj :
  0 <= bi < Z.of_nat (8 * length d) -> 0 <= bj ->
  bit_clear (<[Z.to_nat (bi / 8) := Z.land (map_byte d bi) (not_w 8 (bit_mask bi))]> d) bj =
  (if bj =? bi then true else bit_clear d bj).
Proof.
  intros Hi Hj. rewrite !bit_clear_testbit. unfold map_byte at 1.
  pose proof (Z.mod_pos_bound bj 8 ltac:(lia)) as Hm. pose proof (Z.mod_pos_bound bi 8 ltac:(lia)) as Hm'.
  assert (0 <= bi / 8 < Z.of_nat (length d)) by (split; [apply Z.div_pos; lia|apply Z.div_lt_upper_bound; lia]).
  assert (0 <= bj / 8) by (apply Z.div_pos; lia).
  destruct (decide (bj / 8 = bi / 8)) as [E|E].
  - rewrite E, list_lookup_insert_eq by lia. cbn [default id]. unfold not_w, bit_mask.
    change (2 ^ 8 - 1) with (Z.ones 8).
    rewrite Z.land_spec, Z.lxor_spec, Z.shiftl_1_l, Z.pow2_bits_eqb, Z.ones_spec_low by lia.
    destruct (Z.eqb_spec bj bi) as [->|Hne]; [by rewrite Z.eqb_refl, andb_false_r|].
    destruct (Z.eqb_spec (bi mod 8) (bj mod 8)) as [Em|]; [exfalso; apply Hne; apply same_bit; lia|].
    cbn [xorb]. rewrite andb_true_r. unfold map_byte. by rewrite E.
  - rewrite list_lookup_insert_ne by lia. destruct (Z.eqb_spec bj bi) as [->|]; [done|]. done.
Qed.

Lemma find_clear_Some d bi k r :
  find_clear d bi k = Some r ->
  bi <= r < bi + Z.of_nat k /\ bit_clear d r = true /\ forall j, bi <= j < r -> bit_clear d j = false.
Proof.
  revert bi. induction k as [|k IH]; intros bi; cbn [find_clear]; [done|].
  destruct (bit_clear d bi) eqn:E.
  - intros [= <-]. split_and!; [lia|lia|done|lia].
  - intros (Hr & Hc & Hb)%IH. split_and!; [lia|lia|done|]. intros j Hj.
    destruct (decide (j = bi)) as [->|]; [done|]. apply Hb. lia.
Qed.

Lemma find_clear_None d bi k :
  find_clear d bi k = None -> forall j, bi <= j < bi + Z.of_nat k -> bit_clear d j = false.
Proof.
  revert bi. induction k as [|k IH]; intros bi; cbn [find_clear]; [lia|].
  destruct (bit_clear d bi) eqn:E; [done|]. intros H j Hj.
  destruct (decide (j = bi)) as [->|]; [done|]. apply (IH (bi + 1)); [done|lia].
Qed.

(** * The layout of a volume *)

Class Layout (sb : v6_superblock) (nsecs : Z) : Type := {
  dstart : Z;   (* the first data block *)
  lay_inodes : 0 <= inodestart sb /\ 0 < ninodes sb;
  lay_inode_end : inodestart sb + (ninodes sb - 1) / IPB < bmapstart sb;
  lay_bmap_end : bmapstart sb + size sb / BPB < dstart;
  lay_data : 0 < dstart <= size sb;
  lay_size : size sb <= nsecs /\ size sb < 2 ^ 30 /\ ninodes sb <= size sb }.

Section Alloc.
Context (sb : v6_superblock) (nsecs : Z) {lay : Layout sb nsecs}.

Definition used (s : state) (b : Z) : bool := negb (bit_clear (bdata s (BBLOCK sb b)) (b mod BPB)).

(** Every block has [BSIZE] bytes; the blocks below the data area are in use. *)
Record vol_ok (s : state) : Prop := {
  vol_len n : length (bdata s n) = 4096%nat;
  vol_meta b : 0 <= b < dstart -> used s b = true }.

(** The buffers a caller of [v6_balloc] holds are of data blocks in use. *)
Definition held_ok (s : state) : Prop := forall n, n ∈ locked s -> dstart <= n < size sb /\ used s n = true.

Lemma BBLOCK_range b : 0 <= b < size sb -> BBLOCK sb b = b / BPB + bmapstart sb /\ 0 < BBLOCK sb b < dstart.
Proof.
  intros Hb. pose proof lay_bmap_end. pose proof lay_inode_end. pose proof lay_inodes. pose proof lay_data. pose proof lay_size.
  assert (0 <= b / BPB <= size sb / BPB) as Hq.
  { split; [apply Z.div_pos; unfold BPB, BSIZE; lia|apply Z.div_le_mono; unfold BPB, BSIZE; lia]. }
  assert (0 <= (ninodes sb - 1) / IPB) by (apply Z.div_pos; unfold IPB; lia).
  unfold BBLOCK. rewrite u32_id; lia.
Qed.

Lemma v6_bread_run n s :
  n ∉ locked s -> n < nsecs -> bread nsecs None n s = Ret tt (set_locked (n :: locked s) s).
Proof.
  intros H1 H2. unfold bread. rewrite bool_decide_eq_false_2 by done. cbn [no_buffers]. destruct (Z.ltb_spec n nsecs); [done|lia].
Qed.

Lemma brelse_run n s l :
  locked s = n :: l -> n ∉ l -> brelse n s = Ret tt (set_locked l s).
Proof.
  intros H1 H2. unfold brelse. rewrite H1, bool_decide_eq_true_2 by left. f_equal. f_equal.
  rewrite filter_cons_False by (intros H; by apply H).
  clear -H2. induction l as [|x l IH]; [done|].
  rewrite filter_cons_True by (intros ->; apply H2; left). f_equal. apply IH. intros H. apply H2. by right.
Qed.

(** Data, locks and inode after a block was logged. *)
Lemma v6_log_write_run n s : exists l, log_write None n s = Ret tt (set_logged l s).
Proof.
  unfold log_write. cbn [log_full]. case_bool_decide; [|by eexists].
  exists (logged s). by destruct s.
Qed.

Lemma bdata_put s n d m : bdata (set_vol (<[n := d]> (vol s)) s) m = if decide (n = m) then d else bdata s m.
Proof. unfold bdata. cbn. case_decide; subst; [by rewrite lookup_insert_eq|by rewrite lookup_insert_ne]. Qed.
Lemma bzero_run s b :
  b ∉ locked s -> b < nsecs ->
  exists l, v6_bzero nsecs None b s = Ret tt (mkV (<[b := zero_block]> (vol s)) (locked s) l (ip s)).
Proof.
  intros H1 H2. unfold v6_bzero. erewrite bind_run by by apply v6_bread_run.
  run_step. destruct (v6_log_write_run b (set_vol (<[b := zero_block]> (vol s)) (set_locked (b :: locked s) s))) as [l Hl].
  exists l. erewrite bind_run by exact Hl. by rewrite (brelse_run _ _ (locked s)).
Qed.

(** What [v6_balloc] did: block [b] was free and is now in use and zeroed. *)
Record allocated (s s' : state) (b : Z) : Prop := {
  al_free : used s b = false;
  al_range : dstart <= b < size sb;
  al_locked : locked s' = locked s;
  al_ip : ip s' = ip s;
  al_zero : bdata s' b = zero_block;
  al_other c : c <> b -> c < bmapstart sb \/ dstart <= c -> bdata s' c = bdata s c;
  al_used c : 0 <= c < size sb -> used s' c = (c =? b) || used s c;
  al_vol : vol_ok s' }.

Lemma BPB_pos : 0 < BPB.
Proof. unfold BPB, BSIZE. lia. Qed.

Lemma same_bitmap_block c c' :
  0 <= c < size sb -> 0 <= c' < size sb -> BBLOCK sb c = BBLOCK sb c' -> c mod BPB = c' mod BPB -> c = c'.
Proof.
  intros Hc Hc' HB Hm. destruct (BBLOCK_range c Hc) as [E _], (BBLOCK_range c' Hc') as [E' _].
  pose proof (Z.div_mod c BPB). pose proof (Z.div_mod c' BPB). pose proof BPB_pos. nia.
Qed.

Lemma used_alloc s b d l :
  vol_ok s -> dstart <= b < size sb ->
  let bn := BBLOCK sb b in let bi := b mod BPB in
  d = <[Z.to_nat (bi / 8) := u8 (Z.lor (map_byte (bdata s bn) bi) (bit_mask bi))]> (bdata s bn) ->
  used s b = false ->
  allocated s (mkV (<[b := zero_block]> (<[bn := d]> (vol s))) (locked s) l (ip s)) b.
Proof.
  intros Hv Hb bn bi Hd Hfree. pose proof lay_data as Hld.
  destruct (BBLOCK_range b ltac:(lia)) as [_ Hbn]. fold bn in Hbn.
  pose proof (Z.mod_pos_bound b BPB BPB_pos) as Hbi. fold bi in Hbi.
  set (s' := mkV _ _ _ _).
  assert (forall c, bdata s' c = if decide (b = c) then zero_block else if decide (bn = c) then d else bdata s c) as Hdat.
  { intros c. unfold bdata, s'. cbn. repeat case_decide; subst;
      rewrite ?lookup_insert_eq, ?lookup_insert_ne by done; rewrite ?lookup_insert_eq, ?lookup_insert_ne by done; done. }
  assert (Z.of_nat (8 * length (bdata s bn)) = BPB) as Hlen by (rewrite Nat2Z.inj_mul, (vol_len _ Hv); reflexivity).
  assert (forall c, 0 <= c < size sb -> used s' c = (c =? b) || used s c) as Hused.
  { intros c Hc. destruct (BBLOCK_range c Hc) as [_ HBc]. unfold used at 1. rewrite Hdat, decide_False by lia.
    case_decide as E.
    - rewrite Hd, bit_set_spec by (rewrite ?Hlen; apply Z.mod_pos_bound, BPB_pos || lia).
      destruct (Z.eqb_spec c b) as [->|Hne]; [by rewrite Z.eqb_refl|].
      destruct (Z.eqb_spec (c mod BPB) bi) as [Em|]; [exfalso; apply Hne, same_bitmap_block; [lia|lia|done|done]|].
      cbn. unfold used. by rewrite <- E.
    - destruct (Z.eqb_spec c b) as [->|Hne]; [done|]. done. }
  split; try done.
  - by rewrite Hdat, decide_True.
  - intros c Hne Hc. rewrite Hdat, !decide_False; [done| |done].
    destruct (BBLOCK_range b ltac:(lia)) as [EB HB]. intros <-.
    assert (0 <= b / BPB) by (apply Z.div_pos; [lia|apply BPB_pos]). lia.
  - split.
    + intros n. rewrite Hdat. repeat case_decide; [done| |apply Hv]. rewrite Hd, length_insert. apply Hv.
    + intros c Hc. rewrite Hused by lia. rewrite (vol_meta _ Hv) by done. apply orb_true_r.
Qed.

Lemma balloc_block_run s b0 :
  vol_ok s -> held_ok s -> 0 <= b0 < size sb -> b0 mod BPB = 0 ->
  (exists b s', balloc_block sb nsecs None b0 s = Ret (Some b) s' /\ allocated s s' b /\ b0 <= b < b0 + BPB /\ forall c, b0 <= c < b -> used s c = true) \/
  (balloc_block sb nsecs None b0 s = Ret None s /\ forall b, b0 <= b < b0 + BPB -> b < size sb -> used s b = true).
Proof.
  intros Hv Hh Hb0 Hm. pose proof lay_data as Hld. pose proof lay_size as Hls.
  destruct (BBLOCK_range b0 Hb0) as [EB HB]. pose proof BPB_pos as Hp.
  assert (BBLOCK sb b0 ∉ locked s) as Hnl by (intros Hin; apply Hh in Hin; lia).
  assert (forall b, b0 <= b < b0 + BPB -> b < size sb -> BBLOCK sb b = BBLOCK sb b0 /\ b mod BPB = b - b0) as Hsame.
  { intros b Hb Hbs. destruct (BBLOCK_range b ltac:(lia)) as [-> _]. rewrite EB.
    pose proof (Z.div_mod b0 BPB ltac:(lia)). 
    assert (b / BPB = b0 / BPB) as -> by (symmetry; apply Z.div_unique with (b - b0); lia).
    split; [done|]. symmetry. apply Z.mod_unique with (b0 / BPB); lia. }
  unfold balloc_block. erewrite bind_run by (apply v6_bread_run; [done|lia]).
  run_step. change (bdata (set_locked _ s) ?n) with (bdata s n).
  destruct (find_clear (bdata s (BBLOCK sb b0)) 0 _) as [bi|] eqn:E.
  - left. apply find_clear_Some in E as (Hr & Hc & Hfst). cbn zeta in *.
    assert (0 <= bi < BPB /\ b0 + bi < size sb) as [Hbi Hbs] by lia.
    destruct (Hsame (b0 + bi) ltac:(lia) Hbs) as [ES EM]. replace (b0 + bi - b0) with bi in EM by lia.
    assert (used s (b0 + bi) = false) as Hfree by (unfold used; rewrite ES, EM, Hc; done).
    assert (dstart <= b0 + bi) as Hds.
    { destruct (decide (dstart <= b0 + bi)); [done|]. rewrite (vol_meta _ Hv) in Hfree by lia. done. }
    run_step.
    destruct (v6_log_write_run (BBLOCK sb b0) (set_vol (<[BBLOCK sb b0 := <[Z.to_nat (bi / 8) := u8 (Z.lor (map_byte (bdata s (BBLOCK sb b0)) bi) (bit_mask bi))]> (bdata s (BBLOCK sb b0))]> (vol s))
      (set_locked (BBLOCK sb b0 :: locked s) s))) as [l Hl].
    erewrite bind_run by exact Hl. erewrite bind_run by (apply (brelse_run _ _ (locked s)); done).
    destruct (bzero_run (set_locked (locked s) (set_logged l (set_vol (<[BBLOCK sb b0 := <[Z.to_nat (bi / 8) := u8 (Z.lor (map_byte (bdata s (BBLOCK sb b0)) bi) (bit_mask bi))]> (bdata s (BBLOCK sb b0))]> (vol s))
      (set_locked (BBLOCK sb b0 :: locked s) s)))) (b0 + bi)) as [l' Hz].
    { cbn. intros Hin. apply Hh in Hin as [_ Hu]. congruence. }
    { lia. }
    erewrite bind_run by exact Hz. cbn.
    eexists _, _. split; [reflexivity|]. split; [|split; [lia|]].
    2: { intros c Hcr. unfold used. destruct (Hsame c ltac:(lia) ltac:(lia)) as [-> ->]. rewrite Hfst by lia. done. }
    rewrite <- ES. apply used_alloc; [done|lia| |done]. by rewrite EM, ES.
  - right. erewrite bind_run by (apply (brelse_run _ _ (locked s)); done). split; [by destruct s|].
    intros b Hb Hbs. destruct (Hsame b Hb Hbs) as [ES EM]. unfold used. rewrite ES, EM.
    rewrite (find_clear_None _ _ _ E); [done|]. lia.
Qed.

(** The blocks [v6_balloc] looks at. *)
Definition scanned (b : Z) : Prop := 0 <= b < size sb /\ b < ((ninodes sb + BPB - 1) / BPB) * BPB.

Lemma balloc_loop_run s n :
  vol_ok s -> held_ok s -> 0 <= n -> (n - 1) * BPB < size sb \/ n = 0 ->
  (exists b s', loop ((fun i => i * BPB) <$> seqZ 0 n) (balloc_block sb nsecs None) s = Ret (Some b) s' /\ allocated s s' b /\ b < n * BPB /\ forall c, 0 <= c < b -> used s c = true) \/
  (loop ((fun i => i * BPB) <$> seqZ 0 n) (balloc_block sb nsecs None) s = Ret None s /\
   forall b, 0 <= b < n * BPB -> b < size sb -> used s b = true).
Proof.
  intros Hv Hh Hn Hlim. pose proof BPB_pos as Hp. pose proof lay_data as Hld.
  assert (forall k a, 0 <= a -> a + Z.of_nat k = n ->
    (exists b s', loop ((fun i => i * BPB) <$> seqZ a (Z.of_nat k)) (balloc_block sb nsecs None) s = Ret (Some b) s' /\ allocated s s' b /\ b < n * BPB /\ forall c, a * BPB <= c < b -> used s c = true) \/
    (loop ((fun i => i * BPB) <$> seqZ a (Z.of_nat k)) (balloc_block sb nsecs None) s = Ret None s /\
     forall b, a * BPB <= b < n * BPB -> b < size sb -> used s b = true)) as H.
  { induction k as [|k IH]; intros a Ha Hak.
    - right. split; [done|]. intros b Hb. nia.
    - rewrite seqZ_cons by lia. cbn [fmap list_fmap loop]. replace (Z.pred (Z.of_nat (S k))) with (Z.of_nat k) by lia.
      destruct (balloc_block_run s (a * BPB) Hv Hh) as [(b & s' & Hr & Hal & Hbr & Hfst)|[Hr Hall]].
      + destruct Hlim; [|lia]. nia.
      + apply Z.mod_mul. lia.
      + left. exists b, s'. split; [by erewrite bind_run by exact Hr|]. split; [done|]. split; [nia|done].
      + erewrite bind_run by exact Hr. change (Z.succ a) with (a + 1).
        destruct (IH (a + 1) ltac:(lia) ltac:(lia)) as [(b & s' & Hl & Hal & Hbn & Hfst)|[Hl Hrest]]; [left|right].
        { exists b, s'. split_and!; try done. intros c Hc. destruct (decide (c < a * BPB + BPB)); [|apply Hfst; nia].
          apply Hall; [lia|]. pose proof (al_range _ _ _ Hal). lia. }
        split; [done|]. intros b Hb Hbs. destruct (decide (b < a * BPB + BPB)); [apply Hall; lia|apply Hrest; nia]. }
  destruct (H (Z.to_nat n) 0 ltac:(lia) ltac:(lia)) as [Hl|[Hl Hrest]]; rewrite ?Z2Nat.id, ?Z.mul_0_l in * by lia; [by left|right].
  split; [done|]. intros b Hb. apply Hrest. lia.
Qed.
Lemma balloc_run s :
  vol_ok s -> held_ok s ->
  (exists b s', v6_balloc sb nsecs None s = Ret b s' /\ allocated s s' b /\ scanned b /\ forall c, 0 <= c < b -> used s c = true) \/
  (v6_balloc sb nsecs None s = Panic s /\ forall b, scanned b -> used s b = true).
Proof.
  intros Hv Hh. pose proof BPB_pos as Hp. pose proof lay_inodes as Hi. pose proof lay_size as Hs.
  unfold v6_balloc, balloc_starts.
  destruct (balloc_loop_run s ((ninodes sb + BPB - 1) / BPB) Hv Hh) as [(b & s' & Hr & Hal & Hb & Hfst)|[Hr Hall]].
  - apply Z.div_pos; lia.
  - left. pose proof (Z.div_mod (ninodes sb + BPB - 1) BPB ltac:(lia)).
    pose proof (Z.mod_pos_bound (ninodes sb + BPB - 1) BPB Hp). nia.
  - left. exists b, s'. split; [by erewrite bind_run by exact Hr|]. split; [done|].
    pose proof (al_range _ _ _ Hal). pose proof lay_data. split; [split; lia|done].
  - right. split; [by erewrite bind_run by exact Hr|]. intros b [H1 H2]. apply Hall; lia.
Qed.

Lemma held_data s : held_ok s -> forall n, n ∈ locked s -> dstart <= n.
Proof. intros Hh n Hn. by apply Hh. Qed.

(** What [v6_bfree] does to a block in use, and to a free one. *)
Lemma bfree_run s b :
  vol_ok s -> (forall n, n ∈ locked s -> dstart <= n) -> dstart <= b < size sb ->
  if used s b then exists s', v6_bfree sb nsecs None b s = Ret tt s' /\ locked s' = locked s /\ ip s' = ip s /\
      (forall c, c < bmapstart sb \/ dstart <= c -> bdata s' c = bdata s c) /\
      (forall c, 0 <= c < size sb -> used s' c = negb (c =? b) && used s c) /\ vol_ok s'
  else exists s', v6_bfree sb nsecs None b s = Panic s'.
Proof.
  intros Hv Hh Hb. pose proof lay_data as Hld. pose proof lay_size as Hls.
  destruct (BBLOCK_range b ltac:(lia)) as [EB HB].
  assert (BBLOCK sb b ∉ locked s) as Hnl by (intros Hin; apply Hh in Hin; lia).
  unfold v6_bfree. erewrite bind_run by (apply v6_bread_run; [done|lia]).
  run_step. change (bdata (set_locked _ s) ?n) with (bdata s n). cbn zeta.
  unfold used. destruct (bit_clear (bdata s (BBLOCK sb b)) (b mod BPB)) eqn:Ec; cbn [negb]; [by eexists|].
  set (d := <[_ := _]> (bdata s (BBLOCK sb b))). run_step.
  destruct (v6_log_write_run (BBLOCK sb b) (set_vol (<[BBLOCK sb b := d]> (vol s)) (set_locked (BBLOCK sb b :: locked s) s))) as [l Hl].
  erewrite bind_run by exact Hl. rewrite (brelse_run _ _ (locked s)) by done.
  eexists. split; [reflexivity|]. set (s' := set_locked _ _).
  assert (forall c, bdata s' c = if decide (BBLOCK sb b = c) then d else bdata s c) as Hdat.
  { intros c. unfold bdata, s'. cbn. case_decide; subst; [by rewrite lookup_insert_eq|by rewrite lookup_insert_ne]. }
  pose proof (Z.mod_pos_bound b BPB BPB_pos) as Hbi.
  assert (Z.of_nat (8 * length (bdata s (BBLOCK sb b))) = BPB) as Hlen by (rewrite Nat2Z.inj_mul, (vol_len _ Hv); reflexivity).
  assert (forall c, 0 <= c < size sb -> used s' c = negb (c =? b) && used s c) as Hused.
  { intros c Hc. unfold used at 1. rewrite Hdat. case_decide as E.
    - unfold d. rewrite bit_reset_spec by (rewrite ?Hlen; apply Z.mod_pos_bound, BPB_pos || lia).
      destruct (Z.eqb_spec c b) as [->|Hne]; [by rewrite Z.eqb_refl|].
      destruct (Z.eqb_spec (c mod BPB) (b mod BPB)) as [Em|]; [exfalso; apply Hne, same_bitmap_block; [lia|lia|done|done]|].
      cbn. unfold used. by rewrite <- E.
    - destruct (Z.eqb_spec c b) as [->|Hne]; [done|]. done. }
  split; [done|]. split; [done|]. split; [|split; [done|split]].
  - intros c Hc. rewrite Hdat, decide_False; [done|]. intros <-.
    assert (0 <= b / BPB) by (apply Z.div_pos; [lia|apply BPB_pos]). lia.
  - intros n. rewrite Hdat. case_decide; [|apply Hv]. unfold d. rewrite length_insert. apply Hv.
  - intros c Hc. rewrite Hused by lia. rewrite (vol_meta _ Hv) by done. destruct (Z.eqb_spec c b); [lia|done].
Qed.

Lemma allocated_held s s1 b : allocated s s1 b -> held_ok s -> held_ok s1.
Proof.
  intros Hal Hh n. rewrite (al_locked _ _ _ Hal). intros Hin. destruct (Hh n Hin) as [Hd Hu]. split; [done|].
  pose proof lay_data. rewrite (al_used _ _ _ Hal), Hu by lia. apply orb_true_r.
Qed.

(** A block is allocated and given back; no limits. *)
Lemma balloc_bfree_run s :
  vol_ok s -> held_ok s ->
  ((exists b, scanned b /\ used s b = false) ->
     exists b s1 s2, v6_balloc sb nsecs None s = Ret b s1 /\ allocated s s1 b /\ (forall c, 0 <= c < b -> used s c = true) /\
       v6_bfree sb nsecs None b s1 = Ret tt s2 /\ (forall c, 0 <= c < size sb -> used s2 c = used s c) /\
       (forall c, c <> b -> c < bmapstart sb \/ dstart <= c -> bdata s2 c = bdata s c) /\
       exists s3, v6_bfree sb nsecs None b s2 = Panic s3) /\
  ((forall b, scanned b -> used s b = true) -> v6_balloc sb nsecs None s = Panic s).
Proof.
  intros Hv Hh. destruct (balloc_run s Hv Hh) as [(b & s1 & Hr & Hal & Hsc & Hfst)|[Hr Hall]].
  - split; [|intros Hall; pose proof (Hall b Hsc); by rewrite (al_free _ _ _ Hal) in *].
    intros _. pose proof (al_range _ _ _ Hal) as Hrg. pose proof lay_data as Hld.
    pose proof (allocated_held _ _ _ Hal Hh) as Hh1.
    pose proof (bfree_run s1 b (al_vol _ _ _ Hal) (held_data _ Hh1) Hrg) as Hf.
    rewrite (al_used _ _ _ Hal b), Z.eqb_refl in Hf by lia. cbn [orb] in Hf.
    destruct Hf as (s2 & Hr2 & Hl2 & _ & Hd2 & Hu2 & Hv2).
    assert (forall c, 0 <= c < size sb -> used s2 c = used s c) as Hback.
    { intros c Hc. rewrite Hu2, (al_used _ _ _ Hal) by done. destruct (Z.eqb_spec c b) as [->|]; [|done].
      cbn. by rewrite (al_free _ _ _ Hal). }
    exists b, s1, s2. split_and!; try done.
    + intros c Hne Hc. rewrite Hd2 by done. by apply (al_other _ _ _ Hal).
    + assert (held_ok s2) as Hh2.
      { intros n. rewrite Hl2, (al_locked _ _ _ Hal). intros Hin. destruct (Hh n Hin) as [Hn Hun].
        split; [done|]. rewrite Hback by lia. done. }
      pose proof (bfree_run s2 b Hv2 (held_data _ Hh2) Hrg) as Hf. by rewrite Hback, (al_free _ _ _ Hal) in Hf by lia.
  - split; [|done]. intros (b & Hsc & Hfree). by rewrite (Hall b Hsc) in Hfree.
Qed.

(** C31: [v6_balloc] returns the first free block of those it looks at, a data
    block, marks that block and no other in use, zeroes it, and leaves every
    other data block and inode block, the locks and the inode alone.  It panics if every block
    it looks at is in use, and otherwise only at a limit.  Giving the block
    back with [v6_bfree] makes it and no other free; giving it back again panics. *)
Theorem balloc_bfree_exact lim s :
  vol_ok s -> held_ok s ->
  ((exists b, scanned b /\ used s b = false) ->
     overruns lim (v6_balloc sb nsecs lim) s \/
     exists b s1, v6_balloc sb nsecs lim s = Ret b s1 /\ scanned b /\ (forall c, 0 <= c < b -> used s c = true) /\ allocated s s1 b /\
       (overruns lim (v6_bfree sb nsecs lim b) s1 \/
        exists s2, v6_bfree sb nsecs lim b s1 = Ret tt s2 /\ (forall c, 0 <= c < size sb -> used s2 c = used s c) /\
          (forall c, c <> b -> c < bmapstart sb \/ dstart <= c -> bdata s2 c = bdata s c) /\
          exists s3, v6_bfree sb nsecs lim b s2 = Panic s3)) /\
  ((forall b, scanned b -> used s b = true) -> gives lim (v6_balloc sb nsecs lim) s (Panic s)).
Proof.
  intros Hv Hh. destruct (balloc_bfree_run s Hv Hh) as [Hfree Hfull]. pose proof (obeys_balloc sb nsecs lim s) as Ho. split.
  - intros Hex. destruct (Hfree Hex) as (b & s1 & s2 & E1 & Hal & Hfst & E2 & Hu & Hd & s3 & E3).
    destruct Ho as [Ho|Ho]; [right|by left]. rewrite E1 in Ho. exists b, s1. split_and!; try done.
    { pose proof (al_range _ _ _ Hal). pose proof lay_data. destruct Hex as (b' & [Hb' Hsc] & Hf). split; [lia|].
      destruct (decide (b' < b)); [|lia]. rewrite Hfst in Hf by lia. done. }
    destruct (obeys_bfree sb nsecs lim b s1) as [Ho2|Ho2]; [right|by left]. rewrite E2 in Ho2. exists s2. split_and!; try done.
    destruct (obeys_bfree sb nsecs lim b s2) as [Ho3|(s4 & Ho3 & _)]; [exists s3; by rewrite Ho3|by exists s4].
  - intros Hall. rewrite (Hfull Hall) in Ho. exact Ho.
Qed.
End Alloc.

(** * The tree of block addresses *)

Inductive pos : Type :=
| PA (i : Z)         (* [addrs[i]] *)
| PI (j : Z)         (* slot [j] of the indirect block *)
| PD (i : Z)         (* slot [i] of the double indirect block *)
| PDD (i j : Z).     (* slot [j] of its child [i] *)

#[export] Instance pos_eq_dec : EqDecision pos.
Proof. solve_decision. Defined.

Definition valid_pos (p : pos) : Prop :=
  match p with
  | PA i => 0 <= i < NDIRECT + 2
  | PI j => 0 <= j < NINDIRECT
  | PD i => 0 <= i < NINDIRECT
  | PDD i j => 0 <= i < NINDIRECT /\ 0 <= j < NINDIRECT
  end.

(** The place of the block a slot lies in, and its index there. *)
Definition parent (p : pos) : option (pos * Z) :=
  match p with
  | PA _ => None
  | PI j => Some (PA NDIRECT, j)
  | PD i => Some (PA (NDIRECT + 1), i)
  | PDD i j => Some (PD i, j)
  end.

Definition slot (s : state) (a k : Z) : Z := ld 4 (bdata s a) (Z.to_nat (4 * k)).

Definition child (s : state) (a k : Z) : Z := if a =? 0 then 0 else slot s a k.

Definition addr_at (s : state) (p : pos) : Z :=
  let root i := default 0 (addrs (ip s) !! Z.to_nat i) in
  match p with
  | PA i => root i
  | PI j => child s (root NDIRECT) j
  | PD i => child s (root (NDIRECT + 1)) i
  | PDD i j => child s (child s (root (NDIRECT + 1)) i) j
  end.

Lemma addr_at_child s p q k : parent p = Some (q, k) -> addr_at s p = child s (addr_at s q) k.
Proof. by destruct p; cbn; intros [= <- <-]. Qed.

Lemma parent_valid p q k : valid_pos p -> parent p = Some (q, k) -> valid_pos q /\ 0 <= k < NINDIRECT.
Proof. destruct p; cbn; intros Hv [= <- <-]; cbn; unfold NDIRECT in *; lia. Qed.

Lemma parent_inj p p' q k : parent p = Some (q, k) -> parent p' = Some (q, k) -> p = p'.
Proof. destruct p, p'; cbn; intros [= <- <-] H; try done; injection H; intros; by subst. Qed.

(** Induction from the inode down. *)
Lemma pos_ind_down (P : pos -> Prop) :
  (forall i, valid_pos (PA i) -> P (PA i)) ->
  (forall p q k, valid_pos p -> parent p = Some (q, k) -> P q -> P p) ->
  forall p, valid_pos p -> P p.
Proof.
  intros H0 HS. assert (forall p q k, valid_pos p -> parent p = Some (q, k) -> (valid_pos q -> P q) -> P p) as H.
  { intros p q k Hv Hp Hq. eapply HS; [done..|]. apply Hq. by eapply parent_valid. }
  intros [i|j|i|i j] Hv; [by apply H0|eapply H; [done..|]; intros; by apply H0|eapply H; [done..|]; intros; by apply H0|].
  eapply H; [done|reflexivity|]. intros Hv'. eapply H; [done|reflexivity|]. intros. by apply H0.
Qed.

(** Places that hold file data, and the data there. *)
Definition data_pos (p : pos) : bool :=
  match p with PA i => i <? NDIRECT | PI _ => true | PD _ => false | PDD _ _ => true end.

Lemma parent_not_data p q k : parent p = Some (q, k) -> data_pos q = false.
Proof. by destruct p; cbn; intros [= <- <-]. Qed.

Section Tree.
Context (sb : v6_superblock) (nsecs : Z) {lay : Layout sb nsecs}.
Notation used := (used sb).
Notation vol_ok := (vol_ok sb nsecs).
Notation held_ok := (held_ok sb nsecs).
Notation allocated := (allocated sb nsecs).

Record tree_ok (s : state) : Prop := {
  tree_len : length (addrs (ip s)) = 13%nat;
  tree_data p : valid_pos p -> addr_at s p <> 0 -> dstart <= addr_at s p < size sb /\ used s (addr_at s p) = true;
  tree_inj p q : valid_pos p -> valid_pos q -> addr_at s p <> 0 -> addr_at s p = addr_at s q -> p = q }.

(** Two states that agree on the inode's addresses and on the blocks of the
    tree have the same tree. *)
Lemma addr_at_ext s s' p :
  addrs (ip s') = addrs (ip s) ->
  (forall q, valid_pos q -> data_pos q = false -> addr_at s q <> 0 -> bdata s' (addr_at s q) = bdata s (addr_at s q)) ->
  valid_pos p -> addr_at s' p = addr_at s p.
Proof.
  intros Ha Hd. revert p. apply pos_ind_down.
  - intros i _. cbn. by rewrite Ha.
  - intros p q k Hv Hp IH. rewrite !(addr_at_child _ _ _ _ Hp), IH. unfold child, slot.
    destruct (Z.eqb_spec (addr_at s q) 0); [done|]. rewrite Hd; [done|by eapply parent_valid|by eapply parent_not_data|done].
Qed.

Lemma tree_ok_ext s s' :
  addrs (ip s') = addrs (ip s) ->
  (forall q, valid_pos q -> data_pos q = false -> addr_at s q <> 0 -> bdata s' (addr_at s q) = bdata s (addr_at s q)) ->
  (forall b, dstart <= b < size sb -> used s b = true -> used s' b = true) ->
  tree_ok s -> tree_ok s'.
Proof.
  intros Ha Hd Hu [Hl Ht Hi]. pose proof (addr_at_ext s s') as He.
  split; [by rewrite Ha|..].
  - intros p Hv. rewrite He by done. intros H0. destruct (Ht p Hv H0). split; [done|by apply Hu].
  - intros p q Hv Hq. rewrite !He by done. by apply Hi.
Qed.

Lemma alloc_tree s s1 b :
  allocated s s1 b -> tree_ok s ->
  tree_ok s1 /\ (forall p, valid_pos p -> addr_at s1 p = addr_at s p /\ addr_at s p <> b).
Proof.
  intros Hal Ht. pose proof lay_data as Hld.
  assert (forall p, valid_pos p -> addr_at s p <> b) as Hnb.
  { intros p Hv E. destruct (Z.eq_dec (addr_at s p) 0) as [E0|E0].
    - pose proof (al_range _ _ _ _ _ Hal). lia.
    - destruct (tree_data _ Ht p Hv E0) as [_ Hu]. rewrite E, (al_free _ _ _ _ _ Hal) in Hu. done. }
  assert (forall q, valid_pos q -> addr_at s q <> 0 -> bdata s1 (addr_at s q) = bdata s (addr_at s q)) as Hd.
  { intros q Hv H0. apply (al_other _ _ _ _ _ Hal); [by apply Hnb|right; by apply (tree_data _ Ht q Hv H0)]. }
  assert (addrs (ip s1) = addrs (ip s)) as Ha by by rewrite (al_ip _ _ _ _ _ Hal).
  split.
  - apply (tree_ok_ext s); [done|by intros; apply Hd| |done]. intros c Hc Hu. rewrite (al_used _ _ _ _ _ Hal) by lia. rewrite Hu. apply orb_true_r.
  - intros p Hv. split; [apply addr_at_ext; [done|by intros; apply Hd|done]|by apply Hnb].
Qed.

Lemma slot_zero s a k : bdata s a = zero_block -> 0 <= k < NINDIRECT -> slot s a k = 0.
Proof.
  intros H Hk. unfold slot, ld. rewrite H. unfold zero_block. rewrite drop_replicate, take_replicate.
  set (m := Nat.min _ _). clearbody m. induction m as [|m IH]; [done|]. cbn. rewrite IH. done.
Qed.

(** Storing a fresh zeroed block [b] at the empty place [p]. *)
Lemma store_addr s s2 p b :
  tree_ok s -> valid_pos p -> addr_at s p = 0 -> b <> 0 -> bdata s2 b = zero_block ->
  (forall q, valid_pos q -> addr_at s q <> b) ->
  dstart <= b < size sb -> used s2 b = true ->
  (forall c, dstart <= c < size sb -> used s c = true -> used s2 c = true) ->
  length (addrs (ip s2)) = 13%nat ->
  (* only the slot [p] changes *)
  (forall i, valid_pos (PA i) -> PA i <> p -> addr_at s2 (PA i) = addr_at s (PA i)) ->
  (forall q k, valid_pos q -> 0 <= k < NINDIRECT -> addr_at s q <> 0 -> parent p <> Some (q, k) ->
     slot s2 (addr_at s q) k = slot s (addr_at s q) k) ->
  addr_at s2 p = b ->
  tree_ok s2 /\ forall q, valid_pos q -> q <> p -> addr_at s2 q = addr_at s q.
Proof.
  intros Ht Hp Hp0 Hb Hz Hnb Hr Hub Hu Hlen Hroot Hslot Hpb.
  assert (forall q, valid_pos q -> q <> p -> addr_at s2 q = addr_at s q) as Hsame.
  { apply (pos_ind_down (fun q => q <> p -> addr_at s2 q = addr_at s q)).
    - intros i Hv Hne. by apply Hroot.
    - intros q pq k Hv Hpq IH Hne. destruct (parent_valid _ _ _ Hv Hpq) as [Hvp Hk].
      rewrite !(addr_at_child _ _ _ _ Hpq). destruct (decide (pq = p)) as [->|Hpp].
      + rewrite Hpb, Hp0. unfold child. destruct (Z.eqb_spec b 0); [lia|]. by rewrite slot_zero.
      + rewrite IH by done. unfold child. destruct (Z.eqb_spec (addr_at s pq) 0); [done|].
        apply Hslot; [done..|]. intros E. apply Hne. by eapply parent_inj. }
  split; [|done]. split; [done|..].
  - intros q Hv. destruct (decide (q = p)) as [->|Hne]; [by rewrite Hpb|]. rewrite Hsame by done. intros H0.
    destruct (tree_data _ Ht q Hv H0). split; [done|by apply Hu].
  - intros q q' Hv Hv'. destruct (decide (q = p)) as [->|Hne], (decide (q' = p)) as [->|Hne']; try done.
    + rewrite Hpb, Hsame by done. intros _ E. by destruct (Hnb q' Hv').
    + rewrite Hpb, Hsame by done. intros _ E. by destruct (Hnb q Hv).
    + rewrite !Hsame by done. by apply (tree_inj _ Ht).
Qed.
Definition pdata (s : state) (p : pos) : bytes :=
  if addr_at s p =? 0 then zero_block else bdata s (addr_at s p).

(** [s'] is [s] with more blocks allocated to the inode; nothing seen of the
    file has changed. *)
Record grown (s s' : state) : Prop := {
  gr_vol : vol_ok s';
  gr_tree : tree_ok s';
  gr_addr q : valid_pos q -> addr_at s q <> 0 -> addr_at s' q = addr_at s q;
  gr_data q : valid_pos q -> data_pos q = true -> pdata s' q = pdata s q;
  gr_ip : ip s' = set_addrs (addrs (ip s')) (ip s);
  gr_low c : c < bmapstart sb -> bdata s' c = bdata s c }.

Lemma set_addrs_id i : set_addrs (addrs i) i = i.
Proof. by destruct i. Qed.

Lemma grown_refl s : vol_ok s -> tree_ok s -> grown s s.
Proof. intros. split; try done. by rewrite set_addrs_id. Qed.

Lemma grown_trans s s1 s2 : grown s s1 -> grown s1 s2 -> grown s s2.
Proof.
  intros [Hv1 Ht1 Ha1 Hd1 Hi1 Hl1] [Hv2 Ht2 Ha2 Hd2 Hi2 Hl2]. split; try done.
  - intros q Hv H0. rewrite Ha2; [by apply Ha1|done|by rewrite Ha1].
  - intros q Hv Hd. by rewrite Hd2, Hd1.
  - rewrite Hi2, Hi1. done.
  - intros c Hc. by rewrite Hl2, Hl1.
Qed.

(** Changing the locks or the record of the transaction changes none of this. *)
Lemma grown_locks s s' l g : grown s s' -> grown s (set_logged g (set_locked l s')).
Proof. intros [[Hv1 Hv2] [Ht1 Ht2 Ht3] Ha Hd Hi Hl]. split; try done. Qed.

Definition full (s : state) : Prop := forall b, scanned sb b -> used s b = true.

Lemma set_addrs_lookup l (k : nat) b : (k < length l)%nat -> default 0 (<[k := b]> l !! k) = b.
Proof. intros H. by rewrite list_lookup_insert_eq. Qed.

Lemma vol_ok_same s s' : (forall n, bdata s' n = bdata s n) -> vol_ok s -> vol_ok s'.
Proof.
  intros H [Hl Hm]. split; [intros n; by rewrite H|]. intros b Hb. unfold V6.used. rewrite H. by apply Hm.
Qed.

Lemma inode_addr_spec s k :
  vol_ok s -> tree_ok s -> locked s = [] -> valid_pos (PA k) ->
  (exists s', inode_addr sb nsecs None k s = Ret (addr_at s' (PA k)) s' /\ addr_at s' (PA k) <> 0 /\
     grown s s' /\ locked s' = []) \/
  (exists s', inode_addr sb nsecs None k s = Panic s' /\ full s').
Proof.
  intros Hv Ht Hl Hk. unfold inode_addr. run_step.
  change (default 0 (addrs (ip s) !! Z.to_nat k)) with (addr_at s (PA k)).
  destruct (Z.eqb_spec (addr_at s (PA k)) 0) as [E0|E0]; [|left; exists s; split; [done|]; split; [done|]; split; [by apply grown_refl|done]].
  assert (held_ok s) as Hh by (intros n; rewrite Hl; by intros ?%elem_of_nil).
  destruct (balloc_run sb nsecs s Hv Hh) as [(b & s1 & Hr & Hal & _)|[Hr Hf]].
  2: { right. exists s. split; [|done]. unfold bind. by rewrite Hr. }
  left. erewrite bind_run by exact Hr. run_step.
  set (s2 := set_ip _ s1). pose proof lay_data as Hld. pose proof (al_range _ _ _ _ _ Hal) as Hrg.
  destruct (alloc_tree s s1 b Hal Ht) as [Ht1 Hsame].
  assert (Z.to_nat k < length (addrs (ip s1)))%nat as Hlt by (rewrite (tree_len _ Ht1); cbn in Hk; unfold NDIRECT in Hk; lia).
  assert (addr_at s2 (PA k) = b) as Hpb by by apply set_addrs_lookup.
  assert (forall n, bdata s2 n = bdata s1 n) as Hd2 by done.
  assert (forall c, used s2 c = used s1 c) as Hu2 by done.
  destruct (store_addr s s2 (PA k) b Ht Hk E0) as [Ht2 Hoth].
  { lia. } { rewrite Hd2. apply Hal. } { intros q Hq. by apply Hsame. } { done. }
  { rewrite Hu2, (al_used _ _ _ _ _ Hal) by lia. by rewrite Z.eqb_refl. }
  { intros c Hc Hu. rewrite Hu2, (al_used _ _ _ _ _ Hal) by lia. rewrite Hu. apply orb_true_r. }
  { cbn. rewrite length_insert. apply Ht1. }
  { intros i Hi Hne. rewrite <- (proj1 (Hsame (PA i) Hi)). cbn. cbn in Hi, Hk. rewrite list_lookup_insert_ne; [done|].
    intros E. apply Hne. f_equal. lia. }
  { intros q j Hq Hj H0 _. unfold slot. rewrite Hd2. rewrite (al_other _ _ _ _ _ Hal); [done|by apply Hsame|].
    right. by apply (tree_data _ Ht). }
  { done. }
  exists s2. rewrite Hpb. split; [done|]. split; [lia|]. split; [|by cbn; rewrite (al_locked _ _ _ _ _ Hal)].
  split; try done.
  - by apply (vol_ok_same s1), (al_vol _ _ _ _ _ Hal).
  - intros q Hq H0. apply Hoth; [done|]. intros ->. done.
  - intros q Hq Hdp. unfold pdata. destruct (decide (q = PA k)) as [->|Hne].
    + rewrite Hpb, E0, Hd2. destruct (Z.eqb_spec b 0); [lia|]. cbn. apply Hal.
    + rewrite Hoth by done. destruct (Z.eqb_spec (addr_at s q) 0); [done|]. rewrite Hd2.
      apply (al_other _ _ _ _ _ Hal); [by apply Hsame|]. right. by apply (tree_data _ Ht).
  - cbn. by rewrite (al_ip _ _ _ _ _ Hal).
  - intros c Hc. rewrite Hd2. apply (al_other _ _ _ _ _ Hal); [|by left].
    pose proof lay_bmap_end. assert (0 <= size sb / BPB) by (apply Z.div_pos; unfold BPB, BSIZE; lia). lia.
Qed.

Lemma slot_addr_spec s p q k :
  vol_ok s -> tree_ok s -> valid_pos p -> parent p = Some (q, k) ->
  addr_at s q <> 0 -> locked s = [addr_at s q] ->
  (exists s', slot_addr sb nsecs None (addr_at s q) k s = Ret (addr_at s' p) s' /\ addr_at s' p <> 0 /\
     grown s s' /\ locked s' = locked s) \/
  (exists s', slot_addr sb nsecs None (addr_at s q) k s = Panic s' /\ full s').
Proof.
  intros Hv Ht Hp Hpq Hq0 Hl. destruct (parent_valid _ _ _ Hp Hpq) as [Hvq Hk].
  destruct (tree_data _ Ht q Hvq Hq0) as [Hqr Hqu]. set (a := addr_at s q) in *.
  unfold slot_addr. run_step. change (ld 4 (bdata s a) (Z.to_nat (4 * k))) with (slot s a k).
  assert (addr_at s p = slot s a k) as Hap.
  { rewrite (addr_at_child _ _ _ _ Hpq). fold a. unfold child. destruct (Z.eqb_spec a 0); done. }
  destruct (Z.eqb_spec (slot s a k) 0) as [E0|E0].
  2: { left. exists s. rewrite Hap. split; [done|]. split; [done|]. split; [by apply grown_refl|done]. }
  assert (held_ok s) as Hh by (intros n; rewrite Hl; by intros ->%list_elem_of_singleton).
  destruct (balloc_run sb nsecs s Hv Hh) as [(b & s1 & Hr & Hal & _)|[Hr Hf]].
  2: { right. exists s. split; [|done]. unfold bind. by rewrite Hr. }
  left. erewrite bind_run by exact Hr. run_step. run_step.
  set (s2 := set_vol _ s1). destruct (v6_log_write_run a s2) as [g Hg]. erewrite bind_run by exact Hg.
  pose proof lay_data as Hld. pose proof (al_range _ _ _ _ _ Hal) as Hrg.
  destruct (alloc_tree s s1 b Hal Ht) as [Ht1 Hsame].
  assert (b <> a) as Hba by (intros ->; by apply (proj2 (Hsame q Hvq))).
  assert (bdata s1 a = bdata s a) as Ha1 by (apply (al_other _ _ _ _ _ Hal); [done|right; lia]).
  assert (forall n, bdata s2 n = if decide (a = n) then st 4 (bdata s1 a) (Z.to_nat (4 * k)) b else bdata s1 n) as Hd2
    by (intros; apply bdata_put).
  assert (Z.to_nat (4 * k) + 4 <= length (bdata s1 a))%nat as Hin.
  { rewrite (vol_len _ _ _ (al_vol _ _ _ _ _ Hal)). unfold NINDIRECT in Hk. lia. }
  assert (forall c, 0 <= c < size sb -> used s2 c = used s1 c) as Hu2.
  { intros c Hc. unfold V6.used. rewrite Hd2, decide_False; [done|]. destruct (BBLOCK_range sb nsecs c Hc). lia. }
  assert (slot s2 a k = b) as Hsb.
  { unfold slot. rewrite Hd2, decide_True by done. rewrite ld_st_same by done.
    pose proof lay_size. apply wrap_id. change (8 * Z.of_nat 4) with 32. lia. }
  assert (forall n j, 0 <= j < NINDIRECT -> (n, j) <> (a, k) -> slot s2 n j = slot s1 n j) as Hslot.
  { intros n j Hj Hne. unfold slot. rewrite Hd2. case_decide as E; [|done]. subst n.
    assert (j <> k) by congruence. destruct (decide (j < k)).
    - apply ld_st_before; lia.
    - rewrite ld_st_after by lia. done. }
  assert (forall n, n <> a -> bdata s2 n = bdata s1 n) as Hne2 by (intros n Hn; rewrite Hd2, decide_False; done).
  assert (addr_at s2 q = a) as Hq2.
  { destruct (parent q) as [[qq kk]|] eqn:Eq.
    - destruct p as [|j|i|i j]; [done|injection Hpq as <- <-; done|injection Hpq as <- <-; done|].
      injection Hpq as <- <-. injection Eq as <- <-.
      assert (addr_at s2 (PA (NDIRECT + 1)) = addr_at s (PA (NDIRECT + 1))) as Er
        by (change (addr_at s2 (PA (NDIRECT + 1))) with (addr_at s1 (PA (NDIRECT + 1))); by apply Hsame).
      unfold a. rewrite !(addr_at_child _ (PD i) (PA (NDIRECT + 1)) i) by done. rewrite Er. unfold child.
      destruct (Z.eqb_spec (addr_at s (PA (NDIRECT + 1))) 0) as [|Hr0]; [done|].
      rewrite Hslot; [|by apply Hp|].
      + unfold slot. rewrite (al_other _ _ _ _ _ Hal); [done|by apply Hsame|]. right. by apply (tree_data _ Ht).
      + intros [= E _]. assert (PA (NDIRECT + 1) = PD i); [|done]. by apply (tree_inj _ Ht).
    - destruct q; try done. change (addr_at s2 (PA i)) with (addr_at s1 (PA i)). by apply Hsame. }
  assert (addr_at s2 p = b) as Hpb.
  { rewrite (addr_at_child _ _ _ _ Hpq), Hq2. unfold child. destruct (Z.eqb_spec a 0); done. }
  destruct (store_addr s s2 p b Ht Hp) as [Ht2 Hoth].
  { by rewrite Hap. } { lia. } { rewrite Hne2 by done. apply Hal. } { intros r Hr'. by apply Hsame. } { done. }
  { rewrite Hu2, (al_used _ _ _ _ _ Hal) by lia. by rewrite Z.eqb_refl. }
  { intros c Hc Hu. rewrite Hu2, (al_used _ _ _ _ _ Hal) by lia. rewrite Hu. apply orb_true_r. }
  { apply Ht1. }
  { intros i Hi _. change (addr_at s2 (PA i)) with (addr_at s1 (PA i)). by apply Hsame. }
  { intros r j Hr' Hj H0 Hne. rewrite Hslot; [|done|].
    - unfold slot. rewrite (al_other _ _ _ _ _ Hal); [done|by apply Hsame|]. right. by apply (tree_data _ Ht).
    - intros [= E ->]. apply Hne. rewrite Hpq. do 2 f_equal. symmetry. by apply (tree_inj _ Ht). }
  { done. }
  exists (set_logged g s2). change (addr_at (set_logged g s2) p) with (addr_at s2 p). rewrite Hpb.
  split; [done|]. split; [lia|]. split; [|apply Hal].
  apply (grown_locks s s2 (locked s2) g). split; try done.
  - split.
    + intros n. rewrite Hd2. case_decide; [rewrite length_st by done|]; apply (vol_len _ _ _ (al_vol _ _ _ _ _ Hal)).
    + intros c Hc. rewrite Hu2 by lia. by apply (vol_meta _ _ _ (al_vol _ _ _ _ _ Hal)).
  - intros r Hr' H0. apply Hoth; [done|]. intros ->. by rewrite Hap in H0.
  - intros r Hr' Hdp. unfold pdata. destruct (decide (r = p)) as [->|Hne].
    + rewrite Hpb, Hap, E0. destruct (Z.eqb_spec b 0); [lia|]. cbn. rewrite Hne2 by done. apply Hal.
    + rewrite Hoth by done. destruct (Z.eqb_spec (addr_at s r) 0); [done|].
      rewrite Hne2. { apply (al_other _ _ _ _ _ Hal); [by apply Hsame|]. right. by apply (tree_data _ Ht). }
      intros E. assert (r = q) as -> by by apply (tree_inj _ Ht). by rewrite (parent_not_data _ _ _ Hpq) in Hdp.
  - cbn. by rewrite (al_ip _ _ _ _ _ Hal), set_addrs_id.
  - intros c Hc. pose proof lay_bmap_end. assert (0 <= size sb / BPB) by (apply Z.div_pos; unfold BPB, BSIZE; lia).
    rewrite Hne2 by lia. apply (al_other _ _ _ _ _ Hal); [lia|by left].
Qed.
(** The place of block [bn] of the file. *)
Definition fpos (bn : Z) : pos :=
  if bn <? NDIRECT then PA bn
  else if bn - NDIRECT <? NINDIRECT then PI (bn - NDIRECT)
  else PDD ((bn - NDIRECT - NINDIRECT) / NINDIRECT) ((bn - NDIRECT - NINDIRECT) mod NINDIRECT).

Lemma fpos_valid bn : 0 <= bn < MAXFILE -> valid_pos (fpos bn) /\ data_pos (fpos bn) = true.
Proof.
  unfold MAXFILE, fpos, NDIRECT, NINDIRECT. intros H.
  destruct (Z.ltb_spec bn 11); [cbn; split; [unfold NDIRECT; lia|apply Z.ltb_lt; unfold NDIRECT; lia]|].
  destruct (Z.ltb_spec (bn - 11) 1024); [cbn; split; [unfold NINDIRECT; lia|done]|].
  cbn. unfold NINDIRECT. split; [|done]. split.
  - split; [apply Z.div_pos; lia|apply Z.div_lt_upper_bound; lia].
  - apply Z.mod_pos_bound. lia.
Qed.

Lemma fpos_inj bn bn' : 0 <= bn -> 0 <= bn' -> fpos bn = fpos bn' -> bn = bn'.
Proof.
  unfold fpos, NDIRECT, NINDIRECT. intros H H'.
  destruct (Z.ltb_spec bn 11), (Z.ltb_spec bn' 11), (Z.ltb_spec (bn - 11) 1024), (Z.ltb_spec (bn' - 11) 1024);
    intros E; inversion E; try lia.
  pose proof (Z.div_mod (bn - 11 - 1024) 1024). pose proof (Z.div_mod (bn' - 11 - 1024) 1024). lia.
Qed.

Lemma grown_lock s s' l : grown s s' -> grown s (set_locked l s').
Proof. apply (grown_locks s s' l (logged s')). Qed.

Lemma grown_unlock s s' l : grown (set_locked l s) s' -> grown s s'.
Proof. intros [Hv Ht Ha Hd Hi Hl]. split; done. Qed.

Lemma tree_lt_nsecs s p : tree_ok s -> valid_pos p -> addr_at s p <> 0 -> addr_at s p < nsecs.
Proof. intros Ht Hv H0. destruct (tree_data _ Ht p Hv H0) as [Hr _]. pose proof lay_size. lia. Qed.

(** One level of the map: lock the block at [q], find or make the child [p],
    release the block. *)
Lemma level_spec s p q k :
  vol_ok s -> tree_ok s -> locked s = [] -> valid_pos p -> parent p = Some (q, k) -> addr_at s q <> 0 ->
  (exists s', (bread nsecs None (addr_at s q) ;; let* addr := slot_addr sb nsecs None (addr_at s q) k in brelse (addr_at s q) ;; ret addr) s
       = Ret (addr_at s' p) s' /\ addr_at s' p <> 0 /\ grown s s' /\ locked s' = []) \/
  (exists s', (bread nsecs None (addr_at s q) ;; let* addr := slot_addr sb nsecs None (addr_at s q) k in brelse (addr_at s q) ;; ret addr) s
       = Panic s' /\ full s').
Proof.
  intros Hv Ht Hl Hp Hpq H0. destruct (parent_valid _ _ _ Hp Hpq) as [Hvq _].
  erewrite bind_run by (apply v6_bread_run; [rewrite Hl; by intros ?%elem_of_nil|by eapply tree_lt_nsecs]).
  rewrite Hl. set (s1 := set_locked [addr_at s q] s).
  destruct (slot_addr_spec s1 p q k) as [(s2 & Hr & Hn0 & Hg & Hl2)|(s2 & Hr & Hf)]; try done.
  - by destruct Hv.
  - by destruct Ht.
  - left. exists (set_locked [] s2). change (addr_at s1 q) with (addr_at s q) in Hr.
    erewrite bind_run by exact Hr.
    erewrite bind_run by (apply (brelse_run _ _ []); [exact Hl2|by intros ?%elem_of_nil]).
    split; [done|]. split; [done|]. split; [|done]. by apply grown_lock, (grown_unlock _ _ [addr_at s q]).
  - right. exists s2. change (addr_at s1 q) with (addr_at s q) in Hr. split; [|done]. unfold bind. by rewrite Hr.
Qed.

Lemma bind_assoc_run {S A B C} (m : M S A) (k : A -> M S B) (h : B -> M S C) s :
  bind (bind m k) h s = bind m (fun a => bind (k a) h) s.
Proof. unfold bind. by destruct (m s). Qed.

(** [v6_bmap] returns the address of block [bn], which is not 0; what the
    file holds does not change. *)
Lemma bmap_spec s bn :
  vol_ok s -> tree_ok s -> locked s = [] -> 0 <= bn < MAXFILE ->
  (exists s', v6_bmap sb nsecs None bn s = Ret (addr_at s' (fpos bn)) s' /\ addr_at s' (fpos bn) <> 0 /\
     grown s s' /\ locked s' = []) \/
  (exists s', v6_bmap sb nsecs None bn s = Panic s' /\ full s').
Proof.
  intros Hv Ht Hl Hbn. destruct (fpos_valid bn Hbn) as [Hvp _]. unfold v6_bmap, fpos in *.
  destruct (bn <? NDIRECT); [by apply inode_addr_spec|].
  destruct (bn - NDIRECT <? NINDIRECT).
  - destruct (inode_addr_spec s NDIRECT Hv Ht Hl) as [(s1 & Hr1 & H1 & Hg1 & Hl1)|(s1 & Hr1 & Hf)]; [done| |].
    + destruct (level_spec s1 (PI (bn - NDIRECT)) (PA NDIRECT) (bn - NDIRECT)) as [(s2 & Hr2 & H2 & Hg2 & Hl2)|(s2 & Hr2 & Hf)];
        try done; [apply Hg1|apply Hg1|left|right].
      * exists s2. erewrite bind_run by exact Hr1. split; [exact Hr2|]. split; [done|]. split; [by eapply grown_trans|done].
      * exists s2. erewrite bind_run by exact Hr1. done.
    + right. exists s1. split; [|done]. unfold bind. by rewrite Hr1.
  - destruct (Z.ltb_spec (bn - NDIRECT - NINDIRECT) (NINDIRECT * NINDIRECT)); [|unfold MAXFILE in Hbn; lia].
    cbn zeta. set (i := (bn - NDIRECT - NINDIRECT) / NINDIRECT) in *. set (j := (bn - NDIRECT - NINDIRECT) mod NINDIRECT) in *.
    destruct (inode_addr_spec s (NDIRECT + 1) Hv Ht Hl) as [(s1 & Hr1 & H1 & Hg1 & Hl1)|(s1 & Hr1 & Hf)]; [done| |].
    + erewrite bind_run by exact Hr1.
      assert (valid_pos (PD i)) as Hvi by apply Hvp.
      assert (forall (k : Z -> M state Z) st, (bread nsecs None (addr_at s1 (PA (NDIRECT + 1))) ;;
          let* a1 := slot_addr sb nsecs None (addr_at s1 (PA (NDIRECT + 1))) i in brelse (addr_at s1 (PA (NDIRECT + 1))) ;; k a1) st =
        bind (bread nsecs None (addr_at s1 (PA (NDIRECT + 1))) ;; let* addr := slot_addr sb nsecs None (addr_at s1 (PA (NDIRECT + 1))) i in
          brelse (addr_at s1 (PA (NDIRECT + 1))) ;; ret addr) k st) as Hassoc.
      { intros k st. rewrite !bind_assoc_run. unfold bind. destruct (bread _ _ _ st); try done.
        destruct (slot_addr _ _ _ _ _ _); try done. destruct (brelse _ _); done. }
      rewrite Hassoc.
      destruct (level_spec s1 (PD i) (PA (NDIRECT + 1)) i) as [(s2 & Hr2 & H2 & Hg2 & Hl2)|(s2 & Hr2 & Hf)];
        try done; [apply Hg1|apply Hg1| |].
      * erewrite bind_run by exact Hr2.
        destruct (level_spec s2 (PDD i j) (PD i) j) as [(s3 & Hr3 & H3 & Hg3 & Hl3)|(s3 & Hr3 & Hf)];
          try done; [apply Hg2|apply Hg2|left|right].
        -- exists s3. split; [exact Hr3|]. split; [done|]. split; [|done]. by eapply grown_trans; [|eapply grown_trans].
        -- exists s3. done.
      * right. exists s2. split; [|done]. unfold bind at 1. by rewrite Hr2.
    + right. exists s1. split; [|done]. unfold bind. by rewrite Hr1.
Qed.

(** On a block the file has, [v6_bmap] changes nothing at all. *)
Lemma bmap_mapped s bn :
  tree_ok s -> locked s = [] -> 0 <= bn < MAXFILE -> addr_at s (fpos bn) <> 0 ->
  v6_bmap sb nsecs None bn s = Ret (addr_at s (fpos bn)) s.
Proof.
  intros Ht Hl Hbn. destruct (fpos_valid bn Hbn) as [Hvp _].
  assert (forall k, addr_at s (PA k) <> 0 -> inode_addr sb nsecs None k s = Ret (addr_at s (PA k)) s) as Hroot.
  { intros k Hk. unfold inode_addr. run_step.
    change (default 0 (addrs (ip s) !! Z.to_nat k)) with (addr_at s (PA k)). destruct (Z.eqb_spec (addr_at s (PA k)) 0); done. }
  assert (forall p q k (K : Z -> M state Z), valid_pos p -> parent p = Some (q, k) -> addr_at s p <> 0 -> addr_at s q <> 0 ->
    (bread nsecs None (addr_at s q) ;; let* a := slot_addr sb nsecs None (addr_at s q) k in brelse (addr_at s q) ;; K a) s = K (addr_at s p) s) as Hlev.
  { intros p q k K Hp Hpq H0 Hq0. destruct (parent_valid _ _ _ Hp Hpq) as [Hvq _].
    erewrite bind_run by (apply v6_bread_run; [rewrite Hl; by intros ?%elem_of_nil|by eapply tree_lt_nsecs]).
    rewrite (addr_at_child _ _ _ _ Hpq) in *. unfold child in *. destruct (Z.eqb_spec (addr_at s q) 0); [done|].
    unfold slot_addr. rewrite bind_assoc_run. run_step.
    change (ld 4 (bdata (set_locked _ s) (addr_at s q)) (Z.to_nat (4 * k))) with (slot s (addr_at s q) k).
    destruct (Z.eqb_spec (slot s (addr_at s q) k) 0); [done|]. run_step.
    erewrite bind_run by (apply (brelse_run _ _ []); [cbn; by rewrite Hl|by intros ?%elem_of_nil]).
    f_equal. destruct s; cbn in *; by subst. }
  assert (forall p q k, parent p = Some (q, k) -> addr_at s p <> 0 -> addr_at s q <> 0) as Hup.
  { intros p q k Hpq Hp0 E. rewrite (addr_at_child _ _ _ _ Hpq), E in Hp0. done. }
  unfold v6_bmap, fpos in *. destruct (bn <? NDIRECT); [by apply Hroot|].
  destruct (bn - NDIRECT <? NINDIRECT).
  - intros H0. pose proof (Hup (PI _) _ _ eq_refl H0) as Hq. erewrite bind_run by (by apply Hroot).
    by rewrite (Hlev (PI (bn - NDIRECT)) (PA NDIRECT)).
  - destruct (Z.ltb_spec (bn - NDIRECT - NINDIRECT) (NINDIRECT * NINDIRECT)); [|unfold MAXFILE in Hbn; lia].
    cbn zeta. set (i := (bn - NDIRECT - NINDIRECT) / NINDIRECT) in *. set (j := (bn - NDIRECT - NINDIRECT) mod NINDIRECT) in *.
    intros H0. pose proof (Hup (PDD _ _) _ _ eq_refl H0) as Hq. pose proof (Hup (PD _) _ _ eq_refl Hq) as Hr.
    erewrite bind_run by (by apply Hroot).
    rewrite (Hlev (PD i) (PA (NDIRECT + 1))) by (done || apply Hvp).
    by rewrite (Hlev (PDD i j) (PD i)).
Qed.
(** * The contents of the file *)

Definition content (s : state) (o : Z) : Z :=
  default 0 (pdata s (fpos (o / BSIZE)) !! Z.to_nat (o mod BSIZE)).

Definition mapped (s : state) (o : Z) : Prop := addr_at s (fpos (o / BSIZE)) <> 0.

(** Every byte of the file has a block. *)
Definition no_holes (s : state) : Prop := forall o, 0 <= o < isize (ip s) -> mapped s o.

Lemma pdata_mapped s p : addr_at s p <> 0 -> pdata s p = bdata s (addr_at s p).
Proof. intros H. unfold pdata. by destruct (Z.eqb_spec (addr_at s p) 0). Qed.

Lemma block_range o : 0 <= o < MAXFILE * BSIZE -> 0 <= o / BSIZE < MAXFILE.
Proof. intros H. split; [apply Z.div_pos; unfold BSIZE; lia|]. apply Z.div_lt_upper_bound; unfold BSIZE in *; lia. Qed.

Lemma block_u32 o : 0 <= o < MAXFILE * BSIZE -> u32 (o / BSIZE) = o / BSIZE.
Proof. intros H%block_range. apply u32_id. unfold MAXFILE, NDIRECT, NINDIRECT in H. lia. Qed.

(** Offsets up to the end of the block of [off]. *)
Lemma same_block off m o :
  0 <= off -> m <= BSIZE - off mod BSIZE -> off <= o < off + m ->
  o / BSIZE = off / BSIZE /\ o mod BSIZE = off mod BSIZE + (o - off).
Proof.
  intros H0 Hm Ho. pose proof (Z.div_mod off BSIZE ltac:(done)). pose proof (Z.mod_pos_bound off BSIZE ltac:(done)).
  split.
  - symmetry. apply Z.div_unique with (off mod BSIZE + (o - off)); lia.
  - symmetry. apply Z.mod_unique with (off / BSIZE); lia.
Qed.

Lemma chunk_content s off m :
  vol_ok s -> 0 <= off -> 0 <= m <= BSIZE - off mod BSIZE ->
  mapped s off ->
  take (Z.to_nat m) (drop (Z.to_nat (off mod BSIZE)) (bdata s (addr_at s (fpos (off / BSIZE))))) = content s <$> seqZ off m.
Proof.
  intros Hv H0 Hm Hmp. pose proof (Z.mod_pos_bound off BSIZE ltac:(done)) as Hmod.
  pose proof (vol_len _ _ _ Hv (addr_at s (fpos (off / BSIZE)))) as Hlen.
  apply list_eq. intros i. rewrite list_lookup_fmap. destruct (decide (Z.of_nat i < m)) as [Hi|Hi].
  - rewrite lookup_take_lt by lia. rewrite lookup_drop, lookup_seqZ_lt by lia. cbn.
    destruct (same_block off m (off + Z.of_nat i) H0 ltac:(lia) ltac:(lia)) as [Ed Em].
    unfold content. rewrite Ed, Em, pdata_mapped by done.
    replace (Z.to_nat (off mod BSIZE + (off + Z.of_nat i - off))) with (Z.to_nat (off mod BSIZE) + i)%nat by lia.
    destruct (bdata s _ !! (_ + i)%nat) eqn:E; [done|]. apply lookup_ge_None in E. unfold BSIZE in *. lia.
  - rewrite lookup_take_ge by lia. rewrite lookup_seqZ_ge by lia. done.
Qed.

Lemma next_block off m n :
  0 <= off -> m = Z.min n (BSIZE - off mod BSIZE) -> m < n ->
  (off + m) mod BSIZE = 0 /\ m = BSIZE - off mod BSIZE.
Proof.
  intros H0 Hm Hlt. assert (m = BSIZE - off mod BSIZE) as Em by lia. split; [|done].
  pose proof (Z.div_mod off BSIZE ltac:(done)) as Hdm.
  replace (off + m) with ((off / BSIZE + 1) * BSIZE) by lia. by apply Z.mod_mul.
Qed.

Lemma readi_loop_spec s fuel off n :
  vol_ok s -> tree_ok s -> locked s = [] -> 0 <= off -> 0 <= n -> off + n <= MAXFILE * BSIZE ->
  (forall o, off <= o < off + n -> mapped s o) -> (n = 0 \/ off mod BSIZE + n <= Z.of_nat fuel * BSIZE) ->
  readi_loop sb nsecs None fuel off n s = Ret (content s <$> seqZ off n) s.
Proof.
  intros Hv Ht Hl. revert off n. induction fuel as [|fuel IH]; intros off n H0 Hn Hmax Hmp Hfuel; cbn [readi_loop].
  - destruct (Z.leb_spec n 0); [by replace n with 0 by lia|]. pose proof (Z.mod_pos_bound off BSIZE ltac:(done)). lia.
  - destruct (Z.leb_spec n 0); [by replace n with 0 by lia|].
    pose proof (Z.mod_pos_bound off BSIZE ltac:(done)) as Hmod.
    assert (mapped s off) as Hm0 by (apply Hmp; lia).
    rewrite block_u32 by lia.
    erewrite bind_run by (apply bmap_mapped; [done|done|apply block_range; lia|done]).
    assert (addr_at s (fpos (off / BSIZE)) < nsecs) as Hns.
    { eapply tree_lt_nsecs; [done| |done]. apply fpos_valid, block_range. lia. }
    erewrite bind_run by (apply v6_bread_run; [rewrite Hl; by intros ?%elem_of_nil|done]).
    cbn zeta. set (m := Z.min n (BSIZE - off mod BSIZE)). run_step.
    erewrite bind_run by (apply (brelse_run _ _ []); [cbn; by rewrite Hl|by intros ?%elem_of_nil]).
    change (bdata (set_locked _ s) ?a) with (bdata s a).
    assert (set_locked [] (set_locked (addr_at s (fpos (off / BSIZE)) :: locked s) s) = s) as -> by (destruct s; cbn in *; by subst).
    erewrite bind_run.
    2: { apply IH; try lia.
         - intros o Ho. apply Hmp. lia.
         - destruct (decide (m < n)) as [Hlt|]; [|left; lia]. right.
           destruct (next_block off m n H0 eq_refl Hlt) as [E1 E2]. rewrite E1. lia. }
    unfold ret. f_equal. rewrite chunk_content by (done || lia).
    rewrite <- fmap_app. f_equal. replace n with (m + (n - m)) at 2 by lia. by rewrite seqZ_app by lia.
Qed.

(** Overwriting the data at the place [p]. *)
Lemma put_data_spec s p d :
  vol_ok s -> tree_ok s -> valid_pos p -> data_pos p = true -> addr_at s p <> 0 -> length d = 4096%nat ->
  let s' := set_vol (<[addr_at s p := d]> (vol s)) s in
  vol_ok s' /\ tree_ok s' /\ (forall q, valid_pos q -> addr_at s' q = addr_at s q) /\
  (forall q, valid_pos q -> pdata s' q = if decide (q = p) then d else pdata s q) /\
  (forall c, c < bmapstart sb -> bdata s' c = bdata s c).
Proof.
  intros Hv Ht Hp Hdp H0 Hlen s'. destruct (tree_data _ Ht p Hp H0) as [Hr Hu]. set (a := addr_at s p) in *.
  pose proof lay_data as Hld.
  assert (forall n, bdata s' n = if decide (a = n) then d else bdata s n) as Hd by (intros; apply bdata_put).
  assert (forall c, 0 <= c < size sb -> used s' c = used s c) as Hus.
  { intros c Hc. unfold V6.used. rewrite Hd, decide_False; [done|]. destruct (BBLOCK_range sb nsecs c Hc). lia. }
  assert (forall q, valid_pos q -> addr_at s q <> 0 -> q <> p -> bdata s' (addr_at s q) = bdata s (addr_at s q)) as Hoth.
  { intros q Hq Hq0 Hne. rewrite Hd, decide_False; [done|]. intros E. apply Hne. by apply (tree_inj _ Ht). }
  assert (forall q, valid_pos q -> addr_at s' q = addr_at s q) as Haddr.
  { intros q Hq. apply addr_at_ext; [done| |done]. intros r Hr' Hdr Hr0. apply Hoth; [done..|]. intros ->. congruence. }
  split; [|split; [|split; [done|split]]].
  - split; [intros n; rewrite Hd; case_decide; [done|apply Hv]|]. intros b Hb. rewrite Hus by lia. by apply Hv.
  - apply (tree_ok_ext s); [done| | |done].
    + intros r Hr' Hdr Hr0. apply Hoth; [done..|]. intros ->. congruence.
    + intros b Hb. rewrite Hus by lia. done.
  - intros q Hq. unfold pdata. rewrite Haddr by done. case_decide as E.
    + subst q. fold a. destruct (Z.eqb_spec a 0); [done|]. by rewrite Hd, decide_True.
    + destruct (Z.eqb_spec (addr_at s q) 0); [done|]. by apply Hoth.
  - intros c Hc. rewrite Hd, decide_False; [done|]. pose proof lay_bmap_end.
    assert (0 <= size sb / BPB) by (apply Z.div_pos; unfold BPB, BSIZE; lia). lia.
Qed.

(** What a write leaves: the bytes of [src] from [off] on, and all else as it was. *)
Record written (s s' : state) (src : bytes) (off : Z) : Prop := {
  wr_vol : vol_ok s';
  wr_tree : tree_ok s';
  wr_locked : locked s' = [];
  wr_addr q : valid_pos q -> addr_at s q <> 0 -> addr_at s' q = addr_at s q;
  wr_mapped o : 0 <= o < MAXFILE * BSIZE -> off <= o < off + Z.of_nat (length src) -> mapped s' o;
  wr_ip : ip s' = set_addrs (addrs (ip s')) (ip s);
  wr_low c : c < bmapstart sb -> bdata s' c = bdata s c;
  wr_content o : 0 <= o < MAXFILE * BSIZE -> content s' o =
    if (off <=? o) && (o <? off + Z.of_nat (length src)) then default 0 (src !! Z.to_nat (o - off)) else content s o }.
Lemma splice_lookup (d src : bytes) (om m i : nat) :
  (om + m <= length d)%nat -> (m <= length src)%nat ->
  (take om d ++ take m src ++ drop (om + m) d) !! i =
  if decide (om <= i < om + m)%nat then src !! (i - om)%nat else d !! i.
Proof.
  intros H1 H2. destruct (decide (i < om)%nat).
  - rewrite lookup_app_l by (rewrite length_take; lia). rewrite lookup_take_lt by lia. by rewrite decide_False by lia.
  - rewrite lookup_app_r by (rewrite length_take; lia). rewrite length_take_le by lia.
    destruct (decide (i < om + m)%nat).
    + rewrite lookup_app_l by (rewrite length_take; lia). rewrite lookup_take_lt by lia. by rewrite decide_True by lia.
    + rewrite lookup_app_r by (rewrite length_take; lia). rewrite length_take_le by lia.
      rewrite decide_False by lia. rewrite lookup_drop. f_equal. lia.
Qed.

Lemma length_splice (d src : bytes) (om m : nat) :
  (om + m <= length d)%nat -> (m <= length src)%nat ->
  length (take om d ++ take m src ++ drop (om + m) d) = length d.
Proof. intros. rewrite !length_app, !length_take, length_drop. lia. Qed.

(** One round of the loop: [m] bytes go to the block of [off]. *)
Lemma write_chunk s src off m s2 :
  vol_ok s -> tree_ok s -> 0 <= off -> 0 < m <= BSIZE - off mod BSIZE -> m <= Z.of_nat (length src) ->
  off + m <= MAXFILE * BSIZE -> mapped s off ->
  let a := addr_at s (fpos (off / BSIZE)) in
  vol s2 = <[a := take (Z.to_nat (off mod BSIZE)) (bdata s a) ++ take (Z.to_nat m) src ++ drop (Z.to_nat (off mod BSIZE + m)) (bdata s a)]> (vol s) ->
  ip s2 = ip s -> locked s2 = [] ->
  written s s2 (take (Z.to_nat m) src) off /\ (forall q, valid_pos q -> addr_at s2 q = addr_at s q).
Proof.
  intros Hv Ht H0 Hm Hsrc Hmax Hmp a Hvol Hip Hlk.
  pose proof (Z.mod_pos_bound off BSIZE ltac:(done)) as Hmod. pose proof (vol_len _ _ _ Hv a) as Hlen.
  destruct (fpos_valid (off / BSIZE) (block_range off ltac:(lia))) as [Hp Hdp].
  replace (Z.to_nat (off mod BSIZE + m)) with (Z.to_nat (off mod BSIZE) + Z.to_nat m)%nat in Hvol by lia.
  set (d := take _ _ ++ _) in Hvol.
  assert (length d = 4096%nat) as Hld by (unfold d; rewrite length_splice; unfold BSIZE in *; lia).
  destruct (put_data_spec s (fpos (off / BSIZE)) d Hv Ht Hp Hdp Hmp Hld) as (Hv' & Ht' & Ha' & Hd' & Hlow).
  fold a in Hv', Ht', Ha', Hd', Hlow. set (s' := set_vol (<[a := d]> (vol s)) s) in *.
  assert (forall n, bdata s2 n = bdata s' n) as Hbd by (intros n; unfold bdata; by rewrite Hvol).
  assert (forall q, valid_pos q -> addr_at s2 q = addr_at s' q) as Ha2.
  { intros q Hq. apply addr_at_ext; [by rewrite Hip|by intros|done]. }
  assert (forall q, valid_pos q -> pdata s2 q = pdata s' q) as Hp2.
  { intros q Hq. unfold pdata. by rewrite Ha2, Hbd by done. }
  split; [|intros q Hq; by rewrite Ha2, Ha'].
  split; rewrite ?length_take, ?Nat.min_l, ?Z2Nat.id by lia.
  - by apply (vol_ok_same s').
  - apply (tree_ok_ext s'); [by rewrite Hip|by intros| |done]. intros b Hb. unfold V6.used. by rewrite Hbd.
  - done.
  - intros q Hq _. by rewrite Ha2, Ha'.
  - intros o _ Ho. destruct (same_block off m o H0 ltac:(lia) Ho) as [Ed _]. unfold mapped. rewrite Ed, Ha2, Ha'; done.
  - by rewrite Hip, set_addrs_id.
  - intros c Hc. by rewrite Hbd, Hlow.
  - intros o Ho. unfold content. destruct (fpos_valid (o / BSIZE) (block_range o Ho)) as [Hqp Hqd].
    rewrite Hp2, Hd' by done. pose proof (Z.mod_pos_bound o BSIZE ltac:(done)) as Hmo.
    case_decide as E.
    + apply fpos_inj in E; [|apply Z.div_pos; unfold BSIZE; lia..].
      rewrite E, (pdata_mapped s (fpos (off / BSIZE))) by done. fold a. unfold d. rewrite splice_lookup by (unfold BSIZE in *; lia).
      assert (o - off = o mod BSIZE - off mod BSIZE) as Eo.
      { pose proof (Z.div_mod o BSIZE ltac:(done)). pose proof (Z.div_mod off BSIZE ltac:(done)). lia. }
      destruct (Z.leb_spec off o), (Z.ltb_spec o (off + m)); cbn [andb]; case_decide; try lia; try done.
      rewrite lookup_take_lt by lia. do 2 f_equal. lia.
    + destruct (Z.leb_spec off o), (Z.ltb_spec o (off + m)); cbn [andb]; try done.
      exfalso. apply E. f_equal. apply (same_block off m o); lia.
Qed.

Lemma written_grown s s1 s2 src off : grown s s1 -> written s1 s2 src off -> written s s2 src off.
Proof.
  intros [Hv Ht Ha Hd Hi Hl] [Wv Wt Wk Wa Wm Wi Wl Wc]. split; try done.
  - intros q Hq H0. rewrite Wa; [by apply Ha|done|by rewrite Ha].
  - rewrite Wi, Hi. done.
  - intros c Hc. by rewrite Wl, Hl.
  - intros o Ho. rewrite Wc by done. destruct (_ && _); [done|]. unfold content.
    destruct (fpos_valid (o / BSIZE) (block_range o Ho)) as [Hq Hqd]. by rewrite Hd.
Qed.

Lemma written_nil s off : vol_ok s -> tree_ok s -> locked s = [] -> written s s [] off.
Proof.
  intros Hv Ht Hl. split; try done; [cbn; lia|by rewrite set_addrs_id|].
  intros o Ho. replace (off + Z.of_nat (length (@nil Z))) with off by (cbn; lia).
  destruct (Z.leb_spec off o), (Z.ltb_spec o off); cbn [andb]; try done; lia.
Qed.

Lemma written_app s s1 s2 (src src' : bytes) off :
  written s s1 src off -> written s1 s2 src' (off + Z.of_nat (length src)) -> written s s2 (src ++ src') off.
Proof.
  intros [Wv Wt Wk Wa Wm Wi Wl Wc] [Vv Vt Vk Va Vm Vi Vl Vc]. split; try done.
  - intros q Hq H0. rewrite Va; [by apply Wa|done|by rewrite Wa].
  - intros o Hmax Ho. rewrite length_app, Nat2Z.inj_add in Ho.
    destruct (decide (o < off + Z.of_nat (length src))); [|apply Vm; lia].
    destruct (fpos_valid (o / BSIZE) (block_range o Hmax)) as [Hq _].
    unfold mapped. rewrite Va; [apply Wm; lia|done|apply Wm; lia].
  - rewrite Vi, Wi. done.
  - intros c Hc. by rewrite Vl, Wl.
  - intros o Ho. rewrite Vc, Wc by done. rewrite length_app, Nat2Z.inj_add.
    destruct (Z.leb_spec off o), (Z.ltb_spec o (off + Z.of_nat (length src)));
      destruct (Z.leb_spec (off + Z.of_nat (length src)) o), (Z.ltb_spec o (off + Z.of_nat (length src) + Z.of_nat (length src')));
      destruct (Z.ltb_spec o (off + (Z.of_nat (length src) + Z.of_nat (length src')))); cbn [andb]; try lia; try done.
    + rewrite lookup_app_l by lia. done.
    + rewrite lookup_app_r by lia. do 2 f_equal. lia.
Qed.

Lemma writei_loop_spec fuel s src off n :
  vol_ok s -> tree_ok s -> locked s = [] -> 0 <= off -> n = Z.of_nat (length src) -> off + n <= MAXFILE * BSIZE ->
  (n = 0 \/ off mod BSIZE + n <= Z.of_nat fuel * BSIZE) ->
  (exists s', writei_loop sb nsecs None fuel src off n s = Ret tt s' /\ written s s' src off) \/
  (exists s', writei_loop sb nsecs None fuel src off n s = Panic s' /\ full s').
Proof.
  revert s src off n. induction fuel as [|fuel IH]; intros s src off n Hv Ht Hl H0 Hn Hmax Hfuel; cbn [writei_loop].
  - destruct (Z.leb_spec n 0); [|pose proof (Z.mod_pos_bound off BSIZE ltac:(done)); lia].
    left. exists s. split; [done|]. assert (src = []) as -> by (apply length_zero_iff_nil; lia). by apply written_nil.
  - destruct (Z.leb_spec n 0).
    { left. exists s. split; [done|]. assert (src = []) as -> by (apply length_zero_iff_nil; lia). by apply written_nil. }
    pose proof (Z.mod_pos_bound off BSIZE ltac:(done)) as Hmod.
    rewrite block_u32 by lia.
    destruct (bmap_spec s (off / BSIZE) Hv Ht Hl (block_range off ltac:(lia))) as [(s1 & Hr1 & Ha1 & Hg1 & Hl1)|(s1 & Hr1 & Hf)].
    2: { right. exists s1. split; [|done]. unfold bind at 1. by rewrite Hr1. }
    erewrite bind_run by exact Hr1.
    assert (addr_at s1 (fpos (off / BSIZE)) < nsecs) as Hns.
    { eapply tree_lt_nsecs; [apply Hg1| |done]. apply fpos_valid, block_range. lia. }
    erewrite bind_run by (apply v6_bread_run; [rewrite Hl1; by intros ?%elem_of_nil|done]).
    cbn zeta. set (m := Z.min n (BSIZE - off mod BSIZE)). set (a := addr_at s1 (fpos (off / BSIZE))) in *.
    run_step. change (bdata (set_locked _ s1) a) with (bdata s1 a). run_step.
    set (s2 := set_vol _ _). destruct (v6_log_write_run a s2) as [g Hg]. erewrite bind_run by exact Hg.
    erewrite bind_run by (apply (brelse_run _ _ []); [cbn; by rewrite Hl1|by intros ?%elem_of_nil]).
    set (s3 := set_locked [] (set_logged g s2)).
    destruct (write_chunk s1 src off m s3) as [Hw Haddr]; [apply Hg1|apply Hg1|lia..|done|done|done|done|].
    assert (length (take (Z.to_nat m) src) = Z.to_nat m) as Elen by (rewrite length_take; lia).
    destruct (IH s3 (drop (Z.to_nat m) src) (off + m) (n - m)) as [(s' & Hr & Hw')|(s' & Hr & Hf)].
    + apply Hw.
    + apply Hw.
    + apply Hw.
    + lia.
    + rewrite length_drop. lia.
    + lia.
    + destruct (decide (m < n)) as [Hlt|]; [|left; lia]. right.
      destruct (next_block off m n H0 eq_refl Hlt) as [E1 E2]. rewrite E1. lia.
    + left. exists s'. split; [exact Hr|]. apply (written_grown s s1); [done|].
      rewrite <- (take_drop (Z.to_nat m) src). apply (written_app s1 s3); [done|].
      rewrite Elen, Z2Nat.id by lia. exact Hw'.
    + right. exists s'. done.
Qed.
End Tree.

(** * Inodes on disk *)

Lemma ld_st_ne k d off v k' off' :
  (off + k <= length d)%nat -> (off' + k' <= off \/ off + k <= off')%nat -> ld k' (st k d off v) off' = ld k' d off'.
Proof. intros H [H'|H']; [by apply ld_st_before|by apply ld_st_after]. Qed.

Lemma put_addrs_spec d off a :
  (off + 52 <= length d)%nat ->
  length (put_addrs d off a) = length d /\
  (forall k o, (o + k <= off \/ off + 52 <= o)%nat -> ld k (put_addrs d off a) o = ld k d o) /\
  (forall i, (i < 13)%nat -> ld 4 (put_addrs d off a) (off + 4 * i) = u32 (default 0 (a !! i))).
Proof.
  intros Hd. unfold put_addrs.
  assert (forall m, (m <= 13)%nat ->
    let r := fold_left (fun d i => st 4 d (off + 4 * i) (default 0 (a !! i))) (seq 0 m) d in
    length r = length d /\ (forall k o, (o + k <= off \/ off + 52 <= o)%nat -> ld k r o = ld k d o) /\
    (forall i, (i < m)%nat -> ld 4 r (off + 4 * i) = u32 (default 0 (a !! i)))) as H.
  { induction m as [|m IH]; intros Hm; [cbn; split_and!; [done|done|lia]|].
    destruct IH as (Hl & Ho & Hi); [lia|]. cbn zeta in *. rewrite seq_S, fold_left_app. cbn [fold_left plus].
    set (r := fold_left _ _ d) in *. rewrite length_st by lia. split_and!; [done| |].
    - intros k o Hko. rewrite ld_st_ne by lia. by apply Ho.
    - intros i Him. destruct (decide (i = m)) as [->|]; [by rewrite ld_st_same by lia|].
      rewrite ld_st_ne by lia. apply Hi. lia. }
  apply (H 13%nat). lia.
Qed.

Lemma put_time_spec d off t :
  (off + 16 <= length d)%nat ->
  length (put_time d off t) = length d /\
  (forall k o, (o + k <= off \/ off + 16 <= o)%nat -> ld k (put_time d off t) o = ld k d o) /\
  get_time (put_time d off t) off = (s64 (u64 t.1), s64 (u64 t.2)).
Proof.
  intros Hd. unfold put_time, get_time. rewrite !length_st by (rewrite ?length_st; lia). split_and!; [done| |].
  - intros k o Ho. rewrite !ld_st_ne by (rewrite ?length_st; lia). done.
  - rewrite ld_st_before by (rewrite ?length_st; lia). rewrite !ld_st_same by (rewrite ?length_st; lia). done.
Qed.

(** The fields of an inode fit their C types. *)
Record inode_ok (i : inode) : Prop := {
  ok_type : 0 <= type i < 2 ^ 16;
  ok_major : 0 <= major i < 2 ^ 16;
  ok_minor : 0 <= minor i < 2 ^ 16;
  ok_nlink : 0 <= nlink i < 2 ^ 16;
  ok_size : 0 <= isize i < 2 ^ 32;
  ok_mode : 0 <= mode i < 2 ^ 32;
  ok_uid : 0 <= uid i < 2 ^ 32;
  ok_gid : 0 <= gid i < 2 ^ 32;
  ok_times : Forall (fun t => - 2 ^ 63 <= t.1 < 2 ^ 63 /\ - 2 ^ 63 <= t.2 < 2 ^ 63) [atime i; mtime i; ctime i];
  ok_addrs : length (addrs i) = 13%nat /\ Forall (fun a => 0 <= a < 2 ^ 32) (addrs i) }.

Lemma s64_u64 x : - 2 ^ 63 <= x < 2 ^ 63 -> s64 (u64 x) = x.
Proof.
  intros H. unfold s64, swrap, u64, wrap. rewrite Zplus_mod_idemp_l. rewrite Z.mod_small; lia.
Qed.

Lemma length_put_time d off t : (off + 16 <= length d)%nat -> length (put_time d off t) = length d.
Proof. intros H. by apply put_time_spec. Qed.

Lemma length_put_addrs d off a : (off + 52 <= length d)%nat -> length (put_addrs d off a) = length d.
Proof. intros H. by apply put_addrs_spec. Qed.

Lemma ld_put_time_ne d off t k o :
  (off + 16 <= length d)%nat -> (o + k <= off \/ off + 16 <= o)%nat -> ld k (put_time d off t) o = ld k d o.
Proof. intros H. by apply put_time_spec. Qed.

Lemma ld_put_addrs_ne d off a k o :
  (off + 52 <= length d)%nat -> (o + k <= off \/ off + 52 <= o)%nat -> ld k (put_addrs d off a) o = ld k d o.
Proof. intros H. by apply put_addrs_spec. Qed.

Lemma get_time_ext d d' o : ld 8 d o = ld 8 d' o -> ld 8 d (o + 8) = ld 8 d' (o + 8) -> get_time d o = get_time d' o.
Proof. intros H1 H2. unfold get_time. by rewrite H1, H2. Qed.

(** Names the successive images of the block, with their lengths. *)
Ltac name_image d' t :=
  let L := fresh "L" in let E := fresh "E" in
  remember t as d' eqn:E;
  assert (length d' = length d') as L by reflexivity;
  rewrite E in L at 1;
  first [rewrite length_st in L by lia | rewrite length_put_time in L by lia | rewrite length_put_addrs in L by lia].

(** Follows a load back through the stores. *)
Ltac peel :=
  repeat match goal with
  | E : ?d = st _ _ _ _ |- context[ld _ ?d _] => rewrite E; first [rewrite ld_st_same by lia | rewrite ld_st_ne by lia]
  | E : ?d = put_time _ _ _ |- context[ld _ ?d _] => rewrite E, ld_put_time_ne by lia
  | E : ?d = put_addrs _ _ _ |- context[ld _ ?d _] => rewrite E, ld_put_addrs_ne by lia
  end.

(** The image of an inode in its block reads back as the inode, and nothing
    outside its 128 bytes changes. *)
Lemma put_inode_spec o i d :
  (o + 128 <= length d)%nat -> inode_ok i ->
  length (put_inode o i d) = length d /\
  (forall k o', (o' + k <= o \/ o + 128 <= o')%nat -> ld k (put_inode o i d) o' = ld k d o') /\
  forall j, get_inode o (put_inode o i d) j =
    mkI (inum j) (ref j) (lock j) (valid j) (type i) (major i) (minor i) (nlink i) (isize i) (mode i) (uid i) (gid i)
        (atime i) (mtime i) (ctime i) (addrs i).
Proof.
  intros Hd [Ht Hma Hmi Hnl Hsz Hmo Hu Hgi Hti [Hal Hav]]. unfold put_inode. cbn zeta.
  assert (length d = length d) as L0 by reflexivity.
  name_image d1 (st 2 d o (type i)). name_image d2 (st 2 d1 (o + 2) (major i)).
  name_image d3 (st 2 d2 (o + 4) (minor i)). name_image d4 (st 2 d3 (o + 6) (nlink i)).
  name_image d5 (st 4 d4 (o + 8) (isize i)). name_image d6 (st 4 d5 (o + 16) (uid i)).
  name_image d7 (st 4 d6 (o + 20) (gid i)). name_image d8 (st 4 d7 (o + 12) (mode i)).
  name_image d9 (put_time d8 (o + 24) (atime i)). name_image d10 (put_time d9 (o + 40) (mtime i)).
  name_image d11 (put_time d10 (o + 56) (ctime i)). name_image d12 (put_addrs d11 (o + 72) (addrs i)).
  split; [lia|]. split; [intros k o' Ho'; by peel|]. intros j. unfold get_inode.
  rewrite !Forall_cons in Hti. destruct Hti as ((Ha1 & Ha2) & (Hm1 & Hm2) & (Hc1 & Hc2) & _).
  assert (get_time d12 (o + 24) = atime i) as ->.
  { rewrite (get_time_ext d12 d9) by by peel. rewrite E7. destruct (put_time_spec d8 (o + 24) (atime i)) as (_ & _ & ->); [lia|].
    rewrite !s64_u64 by lia. by destruct (atime i). }
  assert (get_time d12 (o + 40) = mtime i) as ->.
  { rewrite (get_time_ext d12 d10) by by peel. rewrite E8. destruct (put_time_spec d9 (o + 40) (mtime i)) as (_ & _ & ->); [lia|].
    rewrite !s64_u64 by lia. by destruct (mtime i). }
  assert (get_time d12 (o + 56) = ctime i) as ->.
  { rewrite (get_time_ext d12 d11) by by peel. rewrite E9. destruct (put_time_spec d10 (o + 56) (ctime i)) as (_ & _ & ->); [lia|].
    rewrite !s64_u64 by lia. by destruct (ctime i). }
  assert (get_addrs d12 (o + 72) = addrs i) as ->.
  { unfold get_addrs. apply list_eq. intros x. rewrite list_lookup_fmap. destruct (decide (x < 13)%nat) as [Hx|Hx].
    - rewrite lookup_seq_lt by lia. cbn [fmap option_fmap option_map plus]. rewrite E10.
      destruct (put_addrs_spec d11 (o + 72) (addrs i) ltac:(lia)) as (_ & _ & Hent). rewrite Hent by done.
      destruct (addrs i !! x) as [y|] eqn:Ey; [|apply lookup_ge_None in Ey; lia]. cbn. f_equal. apply u32_id.
      by apply (Forall_lookup_1 _ _ _ _ Hav Ey).
    - rewrite lookup_seq_ge by lia. cbn. symmetry. apply lookup_ge_None. lia. }
  f_equal; peel; apply wrap_id; (change (8 * Z.of_nat 2) with 16 || change (8 * Z.of_nat 4) with 32); lia.
Qed.
Lemma put_inode_length o i d : (o + 128 <= length d)%nat -> length (put_inode o i d) = length d.
Proof.
  intros Hd. unfold put_inode. cbn zeta.
  name_image d1 (st 2 d o (type i)). name_image d2 (st 2 d1 (o + 2) (major i)).
  name_image d3 (st 2 d2 (o + 4) (minor i)). name_image d4 (st 2 d3 (o + 6) (nlink i)).
  name_image d5 (st 4 d4 (o + 8) (isize i)). name_image d6 (st 4 d5 (o + 16) (uid i)).
  name_image d7 (st 4 d6 (o + 20) (gid i)). name_image d8 (st 4 d7 (o + 12) (mode i)).
  name_image d9 (put_time d8 (o + 24) (atime i)). name_image d10 (put_time d9 (o + 40) (mtime i)).
  name_image d11 (put_time d10 (o + 56) (ctime i)). name_image d12 (put_addrs d11 (o + 72) (addrs i)).
  lia.
Qed.

Section Files.
Context (sb : v6_superblock) (nsecs : Z) {lay : Layout sb nsecs}.
Context (devsw_read : Z -> option (Z -> M state (Z * bytes))).
Context (devsw_write : Z -> option (bytes -> M state Z)).

Lemma IBLOCK_range i : 0 <= i < ninodes sb -> IBLOCK sb i = i / IPB + inodestart sb /\ 0 <= IBLOCK sb i < bmapstart sb.
Proof.
  intros Hi. pose proof lay_inodes. pose proof lay_inode_end. pose proof lay_bmap_end. pose proof lay_data. pose proof lay_size.
  assert (0 <= i / IPB <= (ninodes sb - 1) / IPB).
  { split; [apply Z.div_pos; unfold IPB; lia|apply Z.div_le_mono; unfold IPB; lia]. }
  assert (0 <= size sb / BPB) by (apply Z.div_pos; unfold BPB, BSIZE; lia).
  unfold IBLOCK. rewrite u32_id; lia.
Qed.

Lemma bmapstart_lt : bmapstart sb < dstart /\ bmapstart sb < nsecs.
Proof.
  pose proof lay_bmap_end. pose proof lay_data. pose proof lay_size.
  assert (0 <= size sb / BPB) by (apply Z.div_pos; unfold BPB, BSIZE; lia). lia.
Qed.

Lemma iupdate_run s :
  0 <= inum (ip s) < ninodes sb -> IBLOCK sb (inum (ip s)) ∉ locked s ->
  exists g, v6_iupdate sb nsecs None s =
    Ret tt (mkV (<[IBLOCK sb (inum (ip s)) := put_inode (dino (inum (ip s))) (ip s) (bdata s (IBLOCK sb (inum (ip s))))]> (vol s))
                (locked s) g (ip s)).
Proof.
  intros Hi Hl. destruct (IBLOCK_range _ Hi) as [_ Hr]. destruct bmapstart_lt as [_ Hns].
  unfold v6_iupdate. run_step. cbn zeta.
  erewrite bind_run by (apply v6_bread_run; [done|lia]). run_step.
  change (bdata (set_locked _ s) ?a) with (bdata s a). run_step.
  set (s2 := set_vol _ _). destruct (v6_log_write_run (IBLOCK sb (inum (ip s))) s2) as [g Hg].
  exists g. erewrite bind_run by exact Hg. by rewrite (brelse_run _ _ (locked s)).
Qed.

(** Changing a block below the bitmap changes nothing of a file. *)
Lemma low_update s s' c d :
  vol s' = <[c := d]> (vol s) -> addrs (ip s') = addrs (ip s) -> c < bmapstart sb -> length d = 4096%nat ->
  vol_ok sb nsecs s -> tree_ok sb nsecs s ->
  vol_ok sb nsecs s' /\ tree_ok sb nsecs s' /\ (forall q, valid_pos q -> addr_at s' q = addr_at s q) /\
  (forall o, 0 <= o < MAXFILE * BSIZE -> content s' o = content s o).
Proof.
  intros Hvol Ha Hc Hlen Hv Ht. pose proof lay_data as Hld. destruct bmapstart_lt as [Hbm _].
  assert (forall n, bdata s' n = if decide (c = n) then d else bdata s n) as Hd.
  { intros n. unfold bdata. rewrite Hvol. case_decide; subst; [by rewrite lookup_insert_eq|by rewrite lookup_insert_ne]. }
  assert (forall n, bmapstart sb <= n -> bdata s' n = bdata s n) as Hdn by (intros n Hn; rewrite Hd, decide_False; [done|lia]).
  assert (forall b, 0 <= b < size sb -> used sb s' b = used sb s b) as Hu.
  { intros b Hb. unfold used. rewrite Hdn; [done|]. destruct (BBLOCK_range sb nsecs b Hb) as [-> _].
    assert (0 <= b / BPB) by (apply Z.div_pos; unfold BPB, BSIZE; lia). lia. }
  assert (forall q, valid_pos q -> addr_at s q <> 0 -> bdata s' (addr_at s q) = bdata s (addr_at s q)) as Hbd.
  { intros q Hq H0. apply Hdn. destruct (tree_data _ _ _ Ht q Hq H0) as [Hr _]. lia. }
  assert (forall q, valid_pos q -> addr_at s' q = addr_at s q) as Haddr.
  { intros q Hq. apply addr_at_ext; [done|by intros; apply Hbd|done]. }
  split; [|split; [|split; [done|]]].
  - split; [intros n; rewrite Hd; case_decide; [done|apply Hv]|]. intros b Hb. rewrite Hu by lia. by apply Hv.
  - apply (tree_ok_ext sb nsecs s); [done|by intros; apply Hbd| |done]. intros b Hb. rewrite Hu by lia. done.
  - intros o Ho. unfold content, pdata. destruct (fpos_valid _ (block_range o Ho)) as [Hq _].
    rewrite Haddr by done. destruct (Z.eqb_spec (addr_at s (fpos (o / BSIZE))) 0); [done|]. by rewrite Hbd.
Qed.

Lemma readi_run s off n :
  vol_ok sb nsecs s -> tree_ok sb nsecs s -> no_holes s -> locked s = [] -> type (ip s) <> T_DEV ->
  0 <= isize (ip s) < 2 ^ 32 -> 0 <= off <= isize (ip s) -> 0 <= n -> off + n < 2 ^ 64 ->
  let m := Z.min n (isize (ip s) - off) in
  v6_readi sb nsecs None devsw_read off n s = Ret (m, content s <$> seqZ off m) s.
Proof.
  intros Hv Ht Hh Hl Hty Hsz Hoff Hn Hov m. unfold v6_readi. run_step.
  destruct (Z.eqb_spec (type (ip s)) T_DEV); [done|].
  destruct (Z.ltb_spec (isize (ip s)) off); [lia|]. rewrite u64_id by lia.
  destruct (Z.ltb_spec (off + n) off); [lia|]. cbn [orb]. cbn zeta.
  replace (if isize (ip s) <? off + n then isize (ip s) - off else n) with m
    by (unfold m; destruct (Z.ltb_spec (isize (ip s)) (off + n)); lia).
  erewrite bind_run; [reflexivity|].
  pose proof (Z.mod_pos_bound off BSIZE ltac:(done)). pose proof (Z.div_mod m BSIZE ltac:(done)).
  pose proof (Z.mod_pos_bound m BSIZE ltac:(done)).
  assert (0 <= m / BSIZE) by (apply Z.div_pos; unfold BSIZE; lia).
  eapply readi_loop_spec; try done; try lia.
  - unfold MAXFILE, NDIRECT, NINDIRECT, BSIZE. lia.
  - intros o Ho. apply Hh. lia.
  - right. unfold rounds. rewrite Z2Nat.id by lia. lia.
Qed.

Lemma fmap_seqZ_src (src : bytes) (f : Z -> Z) off :
  (forall i x, src !! i = Some x -> f (off + Z.of_nat i) = x) -> f <$> seqZ off (Z.of_nat (length src)) = src.
Proof.
  intros H. apply list_eq. intros i. rewrite list_lookup_fmap. destruct (src !! i) as [x|] eqn:E.
  - pose proof (lookup_lt_Some _ _ _ E). rewrite lookup_seqZ_lt by lia. cbn. f_equal. by apply H.
  - apply lookup_ge_None in E. rewrite lookup_seqZ_ge by lia. done.
Qed.

(** The size is written back when the file has grown. *)
Lemma grow_run s s1 src off n :
  written sb nsecs s s1 src off -> 0 <= inum (ip s) < ninodes sb -> 0 <= off -> 0 < n -> off + n < 2 ^ 32 ->
  exists s2, when ((0 <? n) && (isize (ip s) <? off + n)) (upd_ip (set_size (u32 (off + n))) ;; v6_iupdate sb nsecs None) s1 = Ret tt s2 /\
    vol_ok sb nsecs s2 /\ tree_ok sb nsecs s2 /\ locked s2 = [] /\ type (ip s2) = type (ip s) /\ inum (ip s2) = inum (ip s) /\
    (forall q, valid_pos q -> addr_at s2 q = addr_at s1 q) /\
    (forall o, 0 <= o < MAXFILE * BSIZE -> content s2 o = content s1 o) /\
    isize (ip s2) = Z.max (isize (ip s)) (off + n).
Proof.
  intros Hw Hin Hoff Hpos Hmax.
  pose proof (wr_ip _ _ _ _ _ _ Hw) as Hip. destruct (Z.ltb_spec 0 n); [|lia]. cbn [andb].
  destruct (Z.ltb_spec (isize (ip s)) (off + n)) as [Hlt|Hge]; cbn [when].
  - run_step. set (s1' := set_ip _ s1).
    assert (inum (ip s1') = inum (ip s)) as Ein by (cbn; by rewrite Hip).
    destruct (iupdate_run s1') as [g Hg].
    { by rewrite Ein. } { cbn. rewrite (wr_locked _ _ _ _ _ _ Hw). by intros ?%elem_of_nil. }
    rewrite Ein in Hg. eexists. split; [exact Hg|].
    destruct (IBLOCK_range _ Hin) as [_ Hib].
    set (s2 := mkV _ _ _ _).
    destruct (low_update s1 s2 (IBLOCK sb (inum (ip s))) (put_inode (dino (inum (ip s))) (ip s1') (bdata s1' (IBLOCK sb (inum (ip s))))))
      as (Hv2 & Ht2 & Ha2 & Hc2); try apply Hw; [done|done|lia| |].
    { pose proof (wr_vol _ _ _ _ _ _ Hw) as Hv1.
      assert (length (bdata s1' (IBLOCK sb (inum (ip s)))) = 4096%nat) as Hlb by apply (vol_len _ _ _ Hv1).
      rewrite <- Hlb. apply put_inode_length. rewrite Hlb. unfold dino.
      pose proof (Z.mod_pos_bound (inum (ip s)) IPB ltac:(done)). unfold IPB in *. lia. }
    split_and!; try done; [apply Hw|cbn; by rewrite Hip|]. cbn. rewrite u32_id; lia.
  - exists s1. split; [done|]. split_and!; try apply Hw; try done; [by rewrite Hip|by rewrite Hip|]. rewrite Hip. cbn. lia.
Qed.

(** A write: the file keeps its invariants, and its bytes are the ones written
    and otherwise the old ones; or there was no free block. *)
Lemma writei_run s src off n :
  vol_ok sb nsecs s -> tree_ok sb nsecs s -> no_holes s -> locked s = [] -> type (ip s) <> T_DEV ->
  0 <= inum (ip s) < ninodes sb -> 0 <= isize (ip s) < 2 ^ 32 ->
  0 <= off <= isize (ip s) -> n = Z.of_nat (length src) -> 0 < n -> off + n < 2 ^ 32 ->
  (exists s', v6_writei sb nsecs None devsw_write src off n s = Ret n s' /\
     vol_ok sb nsecs s' /\ tree_ok sb nsecs s' /\ no_holes s' /\ locked s' = [] /\
     type (ip s') = type (ip s) /\ inum (ip s') = inum (ip s) /\ isize (ip s') = Z.max (isize (ip s)) (off + n) /\
     forall o, 0 <= o < 2 ^ 32 -> content s' o =
       if (off <=? o) && (o <? off + n) then default 0 (src !! Z.to_nat (o - off)) else content s o) \/
  (exists s', v6_writei sb nsecs None devsw_write src off n s = Panic s' /\ full sb s').
Proof.
  intros Hv Ht Hh Hl Hty Hin Hsz Hoff Hn Hpos Hmax.
  pose proof (Z.mod_pos_bound off BSIZE ltac:(done)). pose proof (Z.div_mod n BSIZE ltac:(done)).
  pose proof (Z.mod_pos_bound n BSIZE ltac:(done)).
  assert (0 <= n / BSIZE) by (apply Z.div_pos; unfold BSIZE; lia).
  assert (2 ^ 32 <= MAXFILE * BSIZE) as Hmf by (vm_compute; congruence).
  unfold v6_writei. run_step.
  destruct (Z.eqb_spec (type (ip s)) T_DEV); [done|].
  destruct (Z.ltb_spec (isize (ip s)) off); [lia|]. rewrite u64_id by lia.
  destruct (Z.ltb_spec (off + n) off); [lia|]. cbn [orb].
  destruct (Z.ltb_spec (MAXFILE * BSIZE) (off + n)); [lia|].
  destruct (writei_loop_spec sb nsecs (rounds n) s src off n Hv Ht Hl ltac:(lia) Hn ltac:(lia)) as [(s1 & Hr1 & Hw)|(s1 & Hr1 & Hf)].
  { right. unfold rounds. rewrite Z2Nat.id by lia. lia. }
  2: { right. exists s1. split; [|done]. unfold bind. by rewrite Hr1. }
  left. erewrite bind_run by exact Hr1.
  destruct (grow_run s s1 src off n Hw Hin ltac:(lia) Hpos Hmax) as (s2 & Hr2 & Hv2 & Ht2 & Hl2 & Hty2 & Hin2 & Ha2 & Hc2 & Hs2).
  exists s2. erewrite bind_run by exact Hr2. split; [done|].
  assert (no_holes s2) as Hh2.
  { intros o Ho. rewrite Hs2 in Ho. unfold mapped. destruct (fpos_valid _ (block_range o ltac:(lia))) as [Hq _].
    rewrite Ha2 by done. destruct (decide (off <= o < off + n)) as [Hle|]; [apply (wr_mapped _ _ _ _ _ _ Hw); lia|].
    assert (mapped s o) as Hm by (apply Hh; lia). rewrite (wr_addr _ _ _ _ _ _ Hw); done. }
  split_and!; try done.
  intros o Ho. rewrite Hc2, (wr_content _ _ _ _ _ _ Hw) by lia. by subst n.
Qed.

(** A write and the reads that follow; no limits. *)
Lemma writei_readi_run s src off n :
  vol_ok sb nsecs s -> tree_ok sb nsecs s -> no_holes s -> locked s = [] -> type (ip s) <> T_DEV ->
  0 <= inum (ip s) < ninodes sb -> 0 <= isize (ip s) < 2 ^ 32 ->
  0 <= off <= isize (ip s) -> n = Z.of_nat (length src) -> 0 < n -> off + n < 2 ^ 32 ->
  (exists s', v6_writei sb nsecs None devsw_write src off n s = Ret n s' /\
     vol_ok sb nsecs s' /\ tree_ok sb nsecs s' /\ no_holes s' /\ locked s' = [] /\
     isize (ip s') = Z.max (isize (ip s)) (off + n) /\
     v6_readi sb nsecs None devsw_read off n s' = Ret (n, src) s' /\
     forall o m, 0 <= o -> 0 <= m -> o + m <= isize (ip s) -> o + m <= off \/ off + n <= o ->
       v6_readi sb nsecs None devsw_read o m s' = Ret (m, content s <$> seqZ o m) s') \/
  (exists s', v6_writei sb nsecs None devsw_write src off n s = Panic s' /\ full sb s').
Proof.
  intros Hv Ht Hh Hl Hty Hin Hsz Hoff Hn Hpos Hmax.
  destruct (writei_run s src off n) as [(s2 & Hr2 & Hv2 & Ht2 & Hh2 & Hl2 & Hty2 & Hin2 & Hs2 & Hc2)|Hfull]; try done; [left|by right].
  exists s2. split; [done|].
  assert (forall o m, 0 <= o -> 0 <= m -> o + m <= isize (ip s2) ->
    v6_readi sb nsecs None devsw_read o m s2 = Ret (m, content s2 <$> seqZ o m) s2) as Hread.
  { intros o m Ho Hm Hom. rewrite readi_run by (done || congruence || lia). by rewrite Z.min_l by lia. }
  split_and!; try done.
  - rewrite Hread by lia. do 2 f_equal. subst n. apply fmap_seqZ_src. intros i x Hi. pose proof (lookup_lt_Some _ _ _ Hi).
    rewrite Hc2 by lia.
    destruct (Z.leb_spec off (off + Z.of_nat i)); [|lia]. destruct (Z.ltb_spec (off + Z.of_nat i) (off + Z.of_nat (length src))); [|lia].
    cbn [andb]. replace (Z.to_nat (off + Z.of_nat i - off)) with i by lia. by rewrite Hi.
  - intros o m Ho Hm Hom Hor. rewrite Hread by lia. do 2 f_equal. apply list_fmap_ext.
    intros i x Hx%list_elem_of_lookup_2%elem_of_seqZ. rewrite Hc2 by lia.
    destruct (Z.leb_spec off x), (Z.ltb_spec x (off + n)); cbn [andb]; try done. lia.
Qed.

(** C6: a write to a regular file stores all its bytes, unless it panics.  It
    panics only when every block the allocator looks at is in use, or when it
    logs more blocks than the log holds or finds all buffers pinned.  After it,
    the file keeps its invariants, its size is the larger of the old size and
    the end of the write, a read gives what was written, and any other byte
    as before; a read, too, can only fail at a limit. *)
Theorem writei_readi lim s src off n :
  vol_ok sb nsecs s -> tree_ok sb nsecs s -> no_holes s -> locked s = [] -> type (ip s) <> T_DEV ->
  0 <= inum (ip s) < ninodes sb -> 0 <= isize (ip s) < 2 ^ 32 ->
  0 <= off <= isize (ip s) -> n = Z.of_nat (length src) -> 0 < n -> off + n < 2 ^ 32 ->
  (exists s', v6_writei sb nsecs lim devsw_write src off n s = Ret n s' /\
     vol_ok sb nsecs s' /\ tree_ok sb nsecs s' /\ no_holes s' /\ locked s' = [] /\
     isize (ip s') = Z.max (isize (ip s)) (off + n) /\
     gives lim (v6_readi sb nsecs lim devsw_read off n) s' (Ret (n, src) s') /\
     forall o m, 0 <= o -> 0 <= m -> o + m <= isize (ip s) -> o + m <= off \/ off + n <= o ->
       gives lim (v6_readi sb nsecs lim devsw_read o m) s' (Ret (m, content s <$> seqZ o m) s')) \/
  (exists s', v6_writei sb nsecs lim devsw_write src off n s = Panic s' /\ (full sb s' \/ over lim s')).
Proof.
  intros Hv Ht Hh Hl Hty Hin Hsz Hoff Hn Hpos Hmax.
  destruct (obeys_writei sb nsecs lim devsw_write src off n s) as [E|(s1 & E & Ho)]; [|right; exists s1; split; [done|by right]].
  destruct (writei_readi_run s src off n) as [(s' & E1 & Hv' & Ht' & Hh' & Hl' & Hs' & Hr & Hr')|(s' & E1 & Hf)]; try done; rewrite E1 in E.
  - left. exists s'. split_and!; try done.
    + rewrite <- Hr. apply obeys_readi.
    + intros o m H1 H2 H3 H4. rewrite <- (Hr' o m) by done. apply obeys_readi.
  - right. exists s'. split; [done|by left].
Qed.

Lemma get_inode_ext o d d' j :
  (forall k x, (o <= x)%nat -> (x + k <= o + 128)%nat -> ld k d x = ld k d' x) -> get_inode o d j = get_inode o d' j.
Proof.
  intros H. unfold get_inode, get_time, get_addrs.
  rewrite !(H 2%nat) by lia. rewrite !(H 4%nat) by lia. rewrite !(H 8%nat) by lia.
  f_equal. apply list_fmap_ext. intros i x Hx%list_elem_of_lookup_2%elem_of_seq. apply H; lia.
Qed.

Lemma dino_range i : (dino i + 128 <= 4096)%nat.
Proof. unfold dino. pose proof (Z.mod_pos_bound i IPB ltac:(done)). unfold IPB in *. lia. Qed.

(** Two inodes of one block lie apart. *)
Lemma dino_apart n i :
  0 <= n < ninodes sb -> 0 <= i < ninodes sb -> n <> i -> IBLOCK sb n = IBLOCK sb i ->
  (dino n + 128 <= dino i \/ dino i + 128 <= dino n)%nat.
Proof.
  intros Hn Hi Hne E. destruct (IBLOCK_range _ Hn) as [En _], (IBLOCK_range _ Hi) as [Ei _].
  pose proof (Z.div_mod n IPB ltac:(done)). pose proof (Z.div_mod i IPB ltac:(done)).
  assert (n mod IPB <> i mod IPB) by (unfold IPB in *; lia).
  unfold dino in *. pose proof (Z.mod_pos_bound n IPB ltac:(done)). pose proof (Z.mod_pos_bound i IPB ltac:(done)). lia.
Qed.

(** What [v6_iupdate] writes, [v6_ilock] of an inode that is not in memory
    reads back, field by field; the other inodes on disk, those of the same
    block included, do not change. *)
Lemma iupdate_ilock s :
  vol_ok sb nsecs s -> locked s = [] -> 0 <= inum (ip s) < ninodes sb -> inode_ok (ip s) -> type (ip s) <> 0 ->
  exists s1, v6_iupdate sb nsecs None s = Ret tt s1 /\
    (forall j, inum j = inum (ip s) -> 1 <= ref j -> lock j = false -> valid j = false ->
       exists s2, v6_ilock sb nsecs None (set_ip j s1) = Ret tt s2 /\
         ip s2 = set_valid true (set_lock true
           (mkI (inum j) (ref j) (lock j) (valid j) (type (ip s)) (major (ip s)) (minor (ip s)) (nlink (ip s)) (isize (ip s))
                (mode (ip s)) (uid (ip s)) (gid (ip s)) (atime (ip s)) (mtime (ip s)) (ctime (ip s)) (addrs (ip s)))) /\
         vol s2 = vol s1 /\ locked s2 = []) /\
    (forall n j, 0 <= n < ninodes sb -> n <> inum (ip s) ->
       get_inode (dino n) (bdata s1 (IBLOCK sb n)) j = get_inode (dino n) (bdata s (IBLOCK sb n)) j).
Proof.
  intros Hv Hl Hin Hok Hty. set (i := ip s) in *. destruct (IBLOCK_range _ Hin) as [EI Hr]. destruct bmapstart_lt as [_ Hns].
  destruct (iupdate_run s Hin) as [g Hg]; [rewrite Hl; by intros ?%elem_of_nil|]. fold i in Hg.
  set (bn := IBLOCK sb (inum i)) in *.
  assert (dino (inum i) + 128 <= length (bdata s bn))%nat as Hd by (rewrite (vol_len _ _ _ Hv); apply dino_range).
  destruct (put_inode_spec (dino (inum i)) i (bdata s bn) Hd Hok) as (Hlen & Hframe & Hget).
  set (s1 := mkV _ _ _ _) in Hg.
  assert (forall n, bdata s1 n = if decide (bn = n) then put_inode (dino (inum i)) i (bdata s bn) else bdata s n) as Hbd
    by (intros n; unfold bdata; cbn; case_decide; subst; [by rewrite lookup_insert_eq|by rewrite lookup_insert_ne]).
  exists s1. split; [done|]. split.
  - intros j Ej Hrf Hlk Hvd. unfold v6_ilock. run_step. cbn [ip set_ip].
    destruct (Z.ltb_spec (ref j) 1); [lia|]. rewrite Hlk. run_step. rewrite Hvd, Ej. fold bn. cbn zeta.
    erewrite bind_run by (apply v6_bread_run; [cbn; rewrite Hl; by intros ?%elem_of_nil|lia]).
    run_step. run_step.
    erewrite bind_run by (apply (brelse_run _ _ []); [cbn; by rewrite Hl|by intros ?%elem_of_nil]).
    run_step. run_step.
    change (bdata (set_locked _ _) bn) with (bdata s1 bn). rewrite Hbd, decide_True by done. cbn [ip set_ip set_locked]. rewrite Hget.
    destruct (Z.eqb_spec (type i) 0) as [E|E]; [done|]. cbn [type set_valid]. destruct (Z.eqb_spec (type i) 0); [done|].
    eexists. split; [reflexivity|]. split; [unfold set_valid; cbn; by rewrite Ej|split; reflexivity].
  - intros n j Hn Hne. rewrite Hbd. case_decide as E; [|done]. subst bn. apply get_inode_ext. intros k x Hx1 Hx2.
    rewrite <- E. apply Hframe. pose proof (dino_apart n (inum i) Hn Hin Hne (eq_sym E)). lia.
Qed.

(** C40: the error returns.  Reading or writing past the end of the file, a
    range that overflows, a write behind the largest file, and a device without
    a driver all return -1 and change nothing. *)
Theorem readi_writei_errors lim s src off n :
  0 <= off -> 0 <= n ->
  (type (ip s) <> T_DEV -> isize (ip s) < off \/ u64 (off + n) < off ->
     v6_readi sb nsecs lim devsw_read off n s = Ret (-1, []) s /\ v6_writei sb nsecs lim devsw_write src off n s = Ret (-1) s) /\
  (type (ip s) <> T_DEV -> off <= isize (ip s) -> MAXFILE * BSIZE < off + n ->
     v6_writei sb nsecs lim devsw_write src off n s = Ret (-1) s) /\
  (type (ip s) = T_DEV -> NMAJOR <= major (ip s) \/ (devsw_read (major (ip s)) = None /\ devsw_write (major (ip s)) = None) ->
     v6_readi sb nsecs lim devsw_read off n s = Ret (-1, []) s /\ v6_writei sb nsecs lim devsw_write src off n s = Ret (-1) s).
Proof.
  intros Hoff Hn. unfold v6_readi, v6_writei. split_and!.
  - intros Hty Hor. erewrite !bind_run by reflexivity. destruct (Z.eqb_spec (type (ip s)) T_DEV); [done|].
    assert ((isize (ip s) <? off) || (u64 (off + n) <? off) = true) as ->.
    { destruct Hor as [H|H]; apply Z.ltb_lt in H; rewrite H; [done|apply orb_true_r]. }
    done.
  - intros Hty Hle Hbig. run_step. destruct (Z.eqb_spec (type (ip s)) T_DEV); [done|].
    destruct ((isize (ip s) <? off) || (u64 (off + n) <? off)); [done|].
    destruct (Z.ltb_spec (MAXFILE * BSIZE) (off + n)); [done|lia].
  - intros Hty Hor. erewrite !bind_run by reflexivity. destruct (Z.eqb_spec (type (ip s)) T_DEV); [|done].
    destruct Hor as [H|[H1 H2]].
    + apply Z.leb_le in H. by rewrite H.
    + rewrite H1, H2. by destruct (NMAJOR <=? major (ip s)).
Qed.
End Files.

(** * Witnesses *)

(** The volume [mkfs] makes: 100000 blocks, 1024 inodes, a log of 126 blocks. *)
Definition sb_mkfs : v6_superblock := mkSb 100000 99834 1024 126 2 128 161.

#[export] Instance lay_mkfs : Layout sb_mkfs 800000.
Proof. refine {| dstart := 165 |}; vm_compute; intuition congruence. Defined.

Definition bitmap_mkfs : bytes := replicate 20 255 ++ 31 :: replicate 4075 0.

Definition ino_file : inode := mkI 5 1 true true T_FILE 0 0 1 0 0x81a4 0 0 (0, 0) (0, 0) (0, 0) (replicate 13 0).

Definition st_mkfs : state := mkV {[161 := bitmap_mkfs]} [] [] ino_file.

Lemma bdata_mkfs n : bdata st_mkfs n = if decide (n = 161) then bitmap_mkfs else zero_block.
Proof.
  unfold bdata, st_mkfs. cbn [vol]. case_decide; subst; [by rewrite lookup_singleton_eq|by rewrite lookup_singleton_ne].
Qed.

Lemma used_mkfs b : 0 <= b < BPB -> used sb_mkfs st_mkfs b = negb (bit_clear bitmap_mkfs b).
Proof.
  intros Hb. unfold used. assert (BBLOCK sb_mkfs b = 161 /\ b mod BPB = b) as [-> ->].
  { unfold BBLOCK. rewrite Z.div_small, Z.mod_small by exact Hb. split; reflexivity. }
  rewrite bdata_mkfs, decide_True by reflexivity. reflexivity.
Qed.

Lemma vol_mkfs : vol_ok sb_mkfs 800000 st_mkfs.
Proof.
  split.
  - intros n. rewrite bdata_mkfs. case_decide; vm_compute; reflexivity.
  - intros b Hb. cbn in Hb.
    rewrite used_mkfs by (unfold BPB, BSIZE; lia).
    assert (forallb (fun b => negb (bit_clear bitmap_mkfs b)) (seqZ 0 165) = true) as Hall by (vm_compute; reflexivity).
    rewrite forallb_forall in Hall. apply Hall, list_elem_of_In, elem_of_seqZ. lia.
Qed.

Lemma addr_mkfs p : valid_pos p -> addr_at st_mkfs p = 0.
Proof.
  assert (forall i, default 0 (replicate 13 0 !! i) = 0) as H.
  { intros i. destruct (replicate 13 0 !! i) eqn:E; [|done]. by apply lookup_replicate in E as [-> _]. }
  destruct p; intros _; unfold addr_at; cbn [ip st_mkfs addrs ino_file]; rewrite ?H; done.
Qed.

Lemma tree_mkfs : tree_ok sb_mkfs 800000 st_mkfs.
Proof. split; [done|intros p Hv H; by rewrite addr_mkfs in H|intros p q Hv Hq H; by rewrite addr_mkfs in H]. Qed.

(** The log and the cache as they are when a transaction begins. *)
Definition lim_os : limits := mkLim 126 126.

Lemma balloc_bfree_exact_witness :
  exists b s1 s2, v6_balloc sb_mkfs 800000 (Some lim_os) st_mkfs = Ret b s1 /\ v6_bfree sb_mkfs 800000 (Some lim_os) b s1 = Ret tt s2.
Proof.
  destruct (balloc_bfree_exact sb_mkfs 800000 (Some lim_os) st_mkfs vol_mkfs) as [H _].
  - intros n Hn. exact (False_ind _ (proj1 (elem_of_nil n) Hn)).
  - assert (match v6_balloc sb_mkfs 800000 (Some lim_os) st_mkfs with
            | Ret b s1 => match v6_bfree sb_mkfs 800000 (Some lim_os) b s1 with Ret _ _ => true | _ => false end
            | _ => false end = true) as E by (vm_compute; reflexivity).
    destruct H as [(s1 & H & _)|(b & s1 & H1 & _ & _ & _ & [(s2 & H2 & _)|(s2 & H2 & _)])].
    + exists 165. split; [vm_compute; intuition congruence|]. rewrite used_mkfs by (split; [lia|reflexivity]). vm_compute. reflexivity.
    + rewrite H in E. discriminate E.
    + rewrite H1, H2 in E. discriminate E.
    + exists b, s1, s2. split; [exact H1|exact H2].
Defined.

Lemma writei_readi_witness :
  exists s', v6_writei sb_mkfs 800000 (Some lim_os) (fun _ => None) [7; 8; 9] 0 3 st_mkfs = Ret 3 s' /\
     v6_readi sb_mkfs 800000 (Some lim_os) (fun _ => None) 0 3 s' = Ret (3, [7; 8; 9]) s'.
Proof.
  assert (match v6_writei sb_mkfs 800000 (Some lim_os) (fun _ => None) [7; 8; 9] 0 3 st_mkfs with
          | Ret b s1 => match v6_readi sb_mkfs 800000 (Some lim_os) (fun _ => None) 0 3 s1 with Ret _ _ => true | _ => false end
          | _ => false end = true) as E by (vm_compute; reflexivity).
  destruct (writei_readi sb_mkfs 800000 (fun _ => None) (fun _ => None) (Some lim_os) st_mkfs [7; 8; 9] 0 3 vol_mkfs tree_mkfs)
    as [(s' & H1 & _ & _ & _ & _ & _ & H2 & _)|(s' & H & _)].
  - intros o Ho. cbn in Ho. lia.
  - reflexivity.
  - discriminate.
  - vm_compute. intuition congruence.
  - vm_compute. intuition congruence.
  - vm_compute. intuition congruence.
  - reflexivity.
  - lia.
  - lia.
  - exists s'. split; [exact H1|]. rewrite H1 in E. destruct H2 as [H2|(s1 & H2 & _)]; [exact H2|]. rewrite H2 in E. discriminate E.
  - rewrite H in E. discriminate E.
Defined.

(** A write outside of a transaction panics, and so does one that logs more
    than the log holds: here the bitmap, the new block and the inode. *)
Example write_limits :
  (fun r => match v6_writei sb_mkfs 800000 (Some (mkLim r 126)) (fun _ => None) [7; 8; 9] 0 3 st_mkfs with Ret v s => Some (v, logged s) | _ => None end)
    <$> [0; 1; 2; 3; 4] = [None; None; None; Some (3, [161; 165; 128]); Some (3, [161; 165; 128])].
Proof. vm_compute. reflexivity. Qed.

Lemma ino_file_ok : inode_ok ino_file.
Proof.
  split; cbn [ino_file type major minor nlink isize mode uid gid atime mtime ctime addrs]; try (unfold T_FILE; lia).
  - repeat constructor; cbn; lia.
  - split; [reflexivity|]. apply Forall_replicate. lia.
Qed.

Lemma iupdate_ilock_witness :
  exists s1 s2, v6_iupdate sb_mkfs 800000 None st_mkfs = Ret tt s1 /\
    v6_ilock sb_mkfs 800000 None (set_ip (set_valid false (set_lock false ino_file)) s1) = Ret tt s2 /\ mode (ip s2) = 0x81a4.
Proof.
  destruct (iupdate_ilock sb_mkfs 800000 st_mkfs vol_mkfs) as (s1 & H1 & H2 & _).
  - reflexivity.
  - vm_compute. intuition congruence.
  - exact ino_file_ok.
  - discriminate.
  - destruct (H2 (set_valid false (set_lock false ino_file))) as (s2 & H3 & H4 & _).
    + reflexivity.
    + vm_compute. congruence.
    + reflexivity.
    + reflexivity.
    + exists s1, s2. split; [exact H1|]. split; [exact H3|]. by rewrite H4.
Defined.

Lemma readi_writei_errors_witness :
  v6_writei sb_mkfs 800000 (Some lim_os) (fun _ => None) [7] 1 1 st_mkfs = Ret (-1) st_mkfs.
Proof.
  destruct (readi_writei_errors sb_mkfs 800000 (fun _ => None) (fun _ => None) (Some lim_os) st_mkfs [7] 1 1) as [H _]; [lia|lia|].
  destruct H as [_ H]; [discriminate|left; reflexivity|exact H].
Defined.

End V6.
