(* ===== verification/V6trunc.v ===== *)
(** Truncation and inode allocation of kern/v6.c: [v6_itrunc], [v6_ialloc].

    The double indirect part of [v6_itrunc] uses a pointer into the buffer of
    the double indirect block after it has released that buffer.  What the
    buffer holds by then is an argument ([recycled]); [itrunc_recycled] shows what
    happens when the first child gets it.

    [trunc] relates a state during the truncation to the state before it: the
    places [D] of the block tree are given back, all others are as before. *)

From stdpp Require Import base list gmap.
From Stdlib Require Import ZArith Lia Bool.
From S2P Require Import Prelude V6.

Module V6trunc.
Import V6.

Section Code.
Context (sb : v6_superblock) (nsecs : Z) (lim : option limits).

(** [v6_bfree(dev, addrs[i]); addrs[i] = 0;] *)
Definition drop_direct (i : Z) : M state unit :=
  let* a := gets (fun s => default 0 (addrs (ip s) !! Z.to_nat i)) in
  v6_bfree sb nsecs lim a ;;
  upd_ip (fun x => set_addrs (<[Z.to_nat i := 0]> (addrs x)) x).

Definition free_direct (i : Z) : M state unit :=
  let* a := gets (fun s => default 0 (addrs (ip s) !! Z.to_nat i)) in
  if a =? 0 then ret tt else drop_direct i.

(** [v6_bfree(dev, a[k]); a[k] = 0;] in the block [bn]. *)
Definition drop_slot (bn k : Z) : M state unit :=
  let* d := get_data bn in
  v6_bfree sb nsecs lim (ld 4 d (Z.to_nat (4 * k))) ;;
  let* d := get_data bn in
  put_data bn (st 4 d (Z.to_nat (4 * k)) 0).

Definition free_slot (bn k : Z) : M state unit :=
  let* d := get_data bn in
  if ld 4 d (Z.to_nat (4 * k)) =? 0 then ret tt else drop_slot bn k.

Definition free_indirect : M state unit :=
  let* a := gets (fun s => default 0 (addrs (ip s) !! Z.to_nat NDIRECT)) in
  if a =? 0 then ret tt else
  bread nsecs lim a ;;
  for_each (seqZ 0 NINDIRECT) (free_slot a) ;;
  brelse a ;;
  drop_direct NDIRECT.

(** The loop over the double indirect block keeps the pointer [a] into its
    buffer, which it releases before it reads the first child; [bget] may give that
    buffer to another block.  [recycled i] is the block the buffer is given to
    in turn [i], before [a[i]] is used again, if it is. *)
Context (recycled : Z -> option Z).

(** [am] is the block in the buffer that [a] points into, [bp] the one of the
    buffer that is held. *)
Fixpoint free_children (ks : list Z) (am bp : Z) : M state Z :=
  match ks with
  | [] => ret bp
  | i :: ks' =>
      let* d := get_data am in
      let c := ld 4 d (Z.to_nat (4 * i)) in
      if c =? 0 then free_children ks' am bp else
      brelse bp ;;
      bread nsecs lim c ;;
      let am := default am (recycled i) in
      for_each (seqZ 0 NINDIRECT) (free_slot c) ;;
      drop_slot am i ;;
      free_children ks' am c
  end.

Definition free_double : M state unit :=
  let* a := gets (fun s => default 0 (addrs (ip s) !! Z.to_nat (NDIRECT + 1))) in
  if a =? 0 then ret tt else
  bread nsecs lim a ;;
  let* bp := free_children (seqZ 0 NINDIRECT) a a in
  brelse bp ;;
  drop_direct (NDIRECT + 1).

Definition v6_itrunc : M state unit :=
  for_each (seqZ 0 NDIRECT) free_direct ;;
  free_indirect ;;
  free_double ;;
  upd_ip (set_size 0) ;;
  v6_iupdate sb nsecs lim.

(** The disk inode [inum] is free: zero it but for its type. *)
Definition ialloc_try (type inum : Z) : M state (option Z) :=
  let bn := IBLOCK sb inum in
  bread nsecs lim bn ;;
  let* d := get_data bn in
  let o := dino inum in
  if ld 2 d o =? 0 then
    put_data bn (st 2 (take o d ++ replicate 128 0 ++ drop (o + 128) d) o type) ;;
    log_write lim bn ;;
    brelse bn ;;
    ret (Some inum)
  else brelse bn ;; ret None.

(** The number of the new inode, for [v6_iget]. *)
Definition v6_ialloc (type : Z) : M state Z :=
  let* r := loop (seqZ 1 (ninodes sb - 1)) (ialloc_try type) in
  match r with Some i => ret i | None => panic end.
End Code.

Section Limits.
Context (sb : v6_superblock) (nsecs : Z) (lim : option limits) (recycled : Z -> option Z).

Lemma obeys_drop_direct i : obeys lim (drop_direct sb nsecs lim i) (drop_direct sb nsecs None i).
Proof. unfold drop_direct. obeys. Qed.

Lemma obeys_drop_slot bn k : obeys lim (drop_slot sb nsecs lim bn k) (drop_slot sb nsecs None bn k).
Proof. unfold drop_slot. obeys. Qed.
#[local] Hint Resolve obeys_drop_direct obeys_drop_slot : limits.

Lemma obeys_free_children ks am bp : obeys lim (free_children sb nsecs lim recycled ks am bp) (free_children sb nsecs None recycled ks am bp).
Proof. revert am bp. induction ks as [|i ks IH]; intros am bp; cbn [free_children]; unfold free_slot; obeys. Qed.
#[local] Hint Resolve obeys_free_children : limits.

Lemma obeys_itrunc : obeys lim (v6_itrunc sb nsecs lim recycled) (v6_itrunc sb nsecs None recycled).
Proof. unfold v6_itrunc, free_direct, free_indirect, free_slot, free_double. obeys. Qed.

Lemma obeys_ialloc t : obeys lim (v6_ialloc sb nsecs lim t) (v6_ialloc sb nsecs None t).
Proof. unfold v6_ialloc, ialloc_try. obeys. Qed.
End Limits.

(** * Giving back the blocks of a file *)

Section Trunc.
Context (sb : v6_superblock) (nsecs : Z) {lay : Layout sb nsecs}.
Notation used := (used sb).
Notation vol_ok := (vol_ok sb nsecs).
Notation tree_ok := (tree_ok sb nsecs).

Record trunc (s0 : state) (D : pos -> Prop) (s : state) : Prop := {
  tr_vol : vol_ok s;
  tr_len : length (addrs (ip s)) = 13%nat;
  tr_ip : ip s = set_addrs (addrs (ip s)) (ip s0);
  tr_zero p : valid_pos p -> D p -> addr_at s p = 0;
  tr_same p : valid_pos p -> ~ D p -> addr_at s p = addr_at s0 p;
  tr_used c : 0 <= c < size sb ->
    (used s c = true <-> used s0 c = true /\ forall p, valid_pos p -> D p -> addr_at s0 p <> 0 -> addr_at s0 p <> c);
  tr_data c : c < bmapstart sb \/ dstart <= c ->
    (forall p, valid_pos p -> data_pos p = false -> addr_at s0 p <> 0 -> addr_at s0 p <> c) -> bdata s c = bdata s0 c
}.

Lemma trunc_start s0 : vol_ok s0 -> tree_ok s0 -> trunc s0 (fun _ => False) s0.
Proof.
  intros Hv Ht. split; try done; [by destruct Ht|by rewrite set_addrs_id|].
  intros c Hc. split; [intros H; split; [done|by intros]|by intros [H _]].
Qed.

(** Places without a block may count as given back or not. *)
Lemma trunc_ext s0 D D' s :
  (forall p, valid_pos p -> addr_at s0 p <> 0 -> D p <-> D' p) -> trunc s0 D s -> trunc s0 D' s.
Proof.
  intros HD [A B C E G H I].
  assert (Hz : forall p, valid_pos p -> addr_at s0 p = 0 -> addr_at s p = 0).
  { intros p Hv H0. destruct (decide (addr_at s p = 0)); [done|]. rewrite G; [done|done|]. intros Hd. by apply E in Hd. }
  split; try done.
  - intros p Hv Hd. destruct (decide (addr_at s0 p = 0)); [by apply Hz|]. apply E; [done|]. by apply HD.
  - intros p Hv Hd. destruct (decide (addr_at s0 p = 0)) as [E0|]; [by rewrite (Hz p Hv E0)|]. apply G; [done|]. intros Hd'. by apply Hd, HD.
  - intros c Hc. rewrite H by done. split; intros [Hu Hn]; (split; [done|]); intros p Hv Hd H0; apply Hn; try done; by apply HD.
Qed.

(** Locks and the record of the transaction do not matter. *)
Lemma trunc_locks s0 D s l g : trunc s0 D s -> trunc s0 D (mkV (vol s) l g (ip s)).
Proof. intros [A B C E G H I]. split; try done. by destruct A. Qed.

(** A block address in [s] is the one of [s0]. *)
Lemma trunc_addr s0 D s p : trunc s0 D s -> valid_pos p -> addr_at s p <> 0 -> addr_at s p = addr_at s0 p /\ ~ D p.
Proof. intros H Hv H0. assert (~ D p) as Hd by (intros Hd; by apply (tr_zero _ _ _ H) in Hd). split; [by apply (tr_same _ _ _ H)|done]. Qed.

Lemma bitmap_low c : 0 <= c < size sb -> bmapstart sb <= BBLOCK sb c < dstart.
Proof.
  intros Hc. destruct (BBLOCK_range sb nsecs c Hc) as [E H]. rewrite E in *. split; [|lia].
  assert (0 <= c / BPB) by (apply Z.div_pos; [lia|apply BPB_pos]). lia.
Qed.

(** Freeing the block at place [p]; the place still names it. *)
Lemma bfree_step s0 D s p :
  tree_ok s0 -> trunc s0 D s -> valid_pos p -> ~ D p -> addr_at s0 p <> 0 -> (forall n, n ∈ locked s -> dstart <= n) ->
  exists s1, v6_bfree sb nsecs None (addr_at s0 p) s = Ret tt s1 /\ locked s1 = locked s /\ ip s1 = ip s /\ vol_ok s1 /\
    (forall c, c < bmapstart sb \/ dstart <= c -> bdata s1 c = bdata s c) /\
    (forall r, valid_pos r -> addr_at s1 r = addr_at s r) /\
    (forall c, 0 <= c < size sb -> used s1 c = negb (c =? addr_at s0 p) && used s c).
Proof.
  intros Ht Htr Hv Hd H0 Hl. pose proof lay_data as Hld. destruct (tree_data _ _ _ Ht p Hv H0) as [Hr Hu].
  pose proof (bfree_run sb nsecs s (addr_at s0 p) (tr_vol _ _ _ Htr) Hl Hr) as Hf.
  assert (Eu : used s (addr_at s0 p) = true).
  { apply (tr_used _ _ _ Htr); [lia|]. split; [done|]. intros q Hvq Hdq Hq0 E. apply Hd. by rewrite <- (tree_inj _ _ _ Ht q p Hvq Hv Hq0 E). }
  rewrite Eu in Hf. destruct Hf as (s1 & E & El & Ei & Hdat & Hus & Hvol). exists s1. split_and!; try done.
  intros r. apply addr_at_ext; [by rewrite Ei|]. intros q Hvq _ Hq. apply Hdat. right.
  destruct (trunc_addr _ _ _ _ Htr Hvq Hq) as [Eq _]. rewrite Eq in *. by apply (tree_data _ _ _ Ht q Hvq Hq).
Qed.

(** Freeing a block and forgetting its place. *)
Lemma trunc_add s0 D s s1 s2 p :
  tree_ok s0 -> trunc s0 D s -> valid_pos p -> ~ D p -> addr_at s0 p <> 0 ->
  (forall c, 0 <= c < size sb -> used s1 c = negb (c =? addr_at s0 p) && used s c) ->
  (forall c, c < bmapstart sb \/ dstart <= c -> bdata s1 c = bdata s c) ->
  vol_ok s2 -> length (addrs (ip s2)) = 13%nat -> ip s2 = set_addrs (addrs (ip s2)) (ip s0) ->
  (forall r, valid_pos r -> addr_at s2 r = if decide (r = p) then 0 else addr_at s r) ->
  (forall c, (forall q, valid_pos q -> data_pos q = false -> addr_at s0 q <> 0 -> addr_at s0 q <> c) -> bdata s2 c = bdata s1 c) ->
  (forall c, bmapstart sb <= c < dstart -> bdata s2 c = bdata s1 c) ->
  trunc s0 (fun r => D r \/ r = p) s2.
Proof.
  intros Ht [A B C E G H I] Hv Hd H0 Hus Hdat Hv2 Hl2 Hi2 Ha Hfr Hbm. split; try done.
  - intros r Hvr Hr. rewrite Ha by done. case_decide; [done|]. destruct Hr as [Hr| ->]; [by apply E|done].
  - intros r Hvr Hr. rewrite Ha by done. rewrite decide_False by (intros ->; apply Hr; by right). apply G; [done|]. intros Hdr. apply Hr. by left.
  - intros c Hc. assert (used s2 c = used s1 c) as -> by (unfold V6.used; by rewrite Hbm by by apply bitmap_low).
    rewrite Hus by done. rewrite andb_true_iff, (H c Hc). destruct (Z.eqb_spec c (addr_at s0 p)) as [->|Hne]; cbn [negb].
    + split; [by intros [? _]|]. intros [_ Hn]. by destruct (Hn p Hv (or_intror eq_refl) H0).
    + split.
      * intros (_ & Hu & Hn). split; [done|]. intros q Hvq [Hdq| ->] Hq0; [by apply Hn|congruence].
      * intros [Hu Hn]. split; [done|]. split; [done|]. intros q Hvq Hdq Hq0. apply Hn; [done|by left|done].
  - intros c Hc Hq. rewrite Hfr by done. rewrite Hdat by done. by apply I.
Qed.
(** When the slot of [p] becomes 0 and no other does, nothing else moves. *)
Lemma forget_place s s2 p :
  (forall i, valid_pos (PA i) -> addr_at s2 (PA i) = if decide (PA i = p) then 0 else addr_at s (PA i)) ->
  (forall r q k, valid_pos r -> parent r = Some (q, k) -> addr_at s q <> 0 ->
     slot s2 (addr_at s q) k = if decide (r = p) then 0 else slot s (addr_at s q) k) ->
  (forall r k, valid_pos r -> parent r = Some (p, k) -> addr_at s r = 0) ->
  forall r, valid_pos r -> addr_at s2 r = if decide (r = p) then 0 else addr_at s r.
Proof.
  intros Hroot Hslot Hch. apply pos_ind_down; [done|]. intros r q k Hv Hp IH. rewrite (addr_at_child s2 _ _ _ Hp), IH.
  assert (Hrq : r <> q) by (intros ->; by destruct q).
  destruct (decide (q = p)) as [->|Hqp].
  - unfold child. rewrite Z.eqb_refl, decide_False by done. by rewrite (Hch r k).
  - unfold child. destruct (Z.eqb_spec (addr_at s q) 0) as [E|E].
    + rewrite (addr_at_child s _ _ _ Hp). unfold child. rewrite E, Z.eqb_refl. by case_decide.
    + rewrite (Hslot r q k Hv Hp E). rewrite (addr_at_child s _ _ _ Hp). unfold child. by destruct (Z.eqb_spec (addr_at s q) 0).
Qed.

(** The places below [p] are given back. *)
Definition leaf_of (s0 : state) (D : pos -> Prop) (p : pos) : Prop :=
  forall r k, valid_pos r -> parent r = Some (p, k) -> D r \/ addr_at s0 r = 0.

Lemma leaf_zero s0 D s p : trunc s0 D s -> leaf_of s0 D p -> forall r k, valid_pos r -> parent r = Some (p, k) -> addr_at s r = 0.
Proof.
  intros H Hl r k Hv Hp. destruct (Hl r k Hv Hp) as [Hd|H0]; [by apply (tr_zero _ _ _ H)|].
  destruct (decide (addr_at s r = 0)) as [|E]; [done|]. destruct (trunc_addr _ _ _ _ H Hv E) as [E' _]. congruence.
Qed.

Lemma drop_direct_run s0 D s i :
  tree_ok s0 -> trunc s0 D s -> valid_pos (PA i) -> ~ D (PA i) -> addr_at s0 (PA i) <> 0 -> leaf_of s0 D (PA i) ->
  (forall n, n ∈ locked s -> dstart <= n) ->
  exists s2, drop_direct sb nsecs None i s = Ret tt s2 /\ locked s2 = locked s /\ trunc s0 (fun r => D r \/ r = PA i) s2.
Proof.
  intros Ht Htr Hv Hd H0 Hleaf Hl. destruct (bfree_step s0 D s (PA i) Ht Htr Hv Hd H0 Hl) as (s1 & E1 & El & Ei & Hv1 & Hdat & Ha & Hu).
  unfold drop_direct. run_step. fold (addr_at s (PA i)). rewrite (tr_same _ _ _ Htr _ Hv Hd). rewrite (bind_run _ _ _ _ _ E1).
  eexists. split; [reflexivity|]. split; [done|]. set (s2 := set_ip _ s1).
  pose proof (tr_len _ _ _ Htr) as Hlen. rewrite <- Ei in Hlen. cbn in Hv. unfold NDIRECT in Hv.
  apply (trunc_add s0 D s s1 s2 (PA i)); try done.
  - by destruct Hv1.
  - change (length (<[Z.to_nat i := 0]> (addrs (ip s1))) = 13%nat). by rewrite length_insert.
  - change (set_addrs (<[Z.to_nat i := 0]> (addrs (ip s1))) (ip s1) = set_addrs (<[Z.to_nat i := 0]> (addrs (ip s1))) (ip s0)).
    rewrite Ei. by rewrite (tr_ip _ _ _ Htr).
  - apply forget_place.
    + intros j Hj. cbn in Hj. unfold NDIRECT in Hj. change (addr_at s2 (PA j)) with (default 0 (<[Z.to_nat i := 0]> (addrs (ip s1)) !! Z.to_nat j)).
      destruct (decide (PA j = PA i)) as [[= ->]|Hne]; [apply set_addrs_lookup; lia|].
      rewrite list_lookup_insert_ne by (intros E; apply Hne; f_equal; lia). by rewrite Ei.
    + intros r q k Hvr Hp Hq. rewrite decide_False by (intros ->; done). unfold slot.
      change (bdata s2 (addr_at s q)) with (bdata s1 (addr_at s q)). rewrite Hdat; [done|]. right.
      destruct (parent_valid _ _ _ Hvr Hp) as [Hvq _]. destruct (trunc_addr _ _ _ _ Htr Hvq Hq) as [Eq _]. rewrite Eq in *.
      by apply (tree_data _ _ _ Ht q Hvq Hq).
    + by apply (leaf_zero s0 D).
Qed.

Lemma drop_slot_run s0 D s p q k :
  tree_ok s0 -> trunc s0 D s -> valid_pos p -> parent p = Some (q, k) -> ~ D p -> ~ D q -> addr_at s0 p <> 0 -> leaf_of s0 D p ->
  (forall n, n ∈ locked s -> dstart <= n) ->
  exists s2, drop_slot sb nsecs None (addr_at s0 q) k s = Ret tt s2 /\ locked s2 = locked s /\ trunc s0 (fun r => D r \/ r = p) s2.
Proof.
  intros Ht Htr Hv Hp Hd Hdq H0 Hleaf Hl. destruct (parent_valid _ _ _ Hv Hp) as [Hvq Hk].
  destruct (bfree_step s0 D s p Ht Htr Hv Hd H0 Hl) as (s1 & E1 & El & Ei & Hv1 & Hdat & Ha & Hu).
  assert (Hq0 : addr_at s0 q <> 0).
  { intros E. apply H0. rewrite (addr_at_child _ _ _ _ Hp), E. done. }
  destruct (tree_data _ _ _ Ht q Hvq Hq0) as [Hqr _]. pose proof (tr_same _ _ _ Htr q Hvq Hdq) as Eq.
  assert (Es : ld 4 (bdata s (addr_at s0 q)) (Z.to_nat (4 * k)) = addr_at s0 p).
  { rewrite <- (tr_same _ _ _ Htr p Hv Hd), (addr_at_child _ _ _ _ Hp). unfold child. rewrite Eq. destruct (Z.eqb_spec (addr_at s0 q) 0); done. }
  unfold drop_slot. run_step. rewrite Es, (bind_run _ _ _ _ _ E1). run_step.
  eexists. split; [reflexivity|]. split; [done|]. set (b := addr_at s0 q) in *. set (s2 := set_vol _ s1).
  pose proof (vol_len _ _ _ Hv1 b) as Hlen. unfold NINDIRECT in Hk.
  assert (Hb : forall c, bdata s2 c = if decide (b = c) then st 4 (bdata s1 b) (Z.to_nat (4 * k)) 0 else bdata s1 c) by (intros c; apply bdata_put).
  pose proof lay_data as Hld. destruct (bmapstart_lt sb nsecs) as [Hbm _].
  apply (trunc_add s0 D s s1 s2 p); try done.
  - destruct Hv1 as [V1 V2]. split.
    + intros c. rewrite Hb. case_decide; [|done]. rewrite length_st; lia.
    + intros c Hc. unfold V6.used. rewrite Hb, decide_False by (intros E; pose proof (bitmap_low c ltac:(lia)); lia). by apply V2.
  - change (ip s2) with (ip s1). rewrite Ei. apply (tr_len _ _ _ Htr).
  - change (ip s2) with (ip s1). rewrite Ei. apply (tr_ip _ _ _ Htr).
  - apply forget_place.
    + intros i Hi. rewrite decide_False by (intros <-; done). unfold addr_at. change (ip s2) with (ip s1). by rewrite Ei.
    + intros r q' k' Hvr Hp' Hq'. destruct (parent_valid _ _ _ Hvr Hp') as [Hvq' Hk']. unfold NINDIRECT in Hk'.
      destruct (trunc_addr _ _ _ _ Htr Hvq' Hq') as [Eq' _]. rewrite Eq' in *. unfold slot. rewrite Hb.
      destruct (tree_data _ _ _ Ht q' Hvq' Hq') as [Hr' _].
      destruct (decide (q' = q)) as [->|Hqq].
      * rewrite decide_True by done. destruct (decide (r = p)) as [->|Hrp].
        -- rewrite Hp in Hp'. injection Hp' as <-. rewrite ld_st_same by lia. done.
        -- assert (k' <> k) by (intros ->; apply Hrp; by eapply parent_inj). rewrite <- (Hdat (addr_at s0 q)) by (right; lia). fold b.
           destruct (decide (k' < k)); [apply ld_st_before; lia|apply ld_st_after; lia].
      * rewrite decide_False by (intros E; apply Hqq; symmetry; by apply (tree_inj _ _ _ Ht)).
        rewrite (decide_False (P := r = p)) by (intros ->; rewrite Hp in Hp'; congruence). rewrite Hdat; [done|right; lia].
    + by apply (leaf_zero s0 D).
  - intros c Hc. rewrite Hb, decide_False; [done|]. apply (Hc q); [done|by eapply parent_not_data|done].
  - intros c Hc. rewrite Hb, decide_False by lia. done.
Qed.
Lemma free_direct_run s0 D s i :
  tree_ok s0 -> trunc s0 D s -> valid_pos (PA i) -> ~ D (PA i) -> leaf_of s0 D (PA i) ->
  (forall n, n ∈ locked s -> dstart <= n) ->
  exists s2, free_direct sb nsecs None i s = Ret tt s2 /\ locked s2 = locked s /\ trunc s0 (fun r => D r \/ r = PA i) s2.
Proof.
  intros Ht Htr Hv Hd Hleaf Hl. unfold free_direct. run_step. fold (addr_at s (PA i)). rewrite (tr_same _ _ _ Htr _ Hv Hd).
  destruct (Z.eqb_spec (addr_at s0 (PA i)) 0) as [E|E]; [|by apply drop_direct_run].
  exists s. split; [done|]. split; [done|]. eapply trunc_ext; [|exact Htr]. intros p Hp H0. split; [by left|]. intros [?| ->]; done.
Qed.

Lemma trunc_slot_run s0 D s p q k :
  tree_ok s0 -> trunc s0 D s -> valid_pos p -> parent p = Some (q, k) -> ~ D p -> ~ D q -> addr_at s0 q <> 0 -> leaf_of s0 D p ->
  (forall n, n ∈ locked s -> dstart <= n) ->
  exists s2, free_slot sb nsecs None (addr_at s0 q) k s = Ret tt s2 /\ locked s2 = locked s /\ trunc s0 (fun r => D r \/ r = p) s2.
Proof.
  intros Ht Htr Hv Hp Hd Hdq Hq0 Hleaf Hl. destruct (parent_valid _ _ _ Hv Hp) as [Hvq _]. unfold free_slot. run_step.
  assert (Es : ld 4 (bdata s (addr_at s0 q)) (Z.to_nat (4 * k)) = addr_at s0 p).
  { rewrite <- (tr_same _ _ _ Htr p Hv Hd), (addr_at_child _ _ _ _ Hp), (tr_same _ _ _ Htr q Hvq Hdq). unfold child.
    by destruct (Z.eqb_spec (addr_at s0 q) 0). }
  rewrite Es. destruct (Z.eqb_spec (addr_at s0 p) 0) as [E|E]; [|by apply drop_slot_run].
  exists s. split; [done|]. split; [done|]. eapply trunc_ext; [|exact Htr]. intros r Hr H0. split; [by left|]. intros [?| ->]; done.
Qed.

(** The inner loops: the slots [ks] of the block of [q]. *)
Lemma free_slots_run s0 q (kid : Z -> pos) :
  tree_ok s0 -> addr_at s0 q <> 0 -> (forall k, parent (kid k) = Some (q, k)) -> (forall r k j, parent r <> Some (kid k, j)) ->
  forall ks D s, trunc s0 D s -> NoDup ks -> (forall k, k ∈ ks -> valid_pos (kid k) /\ ~ D (kid k)) -> ~ D q ->
  (forall n, n ∈ locked s -> dstart <= n) ->
  exists s2, for_each ks (free_slot sb nsecs None (addr_at s0 q)) s = Ret tt s2 /\ locked s2 = locked s /\
    trunc s0 (fun r => D r \/ exists k, k ∈ ks /\ r = kid k) s2.
Proof.
  intros Ht Hq0 Hkid Hnone. assert (Hinj : forall k k', kid k = kid k' -> k = k').
  { intros k k' E. pose proof (Hkid k) as E1. rewrite E, (Hkid k') in E1. congruence. }
  induction ks as [|k ks IH]; intros D s Htr Hnd Hks Hdq Hl; cbn [for_each].
  { exists s. split; [done|]. split; [done|]. eapply trunc_ext; [|exact Htr]. intros p _ _. split; [by left|].
    intros [?|(k & Hk & _)]; [done|by apply elem_of_nil in Hk]. }
  apply NoDup_cons in Hnd as [Hk Hnd]. destruct (Hks k (list_elem_of_here _ _)) as [Hvk Hdk].
  destruct (trunc_slot_run s0 D s (kid k) q k Ht Htr Hvk (Hkid k) Hdk Hdq Hq0) as (s1 & E1 & El1 & Htr1); [|done|].
  { intros r j _ Hr. by destruct (Hnone r k j). }
  rewrite (bind_run _ _ _ _ _ E1).
  destruct (IH _ _ Htr1 Hnd) as (s2 & E2 & El2 & Htr2).
  - intros k' Hk'. destruct (Hks k' (list_elem_of_further _ _ _ Hk')) as [Hv' Hd']. split; [done|].
    intros [?|E]; [done|]. apply Hk. by rewrite <- (Hinj _ _ E).
  - intros [?|E]; [done|]. pose proof (Hnone (kid k) k k) as Hn. rewrite (Hkid k), E in Hn. done.
  - by rewrite El1.
  - exists s2. split; [done|]. split; [congruence|]. eapply trunc_ext; [|exact Htr2]. intros p _ _. split.
    + intros [[?| ->]|(j & Hj & ->)]; [by left|right; exists k; split; [by left|done]|right; exists j; split; [by right|done]].
    + intros [?|(j & [->|Hj]%elem_of_cons & ->)]; [by left; left|by left; right|right; by exists j].
Qed.

Lemma kids_indirect r k : parent r = Some (PA NDIRECT, k) -> r = PI k.
Proof. destruct r; intros H; cbv in H; congruence. Qed.

Lemma kids_double r k : parent r = Some (PA (NDIRECT + 1), k) -> r = PD k.
Proof. destruct r; intros H; cbv in H; congruence. Qed.

Lemma slots_range k : k ∈ seqZ 0 NINDIRECT <-> 0 <= k < NINDIRECT.
Proof. rewrite elem_of_seqZ. lia. Qed.

(** Taking the block at [p] into a buffer. *)
Lemma bread_place s0 p s : tree_ok s0 -> valid_pos p -> addr_at s0 p <> 0 -> locked s = [] ->
  bread nsecs None (addr_at s0 p) s = Ret tt (set_locked [addr_at s0 p] s) /\ dstart <= addr_at s0 p.
Proof.
  intros Ht Hv H0 Hl. destruct (tree_data _ _ _ Ht p Hv H0) as [Hr _]. pose proof lay_size as [Hs _]. split; [|lia].
  rewrite v6_bread_run; [by rewrite Hl|rewrite Hl; by intros ?%elem_of_nil|lia].
Qed.

Lemma trunc_relock s0 D s l : trunc s0 D s -> trunc s0 D (set_locked l s).
Proof. apply trunc_locks. Qed.

Lemma free_indirect_run s0 D s :
  tree_ok s0 -> trunc s0 D s -> (forall p, valid_pos p -> D p -> exists i, p = PA i /\ i < NDIRECT) -> locked s = [] ->
  exists s2, free_indirect sb nsecs None s = Ret tt s2 /\ locked s2 = [] /\
    trunc s0 (fun r => D r \/ r = PA NDIRECT \/ exists j, r = PI j) s2.
Proof.
  intros Ht Htr HD Hl. assert (Hv : valid_pos (PA NDIRECT)) by (cbn; unfold NDIRECT; lia).
  assert (Hd : ~ D (PA NDIRECT)) by (intros H; apply HD in H as (i & [= <-] & ?); [lia|done]).
  unfold free_indirect. run_step. fold (addr_at s (PA NDIRECT)). rewrite (tr_same _ _ _ Htr _ Hv Hd).
  destruct (Z.eqb_spec (addr_at s0 (PA NDIRECT)) 0) as [E|E].
  { exists s. split; [done|]. split; [done|]. eapply trunc_ext; [|exact Htr]. intros p Hp H0. split; [by left|].
    intros [?|[->|(j & ->)]]; [done|done|]. exfalso. apply H0. cbn [addr_at] in E |- *. unfold child. by rewrite E. }
  destruct (bread_place s0 _ s Ht Hv E Hl) as [Eb Hb]. rewrite (bind_run _ _ _ _ _ Eb). set (a := addr_at s0 (PA NDIRECT)) in *.
  destruct (free_slots_run s0 (PA NDIRECT) PI Ht E (fun _ => eq_refl) ltac:(by intros [] ? ?) (seqZ 0 NINDIRECT) D (set_locked [a] s))
    as (s1 & E1 & El1 & Htr1); [by apply trunc_relock|apply NoDup_seqZ| |done|by intros n ->%list_elem_of_singleton|].
  { intros k Hk%slots_range. split; [done|]. intros H. by apply HD in H as (i & [=] & _). }
  rewrite (bind_run _ _ _ _ _ E1). cbn [locked set_locked] in El1.
  erewrite bind_run by (apply (brelse_run _ _ []); [done|by intros ?%elem_of_nil]).
  destruct (drop_direct_run s0 _ (set_locked [] s1) NDIRECT Ht (trunc_relock _ _ _ [] Htr1) Hv) as (s2 & E2 & El2 & Htr2).
  - intros [?|(k & _ & [=])]; done.
  - done.
  - intros r k Hr Hp. left. right. apply kids_indirect in Hp as ->. exists k. split; [by apply slots_range|done].
  - by intros n ?%elem_of_nil.
  - exists s2. split; [done|]. split; [done|]. eapply trunc_ext; [|exact Htr2]. intros p Hp _. split.
    + intros [[?|(k & _ & ->)]| ->]; [by left|right; right; by exists k|by right; left].
    + intros [?|[->|(j & ->)]]; [by left; left|by right|left; right; exists j; split; [by apply slots_range|done]].
Qed.
(** The outer loop.  [bp] is the only buffer held. *)
Lemma free_children_run recycled s0 :
  (forall i, recycled i = None) -> tree_ok s0 -> addr_at s0 (PA (NDIRECT + 1)) <> 0 ->
  forall ks D s bp, trunc s0 D s -> NoDup ks -> (forall i, i ∈ ks -> 0 <= i < NINDIRECT /\ ~ D (PD i) /\ forall j, 0 <= j < NINDIRECT -> ~ D (PDD i j)) ->
  ~ D (PA (NDIRECT + 1)) -> locked s = [bp] -> dstart <= bp ->
  exists bp' s2, free_children sb nsecs None recycled ks (addr_at s0 (PA (NDIRECT + 1))) bp s = Ret bp' s2 /\ locked s2 = [bp'] /\ dstart <= bp' /\
    trunc s0 (fun r => D r \/ exists i, i ∈ ks /\ (r = PD i \/ exists j, r = PDD i j)) s2.
Proof.
  intros Hrec Ht Hd0. induction ks as [|i ks IH]; intros D s bp Htr Hnd Hks Hdd Hl Hbp; cbn [free_children].
  { exists bp, s. split_and!; try done. eapply trunc_ext; [|exact Htr]. intros p _ _. split; [by left|].
    intros [?|(k & Hk & _)]; [done|by apply elem_of_nil in Hk]. }
  apply NoDup_cons in Hnd as [Hi Hnd]. destruct (Hks i (list_elem_of_here _ _)) as (Hri & Hdi & Hdij).
  assert (Hvi : valid_pos (PD i)) by done. assert (Hvd : valid_pos (PA (NDIRECT + 1))) by (cbn; unfold NDIRECT; lia).
  run_step. set (dn := addr_at s0 (PA (NDIRECT + 1))) in *.
  assert (Es : ld 4 (bdata s dn) (Z.to_nat (4 * i)) = addr_at s0 (PD i)).
  { rewrite <- (tr_same _ _ _ Htr _ Hvi Hdi), (addr_at_child s (PD i) _ _ eq_refl), (tr_same _ _ _ Htr _ Hvd Hdd). unfold child. fold dn.
    by destruct (Z.eqb_spec dn 0). }
  rewrite Es. destruct (Z.eqb_spec (addr_at s0 (PD i)) 0) as [E|E].
  - destruct (IH D s bp Htr Hnd) as (bp' & s2 & E2 & Hl2 & Hb2 & Htr2); try done.
    { intros k Hk. apply Hks. by right. }
    exists bp', s2. split_and!; try done. eapply trunc_ext; [|exact Htr2]. intros p Hp H0. split.
    + intros [?|(k & Hk & Hor)]; [by left|right; exists k; split; [by right|done]].
    + intros [?|(k & [->|Hk]%elem_of_cons & Hor)]; [by left| |right; by exists k]. exfalso. apply H0.
      destruct Hor as [->|(j & ->)]; [done|]. rewrite (addr_at_child s0 (PDD i j) _ _ eq_refl), E. done.
  - erewrite bind_run by (apply (brelse_run _ _ []); [done|by intros ?%elem_of_nil]).
    destruct (bread_place s0 _ (set_locked [] s) Ht Hvi E eq_refl) as [Eb Hb]. rewrite (bind_run _ _ _ _ _ Eb), Hrec. cbn [default from_option].
    set (c := addr_at s0 (PD i)) in *.
    destruct (free_slots_run s0 (PD i) (PDD i) Ht E (fun _ => eq_refl) ltac:(by intros [] ? ?) (seqZ 0 NINDIRECT) D (set_locked [c] (set_locked [] s)))
      as (s1 & E1 & El1 & Htr1); [by do 2 apply trunc_relock|apply NoDup_seqZ| |done|by intros n ->%list_elem_of_singleton|].
    { intros k Hk%slots_range. split; [by split|by apply Hdij]. }
    fold c in E1. rewrite (bind_run _ _ _ _ _ E1). cbn [locked set_locked] in El1.
    destruct (drop_slot_run s0 _ s1 (PD i) (PA (NDIRECT + 1)) i Ht Htr1 Hvi eq_refl) as (s2 & E2 & El2 & Htr2).
    + intros [?|(k & _ & [=])]; done.
    + intros [?|(k & _ & [=])]; done.
    + done.
    + intros r k Hr Hp. left. right. destruct r as [| |i'|i' j]; cbn in Hp; try congruence. injection Hp as -> ->.
      exists k. split; [by apply slots_range, Hr|done].
    + by rewrite El1; intros n ->%list_elem_of_singleton.
    + fold dn in E2. rewrite (bind_run _ _ _ _ _ E2).
      destruct (IH _ s2 c Htr2 Hnd) as (bp' & s3 & E3 & Hl3 & Hb3 & Htr3); [| |congruence|done|].
      * intros k Hk. destruct (Hks k (list_elem_of_further _ _ _ Hk)) as (Hrk & Hdk & Hdkj). split; [done|]. split.
        -- intros [[?|(j & _ & [=])]|[= ->]]; done.
        -- intros j Hj [[?|(j' & _ & [= -> _])]|[=]]; [by eapply Hdkj|done].
      * intros [[?|(j & _ & [=])]|[=]]; done.
      * exists bp', s3. split_and!; try done. eapply trunc_ext; [|exact Htr3]. intros p Hp _. split.
        -- intros [[[?|(j & _ & ->)]| ->]|(k & Hk & Hor)];
             [by left|right; exists i; split; [by left|right; by exists j]|right; exists i; split; [by left|by left]|right; exists k; split; [by right|done]].
        -- intros [?|(k & [->|Hk]%elem_of_cons & Hor)]; [by do 3 left| |right; by exists k].
           destruct Hor as [->|(j & ->)]; [by left; right|]. left. left. right. exists j. split; [by apply slots_range, Hp|done].
Qed.

Lemma free_double_run recycled s0 D s :
  addr_at s0 (PA (NDIRECT + 1)) = 0 \/ (forall i, recycled i = None) -> tree_ok s0 -> trunc s0 D s -> (forall p, valid_pos p -> D p -> (exists i, p = PA i /\ i <= NDIRECT) \/ exists j, p = PI j) -> locked s = [] ->
  exists s2, free_double sb nsecs None recycled s = Ret tt s2 /\ locked s2 = [] /\
    trunc s0 (fun r => D r \/ r = PA (NDIRECT + 1) \/ exists i, r = PD i \/ exists j, r = PDD i j) s2.
Proof.
  intros Hrec Ht Htr HD Hl. assert (Hv : valid_pos (PA (NDIRECT + 1))) by (cbn; unfold NDIRECT; lia).
  assert (Hd : ~ D (PA (NDIRECT + 1))) by (intros H; apply HD in H as [(i & [= <-] & ?)|(j & [=])]; [lia|done]).
  unfold free_double. run_step. fold (addr_at s (PA (NDIRECT + 1))). rewrite (tr_same _ _ _ Htr _ Hv Hd).
  destruct (Z.eqb_spec (addr_at s0 (PA (NDIRECT + 1))) 0) as [E|E].
  { exists s. split; [done|]. split; [done|]. eapply trunc_ext; [|exact Htr]. intros p Hp H0. split; [by left|].
    intros [?|[->|(i & Hor)]]; [done|done|]. exfalso. apply H0. cbn [addr_at] in E |- *.
    destruct Hor as [->|(j & ->)]; cbn [addr_at]; unfold child; by rewrite E. }
  destruct Hrec as [Hrec|Hrec]; [done|].
  destruct (bread_place s0 _ s Ht Hv E Hl) as [Eb Hb]. rewrite (bind_run _ _ _ _ _ Eb). set (a := addr_at s0 (PA (NDIRECT + 1))) in *.
  destruct (free_children_run recycled s0 Hrec Ht E (seqZ 0 NINDIRECT) D (set_locked [a] s) a) as (bp & s1 & E1 & El1 & Hbp & Htr1); try done.
  { by apply trunc_relock. } { apply NoDup_seqZ. }
  { intros i Hi%slots_range. split; [done|]. split.
    - intros H. by apply HD in H as [(k & [=] & _)|(j & [=])].
    - intros j Hj H. by apply HD in H as [(k & [=] & _)|(j' & [=])]. }
  fold a in E1. rewrite (bind_run _ _ _ _ _ E1).
  erewrite bind_run by (apply (brelse_run _ _ []); [done|by intros ?%elem_of_nil]).
  destruct (drop_direct_run s0 _ (set_locked [] s1) (NDIRECT + 1) Ht (trunc_relock _ _ _ [] Htr1) Hv) as (s2 & E2 & El2 & Htr2).
  - intros [?|(k & _ & [[=]|(j & [=])])]; done.
  - done.
  - intros r k Hr Hp. left. right. apply kids_double in Hp as ->. exists k. split; [by apply slots_range|by left].
  - by intros n ?%elem_of_nil.
  - exists s2. split; [done|]. split; [done|]. eapply trunc_ext; [|exact Htr2]. intros p Hp _. split.
    + intros [[?|(k & _ & Hor)]| ->]; [by left|right; right; by exists k|by right; left].
    + intros [?|[->|(i & Hor)]]; [by left; left|by right|left; right; exists i; split; [|done]].
      apply slots_range. destruct Hor as [->|(j & ->)]; apply Hp.
Qed.
Lemma free_directs_run s0 :
  tree_ok s0 -> forall ks D s, trunc s0 D s -> NoDup ks -> (forall i, i ∈ ks -> 0 <= i < NDIRECT /\ ~ D (PA i)) -> locked s = [] ->
  exists s2, for_each ks (free_direct sb nsecs None) s = Ret tt s2 /\ locked s2 = [] /\ trunc s0 (fun r => D r \/ exists i, i ∈ ks /\ r = PA i) s2.
Proof.
  intros Ht. induction ks as [|i ks IH]; intros D s Htr Hnd Hks Hl; cbn [for_each].
  { exists s. split; [done|]. split; [done|]. eapply trunc_ext; [|exact Htr]. intros p _ _. split; [by left|].
    intros [?|(k & Hk & _)]; [done|by apply elem_of_nil in Hk]. }
  apply NoDup_cons in Hnd as [Hi Hnd]. destruct (Hks i (list_elem_of_here _ _)) as [Hri Hdi].
  destruct (free_direct_run s0 D s i Ht Htr) as (s1 & E1 & El1 & Htr1); [cbn; lia|done| |by rewrite Hl; intros n ?%elem_of_nil|].
  { intros r k _ Hp. destruct r; cbn in Hp; try discriminate; injection Hp; intros; unfold NDIRECT in *; lia. }
  rewrite (bind_run _ _ _ _ _ E1). destruct (IH _ s1 Htr1 Hnd) as (s2 & E2 & El2 & Htr2); [|congruence|].
  { intros k Hk. destruct (Hks k (list_elem_of_further _ _ _ Hk)) as [Hrk Hdk]. split; [done|]. intros [?|[= ->]]; done. }
  exists s2. split; [done|]. split; [done|]. eapply trunc_ext; [|exact Htr2]. intros p _ _. split.
  - intros [[?| ->]|(j & Hj & ->)]; [by left|right; exists i; split; [by left|done]|right; exists j; split; [by right|done]].
  - intros [?|(j & [->|Hj]%elem_of_cons & ->)]; [by left; left|by left; right|right; by exists j].
Qed.

(** All blocks of a file are given back. *)
Lemma free_all_run recycled s0 :
  addr_at s0 (PA (NDIRECT + 1)) = 0 \/ (forall i, recycled i = None) -> vol_ok s0 -> tree_ok s0 -> locked s0 = [] ->
  exists s, (for_each (seqZ 0 NDIRECT) (free_direct sb nsecs None) ;; free_indirect sb nsecs None ;; free_double sb nsecs None recycled) s0 = Ret tt s /\
    locked s = [] /\ trunc s0 (fun _ => True) s.
Proof.
  intros Hrec Hv Ht Hl. destruct (free_directs_run s0 Ht (seqZ 0 NDIRECT) _ s0 (trunc_start s0 Hv Ht)) as (s1 & E1 & Hl1 & Htr1);
    [apply NoDup_seqZ|intros i Hi%elem_of_seqZ; split; [lia|by intros []]|done|]. rewrite (bind_run _ _ _ _ _ E1).
  destruct (free_indirect_run s0 _ s1 Ht Htr1) as (s2 & E2 & Hl2 & Htr2); [|done|].
  { intros p _ [[]|(i & Hi%elem_of_seqZ & ->)]. exists i. split; [done|lia]. }
  rewrite (bind_run _ _ _ _ _ E2).
  destruct (free_double_run recycled s0 _ s2 Hrec Ht Htr2) as (s3 & E3 & Hl3 & Htr3); [|done|].
  { intros p _ [[[]|(i & Hi%elem_of_seqZ & ->)]|[->|(j & ->)]]; [left; exists i; split; [done|lia]|left; by exists NDIRECT|right; by exists j]. }
  exists s3. split; [done|]. split; [done|]. eapply trunc_ext; [|exact Htr3]. intros p Hp _. split; [done|]. intros _.
  destruct p as [i|j|i|i j].
  - cbn in Hp. destruct (decide (i < NDIRECT)); [left; left; right; exists i; split; [apply elem_of_seqZ; lia|done]|].
    destruct (decide (i = NDIRECT)) as [->|]; [by left; right; left|]. right. left. f_equal. lia.
  - left. right. right. by exists j.
  - right. right. exists i. by left.
  - right. right. exists i. right. by exists j.
Qed.
End Trunc.

(** A block that the file holds: of its data or of its index. *)
Definition in_file (s : state) (c : Z) : Prop := exists p, valid_pos p /\ addr_at s p = c /\ c <> 0.

Section Exact.
Context (sb : v6_superblock) (nsecs : Z) {lay : Layout sb nsecs}.

(** Truncation without limits. *)
Lemma itrunc_run recycled s (Hrec : addr_at s (PA (NDIRECT + 1)) = 0 \/ forall i, recycled i = None)
  (Hv : vol_ok sb nsecs s) (Ht : tree_ok sb nsecs s) (Hl : locked s = []) (Hi : 0 <= inum (ip s) < ninodes sb) :
  exists s', v6_itrunc sb nsecs None recycled s = Ret tt s' /\ locked s' = [] /\ vol_ok sb nsecs s' /\
    ip s' = set_size 0 (set_addrs (replicate 13 0) (ip s)) /\
    bdata s' (IBLOCK sb (inum (ip s))) = put_inode (dino (inum (ip s))) (ip s') (bdata s (IBLOCK sb (inum (ip s)))) /\
    (forall c, 0 <= c < size sb -> used sb s' c = true <-> used sb s c = true /\ ~ in_file s c) /\
    (forall c, c < bmapstart sb \/ dstart <= c -> c <> IBLOCK sb (inum (ip s)) -> ~ in_file s c -> bdata s' c = bdata s c).
Proof.
  destruct (free_all_run sb nsecs recycled s Hrec Hv Ht Hl) as (s1 & E1 & Hl1 & Htr). pose proof (tr_ip _ _ _ _ _ Htr) as Hip.
  assert (Ha : addrs (ip s1) = replicate 13 0).
  { apply list_eq. intros k. pose proof (tr_len _ _ _ _ _ Htr) as Hlen. destruct (decide (k < 13)%nat) as [Hk|Hk].
    - pose proof (tr_zero _ _ _ _ _ Htr (PA (Z.of_nat k)) ltac:(cbn; unfold NDIRECT; lia) I) as E. cbn in E. rewrite Nat2Z.id in E.
      rewrite lookup_replicate_2 by done. destruct (lookup_lt_is_Some_2 (addrs (ip s1)) k ltac:(lia)) as [x Ex]. rewrite Ex in E |- *. cbn in E. by subst.
    - rewrite !lookup_ge_None_2; [done|rewrite length_replicate; lia|lia]. }
  rewrite Ha in Hip. set (s2 := set_ip (set_size 0 (ip s1)) s1).
  assert (Ei : inum (ip s2) = inum (ip s)) by (cbn; by rewrite Hip). pose proof Hi as Hi2. rewrite <- Ei in Hi2.
  destruct (iupdate_run sb nsecs s2 Hi2) as [g Eg]; [cbn; rewrite Hl1; by intros ?%elem_of_nil|].
  destruct (IBLOCK_range sb nsecs _ Hi) as [_ HI]. rewrite Ei in Eg. set (bn := IBLOCK sb (inum (ip s))) in *. set (s3 := mkV _ _ _ _) in Eg.
  assert (Hnf : forall c, c < dstart -> ~ in_file s c).
  { intros c Hc (p & Hp & E & Hz). destruct (tree_data _ _ _ Ht p Hp ltac:(congruence)). lia. }
  destruct (bmapstart_lt sb nsecs) as [Hbm _]. pose proof lay_data as Hld.
  assert (Hdat : forall c, c < bmapstart sb \/ dstart <= c -> ~ in_file s c -> bdata s1 c = bdata s c).
  { intros c Hc Hn. apply (tr_data _ _ _ _ _ Htr); [done|]. intros p Hp _ H0 E. apply Hn. exists p. split_and!; [done|done|congruence]. }
  assert (Hb3 : forall c, bdata s3 c = if decide (bn = c) then put_inode (dino (inum (ip s))) (ip s2) (bdata s2 bn) else bdata s1 c).
  { intros c. unfold bdata, s3. cbn [vol]. case_decide; subst; [by rewrite lookup_insert_eq|by rewrite lookup_insert_ne]. }
  assert (Hu3 : forall c, 0 <= c < size sb -> used sb s3 c = used sb s1 c).
  { intros c Hc. unfold used. rewrite Hb3, decide_False; [done|]. intros E. pose proof (bitmap_low sb nsecs c Hc). lia. }
  exists s3. split_and!.
  - unfold v6_itrunc. revert E1. unfold bind. destruct (for_each _ _ s) as [[] t| | |]; try discriminate.
    destruct (free_indirect sb nsecs None t) as [[] t1| | |]; try discriminate. intros ->. exact Eg.
  - exact Hl1.
  - destruct (tr_vol _ _ _ _ _ Htr) as [V1 V2]. split.
    + intros c. rewrite Hb3. case_decide; [|done]. change (bdata s2 bn) with (bdata s1 bn). rewrite put_inode_length; [apply V1|]. rewrite (V1 bn). apply dino_range.
    + intros c Hc. rewrite Hu3 by lia. by apply V2.
  - cbn [ip s3 s2 set_ip]. by rewrite Hip.
  - rewrite Hb3, decide_True by done. f_equal. apply Hdat; [lia|]. apply Hnf. lia.
  - intros c Hc. rewrite Hu3 by done. rewrite (tr_used _ _ _ _ _ Htr c Hc). split; intros [Hu Hn]; (split; [done|]).
    + intros (p & Hp & E & Hz). apply (Hn p Hp I); [congruence|done].
    + intros p Hp _ H0 E. apply Hn. exists p. split_and!; [done|done|congruence].
  - intros c Hc Hne Hn. rewrite Hb3, decide_False by done. by apply Hdat.
Qed.

(** C9: truncation gives back exactly the blocks of the file.  [v6_itrunc] of a
    file whose blocks are its own, and that has no double indirect block (up to
    1035 blocks) or whose double indirect block keeps its buffer, returns,
    unless it reaches a limit of the log or the cache.  Then no block of the
    file is in use, every other block is in use or not as before and has the
    data it had; the inode has size 0 and no blocks, in memory and on disk. *)
Theorem itrunc_exact lim recycled s (Hrec : addr_at s (PA (NDIRECT + 1)) = 0 \/ forall i, recycled i = None)
  (Hv : vol_ok sb nsecs s) (Ht : tree_ok sb nsecs s) (Hl : locked s = []) (Hi : 0 <= inum (ip s) < ninodes sb) :
  overruns lim (v6_itrunc sb nsecs lim recycled) s \/
  exists s', v6_itrunc sb nsecs lim recycled s = Ret tt s' /\ locked s' = [] /\ vol_ok sb nsecs s' /\
    ip s' = set_size 0 (set_addrs (replicate 13 0) (ip s)) /\
    bdata s' (IBLOCK sb (inum (ip s))) = put_inode (dino (inum (ip s))) (ip s') (bdata s (IBLOCK sb (inum (ip s)))) /\
    (forall c, 0 <= c < size sb -> used sb s' c = true <-> used sb s c = true /\ ~ in_file s c) /\
    (forall c, c < bmapstart sb \/ dstart <= c -> c <> IBLOCK sb (inum (ip s)) -> ~ in_file s c -> bdata s' c = bdata s c).
Proof.
  destruct (itrunc_run recycled s Hrec Hv Ht Hl Hi) as (s' & E & H).
  destruct (obeys_itrunc sb nsecs lim recycled s) as [Eo|Ho]; [right|by left]. exists s'. by rewrite Eo.
Qed.
End Exact.

(** * Allocating an inode *)

Lemma of_le_zeros k : of_le (replicate k 0) = 0.
Proof. induction k as [|k IH]; [done|]. cbn. by rewrite IH. Qed.

(** The block with the inode at [o] zeroed. *)
Definition wiped (d : bytes) (o : nat) : bytes := take o d ++ replicate 128 0 ++ drop (o + 128) d.

Lemma length_wiped d o : (o + 128 <= length d)%nat -> length (wiped d o) = length d.
Proof. intros H. unfold wiped. rewrite !length_app, length_take, length_drop, length_replicate. lia. Qed.

Lemma ld_wiped d o k x : (o + 128 <= length d)%nat -> (x + k <= 128)%nat -> ld k (wiped d o) (o + x) = 0.
Proof.
  intros Hd Hx. unfold ld, wiped. rewrite drop_app_ge by (rewrite length_take; lia). rewrite length_take_le by lia.
  replace (o + x - o)%nat with x by lia. rewrite drop_app_le by (rewrite length_replicate; lia).
  rewrite take_app_le by (rewrite length_drop, length_replicate; lia). rewrite drop_replicate, take_replicate. apply of_le_zeros.
Qed.

Lemma ld_wiped_out d o k x : (o + 128 <= length d)%nat -> (x + k <= o \/ o + 128 <= x)%nat -> ld k (wiped d o) x = ld k d x.
Proof.
  intros Hd Hx. unfold ld, wiped. f_equal. destruct Hx as [Hx|Hx].
  - rewrite drop_app_le by (rewrite length_take; lia). rewrite take_app_le by (rewrite length_drop, length_take; lia).
    rewrite skipn_firstn_comm, take_take. f_equal. lia.
  - rewrite drop_app_ge by (rewrite length_take; lia). rewrite length_take_le by lia.
    rewrite drop_app_ge by (rewrite length_replicate; lia). rewrite length_replicate, drop_drop. do 2 f_equal. lia.
Qed.

Definition zero_inode (t : Z) (x : inode) : inode :=
  mkI (inum x) (ref x) (lock x) (valid x) t 0 0 0 0 0 0 0 (0, 0) (0, 0) (0, 0) (replicate 13 0).

Lemma get_new_inode d o t x : (o + 128 <= length d)%nat -> 0 <= t < 2 ^ 16 -> get_inode o (st 2 (wiped d o) o t) x = zero_inode t x.
Proof.
  intros Hd Ht. pose proof (length_wiped d o Hd) as Hl.
  assert (H : forall k y, (2 <= y)%nat -> (y + k <= 128)%nat -> ld k (st 2 (wiped d o) o t) (o + y) = 0).
  { intros k y Hy Hk. rewrite ld_st_after by lia. by apply ld_wiped. }
  unfold get_inode, zero_inode, get_time, get_addrs. rewrite ld_st_same by lia. rewrite wrap_id by (change (8 * Z.of_nat 2) with 16; lia).
  rewrite <- !Nat.add_assoc. rewrite !H by lia. f_equal.
  apply list_eq. intros i. rewrite list_lookup_fmap. destruct (decide (i < 13)%nat) as [Hi|Hi].
  - rewrite lookup_seq_lt, lookup_replicate_2 by lia. cbn [fmap option_fmap option_map]. by rewrite <- Nat.add_assoc, H by lia.
  - rewrite lookup_seq_ge by lia. symmetry. apply lookup_ge_None_2. rewrite length_replicate. lia.
Qed.

Section Ialloc.
Context (sb : v6_superblock) (nsecs : Z) {lay : Layout sb nsecs}.

(** The type of inode [i] on disk, 0 for a free inode. *)
Definition disk_type (s : state) (i : Z) : Z := ld 2 (bdata s (IBLOCK sb i)) (dino i).

Lemma ialloc_try_run t i s :
  vol_ok sb nsecs s -> locked s = [] -> 0 <= i < ninodes sb ->
  if disk_type s i =? 0
  then exists g, ialloc_try sb nsecs None t i s =
    Ret (Some i) (mkV (<[IBLOCK sb i := st 2 (wiped (bdata s (IBLOCK sb i)) (dino i)) (dino i) t]> (vol s)) [] g (ip s))
  else ialloc_try sb nsecs None t i s = Ret None s.
Proof.
  intros Hv Hl Hi. destruct (IBLOCK_range sb nsecs i Hi) as [_ Hr]. destruct (bmapstart_lt sb nsecs) as [_ Hns].
  unfold ialloc_try, disk_type. set (bn := IBLOCK sb i) in *.
  erewrite bind_run by (apply v6_bread_run; [rewrite Hl; by intros ?%elem_of_nil|lia]). run_step.
  change (bdata (set_locked _ s) bn) with (bdata s bn). destruct (_ =? 0).
  - run_step. fold (wiped (bdata s bn) (dino i)). set (s2 := set_vol _ _). destruct (v6_log_write_run bn s2) as [g Hg].
    rewrite (bind_run _ _ _ _ _ Hg). erewrite bind_run by (apply (brelse_run _ _ []); [cbn; by rewrite Hl|by intros ?%elem_of_nil]). by exists g.
  - erewrite bind_run by (apply (brelse_run _ _ []); [cbn; by rewrite Hl|by intros ?%elem_of_nil]). unfold ret. f_equal. destruct s. cbn in *. by subst.
Qed.

Lemma ialloc_loop_run t s n : vol_ok sb nsecs s -> locked s = [] -> forall a, 0 <= a -> a + Z.of_nat n <= ninodes sb ->
  (exists i g, loop (seqZ a (Z.of_nat n)) (ialloc_try sb nsecs None t) s =
      Ret (Some i) (mkV (<[IBLOCK sb i := st 2 (wiped (bdata s (IBLOCK sb i)) (dino i)) (dino i) t]> (vol s)) [] g (ip s)) /\
    a <= i < a + Z.of_nat n /\ disk_type s i = 0 /\ forall j, a <= j < i -> disk_type s j <> 0) \/
  (loop (seqZ a (Z.of_nat n)) (ialloc_try sb nsecs None t) s = Ret None s /\ forall j, a <= j < a + Z.of_nat n -> disk_type s j <> 0).
Proof.
  intros Hv Hl. induction n as [|n IH]; intros a Ha Hn.
  { right. split; [done|]. intros j Hj. lia. }
  rewrite seqZ_cons by lia. cbn [loop]. pose proof (ialloc_try_run t a s Hv Hl ltac:(lia)) as H1.
  destruct (Z.eqb_spec (disk_type s a) 0) as [E|E].
  - destruct H1 as [g H1]. left. exists a, g. rewrite (bind_run _ _ _ _ _ H1). split_and!; [done|lia|lia|done|]. intros j Hj. lia.
  - rewrite (bind_run _ _ _ _ _ H1). replace (Z.pred (Z.of_nat (S n))) with (Z.of_nat n) by lia.
    destruct (IH (Z.succ a) ltac:(lia) ltac:(lia)) as [(i & g & E1 & Hi & Hz & Hlt)|[E1 Hall]].
    + left. exists i, g. split_and!; [done|lia|lia|done|]. intros j Hj. destruct (decide (j = a)) as [->|]; [done|]. apply Hlt. lia.
    + right. split; [done|]. intros j Hj. destruct (decide (j = a)) as [->|]; [done|]. apply Hall. lia.
Qed.

(** [v6_ialloc] without limits. *)
Lemma ialloc_run t s :
  vol_ok sb nsecs s -> locked s = [] -> 0 <= t < 2 ^ 16 ->
  (exists i s', v6_ialloc sb nsecs None t s = Ret i s' /\ 1 <= i < ninodes sb /\ disk_type s i = 0 /\
     (forall j, 1 <= j < i -> disk_type s j <> 0) /\ locked s' = [] /\ ip s' = ip s /\
     (forall x, get_inode (dino i) (bdata s' (IBLOCK sb i)) x = zero_inode t x) /\
     (forall n x, 0 <= n < ninodes sb -> n <> i ->
        get_inode (dino n) (bdata s' (IBLOCK sb n)) x = get_inode (dino n) (bdata s (IBLOCK sb n)) x) /\
     (forall c, c <> IBLOCK sb i -> bdata s' c = bdata s c)) \/
  ((forall j, 1 <= j < ninodes sb -> disk_type s j <> 0) /\ v6_ialloc sb nsecs None t s = Panic s).
Proof.
  intros Hv Hl Ht. pose proof lay_inodes as [_ Hn]. unfold v6_ialloc.
  destruct (ialloc_loop_run t s (Z.to_nat (ninodes sb - 1)) Hv Hl 1 ltac:(lia) ltac:(lia)) as [(i & g & E & Hi & Hz & Hlt)|[E Hall]];
    rewrite Z2Nat.id in * by lia; rewrite (bind_run _ _ _ _ _ E).
  - left. eexists i, _. split; [reflexivity|]. set (bn := IBLOCK sb i). set (s' := mkV _ _ _ _).
    assert (Hb : forall c, bdata s' c = if decide (bn = c) then st 2 (wiped (bdata s bn) (dino i)) (dino i) t else bdata s c).
    { intros c. unfold bdata, s'. cbn [vol]. case_decide; subst; [by rewrite lookup_insert_eq|by rewrite lookup_insert_ne]. }
    assert (Hd : (dino i + 128 <= length (bdata s bn))%nat) by (rewrite (vol_len _ _ _ Hv); apply dino_range).
    pose proof (length_wiped _ _ Hd) as Hlw.
    split; [lia|]. split; [done|]. split; [done|]. split; [done|]. split; [done|]. split; [|split].
    + intros x. rewrite Hb, decide_True by done. by apply get_new_inode.
    + intros n x Hr Hne. rewrite Hb. case_decide as E'; [|done]. rewrite <- E'. apply get_inode_ext. intros k y Hy1 Hy2.
      pose proof (dino_apart sb nsecs n i Hr ltac:(lia) Hne (eq_sym E')) as Hap.
      destruct Hap; [rewrite ld_st_before by lia|rewrite ld_st_after by lia]; apply ld_wiped_out; lia.
    + intros c Hc. rewrite Hb, decide_False; congruence.
  - right. split; [|done]. intros j Hj. apply Hall. lia.
Qed.

(** [v6_ialloc] takes the first inode that is free, from number 1 on, and
    zeroes it but for its type; no other inode and no other block changes.  It
    panics exactly when every inode is in use, or at a limit. *)
Theorem ialloc_exact lim t s :
  vol_ok sb nsecs s -> locked s = [] -> 0 <= t < 2 ^ 16 ->
  overruns lim (v6_ialloc sb nsecs lim t) s \/
  (exists i s', v6_ialloc sb nsecs lim t s = Ret i s' /\ 1 <= i < ninodes sb /\ disk_type s i = 0 /\
     (forall j, 1 <= j < i -> disk_type s j <> 0) /\ locked s' = [] /\ ip s' = ip s /\
     (forall x, get_inode (dino i) (bdata s' (IBLOCK sb i)) x = zero_inode t x) /\
     (forall n x, 0 <= n < ninodes sb -> n <> i ->
        get_inode (dino n) (bdata s' (IBLOCK sb n)) x = get_inode (dino n) (bdata s (IBLOCK sb n)) x) /\
     (forall c, c <> IBLOCK sb i -> bdata s' c = bdata s c)) \/
  ((forall j, 1 <= j < ninodes sb -> disk_type s j <> 0) /\ v6_ialloc sb nsecs lim t s = Panic s).
Proof.
  intros Hv Hl Ht. destruct (obeys_ialloc sb nsecs lim t s) as [E|Ho]; [right|by left]. rewrite E. by apply ialloc_run.
Qed.
End Ialloc.

(** * Witnesses *)

(** As [st_mkfs], with one block, 165, in the file. *)
Definition st_one : state :=
  mkV {[161 := replicate 20 255 ++ 63 :: replicate 4075 0]} [] [] (set_size 3 (set_addrs (165 :: replicate 12 0) ino_file)).

Lemma addr_one p : valid_pos p -> addr_at st_one p = if decide (p = PA 0) then 165 else 0.
Proof.
  assert (forall i, default 0 (replicate 12 0 !! i) = 0) as H.
  { intros i. destruct (replicate 12 0 !! i) eqn:E; [|done]. by apply lookup_replicate in E as [-> _]. }
  intros Hv. destruct p as [i|j|i|i j]; try reflexivity. cbn in Hv. unfold addr_at. cbn [ip st_one set_size set_addrs addrs].
  destruct (decide (PA i = PA 0)) as [[= ->]|Hne]; [done|].
  destruct (Z.to_nat i) eqn:E; [exfalso; apply Hne; f_equal; lia|apply H].
Qed.

Lemma bdata_one n : bdata st_one n = if decide (n = 161) then replicate 20 255 ++ 63 :: replicate 4075 0 else zero_block.
Proof. unfold bdata, st_one. cbn [vol]. case_decide; subst; [by rewrite lookup_singleton_eq|by rewrite lookup_singleton_ne]. Qed.

Lemma used_one b : 0 <= b < 166 -> used sb_mkfs st_one b = true.
Proof.
  intros Hb. unfold used. assert (BBLOCK sb_mkfs b = 161 /\ b mod BPB = b) as [-> ->].
  { unfold BBLOCK. rewrite Z.div_small, Z.mod_small by (unfold BPB, BSIZE; lia). split; reflexivity. }
  rewrite bdata_one, decide_True by reflexivity.
  assert (forallb (fun b => negb (bit_clear (replicate 20 255 ++ 63 :: replicate 4075 0) b)) (seqZ 0 166) = true) as Hall by (vm_compute; reflexivity).
  rewrite forallb_forall in Hall. apply Hall, list_elem_of_In, elem_of_seqZ. lia.
Qed.

Lemma vol_one : vol_ok sb_mkfs 800000 st_one.
Proof.
  split.
  - intros n. rewrite bdata_one. case_decide; vm_compute; reflexivity.
  - intros b Hb. cbn in Hb. apply used_one. lia.
Qed.

Lemma tree_one : tree_ok sb_mkfs 800000 st_one.
Proof.
  split; [done| |].
  - intros p Hv. rewrite addr_one by done. case_decide; [|done]. intros _. split; [cbn; lia|]. apply used_one. lia.
  - intros p q Hv Hq. rewrite !addr_one by done. by repeat case_decide; subst.
Qed.

Lemma itrunc_exact_witness :
  exists s', v6_itrunc sb_mkfs 800000 (Some lim_os) (fun _ => None) st_one = Ret tt s' /\ isize (ip s') = 0 /\ used sb_mkfs st_one 165 = true /\ used sb_mkfs s' 165 <> true.
Proof.
  destruct (itrunc_exact sb_mkfs 800000 (Some lim_os) (fun _ => None) st_one (or_introl eq_refl) vol_one tree_one) as [(s' & E & _)|(s' & E & _ & _ & Ei & _ & Hu & _)].
  - reflexivity.
  - cbn. lia.
  - assert (match v6_itrunc sb_mkfs 800000 (Some lim_os) (fun _ => None) st_one with Ret _ _ => true | _ => false end = true) as H by (vm_compute; reflexivity).
    rewrite E in H. discriminate H.
  - exists s'. split; [exact E|]. split; [by rewrite Ei|]. split; [apply used_one; lia|].
    intros H. apply Hu in H as [_ Hn]; [|cbn; lia]. apply Hn. exists (PA 0). assert (valid_pos (PA 0)) as Hp by (cbn; unfold NDIRECT; lia).
    split; [exact Hp|]. rewrite (addr_one _ Hp). split; [reflexivity|lia].
Defined.

(** A file with the double indirect block 165 and its children 166 and 167. *)
Definition st_double : state :=
  mkV (<[165 := le_bytes 4 166 ++ le_bytes 4 167 ++ replicate 4088 0]> {[161 := replicate 21 255 ++ replicate 4075 0]}) [] []
    (set_addrs (replicate 12 0 ++ [165]) ino_file).

(** The first child is not in the cache: [bget] takes the buffer that was
    released last for it, the one [a] points into.  Truncation then gives back
    block 0, and keeps the children in use. *)
Example itrunc_recycled :
  (fun recycled => match v6_itrunc sb_mkfs 800000 (Some lim_os) recycled st_double with
                   | Ret _ s => Some (used sb_mkfs s <$> [0; 165; 166; 167]) | _ => None end)
    <$> [(fun _ => None); (fun i => if i =? 0 then Some 166 else None)] = [Some [true; false; false; false]; Some [false; false; true; true]].
Proof. vm_compute. reflexivity. Qed.

End V6trunc.
