(* ===== verification/V6dir.v ===== *)
(** Directories of the V6 file system: [v6_dirlookup], [v6_direntlookup],
    [v6_isdirempty], [v6_unlink] and [v6_namecmp] of kern/v6.c, and
    [generic_dirlink] of kern/vfs.c, which v6.c uses.

    A directory is a file of 64-byte [struct dirent]; the operations work on
    [ip], the directory's inode, through [v6_readi] and [v6_writei] of [V6].
    A lookup that finds an entry ends in a call of [iget], which acts on the
    inode cache: here it gives the entry ([Entry inum type]).  A lookup in a
    mount point ([Mounted]) goes on in the mount table.

    A name is the bytes at the pointer the code has.  [cname] is what a name
    means: its characters up to a NUL, 58 at most.  [dents] is a directory as
    a list of entries, [lookup] as a finite map. *)

From stdpp Require Import base list gmap.
From Stdlib Require Import ZArith Lia Bool.
From S2P Require Import Prelude Strings V6.

Module V6dir.
Import V6.

Definition DIRSIZ : Z := 58.

(** [sizeof(struct dirent)] *)
Definition DESIZE : Z := 64.

Record dirent : Type := mkD { d_inum : Z; d_type : Z; d_name : bytes }.

(** The bytes of a [struct dirent] as one. *)
Definition get_dirent (b : bytes) : dirent := mkD (ld 4 b 0) (ld 2 b 4) (take 58 (drop 6 b)).

Definition put_dirent (de : dirent) : bytes := le_bytes 4 (d_inum de) ++ le_bytes 2 (d_type de) ++ d_name de.

(** Two strings in one memory, for [strncmp]. *)
Definition two (s t : bytes) : Strings.mem :=
  fun a => if a <? 256 then default 0 (s !! Z.to_nat a) else default 0 (t !! Z.to_nat (a - 256)).

Definition v6_namecmp (s t : bytes) : Z := Strings.strncmp (two s t) 0 256 DIRSIZ.

(** [strncpy(de.name, name, DIRSIZ)]: 58 bytes, padded with zeros behind a NUL. *)
Definition name_field (name : bytes) : bytes :=
  (fun i => Strings.strncpy (two name []) 256 0 DIRSIZ (256 + i)) <$> seqZ 0 DIRSIZ.

Inductive found : Type :=
| Mounted
| Entry (inum type : Z)
| Absent.

Section Dir.
Context (sb : v6_superblock) (nsecs : Z) (lim : option limits).
Context (devsw_read : Z -> option (Z -> M state (Z * bytes))).
Context (devsw_write : Z -> option (bytes -> M state Z)).

(** [v6_readi(dp, &de, off, sizeof(de)) != sizeof(de)] panics. *)
Definition read_dirent (off : Z) : M state dirent :=
  let* r := v6_readi sb nsecs lim devsw_read off DESIZE in
  if r.1 =? DESIZE then ret (get_dirent r.2) else panic.

(** As many rounds as entries fit into the directory. *)
Definition dir_rounds (n : Z) : nat := Z.to_nat (n / DESIZE + 1).

(** The loop of [v6_dirlookup]; the offset is the one stored at [poff]. *)
Fixpoint dirlookup_loop (fuel : nat) (name : bytes) (off free : Z) : M state (found * Z) :=
  let* i := gets ip in
  if off <? isize i then
    match fuel with
    | O => nofuel
    | S f =>
        let* de := read_dirent off in
        if d_inum de =? 0 then dirlookup_loop f name (off + DESIZE) (if free =? -1 then off else free)
        else if v6_namecmp name (d_name de) =? 0 then ret (Entry (d_inum de) (d_type de), off)
        else dirlookup_loop f name (off + DESIZE) free
    end
  else ret (Absent, u64 free).

Definition v6_dirlookup (name : bytes) : M state (found * Z) :=
  let* i := gets ip in
  if type i =? T_MOUNT then ret (Mounted, 0)
  else if negb (type i =? T_DIR) then panic
  else dirlookup_loop (dir_rounds (isize i)) name 0 (-1).

(** The loop of [v6_direntlookup]; [off] is 32 bits wide. *)
Fixpoint direntlookup_loop (fuel : nat) (inum off : Z) : M state (option (dirent * Z)) :=
  let* i := gets ip in
  if off <? isize i then
    match fuel with
    | O => nofuel
    | S f =>
        let* de := read_dirent off in
        if d_inum de =? inum then ret (Some (de, off)) else direntlookup_loop f inum (u32 (off + DESIZE))
    end
  else ret None.

(** [inum] is an [int], compared as an unsigned number; the result is the
    function's 0 with what it stores, or -1. *)
Definition v6_direntlookup (inum : Z) : M state (option (dirent * Z)) :=
  let* i := gets ip in
  if negb (type i =? T_DIR) then panic
  else direntlookup_loop (dir_rounds (isize i)) (u32 inum) 0.

Fixpoint isdirempty_loop (fuel : nat) (off : Z) : M state bool :=
  let* i := gets ip in
  if off <? isize i then
    match fuel with
    | O => nofuel
    | S f =>
        let* de := read_dirent off in
        if negb (d_inum de =? 0) then ret false else isdirempty_loop f (off + DESIZE)
    end
  else ret true.

Definition v6_isdirempty : M state bool :=
  let* i := gets ip in
  isdirempty_loop (dir_rounds (isize i)) (2 * DESIZE).

Definition v6_unlink (off : Z) : M state Z :=
  let* r := v6_writei sb nsecs lim devsw_write (replicate 64 0) off DESIZE in
  ret (if r =? DESIZE then 0 else -1).

(** The loop of [generic_dirlink]: the offset of the first free entry, or the
    size of the directory. *)
Fixpoint free_slot (fuel : nat) (off : Z) : M state Z :=
  let* i := gets ip in
  if off <? isize i then
    match fuel with
    | O => nofuel
    | S f =>
        let* de := read_dirent off in
        if d_inum de =? 0 then ret off else free_slot f (off + DESIZE)
    end
  else ret off.

(** The inode of an entry that is there already is put back ([iput]). *)
Definition generic_dirlink (name : bytes) (inum type : Z) : M state Z :=
  let* r := v6_dirlookup name in
  match r.1 with
  | Absent =>
      let* i := gets ip in
      let* off := free_slot (dir_rounds (isize i)) 0 in
      let de := mkD inum type (name_field name) in
      let* n := v6_writei sb nsecs lim devsw_write (put_dirent de) off DESIZE in
      if n =? DESIZE then ret 0 else panic
  | _ => ret (- EEXIST)
  end.

End Dir.

Section Limits.
Context (sb : v6_superblock) (nsecs : Z) (lim : option limits).
Context (devsw_read : Z -> option (Z -> M state (Z * bytes))).
Context (devsw_write : Z -> option (bytes -> M state Z)).

Lemma obeys_read_dirent off : obeys lim (read_dirent sb nsecs lim devsw_read off) (read_dirent sb nsecs None devsw_read off).
Proof. unfold read_dirent. obeys. Qed.
#[local] Hint Resolve obeys_read_dirent : limits.

Lemma obeys_dirlookup_loop fuel name off free :
  obeys lim (dirlookup_loop sb nsecs lim devsw_read fuel name off free) (dirlookup_loop sb nsecs None devsw_read fuel name off free).
Proof. revert off free. induction fuel as [|f IH]; intros off free; cbn [dirlookup_loop]; obeys. Qed.
#[local] Hint Resolve obeys_dirlookup_loop : limits.

Lemma obeys_dirlookup name : obeys lim (v6_dirlookup sb nsecs lim devsw_read name) (v6_dirlookup sb nsecs None devsw_read name).
Proof. unfold v6_dirlookup. obeys. Qed.
#[local] Hint Resolve obeys_dirlookup : limits.

Lemma obeys_isdirempty_loop fuel off : obeys lim (isdirempty_loop sb nsecs lim devsw_read fuel off) (isdirempty_loop sb nsecs None devsw_read fuel off).
Proof. revert off. induction fuel as [|f IH]; intros off; cbn [isdirempty_loop]; obeys. Qed.
#[local] Hint Resolve obeys_isdirempty_loop : limits.

Lemma obeys_isdirempty : obeys lim (v6_isdirempty sb nsecs lim devsw_read) (v6_isdirempty sb nsecs None devsw_read).
Proof. unfold v6_isdirempty. obeys. Qed.

Lemma obeys_free_slot fuel off : obeys lim (free_slot sb nsecs lim devsw_read fuel off) (free_slot sb nsecs None devsw_read fuel off).
Proof. revert off. induction fuel as [|f IH]; intros off; cbn [free_slot]; obeys. Qed.
#[local] Hint Resolve obeys_free_slot : limits.

Lemma obeys_unlink off : obeys lim (v6_unlink sb nsecs lim devsw_write off) (v6_unlink sb nsecs None devsw_write off).
Proof. unfold v6_unlink. obeys. Qed.

Lemma obeys_dirlink name inum type :
  obeys lim (generic_dirlink sb nsecs lim devsw_read devsw_write name inum type) (generic_dirlink sb nsecs None devsw_read devsw_write name inum type).
Proof. unfold generic_dirlink. obeys. Qed.
End Limits.

(** * Names *)

(** The characters of a name, 58 at most. *)
Definition cname (l : bytes) : bytes := Strings.chars 58 (fun a => default 0 (l !! Z.to_nat a)) 0.
#[global] Arguments cname : simpl never.

Notation byte_list := (Forall (fun b => 0 <= b < 256)).

Lemma byte_default (l : bytes) i : byte_list l -> 0 <= default 0 (l !! i) < 256.
Proof. intros Hl. destruct (l !! i) eqn:E; cbn; [exact (Forall_lookup_1 _ _ _ _ Hl E)|lia]. Qed.

Lemma namecmp_zero s t : byte_list s -> byte_list t -> v6_namecmp s t = 0 <-> cname s = cname t.
Proof.
  intros Hs Ht. unfold v6_namecmp, Strings.strncmp. change (DIRSIZ <? 0) with false. cbn iota.
  change (Z.to_nat DIRSIZ) with 58%nat.
  assert (H1 : forall i, 0 <= i < Z.of_nat 58 -> two s t (0 + i) = default 0 (s !! Z.to_nat i)).
  { intros i Hi. unfold two. destruct (Z.ltb_spec (0 + i) 256); [done|lia]. }
  assert (H2 : forall i, 0 <= i < Z.of_nat 58 -> two s t (256 + i) = default 0 (t !! Z.to_nat i)).
  { intros i Hi. unfold two. destruct (Z.ltb_spec (256 + i) 256); [lia|]. do 2 f_equal. lia. }
  rewrite Strings.strncmp_chars by (intros i Hi; rewrite H1, H2 by done; split; by apply byte_default).
  unfold cname. by rewrite (Strings.chars_ext 58 (fun a => default 0 (s !! Z.to_nat a)) (two s t) 0 0 H1),
    (Strings.chars_ext 58 (fun a => default 0 (t !! Z.to_nat a)) (two s t) 0 256 H2).
Qed.

Lemma name_field_byte name i : 0 <= i < 58 -> name_field name !! Z.to_nat i = Some (default 0 (cname name !! Z.to_nat i)).
Proof.
  intros Hi. unfold name_field. rewrite list_lookup_fmap, lookup_seqZ_lt by (unfold DIRSIZ; lia). cbn [fmap option_fmap option_map].
  f_equal. rewrite Strings.strncpy_exact by (unfold DIRSIZ; lia). rewrite decide_True by (unfold DIRSIZ; lia).
  replace (Z.to_nat (256 + (0 + Z.of_nat (Z.to_nat i)) - 256)) with (Z.to_nat i) by lia. change (Z.to_nat DIRSIZ) with 58%nat.
  f_equal.
Qed.

Lemma length_name_field name : length (name_field name) = 58%nat.
Proof. unfold name_field. by rewrite length_fmap, length_seqZ. Qed.

(** Storing a name keeps it. *)
Lemma cname_field name : cname (name_field name) = cname name.
Proof.
  apply Strings.chars_of_list; [apply Strings.chars_nonzero|apply Strings.length_chars|].
  intros i Hi. rewrite Z.add_0_l, name_field_byte by lia. done.
Qed.

Lemma name_field_bytes name : byte_list name -> byte_list (name_field name).
Proof.
  intros Hn. apply Forall_lookup_2. intros i b Hb. pose proof (lookup_lt_Some _ _ _ Hb) as Hl. rewrite length_name_field in Hl.
  rewrite <- (Nat2Z.id i), name_field_byte in Hb by lia. injection Hb as <-. apply byte_default.
  assert (forall n p, byte_list (Strings.chars n (fun a => default 0 (name !! Z.to_nat a)) p)) as Hc; [|apply Hc].
  induction n as [|n IH]; intros p; cbn; [constructor|]. destruct (_ =? 0); constructor; [by apply byte_default|apply IH].
Qed.

(** * Entries *)

Record dirent_ok (de : dirent) : Prop := {
  de_inum : 0 <= d_inum de < 2 ^ 32;
  de_type : 0 <= d_type de < 2 ^ 16;
  de_name : length (d_name de) = 58%nat /\ byte_list (d_name de)
}.

Lemma length_put_dirent de : dirent_ok de -> length (put_dirent de) = 64%nat.
Proof. intros [_ _ [Hn _]]. unfold put_dirent. rewrite !length_app, !length_le_bytes, Hn. done. Qed.

Lemma get_put_dirent de : dirent_ok de -> get_dirent (put_dirent de) = de.
Proof.
  intros [Hi Ht [Hn _]]. destruct de as [i t n]. unfold get_dirent, put_dirent, ld. cbn [d_inum d_type d_name] in *.
  assert (length (le_bytes 4 i) = 4%nat) as L4 by apply length_le_bytes. assert (length (le_bytes 2 t) = 2%nat) as L2 by apply length_le_bytes.
  rewrite drop_0, take_app_length' by done.
  rewrite (drop_app_length' (le_bytes 4 i)) by done. rewrite take_app_length' by done.
  rewrite (app_assoc (le_bytes 4 i)), drop_app_length' by (rewrite length_app, L4, L2; done). rewrite take_ge by lia.
  rewrite !of_le_bytes. rewrite !Z.mod_small by (cbn; lia). done.
Qed.

Lemma le_bytes_bytes k v : byte_list (le_bytes k v).
Proof. revert v. induction k as [|k IH]; intros v; cbn; constructor; [apply Z.mod_pos_bound; lia|apply IH]. Qed.

Lemma put_dirent_bytes de : dirent_ok de -> byte_list (put_dirent de).
Proof. intros [_ _ [_ Hb]]. unfold put_dirent. repeat apply Forall_app_2; (apply le_bytes_bytes || done). Qed.

(** * Directories as lists of entries *)

Section Content.
Context (sb : v6_superblock) (nsecs : Z) {lay : Layout sb nsecs}.
Context (devsw_read : Z -> option (Z -> M state (Z * bytes))).
Context (devsw_write : Z -> option (bytes -> M state Z)).

Record dir_ok (s : state) : Prop := {
  dir_vol : vol_ok sb nsecs s;
  dir_tree : tree_ok sb nsecs s;
  dir_holes : no_holes s;
  dir_locks : locked s = [];
  dir_type : type (ip s) = T_DIR;
  dir_inum : 0 <= inum (ip s) < ninodes sb;
  dir_size : 0 <= isize (ip s) < 2 ^ 31 /\ isize (ip s) mod DESIZE = 0;
  dir_bytes o : 0 <= o < isize (ip s) -> 0 <= content s o < 256
}.

Definition nents (s : state) : Z := isize (ip s) / DESIZE.

Definition entry (s : state) (k : Z) : dirent := get_dirent (content s <$> seqZ (DESIZE * k) DESIZE).

Definition dents_from (s : state) (k : Z) : list dirent := entry s <$> seqZ k (nents s - k).

Definition dents (s : state) : list dirent := dents_from s 0.

Lemma nents_size s : dir_ok s -> isize (ip s) = DESIZE * nents s /\ 0 <= nents s < 2 ^ 31.
Proof.
  intros H. destruct (dir_size _ H) as [Hs Hm]. unfold nents, DESIZE in *. pose proof (Z.div_mod (isize (ip s)) 64 ltac:(lia)). lia.
Qed.

Lemma dents_from_cons s k : k < nents s -> dents_from s k = entry s k :: dents_from s (k + 1).
Proof.
  intros Hk. unfold dents_from. rewrite seqZ_cons by lia. cbn. do 2 f_equal. f_equal; lia.
Qed.

Lemma dents_from_nil s k : nents s <= k -> dents_from s k = [].
Proof. intros Hk. unfold dents_from. by rewrite seqZ_nil by lia. Qed.

Lemma length_entry_bytes s k : length (content s <$> seqZ (DESIZE * k) DESIZE) = 64%nat.
Proof. by rewrite length_fmap, length_seqZ. Qed.

Lemma read_dirent_run s k :
  dir_ok s -> 0 <= k < nents s -> read_dirent sb nsecs None devsw_read (DESIZE * k) s = Ret (entry s k) s.
Proof.
  intros H Hk. destruct (nents_size _ H) as [Es Hn]. destruct (dir_size _ H) as [Hs _]. unfold read_dirent.
  assert (E : v6_readi sb nsecs None devsw_read (DESIZE * k) DESIZE s =
    Ret (Z.min DESIZE (isize (ip s) - DESIZE * k), content s <$> seqZ (DESIZE * k) (Z.min DESIZE (isize (ip s) - DESIZE * k))) s).
  { apply (readi_run sb nsecs devsw_read s); try apply H; [by rewrite (dir_type _ H)|lia|unfold DESIZE in *; lia|done|unfold DESIZE in *; lia]. }
  rewrite (bind_run _ _ _ _ _ E). rewrite Z.min_l by (unfold DESIZE in *; lia). done.
Qed.

(** A loop over the entries, one round each. *)
Lemma dir_round s k : dir_ok s -> 0 <= k <= nents s -> (DESIZE * k <? isize (ip s)) = (k <? nents s).
Proof.
  intros H Hk. destruct (nents_size _ H) as [-> _]. unfold DESIZE.
  destruct (Z.ltb_spec (64 * k) (64 * nents s)), (Z.ltb_spec k (nents s)); lia.
Qed.

(** What [v6_dirlookup] does on the list of entries. *)
Fixpoint scan (name : bytes) (l : list dirent) (off free : Z) : found * Z :=
  match l with
  | [] => (Absent, u64 free)
  | de :: l' =>
      if d_inum de =? 0 then scan name l' (off + DESIZE) (if free =? -1 then off else free)
      else if v6_namecmp name (d_name de) =? 0 then (Entry (d_inum de) (d_type de), off)
      else scan name l' (off + DESIZE) free
  end.

Lemma dirlookup_loop_run name s fuel : forall k free,
  dir_ok s -> 0 <= k <= nents s -> nents s - k <= Z.of_nat fuel ->
  dirlookup_loop sb nsecs None devsw_read fuel name (DESIZE * k) free s = Ret (scan name (dents_from s k) (DESIZE * k) free) s.
Proof.
  induction fuel as [|f IH]; intros k free H Hk Hf; cbn [dirlookup_loop]; run_step; rewrite (dir_round _ _ H Hk).
  - destruct (Z.ltb_spec k (nents s)); [lia|]. by rewrite dents_from_nil by lia.
  - destruct (Z.ltb_spec k (nents s)); [|by rewrite dents_from_nil by lia].
    rewrite (bind_run _ _ _ _ _ (read_dirent_run s k H ltac:(lia))). rewrite dents_from_cons by done. cbn [scan].
    replace (DESIZE * k + DESIZE) with (DESIZE * (k + 1)) by lia.
    destruct (d_inum (entry s k) =? 0); [apply IH; (done || lia)|].
    destruct (v6_namecmp name (d_name (entry s k)) =? 0); [done|]. apply IH; (done || lia).
Qed.

Lemma dir_rounds_enough s : dir_ok s -> nents s <= Z.of_nat (dir_rounds (isize (ip s))).
Proof. intros H. destruct (nents_size _ H) as [_ Hn]. unfold dir_rounds. fold (nents s). lia. Qed.

Lemma dirlookup_run name s :
  dir_ok s -> v6_dirlookup sb nsecs None devsw_read name s = Ret (scan name (dents s) 0 (-1)) s.
Proof.
  intros H. unfold v6_dirlookup. run_step. rewrite (dir_type _ H). cbn [T_DIR T_MOUNT Z.eqb negb Pos.eqb].
  apply (dirlookup_loop_run name s _ 0); [done|pose proof (nents_size _ H); lia|].
  pose proof (dir_rounds_enough _ H). lia.
Qed.

(** The index of the first free entry, or the number of entries. *)
Fixpoint free_index (l : list dirent) : Z :=
  match l with
  | [] => 0
  | de :: l' => if d_inum de =? 0 then 0 else 1 + free_index l'
  end.

Lemma free_slot_run s fuel : forall k,
  dir_ok s -> 0 <= k <= nents s -> nents s - k <= Z.of_nat fuel ->
  free_slot sb nsecs None devsw_read fuel (DESIZE * k) s = Ret (DESIZE * (k + free_index (dents_from s k))) s.
Proof.
  induction fuel as [|f IH]; intros k H Hk Hf; cbn [free_slot]; run_step; rewrite (dir_round _ _ H Hk).
  - destruct (Z.ltb_spec k (nents s)); [lia|]. rewrite dents_from_nil by lia. cbn. by rewrite Z.add_0_r.
  - destruct (Z.ltb_spec k (nents s)); [|rewrite dents_from_nil by lia; cbn; by rewrite Z.add_0_r].
    rewrite (bind_run _ _ _ _ _ (read_dirent_run s k H ltac:(lia))). rewrite dents_from_cons by done. cbn [free_index].
    destruct (d_inum (entry s k) =? 0); [by rewrite Z.add_0_r|].
    replace (DESIZE * k + DESIZE) with (DESIZE * (k + 1)) by lia. rewrite IH by (done || lia). do 2 f_equal. lia.
Qed.

Lemma isdirempty_loop_run s fuel : forall k,
  dir_ok s -> 0 <= k <= nents s -> nents s - k <= Z.of_nat fuel ->
  isdirempty_loop sb nsecs None devsw_read fuel (DESIZE * k) s = Ret (forallb (fun de => d_inum de =? 0) (dents_from s k)) s.
Proof.
  induction fuel as [|f IH]; intros k H Hk Hf; cbn [isdirempty_loop]; run_step; rewrite (dir_round _ _ H Hk).
  - destruct (Z.ltb_spec k (nents s)); [lia|]. by rewrite dents_from_nil by lia.
  - destruct (Z.ltb_spec k (nents s)); [|by rewrite dents_from_nil by lia].
    rewrite (bind_run _ _ _ _ _ (read_dirent_run s k H ltac:(lia))). rewrite dents_from_cons by done. cbn [forallb].
    destruct (d_inum (entry s k) =? 0); cbn [negb andb]; [|done].
    replace (DESIZE * k + DESIZE) with (DESIZE * (k + 1)) by lia. apply IH; (done || lia).
Qed.

End Content.
(** * Directories as finite maps *)

Definition live (de : dirent) : bool := negb (d_inum de =? 0).

Fixpoint lookup (l : list dirent) (n : bytes) : option (Z * Z) :=
  match l with
  | [] => None
  | de :: l' =>
      if live de then if decide (cname (d_name de) = n) then Some (d_inum de, d_type de) else lookup l' n
      else lookup l' n
  end.

(** The names in use. *)
Definition names (l : list dirent) : list bytes := (fun de => cname (d_name de)) <$> filter (fun de => live de = true) l.

Definition nothing : dirent := mkD 0 0 (replicate 58 0).

Lemma lookup_app l k n : lookup (l ++ k) n = match lookup l n with Some r => Some r | None => lookup k n end.
Proof. induction l as [|de l IH]; cbn; [done|]. destruct (live de); [|done]. by case_decide. Qed.

Lemma lookup_None l n : lookup l n = None <-> n ∉ names l.
Proof.
  unfold names. induction l as [|de l IH]; cbn [lookup]; [split; [intros _; apply not_elem_of_nil|done]|].
  destruct (live de) eqn:El.
  - rewrite filter_cons_True by done. rewrite fmap_cons, not_elem_of_cons. case_decide; naive_solver.
  - rewrite filter_cons_False by (by rewrite El). done.
Qed.

Lemma names_app l k : names (l ++ k) = names l ++ names k.
Proof. unfold names. by rewrite filter_app, fmap_app. Qed.

Lemma names_cons de l : names (de :: l) = (if live de then [cname (d_name de)] else []) ++ names l.
Proof.
  unfold names. destruct (live de) eqn:E; [by rewrite filter_cons_True|by rewrite filter_cons_False by (by rewrite E)].
Qed.

(** A new entry in the place of a free one, or behind the last. *)
Lemma lookup_link l1 x l2 de n :
  live x = false -> live de = true -> lookup (l1 ++ x :: l2) (cname (d_name de)) = None ->
  lookup (l1 ++ de :: l2) n = if decide (n = cname (d_name de)) then Some (d_inum de, d_type de) else lookup (l1 ++ x :: l2) n.
Proof.
  rewrite !lookup_app. cbn. intros -> ->. destruct (lookup l1 (cname (d_name de))) eqn:E1; intros E2; [discriminate E2|].
  destruct (decide (n = cname (d_name de))) as [Hn|Hn]; [subst n; rewrite E1; by rewrite decide_True|].
  by rewrite decide_False by congruence.
Qed.

Lemma names_link l1 x l2 de :
  live x = false -> live de = true -> NoDup (names (l1 ++ x :: l2)) -> lookup (l1 ++ x :: l2) (cname (d_name de)) = None ->
  NoDup (names (l1 ++ de :: l2)).
Proof.
  rewrite lookup_None, !names_app, !names_cons. intros -> ->. cbn. intros Hn Hc.
  rewrite <- Permutation_middle. by constructor.
Qed.

(** An entry taken out. *)
Lemma lookup_unlink l1 x l2 n :
  live x = true -> NoDup (names (l1 ++ x :: l2)) ->
  lookup (l1 ++ nothing :: l2) n = if decide (n = cname (d_name x)) then None else lookup (l1 ++ x :: l2) n.
Proof.
  intros Hx. rewrite names_app, names_cons, Hx. cbn. rewrite <- Permutation_middle, NoDup_cons, elem_of_app. intros [Hn _].
  rewrite !lookup_app. cbn. rewrite Hx. destruct (decide (n = cname (d_name x))) as [E|E].
  - subst n. destruct (lookup l1 (cname (d_name x))) as [r|] eqn:E1.
    + exfalso. apply Hn. left. destruct (decide (cname (d_name x) ∈ names l1)) as [|H]; [done|]. apply lookup_None in H. congruence.
    + apply lookup_None. naive_solver.
  - rewrite (decide_False (P := cname (d_name x) = n)) by congruence. done.
Qed.

Lemma names_unlink l1 x l2 : live x = true -> NoDup (names (l1 ++ x :: l2)) -> NoDup (names (l1 ++ nothing :: l2)).
Proof.
  intros Hx. rewrite !names_app, !names_cons, Hx. cbn. rewrite <- Permutation_middle. by intros [_ H]%NoDup_cons.
Qed.

(** What the search finds is what the map has. *)
Lemma scan_lookup name l off free :
  byte_list name -> Forall (fun de => byte_list (d_name de)) l ->
  match lookup l (cname name) with
  | Some (i, t) => exists j de, l !! j = Some de /\ live de = true /\ cname (d_name de) = cname name /\ d_inum de = i /\ d_type de = t /\
                     scan name l off free = (Entry i t, off + DESIZE * Z.of_nat j)
  | None => (scan name l off free).1 = Absent
  end.
Proof.
  intros Hname Hl. revert off free. induction Hl as [|de l Hde Hl IH]; intros off free; cbn [lookup scan]; [done|].
  unfold live. destruct (Z.eqb_spec (d_inum de) 0) as [E0|E0]; cbn [negb].
  - specialize (IH (off + DESIZE) (if free =? -1 then off else free)). destruct (lookup l (cname name)) as [[i t]|]; [|done].
    destruct IH as (j & de0 & H1 & H2 & H3 & H4 & H5 & H6). exists (S j), de0. split_and!; try done. rewrite H6. f_equal. lia.
  - destruct (decide (cname (d_name de) = cname name)) as [En|En].
    + exists 0%nat, de. destruct (Z.eqb_spec (v6_namecmp name (d_name de)) 0) as [|Hne]; [|by exfalso; apply Hne, namecmp_zero].
      split_and!; try done; [by destruct (Z.eqb_spec (d_inum de) 0)|]. f_equal. lia.
    + destruct (Z.eqb_spec (v6_namecmp name (d_name de)) 0) as [Hz|_]; [apply namecmp_zero in Hz; congruence|].
      specialize (IH (off + DESIZE) free). destruct (lookup l (cname name)) as [[i t]|]; [|done].
      destruct IH as (j & de0 & H1 & H2 & H3 & H4 & H5 & H6). exists (S j), de0. split_and!; try done. rewrite H6. f_equal. lia.
Qed.

(** The entry that a new one replaces. *)
Lemma free_index_split l :
  let j := Z.to_nat (free_index l) in
  0 <= free_index l <= Z.of_nat (length l) /\
  ((exists x l2, l = take j l ++ x :: l2 /\ live x = false /\ drop (S j) l = l2) \/ (free_index l = Z.of_nat (length l))).
Proof.
  induction l as [|de l IH]; cbn [free_index length]; [split; [done|by right]|].
  destruct (Z.eqb_spec (d_inum de) 0) as [E|E].
  - split; [lia|]. left. exists de, l. split_and!; try done. unfold live. by rewrite E.
  - destruct IH as [Hr Hs]. split; [lia|]. replace (Z.to_nat (1 + free_index l)) with (S (Z.to_nat (free_index l))) by lia.
    destruct Hs as [(x & l2 & El & Hx & Ed)|Hs]; [left|right; lia]. exists x, l2. split_and!; try done. cbn. f_equal. exact El.
Qed.

(** * Writing an entry *)

Section Update.
Context (sb : v6_superblock) (nsecs : Z) {lay : Layout sb nsecs}.
Context (devsw_read : Z -> option (Z -> M state (Z * bytes))).
Context (devsw_write : Z -> option (bytes -> M state Z)).

Lemma length_dents s : dir_ok sb nsecs s -> Z.of_nat (length (dents s)) = nents s.
Proof. intros H. destruct (nents_size sb nsecs _ H). unfold dents, dents_from. rewrite length_fmap, length_seqZ. lia. Qed.

Lemma lookup_dents s k : 0 <= k < nents s -> dents s !! Z.to_nat k = Some (entry s k).
Proof. intros Hk. unfold dents, dents_from. rewrite list_lookup_fmap, lookup_seqZ_lt by lia. cbn. do 2 f_equal. lia. Qed.

Lemma dents_names s : dir_ok sb nsecs s -> Forall (fun de => byte_list (d_name de)) (dents s).
Proof.
  intros H. apply Forall_fmap, Forall_forall. intros k Hk%elem_of_seqZ. cbn.
  destruct (nents_size sb nsecs _ H) as [Es _]. apply Forall_take, Forall_drop, Forall_fmap, Forall_forall.
  intros o Ho%elem_of_seqZ. apply (dir_bytes _ _ _ H). unfold DESIZE in *. lia.
Qed.

Lemma entry_ext s s' k : (forall o, DESIZE * k <= o < DESIZE * k + DESIZE -> content s' o = content s o) -> entry s' k = entry s k.
Proof. intros H. unfold entry. f_equal. apply list_fmap_ext. intros i o Ho%list_elem_of_lookup_2%elem_of_seqZ. apply H. lia. Qed.

Lemma write_entry s j de :
  dir_ok sb nsecs s -> 0 <= j <= nents s -> dirent_ok de -> isize (ip s) + DESIZE < 2 ^ 31 ->
  (exists s', v6_writei sb nsecs None devsw_write (put_dirent de) (DESIZE * j) DESIZE s = Ret DESIZE s' /\
     dir_ok sb nsecs s' /\ dents s' = take (Z.to_nat j) (dents s) ++ de :: drop (S (Z.to_nat j)) (dents s)) \/
  (exists s', v6_writei sb nsecs None devsw_write (put_dirent de) (DESIZE * j) DESIZE s = Panic s' /\ full sb s').
Proof.
  intros H Hj Hde Hsz. destruct (nents_size sb nsecs _ H) as [Es Hn]. destruct (dir_size _ _ _ H) as [Hs _].
  pose proof (length_put_dirent de Hde) as Hlen. pose proof (length_dents _ H) as Hld. unfold DESIZE in Es, Hsz.
  destruct (writei_run sb nsecs devsw_write s (put_dirent de) (DESIZE * j) DESIZE)
    as [(s' & Er & Hv & Ht & Hh & Hl & Hty & Hin & Hsize & Hc)|Hfull]; try apply H.
  1: by rewrite (dir_type _ _ _ H). 1: lia. 1: unfold DESIZE; lia. 1: by rewrite Hlen. 1: done. 1: unfold DESIZE; lia.
  2: by right.
  left. exists s'. split; [done|]. rewrite Es in Hsize. unfold DESIZE in Hsize, Hc.
  assert (Hn' : nents s' = Z.max (nents s) (j + 1)).
  { unfold nents at 1. rewrite Hsize. unfold DESIZE. replace (Z.max (64 * nents s) (64 * j + 64)) with (Z.max (nents s) (j + 1) * 64) by lia.
    by apply Z.div_mul. }
  assert (Hej : entry s' j = de).
  { unfold entry. transitivity (get_dirent (put_dirent de)); [f_equal|by apply get_put_dirent].
    change (seqZ (DESIZE * j) DESIZE) with (seqZ (64 * j) (Z.of_nat 64)). rewrite <- Hlen. apply fmap_seqZ_src.
    intros i x Hi. pose proof (lookup_lt_Some _ _ _ Hi) as Hli. rewrite Hc by lia.
    destruct (Z.leb_spec (64 * j) (64 * j + Z.of_nat i)); [|lia]. destruct (Z.ltb_spec (64 * j + Z.of_nat i) (64 * j + 64)); [|lia].
    cbn [andb]. replace (Z.to_nat (64 * j + Z.of_nat i - 64 * j)) with i by lia. by rewrite Hi. }
  assert (Heo : forall k, 0 <= k < nents s -> k <> j -> entry s' k = entry s k).
  { intros k Hk Hkj. apply entry_ext. unfold DESIZE. intros o Ho. rewrite Hc by lia.
    destruct (Z.leb_spec (64 * j) o), (Z.ltb_spec o (64 * j + 64)); cbn [andb]; try done. lia. }
  assert (Hok : dir_ok sb nsecs s').
  { constructor; try done.
    - by rewrite Hty, (dir_type _ _ _ H).
    - rewrite Hin. apply H.
    - rewrite Hsize. unfold DESIZE. replace (Z.max (64 * nents s) (64 * j + 64)) with (Z.max (nents s) (j + 1) * 64) by lia.
      rewrite Z.mod_mul by done. lia.
    - intros o Ho. rewrite Hsize in Ho. rewrite Hc by lia. destruct (Z.leb_spec (64 * j) o), (Z.ltb_spec o (64 * j + 64)); cbn [andb].
      + apply byte_default, put_dirent_bytes, Hde.
      + apply (dir_bytes _ _ _ H). lia.
      + apply (dir_bytes _ _ _ H). lia.
      + lia. }
  split; [done|]. pose proof (length_dents _ Hok) as Hld'.
  apply list_eq. intros i. destruct (decide (Z.of_nat i < nents s')) as [Hi|Hi].
  - rewrite <- (Nat2Z.id i) at 1. rewrite lookup_dents by lia. destruct (decide (Z.of_nat i = j)) as [E|E].
    + rewrite E, Hej. replace (Z.to_nat j) with i by lia. rewrite lookup_app_r by (rewrite length_take; lia).
      rewrite length_take_le by lia. by rewrite Nat.sub_diag.
    + rewrite Heo by lia. rewrite <- lookup_dents, Nat2Z.id by lia. destruct (decide (i < Z.to_nat j)%nat).
      * rewrite lookup_app_l by (rewrite length_take; lia). by rewrite lookup_take_lt by lia.
      * rewrite lookup_app_r by (rewrite length_take; lia). rewrite length_take_le by lia.
        destruct (i - Z.to_nat j)%nat as [|k] eqn:Ek; [lia|]. change ((de :: ?l) !! S k) with (l !! k).
        rewrite lookup_drop. f_equal. lia.
  - rewrite lookup_ge_None_2 by lia. symmetry. apply lookup_ge_None_2.
    rewrite length_app, length_take. cbn [length]. rewrite length_drop. lia.
Qed.

Lemma nothing_ok : dirent_ok nothing.
Proof. constructor; [done|done|]. split; [done|]. by apply (Forall_replicate (fun b => 0 <= b < 256) 58). Qed.

Lemma put_nothing : put_dirent nothing = replicate 64 0.
Proof. done. Qed.

(** [generic_dirlink] of a name that is not there. *)
Lemma dirlink_run s name inum type :
  dir_ok sb nsecs s -> NoDup (names (dents s)) -> byte_list name -> 0 < inum < 2 ^ 32 -> 0 <= type < 2 ^ 16 ->
  isize (ip s) + DESIZE < 2 ^ 31 -> lookup (dents s) (cname name) = None ->
  (exists s', generic_dirlink sb nsecs None devsw_read devsw_write name inum type s = Ret 0 s' /\ dir_ok sb nsecs s' /\
     NoDup (names (dents s')) /\
     forall n', lookup (dents s') n' = if decide (n' = cname name) then Some (inum, type) else lookup (dents s) n') \/
  exists s', generic_dirlink sb nsecs None devsw_read devsw_write name inum type s = Panic s' /\ full sb s'.
Proof.
  intros H Hd Hb Hi Ht Hsz Hnone. set (de := mkD inum type (name_field name)).
  assert (Hde : dirent_ok de).
  { constructor; cbn; [lia|lia|]. split; [apply length_name_field|by apply name_field_bytes]. }
  assert (Hlive : live de = true) by (unfold live; cbn; destruct (Z.eqb_spec inum 0); [lia|done]).
  assert (Hcn : cname (d_name de) = cname name) by apply cname_field.
  pose proof (length_dents _ H) as Hld. destruct (free_index_split (dents s)) as [Hj Hsplit]. set (j := free_index (dents s)) in *.
  assert (Hrun : generic_dirlink sb nsecs None devsw_read devsw_write name inum type s =
    (let* n := v6_writei sb nsecs None devsw_write (put_dirent de) (DESIZE * j) DESIZE in if n =? DESIZE then ret 0 else panic) s).
  { unfold generic_dirlink. rewrite (bind_run _ _ _ _ _ (dirlookup_run sb nsecs devsw_read name s H)).
    pose proof (scan_lookup name (dents s) 0 (-1) Hb (dents_names _ H)) as Hscan. rewrite Hnone in Hscan. rewrite Hscan. run_step.
    pose proof (free_slot_run sb nsecs devsw_read s (dir_rounds (isize (ip s))) 0 H ltac:(pose proof (nents_size sb nsecs _ H); lia)
      ltac:(pose proof (dir_rounds_enough sb nsecs _ H); lia)) as Hfree. rewrite Z.mul_0_r in Hfree.
    by rewrite (bind_run _ _ _ _ _ Hfree). }
  destruct (write_entry s j de H ltac:(lia) Hde Hsz) as [(s' & Er & Hok & Ed)|(s' & Er & Hf)].
  2:{ right. exists s'. split; [|done]. rewrite Hrun. unfold bind. by rewrite Er. }
  left. exists s'. split; [rewrite Hrun, (bind_run _ _ _ _ _ Er); done|]. split; [done|]. rewrite Ed.
  assert (exists x l1 l2, live x = false /\ take (Z.to_nat j) (dents s) = l1 /\ drop (S (Z.to_nat j)) (dents s) = l2 /\
    (dents s = l1 ++ x :: l2 \/ (dents s = l1 /\ l2 = []))) as (x & l1 & l2 & Hx & E1 & E2 & Hl).
  { destruct Hsplit as [(x & l2 & El & Hx & E2)|Ej]; [exists x|exists nothing]; eexists _, _; split_and!; try done.
    - left. by subst l2.
    - right. rewrite take_ge, drop_ge by lia. done. }
  rewrite E1, E2. assert (Heq : (forall n', lookup (dents s) n' = lookup (l1 ++ x :: l2) n') /\ names (dents s) = names (l1 ++ x :: l2)).
  { destruct Hl as [->|[-> ->]]; [done|]. rewrite names_app, names_cons, Hx, app_nil_r. split; [|done].
    intros n'. rewrite lookup_app. cbn. rewrite Hx. by destruct (lookup _ n'). }
  destruct Heq as [Hlk Hnm]. rewrite Hlk in Hnone. rewrite Hnm in Hd. rewrite <- Hcn in Hnone. split.
  - by eapply names_link.
  - intros n'. rewrite (lookup_link l1 x l2 de n' Hx Hlive Hnone), Hcn, Hlk. done.
Qed.

(** [v6_unlink] at the offset of an entry. *)
Lemma unlink_run s j de :
  dir_ok sb nsecs s -> NoDup (names (dents s)) -> dents s !! j = Some de -> live de = true -> isize (ip s) + DESIZE < 2 ^ 31 ->
  (exists s', v6_unlink sb nsecs None devsw_write (DESIZE * Z.of_nat j) s = Ret 0 s' /\ dir_ok sb nsecs s' /\ NoDup (names (dents s')) /\
     forall n', lookup (dents s') n' = if decide (n' = cname (d_name de)) then None else lookup (dents s) n') \/
  exists s', v6_unlink sb nsecs None devsw_write (DESIZE * Z.of_nat j) s = Panic s' /\ full sb s'.
Proof.
  intros H Hd Hj Hlive Hsz. pose proof (length_dents _ H) as Hld. pose proof (lookup_lt_Some _ _ _ Hj) as Hjl.
  unfold v6_unlink. rewrite <- put_nothing.
  destruct (write_entry s (Z.of_nat j) nothing H ltac:(lia) nothing_ok Hsz) as [(s' & Er & Hok & Ed)|(s' & Er & Hf)].
  2:{ right. exists s'. split; [|done]. unfold bind. by rewrite Er. }
  left. exists s'. split; [rewrite (bind_run _ _ _ _ _ Er); done|]. split; [done|]. rewrite Ed, Nat2Z.id.
  rewrite <- (take_drop_middle _ _ _ Hj) in Hd. split.
  - by eapply names_unlink.
  - intros n'. rewrite (lookup_unlink _ de _ n' Hlive Hd). by rewrite (take_drop_middle _ _ _ Hj).
Qed.

(** The operations of a directory, no limits. *)
Lemma directory_run s name inum type (H : dir_ok sb nsecs s) (Hd : NoDup (names (dents s))) (Hb : byte_list name)
  (Hi : 0 < inum < 2 ^ 32) (Ht : 0 <= type < 2 ^ 16) (Hsz : isize (ip s) + DESIZE < 2 ^ 31) :
  let n := cname name in
  match lookup (dents s) n with
  | Some (i, t) =>
      generic_dirlink sb nsecs None devsw_read devsw_write name inum type s = Ret (- EEXIST) s /\
      exists off, v6_dirlookup sb nsecs None devsw_read name s = Ret (Entry i t, off) s /\
      ((exists s', v6_unlink sb nsecs None devsw_write off s = Ret 0 s' /\ dir_ok sb nsecs s' /\ NoDup (names (dents s')) /\
          forall n', lookup (dents s') n' = if decide (n' = n) then None else lookup (dents s) n') \/
       exists s', v6_unlink sb nsecs None devsw_write off s = Panic s' /\ full sb s')
  | None =>
      (exists off, v6_dirlookup sb nsecs None devsw_read name s = Ret (Absent, off) s) /\
      ((exists s', generic_dirlink sb nsecs None devsw_read devsw_write name inum type s = Ret 0 s' /\ dir_ok sb nsecs s' /\
          NoDup (names (dents s')) /\
          forall n', lookup (dents s') n' = if decide (n' = n) then Some (inum, type) else lookup (dents s) n') \/
       exists s', generic_dirlink sb nsecs None devsw_read devsw_write name inum type s = Panic s' /\ full sb s')
  end.
Proof.
  intros n. pose proof (scan_lookup name (dents s) 0 (-1) Hb (dents_names _ H)) as Hscan. fold n in Hscan.
  pose proof (dirlookup_run sb nsecs devsw_read name s H) as Hrun.
  destruct (lookup (dents s) n) as [[i t]|] eqn:El.
  - destruct Hscan as (j & de & Hj & Hl & Hc & _ & _ & Es). rewrite Es, Z.add_0_l in Hrun. split.
    + unfold generic_dirlink. by rewrite (bind_run _ _ _ _ _ Hrun).
    + exists (DESIZE * Z.of_nat j). split; [done|].
      pose proof (unlink_run s j de H Hd Hj Hl Hsz) as Hu. by rewrite Hc in Hu.
  - split.
    + exists (scan name (dents s) 0 (-1)).2. rewrite Hrun. by rewrite <- Hscan; destruct (scan _ _ _ _).
    + by apply dirlink_run.
Qed.

(** C8: a directory is a finite map from names (58 characters at most) to
    entries.  [v6_dirlookup] finds exactly the entry the map has, and its
    offset; [generic_dirlink] refuses a name that is there and otherwise adds
    the name and changes no other one; [v6_unlink] at the offset of an entry
    removes that name only.  Names stay distinct, and the directory keeps the
    invariants of a file.  The operations fail only by a panic, when the
    volume is full or at a limit of the log or of the cache. *)
Theorem directory_is_map lim s name inum type (H : dir_ok sb nsecs s) (Hd : NoDup (names (dents s))) (Hb : byte_list name)
  (Hi : 0 < inum < 2 ^ 32) (Ht : 0 <= type < 2 ^ 16) (Hsz : isize (ip s) + DESIZE < 2 ^ 31) :
  let n := cname name in
  match lookup (dents s) n with
  | Some (i, t) =>
      gives lim (generic_dirlink sb nsecs lim devsw_read devsw_write name inum type) s (Ret (- EEXIST) s) /\
      exists off, gives lim (v6_dirlookup sb nsecs lim devsw_read name) s (Ret (Entry i t, off) s) /\
      ((exists s', v6_unlink sb nsecs lim devsw_write off s = Ret 0 s' /\ dir_ok sb nsecs s' /\ NoDup (names (dents s')) /\
          forall n', lookup (dents s') n' = if decide (n' = n) then None else lookup (dents s) n') \/
       exists s', v6_unlink sb nsecs lim devsw_write off s = Panic s' /\ (full sb s' \/ over lim s'))
  | None =>
      (exists off, gives lim (v6_dirlookup sb nsecs lim devsw_read name) s (Ret (Absent, off) s)) /\
      ((exists s', generic_dirlink sb nsecs lim devsw_read devsw_write name inum type s = Ret 0 s' /\ dir_ok sb nsecs s' /\
          NoDup (names (dents s')) /\
          forall n', lookup (dents s') n' = if decide (n' = n) then Some (inum, type) else lookup (dents s) n') \/
       exists s', generic_dirlink sb nsecs lim devsw_read devsw_write name inum type s = Panic s' /\ (full sb s' \/ over lim s'))
  end.
Proof.
  pose proof (directory_run s name inum type H Hd Hb Hi Ht Hsz) as Hrun. cbn zeta in *.
  pose proof (obeys_dirlink sb nsecs lim devsw_read devsw_write name inum type s) as Hl. pose proof (obeys_dirlookup sb nsecs lim devsw_read name s) as Hk.
  destruct (lookup (dents s) (cname name)) as [[i t]|].
  - destruct Hrun as [E1 (off & E2 & Hu)]. rewrite E1 in Hl. rewrite E2 in Hk. split; [done|]. exists off. split; [done|].
    destruct (obeys_unlink sb nsecs lim devsw_write off s) as [Eo|(s1 & Eo & Ho)]; [|right; exists s1; auto]. rewrite Eo.
    destruct Hu as [?|(s' & ? & ?)]; [by left|right; exists s'; auto].
  - destruct Hrun as [(off & E2) Hu]. rewrite E2 in Hk. split; [by exists off|].
    destruct Hl as [Eo|(s1 & Eo & Ho)]; [|right; exists s1; auto]. rewrite Eo.
    destruct Hu as [?|(s' & ? & ?)]; [by left|right; exists s'; auto].
Qed.

Lemma isdirempty_run s (H : dir_ok sb nsecs s) (H2 : 2 <= nents s) :
  v6_isdirempty sb nsecs None devsw_read s = Ret (forallb (fun de => negb (live de)) (drop 2 (dents s))) s.
Proof.
  unfold v6_isdirempty. run_step.
  change (2 * DESIZE) with (DESIZE * 2).
  rewrite (isdirempty_loop_run sb nsecs devsw_read s (dir_rounds (isize (ip s))) 2 H ltac:(lia) ltac:(pose proof (dir_rounds_enough sb nsecs _ H); lia)).
  f_equal. transitivity (forallb (fun de => d_inum de =? 0) (drop 2 (dents s))).
  - f_equal. unfold dents. rewrite (dents_from_cons s 0), (dents_from_cons s (0 + 1)) by lia. done.
  - induction (drop 2 (dents s)) as [|de l IH]; cbn; [done|]. rewrite IH. unfold live. by rewrite negb_involutive.
Qed.

(** [v6_isdirempty] says whether every entry behind the first two is free. *)
Theorem isdirempty_correct lim s (H : dir_ok sb nsecs s) (H2 : 2 <= nents s) :
  gives lim (v6_isdirempty sb nsecs lim devsw_read) s (Ret (forallb (fun de => negb (live de)) (drop 2 (dents s))) s).
Proof. rewrite <- (isdirempty_run s H H2). apply obeys_isdirempty. Qed.

End Update.
(** * An empty directory on a new volume *)

Definition ino_dir : inode := mkI 1 1 true true T_DIR 0 0 1 0 0x41ed 0 0 (0, 0) (0, 0) (0, 0) (replicate 13 0).
Definition st_dir : state := mkV (vol st_mkfs) [] [] ino_dir.

Lemma dir_empty : dir_ok sb_mkfs 800000 st_dir.
Proof.
  destruct vol_mkfs as [V1 V2]. destruct tree_mkfs as [T1 T2 T3].
  constructor; [by split|by split|intros o Ho; cbn in Ho; lia|done|done|by vm_compute|split; [by vm_compute|done]|].
  intros o Ho. cbn in Ho. lia.
Qed.

Lemma directory_is_map_witness :
  lookup (dents st_dir) (cname [97]) = None /\
  exists s', generic_dirlink sb_mkfs 800000 (Some lim_os) (fun _ => None) (fun _ => None) [97] 7 2 st_dir = Ret 0 s' /\
      lookup (dents s') (cname [97]) = Some (7, 2).
Proof.
  split; [reflexivity|].
  destruct (directory_is_map sb_mkfs 800000 (fun _ => None) (fun _ => None) (Some lim_os) st_dir [97] 7 2 dir_empty (NoDup_nil_2)
    ltac:(repeat constructor; lia) ltac:(lia) ltac:(lia) ltac:(cbn; unfold DESIZE; lia)) as [_ [(s' & H1 & _ & _ & H2)|(s' & H1 & _)]].
  - exists s'. split; [exact H1|]. rewrite H2. by rewrite decide_True.
  - assert (match generic_dirlink sb_mkfs 800000 (Some lim_os) (fun _ => None) (fun _ => None) [97] 7 2 st_dir with Ret _ _ => true | _ => false end = true) as E by (vm_compute; reflexivity).
    rewrite H1 in E. discriminate E.
Defined.

End V6dir.
