(* ===== verification/Pagecache.v ===== *)
(** The page cache: kern/pagecache.c.

    A [struct cached_page] is a record with its page of memory, which only
    the cache writes; [pages] is the array, NULL and the error value -1 of
    [get_page] are [None].  The inode operations and the transactions that the
    cache calls are the class [Reader]; [ReaderLaws] says what a file system
    promises.  An access beyond the end of a page, or of the array, has no
    defined effect in C and ends with [Panic].

    [get_page] is two steps, the search under the spin lock and the rest: an
    interleaving of two processes is a sequence of such steps. *)

From stdpp Require Import base list.
From Stdlib Require Import ZArith Lia Bool.
From S2P Require Import Prelude Mm.

Module Pagecache.
Import Mm.

Definition NPAGECACHE : Z := 10240.

Record cached_page : Type := mkP {
  page : list Z;
  dev : Z;
  inum : Z;
  offset : Z;
  locked : bool;
  owner : Z
}.

(** What the cache calls: [readi] gives the value it returns and the bytes it
    stores. *)
Class Reader (F : Type) : Type := {
  begin_op : M F unit;
  end_op : M F unit;
  readi : Z -> Z -> Z -> Z -> M F (Z * list Z)
}.

Record pstate {F : Type} : Type := mkS {
  pages : list cached_page;
  total_count : Z;
  pc_lock : bool;
  fs : F;
  woken : list nat
}.
Arguments pstate : clear implicits.
Arguments mkS {F} _ _ _ _ _.

Definition set_lock (b : bool) (o : Z) (p : cached_page) : cached_page := mkP (page p) (dev p) (inum p) (offset p) b o.
Definition set_page (d : list Z) (p : cached_page) : cached_page := mkP d (dev p) (inum p) (offset p) (locked p) (owner p).
Definition set_key (d i o : Z) (p : cached_page) : cached_page := mkP (page p) d i o (locked p) (owner p).

Section Cache.
Context {F : Type} {R : Reader F}.
(** [thisproc()->pid] *)
Context (pid : Z).

Definition set_pages (l : list cached_page) (s : pstate F) : pstate F := mkS l (total_count s) (pc_lock s) (fs s) (woken s).
Definition set_count (c : Z) (s : pstate F) : pstate F := mkS (pages s) c (pc_lock s) (fs s) (woken s).
Definition set_pc_lock (b : bool) (s : pstate F) : pstate F := mkS (pages s) (total_count s) b (fs s) (woken s).
Definition set_fs (f : F) (s : pstate F) : pstate F := mkS (pages s) (total_count s) (pc_lock s) f (woken s).
Definition set_woken (w : list nat) (s : pstate F) : pstate F := mkS (pages s) (total_count s) (pc_lock s) (fs s) w.

Definition on_fs {A} : M F A -> M (pstate F) A := zoom fs set_fs.

Definition acquire : M (pstate F) unit := fun s => if pc_lock s then Block s else Ret tt (set_pc_lock true s).
Definition release : M (pstate F) unit := fun s => if pc_lock s then Ret tt (set_pc_lock false s) else Panic s.

Definition getp (k : nat) : M (pstate F) cached_page := fun s => match pages s !! k with Some p => Ret p s | None => Panic s end.
Definition updp (k : nat) (f : cached_page -> cached_page) : M (pstate F) unit := modify (fun s => set_pages (alter f k (pages s)) s).

Definition acquiresleep (k : nat) : M (pstate F) unit :=
  let* p := getp k in
  if locked p then block else updp k (set_lock true pid).

Definition releasesleep (k : nat) : M (pstate F) unit :=
  updp k (set_lock false 0) ;;
  modify (fun s => set_woken (woken s ++ [k]) s).

Definition holdingsleep (k : nat) : M (pstate F) bool :=
  let* p := getp k in ret (locked p && (owner p =? pid)).

(** [mem] is what the calls of [kalloc] return, the content of a page or NULL;
    [i] is the index of the loop. *)
Fixpoint init_loop (mem : list (option (list Z))) (i : nat) : M (pstate F) bool :=
  match mem with
  | [] => ret true
  | None :: _ => ret false
  | Some d :: mem' =>
      updp i (fun p => set_lock false 0 (set_page d p)) ;;
      init_loop mem' (S i)
  end.

Definition pagecache_init (mem : list (option (list Z))) : M (pstate F) unit :=
  modify (set_pc_lock false) ;;
  acquire ;;
  let* ok := init_loop mem 0 in
  if negb ok then ret tt else
  modify (set_count 0) ;;
  release.

Definition is_key (i o d : Z) (p : cached_page) : Prop := inum p = i /\ offset p = o /\ dev p = d.

#[global] Instance is_key_dec i o d p : Decision (is_key i o d p).
Proof. unfold is_key. apply _. Defined.

Definition find_page (i o d : Z) : M (pstate F) (option nat) :=
  let* b := gets pc_lock in
  if negb b then panic else
  gets (fun s => fst <$> list_find (is_key i o d) (pages s)).

(** [get_page] up to the release of the spin lock: the entry found, or the
    next entry in turn to be filled. *)
Definition get_page_search (d i off : Z) : M (pstate F) (nat + Z) :=
  let o := off - Z.rem off PGSIZE in
  acquire ;;
  let* res := find_page i o d in
  match res with
  | Some k => release ;; ret (inl k)
  | None =>
      let* c := gets total_count in
      modify (set_count (s32 (c + 1))) ;;
      release ;;
      ret (inr c)
  end.

(** [memset] and [readi] into the page at [k]. *)
Definition fill_page (k : nat) (d i o : Z) : M (pstate F) Z :=
  updp k (set_page (replicate 4096 0)) ;;
  on_fs begin_op ;;
  let* (n, b) := on_fs (readi d i o PGSIZE) in
  updp k (fun p => set_page (b ++ drop (length b) (page p)) p) ;;
  ret (s32 n).

(** The rest of [get_page]. *)
Definition get_page_take (d i off : Z) (r : nat + Z) : M (pstate F) (option nat) :=
  let o := off - Z.rem off PGSIZE in
  match r with
  | inl k => acquiresleep k ;; ret (Some k)
  | inr c =>
      let k := Z.to_nat c in
      acquiresleep k ;;
      let* c' := gets total_count in
      when (c' =? NPAGECACHE) (modify (set_count 0)) ;;
      let* n := fill_page k d i o in
      if n <? 0 then on_fs end_op ;; ret None else
      on_fs end_op ;;
      updp k (set_key d i o) ;;
      ret (Some k)
  end.

Definition get_page (d i off : Z) : M (pstate F) (option nat) :=
  let* r := get_page_search d i off in get_page_take d i off r.

(** The value returned and the bytes stored at [dest]. *)
Definition copy_page (d i off size dest_offset : Z) : M (pstate F) (Z * list Z) :=
  let* r := get_page d i off in
  match r with
  | None => ret (- ENOMEM, [])
  | Some k =>
      let* h := holdingsleep k in
      if negb h then panic else
      let* p := getp k in
      if negb ((0 <=? dest_offset) && (dest_offset + size <=? Z.of_nat (length (page p)))) then panic else
      releasesleep k ;;
      ret (0, take (Z.to_nat size) (drop (Z.to_nat dest_offset) (page p)))
  end.

Fixpoint copy_pages_loop (n : nat) (d i ioff size sz doff : Z) : M (pstate F) (Z * list Z) :=
  match n with
  | O => ret (0, [])
  | S n' =>
      let* (e, b) := copy_page d i ioff sz doff in
      if e <? 0 then ret (e, b) else
      let size' := u64 (size - sz) in
      let sz' := if PGSIZE <? size' then PGSIZE else size' in
      let* (e', b') := copy_pages_loop n' d i (s64 (ioff + PGSIZE)) size' sz' 0 in
      ret (e', b ++ b')
  end.

Definition copy_pages (d i size off : Z) : M (pstate F) (Z * list Z) :=
  let ioff := if off <? PGSIZE then 0 else Z.land off (Z.lnot (PGSIZE - 1)) in
  let doff := Z.land off (PGSIZE - 1) in
  let sz := if PGSIZE <? u64 (doff + size) then u64 (PGSIZE - doff) else size in
  let n := s32 (u64 (size + doff + PGSIZE - 1) / PGSIZE) in
  copy_pages_loop (Z.to_nat n) d i ioff size sz doff.

(** [addr] with [size] are the bytes [b]. *)
Definition update_page (off i d : Z) (b : list Z) : M (pstate F) unit :=
  acquire ;;
  let aligned := off - Z.rem off PGSIZE in
  let start := Z.rem off PGSIZE in
  let* res := find_page i aligned d in
  release ;;
  match res with
  | None => ret tt
  | Some k =>
      acquiresleep k ;;
      let* p := getp k in
      if negb ((0 <=? start) && (start + Z.of_nat (length b) <=? Z.of_nat (length (page p)))) then panic else
      updp k (fun p => set_page (take (Z.to_nat start) (page p) ++ b ++ drop (Z.to_nat start + length b) (page p)) p) ;;
      releasesleep k
  end.
End Cache.

(** * What a file system promises *)

Class ReaderLaws {F : Type} (R : Reader F) : Type := {
  content : F -> Z -> Z -> list Z;
  ready : F -> Prop;
  begin_op_ok f : ready f -> exists f', begin_op f = Ret tt f' /\ ready f' /\ forall d i, content f' d i = content f d i;
  end_op_ok f : ready f -> exists f', end_op f = Ret tt f' /\ ready f' /\ forall d i, content f' d i = content f d i;
  readi_ok f d i off n : ready f -> 0 <= off <= Z.of_nat (length (content f d i)) -> 0 <= n <= PGSIZE ->
    exists f', let b := take (Z.to_nat n) (drop (Z.to_nat off) (content f d i)) in
      readi d i off n f = Ret (Z.of_nat (length b), b) f' /\ ready f' /\ forall d i, content f' d i = content f d i;
  readi_beyond f d i off n : ready f -> Z.of_nat (length (content f d i)) < off ->
    exists f', readi d i off n f = Ret (-1, []) f' /\ ready f' /\ forall d i, content f' d i = content f d i
}.

(** [n] bytes of a file from [off] on, zeros behind its end. *)
Definition slice (c : list Z) (off n : nat) : list Z := take n (drop off c ++ replicate n 0).

Definition file_page (c : list Z) (o : Z) : list Z := slice c (Z.to_nat o) 4096.

Lemma length_slice c off n : length (slice c off n) = n.
Proof. unfold slice. rewrite length_take, length_app, length_replicate. lia. Qed.

Lemma lookup_slice c off n k : (k < n)%nat -> slice c off n !! k = Some (default 0 (c !! (off + k)%nat)).
Proof.
  intros Hk. unfold slice. rewrite lookup_take_lt by done.
  destruct (decide (k < length (drop off c))%nat) as [H|H].
  - rewrite lookup_app_l, lookup_drop by done. rewrite length_drop in H.
    destruct (lookup_lt_is_Some_2 c (off + k)%nat ltac:(lia)) as [x ->]. done.
  - rewrite lookup_app_r by lia. rewrite length_drop in *. rewrite lookup_replicate_2 by lia.
    by rewrite (lookup_ge_None_2 c (off + k)%nat) by lia.
Qed.

Lemma slice_eq c c' off off' n :
  (forall k, (k < n)%nat -> default 0 (c !! (off + k)%nat) = default 0 (c' !! (off' + k)%nat)) -> slice c off n = slice c' off' n.
Proof.
  intros H. apply list_eq. intros k. destruct (decide (k < n)%nat) as [Hk|Hk].
  - rewrite !lookup_slice by done. by rewrite H.
  - rewrite !lookup_ge_None_2 by (rewrite length_slice; lia). done.
Qed.

Lemma slice_slice c off n a m : (a + m <= n)%nat -> take m (drop a (slice c off n)) = slice c (off + a) m.
Proof.
  intros H. apply list_eq. intros k. destruct (decide (k < m)%nat) as [Hk|Hk].
  - rewrite lookup_take_lt, lookup_drop, !lookup_slice by lia. do 3 f_equal. lia.
  - rewrite (lookup_ge_None_2 (slice _ _ _)) by (rewrite length_slice; lia).
    apply lookup_ge_None_2. rewrite length_take. lia.
Qed.

Lemma slice_app c off n m : slice c off n ++ slice c (off + n) m = slice c off (n + m).
Proof.
  apply list_eq. intros k. destruct (decide (k < n)%nat) as [Hk|Hk].
  - rewrite lookup_app_l, !lookup_slice by (rewrite ?length_slice; lia). done.
  - rewrite lookup_app_r, length_slice by (rewrite length_slice; lia). destruct (decide (k - n < m)%nat).
    + rewrite !lookup_slice by lia. do 3 f_equal. lia.
    + rewrite !lookup_ge_None_2 by (rewrite length_slice; lia). done.
Qed.

Lemma slice_within c off n : (off + n <= length c)%nat -> slice c off n = take n (drop off c).
Proof. intros H. unfold slice. rewrite take_app_le; [done|]. rewrite length_drop. lia. Qed.

(** What [readi] stores over a page of zeros. *)
Lemma read_page c o (n : nat) : let b := take n (drop o c) in b ++ drop (length b) (replicate n 0) = slice c o n.
Proof.
  cbn zeta. apply list_eq. intros k. destruct (decide (k < n)%nat) as [Hk|Hk].
  - rewrite lookup_slice by done. set (b := take n (drop o c)). destruct (decide (k < length b)%nat) as [H|H].
    + rewrite lookup_app_l by done. unfold b in *. rewrite length_take, length_drop in H. rewrite lookup_take_lt, lookup_drop by lia.
      by destruct (lookup_lt_is_Some_2 c (o + k)%nat ltac:(lia)) as [x ->].
    + rewrite lookup_app_r, lookup_drop by lia. rewrite lookup_replicate_2 by lia. unfold b in H. rewrite length_take, length_drop in H.
      by rewrite (lookup_ge_None_2 c (o + k)%nat) by lia.
  - rewrite !lookup_ge_None_2; [done| |]; rewrite ?length_slice, ?length_app, ?length_drop, ?length_replicate, ?length_take, ?length_drop; lia.
Qed.

(** * Coherence *)

Section Coherence.
Context {F : Type} {R : Reader F} {RL : ReaderLaws R} (pid : Z).

(** Every entry in use holds what the files [C] hold; entries that were never
    used have inode number 0, which no file has. *)
Record coherent (C : Z -> Z -> list Z) (s : pstate F) : Prop := {
  co_len : Z.of_nat (length (pages s)) = NPAGECACHE;
  co_count : 0 <= total_count s < NPAGECACHE;
  co_lock : pc_lock s = false;
  co_page k p : pages s !! k = Some p -> locked p = false /\ length (page p) = 4096%nat;
  co_data k p : pages s !! k = Some p -> inum p <> 0 ->
    0 <= offset p /\ offset p mod PGSIZE = 0 /\ page p = file_page (C (dev p) (inum p)) (offset p);
  co_key k k' p p' : pages s !! k = Some p -> pages s !! k' = Some p' -> inum p <> 0 ->
    is_key (inum p) (offset p) (dev p) p' -> k = k'
}.

Definition cache_ok (s : pstate F) : Prop := coherent (content (fs s)) s /\ ready (fs s).

(** The files are as before. *)
Definition same_files (s s' : pstate F) : Prop := forall d i, content (fs s') d i = content (fs s) d i.

(** The entry [k] is held by this process and has the page of [o] of the file. *)
Definition holds (s s' : pstate F) (k : nat) (d i o : Z) : Prop :=
  exists p, pages s' !! k = Some p /\ locked p = true /\ owner p = pid /\ is_key i o d p /\
    page p = file_page (content (fs s) d i) o /\
    cache_ok (set_pages (<[k := set_lock false 0 p]> (pages s')) s') /\ same_files s s'.

Lemma pc_getp_run k p s : pages s !! k = Some p -> getp k s = Ret p (s : pstate F).
Proof. intros E. unfold getp. by rewrite E. Qed.

Lemma pc_updp_run k p f (s : pstate F) : pages s !! k = Some p -> updp k f s = Ret tt (set_pages (<[k := f p]> (pages s)) s).
Proof.
  intros E. unfold updp, modify. do 2 f_equal. apply list_eq. intros j. destruct (decide (j = k)) as [->|].
  - rewrite list_lookup_alter_eq, E. symmetry. apply list_lookup_insert_eq. by apply lookup_lt_Some in E.
  - by rewrite list_lookup_alter_ne, list_lookup_insert_ne by done.
Qed.

Lemma pc_acquiresleep_run k p (s : pstate F) :
  pages s !! k = Some p -> locked p = false -> acquiresleep pid k s = Ret tt (set_pages (<[k := set_lock true pid p]> (pages s)) s).
Proof.
  intros E Hl. unfold acquiresleep. rewrite (bind_run _ _ _ _ _ (pc_getp_run _ _ _ E)), Hl. by apply pc_updp_run.
Qed.

Lemma pc_releasesleep_run k p (s : pstate F) :
  pages s !! k = Some p ->
  exists w, releasesleep k s = Ret tt (set_woken w (set_pages (<[k := set_lock false 0 p]> (pages s)) s)).
Proof. intros E. unfold releasesleep. rewrite (bind_run _ _ _ _ _ (pc_updp_run _ _ _ _ E)). by eexists. Qed.

Lemma co_turn C (s : pstate F) : coherent C s -> 0 <= total_count s <= NPAGECACHE.
Proof. intros H. pose proof (co_count _ _ H). lia. Qed.

(** Replacing one entry. *)
Lemma coherent_insert C C' (s s' : pstate F) k q :
  coherent C s -> pages s' = <[k := q]> (pages s) -> 0 <= total_count s' < NPAGECACHE -> pc_lock s' = false ->
  (forall j r, j <> k -> pages s !! j = Some r -> inum r <> 0 ->
     file_page (C' (dev r) (inum r)) (offset r) = file_page (C (dev r) (inum r)) (offset r)) ->
  locked q = false -> length (page q) = 4096%nat ->
  (inum q <> 0 -> 0 <= offset q /\ offset q mod PGSIZE = 0 /\ page q = file_page (C' (dev q) (inum q)) (offset q)) ->
  (inum q <> 0 -> forall j r, j <> k -> pages s !! j = Some r -> ~ is_key (inum q) (offset q) (dev q) r) ->
  coherent C' s'.
Proof.
  intros [A B D E G H] Es Hc Hlk HCC Hl Hlen Hd Hk.
  assert (Hat : forall j r, <[k := q]> (pages s) !! j = Some r -> j = k /\ r = q \/ j <> k /\ pages s !! j = Some r).
  { intros j r Hj. apply list_lookup_insert_Some in Hj as [(-> & -> & _)|[? ?]]; auto. }
  rewrite <- Es in Hat. split; try done.
  - by rewrite Es, length_insert.
  - intros j r [[_ ->]|[_ Hj]]%Hat; [done|by eapply E].
  - intros j r [[_ ->]|[Hne Hj]]%Hat; [done|]. intros Hin. rewrite (HCC j r Hne Hj Hin). by eapply G.
  - intros j j' r r' [[-> ->]|[Hj Er]]%Hat [[-> ->]|[Hj' Er']]%Hat Hi Hkey; try done.
    + exfalso. by eapply Hk.
    + exfalso. destruct Hkey as (E1 & E2 & E3). rewrite <- E1 in Hi. apply (Hk Hi j r Hj Er). by split_and!.
    + by eapply H.
Qed.

Lemma find_page_run i o d s : pc_lock s = true -> find_page i o d s = Ret (fst <$> list_find (is_key i o d) (pages s)) (s : pstate F).
Proof. intros E. unfold find_page. run_step. by rewrite E. Qed.

Lemma set_pc_lock_twice (s : pstate F) : pc_lock s = false -> set_pc_lock false (set_pc_lock true s) = s.
Proof. destruct s; cbn. by intros ->. Qed.

(** The search changes nothing but the turn of the entries. *)
Lemma get_page_search_run d i off (s : pstate F) :
  pc_lock s = false -> 0 <= total_count s <= NPAGECACHE ->
  get_page_search d i off s =
  match list_find (is_key i (off - Z.rem off PGSIZE) d) (pages s) with
  | Some (k, _) => Ret (inl k) s
  | None => Ret (inr (total_count s)) (set_count (total_count s + 1) s)
  end.
Proof.
  intros Hl Hc. unfold get_page_search. assert (Ha : acquire s = Ret tt (set_pc_lock true s)) by (unfold acquire; by rewrite Hl).
  rewrite (bind_run _ _ _ _ _ Ha). rewrite (bind_run _ _ _ _ _ (find_page_run _ _ _ (set_pc_lock true s) eq_refl)). cbn [pages set_pc_lock].
  destruct (list_find _ (pages s)) as [[k p]|]; cbn [fmap option_fmap option_map fst].
  - assert (Hr : release (set_pc_lock true s) = Ret tt s) by (unfold release; cbn; by rewrite set_pc_lock_twice).
    by rewrite (bind_run _ _ _ _ _ Hr).
  - run_step. run_step. run_step. unfold ret. cbn [total_count set_pc_lock]. f_equal.
    rewrite s32_id by (unfold NPAGECACHE in *; lia). destruct s; cbn in *. by rewrite Hl.
Qed.

(** The page offset. *)
Definition base_of (off : Z) : Z := off - off mod PGSIZE.

Lemma base_of_rem off : 0 <= off -> off - Z.rem off PGSIZE = base_of off /\ 0 <= base_of off <= off.
Proof.
  intros H. unfold base_of, PGSIZE. rewrite Z.rem_mod_nonneg by lia. pose proof (Z.mod_pos_bound off 4096 ltac:(lia)).
  pose proof (Z.mod_le off 4096 H ltac:(lia)). lia.
Qed.

Lemma base_of_mod off : base_of off mod PGSIZE = 0.
Proof. unfold base_of, PGSIZE. by rewrite Zminus_mod, Z.mod_mod, Z.sub_diag by lia. Qed.

Lemma on_fs_run {A} (m : M F A) (s : pstate F) a f : m (fs s) = Ret a f -> on_fs m s = Ret a (set_fs f s).
Proof. intros E. unfold on_fs, zoom. by rewrite E. Qed.

(** Reading a page of a file into the entry [k]. *)
Lemma fill_page_run k p d i o (s : pstate F) :
  pages s !! k = Some p -> ready (fs s) -> 0 <= o -> locked p = true ->
  exists f', ready f' /\ (forall d i, content f' d i = content (fs s) d i) /\
    if decide (o <= Z.of_nat (length (content (fs s) d i)))
    then exists n, 0 <= n /\ fill_page k d i o s = Ret n (set_fs f' (set_pages (<[k := set_page (file_page (content (fs s) d i) o) p]> (pages s)) s))
    else fill_page k d i o s = Ret (-1) (set_fs f' (set_pages (<[k := set_page (replicate 4096 0) p]> (pages s)) s)).
Proof.
  intros E Hr Ho Hl. unfold fill_page. rewrite (bind_run _ _ _ _ _ (pc_updp_run _ _ _ _ E)).
  set (s1 := set_pages _ s). destruct (begin_op_ok (fs s1) Hr) as (f1 & E1 & R1 & C1).
  rewrite (bind_run _ _ _ _ _ (on_fs_run _ _ _ _ E1)). set (s2 := set_fs f1 s1).
  assert (Hp2 : pages s2 !! k = Some (set_page (replicate 4096 0) p)).
  { cbn. apply list_lookup_insert_eq. by apply lookup_lt_Some in E. }
  assert (HC : length (content f1 d i) = length (content (fs s) d i)) by by rewrite C1.
  case_decide as Hoff.
  - destruct (readi_ok f1 d i o PGSIZE R1 ltac:(lia) ltac:(unfold PGSIZE; lia)) as (f2 & E2 & R2 & C2). cbn zeta in E2.
    set (b := take (Z.to_nat PGSIZE) (drop (Z.to_nat o) (content f1 d i))) in *.
    exists f2. split; [done|]. split; [intros; by rewrite C2, C1|]. exists (Z.of_nat (length b)). split; [lia|].
    rewrite (bind_run _ _ _ _ _ (on_fs_run _ s2 _ _ E2)). rewrite (bind_run _ _ _ _ _ (pc_updp_run k _ _ (set_fs f2 s2) Hp2)).
    unfold ret. cbn [page set_page].
    assert (Hb : (length b <= 4096)%nat) by (unfold b; rewrite length_take; unfold PGSIZE; lia). rewrite s32_id by lia.
    f_equal. unfold s2, s1, set_fs, set_pages. cbn. f_equal. rewrite list_insert_insert_eq. f_equal.
    unfold set_page. cbn. f_equal. unfold file_page. rewrite <- C1. apply (read_page (content f1 d i) (Z.to_nat o) 4096).
  - destruct (readi_beyond f1 d i o PGSIZE R1 ltac:(lia)) as (f2 & E2 & R2 & C2).
    exists f2. split; [done|]. split; [intros; by rewrite C2, C1|].
    rewrite (bind_run _ _ _ _ _ (on_fs_run _ s2 _ _ E2)). rewrite (bind_run _ _ _ _ _ (pc_updp_run k _ _ (set_fs f2 s2) Hp2)).
    unfold ret. f_equal. unfold s2, s1, set_fs, set_pages. cbn. f_equal. by rewrite list_insert_insert_eq.
Qed.
Lemma find_miss i o d (s : pstate F) j r :
  list_find (is_key i o d) (pages s) = None -> pages s !! j = Some r -> ~ is_key i o d r.
Proof. intros H Hj. apply list_find_None in H. rewrite Forall_forall in H. apply H. by eapply list_elem_of_lookup_2. Qed.

(** The next entry in turn, taken and filled. *)
Lemma get_page_fill d i off (s : pstate F) :
  cache_ok s -> i <> 0 -> 0 <= off -> list_find (is_key i (base_of off) d) (pages s) = None ->
  let k := Z.to_nat (total_count s) in
  if decide (base_of off <= Z.of_nat (length (content (fs s) d i)))
  then exists s', get_page_take pid d i off (inr (total_count s)) (set_count (total_count s + 1) s) = Ret (Some k) s' /\ holds s s' k d i (base_of off)
  else exists p s', get_page_take pid d i off (inr (total_count s)) (set_count (total_count s + 1) s) = Ret None s' /\
    pages s !! k = Some p /\ pages s' = <[k := set_page (replicate 4096 0) (set_lock true pid p)]> (pages s).
Proof.
  intros [HC Hrd] Hi Hoff Hmiss k. destruct (base_of_rem off Hoff) as [Eb Hb]. unfold get_page_take. rewrite Eb.
  pose proof (co_len _ _ HC) as Hlen. pose proof (co_count _ _ HC) as Hcnt.
  destruct (lookup_lt_is_Some_2 (pages s) k ltac:(lia)) as [p Ep]. destruct (co_page _ _ HC _ _ Ep) as [Hl _].
  cbv zeta. fold k. rewrite (bind_run _ _ _ _ _ (pc_acquiresleep_run k p (set_count _ s) Ep Hl)).
  set (s1 := set_pages _ _). run_step.
  set (c := if total_count s1 =? NPAGECACHE then 0 else total_count s1).
  assert (Hc : 0 <= c < NPAGECACHE).
  { unfold c. destruct (Z.eqb_spec (total_count s1) NPAGECACHE); [done|]. cbn in *. unfold NPAGECACHE in *. lia. }
  assert (Ew : when (total_count s1 =? NPAGECACHE) (modify (set_count 0)) s1 = Ret tt (set_count c s1)).
  { unfold c. destruct (total_count s1 =? NPAGECACHE); [done|]. by destruct s1. }
  rewrite (bind_run _ _ _ _ _ Ew).
  assert (Ep1 : pages (set_count c s1) !! k = Some (set_lock true pid p)) by (apply list_lookup_insert_eq; by apply lookup_lt_Some in Ep).
  destruct (fill_page_run k _ d i (base_of off) (set_count c s1) Ep1 Hrd (proj1 Hb) eq_refl) as (f1 & R1 & C1 & H1).
  change (fs (set_count c s1)) with (fs s) in *. case_decide as Hsz.
  - destruct H1 as (n & Hn & E1). rewrite (bind_run _ _ _ _ _ E1). destruct (Z.ltb_spec n 0); [lia|].
    set (s2 := set_fs f1 _) in *. destruct (end_op_ok (fs s2) R1) as (f2 & E2 & R2 & C2).
    rewrite (bind_run _ _ _ _ _ (on_fs_run _ _ _ _ E2)).
    set (q := set_page (file_page (content (fs s) d i) (base_of off)) (set_lock true pid p)).
    assert (Eq : pages (set_fs f2 s2) !! k = Some q).
    { apply list_lookup_insert_eq. cbn. rewrite length_insert. by apply lookup_lt_Some in Ep. }
    rewrite (bind_run _ _ _ _ _ (pc_updp_run _ _ _ _ Eq)). eexists. split; [reflexivity|].
    exists (set_key d i (base_of off) q). unfold s2, s1. cbn [pages set_pages set_fs set_count fs].
    split. { apply list_lookup_insert_eq. rewrite !length_insert. by apply lookup_lt_Some in Ep. }
    split; [done|]. split; [done|]. split; [done|]. split; [done|]. split.
    + split; cbn [fs set_pages set_fs]; [|done].
      eapply (coherent_insert _ _ s _ k (set_lock false 0 (set_key d i (base_of off) q))); try done.
      * cbn [pages set_pages set_fs]. by rewrite !list_insert_insert_eq.
      * exact (co_lock _ _ HC).
      * intros j r _ _ _. cbn in C2. by rewrite C2, C1.
      * cbn. unfold file_page. by rewrite length_slice.
      * intros _. cbn in *. rewrite C2, C1. split; [lia|]. split; [by apply base_of_mod|done].
      * intros _ j r _ Hj. by apply (find_miss _ _ _ _ _ _ Hmiss Hj).
    + intros d' i'. cbn in *. by rewrite C2, C1.
  - rewrite (bind_run _ _ _ _ _ H1). cbn [Z.ltb Z.compare]. set (s2 := set_fs f1 _) in *.
    destruct (end_op_ok (fs s2) R1) as (f2 & E2 & R2 & C2). rewrite (bind_run _ _ _ _ _ (on_fs_run _ _ _ _ E2)).
    exists p. eexists. split; [reflexivity|]. split; [done|]. cbn. by rewrite list_insert_insert_eq.
Qed.

Lemma get_page_run d i off (s : pstate F) :
  cache_ok s -> i <> 0 -> 0 <= off -> base_of off <= Z.of_nat (length (content (fs s) d i)) ->
  exists k s', get_page pid d i off s = Ret (Some k) s' /\ holds s s' k d i (base_of off).
Proof.
  intros HS Hi Hoff Hsz. pose proof HS as [HC Hrd]. destruct (base_of_rem off Hoff) as [Eb Hb]. unfold get_page.
  pose proof (get_page_search_run d i off s (co_lock _ _ HC) (co_turn _ _ HC)) as Hs. rewrite Eb in Hs.
  destruct (list_find _ (pages s)) as [[k p]|] eqn:Ef.
  - rewrite (bind_run _ _ _ _ _ Hs). apply list_find_Some in Ef as (Ep & Hkey & _). destruct (co_page _ _ HC _ _ Ep) as [Hl Hlen].
    unfold get_page_take. rewrite (bind_run _ _ _ _ _ (pc_acquiresleep_run k p s Ep Hl)). exists k. eexists. split; [reflexivity|].
    pose proof Hkey as (E1 & E2 & E3). destruct (co_data _ _ HC _ _ Ep ltac:(congruence)) as (_ & _ & Hpg). rewrite E1, E2, E3 in Hpg.
    exists (set_lock true pid p). cbn [pages set_pages]. split; [apply list_lookup_insert_eq; by apply lookup_lt_Some in Ep|].
    do 4 (split; [done|]). split; [|done]. split; cbn [fs set_pages]; [|done].
    eapply (coherent_insert _ _ s _ k (set_lock false 0 p)); try done; [cbn [pages set_pages]; by rewrite list_insert_insert_eq|apply HC|apply HC| |].
    { intros Hin. exact (co_data _ _ HC _ _ Ep Hin). }
    intros Hin j r Hj Er Hk. apply Hj. symmetry. by eapply (co_key _ _ HC k j).
  - rewrite (bind_run _ _ _ _ _ Hs). pose proof (get_page_fill d i off s HS Hi Hoff Ef) as H. cbv zeta in H.
    rewrite decide_True in H by done. destruct H as (s' & E & H). by exists (Z.to_nat (total_count s)), s'.
Qed.

Lemma pc_copy_page_run d i off size doff (s : pstate F) :
  cache_ok s -> i <> 0 -> 0 <= off -> base_of off <= Z.of_nat (length (content (fs s) d i)) ->
  0 <= size -> 0 <= doff -> doff + size <= PGSIZE ->
  exists s', copy_page pid d i off size doff s = Ret (0, slice (content (fs s) d i) (Z.to_nat (base_of off + doff)) (Z.to_nat size)) s' /\
    cache_ok s' /\ same_files s s'.
Proof.
  intros HS Hi Hoff Hsz Hsize Hd Hfit. unfold PGSIZE in Hfit. destruct (base_of_rem off Hoff) as [_ Hb].
  destruct (get_page_run d i off s HS Hi Hoff Hsz) as (k & s1 & E1 & p & Ep & Hl & Ho & Hkey & Hpg & HS1 & Hsame).
  unfold copy_page. rewrite (bind_run _ _ _ _ _ E1).
  assert (Eh : holdingsleep pid k s1 = Ret true s1).
  { unfold holdingsleep. rewrite (bind_run _ _ _ _ _ (pc_getp_run _ _ _ Ep)), Hl, Ho, Z.eqb_refl. done. }
  rewrite (bind_run _ _ _ _ _ Eh). cbn [negb]. rewrite (bind_run _ _ _ _ _ (pc_getp_run _ _ _ Ep)).
  assert (Hlen : length (page p) = 4096%nat) by (rewrite Hpg; apply length_slice). rewrite Hlen.
  destruct (Z.leb_spec 0 doff); [|lia]. destruct (Z.leb_spec (doff + size) (Z.of_nat 4096)); [|lia]. cbn [negb andb].
  destruct (pc_releasesleep_run _ _ _ Ep) as [w Er]. rewrite (bind_run _ _ _ _ _ Er).
  eexists. split; [|split].
  - unfold ret. do 2 f_equal. rewrite Hpg. unfold file_page. rewrite slice_slice by lia. f_equal. lia.
  - destruct HS1 as [[A1 A2 A3 A4 A5 A6] Hr]. by split.
  - exact Hsame.
Qed.
Lemma base_of_aligned o : o mod PGSIZE = 0 -> base_of o = o.
Proof. unfold base_of. lia. Qed.

Lemma copy_pages_loop_run d i (Hi : i <> 0) (n : nat) : forall ioff size doff (s : pstate F),
  cache_ok s -> 0 <= ioff -> ioff mod PGSIZE = 0 -> ioff + PGSIZE * Z.of_nat n < 2 ^ 63 -> 0 <= size < 2 ^ 63 -> 0 <= doff < PGSIZE ->
  doff + size <= PGSIZE * Z.of_nat n -> (n = 0%nat \/ ioff + PGSIZE * (Z.of_nat n - 1) <= Z.of_nat (length (content (fs s) d i))) ->
  exists s', copy_pages_loop pid n d i ioff size (Z.min size (PGSIZE - doff)) doff s =
      Ret (0, slice (content (fs s) d i) (Z.to_nat (ioff + doff)) (Z.to_nat size)) s' /\ cache_ok s' /\ same_files s s'.
Proof.
  unfold PGSIZE. induction n as [|n IH]; intros ioff size doff s HS Ho Ha Hov Hsz Hd Hfit Hlast; cbn [copy_pages_loop].
  { exists s. split; [|done]. assert (size = 0) as -> by lia. done. }
  set (sz := Z.min size (4096 - doff)).
  destruct (pc_copy_page_run d i ioff sz doff s HS Hi Ho) as (s1 & E1 & HS1 & Hsame); try (unfold PGSIZE; lia).
  { rewrite base_of_aligned by done. lia. }
  rewrite base_of_aligned in E1 by done. rewrite (bind_run _ _ _ _ _ E1). cbn [Z.ltb Z.compare].
  unfold PGSIZE. rewrite u64_id by lia.
  replace (if 4096 <? size - sz then 4096 else size - sz) with (Z.min (size - sz) (4096 - 0)) by (destruct (Z.ltb_spec 4096 (size - sz)); lia).
  destruct (decide (n = 0%nat)) as [->|Hn].
  - cbn [copy_pages_loop]. run_step. exists s1. split; [|done]. unfold ret. rewrite app_nil_r. do 4 f_equal. lia.
  - rewrite s64_id by lia.
    destruct (IH (ioff + 4096) (size - sz) 0 s1) as (s2 & E2 & HS2 & Hsame2); try done; try lia.
    { rewrite Zplus_mod, Ha. done. } { right. rewrite (Hsame d i). lia. }
    rewrite (bind_run _ _ _ _ _ E2). exists s2. split; [|split; [done|]].
    + unfold ret. do 2 f_equal. rewrite (Hsame d i). destruct (decide (size - sz = 0)) as [Ez|Hnz].
      * rewrite Ez. change (Z.to_nat 0) with 0%nat. unfold slice at 2. cbn [take]. rewrite app_nil_r. f_equal. lia.
      * replace (Z.to_nat (ioff + 4096 + 0)) with (Z.to_nat (ioff + doff) + Z.to_nat sz)%nat by lia.
        rewrite slice_app. f_equal. lia.
    + intros d' i'. by rewrite Hsame2, Hsame.
Qed.

(** The file after a write of [b] at [off]. *)
Definition rewritten (c c' : list Z) (off : nat) (b : list Z) : Prop :=
  forall k, default 0 (c' !! k) =
    if decide (off <= k < off + length b)%nat then default 0 (b !! (k - off)%nat) else default 0 (c !! k).

Definition file_written (C C' : Z -> Z -> list Z) (d i off : Z) (b : list Z) : Prop :=
  (forall d' i', (d', i') <> (d, i) -> C' d' i' = C d' i') /\ rewritten (C d i) (C' d i) (Z.to_nat off) b.

(** A page that the bytes do not reach. *)
Lemma page_untouched c c' off b o :
  rewritten c c' off b -> (o + 4096 <= off \/ off + length b <= o)%nat -> slice c' o 4096 = slice c o 4096.
Proof. intros H Ho. apply slice_eq. intros k Hk. rewrite H. by rewrite decide_False by lia. Qed.

(** The page that the bytes lie in. *)
Lemma page_rewritten c c' off b o :
  rewritten c c' off b -> (o <= off)%nat -> (off + length b <= o + 4096)%nat ->
  take (off - o) (slice c o 4096) ++ b ++ drop (off - o + length b) (slice c o 4096) = slice c' o 4096.
Proof.
  intros H Ho Hfit. apply list_eq. intros k. destruct (decide (k < 4096)%nat) as [Hk|Hk].
  - rewrite lookup_slice, H by done. destruct (decide (k < off - o)%nat) as [H1|H1].
    + rewrite lookup_app_l by (rewrite length_take, length_slice; lia). rewrite lookup_take_lt, lookup_slice by lia.
      by rewrite decide_False by lia.
    + rewrite lookup_app_r by (rewrite length_take, length_slice; lia). rewrite length_take_le by (rewrite length_slice; lia).
      destruct (decide (k < off - o + length b)%nat) as [H2|H2].
      * rewrite lookup_app_l by lia. rewrite decide_True by lia. replace (k - (off - o))%nat with (o + k - off)%nat by lia.
        by destruct (lookup_lt_is_Some_2 b (o + k - off)%nat ltac:(lia)) as [x ->].
      * rewrite lookup_app_r, lookup_drop by lia. rewrite decide_False by lia.
        replace (off - o + length b + (k - (off - o) - length b))%nat with k by lia. by rewrite lookup_slice.
  - rewrite !lookup_ge_None_2; [done| |]; rewrite ?length_app, ?length_take, ?length_drop, !length_slice; lia.
Qed.

(** Entries of other pages stay right. *)
Lemma entry_untouched C C' d i off b p :
  file_written C C' d i off b -> 0 <= off -> off mod PGSIZE + Z.of_nat (length b) <= PGSIZE ->
  0 <= offset p -> offset p mod PGSIZE = 0 -> ~ is_key i (base_of off) d p ->
  file_page (C' (dev p) (inum p)) (offset p) = file_page (C (dev p) (inum p)) (offset p).
Proof.
  intros [Hoth Hnew] Ho Hfit H0 Hal Hk. destruct (decide ((dev p, inum p) = (d, i))) as [E|E]; [|by rewrite Hoth].
  injection E as E1 E2. rewrite E1, E2. unfold file_page. apply (page_untouched _ _ _ _ _ Hnew).
  assert (Hne : offset p <> base_of off) by (intros E; by apply Hk).
  unfold base_of, PGSIZE in *. pose proof (Z.div_mod off 4096 ltac:(lia)). pose proof (Z.div_mod (offset p) 4096 ltac:(lia)).
  pose proof (Z.mod_pos_bound off 4096 ltac:(lia)).
  assert (offset p / 4096 <> off / 4096) by lia. lia.
Qed.

(** [update_page] after a write that lies in one page: the cache agrees with
    the file again. *)
Lemma update_page_run C C' off d i (b : list Z) (s : pstate F) :
  coherent C s -> i <> 0 -> 0 <= off -> off mod PGSIZE + Z.of_nat (length b) <= PGSIZE -> file_written C C' d i off b ->
  exists s', update_page pid off i d b s = Ret tt s' /\ coherent C' s' /\ fs s' = fs s.
Proof.
  intros HC Hi Ho Hfit HW. destruct (base_of_rem off Ho) as [Eb Hb]. unfold update_page.
  assert (Ha : acquire s = Ret tt (set_pc_lock true s)) by (unfold acquire; by rewrite (co_lock _ _ HC)).
  rewrite (bind_run _ _ _ _ _ Ha). cbv zeta. rewrite Eb.
  rewrite (bind_run _ _ _ _ _ (find_page_run _ _ _ (set_pc_lock true s) eq_refl)). cbn [pages set_pc_lock].
  assert (Hr : release (set_pc_lock true s) = Ret tt s) by (unfold release; cbn; by rewrite set_pc_lock_twice by apply HC).
  rewrite (bind_run _ _ _ _ _ Hr).
  destruct (list_find _ (pages s)) as [[k p]|] eqn:Ef; cbn [fmap option_fmap option_map fst].
  - apply list_find_Some in Ef as (Ep & Hkey & _). destruct (co_page _ _ HC _ _ Ep) as [Hl Hlen].
    rewrite (bind_run _ _ _ _ _ (pc_acquiresleep_run k p s Ep Hl)). set (s1 := set_pages _ s).
    pose proof Hkey as (K1 & K2 & K3). destruct (co_data _ _ HC _ _ Ep ltac:(congruence)) as (_ & _ & Hpg).
    assert (Ep1 : pages s1 !! k = Some (set_lock true pid p)) by (apply list_lookup_insert_eq; by apply lookup_lt_Some in Ep).
    rewrite (bind_run _ _ _ _ _ (pc_getp_run _ _ _ Ep1)). cbn [page set_lock]. rewrite Hlen, Z.rem_mod_nonneg by (unfold PGSIZE; lia).
    pose proof (Z.mod_pos_bound off PGSIZE eq_refl) as Hm. unfold PGSIZE in Hfit, Hm |- *.
    destruct (Z.leb_spec 0 (off mod 4096)); [|lia]. destruct (Z.leb_spec (off mod 4096 + Z.of_nat (length b)) (Z.of_nat 4096)); [|lia].
    cbn [negb andb]. rewrite (bind_run _ _ _ _ _ (pc_updp_run _ _ _ _ Ep1)). set (s2 := set_pages _ s1). cbn [page set_lock] in s2.
    assert (Ep2 : pages s2 !! k = Some (set_page (file_page (C' d i) (base_of off)) (set_lock true pid p))).
    { unfold s2. cbn [pages set_pages]. rewrite list_lookup_insert_eq by by apply lookup_lt_Some in Ep1. do 2 f_equal.
      rewrite Hpg, K1, K2, K3. unfold file_page.
      replace (Z.to_nat (off mod 4096)) with (Z.to_nat off - Z.to_nat (base_of off))%nat by (unfold base_of, PGSIZE in *; lia).
      apply page_rewritten; [apply HW|lia|]. unfold base_of, PGSIZE in *. lia. }
    destruct (pc_releasesleep_run _ _ _ Ep2) as [w Erl]. rewrite Erl. eexists. split; [reflexivity|]. split; [|done].
    apply (coherent_insert C C' s _ k (set_lock false 0 (set_page (file_page (C' d i) (base_of off)) (set_lock true pid p))) HC); try done.
    + cbn [pages set_woken set_pages s2 s1]. by rewrite !list_insert_insert_eq.
    + apply HC.
    + apply HC.
    + intros j r Hj Er Hin. destruct (co_data _ _ HC _ _ Er Hin) as (P1 & P2 & _). apply (entry_untouched C C' d i off b); try done.
      intros (Q1 & Q2 & Q3). apply Hj. symmetry. apply (co_key _ _ HC k j p r Ep Er); [congruence|]. by rewrite K1, K2, K3.
    + apply length_slice.
    + intros _. cbn [page dev inum offset set_lock set_page]. rewrite K1, K2, K3. split; [lia|]. split; [apply base_of_mod|done].
    + cbn [dev inum offset set_lock set_page]. intros Hin j r Hj Er Hk. apply Hj. symmetry. by apply (co_key _ _ HC k j p r Ep Er).
  - exists s. split; [done|]. split; [|done]. destruct HC as [A1 A2 A3 A4 A5 A6]. split; try done.
    intros k p Ep Hin. destruct (A5 k p Ep Hin) as (P1 & P2 & P3). split; [done|]. split; [done|].
    rewrite P3. symmetry. apply (entry_untouched C C' d i off b); try done. by eapply find_miss.
Qed.
Lemma page_offsets off : 0 <= off ->
  (if off <? PGSIZE then 0 else Z.land off (Z.lnot (PGSIZE - 1))) = base_of off /\ Z.land off (PGSIZE - 1) = off mod PGSIZE.
Proof.
  intros H. unfold base_of, PGSIZE. change (4096 - 1) with (Z.ones 12). rewrite Z.land_ones by lia. split; [|done].
  destruct (Z.ltb_spec off 4096); [by rewrite Z.mod_small, Z.sub_diag by lia|].
  rewrite <- Z.ldiff_land, Z.ldiff_ones_r, Z.shiftl_mul_pow2, Z.shiftr_div_pow2 by lia. change (2 ^ 12) with 4096.
  pose proof (Z.div_mod off 4096 ltac:(lia)). lia.
Qed.

(** [copy_pages] of a range whose last page begins in the file. *)
Lemma copy_pages_run d i off size (s : pstate F) :
  cache_ok s -> i <> 0 -> 0 <= off -> 0 <= size -> off + size < 2 ^ 42 -> base_of (off + size) <= Z.of_nat (length (content (fs s) d i)) ->
  exists s', copy_pages pid d i size off s = Ret (0, slice (content (fs s) d i) (Z.to_nat off) (Z.to_nat size)) s' /\ cache_ok s' /\ same_files s s'.
Proof.
  intros HS Hi Ho Hs Hov Hlast. unfold copy_pages. destruct (page_offsets off Ho) as [-> ->]. cbv zeta.
  pose proof (Z.mod_pos_bound off PGSIZE eq_refl) as Hm. destruct (base_of_rem off Ho) as [_ Hb].
  pose proof (base_of_mod off) as Hbm. assert (Eo : base_of off + off mod PGSIZE = off) by (unfold base_of; lia).
  unfold PGSIZE in *. rewrite !u64_id by lia. set (m := off mod 4096) in *.
  replace (if 4096 <? m + size then 4096 - m else size) with (Z.min size (4096 - m)) by (destruct (Z.ltb_spec 4096 (m + size)); lia).
  set (n := (size + m + 4096 - 1) / 4096). pose proof (Z.div_mod (size + m + 4096 - 1) 4096 ltac:(lia)) as Dn.
  pose proof (Z.mod_pos_bound (size + m + 4096 - 1) 4096 ltac:(lia)). fold n in Dn. rewrite s32_id by lia.
  destruct (copy_pages_loop_run d i Hi (Z.to_nat n) (base_of off) size m s HS) as (s' & E & H'); try (unfold PGSIZE; lia).
  { destruct (decide (n = 0)); [left; lia|right]. unfold base_of, PGSIZE in *.
    pose proof (Z.div_mod (off + size) 4096 ltac:(lia)). pose proof (Z.mod_pos_bound (off + size) 4096 ltac:(lia)).
    pose proof (Z.div_mod off 4096 ltac:(lia)). unfold m in *. lia. }
  exists s'. rewrite Eo in E. by split.
Qed.

(** * Where the cache goes wrong *)

(** A page behind the end of the file: the caller gets an error, and the entry
    stays locked and is zeroed under its old key. *)
Lemma get_page_failure_locks d i off (s : pstate F) :
  cache_ok s -> i <> 0 -> 0 <= off -> list_find (is_key i (base_of off) d) (pages s) = None ->
  Z.of_nat (length (content (fs s) d i)) < base_of off ->
  exists p s', get_page pid d i off s = Ret None s' /\ pages s !! Z.to_nat (total_count s) = Some p /\
    pages s' = <[Z.to_nat (total_count s) := set_page (replicate 4096 0) (set_lock true pid p)]> (pages s).
Proof.
  intros HS Hi Ho Hmiss Hend. pose proof HS as [HC _]. unfold get_page.
  pose proof (get_page_search_run d i off s (co_lock _ _ HC) (co_turn _ _ HC)) as E.
  destruct (base_of_rem off Ho) as [Eb _]. rewrite Eb, Hmiss in E. rewrite (bind_run _ _ _ _ _ E).
  pose proof (get_page_fill d i off s HS Hi Ho Hmiss) as H. cbv zeta in H. rewrite decide_False in H by lia.
  destruct H as (p & s' & H1 & H2 & H3). by exists p, s'.
Qed.

(** Bytes that reach over the end of a cached page are stored outside of it. *)
Lemma update_page_overruns C d i off b k p (s : pstate F) :
  coherent C s -> 0 <= off -> list_find (is_key i (base_of off) d) (pages s) = Some (k, p) ->
  PGSIZE < off mod PGSIZE + Z.of_nat (length b) -> exists s', update_page pid off i d b s = Panic s'.
Proof.
  intros HC Ho Ef Hlong. destruct (base_of_rem off Ho) as [Eb Hb]. unfold update_page.
  assert (Ha : acquire s = Ret tt (set_pc_lock true s)) by (unfold acquire; by rewrite (co_lock _ _ HC)).
  rewrite (bind_run _ _ _ _ _ Ha). cbv zeta. rewrite Eb.
  rewrite (bind_run _ _ _ _ _ (find_page_run _ _ _ (set_pc_lock true s) eq_refl)). cbn [pages set_pc_lock].
  assert (Hr : release (set_pc_lock true s) = Ret tt s) by (unfold release; cbn; by rewrite set_pc_lock_twice by apply HC).
  rewrite (bind_run _ _ _ _ _ Hr), Ef. cbn [fmap option_fmap option_map fst].
  apply list_find_Some in Ef as (Ep & _ & _). destruct (co_page _ _ HC _ _ Ep) as [Hl Hlen].
  rewrite (bind_run _ _ _ _ _ (pc_acquiresleep_run k p s Ep Hl)). set (s1 := set_pages _ s).
  assert (Ep1 : pages s1 !! k = Some (set_lock true pid p)) by (apply list_lookup_insert_eq; by apply lookup_lt_Some in Ep).
  rewrite (bind_run _ _ _ _ _ (pc_getp_run _ _ _ Ep1)). cbn [page set_lock]. rewrite Hlen, Z.rem_mod_nonneg by (unfold PGSIZE; lia).
  unfold PGSIZE in *. destruct (Z.leb_spec (off mod 4096 + Z.of_nat (length b)) (Z.of_nat 4096)); [lia|].
  rewrite andb_false_r. by eexists.
Qed.

(** Two processes: the first has found its page and waits for it while the
    second fills the same entry with another page.  The first goes on with the
    page of the second. *)
Lemma waiter_gets_other_page d1 i1 o1 d2 i2 o2 k p (s : pstate F) :
  cache_ok s -> list_find (is_key i1 (base_of o1) d1) (pages s) = Some (k, p) ->
  i2 <> 0 -> 0 <= o2 -> list_find (is_key i2 (base_of o2) d2) (pages s) = None -> Z.to_nat (total_count s) = k ->
  base_of o2 <= Z.of_nat (length (content (fs s) d2 i2)) -> 0 <= o1 ->
  exists s2 s3 q, get_page_search d1 i1 o1 s = Ret (inl k) s /\
    (let* _ := get_page pid d2 i2 o2 in releasesleep k) s = Ret tt s2 /\
    get_page_take pid d1 i1 o1 (inl k) s2 = Ret (Some k) s3 /\
    pages s3 !! k = Some q /\ is_key i2 (base_of o2) d2 q /\ page q = file_page (content (fs s) d2 i2) (base_of o2).
Proof.
  intros HS Hf Hi2 Ho2 Hmiss Hk Hsz Ho1. pose proof HS as [HC _].
  pose proof (get_page_search_run d1 i1 o1 s (co_lock _ _ HC) (co_turn _ _ HC)) as E1.
  destruct (base_of_rem o1 Ho1) as [Eb1 _]. rewrite Eb1, Hf in E1.
  pose proof (get_page_search_run d2 i2 o2 s (co_lock _ _ HC) (co_turn _ _ HC)) as E2.
  destruct (base_of_rem o2 Ho2) as [Eb2 _]. rewrite Eb2, Hmiss in E2.
  pose proof (get_page_fill d2 i2 o2 s HS Hi2 Ho2 Hmiss) as H. cbv zeta in H. rewrite decide_True, Hk in H by done.
  destruct H as (s1 & E3 & q & Eq & Hql & Hqo & Hkey & Hpg & _ & _).
  assert (Eg : get_page pid d2 i2 o2 s = Ret (Some k) s1) by (unfold get_page; by rewrite (bind_run _ _ _ _ _ E2)).
  destruct (pc_releasesleep_run _ _ _ Eq) as [w Er]. set (s2 := set_woken w _) in Er.
  assert (Eq2 : pages s2 !! k = Some (set_lock false 0 q)) by (apply list_lookup_insert_eq; by apply lookup_lt_Some in Eq).
  pose proof (pc_acquiresleep_run k _ s2 Eq2 eq_refl) as E4. eexists s2, _, (set_lock true pid q).
  split; [exact E1|]. split; [by rewrite (bind_run _ _ _ _ _ Eg)|].
  split; [unfold get_page_take; rewrite (bind_run _ _ _ _ _ E4); reflexivity|].
  split; [apply list_lookup_insert_eq; by apply lookup_lt_Some in Eq2|]. by split.
Qed.

(** Two processes that miss while the last entry is in turn: the second takes
    the entry behind the end of the array. *)
Lemma turn_overruns d1 i1 o1 d2 i2 o2 (s : pstate F) :
  cache_ok s -> total_count s = NPAGECACHE - 1 -> 0 <= o1 -> 0 <= o2 ->
  list_find (is_key i1 (base_of o1) d1) (pages s) = None -> list_find (is_key i2 (base_of o2) d2) (pages s) = None ->
  exists s1, get_page_search d1 i1 o1 s = Ret (inr (NPAGECACHE - 1)) s1 /\ exists s2, get_page pid d2 i2 o2 s1 = Panic s2.
Proof.
  intros [HC _] Ec Ho1 Ho2 H1 H2. pose proof (get_page_search_run d1 i1 o1 s (co_lock _ _ HC) (co_turn _ _ HC)) as E1.
  destruct (base_of_rem o1 Ho1) as [Eb1 _]. rewrite Eb1, H1, Ec in E1. eexists. split; [exact E1|].
  unfold get_page. set (s1 := set_count _ s).
  assert (E2 : get_page_search d2 i2 o2 s1 = Ret (inr NPAGECACHE) (set_count (NPAGECACHE + 1) s1)).
  { rewrite get_page_search_run; [|exact (co_lock _ _ HC)|cbn [total_count set_count s1]; unfold NPAGECACHE; lia].
    destruct (base_of_rem o2 Ho2) as [-> _]. cbn [pages set_count s1]. by rewrite H2. }
  rewrite (bind_run _ _ _ _ _ E2). unfold get_page_take, acquiresleep.
  assert (En : pages s !! Z.to_nat NPAGECACHE = None) by (apply lookup_ge_None_2; pose proof (co_len _ _ HC); lia).
  unfold bind at 1 2, getp. cbn [pages set_count s1]. rewrite En. by eexists.
Qed.
End Coherence.

(** C15: the page cache is transparent.  While its entries agree with the files,
    [copy_pages] gives the bytes of the file from [off] on, zeros behind its
    end, whichever pages were cached, and the entries agree again; and after a
    write to a file that stays within one page, [update_page] makes the entries
    agree with the file that was written. *)
Theorem page_cache_transparent {F : Type} {R : Reader F} {RL : ReaderLaws R} pid d i (s : pstate F) (HS : cache_ok s) (Hi : i <> 0) :
  (forall off size, 0 <= off -> 0 <= size -> off + size < 2 ^ 42 -> base_of (off + size) <= Z.of_nat (length (content (fs s) d i)) ->
     exists s', copy_pages pid d i size off s = Ret (0, slice (content (fs s) d i) (Z.to_nat off) (Z.to_nat size)) s' /\
       cache_ok s' /\ same_files s s') /\
  (forall off b C', 0 <= off -> off mod PGSIZE + Z.of_nat (length b) <= PGSIZE -> file_written (content (fs s)) C' d i off b ->
     exists s', update_page pid off i d b s = Ret tt s' /\ coherent C' s' /\ fs s' = fs s).
Proof.
  split.
  - intros off size Ho Hs Hov Hend. by apply copy_pages_run.
  - intros off b C' Ho Hfit HW. destruct HS as [HC _]. by apply (update_page_run pid _ C' off d i b s HC).
Qed.

(** * An empty cache over one file of three bytes *)

Definition demo_content (d i : Z) : list Z := if i =? 7 then [1; 2; 3] else [].

#[global] Instance demo_reader : Reader unit := {|
  begin_op := ret tt;
  end_op := ret tt;
  readi := fun d i off n =>
    if Z.of_nat (length (demo_content d i)) <? off then ret (-1, [])
    else let b := take (Z.to_nat n) (drop (Z.to_nat off) (demo_content d i)) in ret (Z.of_nat (length b), b)
|}.

#[global] Instance demo_laws : ReaderLaws demo_reader.
Proof.
  refine {| content := fun _ => demo_content; ready := fun _ => True |}.
  - intros f _. by exists f.
  - intros f _. by exists f.
  - intros f d i off n _ Ho _. exists f. cbn [readi demo_reader]. destruct (Z.ltb_spec (Z.of_nat (length (demo_content d i))) off); [lia|done].
  - intros f d i off n _ Ho. exists f. cbn [readi demo_reader]. destruct (Z.ltb_spec (Z.of_nat (length (demo_content d i))) off); [done|lia].
Defined.

Definition demo_entry : cached_page := mkP (replicate 4096 0) 0 0 0 false 0.
Definition demo_cache : pstate unit := mkS (replicate (Z.to_nat NPAGECACHE) demo_entry) 0 false tt [].

Lemma demo_cache_ok : cache_ok demo_cache.
Proof.
  assert (H : forall k p, pages demo_cache !! k = Some p -> p = demo_entry) by (intros k p [-> _]%lookup_replicate; done).
  split; [|done]. split.
  - change (Z.of_nat (length (replicate (Z.to_nat NPAGECACHE) demo_entry)) = NPAGECACHE). by rewrite length_replicate, Z2Nat.id.
  - done.
  - done.
  - intros k p ->%H. split; [done|]. apply length_replicate.
  - by intros k p ->%H Hi.
  - by intros k k' p p' ->%H _ Hi.
Qed.

Lemma page_cache_transparent_witness :
  exists s, copy_pages 1 1 7 5 0 demo_cache = Ret (0, slice [1; 2; 3] 0 5) s /\ slice [1; 2; 3] 0 5 = [1; 2; 3; 0; 0].
Proof.
  destruct (page_cache_transparent 1 1 7 demo_cache demo_cache_ok ltac:(lia)) as [H _].
  destruct (H 0 5 ltac:(lia) ltac:(lia) ltac:(lia)) as (s & E & _); [discriminate|].
  exists s. split; [exact E|reflexivity].
Defined.

End Pagecache.
