(* ===== verification/Vfs.v ===== *)
(** The inode cache, sleep locks, the mount table and the path walk:
    kern/vfs.c, kern/sleeplock.c, kern/vfsmount.c, and [v6_ilock],
    [v6_getroot] and the frame of [v6_dirlookup] of kern/v6.c, through which
    vfs.c reaches a file system.

    An inode pointer is an index of [icache.inode], NULL is [None].  What a
    file system does behind [struct inode_operations] and [struct
    vfs_operations] is the interface [FileSystem], over a state [F] of its own;
    a method gets the [fs_t] of the inode, so several file systems can be
    mounted.  A sleep lock is its flag and its owner; the spin lock inside it
    is held only within one operation.  A process that has to wait ends with
    [Block].  A NULL pointer that is followed ends with [Panic].

    A path is the list of its characters. *)

From stdpp Require Import base list gmap.
From Stdlib Require Import ZArith Lia Bool.
From S2P Require Import Prelude Strings.

Module Vfs.

Definition NINODE : nat := 1024.
Definition MOUNTSIZE : nat := 2.
Definition SDMAJOR : Z := 0.
Definition ROOTDEV : Z := 1.
Definition DIRSIZ : nat := 58.
Definition T_DIR : Z := 1.
Definition T_FILE : Z := 2.
Definition T_MOUNT : Z := 4.

(** The fields of [struct inode] that are also on disk. *)
Record attr : Type := mkAttr {
  type : Z; major : Z; minor : Z; nlink : Z; size : Z; mode : Z; uid : Z; gid : Z;
  atime : Z * Z; mtime : Z * Z; ctime : Z * Z
}.

Record sleeplock : Type := mkL { locked : bool; owner : Z }.

Record inode : Type := mkI {
  dev : Z;
  inum : Z;
  ref : Z;
  lock : sleeplock;
  valid : bool;
  fs_t : Z;
  at_ : attr
}.

Record mntentry : Type := mkM { m_inode : option nat; m_rtinode : option nat }.

(** What vfs.c calls of a file system; the first argument is the [fs_t]. *)
Class FileSystem (F : Type) : Type := {
  fs_root : Z -> Z;                                              (* inode number of the root, getroot *)
  fs_load : Z -> Z -> Z -> M F attr;                             (* ilock: read the inode from disk *)
  fs_search : Z -> Z -> Z -> attr -> list Z -> M F (option (Z * Z) * Z); (* dirlookup: number and type of an entry, offset *)
  fs_itrunc : Z -> Z -> Z -> attr -> M F attr;                   (* itrunc *)
  fs_iupdate : Z -> Z -> Z -> attr -> M F unit;                  (* iupdate *)
  fs_ialloc : Z -> Z -> Z -> M F Z;                              (* ialloc: the number of a new inode *)
  fs_dirlink : Z -> Z -> Z -> attr -> list Z -> Z -> Z -> M F (Z * attr); (* dirlink of a name that is absent *)
  fs_fill : Z -> M F bool;                                       (* fill_inode *)
  fs_cleanup : Z -> Z -> Z -> M F unit                           (* cleanup *)
}.

Section Vfs.
Context {F : Type} {FS : FileSystem F}.

Record vstate : Type := mkV {
  icache : list inode;
  ic_lock : bool;
  mtable : list mntentry;
  mt_lock : bool;
  vfsmlist : list (Z * Z * Z);     (* major, minor, fs_t *)
  fs : F;
  woken : list nat                 (* the locks passed to wakeup *)
}.

Definition set_icache (l : list inode) (s : vstate) : vstate :=
  mkV l (ic_lock s) (mtable s) (mt_lock s) (vfsmlist s) (fs s) (woken s).
Definition set_ic_lock (b : bool) (s : vstate) : vstate :=
  mkV (icache s) b (mtable s) (mt_lock s) (vfsmlist s) (fs s) (woken s).
Definition set_mt_lock (b : bool) (s : vstate) : vstate :=
  mkV (icache s) (ic_lock s) (mtable s) b (vfsmlist s) (fs s) (woken s).
Definition set_vfsmlist (l : list (Z * Z * Z)) (s : vstate) : vstate :=
  mkV (icache s) (ic_lock s) (mtable s) (mt_lock s) l (fs s) (woken s).
Definition set_fs (f : F) (s : vstate) : vstate :=
  mkV (icache s) (ic_lock s) (mtable s) (mt_lock s) (vfsmlist s) f (woken s).
Definition set_woken (l : list nat) (s : vstate) : vstate :=
  mkV (icache s) (ic_lock s) (mtable s) (mt_lock s) (vfsmlist s) (fs s) l.

Definition on_fs {A} : M F A -> M vstate A := zoom fs set_fs.

Definition set_ref (r : Z) (i : inode) : inode := mkI (dev i) (inum i) r (lock i) (valid i) (fs_t i) (at_ i).
Definition set_lock (l : sleeplock) (i : inode) : inode := mkI (dev i) (inum i) (ref i) l (valid i) (fs_t i) (at_ i).
Definition set_valid (b : bool) (i : inode) : inode := mkI (dev i) (inum i) (ref i) (lock i) b (fs_t i) (at_ i).
Definition set_attr (a : attr) (i : inode) : inode := mkI (dev i) (inum i) (ref i) (lock i) (valid i) (fs_t i) a.
Definition set_type (t : Z) (a : attr) : attr :=
  mkAttr t (major a) (minor a) (nlink a) (size a) (mode a) (uid a) (gid a) (atime a) (mtime a) (ctime a).
Definition set_nlink (n : Z) (a : attr) : attr :=
  mkAttr (type a) (major a) (minor a) n (size a) (mode a) (uid a) (gid a) (atime a) (mtime a) (ctime a).

Definition acquire_icache : M vstate unit := fun s => if ic_lock s then Block s else Ret tt (set_ic_lock true s).
Definition release_icache : M vstate unit := fun s => if ic_lock s then Ret tt (set_ic_lock false s) else Panic s.
Definition acquire_mtable : M vstate unit := fun s => if mt_lock s then Block s else Ret tt (set_mt_lock true s).
Definition release_mtable : M vstate unit := fun s => if mt_lock s then Ret tt (set_mt_lock false s) else Panic s.

Definition geti (c : nat) : M vstate inode :=
  fun s => match icache s !! c with Some i => Ret i s | None => Panic s end.
Definition updi (c : nat) (f : inode -> inode) : M vstate unit := modify (fun s => set_icache (alter f c (icache s)) s).

(** [rootfs->fs_t], the process that runs, the clock, and the permission check
    of the file system. *)
Context (rootfs : Z) (pid : Z) (cwd : nat) (umask cuid cgid : Z) (now : Z * Z) (permission : attr -> Z -> Z).

(** * Sleep locks *)

Definition acquiresleep (c : nat) : M vstate unit :=
  let* i := geti c in
  if locked (lock i) then block else updi c (set_lock (mkL true pid)).

Definition releasesleep (c : nat) : M vstate unit :=
  updi c (set_lock (mkL false 0)) ;;
  modify (fun s => set_woken (woken s ++ [c]) s).

Definition holdingsleep (c : nat) : M vstate bool :=
  let* i := geti c in ret (locked (lock i) && (owner (lock i) =? pid)).

(** * The mount table *)

(** The first entry whose inode, picked by [f], is the inode of [ip]. *)
Fixpoint find_mount (l : list mntentry) (cache : list inode) (f : mntentry -> option nat) (ip : inode) : option mntentry :=
  match l with
  | [] => None
  | e :: l' =>
      match (c ← f e; cache !! c) with
      | Some i => if (dev i =? dev ip) && (inum i =? inum ip) then Some e else find_mount l' cache f ip
      | None => find_mount l' cache f ip
      end
  end.

Definition mtablertinode (c : nat) : M vstate (option nat) :=
  let* ip := geti c in
  acquire_mtable ;;
  let* r := gets (fun s => find_mount (mtable s) (icache s) m_inode ip) in
  release_mtable ;;
  ret (e ← r; m_rtinode e).

Definition mtablemntinode (c : nat) : M vstate (option nat) :=
  let* ip := geti c in
  acquire_mtable ;;
  let* r := gets (fun s => find_mount (mtable s) (icache s) m_rtinode ip) in
  release_mtable ;;
  ret (e ← r; m_inode e).

Definition isinoderoot (c : nat) : M vstate bool :=
  let* ip := geti c in
  acquire_mtable ;;
  let* r := gets (fun s => find_mount (mtable s) (icache s) m_rtinode ip) in
  release_mtable ;;
  ret (match r with Some _ => true | None => false end).

(** * Mounted file systems *)

Fixpoint find_vfs (l : list (Z * Z * Z)) (maj min : Z) : option Z :=
  match l with
  | [] => None
  | (a, b, f) :: l' => if (a =? maj) && (b =? min) then Some f else find_vfs l' maj min
  end.

Definition getvfsentry (maj min : Z) : M vstate (option Z) := gets (fun s => find_vfs (vfsmlist s) maj min).

(** [kmalloc] may fail: [mem_ok]. *)
Definition putvfsonlist (mem_ok : bool) (maj min f : Z) : M vstate Z :=
  if negb mem_ok then ret (-1) else
  modify (fun s => set_vfsmlist (vfsmlist s ++ [(maj, min, f)]) s) ;;
  ret 0.

(** * The inode cache *)

Definition iinit_locks : M vstate unit :=
  modify (fun s => set_ic_lock false (set_icache (set_lock (mkL false 0) <$> icache s) s)).

Fixpoint find_cached (l : list inode) (k : nat) (d i : Z) : option nat :=
  match l with
  | [] => None
  | ip :: l' => if (0 <? ref ip) && (dev ip =? d) && (inum ip =? i) then Some k else find_cached l' (S k) d i
  end.

Fixpoint find_unused (l : list inode) (k : nat) : option nat :=
  match l with
  | [] => None
  | ip :: l' => if ref ip =? 0 then Some k else find_unused l' (S k)
  end.

Definition zero_attr : attr := mkAttr 0 0 0 0 0 0 0 0 (0, 0) (0, 0) (0, 0).

Definition inc_ref (c : nat) : M vstate unit := updi c (fun i => set_ref (s32 (ref i + 1)) i).

Definition iget (d i t : Z) : M vstate nat :=
  acquire_icache ;;
  let* l := gets icache in
  match find_cached l 0 d i with
  | Some c =>
      let* ip := geti c in
      if type (at_ ip) =? T_MOUNT then
        let* r := mtablertinode c in
        match r with
        | None => panic
        | Some rc => inc_ref rc ;; release_icache ;; ret rc
        end
      else inc_ref c ;; release_icache ;; ret c
  | None =>
      match find_unused l 0 with
      | None => panic
      | Some c =>
          let* f := getvfsentry SDMAJOR d in
          match f with
          | None => panic
          | Some f =>
              updi c (fun ip => mkI d i 1 (lock ip) false f (set_type t (at_ ip))) ;;
              release_icache ;;
              let* ok := on_fs (fs_fill f) in
              if ok then ret c else panic
          end
      end
  end.

Definition idup (c : nat) : M vstate nat :=
  acquire_icache ;;
  inc_ref c ;;
  release_icache ;;
  ret c.

Definition iput (c : nat) : M vstate unit :=
  acquiresleep c ;;
  let* ip := geti c in
  when (valid ip && (nlink (at_ ip) =? 0))
    (acquire_icache ;;
     let* r := (let* i := geti c in ret (ref i)) in
     release_icache ;;
     when (r =? 1)
       (let* a := on_fs (fs_itrunc (fs_t ip) (dev ip) (inum ip) (at_ ip)) in
        updi c (set_attr (set_type 0 a)) ;;
        on_fs (fs_iupdate (fs_t ip) (dev ip) (inum ip) (set_type 0 a)) ;;
        updi c (set_valid false))) ;;
  releasesleep c ;;
  acquire_icache ;;
  updi c (fun i => set_ref (s32 (ref i - 1)) i) ;;
  let* ip := geti c in
  when (ref ip =? 0) (on_fs (fs_cleanup (fs_t ip) (dev ip) (inum ip))) ;;
  release_icache.

Definition generic_iunlock (c : nat) : M vstate unit :=
  let* h := holdingsleep c in
  let* ip := geti c in
  if negb h || (ref ip <? 1) then panic else releasesleep c.

Definition iunlockput (c : nat) : M vstate unit :=
  generic_iunlock c ;;
  iput c.

Definition ilock (c : nat) : M vstate unit :=
  let* ip := geti c in
  if ref ip <? 1 then panic else
  acquiresleep c ;;
  if valid ip then ret tt else
  let* a := on_fs (fs_load (fs_t ip) (dev ip) (inum ip)) in
  updi c (fun i => set_valid true (set_attr a i)) ;;
  if type a =? 0 then panic else ret tt.

Definition getroot (f d : Z) : M vstate nat := iget d (fs_root f) T_DIR.

(** The inode and what is stored in [*poff], which a mount point leaves alone. *)
Definition dirlookup_off (c : nat) (name : list Z) : M vstate (option nat * option Z) :=
  let* ip := geti c in
  if type (at_ ip) =? T_MOUNT then
    let* r := mtablertinode c in
    match r with
    | None => panic
    | Some rc => inc_ref rc ;; ret (Some rc, None)
    end
  else if negb (type (at_ ip) =? T_DIR) then panic
  else
    let* r := on_fs (fs_search (fs_t ip) (dev ip) (inum ip) (at_ ip) name) in
    match r.1 with
    | None => ret (None, Some r.2)
    | Some (i, t) => let* n := iget (dev ip) i t in ret (Some n, Some r.2)
    end.

Definition dirlookup (c : nat) (name : list Z) : M vstate (option nat) :=
  let* r := dirlookup_off c name in ret r.1.

(** * Paths *)

Definition SLASH : Z := 47.

Fixpoint skip_slashes (p : list Z) : list Z :=
  match p with
  | c :: p' => if c =? SLASH then skip_slashes p' else p
  | [] => []
  end.

(** The characters before the next slash, and the rest. *)
Fixpoint span_elem (p : list Z) : list Z * list Z :=
  match p with
  | c :: p' => if c =? SLASH then ([], p) else let '(e, r) := span_elem p' in (c :: e, r)
  | [] => ([], [])
  end.

(** The bytes of [name] that are set, and the rest of the path. *)
Definition skipelem (path : list Z) : option (list Z * list Z) :=
  match skip_slashes path with
  | [] => None
  | p => let '(e, r) := span_elem p in Some (take DIRSIZ e, skip_slashes r)
  end.

(** [strncmp(name, "..", 2) == 0] *)
Definition is_dotdot (name : list Z) : bool :=
  Strings.strncmp (fun a => if a <? 256 then default 0 (name !! Z.to_nat a) else if a <? 258 then 46 else 0) 0 256 2 =? 0.

(** From [component_search] on: the inode found, after crossing the mount
    points above [c], and the directory it was found in. *)
Fixpoint component_search (fuel : nat) (c : nat) (name : list Z) : M vstate (option nat * nat) :=
  match fuel with
  | O => nofuel
  | S f =>
      let* r := dirlookup c name in
      match r with
      | None => ret (None, c)
      | Some n =>
          let* nx := geti n in
          let* ir := getroot (fs_t nx) (dev nx) in
          let* nx := geti n in
          let* rt := geti ir in
          let* root := (if inum nx =? inum rt then isinoderoot c else ret false) in
          if root && is_dotdot name then
            let* m := mtablemntinode c in
            match m with
            | None => panic
            | Some m =>
                iunlockput c ;;
                ilock m ;;
                inc_ref m ;;
                component_search f m name
            end
          else ret (Some n, c)
      end
  end.

Fixpoint namex_loop (fuel : nat) (c : nat) (path : list Z) (parent : bool) : M vstate (option (nat * list Z)) :=
  match fuel with
  | O => nofuel
  | S f =>
      match skipelem path with
      | None => if parent then iput c ;; ret None else ret (Some (c, []))
      | Some (name, rest) =>
          ilock c ;;
          let* ip := geti c in
          if negb (type (at_ ip) =? T_DIR) then iunlockput c ;; ret None
          else if parent && match rest with [] => true | _ => false end then
            generic_iunlock c ;; ret (Some (c, name))
          else
            let* r := component_search (S MOUNTSIZE) c name in
            iunlockput r.2 ;;
            match r.1 with
            | None => ret None
            | Some n => namex_loop f n rest parent
            end
      end
  end.

(** The inode, and for [nameiparent] the last element. *)
Definition namex (path : list Z) (parent : bool) : M vstate (option (nat * list Z)) :=
  let* c := (match path with
             | 47 :: _ => getroot rootfs ROOTDEV
             | _ => idup cwd
             end) in
  namex_loop (S (length path)) c path parent.

Definition namei (path : list Z) : M vstate (option nat) :=
  let* r := namex path false in ret (fst <$> r).

Definition nameiparent (path : list Z) : M vstate (option (nat * list Z)) := namex path true.

(** * Creating files *)

Definition MAY_EXEC : Z := 1.

Definition updattr (c : nat) (f : attr -> attr) : M vstate unit := updi c (fun i => set_attr (f (at_ i)) i).

Definition iupdate (c : nat) : M vstate unit :=
  let* ip := geti c in on_fs (fs_iupdate (fs_t ip) (dev ip) (inum ip) (at_ ip)).

Definition generic_dirlink (c : nat) (name : list Z) (i t : Z) : M vstate Z :=
  let* r := dirlookup c name in
  match r with
  | Some n => iput n ;; ret (- EEXIST)
  | None =>
      let* ip := geti c in
      let* r := on_fs (fs_dirlink (fs_t ip) (dev ip) (inum ip) (at_ ip) name i t) in
      updi c (set_attr r.2) ;;
      ret r.1
  end.

Definition ialloc (f d t : Z) : M vstate nat :=
  let* i := on_fs (fs_ialloc f d t) in
  let* c := iget d i t in
  updattr c (fun a => mkAttr (type a) (major a) (minor a) (nlink a) (size a) (mode a) (uid a) (gid a) now now now) ;;
  ret c.

(** The inode, locked, or the negative error number the pointer stands for. *)
Definition create (path : list Z) (t maj min md : Z) : M vstate (nat + Z) :=
  let* r := nameiparent path in
  match r with
  | None => ret (inr (- ENOENT))
  | Some (dp, name) =>
      ilock dp ;;
      let* d := geti dp in
      if permission (at_ d) MAY_EXEC <? 0 then iunlockput dp ;; ret (inr (- EACCES)) else
      let* r := dirlookup dp name in
      match r with
      | Some ip =>
          iunlockput dp ;;
          ilock ip ;;
          let* i := geti ip in
          if (t =? T_FILE) && (type (at_ i) =? T_FILE) then ret (inl ip)
          else iunlockput ip ;; ret (inr (- EEXIST))
      | None =>
          let* ip := ialloc (fs_t d) (dev d) t in
          ilock ip ;;
          updattr ip (fun a => mkAttr t maj min 1 (size a) (Z.land md (not_w 32 umask)) cuid cgid now now now) ;;
          iupdate ip ;;
          let* i := geti ip in
          when (t =? T_DIR)
            (updattr dp (fun a => set_nlink (u16 (nlink a + 1)) a) ;;
             iupdate dp ;;
             let* r1 := generic_dirlink ip [46] (inum i) (type (at_ i)) in
             let* ok := (if r1 <? 0 then ret false
                         else let* d := geti dp in
                              let* r2 := generic_dirlink ip [46; 46] (inum d) (type (at_ d)) in ret (negb (r2 <? 0))) in
             assert ok) ;;
          let* r := generic_dirlink dp name (inum i) (type (at_ i)) in
          assert (negb (r <? 0)) ;;
          iunlockput dp ;;
          ret (inl ip)
      end
  end.

End Vfs.
(** * Path elements *)

(** The reference: a path cut at its slashes, empty parts left out. *)
Fixpoint split (p : list Z) : list (list Z) :=
  match p with
  | [] => [[]]
  | c :: p' =>
      if c =? SLASH then [] :: split p'
      else match split p' with
           | e :: l => (c :: e) :: l
           | [] => [[c]]
           end
  end.

Definition nonempty (e : list Z) : bool := match e with [] => false | _ => true end.

Definition components (p : list Z) : list (list Z) := take DIRSIZ <$> filter (fun e => nonempty e = true) (split p).

(** The elements [skipelem] gives, one after the other. *)
Fixpoint elems (fuel : nat) (p : list Z) : list (list Z) :=
  match fuel with
  | O => []
  | S f => match skipelem p with None => [] | Some (n, r) => n :: elems f r end
  end.

Lemma components_slash p : components (SLASH :: p) = components p.
Proof. done. Qed.

Lemma components_skip p : components (skip_slashes p) = components p.
Proof.
  induction p as [|c p IH]; [done|]. cbn [skip_slashes]. destruct (Z.eqb_spec c SLASH) as [->|]; [|done].
  by rewrite IH, components_slash.
Qed.

Lemma length_skip p : (length (skip_slashes p) <= length p)%nat.
Proof. induction p as [|c p IH]; cbn; [done|]. destruct (c =? SLASH); cbn; lia. Qed.

Lemma split_span p e r : span_elem p = (e, r) -> split p = match split r with [] :: l => e :: l | _ => [e] end /\ (length e + length r = length p)%nat /\ (r = [] \/ exists r', r = SLASH :: r').
Proof.
  revert e r. induction p as [|c p IH]; intros e r; cbn [span_elem split].
  - intros [= <- <-]. split_and!; [done|done|by left].
  - destruct (Z.eqb_spec c SLASH) as [->|].
    + intros [= <- <-]. cbn [split]. rewrite Z.eqb_refl. split_and!; [done|done|right; by eexists].
    + destruct (span_elem p) as [e' r'] eqn:E. intros [= <- <-]. destruct (IH e' r' eq_refl) as (H1 & H2 & H3).
      rewrite H1. split_and!; [|cbn; lia|done]. destruct H3 as [->|(r'' & ->)]; cbn; done.
Qed.

Lemma skip_head p c q : skip_slashes p = c :: q -> c <> SLASH.
Proof.
  induction p as [|d p IH]; cbn; [done|]. destruct (Z.eqb_spec d SLASH); [done|]. congruence.
Qed.

Lemma skipelem_step p :
  match skipelem p with
  | None => components p = []
  | Some (n, r) => components p = n :: components r /\ (length r < length p)%nat /\ (components r = [] <-> r = [])
  end.
Proof.
  unfold skipelem. pose proof (components_skip p) as Hc. pose proof (length_skip p) as Hl.
  destruct (skip_slashes p) as [|c q] eqn:Ep; [by rewrite <- Hc|].
  pose proof (skip_head _ _ _ Ep) as Hne. destruct (span_elem (c :: q)) as [e r] eqn:Es.
  destruct (split_span _ _ _ Es) as (H1 & H2 & H3).
  assert (He : exists e', e = c :: e').
  { cbn in Es. destruct (Z.eqb_spec c SLASH); [done|]. destruct (span_elem q). injection Es as <- <-. by eexists. }
  destruct He as [e' ->]. pose proof (length_skip r) as Hr. cbn [length] in *. split; [|split; [lia|]].
  - rewrite <- Hc, (components_skip r). unfold components. rewrite H1.
    destruct H3 as [->|(r' & ->)]; cbn [split]; [done|]. rewrite Z.eqb_refl. by rewrite filter_cons_True, (filter_cons_False _ []).
  - split; [|by intros ->]. destruct (skip_slashes r) as [|d r'] eqn:Er; [done|]. intros E. exfalso.
    pose proof (skip_head _ _ _ Er) as Hd. unfold components in E. cbn [split] in E.
    destruct (Z.eqb_spec d SLASH); [done|]. destruct (split r'); discriminate E.
Qed.

(** C24: iterating [skipelem] over a path gives exactly its components (the
    non-empty parts between slashes, 58 characters at most each), the path
    gets shorter with every one, so as many turns as the path has characters
    are enough, and the rest is empty exactly when the element was the last. *)
Theorem skipelem_components p fuel (Hf : (length p < fuel)%nat) :
  elems fuel p = components p /\
  match skipelem p with
  | None => components p = []
  | Some (n, r) => components p = n :: components r /\ (length r < length p)%nat /\ (components r = [] <-> r = [])
  end.
Proof.
  split; [|apply skipelem_step]. revert p Hf. induction fuel as [|f IH]; intros p Hf; [lia|]. cbn [elems].
  pose proof (skipelem_step p) as H. destruct (skipelem p) as [[n r]|]; [|done].
  destruct H as (-> & Hl & _). f_equal. apply IH. lia.
Qed.

Lemma skipelem_components_witness :
  elems 20 [47; 97; 47; 47; 98; 47] = [[97]; [98]].
Proof. exact (proj1 (skipelem_components [47; 97; 47; 47; 98; 47] 20 ltac:(cbn; lia))). Defined.

(** * The inode cache in use *)

(** A file system that is only read: what its operations give for the inodes
    that are [there].  The entries of a directory lead to such inodes, and a
    device that has one has a root; nothing is said of any other inode ([v6_ilock]
    panics for one that is free). *)
Class ReadOnly {F} (FS : FileSystem F) (f0 : F) : Type := {
  attr_of : Z -> Z -> Z -> attr;
  entry_of : Z -> Z -> Z -> list Z -> option (Z * Z);
  off_of : Z -> Z -> Z -> list Z -> Z;
  there : Z -> Z -> Z -> Prop;
  ro_load f d i : there f d i -> fs_load f d i f0 = Ret (attr_of f d i) f0;
  ro_search f d i name : there f d i -> type (attr_of f d i) = T_DIR -> fs_search f d i (attr_of f d i) name f0 = Ret (entry_of f d i name, off_of f d i name) f0;
  ro_fill f : fs_fill f f0 = Ret true f0;
  ro_cleanup f d i : fs_cleanup f d i f0 = Ret tt f0;
  ro_attr f d i : there f d i -> type (attr_of f d i) <> 0 /\ type (attr_of f d i) <> T_MOUNT /\ nlink (attr_of f d i) <> 0;
  ro_entry f d i name j t : there f d i -> entry_of f d i name = Some (j, t) -> there f d j /\ t <> T_MOUNT;
  ro_root f d i : there f d i -> there f d (fs_root f)
}.

Definition key (ip : inode) : Z * Z := (dev ip, inum ip).

Definition at_key (k k' : Z * Z) : Z := if decide (k = k') then 1 else 0.

(** The references to the inode [k] the cache counts. *)
Fixpoint refs (l : list inode) (k : Z * Z) : Z :=
  match l with
  | [] => 0
  | ip :: l' => ref ip * at_key (key ip) k + refs l' k
  end.

Lemma refs_insert l c ip ip' k :
  l !! c = Some ip -> refs (<[c := ip']> l) k = refs l k - ref ip * at_key (key ip) k + ref ip' * at_key (key ip') k.
Proof.
  revert c. induction l as [|x l IH]; intros [|c] E; [done|done|cbn in *; simplify_eq; lia|].
  change (<[S c := ip']> (x :: l)) with (x :: <[c := ip']> l). cbn [refs]. rewrite (IH c) by done. lia.
Qed.

Lemma at_key_eq k : at_key k k = 1.
Proof. unfold at_key. by rewrite decide_True. Qed.

Lemma at_key_range k k' : 0 <= at_key k k' <= 1.
Proof. unfold at_key. destruct (decide (k = k')); lia. Qed.

Lemma refs_pos l k :
  Forall (fun ip => 0 <= ref ip) l -> 0 <= refs l k /\ (0 < refs l k -> exists c ip, l !! c = Some ip /\ key ip = k /\ 0 < ref ip).
Proof.
  induction 1 as [|x l Hx Hl [IH1 IH2]]; cbn [refs]; [split; [done|lia]|]. pose proof (at_key_range (key x) k). split; [nia|].
  intros Hp. unfold at_key in *. destruct (decide (key x = k)).
  - destruct (decide (0 < ref x)); [by exists 0%nat, x|]. destruct (IH2 ltac:(lia)) as (c & ip & ?). by exists (S c), ip.
  - destruct (IH2 ltac:(lia)) as (c & ip & ?). by exists (S c), ip.
Qed.

Lemma refs_ge l c ip : Forall (fun ip => 0 <= ref ip) l -> l !! c = Some ip -> ref ip <= refs l (key ip).
Proof.
  intros Hl. revert c. induction Hl as [|x l Hx Hl IH]; intros [|c] E; cbn in *; simplify_eq.
  - rewrite at_key_eq. pose proof (proj1 (refs_pos _ (key ip) Hl)). lia.
  - specialize (IH c E). pose proof (at_key_range (key x) (key ip)). nia.
Qed.

Lemma icache_cached_Some l k0 d i c :
  find_cached l k0 d i = Some c -> exists c' ip, c = (k0 + c')%nat /\ l !! c' = Some ip /\ 0 < ref ip /\ key ip = (d, i).
Proof.
  revert k0. induction l as [|x l IH]; intros k0; cbn; [done|].
  destruct ((0 <? ref x) && (dev x =? d) && (inum x =? i)) eqn:E.
  - intros [= <-]. exists 0%nat, x. rewrite !andb_true_iff, Z.ltb_lt, !Z.eqb_eq in E. destruct E as [[? <-] <-].
    split_and!; [lia|done|done|done].
  - intros H. destruct (IH _ H) as (c' & ip & -> & ? & ?). exists (S c'), ip. split; [lia|done].
Qed.

Lemma icache_cached_None l k0 d i c ip :
  find_cached l k0 d i = None -> l !! c = Some ip -> 0 < ref ip -> key ip <> (d, i).
Proof.
  revert k0 c. induction l as [|x l IH]; intros k0 c; cbn; [by destruct c|].
  destruct ((0 <? ref x) && (dev x =? d) && (inum x =? i)) eqn:E; [done|]. intros H. destruct c as [|c]; cbn; [|by eapply IH].
  intros [= <-] Hr [= <- <-]. rewrite (proj2 (Z.ltb_lt _ _) Hr), !Z.eqb_refl in E. done.
Qed.

Lemma icache_unused_Some l k0 c : find_unused l k0 = Some c -> exists c' ip, c = (k0 + c')%nat /\ l !! c' = Some ip /\ ref ip = 0.
Proof.
  revert k0. induction l as [|x l IH]; intros k0; cbn; [done|]. destruct (Z.eqb_spec (ref x) 0).
  - intros [= <-]. exists 0%nat, x. split_and!; [lia|done|done].
  - intros H. destruct (IH _ H) as (c' & ip & -> & ? & ?). exists (S c'), ip. split_and!; [lia|done|done].
Qed.

Lemma icache_unused_None l k0 : find_unused l k0 = None -> Forall (fun ip => ref ip <> 0) l.
Proof.
  revert k0. induction l as [|x l IH]; intros k0; cbn; [done|]. destruct (Z.eqb_spec (ref x) 0); [done|]. eauto.
Qed.

Section Cache.
Context {F : Type} {FS : FileSystem F} (f0 : F) {RO : ReadOnly FS f0}.
Context (pid : Z) (mt : list mntentry) (vl : list (Z * Z * Z)).
Context (no_mounts : Forall (fun e => m_inode e = None /\ m_rtinode e = None) mt).

(** No process is in an operation of the cache, and nothing is mounted below
    the root. *)
Definition quiet (l : list inode) (w : list nat) : vstate := mkV l false mt false vl f0 w.

(** [held]: the inode this process has locked; no other is locked. *)
Record entry_ok (held : option nat) (c : nat) (ip : inode) : Prop := {
  ok_ref : 0 <= ref ip;
  ok_locked : locked (lock ip) = bool_decide (held = Some c);
  ok_held : held = Some c -> owner (lock ip) = pid /\ 0 < ref ip /\ valid ip = true;
  ok_live : 0 < ref ip ->
    find_vfs vl SDMAJOR (dev ip) = Some (fs_t ip) /\ type (at_ ip) <> T_MOUNT /\
    (valid ip = true -> at_ ip = attr_of (fs_t ip) (dev ip) (inum ip));
  ok_there : 0 < ref ip -> there (fs_t ip) (dev ip) (inum ip)
}.

Record cache_ok (held : option nat) (l : list inode) : Prop := {
  ok_entry c ip : l !! c = Some ip -> entry_ok held c ip;
  ok_unique c c' ip ip' : l !! c = Some ip -> l !! c' = Some ip' -> 0 < ref ip -> 0 < ref ip' -> key ip = key ip' -> c = c'
}.

Lemma cache_nonneg held l : cache_ok held l -> Forall (fun ip => 0 <= ref ip) l.
Proof. intros H. apply Forall_lookup. intros c ip E. by destruct (ok_entry _ _ H _ _ E). Qed.

(** An entry that is rewritten. *)
Lemma icache_insert held held' l c ip ip' :
  cache_ok held l -> l !! c = Some ip -> entry_ok held' c ip' ->
  (forall c', c' <> c -> held = Some c' <-> held' = Some c') ->
  (0 < ref ip' -> (key ip' = key ip /\ 0 < ref ip) \/ forall c' x, l !! c' = Some x -> 0 < ref x -> key x <> key ip') ->
  cache_ok held' (<[c := ip']> l).
Proof.
  intros H E Hok Hh Hk. assert (Hlt : (c < length l)%nat) by by eapply lookup_lt_Some.
  assert (Ho : forall c' x, l !! c' = Some x -> c' <> c -> 0 < ref x -> 0 < ref ip' -> key x <> key ip').
  { intros c' x Ex Hne Hx Hp Hkk. destruct (Hk Hp) as [[Ek Hr]|Hn]; [|by eapply Hn].
    apply Hne. eapply (ok_unique _ _ H); eauto; congruence. }
  split.
  - intros c' x. destruct (decide (c' = c)) as [->|Hne].
    + rewrite list_lookup_insert_eq by done. by intros [= <-].
    + rewrite list_lookup_insert_ne by done. intros Ex. destruct (ok_entry _ _ H _ _ Ex) as [? Hl Hd ? ?].
      split; [done| |rewrite <- Hh by done; done|done|done]. rewrite Hl. apply bool_decide_ext. by apply Hh.
  - intros c1 c2 x1 x2. destruct (decide (c1 = c)) as [->|H1], (decide (c2 = c)) as [->|H2];
      rewrite ?list_lookup_insert_eq, ?list_lookup_insert_ne by done.
    + done.
    + intros [= <-] Ex Hp Hx Hkk. exfalso. by eapply (Ho c2 x2).
    + intros Ex [= <-] Hx Hp Hkk. exfalso. by eapply (Ho c1 x1).
    + apply (ok_unique _ _ H).
Qed.

(** The entry of an inode in use carries all its references. *)
Lemma refs_live held l c ip : cache_ok held l -> l !! c = Some ip -> 0 < ref ip -> refs l (key ip) = ref ip.
Proof.
  intros H E Hr. pose proof (cache_nonneg _ _ H) as Hn. pose proof (refs_ge _ _ _ Hn E).
  destruct (decide (refs l (key ip) = ref ip)) as [|Hne]; [done|]. exfalso.
  set (z := mkI (dev ip) (inum ip) 0 (lock ip) (valid ip) (fs_t ip) (at_ ip)).
  pose proof (refs_insert l c ip z (key ip) E) as Hi. change (key z) with (key ip) in Hi. rewrite at_key_eq in Hi. cbn in Hi.
  destruct (proj2 (refs_pos (<[c := z]> l) (key ip) ltac:(apply Forall_insert; [done|cbn; lia])) ltac:(lia)) as (c' & x & Ex & Hk & Hx).
  destruct (decide (c' = c)) as [->|Hc].
  - rewrite list_lookup_insert_eq in Ex by by eapply lookup_lt_Some. injection Ex as <-. cbn in Hx. lia.
  - rewrite list_lookup_insert_ne in Ex by done. apply Hc. by eapply (ok_unique _ _ H).
Qed.

(** A cache with fewer inodes in use than entries has an unused one. *)
Lemma find_unused_room held l K :
  cache_ok held l -> (forall c ip, l !! c = Some ip -> 0 < ref ip -> key ip ∈ K) -> (length K < length l)%nat ->
  exists c ip, find_unused l 0 = Some c /\ l !! c = Some ip /\ ref ip = 0.
Proof.
  intros H HK Hlen. destruct (find_unused l 0) as [c|] eqn:E.
  { destruct (icache_unused_Some _ _ _ E) as (c' & ip & -> & ? & ?). by exists c', ip. }
  exfalso. apply icache_unused_None in E.
  assert (Hl : forall c ip, l !! c = Some ip -> 0 < ref ip).
  { intros c ip Ec. pose proof (ok_ref _ _ _ (ok_entry _ _ H _ _ Ec)). rewrite Forall_lookup in E. specialize (E _ _ Ec). cbn in E. lia. }
  assert (Hnd : NoDup (key <$> l)).
  { apply NoDup_alt. intros i j k. rewrite !list_lookup_fmap, !fmap_Some. intros (x & Hx & ->) (y & Hy & Hk).
    eapply (ok_unique _ _ H); eauto. }
  assert (Hs : (length (key <$> l) <= length K)%nat); [|rewrite length_fmap in Hs; lia].
  apply submseteq_length, NoDup_submseteq; [done|]. intros k (ip & -> & Hin)%list_elem_of_fmap.
  apply list_elem_of_lookup in Hin as [c Hc]. eauto.
Qed.

(** ** Running its operations *)

Lemma alter_at {A} (f : A -> A) (l : list A) (c : nat) x : l !! c = Some x -> alter f c l = <[c := f x]> l.
Proof.
  revert c. induction l as [|y l IH]; intros [|c] E; try done; cbn in *; [by simplify_eq|].
  change (y :: alter f c l = y :: <[c := f x]> l). f_equal. by apply IH.
Qed.

Lemma updi_run f l w c ip : l !! c = Some ip -> updi c f (quiet l w) = Ret tt (quiet (<[c := f ip]> l) w).
Proof. intros E. unfold updi, modify, set_icache, quiet. cbn. by rewrite (alter_at _ _ _ _ E). Qed.

Lemma geti_run l w c ip : l !! c = Some ip -> geti c (quiet l w) = Ret ip (quiet l w).
Proof. intros E. unfold geti. cbn. by rewrite E. Qed.

Lemma insert_at {A} (l : list A) (c : nat) x y : l !! c = Some x -> <[c := y]> l !! c = Some y.
Proof. intros E. apply list_lookup_insert_eq. by eapply lookup_lt_Some. Qed.

Lemma acquiresleep_run l w c ip :
  l !! c = Some ip -> locked (lock ip) = false -> acquiresleep pid c (quiet l w) = Ret tt (quiet (<[c := set_lock (mkL true pid) ip]> l) w).
Proof.
  intros E Hl. unfold acquiresleep. rewrite (bind_run _ _ _ _ _ (geti_run _ _ _ _ E)), Hl. by apply updi_run.
Qed.

Lemma releasesleep_run l w c ip :
  l !! c = Some ip -> releasesleep c (quiet l w) = Ret tt (quiet (<[c := set_lock (mkL false 0) ip]> l) (w ++ [c])).
Proof. intros E. unfold releasesleep. by rewrite (bind_run _ _ _ _ _ (updi_run _ _ _ _ _ E)). Qed.

(** The inode as [ilock] leaves it. *)
Definition loaded (ip : inode) : inode :=
  mkI (dev ip) (inum ip) (ref ip) (mkL true pid) true (fs_t ip) (attr_of (fs_t ip) (dev ip) (inum ip)).

Lemma ilock_run l w c ip :
  cache_ok None l -> l !! c = Some ip -> 0 < ref ip ->
  ilock pid c (quiet l w) = Ret tt (quiet (<[c := loaded ip]> l) w) /\ cache_ok (Some c) (<[c := loaded ip]> l).
Proof.
  intros H E Hr. destruct (ok_entry _ _ H _ _ E) as [_ Hl _ Hv Hth]. destruct (Hv Hr) as (Hf & Ht & Ha). split.
  - unfold ilock. rewrite (bind_run _ _ _ _ _ (geti_run _ _ _ _ E)), (proj2 (Z.ltb_ge _ _)) by lia.
    rewrite (bind_run _ _ _ _ _ (acquiresleep_run _ w _ _ E Hl)). destruct (valid ip) eqn:Ev.
    + unfold loaded, ret. rewrite <- Ha by done. unfold set_lock. by rewrite Ev.
    + unfold on_fs, zoom at 1. unfold bind at 1. cbn [fs quiet]. rewrite (ro_load _ _ _ (Hth Hr)).
      erewrite bind_run by (apply (updi_run _ _ w); by eapply insert_at). destruct (ro_attr _ _ _ (Hth Hr)) as [Hn _].
      rewrite (proj2 (Z.eqb_neq _ _)) by done. cbn [icache quiet]. by rewrite list_insert_insert_eq.
  - eapply icache_insert; [exact H|exact E| | |left; done].
    + split; cbn; [lia|by rewrite bool_decide_true|done| |by intros; apply Hth]. intros _. split_and!; [done|apply ro_attr, Hth, Hr|done].
    + intros c' Hne. split; [done|congruence].
Qed.

Lemma generic_iunlock_run l w c ip :
  cache_ok (Some c) l -> l !! c = Some ip ->
  generic_iunlock pid c (quiet l w) = Ret tt (quiet (<[c := set_lock (mkL false 0) ip]> l) (w ++ [c])) /\
  cache_ok None (<[c := set_lock (mkL false 0) ip]> l).
Proof.
  intros H E. destruct (ok_entry _ _ H _ _ E) as [Hr Hl Hh Hv Hth]. destruct (Hh eq_refl) as (Ho & Hp & _). split.
  - unfold generic_iunlock, holdingsleep. erewrite bind_run by (rewrite (bind_run _ _ _ _ _ (geti_run _ _ _ _ E)); reflexivity).
    rewrite (bind_run _ _ _ _ _ (geti_run _ _ _ _ E)), Hl, Ho, Z.eqb_refl, bool_decide_true by done.
    rewrite (proj2 (Z.ltb_ge _ _)) by lia. cbn [negb orb andb]. by apply releasesleep_run.
  - eapply icache_insert; [exact H|exact E| | |left; done].
    + split; cbn; [lia|by rewrite bool_decide_false|done|done|done].
    + intros c' Hne. split; [congruence|done].
Qed.

(** The inode without one reference, unlocked. *)
Definition dropped (ip : inode) : inode := mkI (dev ip) (inum ip) (ref ip - 1) (mkL false 0) (valid ip) (fs_t ip) (at_ ip).

Lemma iput_run l w c ip :
  cache_ok None l -> l !! c = Some ip -> 0 < ref ip < 2 ^ 31 ->
  iput pid c (quiet l w) = Ret tt (quiet (<[c := dropped ip]> l) (w ++ [c])) /\ cache_ok None (<[c := dropped ip]> l).
Proof.
  intros H E Hr. destruct (ok_entry _ _ H _ _ E) as [_ Hl _ Hv Hth]. destruct (Hv ltac:(lia)) as (Hf & Ht & Ha). split.
  - unfold iput. rewrite (bind_run _ _ _ _ _ (acquiresleep_run _ w _ _ E Hl)).
    rewrite (bind_run _ _ _ _ _ (geti_run _ w _ _ (insert_at _ _ _ _ E))).
    assert (valid ip && (nlink (at_ ip) =? 0) = false) as Hn.
    { destruct (valid ip); [|done]. rewrite Ha by done. destruct (ro_attr _ _ _ (Hth ltac:(lia))) as (_ & _ & ?). by apply Z.eqb_neq. }
    cbn [valid at_ set_lock]. rewrite Hn. unfold when at 1. run_step.
    rewrite (bind_run _ _ _ _ _ (releasesleep_run _ w _ _ (insert_at _ _ _ _ E))), list_insert_insert_eq.
    run_step. erewrite bind_run.
    2: { unfold updi, modify, set_icache, set_ic_lock. cbn. rewrite (alter_at _ _ _ _ (insert_at _ _ _ _ E)), list_insert_insert_eq. reflexivity. }
    erewrite bind_run. 2: { unfold geti. cbn. rewrite (insert_at _ _ _ _ E). reflexivity. }
    cbn [ref set_ref set_lock fs_t dev inum]. rewrite s32_id by lia. unfold when.
    destruct (ref ip - 1 =? 0); [|run_step; done].
    unfold on_fs, zoom, bind. cbn [fs]. rewrite ro_cleanup. done.
  - eapply icache_insert; [exact H|exact E| |done|left; cbn; split; [done|lia]].
    split; cbn; [lia|by rewrite bool_decide_false|done|by intros|intros; apply Hth; lia].
Qed.

Lemma iunlockput_run l w c ip :
  cache_ok (Some c) l -> l !! c = Some ip -> ref ip < 2 ^ 31 ->
  iunlockput pid c (quiet l w) = Ret tt (quiet (<[c := dropped ip]> l) (w ++ [c] ++ [c])) /\ cache_ok None (<[c := dropped ip]> l).
Proof.
  intros H E Hr. destruct (ok_held _ _ _ (ok_entry _ _ H _ _ E) eq_refl) as (_ & Hp & _).
  destruct (generic_iunlock_run l w c ip H E) as [E1 H1].
  destruct (iput_run _ (w ++ [c]) c _ H1 (insert_at _ _ _ _ E) ltac:(cbn; lia)) as [E2 H2].
  rewrite list_insert_insert_eq, <- app_assoc in *. split; [|done]. unfold iunlockput. by rewrite (bind_run _ _ _ _ _ E1).
Qed.

(** ** Looking up *)

(** The cache after a reference to [k], at [c], has been taken. *)
Record got (held : option nat) (l : list inode) (k : Z * Z) (l' : list inode) (c : nat) : Prop := {
  got_ok : cache_ok held l';
  got_len : length l' = length l;
  got_entry : exists ip, l' !! c = Some ip /\ key ip = k /\ 0 < ref ip;
  got_refs k' : refs l' k' = refs l k' + at_key k k';
  got_frame c0 ip0 : l !! c0 = Some ip0 -> 0 < ref ip0 -> exists r, l' !! c0 = Some (set_ref r ip0) /\ 0 < r
}.

Lemma set_ref_id ip : set_ref (ref ip) ip = ip.
Proof. by destruct ip. Qed.

Lemma got_again held l c ip :
  cache_ok held l -> l !! c = Some ip -> 0 < ref ip -> got held l (key ip) (<[c := set_ref (ref ip + 1) ip]> l) c.
Proof.
  intros H E Hr. destruct (ok_entry _ _ H _ _ E) as [_ Hl Hh Hv Hth]. split.
  - eapply icache_insert; [exact H|exact E| |done|left; done].
    split; cbn; [lia|done| |intros _; by apply Hv|intros _; by apply Hth]. intros Hc. destruct (Hh Hc) as (? & ? & ?). split_and!; [done|lia|done].
  - apply length_insert.
  - eexists. split; [by eapply insert_at|]. cbn. split; [done|lia].
  - intros k'. rewrite (refs_insert _ _ _ _ _ E). change (key (set_ref (ref ip + 1) ip)) with (key ip). cbn [ref set_ref]. lia.
  - intros c0 ip0 E0 Hr0. destruct (decide (c0 = c)) as [->|Hne].
    + assert (ip0 = ip) as -> by congruence. exists (ref ip + 1). split; [by eapply insert_at|lia].
    + exists (ref ip0). rewrite list_lookup_insert_ne, set_ref_id by done. done.
Qed.

Lemma got_new held l c ip d i f t :
  cache_ok held l -> l !! c = Some ip -> ref ip = 0 -> find_vfs vl SDMAJOR d = Some f -> t <> T_MOUNT -> there f d i ->
  (forall c' x, l !! c' = Some x -> 0 < ref x -> key x <> (d, i)) ->
  got held l (d, i) (<[c := mkI d i 1 (lock ip) false f (set_type t (at_ ip))]> l) c.
Proof.
  intros H E Hr Hf Ht Hth Hn. destruct (ok_entry _ _ H _ _ E) as [_ Hl Hh _ _].
  assert (Hhc : held <> Some c) by (intros Hc; destruct (Hh Hc) as (_ & ? & _); lia). split.
  - eapply icache_insert; [exact H|exact E| |done|right; exact Hn].
    split; cbn; [lia|done|done| |done]. intros _. split_and!; [done|done|done].
  - apply length_insert.
  - eexists. split; [by eapply insert_at|]. cbn. done.
  - intros k'. rewrite (refs_insert _ _ _ _ _ E), Hr. unfold key at 2. cbn [ref dev inum]. lia.
  - intros c0 ip0 E0 Hr0. destruct (decide (c0 = c)) as [->|Hne].
    + assert (ip0 = ip) as -> by congruence. lia.
    + exists (ref ip0). rewrite list_lookup_insert_ne, set_ref_id by done. done.
Qed.

(** All inodes in use are in [K]. *)
Definition within (l : list inode) (K : list (Z * Z)) : Prop := forall c ip, l !! c = Some ip -> 0 < ref ip -> key ip ∈ K.

(** The cache has an entry for the inode [k]. *)
Definition room (l : list inode) (k : Z * Z) : Prop := refs l k = 0 -> exists K, within l K /\ (length K < length l)%nat.

Lemma iget_run held l w d i f t :
  cache_ok held l -> find_vfs vl SDMAJOR d = Some f -> t <> T_MOUNT -> there f d i -> refs l (d, i) < 2 ^ 31 - 1 -> room l (d, i) ->
  exists c l', iget d i t (quiet l w) = Ret c (quiet l' w) /\ got held l (d, i) l' c.
Proof.
  intros H Hf Ht Hth Hb HR. unfold iget. run_step. cbn [gets]. run_step. cbn [icache set_ic_lock quiet].
  destruct (find_cached l 0 d i) as [c|] eqn:Ec.
  - destruct (icache_cached_Some _ _ _ _ _ Ec) as (c' & ip & -> & E & Hr & Hk). rewrite Nat.add_0_l in *.
    pose proof (ok_live _ _ _ (ok_entry _ _ H _ _ E) Hr) as (_ & Hm & _).
    erewrite bind_run by (unfold geti; cbn; rewrite E; reflexivity). rewrite (proj2 (Z.eqb_neq _ _)) by done.
    pose proof (refs_live _ _ _ _ H E Hr) as Hrl. rewrite Hk in Hrl.
    exists c', (<[c' := set_ref (ref ip + 1) ip]> l). split; [|rewrite <- Hk; by apply got_again].
    unfold inc_ref, updi, modify, set_icache. erewrite bind_run by reflexivity. cbn [icache].
    rewrite (alter_at _ _ _ _ E), s32_id by lia. done.
  - assert (Hno : forall c x, l !! c = Some x -> 0 < ref x -> key x <> (d, i)) by (intros c x; by eapply icache_cached_None).
    destruct HR as (K & HK & Hlen).
    { pose proof (refs_pos l (d, i) (cache_nonneg _ _ H)) as [Hp0 Hp]. destruct (decide (refs l (d, i) = 0)); [done|].
      destruct (Hp ltac:(lia)) as (c & x & Ex & Hk & Hx). exfalso. by eapply Hno. }
    destruct (find_unused_room held l K H HK Hlen) as (c & ip & Eu & E & Hr). rewrite Eu.
    unfold getvfsentry. cbn [gets]. run_step. cbn [vfsmlist set_ic_lock quiet]. rewrite Hf.
    exists c, (<[c := mkI d i 1 (lock ip) false f (set_type t (at_ ip))]> l).
    split; [|by apply got_new].
    erewrite bind_run by (unfold updi, modify, set_icache; cbn; rewrite (alter_at _ _ _ _ E); reflexivity).
    run_step. unfold on_fs, zoom, bind at 1. cbn [fs set_ic_lock]. by rewrite ro_fill.
Qed.

Lemma isinoderoot_run l w c ip : l !! c = Some ip -> isinoderoot c (quiet l w) = Ret false (quiet l w).
Proof using no_mounts.
  intros E. unfold isinoderoot. rewrite (bind_run _ _ _ _ _ (geti_run _ _ _ _ E)). run_step. cbn [gets]. run_step. run_step.
  cbn [icache mtable set_mt_lock quiet]. replace (find_mount mt l m_rtinode ip) with (@None mntentry); [done|].
  clear E. induction no_mounts as [|e m [_ He] Hm IH]; [done|]. cbn [find_mount]. rewrite He. exact (IH Hm).
Qed.

(** The entry of a directory that is locked. *)
Lemma vfs_dirlookup_run l w c ip name :
  cache_ok (Some c) l -> l !! c = Some ip -> type (at_ ip) = T_DIR -> (forall j, room l (dev ip, j)) -> (forall k, refs l k < 2 ^ 31 - 1) ->
  match entry_of (fs_t ip) (dev ip) (inum ip) name with
  | None => dirlookup c name (quiet l w) = Ret None (quiet l w)
  | Some (j, t) => exists n l', dirlookup c name (quiet l w) = Ret (Some n) (quiet l' w) /\ got (Some c) l (dev ip, j) l' n
  end.
Proof.
  intros H E Ht HR Hb. destruct (ok_entry _ _ H _ _ E) as [_ _ Hh Hv Hth]. destruct (Hh eq_refl) as (_ & Hr & Hva).
  destruct (Hv Hr) as (Hf & _ & Ha). specialize (Ha Hva).
  assert (Es : on_fs (fs_search (fs_t ip) (dev ip) (inum ip) (at_ ip) name) (quiet l w) =
               Ret (entry_of (fs_t ip) (dev ip) (inum ip) name, off_of (fs_t ip) (dev ip) (inum ip) name) (quiet l w)).
  { unfold on_fs, zoom. cbn [fs quiet]. rewrite Ha, ro_search; [done|by apply Hth|congruence]. }
  unfold dirlookup. destruct (entry_of (fs_t ip) (dev ip) (inum ip) name) as [[j t]|] eqn:Ee.
  - destruct (ro_entry _ _ _ _ _ _ (Hth Hr) Ee) as [Hj Htj]. destruct (iget_run (Some c) l w (dev ip) j (fs_t ip) t H Hf Htj Hj (Hb _) (HR _)) as (n & l' & En & G).
    exists n, l'. split; [|done]. rewrite (bind_run _ _ _ (Some n, Some (off_of (fs_t ip) (dev ip) (inum ip) name)) (quiet l' w)); [done|].
    unfold dirlookup_off. rewrite (bind_run _ _ _ _ _ (geti_run _ w _ _ E)), Ht. cbn [Z.eqb T_DIR T_MOUNT Pos.eqb negb].
    rewrite (bind_run _ _ _ _ _ Es). cbn [fst snd]. by rewrite (bind_run _ _ _ _ _ En).
  - rewrite (bind_run _ _ _ (None, Some (off_of (fs_t ip) (dev ip) (inum ip) name)) (quiet l w)); [done|].
    unfold dirlookup_off. rewrite (bind_run _ _ _ _ _ (geti_run _ w _ _ E)), Ht. cbn [Z.eqb T_DIR T_MOUNT Pos.eqb negb].
    by rewrite (bind_run _ _ _ _ _ Es).
Qed.

(** ** The path walk *)

(** The reference: the inode number a list of names leads to from [i] on
    device [d] (with [parent], that of the directory of the last name, and the
    name), and the number of entries found on the way. *)
Fixpoint walk (f d : Z) (parent : bool) (i : Z) (names : list (list Z)) : option (Z * list Z) * Z :=
  match names with
  | [] => (if parent then None else Some (i, []), 0)
  | n :: ns =>
      if negb (type (attr_of f d i) =? T_DIR) then (None, 0)
      else if parent && match ns with [] => true | _ => false end then (Some (i, n), 0)
      else match entry_of f d i n with
           | None => (None, 0)
           | Some (j, _) => let '(r, k) := walk f d parent j ns in (r, k + 1)
           end
  end.

(** What a walk from a directory [d], [i] with [base] other references, and
    [m] to the root, ends with. *)
Definition walked (d : Z) (root : Z * Z) (base : Z * Z -> Z) (m : Z) (res : option (Z * list Z) * Z)
    (r : option (nat * list Z)) (l' : list inode) : Prop :=
  cache_ok None l' /\
  match res.1 with
  | None => r = None /\ forall k, refs l' k = base k + (m + res.2) * at_key root k
  | Some (j, nm) => exists c ip, r = Some (c, nm) /\ l' !! c = Some ip /\ key ip = (d, j) /\ 0 < ref ip /\
      forall k, refs l' k = base k + at_key (d, j) k + (m + res.2) * at_key root k
  end.

Lemma refs_dropped l c ip k : l !! c = Some ip -> refs (<[c := dropped ip]> l) k = refs l k - at_key (key ip) k.
Proof. intros E. rewrite (refs_insert _ _ _ _ _ E). change (key (dropped ip)) with (key ip). cbn [ref dropped]. lia. Qed.

Lemma refs_loaded l c ip k : l !! c = Some ip -> refs (<[c := loaded ip]> l) k = refs l k.
Proof. intros E. rewrite (refs_insert _ _ _ _ _ E). change (key (loaded ip)) with (key ip). cbn [ref loaded]. lia. Qed.

Lemma within_refs l K : Forall (fun ip => 0 <= ref ip) l -> (forall k, 0 < refs l k -> k ∈ K) -> within l K.
Proof. intros Hn HK c ip E Hr. apply HK. pose proof (refs_ge _ _ _ Hn E). lia. Qed.

(** The entry [n] still is the inode it was after another reference, to [c], is dropped. *)
Lemma still_there held l c ip n ipn :
  cache_ok held l -> l !! c = Some ip -> l !! n = Some ipn -> 0 < ref ipn -> 0 < refs (<[c := dropped ip]> l) (key ipn) ->
  exists ipn', <[c := dropped ip]> l !! n = Some ipn' /\ key ipn' = key ipn /\ 0 < ref ipn'.
Proof.
  intros H E En Hn Hp. destruct (decide (n = c)) as [->|Hne].
  - assert (ipn = ip) as -> by congruence. eexists. split; [by eapply insert_at|]. split; [done|].
    rewrite (refs_dropped _ _ _ _ E), at_key_eq, (refs_live _ _ _ _ H E Hn) in Hp. cbn. lia.
  - exists ipn. by rewrite list_lookup_insert_ne.
Qed.

Lemma set_ref_twice r r' ip : set_ref r' (set_ref r ip) = set_ref r' ip.
Proof. done. Qed.

(** Two more inodes fit: [d], [j] and then the root. *)
Lemma room_twice l k0 root K :
  cache_ok (Some k0) l -> forall k1, (forall k, 0 < refs l k -> k ∈ k1 :: root :: K) -> (length K + 3 <= length l)%nat ->
  (forall k, room l k) /\ forall held k l' n, got held l k l' n -> room l' root.
Proof.
  intros H k1 HK Hlen. split.
  - intros k _. exists (k1 :: root :: K). split; [|cbn; lia]. apply within_refs; [by eapply cache_nonneg|done].
  - intros held k l' n G Hr. exists (k :: k1 :: K). rewrite (got_len _ _ _ _ _ G). split; [|cbn; lia].
    apply within_refs; [eapply cache_nonneg, got_ok, G|]. intros k' Hk'. pose proof (got_refs _ _ _ _ _ G k') as Eq.
    unfold at_key in Eq. destruct (decide (k = k')) as [->|]; [set_solver|].
    assert (Hin : k' ∈ k1 :: root :: K) by (apply HK; lia). assert (k' <> root) by (intros ->; lia). set_solver.
Qed.

Lemma component_search_run fuel l w c ip K name :
  let root := (dev ip, fs_root (fs_t ip)) in
  cache_ok (Some c) l -> l !! c = Some ip -> type (at_ ip) = T_DIR ->
  (forall k, 0 < refs l k -> k ∈ key ip :: root :: K) -> (length K + 3 <= length l)%nat -> (forall k, refs l k < 2 ^ 31 - 2) ->
  match entry_of (fs_t ip) (dev ip) (inum ip) name with
  | None => component_search pid (S fuel) c name (quiet l w) = Ret (None, c) (quiet l w)
  | Some (j, _) => exists n l' ipn r, component_search pid (S fuel) c name (quiet l w) = Ret (Some n, c) (quiet l' w) /\
      cache_ok (Some c) l' /\ length l' = length l /\ l' !! n = Some ipn /\ key ipn = (dev ip, j) /\ 0 < ref ipn /\
      l' !! c = Some (set_ref r ip) /\ (forall k, refs l' k = refs l k + at_key (dev ip, j) k + at_key root k)
  end.
Proof using no_mounts.
  intros root H E Ht HK Hlen Hb. destruct (room_twice l c root K H _ HK Hlen) as [HR1 HR2].
  destruct (ok_held _ _ _ (ok_entry _ _ H _ _ E) eq_refl) as (_ & Hr & _).
  destruct (ok_live _ _ _ (ok_entry _ _ H _ _ E) Hr) as (Hf & _).
  pose proof (vfs_dirlookup_run l w c ip name H E Ht (fun j => HR1 _) ltac:(intros k; specialize (Hb k); lia)) as HD.
  cbn [component_search]. destruct (entry_of (fs_t ip) (dev ip) (inum ip) name) as [[j t]|].
  2: { by rewrite (bind_run _ _ _ _ _ HD). }
  destruct HD as (n & l1 & E1 & G1). rewrite (bind_run _ _ _ _ _ E1). destruct (got_entry _ _ _ _ _ G1) as (x & Ex & Hk & Hx).
  destruct (got_frame _ _ _ _ _ G1 c ip E Hr) as (r1 & Ec1 & Hr1). pose proof (got_ok _ _ _ _ _ G1) as H1.
  pose proof (got_refs _ _ _ _ _ G1) as Hrf1.
  destruct (ok_live _ _ _ (ok_entry _ _ H1 _ _ Ex) Hx) as (Hfx & _).
  assert (Hd : dev x = dev ip) by (by injection Hk). assert (Hft : fs_t x = fs_t ip) by (rewrite Hd in Hfx; congruence).
  rewrite (bind_run _ _ _ _ _ (geti_run _ w _ _ Ex)), Hd, Hft. unfold getroot.
  destruct (iget_run (Some c) l1 w (dev ip) (fs_root (fs_t ip)) (fs_t ip) T_DIR H1 Hf ltac:(done)) as (ir & l2 & E2 & G2).
  { pose proof (ok_held _ _ _ (ok_entry _ _ H _ _ E) eq_refl) as (_ & Hri & _). exact (ro_root _ _ _ (ok_there _ _ _ (ok_entry _ _ H _ _ E) Hri)). }
  { rewrite Hrf1. pose proof (at_key_range (dev ip, j) (dev ip, fs_root (fs_t ip))). specialize (Hb (dev ip, fs_root (fs_t ip))). lia. }
  { eapply HR2, G1. }
  rewrite (bind_run _ _ _ _ _ E2). destruct (got_frame _ _ _ _ _ G2 n x Ex Hx) as (rn & En & Hrn).
  destruct (got_entry _ _ _ _ _ G2) as (y & Ey & _). rewrite (bind_run _ _ _ _ _ (geti_run _ w _ _ En)), (bind_run _ _ _ _ _ (geti_run _ w _ _ Ey)).
  destruct (got_frame _ _ _ _ _ G2 c _ Ec1 Hr1) as (r2 & Ec2 & Hr2).
  assert (Eb : (if inum (set_ref rn x) =? inum y then isinoderoot c else ret false) (quiet l2 w) = Ret false (quiet l2 w)).
  { destruct (_ =? _); [|done]. by eapply isinoderoot_run. }
  rewrite (bind_run _ _ _ _ _ Eb). exists n, l2, (set_ref rn x), r2. pose proof (got_refs _ _ _ _ _ G2) as Hrf2.
  split_and!; [done|by apply got_ok in G2|rewrite (got_len _ _ _ _ _ G2); apply G1|done|done|done|done|].
  intros k. rewrite Hrf2, Hrf1. done.
Qed.

Lemma fs_of_live held l c ip f :
  cache_ok held l -> l !! c = Some ip -> 0 < ref ip -> find_vfs vl SDMAJOR (dev ip) = Some f -> fs_t ip = f.
Proof. intros H E Hr Hf. destruct (ok_live _ _ _ (ok_entry _ _ H _ _ E) Hr) as (Hf' & _). congruence. Qed.

Section Loop.
Context (f d : Z) (fs_d : find_vfs vl SDMAJOR d = Some f).
Context (base : Z * Z -> Z) (K : list (Z * Z)).
Context (base_nonneg : forall k, 0 <= base k) (base_in : forall k, 0 < base k -> k ∈ K).

Notation root := (d, fs_root f).

(** The walk is at the inode [i], referenced at [c], and has left [m]
    references on the root. *)
Record at_inode (m : Z) (i : Z) (c : nat) (l : list inode) : Prop := {
  at_ok : cache_ok None l;
  at_len : (length K + 3 <= length l)%nat;
  at_ip : exists ip, l !! c = Some ip /\ key ip = (d, i) /\ 0 < ref ip;
  at_refs k : refs l k = base k + at_key (d, i) k + m * at_key root k;
  at_m : 0 <= m
}.

(** The inode locked, then unlocked and kept or put. *)
Lemma lock_step m i c l w :
  at_inode m i c l -> (forall k, base k + m < 2 ^ 31 - 4) ->
  exists ip l1, ilock pid c (quiet l w) = Ret tt (quiet l1 w) /\ cache_ok (Some c) l1 /\ length l1 = length l /\
    l1 !! c = Some ip /\ key ip = (d, i) /\ fs_t ip = f /\ at_ ip = attr_of f d i /\
    (forall k, refs l1 k = refs l k /\ refs l k < 2 ^ 31 - 2) /\
    (exists l2 w', generic_iunlock pid c (quiet l1 w) = Ret tt (quiet l2 w') /\ at_inode m i c l2) /\
    (exists l2 w', iunlockput pid c (quiet l1 w) = Ret tt (quiet l2 w') /\ cache_ok None l2 /\
       forall k, refs l2 k = base k + m * at_key root k).
Proof using base_nonneg fs_d.
  intros [H Hlen (ip & E & Hk & Hr) Hrf Hm] Hb. pose proof Hk as [= Hd Hi].
  assert (Hft : fs_t ip = f) by (eapply fs_of_live; eauto; by rewrite Hd).
  destruct (ilock_run l w c ip H E Hr) as [E1 H1]. pose proof (insert_at l c ip (loaded ip) E) as Ec.
  assert (Hb1 : forall k, refs l k < 2 ^ 31 - 2).
  { intros k. rewrite Hrf. specialize (Hb k). pose proof (at_key_range (d, i) k). pose proof (at_key_range root k). nia. }
  exists (loaded ip), (<[c := loaded ip]> l). do 2 (split; [done|]). split; [apply length_insert|]. do 3 (split; [done|]).
  split; [cbn; by rewrite Hft, Hd, Hi|]. split; [intros k; split; [by apply refs_loaded|done]|]. split.
  - destruct (generic_iunlock_run _ w c _ H1 Ec) as [E2 H2]. do 2 eexists. split; [exact E2|]. split; [done|by rewrite !length_insert| | |done].
    + eexists. split; [by eapply insert_at|]. done.
    + intros k. rewrite (refs_insert _ _ _ _ _ Ec). change (key (set_lock (mkL false 0) (loaded ip))) with (key (loaded ip)).
      cbn [ref set_lock]. rewrite <- Hrf, <- (refs_loaded l c ip k E). lia.
  - destruct (iunlockput_run _ w c _ H1 Ec) as [E3 H3].
    { pose proof (refs_ge _ _ _ (cache_nonneg _ _ H1) Ec) as Hx. rewrite (refs_loaded _ _ _ _ E) in Hx.
      specialize (Hb1 (key (loaded ip))). lia. }
    do 2 eexists. split; [exact E3|]. split; [done|]. intros k.
    rewrite (refs_dropped _ _ _ _ Ec), (refs_loaded _ _ _ _ E), Hrf. change (key (loaded ip)) with (key ip). rewrite Hk. lia.
Qed.

(** One element that is found. *)
Lemma lookup_step m i c l l1 w ip name :
  at_inode m i c l -> cache_ok (Some c) l1 -> length l1 = length l -> l1 !! c = Some ip -> key ip = (d, i) -> fs_t ip = f ->
  type (at_ ip) = T_DIR -> (forall k, refs l1 k = refs l k /\ refs l k < 2 ^ 31 - 2) ->
  match entry_of f d i name with
  | None => component_search pid (S MOUNTSIZE) c name (quiet l1 w) = Ret (None, c) (quiet l1 w)
  | Some (j, _) => exists n l2 l3 w', component_search pid (S MOUNTSIZE) c name (quiet l1 w) = Ret (Some n, c) (quiet l2 w) /\
      iunlockput pid c (quiet l2 w) = Ret tt (quiet l3 w') /\ at_inode (m + 1) j n l3
  end.
Proof using base_in base_nonneg fs_d no_mounts.
  intros [_ Hlen _ Hrf Hm] H1 Hl1 Ec Hk Hft Hty Hb1. pose proof Hk as [= Hd Hi].
  pose proof (component_search_run MOUNTSIZE l1 w c ip K name H1 Ec Hty) as HS. rewrite Hft, Hd, Hi, Hk in HS.
  assert (HK : forall k, 0 < refs l1 k -> k ∈ (d, i) :: root :: K).
  { intros k Hp. rewrite (proj1 (Hb1 k)), Hrf in Hp. unfold at_key in Hp.
    destruct (decide ((d, i) = k)) as [<-|]; [left|]. destruct (decide (root = k)) as [<-|]; [right; left|].
    right; right. apply base_in. lia. }
  specialize (HS HK ltac:(lia) ltac:(intros k; destruct (Hb1 k); lia)).
  destruct (entry_of f d i name) as [[j t]|]; [|done].
  destruct HS as (n & l2 & ipn & r & Es & H2 & Hl2 & En & Hkn & Hrn & Ec2 & Hrf2).
  assert (Hkc : key (set_ref r ip) = (d, i)) by done.
  destruct (iunlockput_run l2 w c _ H2 Ec2) as [E3 H3].
  { pose proof (refs_ge _ _ _ (cache_nonneg _ _ H2) Ec2) as Hx. rewrite Hkc, Hrf2 in Hx. destruct (Hb1 (d, i)).
    pose proof (at_key_range (d, j) (d, i)). pose proof (at_key_range root (d, i)). lia. }
  assert (Hrf3 : forall k, refs (<[c := dropped (set_ref r ip)]> l2) k = base k + at_key (d, j) k + (m + 1) * at_key root k).
  { intros k. rewrite (refs_dropped _ _ _ _ Ec2), Hrf2, (proj1 (Hb1 k)), Hrf, Hkc. lia. }
  exists n, l2, (<[c := dropped (set_ref r ip)]> l2), (w ++ [c] ++ [c]). split; [done|]. split; [done|].
  split; [done|rewrite length_insert; lia| |done|lia].
  destruct (still_there _ _ _ _ _ _ H2 Ec2 En Hrn) as (x & ? & ? & ?); [|exists x; split_and!; [done|congruence|done]].
  rewrite Hrf3, Hkn, at_key_eq. pose proof (base_nonneg (d, j)). pose proof (at_key_range root (d, j)). nia.
Qed.

Lemma walked_here m i c l path : at_inode m i c l -> walked d root base m (Some (i, path), 0) (Some (c, path)) l.
Proof.
  intros [H _ (ip & E & Hk & Hr) Hrf _]. split; [done|]. exists c, ip. do 4 (split; [done|]).
  intros k. rewrite Hrf. cbn. lia.
Qed.

(** No element is left. *)
Lemma namex_end_run m i c l w (parent : bool) :
  at_inode m i c l -> (forall k, base k + m < 2 ^ 31 - 4) ->
  exists (r : option (nat * list Z)) l' w', (if parent then iput pid c ;; ret None else ret (Some (c, []))) (quiet l w) = Ret r (quiet l' w') /\
    walked d root base m (walk f d parent i []) r l'.
Proof using base_nonneg.
  intros A Hb. destruct parent; cbn [walk]; [|exists (Some (c, [])), l, w; split; [done|by apply walked_here]].
  destruct A as [H _ (ip & E & Hk & Hr) Hrf Hm]. destruct (iput_run l w c ip H E) as [E1 H1].
  { split; [done|]. rewrite <- (refs_live _ _ _ _ H E Hr), Hrf, Hk, at_key_eq. specialize (Hb (d, i)).
    pose proof (at_key_range root (d, i)). nia. }
  do 3 eexists. rewrite (bind_run _ _ _ _ _ E1). split; [reflexivity|]. split; [done|]. split; [done|].
  intros k. rewrite (refs_dropped _ _ _ _ E), Hrf, Hk. cbn. lia.
Qed.

Lemma namex_loop_run fuel : forall m i c l w path parent,
  at_inode m i c l -> (length path < fuel)%nat -> (forall k, base k + m + Z.of_nat (length path) < 2 ^ 31 - 4) ->
  exists r l' w', namex_loop pid fuel c path parent (quiet l w) = Ret r (quiet l' w') /\
    walked d root base m (walk f d parent i (components path)) r l'.
Proof using base_in base_nonneg fs_d no_mounts.
  induction fuel as [|fuel IH]; intros m i c l w path parent A Hf Hb; [lia|]. cbn [namex_loop].
  assert (Hb0 : forall k, base k + m < 2 ^ 31 - 4) by (intros k; specialize (Hb k); lia).
  pose proof (skipelem_step path) as Hsk. destruct (skipelem path) as [[name rest]|].
  2: { rewrite Hsk. by apply namex_end_run. }
  destruct Hsk as (-> & Hl & He). cbn [walk].
  destruct (lock_step m i c l w A Hb0) as (ip & l1 & E1 & H1 & Hl1 & Ec & Hk & Hft & Ha & Hrf & (l2 & w2 & E2 & A2) & (l3 & w3 & E3 & H3 & Hrf3)).
  rewrite (bind_run _ _ _ _ _ E1), (bind_run _ _ _ _ _ (geti_run _ w _ _ Ec)), Ha.
  destruct (Z.eqb_spec (type (attr_of f d i)) T_DIR) as [Ht|_]; cbn [negb].
  2: { exists None, l3, w3. rewrite (bind_run _ _ _ _ _ E3). split; [done|]. split; [done|]. split; [done|].
       intros k. rewrite Hrf3. cbn. lia. }
  assert (Hlast : match components rest with [] => true | _ => false end = match rest with [] => true | _ => false end).
  { destruct rest as [|x rest]; [done|]. destruct (components (x :: rest)); [|done]. discriminate (proj1 He eq_refl). }
  rewrite Hlast. destruct (parent && _) eqn:Ep.
  { exists (Some (c, name)), l2, w2. rewrite (bind_run _ _ _ _ _ E2). split; [done|]. by apply walked_here. }
  pose proof (lookup_step m i c l l1 w ip name A H1 Hl1 Ec Hk Hft ltac:(by rewrite Ha) Hrf) as HS.
  destruct (entry_of f d i name) as [[j t]|].
  - destruct HS as (n & l4 & l5 & w5 & E4 & E5 & A5).
    rewrite (bind_run _ _ _ _ _ E4). cbn [fst snd]. rewrite (bind_run _ _ _ _ _ E5).
    destruct (IH (m + 1) j n l5 w5 rest parent A5) as (r & l6 & w6 & E6 & HW); [lia|intros k; specialize (Hb k); lia|].
    exists r, l6, w6. split; [done|]. destruct HW as [Hok HW]. destruct (walk f d parent j (components rest)) as [res k0].
    split; [done|]. cbn [fst snd] in *. by replace (m + (k0 + 1)) with (m + 1 + k0) by lia.
  - rewrite (bind_run _ _ _ _ _ HS). cbn [fst snd]. exists None, l3, w3. rewrite (bind_run _ _ _ _ _ E3).
    split; [done|]. split; [done|]. split; [done|]. intros k. rewrite Hrf3. cbn. lia.
Qed.

End Loop.
(** ** From the start of a path *)

Definition unused (l : list inode) : list inode := filter (fun ip => ref ip = 0) l.
Definition used (l : list inode) : list inode := filter (fun ip => ref ip <> 0) l.

Lemma length_unused l : (length (unused l) + length (used l) = length l)%nat.
Proof.
  unfold unused, used. induction l as [|x l IH]; [done|]. destruct (decide (ref x = 0)).
  - rewrite filter_cons_True, filter_cons_False by auto. cbn [length]. lia.
  - rewrite filter_cons_False, filter_cons_True by auto. cbn [length]. lia.
Qed.

Lemma refs_used l k : Forall (fun ip => 0 <= ref ip) l -> 0 < refs l k -> k ∈ key <$> used l.
Proof.
  intros Hn Hp. destruct (proj2 (refs_pos l k Hn) Hp) as (c & ip & E & <- & Hr). apply list_elem_of_fmap. exists ip. split; [done|].
  apply list_elem_of_filter. split; [lia|]. by eapply list_elem_of_lookup_2.
Qed.

Lemma idup_run l w c ip :
  cache_ok None l -> l !! c = Some ip -> 0 < ref ip < 2 ^ 31 - 1 ->
  exists l', idup c (quiet l w) = Ret c (quiet l' w) /\ got None l (key ip) l' c.
Proof.
  intros H E Hr. exists (<[c := set_ref (ref ip + 1) ip]> l). split; [|apply got_again; [done|done|lia]].
  unfold idup, inc_ref. run_step. unfold updi, modify, set_icache. run_step. cbn [icache set_ic_lock quiet].
  rewrite (alter_at _ _ _ _ E), s32_id by lia. done.
Qed.

(** Where the walk starts: device and inode number. *)
Definition starts (rootfs : Z) (cwd : nat) (l : list inode) (f d : Z) (path : list Z) (i : Z) : Prop :=
  match path with
  | 47 :: _ => d = ROOTDEV /\ rootfs = f /\ i = fs_root f /\ there f d i
  | _ => exists ip, l !! cwd = Some ip /\ key ip = (d, i) /\ 0 < ref ip
  end.

Lemma start_run rootfs cwd l w f d path i :
  cache_ok None l -> find_vfs vl SDMAJOR d = Some f -> starts rootfs cwd l f d path i -> (3 <= length (unused l))%nat ->
  (forall k, refs l k < 2 ^ 31 - 4) ->
  exists c l', (match path with 47 :: _ => getroot rootfs ROOTDEV | _ => idup cwd end) (quiet l w) = Ret c (quiet l' w) /\
    got None l (d, i) l' c.
Proof.
  intros H Hf Hs Hu Hb. unfold starts in Hs. pose proof (cache_nonneg _ _ H) as Hn.
  assert (Hidup : (exists ip, l !! cwd = Some ip /\ key ip = (d, i) /\ 0 < ref ip) ->
    exists c l', idup cwd (quiet l w) = Ret c (quiet l' w) /\ got None l (d, i) l' c).
  { intros (ip & E & <- & Hr). destruct (idup_run l w cwd ip H E) as (l' & ? & ?); [|by exists cwd, l'].
    specialize (Hb (key ip)). rewrite (refs_live _ _ _ _ H E Hr) in Hb. lia. }
  assert (Hroot : d = ROOTDEV /\ rootfs = f /\ i = fs_root f /\ there f d i ->
    exists c l', getroot rootfs ROOTDEV (quiet l w) = Ret c (quiet l' w) /\ got None l (d, i) l' c).
  { intros (-> & -> & -> & Hth). apply (iget_run None l w ROOTDEV (fs_root f) f T_DIR H Hf); [done|done|specialize (Hb (ROOTDEV, fs_root f)); lia|].
    intros _. exists (key <$> used l). pose proof (length_unused l). rewrite length_fmap. split; [|lia].
    apply within_refs; [done|]. intros k. by apply refs_used. }
  repeat case_match; auto.
Qed.

Lemma namex_run rootfs cwd l w f d path i parent :
  cache_ok None l -> find_vfs vl SDMAJOR d = Some f -> starts rootfs cwd l f d path i -> (3 <= length (unused l))%nat ->
  (forall k, refs l k + Z.of_nat (length path) < 2 ^ 31 - 4) ->
  exists r l' w', namex rootfs pid cwd path parent (quiet l w) = Ret r (quiet l' w') /\
    walked d (d, fs_root f) (refs l) 0 (walk f d parent i (components path)) r l'.
Proof using no_mounts.
  intros H Hf Hs Hu Hb. pose proof (cache_nonneg _ _ H) as Hn.
  destruct (start_run rootfs cwd l w f d path i H Hf Hs Hu) as (c & l1 & E1 & G); [intros k; specialize (Hb k); lia|].
  unfold namex. rewrite (bind_run _ _ _ _ _ E1). pose proof (length_unused l). destruct G as [G1 G2 G3 G4 _].
  eapply (namex_loop_run f d Hf (refs l) (key <$> used l));
    [intros k; by apply refs_pos|intros k; by apply refs_used| |lia|intros k; specialize (Hb k); lia].
  split; [done|rewrite length_fmap; lia|done|intros k; rewrite G4; lia|done].
Qed.

(** C7: on a cache that no process works in, with at least three unused
    entries and nothing mounted below the root, [namei] always returns: the
    inode that following the components of the path, entry by entry, leads to,
    or NULL when an element is missing or what precedes it is no directory.
    Every lock is free again, no entry is left with a reference of its own but
    the result, and the root of the file system has one reference more
    for every element that was found: [namex] never puts it back. *)
Theorem namei_resolves rootfs cwd l w f d path i
    (Hc : cache_ok None l) (Hf : find_vfs vl SDMAJOR d = Some f) (Hs : starts rootfs cwd l f d path i)
    (Hu : (3 <= length (unused l))%nat) (Hb : forall k, refs l k + Z.of_nat (length path) < 2 ^ 31 - 4) :
  let '(res, n) := walk f d false i (components path) in
  exists r l' w', namei rootfs pid cwd path (quiet l w) = Ret r (quiet l' w') /\ cache_ok None l' /\
    match res with
    | None => r = None /\ forall k, refs l' k = refs l k + n * at_key (d, fs_root f) k
    | Some (j, _) => exists c ip, r = Some c /\ l' !! c = Some ip /\ key ip = (d, j) /\ 0 < ref ip /\
        forall k, refs l' k = refs l k + at_key (d, j) k + n * at_key (d, fs_root f) k
    end.
Proof using no_mounts.
  destruct (namex_run rootfs cwd l w f d path i false Hc Hf Hs Hu Hb) as (r & l' & w' & E & Hok & HW).
  destruct (walk f d false i (components path)) as [res n]. unfold namei. exists (fst <$> r), l', w'.
  rewrite (bind_run _ _ _ _ _ E). split; [done|]. split; [done|]. cbn [fst snd] in HW. destruct res as [[j nm]|].
  - destruct HW as (c & ip & -> & ? & ? & ? & ?). by exists c, ip.
  - by destruct HW as [-> ?].
Qed.

(** [nameiparent], under the same conditions, returns the directory of the
    last component and that component's name, with the same accounting of
    references; a path without a component, or one that leads through a
    missing entry or a file, gives NULL. *)
Theorem nameiparent_resolves rootfs cwd l w f d path i
    (Hc : cache_ok None l) (Hf : find_vfs vl SDMAJOR d = Some f) (Hs : starts rootfs cwd l f d path i)
    (Hu : (3 <= length (unused l))%nat) (Hb : forall k, refs l k + Z.of_nat (length path) < 2 ^ 31 - 4) :
  exists r l' w', nameiparent rootfs pid cwd path (quiet l w) = Ret r (quiet l' w') /\
    walked d (d, fs_root f) (refs l) 0 (walk f d true i (components path)) r l'.
Proof using no_mounts. by apply namex_run. Qed.

End Cache.
(** * A small file system

    The root 1 holds a directory "a", inode 2, which holds a file "b", inode 3;
    there is no other inode. *)

Definition tree_attr (_ _ i : Z) : attr :=
  mkAttr (if i <=? 2 then T_DIR else T_FILE) 0 0 1 64 493 0 0 (0, 0) (0, 0) (0, 0).

Definition tree_entry (_ _ i : Z) (name : list Z) : option (Z * Z) :=
  if (i =? 1) && bool_decide (name = [97]) then Some (2, T_DIR)
  else if (i =? 2) && bool_decide (name = [98]) then Some (3, T_FILE)
  else None.

#[local] Instance tree : FileSystem unit := {
  fs_root _ := 1;
  fs_load f d i := if (1 <=? i) && (i <=? 3) then ret (tree_attr f d i) else panic;
  fs_search f d i _ name := ret (tree_entry f d i name, 0);
  fs_itrunc _ _ _ a := ret a;
  fs_iupdate _ _ _ _ := ret tt;
  fs_ialloc _ _ _ := panic;
  fs_dirlink _ _ _ a _ _ _ := ret (- 1, a);
  fs_fill _ := ret true;
  fs_cleanup _ _ _ := ret tt
}.

#[local] Instance tree_ro : ReadOnly tree tt.
Proof.
  refine {| attr_of := tree_attr; entry_of := tree_entry; off_of := fun _ _ _ _ => 0; there _ _ i := 1 <= i <= 3 |}; try done.
  - intros f d i Hi. cbn. by rewrite (proj2 (Z.leb_le 1 i)), (proj2 (Z.leb_le i 3)) by lia.
  - intros f d i _. unfold tree_attr. cbn. destruct (i <=? 2); done.
  - intros f d i name j t _. unfold tree_entry. repeat case_match; intros [= <- <-]; split; (done || lia).
Defined.

Definition free_inode : inode := mkI 0 0 0 (mkL false 0) false 0 zero_attr.
Definition empty_cache : list inode := replicate 4 free_inode.

Lemma empty_cache_ok : cache_ok tt 5 [(0, 1, 7)] None empty_cache.
Proof.
  split.
  - intros c ip [-> _]%lookup_replicate. split; cbn; [done|done|done|lia|lia].
  - intros c c' ip ip' [-> _]%lookup_replicate _ Hr. cbn in Hr. lia.
Qed.

(** "/a//b" *)
Definition path_ab : list Z := [47; 97; 47; 47; 98].

Lemma starts_ab : starts tt 7 0 empty_cache 7 1 path_ab 1.
Proof. split; [done|]. split; [done|]. split; [done|]. change (1 <= 1 <= 3). lia. Qed.

Lemma namei_resolves_witness :
  exists l' w' c ip, namei 7 5 0 path_ab (quiet tt [] [(0, 1, 7)] empty_cache []) = Ret (Some c) (quiet tt [] [(0, 1, 7)] l' w') /\
    l' !! c = Some ip /\ key ip = (1, 3) /\ refs l' (1, 3) = 1 /\ refs l' (1, 2) = 0 /\ refs l' (1, 1) = 2.
Proof.
  pose proof (namei_resolves tt 5 [] [(0, 1, 7)] (Forall_nil_2 _) 7 0 empty_cache [] 7 1 path_ab 1 empty_cache_ok
    eq_refl starts_ab ltac:(vm_compute; lia)) as H.
  destruct H as (r & l' & w' & E & _ & c & ip & -> & Ec & Hk & _ & Hr).
  { intros k. cbn. lia. }
  exists l', w', c, ip. rewrite !Hr. done.
Defined.

End Vfs.
