(* ===== verification/Fileops.v ===== *)
(** The calls on paths: link, symlink, readlink, unlink, rename, chmod, chown,
    utimensat (kern/file.c), chdir, mkdirat and mknodat (kern/sysfile.c), above
    the inode cache and path walk of [Vfs].

    The state adds to that of [Vfs] the number of transactions of the log this
    process is in ([begin_op] and [end_op] of kern/log.c may make it wait, which
    is the matter of [Log]).  What these calls need of a file system beyond
    [Vfs.FileSystem] is the class [FileOps].  The theorems follow the locks and
    transactions through every path of these calls. *)

From stdpp Require Import base list.
From Stdlib Require Import ZArith Lia Bool.
From S2P Require Import Prelude Vfs.

Import Vfs.

Module Fileops.

Definition T_DEV : Z := 3.
Definition T_SYMLINK : Z := 5.
Definition AT_REMOVEDIR : Z := 0x200.
Definition S_IFMT : Z := 0xf000.
Definition S_IXUGO : Z := 0x49.
Definition UTIME_NOW : Z := 0x3fffffff.
Definition UTIME_OMIT : Z := 0x3ffffffe.

Class FileOps (F : Type) : Type := {
  fs_readi : Z -> Z -> Z -> attr -> Z -> Z -> M F (Z * list Z);          (* offset, length: result, bytes *)
  fs_writei : Z -> Z -> Z -> attr -> list Z -> Z -> M F (Z * attr);
  fs_isdirempty : Z -> Z -> Z -> attr -> M F bool;
  fs_unlink : Z -> Z -> Z -> attr -> Z -> M F (Z * attr);                (* offset *)
  fs_namecmp : Z -> list Z -> list Z -> Z;
  fs_direntlookup : Z -> Z -> Z -> attr -> Z -> M F (option (list Z * Z)) (* inode number: entry, offset *)
}.

Section Ops.
Context {F : Type} {FS : FileSystem F} {FO : FileOps F}.
Context (rootfs pid : Z) (cwd : nat) (umask cuid cgid : Z) (now : Z * Z) (permission : attr -> Z -> Z).
Context (euid : Z) (groups : list Z) (cap_chown : bool).

Record ostate : Type := mkO { vs : @vstate F; depth : Z }.

Definition set_vs (v : vstate) (s : ostate) : ostate := mkO v (depth s).

Definition on_v {A} : M vstate A -> M ostate A := zoom vs set_vs.

Definition begin_op : M ostate unit := modify (fun s => mkO (vs s) (depth s + 1)).
Definition end_op : M ostate unit := modify (fun s => mkO (vs s) (depth s - 1)).

Definition o_namei (path : list Z) : M ostate (option nat) := on_v (namei rootfs pid cwd path).
Definition o_nameiparent (path : list Z) : M ostate (option (nat * list Z)) := on_v (nameiparent rootfs pid cwd path).
Definition o_ilock (c : nat) : M ostate unit := on_v (ilock pid c).
Definition o_iunlock (c : nat) : M ostate unit := on_v (generic_iunlock pid c).
Definition o_iunlockput (c : nat) : M ostate unit := on_v (iunlockput pid c).
Definition o_iput (c : nat) : M ostate unit := on_v (iput pid c).
Definition o_geti (c : nat) : M ostate inode := on_v (geti c).
Definition o_updattr (c : nat) (f : attr -> attr) : M ostate unit := on_v (updattr c f).
Definition o_iupdate (c : nat) : M ostate unit := on_v (iupdate c).
Definition o_dirlink (c : nat) (name : list Z) (i t : Z) : M ostate Z := on_v (generic_dirlink pid c name i t).
Definition o_dirlookup (c : nat) (name : list Z) : M ostate (option nat * option Z) := on_v (dirlookup_off c name).

(** A file system operation on the inode [c], which may change its fields. *)
Definition o_fs {A} (c : nat) (m : Z -> Z -> Z -> attr -> M F A) : M ostate A :=
  let* ip := o_geti c in on_v (on_fs (m (fs_t ip) (dev ip) (inum ip) (at_ ip))).

Definition o_fs_attr {A} (c : nat) (m : Z -> Z -> Z -> attr -> M F (A * attr)) : M ostate A :=
  let* r := o_fs c m in
  o_updattr c (fun _ => r.2) ;;
  ret r.1.

Definition set_mode (m : Z) (a : attr) : attr :=
  mkAttr (type a) (major a) (minor a) (nlink a) (size a) m (uid a) (gid a) (atime a) (mtime a) (ctime a).
Definition set_uid (u : Z) (a : attr) : attr :=
  mkAttr (type a) (major a) (minor a) (nlink a) (size a) (mode a) u (gid a) (atime a) (mtime a) (ctime a).
Definition set_gid (g : Z) (a : attr) : attr :=
  mkAttr (type a) (major a) (minor a) (nlink a) (size a) (mode a) (uid a) g (atime a) (mtime a) (ctime a).
Definition set_atime (t : Z * Z) (a : attr) : attr :=
  mkAttr (type a) (major a) (minor a) (nlink a) (size a) (mode a) (uid a) (gid a) t (mtime a) (ctime a).
Definition set_mtime (t : Z * Z) (a : attr) : attr :=
  mkAttr (type a) (major a) (minor a) (nlink a) (size a) (mode a) (uid a) (gid a) (atime a) t (ctime a).
Definition set_ctime (t : Z * Z) (a : attr) : attr :=
  mkAttr (type a) (major a) (minor a) (nlink a) (size a) (mode a) (uid a) (gid a) (atime a) (mtime a) t.

(** * Links *)

(** From the label [bad]. *)
Definition filelink_bad (ip : nat) (error : Z) : M ostate Z :=
  o_ilock ip ;;
  o_updattr ip (fun a => set_nlink (u16 (nlink a - 1)) a) ;;
  o_iupdate ip ;;
  o_iunlockput ip ;;
  end_op ;;
  ret error.

Definition filelink (old new : list Z) : M ostate Z :=
  begin_op ;;
  let* r := o_namei old in
  match r with
  | None => end_op ;; ret (- ENOENT)
  | Some ip =>
      o_ilock ip ;;
      let* i := o_geti ip in
      if type (at_ i) =? T_DIR then o_iunlockput ip ;; end_op ;; ret (- EPERM)
      else
        o_updattr ip (fun a => set_nlink (u16 (nlink a + 1)) a) ;;
        o_iupdate ip ;;
        o_iunlock ip ;;
        let* r := o_nameiparent new in
        match r with
        | None => filelink_bad ip (- ENOENT)
        | Some (dp, name) =>
            o_ilock dp ;;
            let* d := o_geti dp in
            let* i := o_geti ip in
            if negb (dev d =? dev i) then o_iunlockput dp ;; filelink_bad ip (- EXDEV)
            else
              let* error := o_dirlink dp name (inum i) (type (at_ i)) in
              if negb (error =? 0) then o_iunlockput dp ;; filelink_bad ip error
              else
                o_iunlockput dp ;;
                o_iput ip ;;
                end_op ;;
                ret 0
        end
  end.

Definition filesymlink (old new : list Z) : M ostate Z :=
  begin_op ;;
  let* r := o_nameiparent new in
  match r with
  | None => end_op ;; ret (- ENOENT)
  | Some (dp, name) =>
      o_ilock dp ;;
      let* d := o_geti dp in
      let* ip := on_v (ialloc now (fs_t d) (dev d) T_SYMLINK) in
      o_ilock ip ;;
      o_updattr ip (fun a => mkAttr T_SYMLINK 0 0 1 (size a) 0xa1ff (uid a) (gid a) now now now) ;;
      o_iupdate ip ;;
      let* i := o_geti ip in
      let* error := o_dirlink dp name (inum i) (type (at_ i)) in
      if negb (error =? 0) then
        o_iunlockput dp ;;
        o_iunlockput ip ;;
        end_op ;;
        ret error
      else
        o_iupdate dp ;;
        o_iunlockput dp ;;
        o_fs_attr ip (fun f d i a => fs_writei f d i a old 0) ;;
        o_iupdate ip ;;
        o_iunlockput ip ;;
        end_op ;;
        ret 0
  end.

(** The result and the bytes stored. *)
Definition filereadlink (path : list Z) (bufsize : Z) : M ostate (Z * list Z) :=
  begin_op ;;
  let* r := o_nameiparent path in
  match r with
  | None => end_op ;; ret (- ENOTDIR, [])
  | Some (dp, _) =>
      o_iput dp ;;
      let* r := o_namei path in
      match r with
      | None => end_op ;; ret (- ENOENT, [])
      | Some ip =>
          o_ilock ip ;;
          let* i := o_geti ip in
          if negb (type (at_ i) =? T_SYMLINK) then o_iunlockput ip ;; end_op ;; ret (- EINVAL, [])
          else
            let* r := o_fs ip (fun f d i a => fs_readi f d i a 0 bufsize) in
            if r.1 <=? 0 then o_iunlockput ip ;; end_op ;; ret (- EIO, [])
            else o_iunlockput ip ;; end_op ;; ret r
      end
  end.

(** From the labels [baddp] and [badip]. *)
Definition unlink_baddp (dp : nat) (error : Z) : M ostate Z := o_iunlockput dp ;; end_op ;; ret error.
Definition unlink_badip (dp ip : nat) (error : Z) : M ostate Z := o_iunlockput ip ;; unlink_baddp dp error.

(** The checks on the inode to be removed: an error, or none. *)
Definition unlink_check (ip : nat) (flags : Z) : M ostate (option Z) :=
  let* i := o_geti ip in
  if negb (Z.land flags AT_REMOVEDIR =? 0) then
    if negb (type (at_ i) =? T_DIR) then ret (Some (- ENOTDIR))
    else let* e := o_fs ip fs_isdirempty in ret (if e then None else Some (- EPERM))
  else if type (at_ i) =? T_DIR then ret (Some (- EISDIR)) else ret None.

Definition fileunlink (path : list Z) (flags : Z) : M ostate Z :=
  begin_op ;;
  let* r := o_nameiparent path in
  match r with
  | None => end_op ;; ret (- ENOENT)
  | Some (dp, name) =>
      o_ilock dp ;;
      let* d := o_geti dp in
      if (fs_namecmp (fs_t d) name [46] =? 0) || (fs_namecmp (fs_t d) name [46; 46] =? 0) then unlink_baddp dp (- EPERM)
      else
        let* r := o_dirlookup dp name in
        match r.1 with
        | None => unlink_baddp dp (- ENOENT)
        | Some ip =>
            o_ilock ip ;;
            let* i := o_geti ip in
            if nlink (at_ i) <? 1 then ret (- EPERM)
            else
              let* e := unlink_check ip flags in
              match e with
              | Some error => unlink_badip dp ip error
              | None =>
                  match r.2 with
                  | None => panic
                  | Some off =>
                      let* u := o_fs_attr dp (fun f d i a => fs_unlink f d i a off) in
                      if u <? 0 then unlink_badip dp ip (- EIO)
                      else
                        let* i := o_geti ip in
                        when (type (at_ i) =? T_DIR)
                          (o_updattr dp (fun a => set_nlink (u16 (nlink a - 1)) a) ;; o_iupdate dp) ;;
                        o_iunlockput dp ;;
                        o_updattr ip (fun a => set_nlink (u16 (nlink a - 1)) a) ;;
                        o_iupdate ip ;;
                        o_iunlockput ip ;;
                        end_op ;;
                        ret 0
                  end
              end
        end
  end.

(** * Renaming *)

(** [dp/name1] becomes [dp/name2]; [junk] is what follows the name in its
    buffer.  Errors return with the locks held. *)
Definition rename (dp : nat) (name1 name2 junk : list Z) : M ostate Z :=
  o_ilock dp ;;
  let* r := o_dirlookup dp name1 in
  match r.1 with
  | None => ret (- ENOENT)
  | Some ip =>
      o_ilock ip ;;
      match r.2 with
      | None => panic
      | Some off =>
          let* i := o_geti ip in
          let de := le_bytes 4 (inum i) ++ le_bytes 2 (type (at_ i)) ++ take 58 (name2 ++ 0 :: junk) in
          let* n := o_fs_attr dp (fun f d i a => fs_writei f d i a de off) in
          if negb (n =? 64) then ret (- ENOSPC)
          else
            o_iupdate dp ;;
            o_updattr ip (set_ctime now) ;;
            o_iupdate ip ;;
            o_iunlockput ip ;;
            o_iunlockput dp ;;
            ret 0
      end
  end.

(** The entry of [old_ip] in [dp] is redirected to [new_ip]. *)
Definition reinode (dp old_ip new_ip : nat) : M ostate Z :=
  o_ilock dp ;;
  o_ilock old_ip ;;
  o_ilock new_ip ;;
  let* o := o_geti old_ip in
  let* r := o_fs dp (fun f d i a => fs_direntlookup f d i a (inum o)) in
  match r with
  | None => ret (- ENOENT)
  | Some (de, off) =>
      let* n := o_geti new_ip in
      let* w := o_fs_attr dp (fun f d i a => fs_writei f d i a (le_bytes 4 (inum n) ++ drop 4 de) off) in
      if negb (w =? 64) then ret (- ENOSPC)
      else
        o_iupdate dp ;;
        o_updattr old_ip (set_ctime now) ;;
        o_updattr new_ip (set_ctime now) ;;
        o_iupdate old_ip ;;
        o_iupdate new_ip ;;
        o_iunlockput old_ip ;;
        o_iunlockput new_ip ;;
        o_iunlockput dp ;;
        ret 0
  end.

Definition removedir (i : inode) : Z := if type (at_ i) =? T_DIR then AT_REMOVEDIR else 0.

Definition filerename (path1 path2 junk : list Z) : M ostate Z :=
  begin_op ;;
  let* r1 := o_namei path1 in
  match r1 with
  | None => end_op ;; ret (- ENOENT)
  | Some ip1 =>
      let* d1 := o_nameiparent path1 in
      let* r2 := o_namei path2 in
      let* d2 := o_nameiparent path2 in
      if bool_decide (Some ip1 = r2) then ret 0
      else if bool_decide ((fst <$> d1) = (fst <$> d2)) then
        match r2 with
        | None =>
            match d1, d2 with
            | Some (dp, name1), Some (_, name2) =>
                let* error := rename dp name1 name2 junk in
                end_op ;; ret (if error <? 0 then error else 0)
            | _, _ => panic
            end
        | Some ip2 =>
            match d2 with
            | None => panic
            | Some (dp2, _) =>
                let* error := reinode dp2 ip2 ip1 in
                if error <? 0 then end_op ;; ret error
                else let* i := o_geti ip2 in fileunlink path2 (removedir i)
            end
        end
      else
        match d2 with
        | None => panic
        | Some (dp2, name2) =>
            match r2 with
            | None =>
                let* i := o_geti ip1 in
                let* error := o_dirlink dp2 name2 (inum i) (type (at_ i)) in
                if error <? 0 then end_op ;; ret error
                else end_op ;; let* i := o_geti ip1 in fileunlink path1 (removedir i)
            | Some ip2 =>
                let* error := reinode dp2 ip2 ip1 in
                if error <? 0 then end_op ;; ret error
                else end_op ;; let* i := o_geti ip2 in fileunlink path2 (removedir i)
            end
        end
  end.

(** * Attributes *)

Definition utimensat (path : list Z) (times : option ((Z * Z) * (Z * Z))) : M ostate Z :=
  begin_op ;;
  let* r := o_nameiparent path in
  match r with
  | None => end_op ;; ret (- ENOENT)
  | Some (dp, name) =>
      o_ilock dp ;;
      let* r := o_dirlookup dp name in
      match r.1 with
      | None => o_iunlockput dp ;; end_op ;; ret (- ENOENT)
      | Some ip =>
          o_iunlockput dp ;;
          o_ilock ip ;;
          (match times with
           | None => o_updattr ip (fun a => set_atime now (set_mtime now a))
           | Some (t0, t1) =>
               (if t0.2 =? UTIME_NOW then o_updattr ip (set_atime now)
                else if t0.2 =? UTIME_OMIT then ret tt
                else o_updattr ip (set_atime t0)) ;;
               (if t1.2 =? UTIME_NOW then o_updattr ip (set_mtime now)
                else if t1.2 =? UTIME_OMIT then ret tt
                else o_updattr ip (set_mtime t1))
           end) ;;
          o_iupdate ip ;;
          o_iunlockput ip ;;
          end_op ;;
          ret 0
      end
  end.

Definition filechmod (path : list Z) (md : Z) : M ostate Z :=
  begin_op ;;
  let* r := o_namei path in
  match r with
  | None => end_op ;; ret (- ENOENT)
  | Some ip =>
      o_ilock ip ;;
      o_updattr ip (fun a => set_mode (Z.lor (Z.land (mode a) S_IFMT) md) a) ;;
      o_iupdate ip ;;
      o_iunlockput ip ;;
      end_op ;;
      ret 0
  end.

(** From the label [bad] of [filechown]. *)
Definition chown_bad (ip : nat) (error : Z) : M ostate Z := o_iunlockput ip ;; end_op ;; ret error.

(** The change of the group: refused, or the new fields. *)
Definition chown_group (group : Z) (a : attr) : option attr :=
  if group =? u32 (-1) then Some a
  else if cap_chown then Some (set_gid group a)
  else if (uid a =? euid) && existsb (Z.eqb group) groups then Some (set_gid group a)
  else None.

(** [f]: the inode of an open file; without one, that of the path. *)
Definition filechown (f : option nat) (path : list Z) (owner group : Z) : M ostate Z :=
  begin_op ;;
  let* r := (match f with Some ip => ret (Some ip) | None => o_namei path end) in
  match r with
  | None => end_op ;; ret (- ENOENT)
  | Some ip =>
      o_ilock ip ;;
      if negb (owner =? u32 (-1)) && negb cap_chown then chown_bad ip (- EPERM)
      else
        when (negb (owner =? u32 (-1))) (o_updattr ip (set_uid owner)) ;;
        let* i := o_geti ip in
        match chown_group group (at_ i) with
        | None => chown_bad ip (- EPERM)
        | Some a =>
            o_updattr ip (fun _ => if negb (Z.land (mode a) S_IXUGO =? 0) && negb cap_chown
                                   then set_mode (Z.land (mode a) (not_w 32 0xc00)) a else a) ;;
            o_iupdate ip ;;
            chown_bad ip 0
        end
  end.

(** * Directories *)

(** The result and the new current directory. *)
Definition sys_chdir (path : list Z) : M ostate (Z * nat) :=
  begin_op ;;
  let* r := o_namei path in
  match r with
  | None => end_op ;; ret (- ENOENT, cwd)
  | Some ip =>
      o_ilock ip ;;
      let* i := o_geti ip in
      if negb (type (at_ i) =? T_DIR) && negb (type (at_ i) =? T_MOUNT) then o_iunlockput ip ;; end_op ;; ret (- ENOTDIR, cwd)
      else
        o_iunlock ip ;;
        o_iput cwd ;;
        end_op ;;
        ret (0, ip)
  end.

Definition o_create (path : list Z) (t maj min md : Z) : M ostate (nat + Z) :=
  on_v (create rootfs pid cwd umask cuid cgid now permission path t maj min md).

(** The test is [ip == 0], which no result of [create] is: an error number
    is followed as if it were a pointer. *)
Definition sys_mkdirat (path : list Z) (md : Z) : M ostate Z :=
  begin_op ;;
  let* r := o_create path T_DIR 0 0 (Z.lor md 0x4000) in
  match r with
  | inr _ => panic
  | inl ip => o_iunlockput ip ;; end_op ;; ret 0
  end.

(** [S_ISDIR] and the like on the mode. *)
Definition mknod_type (md : Z) : option Z :=
  let t := Z.land md S_IFMT in
  if t =? 0x4000 then Some T_DIR
  else if t =? 0x8000 then Some T_FILE
  else if (t =? 0x2000) || (t =? 0x6000) then Some T_DEV
  else if t =? 0xa000 then Some T_SYMLINK
  else None.

(** [maj] and [min] of the device number. *)
Definition sys_mknodat (path : list Z) (md maj min : Z) : M ostate Z :=
  begin_op ;;
  match mknod_type md with
  | None => ret (- EINVAL)
  | Some t =>
      let* r := o_create path t (if t =? T_DEV then maj else 0) (if t =? T_DEV then min else 0) md in
      match r with
      | inr e => end_op ;; ret e
      | inl ip => o_iunlockput ip ;; end_op ;; ret 0
      end
  end.

End Ops.
(** * Following the locks

    [follows f x m Q]: when [m] runs from a state that [f] sees as [x] and
    returns [a], [f] sees the final state as a [y] with [Q a y]. *)
Section Follow.
Context {S T : Type} (f : S -> T).

Definition follows {A} (x : T) (m : M S A) (Q : A -> T -> Prop) : Prop :=
  forall s, f s = x -> match m s with Ret a s' => Q a (f s') | _ => True end.

Definition keeps {A} (m : M S A) : Prop := forall x, follows x m (fun _ y => y = x).

Lemma follows_ret {A} (a : A) x (Q : A -> T -> Prop) : Q a x -> follows x (ret a) Q.
Proof. intros H s <-. exact H. Qed.

Lemma follows_bind {A B} (m : M S A) (k : A -> M S B) x Q R :
  follows x m Q -> (forall a y, Q a y -> follows y (k a) R) -> follows x (bind m k) R.
Proof.
  intros Hm Hk s Hs. specialize (Hm s Hs). unfold bind. destruct (m s) as [a s'| | |]; try done. by apply (Hk a (f s') Hm).
Qed.

Lemma follows_mono {A} (m : M S A) x (Q R : A -> T -> Prop) : follows x m Q -> (forall a y, Q a y -> R a y) -> follows x m R.
Proof. intros Hm H s Hs. specialize (Hm s Hs). destruct (m s); eauto. Qed.

Lemma follows_keep {A B} (m : M S A) (k : A -> M S B) x R :
  keeps m -> (forall a, follows x (k a) R) -> follows x (bind m k) R.
Proof. intros Hm Hk. eapply follows_bind; [apply Hm|]. intros a y ->. apply Hk. Qed.

Lemma follows_stop {A} (m : M S A) x (Q : A -> T -> Prop) : (forall s, match m s with Ret _ _ => False | _ => True end) -> follows x m Q.
Proof. intros H s _. specialize (H s). by destruct (m s). Qed.

Lemma keeps_ret {A} (a : A) : keeps (ret a).
Proof. intros x. by apply follows_ret. Qed.

Lemma keeps_bind {A B} (m : M S A) (k : A -> M S B) : keeps m -> (forall a, keeps (k a)) -> keeps (bind m k).
Proof. intros Hm Hk x. apply follows_keep; [done|]. intros a. apply Hk. Qed.

Lemma keeps_gets {A} (g : S -> A) : keeps (gets g).
Proof. by intros x s <-. Qed.

Lemma keeps_panic {A} : keeps (@panic S A).
Proof. by intros x s <-. Qed.

Lemma keeps_nofuel {A} : keeps (@nofuel S A).
Proof. by intros x s <-. Qed.

Lemma keeps_modify g : (forall s, f (g s) = f s) -> keeps (modify g).
Proof. intros H x s <-. apply H. Qed.

Lemma keeps_when b m : keeps m -> keeps (when b m).
Proof. destruct b; [done|]. intros _. apply keeps_ret. Qed.

Lemma keeps_assert b : keeps (assert b).
Proof. destruct b; [apply keeps_ret|apply keeps_panic]. Qed.
End Follow.

Create HintDb keeps.
#[export] Hint Resolve keeps_ret keeps_bind keeps_gets keeps_panic keeps_nofuel keeps_when keeps_assert : keeps.

Section Locks.
Context {F : Type} {FS : FileSystem F}.
Context (rootfs pid : Z) (cwd : nat) (umask cuid cgid : Z) (now : Z * Z) (permission : attr -> Z -> Z).

(** The sleep locks, by owner, and the two spin locks. *)
Definition owners (l : list inode) : list (option Z) := (fun i => if locked (lock i) then Some (owner (lock i)) else None) <$> l.

Definition locks (s : @vstate F) : list (option Z) * bool * bool := (owners (icache s), ic_lock s, mt_lock s).

Notation keeps := (keeps locks).

Lemma owners_alter g c l : (forall i, lock (g i) = lock i) -> owners (alter g c l) = owners l.
Proof.
  intros H. unfold owners. revert c. induction l as [|i l IH]; intros [|c]; cbn; try done.
  - by rewrite H.
  - f_equal. apply IH.
Qed.

Lemma owners_lock c k l :
  owners (alter (set_lock k) c l) = <[c := if locked k then Some (owner k) else None]> (owners l).
Proof.
  unfold owners. revert c. induction l as [|i l IH]; intros [|c]; cbn; try done. f_equal. apply IH.
Qed.

Lemma keeps_geti c : keeps (geti c).
Proof. intros x s <-. unfold geti. by destruct (icache s !! c). Qed.

Lemma keeps_updi c g : (forall i, lock (g i) = lock i) -> keeps (updi c g).
Proof. intros H. apply keeps_modify. intros s. unfold locks. cbn. by rewrite owners_alter. Qed.

Lemma keeps_on_fs {A} (m : M F A) : keeps (on_fs m).
Proof. intros x s <-. unfold on_fs, zoom. by destruct (m (fs s)). Qed.

Lemma keeps_inc_ref c : keeps (inc_ref c).
Proof. by apply keeps_updi. Qed.

Lemma keeps_updattr c g : keeps (updattr c g).
Proof. by apply keeps_updi. Qed.

#[local] Hint Resolve keeps_geti keeps_on_fs keeps_inc_ref keeps_updattr : keeps.

Lemma follows_acquire_ic V b m : follows locks (V, b, m) acquire_icache (fun _ y => b = false /\ y = (V, true, m)).
Proof. intros s [= <- <- <-]. unfold acquire_icache. by destruct (ic_lock s). Qed.

Lemma follows_release_ic V b m : follows locks (V, b, m) release_icache (fun _ y => b = true /\ y = (V, false, m)).
Proof. intros s [= <- <- <-]. unfold release_icache. by destruct (ic_lock s). Qed.

Lemma follows_acquire_mt V b m : follows locks (V, b, m) acquire_mtable (fun _ y => m = false /\ y = (V, b, true)).
Proof. intros s [= <- <- <-]. unfold acquire_mtable. by destruct (mt_lock s). Qed.

Lemma follows_release_mt V b m : follows locks (V, b, m) release_mtable (fun _ y => m = true /\ y = (V, b, false)).
Proof. intros s [= <- <- <-]. unfold release_mtable. by destruct (mt_lock s). Qed.

(** A section under the lock of the inode cache, or of the mount table. *)
Lemma keeps_ic_section {A B} (m : M vstate A) (k : A -> M vstate B) :
  keeps m -> (forall a, keeps (k a)) ->
  keeps (acquire_icache ;; bind m (fun a => release_icache ;; k a)).
Proof.
  intros Hm Hk [[V b] mt]. eapply follows_bind; [apply follows_acquire_ic|]. intros _ y [-> ->].
  apply follows_keep; [done|]. intros a. eapply follows_bind; [apply follows_release_ic|]. intros _ y [_ ->]. apply Hk.
Qed.

Lemma keeps_mt_section {A B} (m : M vstate A) (k : A -> M vstate B) :
  keeps m -> (forall a, keeps (k a)) ->
  keeps (acquire_mtable ;; bind m (fun a => release_mtable ;; k a)).
Proof.
  intros Hm Hk [[V b] mt]. eapply follows_bind; [apply follows_acquire_mt|]. intros _ y [-> ->].
  apply follows_keep; [done|]. intros a. eapply follows_bind; [apply follows_release_mt|]. intros _ y [_ ->]. apply Hk.
Qed.

Lemma keeps_mtablertinode c : keeps (mtablertinode c).
Proof. unfold mtablertinode. apply keeps_bind; [auto with keeps|]. intros ip. apply keeps_mt_section; auto with keeps. Qed.

Lemma keeps_mtablemntinode c : keeps (mtablemntinode c).
Proof. unfold mtablemntinode. apply keeps_bind; [auto with keeps|]. intros ip. apply keeps_mt_section; auto with keeps. Qed.

Lemma keeps_isinoderoot c : keeps (isinoderoot c).
Proof. unfold isinoderoot. apply keeps_bind; [auto with keeps|]. intros ip. apply keeps_mt_section; auto with keeps. Qed.

#[local] Hint Resolve keeps_mtablertinode keeps_mtablemntinode keeps_isinoderoot : keeps.

Lemma keeps_iget d i t : keeps (iget d i t).
Proof.
  intros [[V b] mt]. unfold iget. eapply follows_bind; [apply follows_acquire_ic|]. intros _ y [-> ->].
  assert (Hrel : forall A (a : A), follows locks (V, true, mt) (release_icache ;; ret a) (fun _ y => y = (V, false, mt))).
  { intros A a. eapply follows_bind; [apply follows_release_ic|]. intros _ y [_ ->]. by apply follows_ret. }
  apply follows_keep; [auto with keeps|]. intros l. destruct (find_cached l 0 d i) as [c|].
  - apply follows_keep; [auto with keeps|]. intros ip. destruct (type (at_ ip) =? T_MOUNT).
    + apply follows_keep; [auto with keeps|]. intros [rc|]; [|by apply follows_stop]. apply follows_keep; [auto with keeps|]. intros _. apply Hrel.
    + apply follows_keep; [auto with keeps|]. intros _. apply Hrel.
  - destruct (find_unused l 0) as [c|]; [|by apply follows_stop]. apply follows_keep; [apply keeps_gets|]. intros [f|]; [|by apply follows_stop].
    apply follows_keep; [by apply keeps_updi|]. intros _. eapply follows_bind; [apply follows_release_ic|]. intros _ y [_ ->].
    apply follows_keep; [auto with keeps|]. intros [|]; [by apply follows_ret|by apply follows_stop].
Qed.

Lemma keeps_idup c : keeps (idup c).
Proof.
  unfold idup. apply (keeps_ic_section (inc_ref c) (fun _ => ret c)); auto with keeps.
Qed.

#[local] Hint Resolve keeps_iget keeps_idup : keeps.

Lemma keeps_getroot g d : keeps (getroot g d).
Proof. apply keeps_iget. Qed.

Lemma keeps_dirlookup_off c name : keeps (dirlookup_off c name).
Proof.
  unfold dirlookup_off. apply keeps_bind; [auto with keeps|]. intros ip. repeat case_match; try solve [auto with keeps].
  - apply keeps_bind; [auto with keeps|]. intros [rc|]; auto with keeps.
  - apply keeps_bind; [auto with keeps|]. intros r. repeat case_match; auto with keeps.
Qed.

Lemma keeps_dirlookup c name : keeps (dirlookup c name).
Proof. unfold dirlookup. apply keeps_bind; [apply keeps_dirlookup_off|auto with keeps]. Qed.

#[local] Hint Resolve keeps_getroot keeps_dirlookup_off keeps_dirlookup : keeps.

End Locks.
(** ** Sleep locks and the path walk *)

Section Walks.
Context {F : Type} {FS : FileSystem F}.
Context (rootfs pid : Z) (cwd : nat) (umask cuid cgid : Z) (now : Z * Z) (permission : attr -> Z -> Z).

Notation keeps := (keeps (@locks F)).
Notation follows := (follows (@locks F)).

#[local] Hint Resolve keeps_geti keeps_on_fs keeps_inc_ref keeps_updattr keeps_mtablertinode keeps_mtablemntinode keeps_isinoderoot
  keeps_iget keeps_idup keeps_getroot keeps_dirlookup_off keeps_dirlookup : keeps.

(** With [c] locked by this process, and with [c] free. *)
Definition lk (c : nat) (V : list (option Z)) : list (option Z) := <[c := Some pid]> V.
Definition free (c : nat) (V : list (option Z)) : Prop := V !! c = Some None.

Lemma lk_free c V : free c V -> <[c := None]> (lk c V) = V.
Proof. intros H. unfold lk. by rewrite list_insert_insert_eq, list_insert_id. Qed.

Lemma lk_comm c d V : c <> d -> <[c := None]> (lk d V) = lk d (<[c := None]> V).
Proof. intros H. unfold lk. by rewrite list_insert_insert_ne. Qed.

Lemma free_lk c d V : free c (lk d V) -> c <> d /\ free c V.
Proof.
  unfold free, lk. intros H. destruct (decide (c = d)) as [->|Hne].
  - apply list_lookup_insert_Some in H as [(_ & ? & _)|[? _]]; done.
  - by rewrite list_lookup_insert_ne in H.
Qed.

Lemma lk_free_below c d V : c <> d -> free c V -> <[c := None]> (lk c (lk d V)) = lk d V.
Proof. intros Hne H. apply lk_free. unfold free, lk. by rewrite list_lookup_insert_ne. Qed.

Lemma follows_acquiresleep V b m c :
  follows (V, b, m) (acquiresleep pid c) (fun _ y => free c V /\ y = (lk c V, b, m)).
Proof.
  intros s [= <- <- <-]. unfold acquiresleep, bind, geti. destruct (icache s !! c) as [i|] eqn:E; [|done].
  destruct (locked (lock i)) eqn:El; [done|]. unfold updi, modify. unfold locks. cbn. rewrite owners_lock. split; [|done].
  unfold free, owners. rewrite list_lookup_fmap, E. cbn. by rewrite El.
Qed.

Lemma follows_releasesleep V b m c : follows (V, b, m) (releasesleep c) (fun _ y => y = (<[c := None]> V, b, m)).
Proof. intros s [= <- <- <-]. unfold releasesleep, bind, updi, modify. unfold locks. cbn. by rewrite owners_lock. Qed.

Lemma keeps_iput c : keeps (iput pid c).
Proof.
  intros [[V b] m]. unfold iput. eapply follows_bind; [apply follows_acquiresleep|]. intros _ y [Hf ->].
  apply follows_keep; [auto with keeps|]. intros ip. apply follows_keep.
  { apply keeps_when. apply (keeps_ic_section (let* i := geti c in ret (ref i))); [auto with keeps|]. intros r. apply keeps_when.
    apply keeps_bind; [auto with keeps|]. intros a. apply keeps_bind; [by apply keeps_updi|]. intros _.
    apply keeps_bind; [auto with keeps|]. intros _. by apply keeps_updi. }
  intros _. eapply follows_bind; [apply follows_releasesleep|]. intros _ y ->. rewrite (lk_free _ _ Hf).
  eapply follows_bind; [apply follows_acquire_ic|]. intros _ y [-> ->]. apply follows_keep; [by apply keeps_updi|]. intros _.
  apply follows_keep; [auto with keeps|]. intros ip'. apply follows_keep; [auto with keeps|]. intros _.
  eapply follows_mono; [apply follows_release_ic|]. by intros _ y [_ ->].
Qed.

Lemma follows_iunlock V b m c :
  follows (V, b, m) (generic_iunlock pid c) (fun _ y => y = (<[c := None]> V, b, m)).
Proof.
  unfold generic_iunlock, holdingsleep. apply follows_keep; [auto with keeps|]. intros h. apply follows_keep; [auto with keeps|]. intros ip.
  destruct (negb h || (ref ip <? 1)); [by apply follows_stop|apply follows_releasesleep].
Qed.

Lemma follows_iunlockput V b m c :
  follows (V, b, m) (iunlockput pid c) (fun _ y => y = (<[c := None]> V, b, m)).
Proof.
  unfold iunlockput. eapply follows_bind; [apply follows_iunlock|]. intros _ y ->. apply keeps_iput.
Qed.

Lemma follows_ilock V b m c :
  follows (V, b, m) (ilock pid c) (fun _ y => free c V /\ y = (lk c V, b, m)).
Proof.
  unfold ilock. apply follows_keep; [auto with keeps|]. intros ip. destruct (ref ip <? 1); [by apply follows_stop|].
  eapply follows_bind; [apply follows_acquiresleep|]. intros _ y [Hf ->]. destruct (valid ip); [by apply follows_ret|].
  apply follows_keep; [auto with keeps|]. intros a. apply follows_keep; [by apply keeps_updi|]. intros _.
  destruct (type a =? 0); [by apply follows_stop|by apply follows_ret].
Qed.

(** The lock moves with the search over mount points. *)
Lemma follows_component_search V b m fuel : forall c name,
  free c V ->
  follows (lk c V, b, m) (component_search pid fuel c name) (fun r y => free r.2 V /\ y = (lk r.2 V, b, m)).
Proof.
  induction fuel as [|f IH]; intros c name Hf; cbn [component_search]; [by apply follows_stop|].
  apply follows_keep; [auto with keeps|]. intros [n|]; [|by apply follows_ret].
  apply follows_keep; [auto with keeps|]. intros nx. apply follows_keep; [auto with keeps|]. intros ir.
  apply follows_keep; [auto with keeps|]. intros nx'. apply follows_keep; [auto with keeps|]. intros rt.
  apply follows_keep; [destruct (_ =? _); auto with keeps|]. intros root. destruct (root && is_dotdot name); [|by apply follows_ret].
  apply follows_keep; [auto with keeps|]. intros [mi|]; [|by apply follows_stop].
  eapply follows_bind; [apply follows_iunlockput|]. intros _ y ->. rewrite (lk_free _ _ Hf).
  eapply follows_bind; [apply follows_ilock|]. intros _ y [Hm ->]. apply follows_keep; [auto with keeps|]. intros _. by apply IH.
Qed.

Lemma keeps_namex_loop fuel : forall c path parent, keeps (namex_loop pid fuel c path parent).
Proof.
  induction fuel as [|f IH]; intros c path parent; cbn [namex_loop]; [apply keeps_nofuel|].
  destruct (skipelem path) as [[name rest]|].
  2: { destruct parent; [|apply keeps_ret]. apply keeps_bind; [apply keeps_iput|intros _; apply keeps_ret]. }
  intros [[V b] m]. eapply follows_bind; [apply follows_ilock|]. intros _ y [Hf ->]. apply follows_keep; [auto with keeps|]. intros ip.
  destruct (negb _).
  { eapply follows_bind; [apply follows_iunlockput|]. intros _ y ->. rewrite (lk_free _ _ Hf). by apply follows_ret. }
  destruct (parent && _).
  { eapply follows_bind; [apply follows_iunlock|]. intros _ y ->. rewrite (lk_free _ _ Hf). by apply follows_ret. }
  eapply follows_bind; [by apply follows_component_search|]. intros r y [Hr ->].
  eapply follows_bind; [apply follows_iunlockput|]. intros _ y ->. rewrite (lk_free _ _ Hr).
  destruct r.1 as [n|]; [apply IH|by apply follows_ret].
Qed.

Lemma keeps_namex path parent : keeps (namex rootfs pid cwd path parent).
Proof. unfold namex. apply keeps_bind; [repeat case_match; auto with keeps|]. intros c. apply keeps_namex_loop. Qed.

Lemma keeps_namei path : keeps (namei rootfs pid cwd path).
Proof. unfold namei. apply keeps_bind; [apply keeps_namex|auto with keeps]. Qed.

Lemma keeps_generic_dirlink c name i t : keeps (generic_dirlink pid c name i t).
Proof.
  unfold generic_dirlink. apply keeps_bind; [auto with keeps|]. intros [n|].
  - apply keeps_bind; [apply keeps_iput|auto with keeps].
  - apply keeps_bind; [auto with keeps|]. intros ip. apply keeps_bind; [auto with keeps|]. intros r.
    apply keeps_bind; [by apply keeps_updi|auto with keeps].
Qed.

Lemma keeps_iupdate c : keeps (iupdate c).
Proof. unfold iupdate. apply keeps_bind; auto with keeps. Qed.

Lemma keeps_ialloc f d t : keeps (ialloc now f d t).
Proof. unfold ialloc. apply keeps_bind; [auto with keeps|]. intros i. apply keeps_bind; auto with keeps. Qed.

#[local] Hint Resolve keeps_iput keeps_namei keeps_generic_dirlink keeps_iupdate keeps_ialloc : keeps.

(** [create] returns a new lock, on its result, or none. *)
Lemma follows_create V b m path t maj min md :
  follows (V, b, m) (create rootfs pid cwd umask cuid cgid now permission path t maj min md)
    (fun r y => match r with inl ip => free ip V /\ y = (lk ip V, b, m) | inr e => e < 0 /\ y = (V, b, m) end).
Proof.
  unfold create. apply follows_keep; [apply keeps_namex|]. intros [[dp name]|]; [|apply follows_ret; unfold ENOENT; split; [lia|done]].
  eapply follows_bind; [apply follows_ilock|]. intros _ y [Hd ->]. apply follows_keep; [auto with keeps|]. intros d.
  assert (Hput : forall A (a : A), follows (lk dp V, b, m) (iunlockput pid dp ;; ret a) (fun r y => r = a /\ y = (V, b, m))).
  { intros A a. eapply follows_bind; [apply follows_iunlockput|]. intros _ y ->. rewrite (lk_free _ _ Hd). by apply follows_ret. }
  destruct (permission (at_ d) MAY_EXEC <? 0).
  { eapply follows_mono; [apply Hput|]. intros r y [-> ->]. unfold EACCES. split; [lia|done]. }
  apply follows_keep; [auto with keeps|]. intros [ip|].
  - eapply follows_bind; [apply follows_iunlockput|]. intros _ y ->. rewrite (lk_free _ _ Hd).
    eapply follows_bind; [apply follows_ilock|]. intros _ y [Hi ->]. apply follows_keep; [auto with keeps|]. intros i.
    destruct (_ && _); [by apply follows_ret|]. eapply follows_bind; [apply follows_iunlockput|]. intros _ y ->. rewrite (lk_free _ _ Hi).
    apply follows_ret. unfold EEXIST. split; [lia|done].
  - apply follows_keep; [auto with keeps|]. intros ip. eapply follows_bind; [apply follows_ilock|]. intros _ y [Hi ->].
    apply free_lk in Hi as [Hne Hi]. do 2 (apply follows_keep; [auto with keeps|]; intros _). apply follows_keep; [auto with keeps|]. intros i.
    apply follows_keep.
    { apply keeps_when. do 2 (apply keeps_bind; [auto with keeps|]; intros _). apply keeps_bind; [auto with keeps|]. intros r1.
      apply keeps_bind; [destruct (r1 <? 0); auto with keeps|auto with keeps]. }
    intros _. apply follows_keep; [auto with keeps|]. intros r. apply follows_keep; [auto with keeps|]. intros _.
    eapply follows_bind; [apply follows_iunlockput|]. intros _ y ->. rewrite lk_comm by done. rewrite (lk_free _ _ Hd). by apply follows_ret.
Qed.

End Walks.
(** ** Calls *)

Section Calls.
Context {F : Type} {FS : FileSystem F} {FO : FileOps F}.
Context (rootfs pid : Z) (cwd : nat) (umask cuid cgid : Z) (now : Z * Z) (permission : attr -> Z -> Z).
Context (euid : Z) (groups : list Z) (cap_chown : bool).

(** The locks, and the transactions the process is in. *)
Definition view (s : @ostate F) : list (option Z) * bool * bool * Z := (locks (vs s), depth s).

(** A call that returns with the locks and transactions it was entered with. *)
Notation balanced := (keeps view).

Lemma follows_on_v {A} x n (m : M vstate A) Q :
  follows locks x m Q -> follows view (x, n) (on_v m) (fun a y => Q a y.1 /\ y.2 = n).
Proof.
  intros Hm s [= <- <-]. unfold on_v, zoom. specialize (Hm (vs s) eq_refl). by destruct (m (vs s)).
Qed.

Lemma keeps_on_v {A} (m : M vstate A) : keeps locks m -> balanced (on_v m).
Proof. intros Hm [x n]. eapply follows_mono; [apply follows_on_v, Hm|]. intros a [y k]. cbn. by intros [-> ->]. Qed.

Lemma follows_begin_op x n : follows view (x, n) begin_op (fun _ y => y = (x, n + 1)).
Proof. by intros s [= <- <-]. Qed.

Lemma follows_end_op x n : follows view (x, n) end_op (fun _ y => y = (x, n - 1)).
Proof. by intros s [= <- <-]. Qed.

Lemma follows_o_ilock V b m n c : follows view (V, b, m, n) (o_ilock pid c) (fun _ y => free c V /\ y = (lk pid c V, b, m, n)).
Proof. eapply follows_mono; [apply follows_on_v, follows_ilock|]. intros _ [y k]. cbn. by intros [[? ->] ->]. Qed.

Lemma follows_o_iunlock V b m n c : follows view (V, b, m, n) (o_iunlock pid c) (fun _ y => y = (<[c := None]> V, b, m, n)).
Proof. eapply follows_mono; [apply follows_on_v, follows_iunlock|]. intros _ [y k]. cbn. by intros [-> ->]. Qed.

Lemma follows_o_iunlockput V b m n c : follows view (V, b, m, n) (o_iunlockput pid c) (fun _ y => y = (<[c := None]> V, b, m, n)).
Proof. eapply follows_mono; [apply follows_on_v, follows_iunlockput|]. intros _ [y k]. cbn. by intros [-> ->]. Qed.

Lemma follows_o_create V b m n path t maj min md :
  follows view (V, b, m, n) (o_create rootfs pid cwd umask cuid cgid now permission path t maj min md)
    (fun r y => match r with inl ip => free ip V /\ y = (lk pid ip V, b, m, n) | inr e => e < 0 /\ y = (V, b, m, n) end).
Proof.
  eapply follows_mono; [apply follows_on_v, follows_create|]. intros [ip|e] [y k]; cbn; by intros [[? ->] ->].
Qed.

Lemma keeps_o_namei path : balanced (o_namei rootfs pid cwd path).
Proof. apply keeps_on_v, keeps_namei. Qed.
Lemma keeps_o_nameiparent path : balanced (o_nameiparent rootfs pid cwd path).
Proof. apply keeps_on_v, keeps_namex. Qed.
Lemma keeps_o_iput c : balanced (o_iput pid c).
Proof. apply keeps_on_v, keeps_iput. Qed.
Lemma keeps_o_geti c : balanced (o_geti c).
Proof. apply keeps_on_v, keeps_geti. Qed.
Lemma keeps_o_updattr c g : balanced (o_updattr c g).
Proof. apply keeps_on_v, keeps_updattr. Qed.
Lemma keeps_o_iupdate c : balanced (o_iupdate c).
Proof. apply keeps_on_v, keeps_iupdate. Qed.
Lemma keeps_o_dirlink c name i t : balanced (o_dirlink pid c name i t).
Proof. apply keeps_on_v, keeps_generic_dirlink. Qed.
Lemma keeps_o_dirlookup c name : balanced (o_dirlookup c name).
Proof. apply keeps_on_v, keeps_dirlookup_off. Qed.
Lemma keeps_o_ialloc f d t : balanced (on_v (ialloc now f d t)).
Proof. apply keeps_on_v, keeps_ialloc. Qed.
Lemma keeps_o_fs {A} c (g : Z -> Z -> Z -> attr -> M F A) : balanced (o_fs c g).
Proof. unfold o_fs. apply keeps_bind; [apply keeps_o_geti|]. intros ip. apply keeps_on_v, keeps_on_fs. Qed.
Lemma keeps_o_fs_attr {A} c (g : Z -> Z -> Z -> attr -> M F (A * attr)) : balanced (o_fs_attr c g).
Proof.
  unfold o_fs_attr. apply keeps_bind; [apply keeps_o_fs|]. intros r. apply keeps_bind; [apply keeps_o_updattr|]. intros _. apply keeps_ret.
Qed.

#[local] Hint Resolve keeps_o_namei keeps_o_nameiparent keeps_o_iput keeps_o_geti keeps_o_updattr keeps_o_iupdate keeps_o_dirlink
  keeps_o_dirlookup keeps_o_ialloc keeps_o_fs keeps_o_fs_attr : keeps.

Lemma keeps_unlink_check ip flags : balanced (unlink_check ip flags).
Proof. unfold unlink_check. apply keeps_bind; [auto with keeps|]. intros i. repeat case_match; auto with keeps. Qed.

#[local] Hint Resolve keeps_unlink_check : keeps.

(** One step along a path of a call. *)
Ltac step :=
  match goal with
  | |- follows _ _ (bind (o_ilock _ _) _) _ => eapply follows_bind; [apply follows_o_ilock|]; intros _ ? [? ->]
  | |- follows _ _ (bind (o_iunlock _ _) _) _ => eapply follows_bind; [apply follows_o_iunlock|]; intros _ ? ->
  | |- follows _ _ (bind (o_iunlockput _ _) _) _ => eapply follows_bind; [apply follows_o_iunlockput|]; intros _ ? ->
  | |- follows _ _ (bind begin_op _) _ => eapply follows_bind; [apply follows_begin_op|]; intros _ ? ->
  | |- follows _ _ (bind end_op _) _ => eapply follows_bind; [apply follows_end_op|]; intros _ ? ->
  | |- follows _ _ (bind _ _) _ => apply follows_keep; [solve [auto with keeps]|]; intros ?
  | |- follows _ _ (ret _) _ => apply follows_ret
  | |- follows _ _ panic _ => by apply follows_stop
  | |- follows _ _ (if ?b then _ else _) _ => destruct b
  | |- follows _ _ (match ?x with _ => _ end) _ => destruct x
  end.

(** The locks that were taken are given back. *)
Ltac settle :=
  repeat match goal with
  | H : free _ (lk _ _ _) |- _ => apply free_lk in H as [? H]
  end;
  repeat first [match goal with H : free ?c ?V |- context [<[?c := None]> (lk _ ?c ?V)] => rewrite (lk_free _ c V H) end
               | rewrite lk_free_below by (assumption || congruence)
               | rewrite lk_comm by congruence];
  repeat f_equal; try lia; try done.

Lemma balanced_filelink_bad V b m n ip error :
  follows view (V, b, m, n) (filelink_bad pid ip error) (fun _ y => y = (V, b, m, n - 1)).
Proof. unfold filelink_bad. repeat step. settle. Qed.

Lemma balanced_filelink old new : balanced (filelink rootfs pid cwd old new).
Proof.
  intros [[[V b] m] n]. unfold filelink.
  repeat first [step | eapply follows_mono; [apply balanced_filelink_bad|]; intros _ ? ->]; settle.
Qed.

Lemma balanced_filesymlink old new : balanced (filesymlink rootfs pid cwd now old new).
Proof. intros [[[V b] m] n]. unfold filesymlink. repeat step; settle.
Qed.

Lemma balanced_filereadlink path size : balanced (filereadlink rootfs pid cwd path size).
Proof. intros [[[V b] m] n]. unfold filereadlink. repeat step; settle. Qed.

Lemma balanced_utimensat path times : balanced (utimensat rootfs pid cwd now path times).
Proof.
  intros [[[V b] m] n]. unfold utimensat. do 2 step. destruct a as [[dp name]|]; [|repeat step; settle].
  step. step. destruct a.1 as [ip|]; [|repeat step; settle]. do 2 step. apply follows_keep.
  { destruct times as [[t0 t1]|]; [|auto with keeps]. repeat case_match; auto with keeps. }
  intros _. repeat step. settle.
Qed.

Lemma balanced_filechmod path md : balanced (filechmod rootfs pid cwd path md).
Proof. intros [[[V b] m] n]. unfold filechmod. repeat step; settle. Qed.

Lemma balanced_filechown f path owner group :
  balanced (filechown rootfs pid cwd euid groups cap_chown f path owner group).
Proof.
  intros [[[V b] m] n]. unfold filechown, chown_bad. step. apply follows_keep; [destruct f; auto with keeps|]. intros r.
  repeat step; settle.
Qed.

Lemma balanced_sys_chdir path : balanced (sys_chdir rootfs pid cwd path).
Proof. intros [[[V b] m] n]. unfold sys_chdir. repeat step; settle. Qed.

Lemma balanced_sys_mkdirat path md : balanced (sys_mkdirat rootfs pid cwd umask cuid cgid now permission path md).
Proof.
  intros [[[V b] m] n]. unfold sys_mkdirat. step. eapply follows_bind; [apply follows_o_create|]. intros [ip|e] y; [|intros _; step].
  intros [? ->]. repeat step. settle.
Qed.

(** A mode of no known type leaves the transaction open. *)
Lemma follows_sys_mknodat V b m n path md maj min :
  follows view (V, b, m, n) (sys_mknodat rootfs pid cwd umask cuid cgid now permission path md maj min)
    (fun r y => y = (V, b, m, if mknod_type md then n else n + 1)).
Proof.
  unfold sys_mknodat. step. destruct (mknod_type md) as [t|]; [|step; done].
  eapply follows_bind; [apply follows_o_create|]. intros [ip|e] y [? ->]; repeat step; settle.
Qed.

(** An inode without links leaves both locks and the transaction. *)
Lemma follows_fileunlink V b m n path flags :
  follows view (V, b, m, n) (fileunlink rootfs pid cwd path flags)
    (fun r y => y = (V, b, m, n) \/
       (r = - EPERM /\ exists dp ip, dp <> ip /\ free dp V /\ free ip V /\ y = (lk pid ip (lk pid dp V), b, m, n + 1))).
Proof.
  unfold fileunlink, unlink_badip, unlink_baddp.
  do 2 step. destruct a as [[dp name]|]; [|repeat step; left; settle]. do 2 step. step; [repeat step; left; settle|].
  step. destruct a0.1 as [ip|]; [|repeat step; left; settle]. do 2 step. step.
  - step. right. split; [done|]. apply free_lk in H0 as [? ?]. by exists dp, ip.
  - repeat step; left; settle.
Qed.

End Calls.
(** When link, symlink, readlink, utimensat, chmod, chown, chdir or mkdir
    returns, on any file system and from any state of the inode cache, exactly
    the sleep locks, spin locks and log transactions are held that were held
    before.  unlink may return -EPERM with the inode and its directory locked
    and its transaction open, as it does for an inode without links, and is
    balanced otherwise; mknod with a mode of no known type leaves its
    transaction open.  rename is not among them, its error returns are not
    balanced. *)
Theorem calls_balanced {F} {FS : FileSystem F} {FO : FileOps F}
    rootfs pid cwd umask cuid cgid now permission euid groups cap_chown :
  (forall old new, keeps (@view F) (filelink rootfs pid cwd old new)) /\
  (forall old new, keeps (@view F) (filesymlink rootfs pid cwd now old new)) /\
  (forall path n, keeps (@view F) (filereadlink rootfs pid cwd path n)) /\
  (forall path times, keeps (@view F) (utimensat rootfs pid cwd now path times)) /\
  (forall path md, keeps (@view F) (filechmod rootfs pid cwd path md)) /\
  (forall f path owner group, keeps (@view F) (filechown rootfs pid cwd euid groups cap_chown f path owner group)) /\
  (forall path, keeps (@view F) (sys_chdir rootfs pid cwd path)) /\
  (forall path md, keeps (@view F) (sys_mkdirat rootfs pid cwd umask cuid cgid now permission path md)) /\
  (forall V b m n path flags, follows (@view F) (V, b, m, n) (fileunlink rootfs pid cwd path flags)
     (fun r y => y = (V, b, m, n) \/
        (r = - EPERM /\ exists dp ip, dp <> ip /\ free dp V /\ free ip V /\ y = (lk pid ip (lk pid dp V), b, m, n + 1)))) /\
  (forall V b m n path md maj min, follows (@view F) (V, b, m, n)
     (sys_mknodat rootfs pid cwd umask cuid cgid now permission path md maj min)
     (fun r y => y = (V, b, m, if mknod_type md then n else n + 1))).
Proof.
  split_and!; intros.
  - apply balanced_filelink.
  - apply balanced_filesymlink.
  - apply balanced_filereadlink.
  - apply balanced_utimensat.
  - apply balanced_filechmod.
  - apply balanced_filechown.
  - apply balanced_sys_chdir.
  - apply balanced_sys_mkdirat.
  - apply follows_fileunlink.
  - apply follows_sys_mknodat.
Qed.

(** * Concrete runs *)

(** The tree of [Vfs], where nothing can be written. *)
#[local] Instance tree_ops : FileOps unit := {
  fs_readi _ _ _ _ _ _ := ret (0, []);
  fs_writei _ _ _ a _ _ := ret (-1, a);
  fs_isdirempty _ _ _ _ := ret false;
  fs_unlink _ _ _ a _ := ret (-1, a);
  fs_namecmp _ s t := if bool_decide (s = t) then 0 else 1;
  fs_direntlookup _ _ _ _ _ := ret None
}.

#[local] Existing Instance tree.

Definition st0 : @ostate unit := mkO (quiet tt [] [(0, 1, 7)] empty_cache []) 0.

(** "/a/b" *)
Definition p_ab : list Z := [47; 97; 47; 98].
Definition p_a : list Z := [47; 97].
Definition p_a' : list Z := [47; 47; 97].

(** The result of a call, the locks and the transactions after it. *)
Definition result {A} (m : M (@ostate unit) A) : option (A * (list (option Z) * bool * bool * Z)) :=
  match m st0 with Ret a s' => Some (a, view s') | _ => None end.

Example chmod_returns : result (filechmod 7 5 0 p_ab 420) = Some (0, view st0).
Proof. vm_compute. reflexivity. Qed.

Example unlink_refused : result (fileunlink 7 5 0 p_a AT_REMOVEDIR) = Some (- EPERM, view st0).
Proof. vm_compute. reflexivity. Qed.

(** Renaming a file to another name of itself leaves the transaction open. *)
Example rename_same_stays_open : result (filerename 7 5 0 (0, 0) p_a p_a' []) = Some (0, (locks (vs st0), 1)).
Proof. vm_compute. reflexivity. Qed.

End Fileops.
