(* ===== verification/Vm.v ===== *)
(** User address spaces: kern/vm.c, with the descriptor formats of inc/mmu.h.

    The state is the memory and the page allocator of [Mm]: a page table is a
    page of 512 words of that memory, found through the descriptors in other
    tables, as the hardware finds it.  [mmu_pte] is the architecture's walk of
    the four levels, the reference against which the operations are proved.
    [regions] is [thisproc()->regions], the mmap regions of the process
    that runs, which [uvm_copy] and [vm_free] only read.

    [vm] says that the memory holds a tree of page tables: a ghost map from
    index paths to tables, one page per path, every valid descriptor of an
    upper table leads to the table of the longer path, and no table is on the
    free list. *)

From stdpp Require Import base list gmap.
From Stdlib Require Import ZArith Lia Bool.
From S2P Require Import Prelude Mm Pages.

Module Vm.
Import Mm Pages.

Definition USERTOP : Z := 0x0001000000000000.
Definition PTE_VALID : Z := 0x1.
Definition PTE_TABLE : Z := 0x3.
Definition PTE_PAGE : Z := 0x3.
Definition PTE_USER : Z := Z.shiftl 1 6.
Definition MT_NORMAL : Z := 0x1.
Definition AF_USED : Z := Z.shiftl 1 10.
Definition SH_INNER : Z := Z.shiftl 3 8.
Definition PTE_NORMAL : Z := Z.lor (Z.lor (Z.shiftl MT_NORMAL 2) AF_USED) SH_INNER.
Definition PTE_UDATA : Z := Z.lor (Z.lor PTE_USER PTE_NORMAL) PTE_PAGE.
Definition PTE_ADDR (pte : Z) : Z := Z.land (u64 pte) (not_w 64 0xFFFF000000000FFF).
Definition PTE_FLAGS (pte : Z) : Z := Z.land (u64 pte) 0xFFFF000000000FFF.
Definition L0SHIFT : Z := 39.
Definition L1SHIFT : Z := 30.
Definition L2SHIFT : Z := 21.
Definition L3SHIFT : Z := 12.
Definition MAP_SHARED : Z := 0x01.

Record mmap_region : Type := mkRegion {
  r_addr : Z;
  r_length : Z;
  r_offset : Z;
  r_f : Z;
  r_prot : Z;
  r_flags : Z
}.

(** [find_mmap_region] of kern/mmap.c over the region list. *)
Definition find_mmap_region (regions : list mmap_region) (start : Z) : option mmap_region :=
  List.find (fun r => (r_addr r <=? start) && (start <? u64 (r_addr r + r_length r))) regions.

(** * Words and bytes of memory *)

Definition byte_in (w k : Z) : Z := Z.land (Z.shiftr w (8 * k)) 0xff.

Definition with_byte (w k v : Z) : Z :=
  Z.lor (Z.ldiff w (Z.shiftl 0xff (8 * k))) (Z.shiftl (Z.land v 0xff) (8 * k)).

Definition load_byte (a : Z) : M kstate Z :=
  let* w := load (a - a mod 8) in ret (byte_in w (a mod 8)).

Definition store_byte (a v : Z) : M kstate unit :=
  let* w := load (a - a mod 8) in store (a - a mod 8) (with_byte w (a mod 8) v).

Fixpoint store_bytes (a : Z) (l : list Z) : M kstate unit :=
  match l with
  | [] => ret tt
  | v :: l' => store_byte a v ;; store_bytes (a + 1) l'
  end.

(** * Page tables *)

Definition vm_init : M kstate Z :=
  let* pgdir := kalloc in
  when (truthy pgdir) (zero_page pgdir) ;;
  ret pgdir.

(** The index of [va] in the table of level [i]. *)
Definition level_idx (va i : Z) : Z := Z.land (Z.shiftr va (12 + (3 - i) * 9)) 0x1FF.

(** The body of the loop of [pgdir_walk]: the next table, or [None] for the
    early return. *)
Definition walk_step (va : Z) (alloc : bool) (pgt i : Z) : M kstate (option Z) :=
  let a := pgt + 8 * level_idx va i in
  let* e := load a in
  let* ok :=
    if truthy (Z.land e PTE_VALID) then ret true
    else if alloc then
      let* p := kalloc in
      if truthy p then zero_page p ;; store a (Z.lor (V2P p) PTE_TABLE) ;; ret true
      else ret false
    else ret false in
  if ok then let* e' := load a in ret (Some (P2V (PTE_ADDR e'))) else ret None.

Fixpoint walk_levels (va : Z) (alloc : bool) (levels : list Z) (pgt : Z) : M kstate (option Z) :=
  match levels with
  | [] => ret (Some pgt)
  | i :: levels' =>
      let* next := walk_step va alloc pgt i in
      match next with
      | Some pgt' => walk_levels va alloc levels' pgt'
      | None => ret None
      end
  end.

(** The address of the descriptor, 0 for the null pointer. *)
Definition pgdir_walk (pgdir va : Z) (alloc : bool) : M kstate Z :=
  let* r := walk_levels va alloc [0; 1; 2] pgdir in
  match r with
  | Some pgt => ret (pgt + 8 * Z.land (Z.shiftr va 12) 0x1FF)
  | None => ret 0
  end.

(** Pages a range of [n] bytes can touch, the bound of the loops below. *)
Definition vm_rounds (n : Z) : nat := Z.to_nat (n / PGSIZE + 2).

Fixpoint uvm_map_loop (fuel : nat) (pgdir p stop pa : Z) : M kstate Z :=
  if p <? stop then
    match fuel with
    | O => nofuel
    | S fuel' =>
        let* pte := pgdir_walk pgdir p true in
        if pte =? 0 then ret (- EINVAL) else
        let* v := load pte in
        if truthy (Z.land v PTE_VALID) then ret (- EINVAL) else
        store pte (Z.lor pa PTE_UDATA) ;;
        uvm_map_loop fuel' pgdir (u64 (p + PGSIZE)) stop (u64 (pa + PGSIZE))
    end
  else ret 0.

Definition uvm_map (pgdir va sz pa : Z) : M kstate Z :=
  let p := ROUNDDOWN va PGSIZE in
  let stop := u64 (va + sz) in
  assert (pa <? USERTOP) ;;
  uvm_map_loop (vm_rounds sz) pgdir p stop (ROUNDDOWN pa PGSIZE).

Section Kernel.
Context (kend : Z).

Fixpoint uvm_dealloc_loop (fuel : nat) (pgdir a oldsz : Z) : M kstate unit :=
  if a <? oldsz then
    match fuel with
    | O => nofuel
    | S fuel' =>
        let* pte := pgdir_walk pgdir a false in
        let* v := if pte =? 0 then ret 0 else load pte in
        (if negb (pte =? 0) && truthy (Z.land v PTE_VALID) then
           let pa := PTE_ADDR v in
           assert (truthy pa) ;;
           dec_kmem_ref pa ;;
           let* r := get_kmem_ref pa in
           when (r =? 0) (kfree kend pa) ;;
           store pte 0
         else ret tt) ;;
        uvm_dealloc_loop fuel' pgdir (u64 (a + PGSIZE)) oldsz
    end
  else ret tt.

Definition uvm_dealloc (pgdir base oldsz newsz : Z) : M kstate Z :=
  if (oldsz <=? newsz) || (newsz <? base) then ret (s32 oldsz) else
  uvm_dealloc_loop (vm_rounds (oldsz - newsz)) pgdir (ROUNDUP newsz PGSIZE) oldsz ;;
  ret (s32 newsz).

Fixpoint uvm_alloc_loop (fuel : nat) (pgdir base oldsz newsz a : Z) : M kstate Z :=
  if a <? newsz then
    match fuel with
    | O => nofuel
    | S fuel' =>
        let* p := kalloc in
        if p =? 0 then uvm_dealloc pgdir base newsz oldsz ;; ret 0 else
        let* r := uvm_map pgdir a PGSIZE (V2P p) in
        if r <? 0 then kfree kend p ;; uvm_dealloc pgdir base newsz oldsz ;; ret 0 else
        uvm_alloc_loop fuel' pgdir base oldsz newsz (u64 (a + PGSIZE))
    end
  else ret (s32 newsz).

Definition uvm_alloc (pgdir base stksz oldsz newsz : Z) : M kstate Z :=
  assert (stksz mod PGSIZE =? 0) ;;
  if negb ((stksz <? USERTOP) && (base <=? oldsz) && (oldsz <=? newsz) && (newsz <? u64 (USERTOP - stksz)))
  then ret 0
  else uvm_alloc_loop (vm_rounds (newsz - oldsz)) pgdir base oldsz newsz (ROUNDUP oldsz PGSIZE).

(** The page of [va], mapped when it is not; 0 where [copyout] returns -1. *)
Definition copyout_page (pgdir va : Z) : M kstate Z :=
  let* pte := pgdir_walk pgdir va true in
  if pte =? 0 then ret 0 else
  let* v := load pte in
  if truthy (Z.land v PTE_VALID) then ret (P2V (PTE_ADDR v))
  else
    let* page := kalloc in
    if page =? 0 then ret 0 else
    store pte (Z.lor (V2P page) PTE_UDATA) ;;
    ret page.

(** [src] is [None] for [p == 0] and the bytes at [p] otherwise. *)
Fixpoint copyout_loop (fuel : nat) (pgdir va : Z) (src : option (list Z)) (len : Z) : M kstate Z :=
  if len =? 0 then ret 0 else
  match fuel with
  | O => nofuel
  | S fuel' =>
      let pgoff := va - ROUNDDOWN va PGSIZE in
      let* page := copyout_page pgdir va in
      if page =? 0 then ret (-1) else
      let n := Z.min (PGSIZE - pgoff) len in
      let k := Z.to_nat n in
      match src with
      | Some b => store_bytes (page + pgoff) (take k b)
      | None => store_bytes (page + pgoff) (replicate k 0)
      end ;;
      copyout_loop fuel' pgdir (u64 (va + n)) (drop k <$> src) (len - n)
  end.

Definition copyout (pgdir va : Z) (src : option (list Z)) (len : Z) : M kstate Z :=
  if USERTOP <? u64 (va + len) then ret (-1) else copyout_loop (vm_rounds len) pgdir va src len.

Fixpoint uvm_unmap_loop (fuel : nat) (pgdir a stop : Z) : M kstate unit :=
  if a <? stop then
    match fuel with
    | O => nofuel
    | S fuel' =>
        let* pte := pgdir_walk pgdir a false in
        if pte =? 0 then panic else
        let* v := load pte in
        if Z.land v PTE_VALID =? 0 then panic else
        if Z.land (PTE_FLAGS v) (Z.lor PTE_PAGE PTE_VALID) =? PTE_VALID then panic else
        let pa := PTE_ADDR v in
        dec_kmem_ref pa ;;
        let* r := get_kmem_ref pa in
        when (r =? 0) (kfree kend (P2V pa)) ;;
        store pte (PTE_ADDR 0) ;;
        uvm_unmap_loop fuel' pgdir (u64 (a + PGSIZE)) stop
    end
  else ret tt.

Definition uvm_unmap (pgdir va npages : Z) : M kstate unit :=
  if negb (va mod PGSIZE =? 0) then panic else
  uvm_unmap_loop (Z.to_nat npages) pgdir va (u64 (va + npages * PGSIZE)).

(** * Whole address spaces *)

Section Regions.
Context (regions : list mmap_region).

Definition shared_at (va : Z) : bool :=
  match find_mmap_region regions va with
  | Some r => truthy (Z.land (r_flags r) MAP_SHARED)
  | None => false
  end.

Definition leaf_va (i i1 i2 i3 : Z) : Z :=
  Z.lor (Z.lor (Z.lor (Z.shiftl i L0SHIFT) (Z.shiftl i1 L1SHIFT)) (Z.shiftl i2 L2SHIFT)) (Z.shiftl i3 L3SHIFT).

(** The valid descriptors of a table, each with its index, in order. *)
Definition each_valid (pgt : Z) (body : Z -> Z -> M kstate unit) : M kstate unit :=
  for_each (seqZ 0 512) (fun i =>
    let* e := load (pgt + 8 * i) in
    when (truthy (Z.land e PTE_VALID)) (body i e)).

(** The body of the innermost loop of [vm_free]. *)
Definition free_leaf (va e : Z) : M kstate unit :=
  let pa := PTE_ADDR e in
  when (shared_at va) (dec_kmem_ref pa) ;;
  let* r := get_kmem_ref pa in
  when (r =? 0) (kfree kend (P2V pa)).

Definition vm_free (pgdir : Z) : M kstate unit :=
  each_valid pgdir (fun i e =>
    assert (truthy (Z.land e PTE_TABLE)) ;;
    let pgt1 := P2V (PTE_ADDR e) in
    each_valid pgt1 (fun i1 e1 =>
      assert (truthy (Z.land e1 PTE_TABLE)) ;;
      let pgt2 := P2V (PTE_ADDR e1) in
      each_valid pgt2 (fun i2 e2 =>
        assert (truthy (Z.land e2 PTE_TABLE)) ;;
        let pgt3 := P2V (PTE_ADDR e2) in
        each_valid pgt3 (fun i3 e3 => free_leaf (leaf_va i i1 i2 i3) e3) ;;
        kfree kend pgt3) ;;
      kfree kend pgt2) ;;
    kfree kend pgt1) ;;
  kfree kend pgdir.

(** As [each_valid], with the early return of the function ([Some]). *)
Definition each_valid_ret (pgt : Z) (body : Z -> Z -> M kstate (option Z)) : M kstate (option Z) :=
  loop (seqZ 0 512) (fun i =>
    let* e := load (pgt + 8 * i) in
    if truthy (Z.land e PTE_VALID) then body i e else ret None).

(** The body of the innermost loop of [uvm_copy]: [Some 0] returns 0. *)
Definition copy_leaf (newpgdir va e : Z) : M kstate (option Z) :=
  assert (truthy (Z.land e PTE_PAGE)) ;;
  assert (truthy (Z.land e PTE_NORMAL)) ;;
  assert (PTE_ADDR e <? KERNBASE) ;;
  let pa := PTE_ADDR e in
  let* np :=
    if shared_at va then inc_kmem_ref pa ;; ret (P2V pa)
    else
      let* np := kalloc in
      when (truthy np) (copy_page np (P2V pa)) ;;
      ret np in
  if negb (shared_at va) && (np =? 0) then vm_free newpgdir ;; ret (Some 0) else
  let* r := uvm_map newpgdir va PGSIZE (V2P np) in
  if r <? 0 then vm_free newpgdir ;; kfree kend np ;; ret (Some 0) else ret None.

Definition uvm_copy (pgdir : Z) : M kstate Z :=
  let* newpgdir := vm_init in
  if newpgdir =? 0 then ret 0 else
  let* r :=
    each_valid_ret pgdir (fun i e =>
      assert (truthy (Z.land e PTE_TABLE)) ;;
      each_valid_ret (P2V (PTE_ADDR e)) (fun i1 e1 =>
        assert (truthy (Z.land e1 PTE_TABLE)) ;;
        each_valid_ret (P2V (PTE_ADDR e1)) (fun i2 e2 =>
          assert (truthy (Z.land e2 PTE_TABLE)) ;;
          each_valid_ret (P2V (PTE_ADDR e2)) (fun i3 e3 => copy_leaf newpgdir (leaf_va i i1 i2 i3) e3)))) in
  ret (default newpgdir r).
End Regions.
End Kernel.

(** * Descriptors and indices *)

Lemma PTE_ADDR_eq x : 0 <= x < 2 ^ 64 -> PTE_ADDR x = (x / 4096) mod 2 ^ 36 * 4096.
Proof.
  intros Hx. unfold PTE_ADDR. rewrite u64_id by lia. change (not_w 64 0xFFFF000000000FFF) with (Z.shiftl (Z.ones 36) 12).
  rewrite <- Z.land_ones, <- (Z.shiftl_mul_pow2 _ 12) by lia. change 4096 with (2 ^ 12). rewrite <- Z.shiftr_div_pow2 by lia.
  rewrite Z.shiftl_land. apply Z.bits_inj'. intros n Hn. rewrite !Z.land_spec.
  destruct (Z.ltb_spec n 12) as [H|H].
  - rewrite !(Z.shiftl_spec_low _ 12 n) by lia. by rewrite andb_false_r.
  - rewrite !(Z.shiftl_spec _ 12 n), Z.shiftr_spec by lia. repeat f_equal. lia.
Qed.

(** A frame address and flags in the low twelve bits. *)
Lemma lor_flags f fl : f mod 4096 = 0 -> 0 <= fl < 4096 -> Z.lor f fl = f + fl.
Proof.
  intros Hf Hfl. assert (Z.land f fl = 0) as H0.
  { apply Z.bits_inj'. intros n Hn. rewrite Z.land_spec, Z.bits_0. destruct (Z.ltb_spec n 12) as [H|H].
    - replace f with (f / 4096 * 2 ^ 12) by (pose proof (Z.div_mod f 4096); lia). by rewrite Z.mul_pow2_bits_low.
    - destruct (Z.eq_dec fl 0) as [->|]; [by rewrite Z.bits_0, andb_false_r|].
      rewrite (Z.bits_above_log2 fl n), andb_false_r; [done|lia|]. apply Z.lt_le_trans with 12; [|done].
      apply Z.log2_lt_pow2; lia. }
  pose proof (Z.add_lor_land f fl). lia.
Qed.

Lemma pte_of_frame f fl :
  f mod 4096 = 0 -> 0 <= f < 2 ^ 48 -> 0 <= fl < 4096 ->
  PTE_ADDR (Z.lor f fl) = f /\ Z.land (Z.lor f fl) PTE_VALID = Z.land fl PTE_VALID.
Proof.
  intros Hm Hf Hfl. split.
  - rewrite lor_flags by done. rewrite PTE_ADDR_eq by lia. pose proof (Z.div_mod f 4096 ltac:(lia)).
    replace ((f + fl) / 4096) with (f / 4096).
    + rewrite Z.mod_small; [lia|]. split; [apply Z.div_pos; lia|apply Z.div_lt_upper_bound; lia].
    + apply (Z.div_unique _ _ _ fl); lia.
  - rewrite Z.land_lor_distr_l. change PTE_VALID with (Z.ones 1). rewrite (Z.land_ones f) by lia.
    replace (f mod 2 ^ 1) with 0; [done|]. pose proof (Z.div_mod f 4096 ltac:(lia)).
    apply (Z.mod_unique _ _ (2048 * (f / 4096))); lia.
Qed.

Lemma level_idx_eq va i : 0 <= i <= 3 -> level_idx va i = (va / 2 ^ (12 + (3 - i) * 9)) mod 512.
Proof.
  intros Hi. unfold level_idx. change 0x1FF with (Z.ones 9). rewrite Z.land_ones, Z.shiftr_div_pow2 by lia. done.
Qed.

Lemma level_idx_range va i : 0 <= i <= 3 -> 0 <= level_idx va i < 512.
Proof. intros Hi. rewrite level_idx_eq by done. by apply Z.mod_pos_bound. Qed.

(** The indices of the upper tables, and the one of the descriptor. *)
Definition va_path (va : Z) : list Z := [level_idx va 0; level_idx va 1; level_idx va 2].
Definition va_slot (va : Z) : Z := level_idx va 3.

Lemma va_path_page va : 0 <= va < USERTOP ->
  va / 4096 = ((level_idx va 0 * 512 + level_idx va 1) * 512 + level_idx va 2) * 512 + level_idx va 3.
Proof.
  intros Hva. unfold USERTOP in Hva. rewrite !level_idx_eq by lia. cbn [Z.sub Z.add Z.mul].
  change (2 ^ (12 + (3 - 0) * 9)) with (4096 * 512 * 512 * 512). change (2 ^ (12 + (3 - 1) * 9)) with (4096 * 512 * 512).
  change (2 ^ (12 + (3 - 2) * 9)) with (4096 * 512). change (2 ^ (12 + (3 - 3) * 9)) with 4096.
  rewrite <- !Z.div_div by lia. set (x := va / 4096). assert (0 <= x < 2 ^ 36) by (unfold x; split; [apply Z.div_pos|apply Z.div_lt_upper_bound]; lia).
  rewrite (Z.mod_small (x / 512 / 512 / 512)).
  - pose proof (Z.div_mod x 512). pose proof (Z.div_mod (x / 512) 512). pose proof (Z.div_mod (x / 512 / 512) 512). lia.
  - rewrite !Z.div_div by lia. split; [apply Z.div_pos; lia|apply Z.div_lt_upper_bound; lia].
Qed.

Lemma va_page_inj va va' :
  0 <= va < USERTOP -> 0 <= va' < USERTOP -> va_path va = va_path va' -> va_slot va = va_slot va' -> va / 4096 = va' / 4096.
Proof.
  intros H H' Ep Es. rewrite !va_path_page by done. unfold va_path, va_slot in *. injection Ep as -> -> ->. by rewrite Es.
Qed.

Lemma va_page_same va va' : va / 4096 = va' / 4096 -> va_path va = va_path va' /\ va_slot va = va_slot va'.
Proof.
  intros E. assert (forall i, 0 <= i <= 3 -> level_idx va i = level_idx va' i) as H.
  { intros i Hi. rewrite !level_idx_eq by done. f_equal.
    replace (2 ^ (12 + (3 - i) * 9)) with (4096 * 2 ^ ((3 - i) * 9)) by (rewrite Z.pow_add_r by lia; done).
    rewrite <- !Z.div_div by lia. by rewrite E. }
  unfold va_path, va_slot. by rewrite !H by lia.
Qed.

(** * The architecture's walk *)

Definition valid_pte (e : Z) : bool := truthy (Z.land e PTE_VALID).

Fixpoint mmu_table (m : gmap Z Z) (pgt : Z) (P : list Z) : option Z :=
  match P with
  | [] => Some pgt
  | i :: P' =>
      let e := word m (pgt + 8 * i) in
      if valid_pte e then mmu_table m (P2V (PTE_ADDR e)) P' else None
  end.

(** The descriptor the hardware finds for [va], 0 when it finds none. *)
Definition mmu_pte (m : gmap Z Z) (pgdir va : Z) : Z :=
  match mmu_table m pgdir (va_path va) with
  | Some t => word m (t + 8 * va_slot va)
  | None => 0
  end.

(** * Well-formed page tables *)

Section Tables.
Context (kend : Z).
Hypothesis kend_ok : KERNBASE < kend < KERNBASE + PHYSTOP.

Record vm (pgdir : Z) (T : gmap (list Z) Z) (l : list Z) (s : kstate) : Prop := {
  vm_free_list : inv kend l s;
  vm_root : T !! [] = Some pgdir;
  vm_page P p : T !! P = Some p -> page kend p /\ p ∉ l;
  vm_inj P Q p : T !! P = Some p -> T !! Q = Some p -> P = Q;
  vm_path P i : is_Some (T !! (P ++ [i])) -> is_Some (T !! P) /\ 0 <= i < 512 /\ (length P < 3)%nat;
  vm_entry P p i : T !! P = Some p -> (length P < 3)%nat -> 0 <= i < 512 ->
    match T !! (P ++ [i]) with
    | Some q => word (mem s) (p + 8 * i) = Z.lor (V2P q) PTE_TABLE
    | None => valid_pte (word (mem s) (p + 8 * i)) = false
    end
}.

(** The descriptor of [va] through the ghost map. *)
Definition pte_at (T : gmap (list Z) Z) (s : kstate) (va : Z) : Z :=
  match T !! va_path va with
  | Some t => word (mem s) (t + 8 * va_slot va)
  | None => 0
  end.

Lemma page_frame p : page kend p -> V2P p mod 4096 = 0 /\ 0 <= V2P p < 2 ^ 48 /\ P2V (V2P p) = p.
Proof using kend_ok.
  intros Hp. destruct (page_v2p kend kend_ok p Hp) as [E _]. destruct Hp as [Hm Hr]. rewrite E.
  pose proof kend_ok. unfold P2V, PGSIZE, KERNBASE, PHYSTOP in *. split; [|split; [lia|rewrite u64_id by lia; lia]].
  rewrite Zminus_mod, Hm. done.
Qed.

Lemma table_pte p : page kend p -> valid_pte (Z.lor (V2P p) PTE_TABLE) = true /\ P2V (PTE_ADDR (Z.lor (V2P p) PTE_TABLE)) = p.
Proof using kend_ok.
  intros Hp. destruct (page_frame p Hp) as (Hm & Hr & Hv). unfold valid_pte.
  destruct (pte_of_frame (V2P p) PTE_TABLE Hm Hr ltac:(unfold PTE_TABLE; lia)) as [-> ->]. done.
Qed.

(** No table below a missing one. *)
Lemma path_none pgdir T l s P Q : vm pgdir T l s -> T !! P = None -> T !! (P ++ Q) = None.
Proof.
  intros HV HN. induction Q as [|j Q IH] using rev_ind; [by rewrite app_nil_r|].
  apply eq_None_not_Some. rewrite app_assoc. intros Hs. apply vm_path with (1 := HV) in Hs as [[x Hx] _]. congruence.
Qed.

Lemma mmu_table_vm pgdir T l s P Q p :
  vm pgdir T l s -> T !! P = Some p -> (length P + length Q <= 3)%nat -> Forall (fun i => 0 <= i < 512) Q ->
  mmu_table (mem s) p Q = T !! (P ++ Q).
Proof using kend_ok.
  intros HV. revert P p. induction Q as [|i Q IH]; intros P p HP Hl HQ; cbn [mmu_table].
  - by rewrite app_nil_r, HP.
  - apply Forall_cons in HQ as [Hi HQ]. cbn in Hl. pose proof (vm_entry _ _ _ _ HV P p i HP ltac:(lia) Hi) as He.
    rewrite (cons_middle i P Q), app_assoc. destruct (T !! (P ++ [i])) as [q|] eqn:Eq.
    + destruct (vm_page _ _ _ _ HV _ _ Eq) as [Hq _]. rewrite He. destruct (table_pte q Hq) as [-> ->].
      apply IH; [done| |done]. rewrite length_app. cbn. lia.
    + rewrite He. symmetry. by eapply path_none.
Qed.

Lemma va_path_ok va : Forall (fun i => 0 <= i < 512) (va_path va).
Proof. repeat constructor; apply level_idx_range; lia. Qed.

(** The hardware's walk is the ghost map's. *)
Lemma mmu_pte_vm pgdir T l s va : vm pgdir T l s -> mmu_pte (mem s) pgdir va = pte_at T s va.
Proof using kend_ok.
  intros HV. unfold mmu_pte, pte_at. rewrite (mmu_table_vm _ _ _ _ [] (va_path va) pgdir HV (vm_root _ _ _ _ HV)); [done|cbn; lia|apply va_path_ok].
Qed.

(** The tables of [T'] are those of [T] and fresh empty ones. *)
Record grew (T : gmap (list Z) Z) (l : list Z) (s : kstate) (T' : gmap (list Z) Z) (l' : list Z) (s' : kstate) : Prop := {
  gr_sub : T ⊆ T';
  gr_used : exists u, l = u ++ l';
  gr_new Q q : T' !! Q = Some q -> T !! Q = None -> q ∈ l;
  gr_leaf Q q i : T' !! Q = Some q -> length Q = 3%nat -> 0 <= i < 512 ->
    word (mem s') (q + 8 * i) = if T !! Q then word (mem s) (q + 8 * i) else 0;
  gr_mem a : (forall Q q, T !! Q = Some q -> ~ in_page q a) -> (forall q, q ∈ l -> ~ in_page q a) ->
    word (mem s') a = word (mem s) a;
  gr_ref p : page kend p -> p ∉ l -> rc s' p = rc s p
}.

Lemma grew_refl T l s : grew T l s T l s.
Proof. split; try done; [by exists []|congruence|]. intros Q q i -> _ _. done. Qed.

Lemma grew_trans T l s T1 l1 s1 T2 l2 s2 :
  grew T l s T1 l1 s1 -> grew T1 l1 s1 T2 l2 s2 -> grew T l s T2 l2 s2.
Proof.
  intros [A1 [u A2] A3 A4 A5 A6] [B1 [v B2] B3 B4 B5 B6].
  assert (forall q, q ∈ l1 -> q ∈ l) as Hl by (intros q Hq; rewrite A2; apply elem_of_app; by right).
  split.
  - by trans T1.
  - exists (u ++ v). by rewrite <- app_assoc, <- B2.
  - intros Q q H2 H0. destruct (T1 !! Q) as [q1|] eqn:E1.
    + apply (lookup_weaken _ _ _ _ E1) in B1. rewrite H2 in B1. injection B1 as <-. by eapply A3.
    + eapply Hl, B3; eauto.
  - intros Q q i H2 HQ Hi. rewrite (B4 Q q i) by done. destruct (T1 !! Q) as [q1|] eqn:E1.
    + pose proof (lookup_weaken _ _ _ _ E1 B1) as H. rewrite H2 in H. injection H as <-. by apply A4.
    + destruct (T !! Q) eqn:E0; [|done]. apply (lookup_weaken _ _ _ _ E0) in A1. congruence.
  - intros a HT Hla. rewrite B5; [by apply A5| |].
    + intros Q q HQ. destruct (T !! Q) as [q0|] eqn:E0.
      * pose proof (lookup_weaken _ _ _ _ E0 A1) as H. rewrite HQ in H. injection H as <-. by eapply HT.
      * apply Hla. by eapply A3.
    + intros q Hq. apply Hla. auto.
  - intros p Hp Hpl. rewrite B6, A6; [done|done|done|done|]. intros Hc. auto.
Qed.

(** Other memory, other free pages. *)
Lemma vm_frame pgdir T l s l' s' :
  vm pgdir T l s -> inv kend l' s' -> (forall P p, T !! P = Some p -> p ∉ l') ->
  (forall P p a, T !! P = Some p -> (length P < 3)%nat -> in_page p a -> word (mem s') a = word (mem s) a) ->
  vm pgdir T l' s'.
Proof.
  intros [A B C D E F] HI Hl Hw. split; try done.
  - intros P p HP. split; [by eapply C|by eapply Hl].
  - intros P p i HP Hlen Hi. rewrite (Hw P p (p + 8 * i)); [by apply F|done|done|by apply in_page_slot].
Qed.

Lemma page_aligned p : page kend p -> p mod PGSIZE = 0.
Proof. by intros [H _]. Qed.

(** Linking a fresh table. *)
Lemma link_table pgdir T q l s s1 m P p i :
  vm pgdir T (q :: l) s -> T !! P = Some p -> (length P < 3)%nat -> 0 <= i < 512 -> T !! (P ++ [i]) = None ->
  kalloc s = Ret q s1 -> inv kend l s1 -> mem s1 = mem s -> page kend q -> q ∉ l -> (forall p, page kend p -> p <> q -> rc s1 p = rc s p) ->
  (forall j, 0 <= j < 512 -> word m (q + 8 * j) = 0) -> (forall a, ~ in_page q a -> word m a = word (mem s1) a) ->
  let s' := set_mem (<[p + 8 * i := Z.lor (V2P q) PTE_TABLE]> m) s1 in
  vm pgdir (<[P ++ [i] := q]> T) l s' /\ grew T (q :: l) s (<[P ++ [i] := q]> T) l s'.
Proof using kend_ok.
  intros HV HP HlP Hi HN _ HI Em Hq Hql Hrc Hz Hf s'. rewrite Em in Hf.
  assert (forall Q r, T !! Q = Some r -> page kend r /\ r <> q /\ r ∉ l) as HT.
  { intros Q r HQ. destruct (vm_page _ _ _ _ HV _ _ HQ) as [Hr Hn]. split; [done|]. split; intros H; apply Hn; [subst; by left|by right]. }
  assert (forall r a, page kend r -> r <> q -> in_page r a -> ~ in_page q a) as Hdis.
  { intros r a Hr Hne Ha Hb. apply Hne. by eapply page_disjoint; [by apply page_aligned|by apply page_aligned|done|done]. }
  destruct (HT _ _ HP) as (Hp & Hpq & Hpl).
  assert (forall Q r a, T !! Q = Some r -> in_page r a -> a <> p + 8 * i -> word (mem s') a = word (mem s) a) as Hkeep.
  { intros Q r a HQ Ha Hne. destruct (HT _ _ HQ) as (Hr & Hrq & _). cbn [mem set_mem s']. rewrite word_insert, decide_False by done.
    apply Hf. by eapply Hdis. }
  assert (forall j, 0 <= j < 512 -> word (mem s') (q + 8 * j) = 0) as Hzero.
  { intros j Hj. cbn [mem set_mem s']. rewrite word_insert, decide_False; [by apply Hz|]. intros E. apply (Hdis p (p + 8 * i)); [done|done|by apply in_page_slot|].
    rewrite E. by apply in_page_slot. }
  assert (forall Q r j, T !! Q = Some r -> 0 <= j < 512 -> r + 8 * j = p + 8 * i -> Q = P /\ j = i) as Hslot.
  { intros Q r j HQ Hj E. destruct (HT _ _ HQ) as (Hr & _ & _). assert (r = p) as ->.
    { eapply page_disjoint; [by apply page_aligned|by apply page_aligned|by apply (in_page_slot r j)|]. rewrite E. by apply in_page_slot. }
    split; [by eapply vm_inj|lia]. }
  split.
  - split.
    + apply inv_mem; [done|]. intros r Hr.
      assert (page kend r) as Hpr by (pose proof (inv_pages _ _ _ HI) as H; rewrite Forall_forall in H; by apply H).
      assert (r <> q) by (intros ->; done). assert (r <> p) by (intros ->; done).
      assert (in_page r r) as Hrr by (unfold in_page, PGSIZE; lia).
      rewrite word_insert, decide_False.
      * rewrite Hf, Em; [done|]. by eapply Hdis.
      * intros E. assert (p = r); [|done]. eapply page_disjoint; [by apply page_aligned|by apply page_aligned|by apply (in_page_slot p i)|]. by rewrite E.
    + rewrite lookup_insert_ne; [by eapply vm_root|]. by destruct P.
    + intros Q r. rewrite lookup_insert_Some. intros [[<- <-]|[_ HQ]]; [done|]. by destruct (HT _ _ HQ) as (? & _ & ?).
    + intros Q R r. rewrite !lookup_insert_Some. intros [[<- <-]|[H1 HQ]] [[<- E]|[H2 HR]]; [done|by destruct (HT _ _ HR) as (_ & ? & _)| |by eapply vm_inj].
      subst r. by destruct (HT _ _ HQ) as (_ & ? & _).
    + intros Q j [r Hr]. apply lookup_insert_Some in Hr as [[E _]|[_ Hr]].
      * apply app_inj_tail in E as [<- <-]. split; [|by split]. rewrite lookup_insert_ne; [by eexists|].
        intros E. apply (f_equal length) in E. rewrite length_app in E. cbn in E. lia.
      * destruct (vm_path _ _ _ _ HV Q j ltac:(by eexists)) as ([x Hx] & ? & ?). split; [|done].
        destruct (decide (P ++ [i] = Q)) as [->|]; [by rewrite lookup_insert_eq; eexists|]. rewrite lookup_insert_ne by done. by eexists.
    + intros Q r j HQ HlQ Hj. apply lookup_insert_Some in HQ as [[<- <-]|[Hne HQ]].
      * rewrite lookup_insert_ne by (intros E; apply (f_equal length) in E; rewrite !length_app in E; cbn in E; lia).
        destruct (T !! ((P ++ [i]) ++ [j])) eqn:E; [|by rewrite Hzero].
        destruct (vm_path _ _ _ _ HV (P ++ [i]) j ltac:(by eexists)) as ([x Hx] & _). congruence.
      * pose proof (vm_entry _ _ _ _ HV Q r j HQ HlQ Hj) as He. destruct (decide (P ++ [i] = Q ++ [j])) as [E|E].
        -- rewrite E, lookup_insert_eq. apply app_inj_tail in E as [<- <-]. cbn [mem set_mem s']. rewrite HP in HQ. injection HQ as <-.
           by rewrite word_insert, decide_True.
        -- rewrite lookup_insert_ne by done. rewrite (Hkeep Q r (r + 8 * j)); [done|done|by apply in_page_slot|].
           intros Es. destruct (Hslot Q r j HQ Hj Es) as [-> ->]. done.
  - split.
    + by apply insert_subseteq.
    + by exists [q].
    + intros Q r. rewrite lookup_insert_Some. intros [[<- <-]|[_ HQ]] HQ'; [by left|congruence].
    + intros Q r j HQ HlQ Hj. apply lookup_insert_Some in HQ as [[<- <-]|[Hne HQ]].
      * rewrite HN. by apply Hzero.
      * rewrite HQ. apply (Hkeep Q r); [done|by apply in_page_slot|]. intros Es. destruct (Hslot Q r j HQ Hj Es) as [-> _]. lia.
    + intros a Ha Hla. cbn [mem set_mem s']. rewrite word_insert, decide_False.
      * rewrite Hf; [done|]. apply Hla. by left.
      * intros <-. apply (Ha P p HP). by apply in_page_slot.
    + intros r Hr Hrl. change (rc s' r) with (rc s1 r). apply Hrc; [done|]. intros ->. apply Hrl. by left.
Qed.

(** One level of the walk. *)
Lemma walk_step_some pgdir T l s va alloc P p k q :
  vm pgdir T l s -> T !! P = Some p -> 0 <= k <= 3 -> T !! (P ++ [level_idx va k]) = Some q ->
  walk_step va alloc p k s = Ret (Some q) s.
Proof using kend_ok.
  intros HV HP Hk Hq. destruct (vm_path _ _ _ _ HV _ _ ltac:(by eexists)) as (_ & Hi & HlP).
  pose proof (vm_entry _ _ _ _ HV P p _ HP HlP Hi) as He. rewrite Hq in He.
  destruct (vm_page _ _ _ _ HV _ _ Hq) as [Hpg _]. destruct (table_pte q Hpg) as [Hv Ha].
  unfold walk_step. cbn zeta. run_step. change (default 0 _) with (word (mem s) (p + 8 * level_idx va k)).
  rewrite He. unfold valid_pte in Hv. rewrite Hv. run_step. cbv beta match. run_step.
  change (default 0 _) with (word (mem s) (p + 8 * level_idx va k)). by rewrite He, Ha.
Qed.

Lemma walk_step_none pgdir T l s va P p k :
  vm pgdir T l s -> T !! P = Some p -> (length P < 3)%nat -> 0 <= k <= 3 -> T !! (P ++ [level_idx va k]) = None ->
  walk_step va false p k s = Ret None s.
Proof.
  intros HV HP HlP Hk Hq. pose proof (vm_entry _ _ _ _ HV P p _ HP HlP (level_idx_range va k Hk)) as He. rewrite Hq in He.
  unfold walk_step. cbn zeta. run_step. change (default 0 _) with (word (mem s) (p + 8 * level_idx va k)).
  unfold valid_pte in He. by rewrite He.
Qed.

Lemma walk_step_alloc pgdir T l s va P p k :
  vm pgdir T l s -> T !! P = Some p -> (length P < 3)%nat -> 0 <= k <= 3 ->
  exists T' l' s', walk_step va true p k s = Ret (T' !! (P ++ [level_idx va k])) s' /\
    vm pgdir T' l' s' /\ grew T l s T' l' s' /\ (T' !! (P ++ [level_idx va k]) = None -> l' = []) /\ (length l <= length l' + 1)%nat.
Proof using kend_ok.
  intros HV HP HlP Hk. destruct (T !! (P ++ [level_idx va k])) as [q|] eqn:Hq.
  { exists T, l, s. rewrite Hq. split; [by eapply walk_step_some|]. split; [done|]. split; [apply grew_refl|]. split; [done|lia]. }
  pose proof (level_idx_range va k Hk) as Hi. pose proof (vm_entry _ _ _ _ HV P p _ HP HlP Hi) as He. rewrite Hq in He.
  unfold walk_step. cbn zeta. run_step. change (default 0 _) with (word (mem s) (p + 8 * level_idx va k)).
  unfold valid_pte in He. rewrite He. pose proof (kalloc_vm kend kend_ok l s (vm_free_list _ _ _ _ HV)) as Ha. destruct l as [|q l].
  - exists T, [], s. split; [|split; [done|split; [apply grew_refl|split; [done|cbn; lia]]]]. rewrite Hq. unfold bind at 1. unfold bind at 1. by rewrite Ha.
  - destruct Ha as (s1 & Ea & HI & Em & Hpg & Hql & Hq0 & Hr1 & Hrc). destruct (zero_page_run q s1) as (m & Ez & Hz & Hf).
    destruct (link_table pgdir T q l s s1 m P p (level_idx va k)) as [HV' HG]; try done.
    set (s' := set_mem (<[_ := _]> m) s1) in HV', HG. eexists _, _, s'. split; [|split; [exact HV'|split; [exact HG|rewrite lookup_insert_eq; split; [done|cbn; lia]]]].
    rewrite lookup_insert_eq.
    erewrite bind_run; [|erewrite bind_run by exact Ea; unfold truthy; rewrite (proj2 (Z.eqb_neq q 0) Hq0); cbn [negb];
      erewrite bind_run by exact Ez; reflexivity]. cbv beta match.
    change (set_mem _ (set_mem m s1)) with s'. run_step.
    change (default 0 _) with (word (mem s') (p + 8 * level_idx va k)). cbn [mem set_mem s'].
    rewrite word_insert, decide_True by done. destruct (table_pte q Hpg) as [_ ->]. done.
Qed.

Lemma walk_levels_alloc pgdir va ks :
  forall T l s P p, vm pgdir T l s -> T !! P = Some p -> (length P + length ks = 3)%nat -> Forall (fun k => 0 <= k <= 3) ks ->
  exists T' l' s', walk_levels va true ks p s = Ret (T' !! (P ++ (level_idx va <$> ks))) s' /\
    vm pgdir T' l' s' /\ grew T l s T' l' s' /\ (T' !! (P ++ (level_idx va <$> ks)) = None -> l' = []) /\ (length l <= length l' + length ks)%nat.
Proof using kend_ok.
  induction ks as [|k ks IH]; intros T l s P p HV HP Hlen Hks; cbn [walk_levels fmap list_fmap].
  - exists T, l, s. rewrite app_nil_r, HP. split; [done|]. split; [done|]. split; [apply grew_refl|]. split; [done|cbn; lia].
  - apply Forall_cons in Hks as [Hk Hks]. cbn in Hlen.
    destruct (walk_step_alloc pgdir T l s va P p k HV HP ltac:(lia) Hk) as (T1 & l1 & s1 & E1 & HV1 & HG1 & Hn1 & Hc1).
    rewrite (cons_middle _ P), app_assoc. erewrite bind_run by exact E1.
    destruct (T1 !! (P ++ [level_idx va k])) as [q|] eqn:Eq.
    + destruct (IH T1 l1 s1 _ q HV1 Eq) as (T2 & l2 & s2 & E2 & HV2 & HG2 & Hn2 & Hc2); [rewrite length_app; cbn; lia|done|].
      exists T2, l2, s2. split; [done|]. split; [done|]. split; [by eapply grew_trans|]. split; [done|cbn; lia].
    + exists T1, l1, s1. assert (T1 !! ((P ++ [level_idx va k]) ++ (level_idx va <$> ks)) = None) as -> by (by eapply path_none).
      split; [done|]. split; [done|]. split; [done|]. split; [auto|cbn; lia].
Qed.

(** The walk of [pgdir_walk] that allocates takes at most three tables. *)
Lemma walk_alloc pgdir T l s va :
  vm pgdir T l s ->
  exists T' l' s', pgdir_walk pgdir va true s = Ret (match T' !! va_path va with Some t => t + 8 * va_slot va | None => 0 end) s' /\
    vm pgdir T' l' s' /\ grew T l s T' l' s' /\ (T' !! va_path va = None -> l' = []) /\ (length l <= length l' + 3)%nat.
Proof using kend_ok.
  intros HV. destruct (walk_levels_alloc pgdir va [0; 1; 2] T l s [] pgdir HV (vm_root _ _ _ _ HV)) as (T' & l' & s' & E & HV' & HG & Hn).
  { done. } { repeat constructor; lia. }
  exists T', l', s'. split; [|done]. unfold pgdir_walk. erewrite bind_run by exact E. cbn [fmap list_fmap app]. fold (va_path va).
  change (Z.land (Z.shiftr va 12) 0x1FF) with (va_slot va). by destruct (T' !! va_path va).
Qed.

(** The walk that does not. *)
Lemma walk_lookup pgdir T l s va :
  vm pgdir T l s ->
  pgdir_walk pgdir va false s = Ret (match T !! va_path va with Some t => t + 8 * va_slot va | None => 0 end) s.
Proof using kend_ok.
  intros HV. unfold pgdir_walk.
  assert (forall ks P p, T !! P = Some p -> (length P + length ks = 3)%nat -> Forall (fun k => 0 <= k <= 3) ks ->
    walk_levels va false ks p s = Ret (T !! (P ++ (level_idx va <$> ks))) s) as H.
  { induction ks as [|k ks IH]; intros P p HP Hlen Hks; cbn [walk_levels fmap list_fmap]; [by rewrite app_nil_r, HP|].
    apply Forall_cons in Hks as [Hk Hks]. cbn in Hlen. rewrite (cons_middle _ P), app_assoc.
    destruct (T !! (P ++ [level_idx va k])) as [q|] eqn:Eq.
    - erewrite bind_run by (by eapply walk_step_some). apply IH; [done| |done]. rewrite length_app. cbn. lia.
    - erewrite bind_run by (eapply walk_step_none; try done; lia).
      by erewrite path_none. }
  erewrite bind_run by (eapply (H [0; 1; 2] []); [by eapply vm_root|done|repeat constructor; lia]).
  cbn [fmap list_fmap app]. fold (va_path va). change (Z.land (Z.shiftr va 12) 0x1FF) with (va_slot va). by destruct (T !! va_path va).
Qed.

(** * Changing descriptors *)

(** What an operation leaves alone: memory outside the tables and the free
    pages, and the counts of the pages that were not free. *)
Record ext (T : gmap (list Z) Z) (l : list Z) (s : kstate) (T' : gmap (list Z) Z) (l' : list Z) (s' : kstate) : Prop := {
  ex_sub : T ⊆ T';
  ex_used q : q ∈ l' -> q ∈ l;
  ex_new Q q : T' !! Q = Some q -> T !! Q = None -> q ∈ l;
  ex_mem a : (forall Q q, T !! Q = Some q -> ~ in_page q a) -> (forall q, q ∈ l -> ~ in_page q a) ->
    word (mem s') a = word (mem s) a;
  ex_ref p : page kend p -> p ∉ l -> rc s' p = rc s p
}.

Lemma grew_ext T l s T' l' s' : grew T l s T' l' s' -> ext T l s T' l' s'.
Proof.
  intros [A [u ->] C _ D E]. split; try done. intros q Hq. apply elem_of_app. by right.
Qed.

Lemma ext_refl T l s : ext T l s T l s.
Proof. apply grew_ext, grew_refl. Qed.

Lemma ext_in T l s T' l' s' q : ext T l s T' l' s' -> q ∈ l' -> q ∈ l.
Proof. intros HE. apply (ex_used _ _ _ _ _ _ HE). Qed.

Lemma ext_table T l s T' l' s' Q q : ext T l s T' l' s' -> T' !! Q = Some q -> T !! Q = Some q \/ q ∈ l.
Proof.
  intros HE HQ. destruct (T !! Q) as [q0|] eqn:E0; [left|right; by eapply ex_new].
  pose proof (lookup_weaken _ _ _ _ E0 (ex_sub _ _ _ _ _ _ HE)). congruence.
Qed.

Lemma ext_trans T l s T1 l1 s1 T2 l2 s2 : ext T l s T1 l1 s1 -> ext T1 l1 s1 T2 l2 s2 -> ext T l s T2 l2 s2.
Proof.
  intros HA HB. split.
  - trans T1; [apply HA|apply HB].
  - intros q Hq. by eapply ext_in, ext_in.
  - intros Q q H2 H0. destruct (ext_table _ _ _ _ _ _ _ _ HB H2) as [H1|H1]; [by eapply ex_new|by eapply ext_in].
  - intros a HT Hl. rewrite (ex_mem _ _ _ _ _ _ HB); [by apply HA| |].
    + intros Q q HQ. destruct (ext_table _ _ _ _ _ _ _ _ HA HQ); [by eapply HT|by apply Hl].
    + intros q Hq. apply Hl. by eapply ext_in.
  - intros p Hp Hpl. rewrite (ex_ref _ _ _ _ _ _ HB), (ex_ref _ _ _ _ _ _ HA); [done|done|done|done|]. intros Hc. apply Hpl. by eapply ext_in.
Qed.

Lemma grew_pte T l s T' l' s' va : grew T l s T' l' s' -> pte_at T' s' va = pte_at T s va.
Proof.
  intros HG. unfold pte_at. assert (0 <= va_slot va < 512) as Hs by (apply level_idx_range; lia).
  destruct (T' !! va_path va) as [t|] eqn:E'.
  - rewrite (gr_leaf _ _ _ _ _ _ HG _ _ _ E') by done. destruct (T !! va_path va) as [t0|] eqn:E0; [|done].
    pose proof (lookup_weaken _ _ _ _ E0 (gr_sub _ _ _ _ _ _ HG)) as H. rewrite E' in H. by injection H as ->.
  - destruct (T !! va_path va) as [t0|] eqn:E0; [|done].
    pose proof (lookup_weaken _ _ _ _ E0 (gr_sub _ _ _ _ _ _ HG)). congruence.
Qed.

(** Two addresses of one page, or of different ones. *)
Definition same_page (va va' : Z) : Prop := va / 4096 = va' / 4096.

#[export] Instance same_page_dec va va' : Decision (same_page va va').
Proof. unfold same_page. apply _. Defined.

Lemma store_leaf pgdir T l s va t v :
  vm pgdir T l s -> T !! va_path va = Some t ->
  let s' := set_mem (<[t + 8 * va_slot va := v]> (mem s)) s in
  vm pgdir T l s' /\ ext T l s T l s' /\ pte_at T s' va = v /\
  (forall va', 0 <= va < USERTOP -> 0 <= va' < USERTOP -> pte_at T s' va' = if decide (same_page va' va) then v else pte_at T s va').
Proof using kend_ok.
  intros HV Ht s'. assert (0 <= va_slot va < 512) as Hs by (apply level_idx_range; lia).
  destruct (vm_page _ _ _ _ HV _ _ Ht) as [Hpt Htl]. pose proof (in_page_slot t _ Hs) as Hin.
  assert (forall a, word (mem s') a = if decide (t + 8 * va_slot va = a) then v else word (mem s) a) as Hw by (intros; apply word_insert).
  assert (forall q, page kend q -> q <> t -> forall a, in_page q a -> t + 8 * va_slot va <> a) as Hdis.
  { intros q Hq Hne a Ha E. apply Hne. rewrite E in Hin. by eapply page_disjoint; [apply page_aligned|apply page_aligned| |]. }
  split; [|split; [|split]].
  - apply (vm_frame _ _ l s); [done| |intros P p HP; by eapply vm_page|].
    + apply inv_mem; [by eapply vm_free_list|]. intros q Hq. rewrite word_insert, decide_False; [done|].
      assert (page kend q) as Hpq by (pose proof (inv_pages _ _ _ (vm_free_list _ _ _ _ HV)) as H; rewrite Forall_forall in H; by apply H).
      apply (Hdis q Hpq); [by intros ->|]. unfold in_page, PGSIZE. lia.
    + intros P p a HP Hlen Ha. rewrite Hw, decide_False; [done|]. destruct (vm_page _ _ _ _ HV _ _ HP) as [Hpp _].
      apply (Hdis p Hpp); [|done]. intros ->. pose proof (vm_inj _ _ _ _ HV _ _ _ HP Ht) as ->. cbn in Hlen. lia.
  - split; try done; [congruence|]. intros a HT Hl. rewrite Hw, decide_False; [done|]. intros <-. by eapply HT.
  - unfold pte_at. rewrite Ht, Hw, decide_True; done.
  - intros va' Hu Hu'. case_decide as Hsp.
    + destruct (va_page_same _ _ Hsp) as [E1 E2]. unfold pte_at. rewrite E1, E2, Ht, Hw. by rewrite decide_True.
    + unfold pte_at. destruct (T !! va_path va') as [t'|] eqn:Et'; [|done]. rewrite Hw, decide_False; [done|].
      assert (0 <= va_slot va' < 512) as Hs' by (apply level_idx_range; lia). destruct (vm_page _ _ _ _ HV _ _ Et') as [Hpt' _].
      intros E. assert (t = t') as <-.
      { eapply page_disjoint; [by apply page_aligned|by apply page_aligned|exact Hin|]. rewrite E. by apply in_page_slot. }
      apply Hsp. apply va_page_inj; [done|done|by eapply vm_inj|lia].
Qed.

Lemma slot_nonzero pgdir T l s P t i : vm pgdir T l s -> T !! P = Some t -> 0 <= i -> (t + 8 * i =? 0) = false.
Proof using kend_ok.
  intros HV Ht Hi. destruct (vm_page _ _ _ _ HV _ _ Ht) as [[_ Hp] _]. apply Z.eqb_neq. pose proof kend_ok. unfold KERNBASE in *. lia.
Qed.

(** * Mapping *)

(** The descriptors of [k] pages from [p] on refer to the frames from [pa] on. *)
Definition mapped_range (f f' : Z -> Z) (p pa k : Z) : Prop :=
  forall va, 0 <= va < USERTOP -> f' va = if decide (p <= va < p + 4096 * k) then Z.lor (pa + (va / 4096 * 4096 - p)) PTE_UDATA else f va.

Lemma uvm_map_loop_run pgdir fuel :
  forall T l s p stop pa,
  vm pgdir T l s -> p mod 4096 = 0 -> 0 <= p -> stop <= USERTOP -> pa mod 4096 = 0 -> 0 <= pa -> pa + (stop - p) <= 2 ^ 48 ->
  (stop - p + 4095) / 4096 <= Z.of_nat fuel ->
  exists T' l' s' r k, uvm_map_loop fuel pgdir p stop pa s = Ret r s' /\ vm pgdir T' l' s' /\ ext T l s T' l' s' /\ 0 <= k /\
    mapped_range (pte_at T s) (pte_at T' s') p pa k /\ (forall j, 0 <= j < k -> valid_pte (pte_at T s (p + 4096 * j)) = false) /\
    Z.of_nat (length l) <= Z.of_nat (length l') + 3 * (k + if decide (r = 0) then 0 else 1) /\
    (r = 0 /\ k = Z.max 0 ((stop - p + 4095) / 4096) \/
     r = - EINVAL /\ p + 4096 * k < stop /\ (valid_pte (pte_at T s (p + 4096 * k)) = true \/ l' = [])).
Proof using kend_ok.
  induction fuel as [|fuel IH]; intros T l s p stop pa HV Hp Hp0 Hstop Hpa Hpa0 Htop Hfuel; cbn [uvm_map_loop].
  - destruct (Z.ltb_spec p stop) as [Hlt|Hge].
    + exfalso. assert (1 <= (stop - p + 4095) / 4096) by (apply Z.div_le_lower_bound; lia). lia.
    + exists T, l, s, 0, 0. split; [done|]. split; [done|]. split; [apply ext_refl|]. split; [done|].
      split; [intros va _; by rewrite decide_False by lia|]. split; [lia|]. split; [rewrite decide_True by done; lia|]. left. split; [done|]. lia.
  - destruct (Z.ltb_spec p stop) as [Hlt|Hge].
    2:{ exists T, l, s, 0, 0. split; [done|]. split; [done|]. split; [apply ext_refl|]. split; [done|].
        split; [intros va _; by rewrite decide_False by lia|]. split; [lia|]. split; [rewrite decide_True by done; lia|]. left. split; [done|].
        assert ((stop - p + 4095) / 4096 <= 0); [|lia]. apply Z.lt_succ_r, Z.div_lt_upper_bound; lia. }
    assert (0 <= p < USERTOP) as Hup by lia.
    destruct (walk_alloc pgdir T l s p HV) as (T1 & l1 & s1 & E1 & HV1 & HG & Hn & Hcost). erewrite bind_run by exact E1.
    assert (forall va, pte_at T1 s1 va = pte_at T s va) as Hpte by (intros; by eapply grew_pte).
    destruct (T1 !! va_path p) as [t|] eqn:Et.
    2:{ exists T1, l1, s1, (- EINVAL), 0. split; [done|]. split; [done|]. split; [by apply grew_ext|]. split; [done|].
        split; [intros va _; by rewrite decide_False by lia|]. split; [lia|]. split; [rewrite decide_False by done; lia|]. right. split; [done|]. split; [lia|]. right. auto. }
    assert (0 <= va_slot p < 512) as Hsl by (apply level_idx_range; lia).
    rewrite (slot_nonzero _ _ _ _ _ _ _ HV1 Et) by lia. run_step.
    change (default 0 _) with (word (mem s1) (t + 8 * va_slot p)).
    assert (word (mem s1) (t + 8 * va_slot p) = pte_at T s p) as -> by (rewrite <- Hpte; unfold pte_at; by rewrite Et).
    fold (valid_pte (pte_at T s p)). destruct (valid_pte (pte_at T s p)) eqn:Ev.
    { exists T1, l1, s1, (- EINVAL), 0. split; [done|]. split; [done|]. split; [by apply grew_ext|]. split; [done|].
      split; [intros va _; by rewrite decide_False by lia|]. split; [lia|]. split; [rewrite decide_False by done; lia|]. right. split; [done|]. split; [lia|]. left. by rewrite Z.mul_0_r, Z.add_0_r. }
    run_step.
    destruct (store_leaf pgdir T1 l1 s1 p t (Z.lor pa PTE_UDATA) HV1 Et) as (HV2 & HE2 & _ & Hp2). set (s2 := set_mem _ s1) in *.
    unfold PGSIZE. unfold USERTOP in *. rewrite !u64_id by lia.
    assert (stop - (p + 4096) + 4095 = (stop - p + 4095) + -1 * 4096) as Eq by lia.
    destruct (IH T1 l1 s2 (p + 4096) stop (pa + 4096)) as (T3 & l3 & s3 & r & k & E3 & HV3 & HE3 & Hk & Hm & Hnv & Hcost3 & Hr); try done; try lia.
    { rewrite Zplus_mod, Hp. done. } { rewrite Zplus_mod, Hpa. done. } { rewrite Eq, Z.div_add by lia. lia. }
    exists T3, l3, s3, r, (k + 1). split; [done|]. split; [done|].
    assert (forall j, 0 <= j -> p + 4096 * (j + 1) < stop -> pte_at T1 s2 (p + 4096 + 4096 * j) = pte_at T s (p + 4096 * (j + 1))) as Hrest.
    { intros j Hj Hjs. rewrite Hp2 by lia. rewrite decide_False; [rewrite Hpte; f_equal; lia|].
      unfold same_page. replace (p + 4096 + 4096 * j) with (p + (j + 1) * 4096) by lia. rewrite (Z.div_add p (j + 1) 4096) by lia. lia. }
    assert (p + 4096 * k < stop) as Hlast.
    { destruct Hr as [[_ ->]|(_ & Hlt' & _)]; [|lia]. pose proof (Z.div_mod (stop - (p + 4096) + 4095) 4096 ltac:(lia)).
      pose proof (Z.mod_pos_bound (stop - (p + 4096) + 4095) 4096 ltac:(lia)). lia. }
    split; [eapply ext_trans; [by apply grew_ext|]; by eapply ext_trans|]. split; [lia|]. split; [|split; [|split; [lia|]]].
    + intros va Hva. rewrite Hm by done. pose proof (Z.div_mod va 4096 ltac:(lia)) as Dv. pose proof (Z.mod_pos_bound va 4096 ltac:(lia)).
      pose proof (Z.div_mod p 4096 ltac:(lia)). rewrite Hp2 by done. unfold same_page. rewrite Hpte.
      destruct (decide (p + 4096 <= va < p + 4096 + 4096 * k)).
      * rewrite decide_True by lia. f_equal. lia.
      * destruct (decide (va / 4096 = p / 4096)) as [E|E].
        -- rewrite decide_True by lia. f_equal. rewrite E. lia.
        -- rewrite decide_False; [done|]. lia.
    + intros j Hj. destruct (decide (j = 0)) as [->|]; [by rewrite Z.mul_0_r, Z.add_0_r|].
      replace j with (j - 1 + 1) by lia. rewrite <- Hrest by lia. apply Hnv. lia.
    + destruct Hr as [[-> ->]|(-> & Hlt' & Hor)].
      * left. split; [done|]. rewrite Eq, Z.div_add by lia. assert (1 <= (stop - p + 4095) / 4096) by (apply Z.div_le_lower_bound; lia). lia.
      * right. split; [done|]. replace (p + 4096 * (k + 1)) with (p + 4096 + 4096 * k) by lia. split; [lia|].
        destruct Hor as [Hv|]; [left|by right]. rewrite <- Hv, Hrest by lia. do 2 f_equal. lia.
Qed.

(** [uvm_map] of a range inside the user space. *)
Lemma uvm_map_run pgdir T l s va sz pa :
  vm pgdir T l s -> 0 <= va -> 0 <= sz -> va + sz <= USERTOP -> 0 <= pa < USERTOP -> pa + sz + va mod 4096 <= USERTOP ->
  exists T' l' s' r k, uvm_map pgdir va sz pa s = Ret r s' /\ vm pgdir T' l' s' /\ ext T l s T' l' s' /\ 0 <= k /\
    mapped_range (pte_at T s) (pte_at T' s') (ROUNDDOWN va PGSIZE) (ROUNDDOWN pa PGSIZE) k /\
    (forall j, 0 <= j < k -> valid_pte (pte_at T s (ROUNDDOWN va PGSIZE + 4096 * j)) = false) /\
    Z.of_nat (length l) <= Z.of_nat (length l') + 3 * (k + if decide (r = 0) then 0 else 1) /\
    (r = 0 /\ k = (va mod 4096 + sz + 4095) / 4096 \/
     r = - EINVAL /\ ROUNDDOWN va PGSIZE + 4096 * k < va + sz /\
       (valid_pte (pte_at T s (ROUNDDOWN va PGSIZE + 4096 * k)) = true \/ l' = [])).
Proof using kend_ok.
  intros HV Hva Hsz Htop Hpa Hpt. unfold uvm_map. cbn zeta.
  assert (assert (pa <? USERTOP) s = Ret tt s) as E by (destruct (Z.ltb_spec pa USERTOP); [done|lia]). erewrite bind_run by exact E.
  unfold USERTOP in *. rewrite u64_id by lia. unfold ROUNDDOWN, PGSIZE, vm_rounds in *.
  pose proof (Z.mod_pos_bound va 4096 ltac:(lia)). pose proof (Z.mod_pos_bound pa 4096 ltac:(lia)).
  pose proof (Z.div_mod va 4096 ltac:(lia)). pose proof (Z.div_mod pa 4096 ltac:(lia)). pose proof (Z.div_pos sz 4096).
  assert (forall x, (x - x mod 4096) mod 4096 = 0) as Hal by (intros x; rewrite Zminus_mod, Z.mod_mod, Z.sub_diag by lia; done).
  assert (0 <= pa / 4096 /\ 0 <= va / 4096) as [? ?] by (split; apply Z.div_pos; lia).
  assert (0 <= (va mod 4096 + sz + 4095) / 4096) by (apply Z.div_pos; lia).
  assert (va + sz - (va - va mod 4096) + 4095 = va mod 4096 + sz + 4095) as Eq by lia.
  destruct (uvm_map_loop_run pgdir (Z.to_nat (sz / 4096 + 2)) T l s (va - va mod 4096) (va + sz) (pa - pa mod 4096))
    as (T' & l' & s' & r & k & Er & HV' & HE & Hk & Hm & Hnv & Hcost & Hr); try done; try (unfold USERTOP; lia); try apply Hal.
  { rewrite Eq, Z2Nat.id by lia. apply Z.lt_succ_r, Z.div_lt_upper_bound; [lia|]. pose proof (Z.div_mod sz 4096 ltac:(lia)).
    pose proof (Z.mod_pos_bound sz 4096 ltac:(lia)). lia. }
  exists T', l', s', r, k. split_and!; try done. rewrite Eq in Hr. destruct Hr as [[-> ->]|Hr]; [left; split; [done|lia]|by right].
Qed.

(** Taking a page off the free list. *)
Lemma kalloc_ext pgdir T q l s s1 :
  vm pgdir T (q :: l) s -> inv kend l s1 -> mem s1 = mem s -> (forall p, page kend p -> p <> q -> rc s1 p = rc s p) ->
  vm pgdir T l s1 /\ ext T (q :: l) s T l s1 /\ (forall va, pte_at T s1 va = pte_at T s va).
Proof.
  intros HV HI Em Hrc. split; [|split].
  - apply (vm_frame _ _ (q :: l) s); [done|done| |by rewrite Em].
    intros P p HP Hc. destruct (vm_page _ _ _ _ HV _ _ HP) as [_ Hn]. apply Hn. by right.
  - split; try done; [by right|congruence|by rewrite Em|]. intros p Hp Hpl. apply Hrc; [done|]. intros ->. apply Hpl. by left.
  - intros va. unfold pte_at. by rewrite Em.
Qed.

(** * Growing *)

(** [k] pages from [a] on are mapped to the pages [F], taken from the free
    list [l]; the other descriptors are as before. *)
Record fresh_range (T : gmap (list Z) Z) (l : list Z) (s : kstate) (T' : gmap (list Z) Z) (l' : list Z) (s' : kstate)
    (a k : Z) (F : Z -> Z) : Prop := {
  fr_pte va : 0 <= va < USERTOP ->
    pte_at T' s' va = if decide (a <= va < a + 4096 * k) then Z.lor (V2P (F (va / 4096))) PTE_UDATA else pte_at T s va;
  fr_page x : a / 4096 <= x < a / 4096 + k -> page kend (F x) /\ F x ∈ l /\ F x ∉ l' /\ rc s' (F x) = 1;
  fr_table x Q q : a / 4096 <= x < a / 4096 + k -> T' !! Q = Some q -> F x <> q;
  fr_inj x y : a / 4096 <= x < a / 4096 + k -> a / 4096 <= y < a / 4096 + k -> F x = F y -> x = y
}.

(** Mapping a page that was taken off the free list. *)
Lemma map_page pgdir T l s a p :
  vm pgdir T l s -> a mod 4096 = 0 -> 0 <= a -> a + 4096 <= USERTOP -> page kend p -> p ∉ l -> (forall Q q, T !! Q = Some q -> p <> q) ->
  exists T' l' s' r, uvm_map pgdir a PGSIZE (V2P p) s = Ret r s' /\ vm pgdir T' l' s' /\ ext T l s T' l' s' /\
    (forall Q q, T' !! Q = Some q -> p <> q) /\ (length l <= length l' + 3)%nat /\
    (r = 0 /\ valid_pte (pte_at T s a) = false /\
       (forall va, 0 <= va < USERTOP -> pte_at T' s' va = if decide (a <= va < a + 4096) then Z.lor (V2P p) PTE_UDATA else pte_at T s va) \/
     r = - EINVAL /\ (valid_pte (pte_at T s a) = true \/ l' = []) /\ forall va, 0 <= va < USERTOP -> pte_at T' s' va = pte_at T s va).
Proof using kend_ok.
  intros HV Ha Ha0 Htop Hp Hpl Htab. destruct (page_frame p Hp) as (Hpm & Hpr & Hpv).
  assert (V2P p < 2 ^ 47) as Hp47.
  { destruct (page_v2p kend kend_ok p Hp) as [E _]. destruct Hp as [_ Hp]. rewrite E. unfold KERNBASE, PHYSTOP in *. lia. }
  unfold USERTOP in Htop.
  destruct (uvm_map_run pgdir T l s a PGSIZE (V2P p)) as (T' & l' & s' & r & k & Er & HV' & HE' & Hk & Hm & Hnv & Hcost & Hr); try done;
    try (unfold USERTOP, PGSIZE; lia).
  assert (ROUNDDOWN a PGSIZE = a /\ ROUNDDOWN (V2P p) PGSIZE = V2P p) as [Ra Rp] by (unfold ROUNDDOWN, PGSIZE; lia).
  rewrite Ra, Rp in *. exists T', l', s', r. split; [done|]. split; [done|]. split; [done|]. split.
  { intros Q q HQ ->. destruct (ext_table _ _ _ _ _ _ _ _ HE' HQ) as [H|H]; [|done]. by apply (Htab Q q). }
  split.
  { destruct Hr as [[-> ->]|(-> & Hlt & _)]; [rewrite decide_True in Hcost by done; rewrite Ha in Hcost; change ((0 + PGSIZE + 4095) / 4096) with 1 in Hcost; lia|].
    rewrite decide_False in Hcost by done. unfold PGSIZE in Hlt. lia. }
  clear Hcost.
  destruct Hr as [[-> ->]|(-> & Hlt & Hor)].
  - left. split; [done|]. rewrite Ha in *. change ((0 + PGSIZE + 4095) / 4096) with 1 in *.
    split; [specialize (Hnv 0 ltac:(lia)); by rewrite Z.mul_0_r, Z.add_0_r in Hnv|].
    pose proof (Z.div_mod a 4096 ltac:(lia)) as Da. intros va Hva. rewrite Hm by done. rewrite Z.mul_1_r. case_decide; [|done].
    f_equal. pose proof (Z.div_mod va 4096 ltac:(lia)). pose proof (Z.mod_pos_bound va 4096 ltac:(lia)). lia.
  - right. split; [done|]. assert (k = 0) as -> by (unfold PGSIZE in Hlt; lia). rewrite Z.mul_0_r, Z.add_0_r in Hor. split; [done|].
    intros va Hva. rewrite Hm by done. by rewrite decide_False by lia.
Qed.

(** Giving a page back that nothing refers to. *)
Lemma give_back pgdir T l s T1 l1 s1 p :
  vm pgdir T1 l1 s1 -> ext T l s T1 l1 s1 -> page kend p -> p ∈ l -> p ∉ l1 -> (forall Q q, T1 !! Q = Some q -> p <> q) ->
  exists s2, kfree kend p s1 = Ret tt s2 /\ vm pgdir T1 (p :: l1) s2 /\ ext T l s T1 (p :: l1) s2 /\
    forall va, pte_at T1 s2 va = pte_at T1 s1 va.
Proof using kend_ok.
  intros HV HE Hp Hpl Hpl1 Htab. pose proof (vm_free_list _ _ _ _ HV) as HI.
  destruct (kfree_run kend kend_ok s1 l1 p HI Hp Hpl1 ltac:(pose proof (inv_len kend kend_ok _ _ HI); lia)) as (s2 & Ef & HI2 & _ & Hmem & Href).
  assert (forall a, ~ in_page p a -> word (mem s2) a = word (mem s1) a) as Hw.
  { intros b Hb. unfold word. rewrite Hmem; [done|]. intros ->. apply Hb. unfold in_page, PGSIZE. lia. }
  assert (forall Q q b, T1 !! Q = Some q -> in_page q b -> ~ in_page p b) as Hdis.
  { intros Q q b HQ Hb Hc. apply (Htab Q q HQ). destruct (vm_page _ _ _ _ HV _ _ HQ) as [Hq _].
    by eapply page_disjoint; [by apply page_aligned|by apply page_aligned| |]. }
  exists s2. split; [done|]. split; [|split].
  - apply (vm_frame _ _ l1 s1); [done|done| |intros P q b HP _ Hb; apply Hw; by eapply Hdis].
    intros P q HP [->|Hc]%elem_of_cons; [by eapply Htab|]. by destruct (vm_page _ _ _ _ HV _ _ HP).
  - split; [apply HE|intros q [->|Hq]%elem_of_cons; [done|by apply HE]|apply HE| |].
    + intros b HT Hl. rewrite Hw by (by apply Hl). by apply HE.
    + intros q Hq Hql. rewrite <- (ex_ref _ _ _ _ _ _ HE) by done. apply Href, (frames_differ kend kend_ok); [done|done|]. by intros ->.
  - intros va. unfold pte_at. destruct (T1 !! va_path va) as [t|] eqn:Et; [|done]. apply Hw. eapply Hdis; [done|]. apply in_page_slot, level_idx_range. lia.
Qed.

(** Mapping one fresh page. *)
Lemma alloc_one pgdir T l s a :
  vm pgdir T l s -> a mod 4096 = 0 -> 0 <= a -> a + 4096 <= USERTOP -> valid_pte (pte_at T s a) = false ->
  match l with
  | [] => kalloc s = Ret 0 s
  | p :: l0 => exists s1 T' l' s' r, kalloc s = Ret p s1 /\ (p =? 0) = false /\ uvm_map pgdir a PGSIZE (V2P p) s1 = Ret r s' /\
      vm pgdir T' l' s' /\ ext T l s T' l' s' /\ page kend p /\ p ∉ l0 /\
      (r = 0 /\ fresh_range T l s T' l' s' a 1 (fun _ => p) \/
       r = - EINVAL /\ l' = [] /\ (forall Q q, T' !! Q = Some q -> p <> q) /\ forall va, 0 <= va < USERTOP -> pte_at T' s' va = pte_at T s va)
  end.
Proof using kend_ok.
  intros HV Ha Ha0 Htop Hv. pose proof (kalloc_vm kend kend_ok l s (vm_free_list _ _ _ _ HV)) as Hk. destruct l as [|p l0]; [done|].
  destruct Hk as (s1 & Ek & HI & Em & Hp & Hpl & Hp0 & Hr1 & Hrc).
  destruct (kalloc_ext pgdir T p l0 s s1 HV HI Em Hrc) as (HV1 & HE1 & Hpte1).
  destruct (map_page pgdir T l0 s1 a p HV1 Ha Ha0 Htop Hp Hpl) as (T' & l' & s' & r & Er & HV' & HE' & Htab & _ & Hr).
  { intros Q q HQ ->. destruct (vm_page _ _ _ _ HV _ _ HQ) as [_ Hn]. apply Hn. by left. }
  exists s1, T', l', s', r. rewrite Hpte1 in Hr.
  split; [done|]. split; [by apply Z.eqb_neq|]. split; [done|]. split; [done|]. split; [by eapply ext_trans|]. split; [done|]. split; [done|].
  destruct Hr as [(-> & _ & Hm)|(-> & [?| ->] & Hm)]; [left|congruence|right].
  - split; [done|]. pose proof (Z.div_mod a 4096 ltac:(lia)) as Da. split.
    + intros va Hva. rewrite Hm by done. rewrite Z.mul_1_r. case_decide; [done|apply Hpte1].
    + intros x _. split; [done|]. split; [by left|]. split; [intros Hc; apply Hpl; by eapply ext_in|]. by rewrite (ex_ref _ _ _ _ _ _ HE').
    + intros x Q q _ HQ. by eapply Htab.
    + intros x y Hx Hy _. lia.
  - split; [done|]. split; [done|]. split; [done|]. intros va Hva. rewrite Hm by done. apply Hpte1.
Qed.

Lemma fresh_nil T l s a F : fresh_range T l s T l s a 0 F.
Proof. split; [intros va _; by rewrite decide_False by lia|intros; lia|intros; lia|intros; lia]. Qed.

(** Two ranges one after the other. *)
Lemma fresh_app T l s T1 l1 s1 T2 l2 s2 a k j F G :
  a mod 4096 = 0 -> 0 <= k -> 0 <= j -> ext T l s T1 l1 s1 -> ext T1 l1 s1 T2 l2 s2 ->
  fresh_range T l s T1 l1 s1 a k F -> fresh_range T1 l1 s1 T2 l2 s2 (a + 4096 * k) j G ->
  fresh_range T l s T2 l2 s2 a (k + j) (fun x => if decide (x < a / 4096 + k) then F x else G x).
Proof.
  intros Ha Hk Hj HE1 HE2 [A1 A2 A3 A4] [B1 B2 B3 B4]. pose proof (Z.div_mod a 4096 ltac:(lia)) as Da.
  assert ((a + 4096 * k) / 4096 = a / 4096 + k) as Ea by (rewrite Z.mul_comm; by rewrite Z.div_add by lia). rewrite Ea in *.
  assert (forall x y, a / 4096 <= x < a / 4096 + k -> a / 4096 + k <= y < a / 4096 + k + j -> F x <> G y) as Hne.
  { intros x y Hx Hy E. destruct (A2 x Hx) as (_ & _ & Hn & _). destruct (B2 y Hy) as (_ & H & _). by rewrite E in Hn. }
  split.
  - intros va Hva. pose proof (Z.div_mod va 4096 ltac:(lia)). pose proof (Z.mod_pos_bound va 4096 ltac:(lia)). rewrite B1, A1 by done.
    destruct (decide (a + 4096 * k <= va < a + 4096 * k + 4096 * j)).
    + rewrite decide_True by lia. by rewrite decide_False by lia.
    + destruct (decide (a <= va < a + 4096 * k)).
      * rewrite decide_True by lia. by rewrite decide_True by lia.
      * by rewrite decide_False by lia.
  - intros x Hx. destruct (decide (x < a / 4096 + k)).
    + destruct (A2 x ltac:(lia)) as (Hp & Hpl & Hpl1 & Hpr). split; [done|]. split; [done|].
      split; [intros Hc; apply Hpl1; by eapply ext_in|]. by rewrite (ex_ref _ _ _ _ _ _ HE2).
    + destruct (B2 x ltac:(lia)) as (? & ? & ? & ?). split; [done|]. split; [by eapply ext_in|done].
  - intros x Q q Hx HQ. destruct (decide (x < a / 4096 + k)); [|apply (B3 x Q q); [lia|done]].
    destruct (ext_table _ _ _ _ _ _ _ _ HE2 HQ) as [HQ1|HQ1]; [apply (A3 x Q); [lia|done]|]. intros E. destruct (A2 x ltac:(lia)) as (_ & _ & Hn & _). by rewrite E in Hn.
  - intros x y Hx Hy. destruct (decide (x < a / 4096 + k)), (decide (y < a / 4096 + k)); intros E.
    + apply A4; [lia|lia|done].
    + exfalso. by apply (Hne x y); [lia|lia|].
    + exfalso. by apply (Hne y x); [lia|lia|].
    + apply B4; [lia|lia|done].
Qed.

Lemma uvm_alloc_loop_run pgdir base oldsz newsz fuel :
  forall T l s a,
  vm pgdir T l s -> a mod 4096 = 0 -> 0 <= a -> newsz <= USERTOP ->
  (forall va, a <= va < newsz -> valid_pte (pte_at T s va) = false) -> (newsz - a + 4095) / 4096 <= Z.of_nat fuel ->
  exists k T' l' s' F, 0 <= k /\ vm pgdir T' l' s' /\ ext T l s T' l' s' /\ fresh_range T l s T' l' s' a k F /\ (0 < k -> a + 4096 * (k - 1) < newsz) /\
    (newsz <= a + 4096 * k /\
       uvm_alloc_loop kend fuel pgdir base oldsz newsz a s = Ret (s32 newsz) s' \/
     a + 4096 * k < newsz /\ (length l' <= 1)%nat /\
       uvm_alloc_loop kend fuel pgdir base oldsz newsz a s = (let* _ := uvm_dealloc kend pgdir base newsz oldsz in ret 0) s').
Proof using kend_ok.
  assert (forall a, a mod 4096 = 0 -> (a + 4096) mod 4096 = 0) as Hstep by (intros a H; rewrite Zplus_mod, H; done).
  induction fuel as [|fuel IH]; intros T l s a HV Ha Ha0 Htop Hun Hfuel; cbn [uvm_alloc_loop]; destruct (Z.ltb_spec a newsz) as [Hlt|Hge].
  1:{ exfalso. assert (1 <= (newsz - a + 4095) / 4096) by (apply Z.div_le_lower_bound; lia). lia. }
  1,3: exists 0, T, l, s, (fun _ => 0); split; [done|]; split; [done|]; split; [apply ext_refl|]; split; [apply fresh_nil|];
       split; [lia|]; left; split; [lia|done].
  assert (a + 4096 <= USERTOP) as Hpage by (pose proof (Z.div_mod a 4096 ltac:(lia)); unfold USERTOP in *; lia).
  pose proof (alloc_one pgdir T l s a HV Ha Ha0 Hpage (Hun a ltac:(lia))) as H1. destruct l as [|p l0].
  { exists 0, T, [], s, (fun _ => 0). split; [done|]. split; [done|]. split; [apply ext_refl|]. split; [apply fresh_nil|]. split; [lia|].
    right. split; [lia|]. split; [cbn; lia|]. by erewrite bind_run by exact H1. }
  destruct H1 as (s1 & T1 & l1 & s2 & r & Ek & Ep & Em & HV1 & HE1 & Hp & Hpl & Hor). erewrite bind_run by exact Ek. rewrite Ep.
  erewrite bind_run by exact Em. destruct Hor as [[-> HF]|(-> & -> & Htab & Hpte)]; cbn [Z.ltb Z.opp Z.compare EINVAL].
  - unfold PGSIZE, USERTOP in *. rewrite u64_id by lia.
    assert (newsz - (a + 4096) + 4095 = (newsz - a + 4095) + -1 * 4096) as Eq by lia.
    destruct (IH T1 l1 s2 (a + 4096) HV1 (Hstep a Ha)) as (k & T2 & l2 & s3 & F & Hk & HV2 & HE2 & HF2 & Hlast & Hor); try lia.
    { intros va Hva. rewrite (fr_pte _ _ _ _ _ _ _ _ _ HF) by (unfold USERTOP; lia). rewrite decide_False by lia. apply Hun. lia. }
    { rewrite Eq, Z.div_add by lia. lia. }
    exists (1 + k), T2, l2, s3, (fun x => if decide (x < a / 4096 + 1) then p else F x). split; [lia|]. split; [done|].
    split; [by eapply ext_trans|]. split; [by eapply fresh_app|]. split.
    { intros _. destruct (decide (k = 0)) as [->|]; [lia|]. replace (a + 4096 * (1 + k - 1)) with (a + 4096 + 4096 * (k - 1)) by lia. apply Hlast. lia. }
    replace (a + 4096 * (1 + k)) with (a + 4096 + 4096 * k) by lia. exact Hor.
  - destruct (give_back pgdir T (p :: l0) s T1 [] s2 p HV1 HE1 Hp ltac:(by left) ltac:(by intros ?%elem_of_nil) Htab) as (s3 & Ef & HV3 & HE3 & Hp3).
    exists 0, T1, [p], s3, (fun _ => 0). split; [done|]. split; [done|]. split; [done|]. split; [|split; [lia|right; split; [lia|split; [cbn; lia|]]]].
    2: exact (bind_run _ _ _ _ _ Ef).
    split; [|lia|lia|lia]. intros va Hva. rewrite decide_False by lia. by rewrite Hp3, Hpte.
Qed.

(** * Shrinking *)

Lemma dealloc_loop_none pgdir T l s oldsz fuel : forall a,
  vm pgdir T l s -> 0 <= a -> oldsz <= USERTOP -> (forall va, a <= va < oldsz -> valid_pte (pte_at T s va) = false) ->
  (oldsz - a + 4095) / 4096 <= Z.of_nat fuel -> uvm_dealloc_loop kend fuel pgdir a oldsz s = Ret tt s.
Proof using kend_ok.
  induction fuel as [|fuel IH]; intros a HV Ha Htop Hun Hfuel; cbn [uvm_dealloc_loop]; destruct (Z.ltb_spec a oldsz) as [Hlt|Hge]; try done.
  - exfalso. assert (1 <= (oldsz - a + 4095) / 4096) by (apply Z.div_le_lower_bound; lia). lia.
  - erewrite bind_run by (by eapply walk_lookup). unfold PGSIZE, USERTOP in *. rewrite u64_id by lia.
    assert (uvm_dealloc_loop kend fuel pgdir (a + 4096) oldsz s = Ret tt s) as E.
    { apply IH; try lia; [done|intros va Hva; apply Hun; lia|].
      replace (oldsz - (a + 4096) + 4095) with ((oldsz - a + 4095) + -1 * 4096) by lia. rewrite Z.div_add by lia. lia. }
    pose proof (Hun a ltac:(lia)) as Hv. unfold pte_at in Hv. destruct (T !! va_path a) as [t|] eqn:Et.
    + rewrite (slot_nonzero _ _ _ _ _ _ _ HV Et) by (apply level_idx_range; lia). run_step.
      change (default 0 _) with (word (mem s) (t + 8 * va_slot a)). unfold valid_pte in Hv. rewrite Hv. cbn [negb andb].
      by run_step.
    + cbn [Z.eqb negb andb]. run_step. by run_step.
Qed.

Lemma kfree_physical s q : page kend q -> kfree kend (V2P q) s = Panic s.
Proof using kend_ok.
  intros Hq. destruct (page_v2p kend kend_ok q Hq) as [E _]. destruct Hq as [_ Hr]. rewrite E. unfold kfree.
  pose proof kend_ok. destruct (Z.ltb_spec (q - KERNBASE) kend); [by rewrite orb_true_r|]. unfold KERNBASE, PHYSTOP in *. lia.
Qed.

(** The body of the loop at a page held once: the count drops to 0 and [kfree]
    gets the physical address. *)
Lemma dealloc_loop_panic pgdir T l s oldsz q fuel : forall a,
  vm pgdir T l s -> 0 <= a -> oldsz <= USERTOP -> forall j, 0 <= j -> a + 4096 * j < oldsz ->
  (forall i, 0 <= i < j -> valid_pte (pte_at T s (a + 4096 * i)) = false) ->
  valid_pte (pte_at T s (a + 4096 * j)) = true -> PTE_ADDR (pte_at T s (a + 4096 * j)) = V2P q -> page kend q -> rc s q = 1 ->
  j < Z.of_nat fuel -> exists s', uvm_dealloc_loop kend fuel pgdir a oldsz s = Panic s'.
Proof using kend_ok.
  induction fuel as [|fuel IH]; intros a HV Ha Htop j Hj Hlt Hun Hv Hq Hpq Hrc Hfuel; [lia|]. cbn [uvm_dealloc_loop].
  destruct (Z.ltb_spec a oldsz); [|lia]. erewrite bind_run by (by eapply walk_lookup).
  destruct (decide (j = 0)) as [->|Hj0].
  - rewrite Z.mul_0_r, Z.add_0_r in *. unfold pte_at in Hv, Hq. destruct (T !! va_path a) as [t|] eqn:Et; [|done].
    rewrite (slot_nonzero _ _ _ _ _ _ _ HV Et) by (apply level_idx_range; lia). run_step.
    change (default 0 _) with (word (mem s) (t + 8 * va_slot a)). unfold valid_pte in Hv. rewrite Hv, Hq. cbn [negb andb].
    destruct (page_v2p kend kend_ok q Hpq) as [Ev Hfr].
    assert (truthy (V2P q) = true) as Ht.
    { rewrite Ev. unfold truthy. destruct Hpq as [_ Hr]. destruct (Z.eqb_spec (q - KERNBASE) 0); [|done]. pose proof kend_ok. lia. }
    destruct (inv_locks _ _ _ (vm_free_list _ _ _ _ HV)) as [Hkl Hrl].
    set (s1 := set_ref (<[Z.shiftr (V2P q) PGSHIFT := s32 (ref_of s (Z.shiftr (V2P q) PGSHIFT) - 1)]> (ref s)) s).
    assert (get_kmem_ref (V2P q) s1 = Ret 0 s1) as Hg.
    { unfold get_kmem_ref, frame. erewrite bind_run by (unfold acquire_ref; cbn [ref_lock s1 set_ref]; by rewrite Hrl).
      destruct (Z.leb_spec 0 (Z.shiftr (V2P q) PGSHIFT)); [|lia]. destruct (Z.ltb_spec (Z.shiftr (V2P q) PGSHIFT) NFRAMES); [|lia].
      unfold bind, ret, gets, release_ref. cbn. f_equal.
      - unfold ref_of. cbn [ref set_rlock s1 set_ref]. rewrite lookup_insert_eq. unfold rc in Hrc. cbn. by rewrite Hrc.
      - unfold set_rlock, s1, set_ref. cbn. by rewrite Hrl. }
    exists s1. unfold bind at 1. unfold bind at 1. rewrite Ht. cbn [assert ret].
    unfold bind at 1. unfold dec_kmem_ref. rewrite update_ref_run by done. fold s1. unfold bind at 1. rewrite Hg. cbn [Z.eqb when].
    unfold bind at 1. by rewrite kfree_physical.
  - pose proof (Hun 0 ltac:(lia)) as H0. rewrite Z.mul_0_r, Z.add_0_r in H0. unfold PGSIZE, USERTOP in *. rewrite u64_id by lia.
    assert (exists s', uvm_dealloc_loop kend fuel pgdir (a + 4096) oldsz s = Panic s') as [s' E].
    { apply (IH (a + 4096) HV ltac:(lia) ltac:(lia) (j - 1)); try lia; try done.
      - intros i Hi. replace (a + 4096 + 4096 * i) with (a + 4096 * (i + 1)) by lia. apply Hun. lia.
      - by replace (a + 4096 + 4096 * (j - 1)) with (a + 4096 * j) by lia.
      - by replace (a + 4096 + 4096 * (j - 1)) with (a + 4096 * j) by lia. }
    exists s'. unfold pte_at in H0. destruct (T !! va_path a) as [t|] eqn:Et.
    + rewrite (slot_nonzero _ _ _ _ _ _ _ HV Et) by (apply level_idx_range; lia). run_step.
      change (default 0 _) with (word (mem s) (t + 8 * va_slot a)). unfold valid_pte in H0. rewrite H0. cbn [negb andb].
      by run_step.
    + cbn [Z.eqb negb andb]. run_step. by run_step.
Qed.

(** The loops from [ROUNDUP x] to [y] have fuel enough. *)
Lemma rounds_enough x y :
  0 <= x <= y -> y <= USERTOP ->
  x <= ROUNDUP x PGSIZE < x + 4096 /\ ROUNDUP x PGSIZE mod 4096 = 0 /\ (y - ROUNDUP x PGSIZE + 4095) / 4096 <= Z.of_nat (vm_rounds (y - x)).
Proof.
  intros Hx Hy. unfold ROUNDUP, ROUNDDOWN, PGSIZE, USERTOP, vm_rounds in *. rewrite u64_id by lia. set (z := x + 4096 - 1).
  pose proof (Z.mod_pos_bound z 4096 ltac:(lia)). assert (x <= z - z mod 4096 < x + 4096) by lia. split; [done|].
  split; [rewrite Zminus_mod, Z.mod_mod, Z.sub_diag by lia; done|]. assert (0 <= (y - x) / PGSIZE) by (apply Z.div_pos; [lia|done]).
  unfold PGSIZE in *. rewrite Z2Nat.id by lia. apply Z.lt_succ_r, Z.div_lt_upper_bound; [lia|].
  pose proof (Z.div_mod (y - x) 4096 ltac:(lia)). pose proof (Z.mod_pos_bound (y - x) 4096 ltac:(lia)). lia.
Qed.

Lemma udata_pte q : page kend q -> valid_pte (Z.lor (V2P q) PTE_UDATA) = true /\ PTE_ADDR (Z.lor (V2P q) PTE_UDATA) = V2P q.
Proof using kend_ok.
  intros Hq. destruct (page_frame q Hq) as (Hm & Hr & Hv). unfold valid_pte.
  destruct (pte_of_frame (V2P q) PTE_UDATA Hm Hr) as [-> ->]; [|done]. change PTE_UDATA with 1863. lia.
Qed.

(** C13: [uvm_map] against the architecture's walk.  The first [k] pages of the
    range, none of which was mapped, get descriptors for consecutive frames, and
    no other descriptor changes.  It returns 0 if [k] is the number of all
    pages of the range; otherwise it returns -EINVAL, and the next page was mapped already or
    a table could not be allocated.  The tables stay well formed, no page outside the
    free list and the tables is written. *)
Theorem uvm_map_correct pgdir T l s va sz pa :
  vm pgdir T l s -> 0 <= va -> 0 <= sz -> va + sz <= USERTOP -> 0 <= pa < USERTOP -> pa + sz + va mod 4096 <= USERTOP ->
  exists T' l' s' r k, uvm_map pgdir va sz pa s = Ret r s' /\ vm pgdir T' l' s' /\ ext T l s T' l' s' /\ 0 <= k /\
    mapped_range (mmu_pte (mem s) pgdir) (mmu_pte (mem s') pgdir) (ROUNDDOWN va PGSIZE) (ROUNDDOWN pa PGSIZE) k /\
    (forall j, 0 <= j < k -> valid_pte (mmu_pte (mem s) pgdir (ROUNDDOWN va PGSIZE + 4096 * j)) = false) /\
    (r = 0 /\ k = (va mod 4096 + sz + 4095) / 4096 \/
     r = - EINVAL /\ ROUNDDOWN va PGSIZE + 4096 * k < va + sz /\
       (valid_pte (mmu_pte (mem s) pgdir (ROUNDDOWN va PGSIZE + 4096 * k)) = true \/ l' = [])).
Proof using kend_ok.
  intros HV Hva Hsz Htop Hpa Hpt.
  destruct (uvm_map_run pgdir T l s va sz pa HV Hva Hsz Htop Hpa Hpt) as (T' & l' & s' & r & k & E & HV' & HE & Hk & Hm & Hun & _ & Hr).
  exists T', l', s', r, k. split; [done|]. split; [done|]. split; [done|]. split; [done|]. split; [|split].
  - intros x Hx. rewrite !(mmu_pte_vm pgdir _ _ _ _ HV), (mmu_pte_vm pgdir _ _ _ _ HV'). by apply Hm.
  - intros j Hj. rewrite (mmu_pte_vm pgdir _ _ _ _ HV). by apply Hun.
  - by rewrite (mmu_pte_vm pgdir _ _ _ _ HV).
Qed.

(** C16: [uvm_alloc] on an unmapped range.  It maps [k] pages of the range to
    distinct pages taken from the free list, each with count 1, and changes no
    other descriptor.  When all are mapped it returns the new size (as an
    [int]); when the memory is used up before, it returns 0 if nothing was
    mapped yet, and otherwise its clean-up panics. *)
Theorem uvm_alloc_correct pgdir T l s base stksz oldsz newsz :
  vm pgdir T l s -> stksz mod PGSIZE = 0 -> 0 <= stksz < USERTOP -> 0 <= base <= oldsz -> oldsz <= newsz -> newsz < USERTOP - stksz ->
  (forall va, ROUNDUP oldsz PGSIZE <= va < newsz -> valid_pte (mmu_pte (mem s) pgdir va) = false) ->
  let a := ROUNDUP oldsz PGSIZE in
  exists k T' l' s' F, 0 <= k /\ (0 < k -> a + 4096 * (k - 1) < newsz) /\ vm pgdir T' l' s' /\ ext T l s T' l' s' /\
    (forall va, 0 <= va < USERTOP -> mmu_pte (mem s') pgdir va =
       if decide (a <= va < a + 4096 * k) then Z.lor (V2P (F (va / 4096))) PTE_UDATA else mmu_pte (mem s) pgdir va) /\
    (forall x, a / 4096 <= x < a / 4096 + k -> page kend (F x) /\ F x ∈ l /\ F x ∉ l' /\ rc s' (F x) = 1) /\
    (forall x y, a / 4096 <= x < a / 4096 + k -> a / 4096 <= y < a / 4096 + k -> F x = F y -> x = y) /\
    (newsz <= a + 4096 * k /\ uvm_alloc kend pgdir base stksz oldsz newsz s = Ret (s32 newsz) s' \/
     a + 4096 * k < newsz /\ (length l' <= 1)%nat /\
       (k = 0 -> uvm_alloc kend pgdir base stksz oldsz newsz s = Ret 0 s') /\
       (0 < k -> exists s2, uvm_alloc kend pgdir base stksz oldsz newsz s = Panic s2)).
Proof using kend_ok.
  intros HV Hst Hstk Hbase Hle Htop Hun a. destruct (rounds_enough oldsz newsz ltac:(lia) ltac:(lia)) as (Ha & Ham & Hfuel). fold a in Ha, Ham, Hfuel.
  assert (forall va, a <= va < newsz -> valid_pte (pte_at T s va) = false) as Hun'.
  { intros va Hva. rewrite <- (mmu_pte_vm pgdir T l s va HV). by apply Hun. }
  destruct (uvm_alloc_loop_run pgdir base oldsz newsz (vm_rounds (newsz - oldsz)) T l s a HV Ham ltac:(lia) ltac:(lia) Hun' Hfuel)
    as (k & T' & l' & s' & F & Hk & HV' & HE & HF & Hlast & Hor).
  assert (uvm_alloc kend pgdir base stksz oldsz newsz s = uvm_alloc_loop kend (vm_rounds (newsz - oldsz)) pgdir base oldsz newsz a s) as E.
  { unfold uvm_alloc. rewrite Hst. run_step. unfold USERTOP in *. rewrite u64_id by lia.
    destruct (Z.ltb_spec stksz 0x0001000000000000), (Z.leb_spec base oldsz), (Z.leb_spec oldsz newsz), (Z.ltb_spec newsz (0x0001000000000000 - stksz)); try lia. done. }
  exists k, T', l', s', F. split; [done|]. split; [done|]. split; [done|]. split; [done|].
  split; [intros va Hva; rewrite (mmu_pte_vm pgdir _ _ _ _ HV), (mmu_pte_vm pgdir _ _ _ _ HV'); by apply (fr_pte _ _ _ _ _ _ _ _ _ HF)|].
  split; [apply (fr_page _ _ _ _ _ _ _ _ _ HF)|]. split; [apply (fr_inj _ _ _ _ _ _ _ _ _ HF)|]. rewrite E.
  destruct Hor as [[H1 H2]|(H1 & H2 & H3)]; [by left|right]. split; [done|]. split; [done|]. rewrite H3.
  assert (uvm_dealloc kend pgdir base newsz oldsz = (uvm_dealloc_loop kend (vm_rounds (newsz - oldsz)) pgdir a newsz ;; ret (s32 oldsz))) as Ed.
  { unfold uvm_dealloc. destruct (Z.leb_spec newsz oldsz), (Z.ltb_spec oldsz base); try lia. done. }
  rewrite Ed. split.
  - intros ->. assert (uvm_dealloc_loop kend (vm_rounds (newsz - oldsz)) pgdir a newsz s' = Ret tt s') as El.
    { eapply dealloc_loop_none; [exact HV'|lia|lia| |done]. intros va Hva. rewrite (fr_pte _ _ _ _ _ _ _ _ _ HF) by lia.
      rewrite decide_False by lia. by apply Hun'. }
    unfold bind. by rewrite El.
  - intros Hk0. assert (valid_pte (pte_at T' s' a) = true /\ PTE_ADDR (pte_at T' s' a) = V2P (F (a / 4096)) /\ page kend (F (a / 4096)) /\ rc s' (F (a / 4096)) = 1)
      as (Hv & Hq & Hp & Hrc).
    { destruct (fr_page _ _ _ _ _ _ _ _ _ HF (a / 4096) ltac:(lia)) as (Hp & _ & _ & Hrc). rewrite (fr_pte _ _ _ _ _ _ _ _ _ HF) by lia.
      rewrite decide_True by lia. by destruct (udata_pte _ Hp). }
    destruct (dealloc_loop_panic pgdir T' l' s' newsz (F (a / 4096)) (vm_rounds (newsz - oldsz)) a HV' ltac:(lia) ltac:(lia) 0) as [s2 E2];
      rewrite ?Z.mul_0_r, ?Z.add_0_r; try done; try lia.
    { assert (1 <= (newsz - a + 4095) / 4096) by (apply Z.div_le_lower_bound; lia). lia. }
    exists s2. unfold bind. by rewrite E2.
Qed.

(** Shrinking never works.  [uvm_dealloc] returns the new size and changes
    nothing when no page of the range is mapped, and it panics when the first
    mapped page of the range is held once: it passes the frame's physical
    address to [kfree]. *)
Theorem uvm_dealloc_panics pgdir T l s base oldsz newsz :
  vm pgdir T l s -> 0 <= base <= newsz -> newsz < oldsz -> oldsz <= USERTOP ->
  let a := ROUNDUP newsz PGSIZE in
  ((forall va, a <= va < oldsz -> valid_pte (mmu_pte (mem s) pgdir va) = false) ->
     uvm_dealloc kend pgdir base oldsz newsz s = Ret (s32 newsz) s) /\
  (forall j q, 0 <= j -> a + 4096 * j < oldsz -> (forall i, 0 <= i < j -> valid_pte (mmu_pte (mem s) pgdir (a + 4096 * i)) = false) ->
     mmu_pte (mem s) pgdir (a + 4096 * j) = Z.lor (V2P q) PTE_UDATA -> page kend q -> rc s q = 1 ->
     exists s', uvm_dealloc kend pgdir base oldsz newsz s = Panic s').
Proof using kend_ok.
  intros HV Hb Hlt Htop a. destruct (rounds_enough newsz oldsz ltac:(lia) ltac:(lia)) as (Ha & Ham & Hfuel). fold a in Ha, Ham, Hfuel.
  assert (uvm_dealloc kend pgdir base oldsz newsz = (uvm_dealloc_loop kend (vm_rounds (oldsz - newsz)) pgdir a oldsz ;; ret (s32 newsz))) as Ed.
  { unfold uvm_dealloc. destruct (Z.leb_spec oldsz newsz), (Z.ltb_spec newsz base); try lia. done. }
  rewrite Ed. split.
  - intros Hun. erewrite bind_run; [done|]. eapply dealloc_loop_none; [done|lia|lia| |done].
    intros va Hva. rewrite <- (mmu_pte_vm pgdir _ _ _ _ HV). by apply Hun.
  - intros j q Hj Hlj Hun Hq Hp Hrc. destruct (udata_pte q Hp) as [Hv Hpa].
    assert (j < (oldsz - a + 4095) / 4096) by (apply Z.lt_le_trans with ((4096 * j + 4096) / 4096);
      [replace (4096 * j + 4096) with ((j + 1) * 4096) by lia; rewrite Z.div_mul by lia; lia|apply Z.div_le_mono; lia]).
    rewrite (mmu_pte_vm pgdir _ _ _ _ HV) in Hq.
    destruct (dealloc_loop_panic pgdir T l s oldsz q (vm_rounds (oldsz - newsz)) a HV ltac:(lia) ltac:(lia) j) as [s' E]; rewrite ?Hq; try done; try lia.
    { intros i Hi. rewrite <- (mmu_pte_vm pgdir _ _ _ _ HV). by apply Hun. }
    exists s'. unfold bind. by rewrite E.
Qed.

(** * Bytes *)

Definition byte_at (m : gmap Z Z) (a : Z) : Z := byte_in (word m (a - a mod 8)) (a mod 8).

Lemma byte_in_with w k v j : 0 <= k < 8 -> 0 <= j < 8 -> byte_in (with_byte w k v) j = if decide (j = k) then Z.land v 0xff else byte_in w j.
Proof.
  intros Hk Hj. unfold byte_in, with_byte. apply Z.bits_inj'. intros n Hn. change 0xff with (Z.ones 8).
  assert (Z.testbit (Z.land (Z.shiftr (Z.lor (Z.ldiff w (Z.shiftl (Z.ones 8) (8 * k))) (Z.shiftl (Z.land v (Z.ones 8)) (8 * k))) (8 * j)) (Z.ones 8)) n =
    (Z.testbit w (n + 8 * j) && negb (Z.testbit (Z.ones 8) (n + 8 * j - 8 * k)) ||
     Z.testbit (Z.land v (Z.ones 8)) (n + 8 * j - 8 * k)) && Z.testbit (Z.ones 8) n) as ->.
  { rewrite Z.land_spec, Z.shiftr_spec, Z.lor_spec, Z.ldiff_spec, !Z.shiftl_spec by lia. done. }
  destruct (Z.ltb_spec n 8) as [H8|H8].
  - rewrite !(Z.ones_spec_low 8 n), andb_true_r by lia. case_decide as E.
    + subst. replace (n + 8 * k - 8 * k) with n by lia. rewrite (Z.ones_spec_low 8 n) by lia. cbn. by rewrite andb_false_r.
    + rewrite !Z.land_spec, !(Z.ones_spec_low 8 n), Z.shiftr_spec, !andb_true_r by lia.
      assert (Z.testbit (Z.ones 8) (n + 8 * j - 8 * k) = false) as ->.
      { destruct (Z.lt_ge_cases j k); [apply Z.testbit_neg_r; lia|apply Z.ones_spec_high; lia]. }
      rewrite andb_true_r, andb_false_r, orb_false_r. done.
  - rewrite !(Z.ones_spec_high 8 n), andb_false_r by lia. case_decide; rewrite ?Z.land_spec, ?(Z.ones_spec_high 8 n), ?andb_false_r by lia; done.
Qed.

Lemma store_bytes_run bs : forall a s, 0 <= a ->
  exists m, store_bytes a bs s = Ret tt (set_mem m s) /\
    (forall x, byte_at m x = match (if decide (a <= x) then bs !! Z.to_nat (x - a) else None) with Some v => Z.land v 0xff | None => byte_at (mem s) x end) /\
    (forall b, (forall x, a <= x < a + Z.of_nat (length bs) -> x - x mod 8 <> b) -> word m b = word (mem s) b).
Proof.
  induction bs as [|v bs IH]; intros a s Ha; cbn [store_bytes].
  - exists (mem s). split; [by rewrite set_mem_id|]. split; [|done]. intros x. by case_decide.
  - set (w := word (mem s) (a - a mod 8)).
    destruct (IH (a + 1) (set_mem (<[a - a mod 8 := with_byte w (a mod 8) v]> (mem s)) s) ltac:(lia)) as (m & E & Hb & Hw).
    exists m. split; [exact E|]. cbn [mem set_mem] in *. split.
    + intros x. rewrite Hb. destruct (decide (a + 1 <= x)) as [H1|H1].
      * rewrite decide_True by lia. replace (Z.to_nat (x - a)) with (S (Z.to_nat (x - (a + 1)))) by lia. cbn [lookup list_lookup].
        destruct (bs !! Z.to_nat (x - (a + 1))); [done|]. unfold byte_at. rewrite word_insert. case_decide as E'; [|done].
        rewrite byte_in_with by (apply Z.mod_pos_bound; lia). rewrite decide_False; [by rewrite <- E'|].
        intros E2. pose proof (Z.div_mod a 8). pose proof (Z.div_mod x 8). lia.
      * destruct (decide (a <= x)) as [H2|H2].
        -- assert (x = a) as -> by lia. rewrite Z.sub_diag. cbn. unfold byte_at. rewrite word_insert, decide_True by done.
           rewrite byte_in_with by (apply Z.mod_pos_bound; lia). by rewrite decide_True.
        -- unfold byte_at. rewrite word_insert. case_decide as E'; [|done]. rewrite byte_in_with by (apply Z.mod_pos_bound; lia).
           rewrite decide_False; [by rewrite <- E'|]. intros E2. lia.
    + intros b Hb'. rewrite Hw; [|intros x Hx; apply Hb'; cbn [length]; lia]. rewrite word_insert, decide_False; [done|].
      apply Hb'. cbn [length]. lia.
Qed.

(** * Copying out *)

(** What the process reads at [va]. *)
Definition user_byte (m : gmap Z Z) (pgdir va : Z) : option Z :=
  let e := mmu_pte m pgdir va in
  if valid_pte e then Some (byte_at m (P2V (PTE_ADDR e) + va mod 4096)) else None.

Definition ub (T : gmap (list Z) Z) (s : kstate) (va : Z) : option Z :=
  if valid_pte (pte_at T s va) then Some (byte_at (mem s) (P2V (PTE_ADDR (pte_at T s va)) + va mod 4096)) else None.

(** Every mapped page is a page of its own: neither free, nor a table, nor
    mapped at another address. *)
Record leaves (T : gmap (list Z) Z) (l : list Z) (s : kstate) : Prop := {
  lv_page va : 0 <= va < USERTOP -> valid_pte (pte_at T s va) = true ->
    exists q, PTE_ADDR (pte_at T s va) = V2P q /\ page kend q /\ q ∉ l /\ forall Q t, T !! Q = Some t -> t <> q;
  lv_inj va va' : 0 <= va < USERTOP -> 0 <= va' < USERTOP -> valid_pte (pte_at T s va) = true -> valid_pte (pte_at T s va') = true ->
    PTE_ADDR (pte_at T s va) = PTE_ADDR (pte_at T s va') -> same_page va va'
}.

Lemma user_byte_vm pgdir T l s va : vm pgdir T l s -> user_byte (mem s) pgdir va = ub T s va.
Proof using kend_ok. intros HV. unfold user_byte, ub. by rewrite (mmu_pte_vm pgdir T l s va HV). Qed.

Lemma pte_same_page T s va va' : same_page va va' -> pte_at T s va = pte_at T s va'.
Proof. intros H. destruct (va_page_same _ _ H) as [E1 E2]. unfold pte_at. by rewrite E1, E2. Qed.

(** The leaves survive where the mapped descriptors do. *)
Lemma leaves_ext T l s T' l' s' :
  leaves T l s -> ext T l s T' l' s' -> (forall va, 0 <= va < USERTOP -> pte_at T' s' va = pte_at T s va) -> leaves T' l' s'.
Proof.
  intros [A B] HE Hp. split.
  - intros va Hva. rewrite Hp by done. intros Hv. destruct (A va Hva Hv) as (q & Eq & Hq & Hql & Ht). exists q. split; [done|]. split; [done|].
    split; [intros Hc; apply Hql; by eapply ext_in|]. intros Q t HQ. destruct (ext_table _ _ _ _ _ _ _ _ HE HQ); [by eapply Ht|]. by intros ->.
  - intros va va' Hva Hva'. rewrite !Hp by done. by apply B.
Qed.

Lemma copyout_page_run pgdir T l s va :
  vm pgdir T l s -> leaves T l s -> 0 <= va < USERTOP ->
  exists T' l' s' r, copyout_page pgdir va s = Ret r s' /\ vm pgdir T' l' s' /\ leaves T' l' s' /\ ext T l s T' l' s' /\
    (forall va', 0 <= va' < USERTOP -> valid_pte (pte_at T s va') = true \/ ~ same_page va' va -> pte_at T' s' va' = pte_at T s va') /\
    (r = 0 /\ l' = [] /\ (forall va', pte_at T' s' va' = pte_at T s va') \/
     (r =? 0) = false /\ page kend r /\ valid_pte (pte_at T' s' va) = true /\ PTE_ADDR (pte_at T' s' va) = V2P r /\
       r ∉ l' /\ (forall Q t, T' !! Q = Some t -> t <> r)).
Proof using kend_ok.
  intros HV HL Hva. unfold copyout_page. destruct (walk_alloc pgdir T l s va HV) as (T1 & l1 & s1 & E1 & HV1 & HG & Hn & _).
  assert (forall va', pte_at T1 s1 va' = pte_at T s va') as Hpte by (intros; by eapply grew_pte). pose proof (grew_ext _ _ _ _ _ _ HG) as HE1.
  assert (leaves T1 l1 s1) as HL1 by (eapply leaves_ext; [done|done|]; auto). erewrite bind_run by exact E1.
  destruct (T1 !! va_path va) as [t|] eqn:Et.
  2:{ exists T1, l1, s1, 0. split; [done|]. split; [done|]. split; [done|]. split; [done|]. split; [auto|]. left. auto. }
  rewrite (slot_nonzero _ _ _ _ _ _ _ HV1 Et) by (apply level_idx_range; lia). run_step.
  change (default 0 _) with (word (mem s1) (t + 8 * va_slot va)).
  assert (word (mem s1) (t + 8 * va_slot va) = pte_at T1 s1 va) as -> by (unfold pte_at; by rewrite Et).
  fold (valid_pte (pte_at T1 s1 va)). destruct (valid_pte (pte_at T1 s1 va)) eqn:Ev.
  - destruct (lv_page _ _ _ HL1 va Hva Ev) as (q & Eq & Hq & Hql & Ht). destruct (page_frame q Hq) as (_ & _ & Pv).
    exists T1, l1, s1, q. rewrite Eq, Pv. split; [done|]. split; [done|]. split; [done|]. split; [done|]. split; [auto|]. right.
    split; [|done]. apply Z.eqb_neq. destruct Hq as [_ Hq]. pose proof kend_ok. unfold KERNBASE in *. lia.
  - pose proof (kalloc_vm kend kend_ok l1 s1 (vm_free_list _ _ _ _ HV1)) as Hk. destruct l1 as [|q l1].
    + exists T1, [], s1, 0. split; [by erewrite bind_run by exact Hk|]. split; [done|]. split; [done|]. split; [done|]. split; [auto|]. by left.
    + destruct Hk as (s2 & Ek & HI & Em & Hq & Hql & Hq0 & Hr1 & Hrc). erewrite bind_run by exact Ek. rewrite (proj2 (Z.eqb_neq _ _) Hq0).
      destruct (kalloc_ext pgdir T1 q l1 s1 s2 HV1 HI Em Hrc) as (HV2 & HE2 & Hpte2). run_step.
      destruct (store_leaf pgdir T1 l1 s2 va t (Z.lor (V2P q) PTE_UDATA) HV2 Et) as (HV3 & HE3 & Hva3 & Hpte3). set (s3 := set_mem _ s2) in *.
      destruct (udata_pte q Hq) as [Hu1 Hu2]. exists T1, l1, s3, q. split; [done|]. split; [done|].
      assert (forall Q t, T1 !! Q = Some t -> t <> q) as Hnt.
      { intros Q u HQ ->. destruct (vm_page _ _ _ _ HV1 _ _ HQ) as [_ Hc]. apply Hc. by left. }
      assert (forall va', 0 <= va' < USERTOP -> pte_at T1 s3 va' = if decide (same_page va' va) then Z.lor (V2P q) PTE_UDATA else pte_at T s va') as Hp3.
      { intros va' Hva'. rewrite Hpte3 by done. by rewrite Hpte2, Hpte. }
      split; [|split; [eapply ext_trans; [done|]; by eapply ext_trans|split]].
      * assert (forall x, 0 <= x < USERTOP -> ~ same_page x va -> valid_pte (pte_at T1 s3 x) = true -> PTE_ADDR (pte_at T1 s3 x) <> V2P q) as Hfresh.
        { intros x Hx Hns. rewrite Hp3, decide_False by done. intros Hv E. rewrite <- Hpte in Hv, E.
          destruct (lv_page _ _ _ HL1 x Hx Hv) as (q' & Eq' & Hq' & Hql' & _). rewrite E in Eq'. apply Hql'.
          assert (q = q') as <-; [|by left]. destruct (page_frame q Hq) as (_ & _ & <-), (page_frame q' Hq') as (_ & _ & <-). by rewrite Eq'. }
        split.
        -- intros x Hx Hv. destruct (decide (same_page x va)) as [Hs|Hs].
           ++ exists q. rewrite Hp3, decide_True by done. done.
           ++ rewrite Hp3, decide_False in Hv |- * by done. rewrite <- Hpte in Hv |- *.
              destruct (lv_page _ _ _ HL1 x Hx Hv) as (q' & Eq' & Hq' & Hql' & Ht'). exists q'. split; [done|]. split; [done|]. split; [|done].
              intros Hc. apply Hql'. by right.
        -- intros x y Hx Hy Hvx Hvy E. destruct (decide (same_page x va)) as [Hs|Hs], (decide (same_page y va)) as [Hs'|Hs'].
           ++ unfold same_page in *. lia.
           ++ exfalso. apply (Hfresh y Hy Hs' Hvy). rewrite <- E, Hp3, decide_True by done. done.
           ++ exfalso. apply (Hfresh x Hx Hs Hvx). rewrite E, Hp3, decide_True by done. done.
           ++ rewrite Hp3, decide_False in Hvx by done. rewrite Hp3, decide_False in Hvy by done.
              rewrite (Hp3 x), decide_False, (Hp3 y), decide_False in E by done. apply (lv_inj _ _ _ HL1); rewrite ?Hpte; done.
      * intros va' Hva' Hor. rewrite Hp3 by done. case_decide as Hs; [|done]. destruct Hor as [Hv|]; [|done].
        rewrite <- Hpte, (pte_same_page T1 s1 va' va Hs) in Hv. congruence.
      * right. rewrite Hva3. split; [by apply Z.eqb_neq|]. done.
Qed.

(** The bytes [bs] are at [va]; what was mapped elsewhere is as before. *)
Record copied (T : gmap (list Z) Z) (s : kstate) (T' : gmap (list Z) Z) (s' : kstate) (va : Z) (bs : list Z) : Prop := {
  cp_in i v : bs !! i = Some v -> ub T' s' (va + Z.of_nat i) = Some (Z.land v 0xff);
  cp_out va' b : 0 <= va' < USERTOP -> ~ (va <= va' < va + Z.of_nat (length bs)) -> ub T s va' = Some b -> ub T' s' va' = Some b;
  cp_none va' : 0 <= va' < USERTOP -> ub T s va' = None ->
    va' / 4096 < va / 4096 \/ (va + Z.of_nat (length bs) - 1) / 4096 < va' / 4096 -> ub T' s' va' = None
}.

Lemma copied_trans T s T1 s1 T2 s2 va bs1 bs2 :
  0 <= va -> va + Z.of_nat (length bs1) + Z.of_nat (length bs2) <= USERTOP ->
  copied T s T1 s1 va bs1 -> copied T1 s1 T2 s2 (va + Z.of_nat (length bs1)) bs2 -> copied T s T2 s2 va (bs1 ++ bs2).
Proof.
  intros Hva Htop [A1 A2 A3] [B1 B2 B3]. split.
  - intros i v Hi. destruct (decide (i < length bs1)%nat) as [Hl|Hl].
    + rewrite lookup_app_l in Hi by done. apply B2; [lia|lia|]. by apply A1.
    + rewrite lookup_app_r in Hi by lia. specialize (B1 _ _ Hi). rewrite <- B1. f_equal. lia.
  - intros va' b Hva' Hout Hb. rewrite length_app in Hout. apply B2; [done|lia|]. apply A2; [done|lia|done].
  - intros va' Hva' Hn Hor. rewrite length_app in Hor.
    assert ((va + Z.of_nat (length bs1) - 1) / 4096 <= (va + Z.of_nat (length bs1 + length bs2) - 1) / 4096) by (apply Z.div_le_mono; lia).
    assert (va / 4096 <= (va + Z.of_nat (length bs1)) / 4096) by (apply Z.div_le_mono; lia).
    apply B3; [done| |].
    + apply A3; [done|done|]. lia.
    + replace (va + Z.of_nat (length bs1) + Z.of_nat (length bs2) - 1) with (va + Z.of_nat (length bs1 + length bs2) - 1) by lia. lia.
Qed.

(** The word of a byte of a page is in the page. *)
Lemma word_in_page q x : page kend q -> in_page q (q + x mod 4096 - (q + x mod 4096) mod 8).
Proof.
  intros Hq. pose proof (page_aligned q Hq) as Hal. unfold in_page, PGSIZE in *. pose proof (Z.mod_pos_bound x 4096 ltac:(lia)).
  pose proof (Z.div_mod q 4096 ltac:(lia)). pose proof (Z.div_mod (q + x mod 4096) 8 ltac:(lia)).
  pose proof (Z.mod_pos_bound (q + x mod 4096) 8 ltac:(lia)).
  assert (512 * (q / 4096) <= (q + x mod 4096) / 8) by (apply Z.div_le_lower_bound; lia). lia.
Qed.

(** The bytes of mapped pages do not change when tables are added. *)
Lemma ub_ext pgdir T l s T' l' s' va b :
  vm pgdir T l s -> leaves T l s -> ext T l s T' l' s' -> 0 <= va < USERTOP -> pte_at T' s' va = pte_at T s va -> ub T s va = Some b -> ub T' s' va = Some b.
Proof using kend_ok.
  intros HV HL HE Hva Hp Hb. unfold ub in *. rewrite Hp. destruct (valid_pte (pte_at T s va)) eqn:Ev; [|done]. rewrite <- Hb. f_equal.
  destruct (lv_page _ _ _ HL va Hva Ev) as (q & -> & Hq & Hql & Ht). destruct (page_frame q Hq) as (_ & _ & ->).
  unfold byte_at. f_equal. set (x := q + va mod 4096). assert (in_page q (x - x mod 8)) as Hin by (by apply word_in_page).
  apply HE.
  - intros Q t HQ Hc. apply (Ht Q t HQ). destruct (vm_page _ _ _ _ HV _ _ HQ) as [Hpt _]. by eapply page_disjoint; [by apply page_aligned|by apply page_aligned| |].
  - intros p Hp' Hc. assert (page kend p) as Hpp by (pose proof (inv_pages _ _ _ (vm_free_list _ _ _ _ HV)) as H; rewrite Forall_forall in H; by apply H).
    assert (p = q); [|by subst]. by eapply page_disjoint; [by apply page_aligned|by apply page_aligned| |].
Qed.

(** Writing the bytes of a mapped page. *)
Lemma write_page pgdir T l s va r bs :
  vm pgdir T l s -> leaves T l s -> 0 <= va < USERTOP -> Z.of_nat (length bs) <= 4096 - va mod 4096 ->
  page kend r -> valid_pte (pte_at T s va) = true -> PTE_ADDR (pte_at T s va) = V2P r -> r ∉ l -> (forall Q t, T !! Q = Some t -> t <> r) ->
  exists s', store_bytes (r + va mod 4096) bs s = Ret tt s' /\ vm pgdir T l s' /\ leaves T l s' /\ copied T s T s' va bs.
Proof using kend_ok.
  intros HV HL Hva Hlen Hr Hv Hpa Hrl Hrt. pose proof (Z.mod_pos_bound va 4096 ltac:(lia)) as Hm.
  assert (0 <= r) as Hr0 by (destruct Hr as [_ Hr]; pose proof kend_ok; unfold KERNBASE in *; lia).
  destruct (store_bytes_run bs (r + va mod 4096) s ltac:(lia)) as (m & E & Hb & Hw). exists (set_mem m s). split; [done|].
  pose proof (page_aligned r Hr) as Hal. unfold PGSIZE in Hal. pose proof (Z.div_mod r 4096 ltac:(lia)) as Dr.
  assert (forall b, ~ in_page r b -> word m b = word (mem s) b) as Hw'.
  { intros b Hnb. apply Hw. intros x Hx <-. apply Hnb. unfold in_page, PGSIZE. pose proof (Z.div_mod x 8 ltac:(lia)).
    pose proof (Z.mod_pos_bound x 8 ltac:(lia)). assert (512 * (r / 4096) <= x / 8) by (apply Z.div_le_lower_bound; lia). lia. }
  assert (forall q, page kend q -> q <> r -> forall b, in_page q b -> word m b = word (mem s) b) as Hkeep.
  { intros q Hq Hne b Hqb. apply Hw'. intros Hc. apply Hne. by eapply page_disjoint; [by apply page_aligned|by apply page_aligned| |]. }
  assert (forall x, pte_at T (set_mem m s) x = pte_at T s x) as Hpte.
  { intros x. unfold pte_at. destruct (T !! va_path x) as [t|] eqn:Et; [|done]. destruct (vm_page _ _ _ _ HV _ _ Et) as [Hpt _].
    apply (Hkeep t Hpt); [by eapply Hrt|]. apply in_page_slot, level_idx_range. lia. }
  split; [|split].
  - apply (vm_frame _ _ l s); [done| |intros P p HP; by eapply vm_page|].
    + apply inv_mem; [by eapply vm_free_list|]. intros q Hq.
      assert (page kend q) as Hpq by (pose proof (inv_pages _ _ _ (vm_free_list _ _ _ _ HV)) as H; rewrite Forall_forall in H; by apply H).
      apply (Hkeep q Hpq); [by intros ->|]. unfold in_page, PGSIZE. lia.
    + intros P p a HP _ Ha. destruct (vm_page _ _ _ _ HV _ _ HP) as [Hpp _]. apply (Hkeep p Hpp); [by eapply Hrt|done].
  - split; [intros x Hx; rewrite Hpte; by apply HL|intros x y Hx Hy; rewrite !Hpte; by apply HL].
  - assert (forall x, 0 <= x < USERTOP -> same_page x va -> x = va - va mod 4096 + x mod 4096) as Hin.
    { intros x Hx Hs. unfold same_page in Hs. pose proof (Z.div_mod x 4096 ltac:(lia)). pose proof (Z.div_mod va 4096 ltac:(lia)). lia. }
    destruct (page_frame r Hr) as (_ & _ & Pv). split.
    + intros i v Hi. apply lookup_lt_Some in Hi as Hlt. unfold ub. rewrite Hpte.
      assert ((va + Z.of_nat i) / 4096 = va / 4096 /\ (va + Z.of_nat i) mod 4096 = va mod 4096 + Z.of_nat i) as [Ed Em].
      { pose proof (Z.div_mod va 4096 ltac:(lia)). split; symmetry; [apply (Z.div_unique _ _ _ (va mod 4096 + Z.of_nat i))|apply (Z.mod_unique _ _ (va / 4096))]; lia. }
      rewrite (pte_same_page T s _ va Ed), Hv, Hpa, Pv, Em. f_equal. cbn [mem set_mem]. rewrite Hb, decide_True by lia.
      replace (Z.to_nat (r + (va mod 4096 + Z.of_nat i) - (r + va mod 4096))) with i by lia. by rewrite Hi.
    + intros x b Hx Hout Hxb. unfold ub in *. rewrite Hpte. destruct (valid_pte (pte_at T s x)) eqn:Evx; [|done]. rewrite <- Hxb. f_equal.
      cbn [mem set_mem]. rewrite Hb. case_decide as Hge; [|done].
      destruct (bs !! Z.to_nat _) as [v|] eqn:Hl; [exfalso|done]. apply lookup_lt_Some in Hl.
      destruct (lv_page _ _ _ HL x Hx Evx) as (q & Eq & Hq & _). rewrite Eq in Hge, Hl. destruct (page_frame q Hq) as (_ & _ & Pq). rewrite Pq in Hge, Hl.
      pose proof (Z.mod_pos_bound x 4096 ltac:(lia)). assert (q = r) as ->.
      { apply (page_disjoint q r (q + x mod 4096)); [by apply page_aligned|by apply page_aligned| |]; unfold in_page, PGSIZE; lia. }
      assert (same_page x va) as Hs by (apply (lv_inj _ _ _ HL); try done; by rewrite Eq, Hpa).
      pose proof (Hin x Hx Hs). lia.
    + intros x Hx Hn _. unfold ub in *. rewrite Hpte. by destruct (valid_pte (pte_at T s x)).
Qed.

(** The bytes [copyout] copies. *)
Definition src_bytes (src : option (list Z)) (n : nat) : list Z :=
  match src with Some b => take n b | None => replicate n 0 end.

Lemma src_bytes_split src k n :
  (k <= n)%nat -> src_bytes src n = src_bytes src k ++ src_bytes (drop k <$> src) (n - k).
Proof.
  intros Hk. destruct src as [b|]; cbn.
  - rewrite <- (take_drop k (take n b)), take_take, Nat.min_l by lia. f_equal. rewrite skipn_firstn_comm. done.
  - rewrite <- replicate_add. f_equal. lia.
Qed.

Lemma length_src_bytes src n : (forall b, src = Some b -> n <= length b)%nat -> length (src_bytes src n) = n.
Proof. intros H. destruct src as [b|]; cbn; [rewrite length_take; specialize (H b eq_refl); lia|apply length_replicate]. Qed.

(** One round of the loop. *)
Lemma copyout_round pgdir T l s va src n :
  vm pgdir T l s -> leaves T l s -> 0 <= va < USERTOP -> 0 < Z.of_nat n <= 4096 - va mod 4096 -> (forall b, src = Some b -> n <= length b)%nat ->
  exists T' l' s1 r, copyout_page pgdir va s = Ret r s1 /\
    (r = 0 /\ vm pgdir T' l' s1 /\ leaves T' l' s1 /\ copied T s T' s1 va [] /\ l' = [] \/
     (r =? 0) = false /\ exists s', store_bytes (r + va mod 4096) (src_bytes src n) s1 = Ret tt s' /\
        vm pgdir T' l' s' /\ leaves T' l' s' /\ copied T s T' s' va (src_bytes src n)).
Proof using kend_ok.
  intros HV HL Hva Hn Hsrc. destruct (copyout_page_run pgdir T l s va HV HL Hva) as (T' & l' & s1 & r & E & HV' & HL' & HE & Hpte & Hor).
  exists T', l', s1, r. split; [done|].
  assert (forall x b, 0 <= x < USERTOP -> ub T s x = Some b -> ub T' s1 x = Some b) as Hold.
  { intros x b Hx Hb. apply (ub_ext pgdir T l s T' l' s1); try done. apply Hpte; [done|]. left. unfold ub in Hb. by destruct (valid_pte (pte_at T s x)). }
  assert (forall x, 0 <= x < USERTOP -> ~ same_page x va -> ub T s x = None -> ub T' s1 x = None) as Hnone.
  { intros x Hx Hns Hb. unfold ub in *. rewrite Hpte by auto. by destruct (valid_pte (pte_at T s x)). }
  destruct Hor as [(-> & -> & Hall)|(Hr0 & Hr & Hv & Hpa & Hrl & Hrt)].
  - left. split; [done|]. split; [done|]. split; [done|]. split; [|done]. split; [done|eauto|]. intros x Hx Hb Hor.
    unfold ub in *. rewrite Hall. by destruct (valid_pte (pte_at T s x)).
  - right. split; [done|].
    destruct (write_page pgdir T' l' s1 va r (src_bytes src n) HV' HL' Hva) as (s' & Es & HV2 & HL2 & HC); try done.
    { rewrite length_src_bytes by done. lia. }
    exists s'. split; [done|]. split; [done|]. split; [done|]. destruct HC as [C1 C2 C3].
    split; [done|eauto|]. intros x Hx Hb Hor. apply C3; [done| |done]. apply Hnone; [done| |done].
    rewrite (length_src_bytes src n Hsrc) in Hor. unfold same_page.
    assert (va / 4096 <= (va + Z.of_nat n - 1) / 4096) by (apply Z.div_le_mono; lia). lia.
Qed.

Lemma copyout_loop_run pgdir fuel : forall T l s va src len,
  vm pgdir T l s -> leaves T l s -> 0 <= va -> va + Z.of_nat len <= USERTOP -> (forall b, src = Some b -> len <= length b)%nat ->
  (0 < Z.of_nat len -> (va mod 4096 + Z.of_nat len + 4095) / 4096 <= Z.of_nat fuel) ->
  exists T' l' s' r k, copyout_loop fuel pgdir va src (Z.of_nat len) s = Ret r s' /\ vm pgdir T' l' s' /\ leaves T' l' s' /\
    copied T s T' s' va (src_bytes src k) /\ (r = 0 /\ k = len \/ r = -1 /\ (k < len)%nat /\ l' = []).
Proof using kend_ok.
  induction fuel as [|fuel IH]; intros T l s va src len HV HL Hva Htop Hsrc Hfuel; cbn [copyout_loop];
    pose proof (Z.mod_pos_bound va 4096 ltac:(lia)) as Hm; pose proof (Z.div_mod va 4096 ltac:(lia)) as Dv.
  all: destruct (Z.eqb_spec (Z.of_nat len) 0) as [E0|E0].
  1,3: assert (len = 0%nat) as -> by lia; exists T, l, s, 0, 0%nat; split; [done|]; split; [done|]; split; [done|]; split; [|by left];
       destruct src; (split; [done|done|]); done.
  { exfalso. assert (1 <= (va mod 4096 + Z.of_nat len + 4095) / 4096) by (apply Z.div_le_lower_bound; lia). lia. }
  cbn zeta. replace (va - ROUNDDOWN va PGSIZE) with (va mod 4096) by (unfold ROUNDDOWN, PGSIZE; lia).
  set (n := Z.to_nat (Z.min (PGSIZE - va mod 4096) (Z.of_nat len))). unfold PGSIZE in n.
  assert (0 < Z.of_nat n <= 4096 - va mod 4096 /\ (n <= len)%nat) as [Hn Hnl] by lia.
  assert (forall b, src = Some b -> (n <= length b)%nat) as Hsrcn by (intros b Eb; specialize (Hsrc b Eb); lia).
  destruct (copyout_round pgdir T l s va src n HV HL ltac:(lia) Hn Hsrcn) as (T1 & l1 & s1 & r & E1 & Hor). erewrite bind_run by exact E1.
  destruct Hor as [(-> & HV1 & HL1 & HC & ->)|(Hr & s2 & E2 & HV2 & HL2 & HC)].
  { exists T1, [], s1, (-1), 0%nat. split; [done|]. split; [done|]. split; [done|]. split; [by destruct src|]. right. split; [done|]. split; [lia|done]. }
  rewrite Hr. replace (Z.min (PGSIZE - va mod 4096) (Z.of_nat len)) with (Z.of_nat n) by (unfold PGSIZE; lia). rewrite ?Nat2Z.id.
  assert (match src with Some b => store_bytes (r + va mod 4096) (take n b) | None => store_bytes (r + va mod 4096) (replicate n 0) end
          = store_bytes (r + va mod 4096) (src_bytes src n)) as -> by (by destruct src).
  erewrite bind_run by exact E2. unfold USERTOP in Htop. rewrite u64_id by lia.
  replace (Z.of_nat len - Z.of_nat n) with (Z.of_nat (len - n)) by lia.
  destruct (IH T1 l1 s2 (va + Z.of_nat n) (drop n <$> src) (len - n)%nat HV2 HL2) as (T3 & l3 & s3 & r3 & k & E3 & HV3 & HL3 & HC3 & Hor);
    [lia|unfold USERTOP; lia| | |].
  { intros b Eb. destruct src as [b0|]; [|done]. injection Eb as <-. rewrite length_drop. specialize (Hsrc b0 eq_refl). lia. }
  { intros Hpos. assert (Z.of_nat n = 4096 - va mod 4096) by lia. replace (va + Z.of_nat n) with ((va / 4096 + 1) * 4096) by lia. rewrite Z.mod_mul by lia.
    replace (0 + Z.of_nat (len - n) + 4095) with (va mod 4096 + Z.of_nat len + 4095 + -1 * 4096) by lia. rewrite Z.div_add by lia. lia. }
  exists T3, l3, s3, r3, (n + k)%nat. split; [done|]. split; [done|]. split; [done|].
  assert (k <= len - n)%nat as Hk by (destruct Hor as [[_ ->]|(_ & ? & _)]; lia). split.
  - rewrite (src_bytes_split src n (n + k)) by lia. replace (n + k - n)%nat with k by lia.
    eapply copied_trans; [done| |exact HC|by rewrite (length_src_bytes src n Hsrcn)]. rewrite length_src_bytes by done. rewrite length_src_bytes; [unfold USERTOP; lia|].
    intros b Eb. destruct src as [b0|]; [|done]. injection Eb as <-. rewrite length_drop. specialize (Hsrc b0 eq_refl). lia.
  - destruct Hor as [[-> ->]|(-> & Hlt & ->)]; [left; split; [done|lia]|right; split; [done|]; split; [lia|done]].
Qed.

(** C14: [copyout] into an address space.  When it returns 0 the process reads
    the bytes copied at [va] (zeros for a null source) and everything that was
    mapped outside the range reads as before; when it returns -1 the memory is
    used up and a prefix is copied.  It always returns. *)
Theorem copyout_correct pgdir T l s va src len :
  vm pgdir T l s -> leaves T l s -> 0 <= va -> va + Z.of_nat len <= USERTOP -> (forall b, src = Some b -> len <= length b)%nat ->
  exists T' l' s' r k, copyout pgdir va src (Z.of_nat len) s = Ret r s' /\ vm pgdir T' l' s' /\ leaves T' l' s' /\
    (r = 0 /\ k = len \/ r = -1 /\ (k < len)%nat /\ l' = []) /\
    (forall i v, src_bytes src k !! i = Some v -> user_byte (mem s') pgdir (va + Z.of_nat i) = Some (Z.land v 0xff)) /\
    (forall x b, 0 <= x < USERTOP -> ~ (va <= x < va + Z.of_nat k) -> user_byte (mem s) pgdir x = Some b -> user_byte (mem s') pgdir x = Some b) /\
    (forall x, 0 <= x < USERTOP -> x / 4096 < va / 4096 \/ (va + Z.of_nat k - 1) / 4096 < x / 4096 ->
       user_byte (mem s) pgdir x = None -> user_byte (mem s') pgdir x = None).
Proof using kend_ok.
  intros HV HL Hva Htop Hsrc. unfold copyout. pose proof (Z.mod_pos_bound va 4096 ltac:(lia)).
  assert (0 <= Z.of_nat len / 4096) by (apply Z.div_pos; lia).
  destruct (copyout_loop_run pgdir (vm_rounds (Z.of_nat len)) T l s va src len HV HL Hva Htop Hsrc) as (T' & l' & s' & r & k & E & HV' & HL' & [C1 C2 C3] & Hor).
  { intros _. unfold vm_rounds, PGSIZE. rewrite Z2Nat.id by lia. apply Z.lt_succ_r, Z.div_lt_upper_bound; [lia|].
    pose proof (Z.div_mod (Z.of_nat len) 4096 ltac:(lia)). pose proof (Z.mod_pos_bound (Z.of_nat len) 4096 ltac:(lia)). lia. }
  assert (length (src_bytes src k) = k) as Elen by (apply length_src_bytes; intros b Eb; specialize (Hsrc b Eb); lia). rewrite Elen in *.
  exists T', l', s', r, k. unfold USERTOP in Htop. rewrite u64_id by lia. destruct (Z.ltb_spec USERTOP (va + Z.of_nat len)); [unfold USERTOP in *; lia|].
  split; [done|]. split; [done|]. split; [done|]. split; [done|].
  split; [|split]; intros; rewrite ?(user_byte_vm pgdir _ _ _ _ HV) in *; rewrite ?(user_byte_vm pgdir _ _ _ _ HV'); eauto.
Qed.

(** * Unmapping *)

Lemma get_ref_run q s : ref_lock s = false -> page kend q -> get_kmem_ref (V2P q) s = Ret (rc s q) s.
Proof using kend_ok.
  intros Hrl Hq. destruct (page_v2p kend kend_ok q Hq) as [_ Hfr]. unfold get_kmem_ref, frame.
  erewrite bind_run by (unfold acquire_ref; by rewrite Hrl).
  destruct (Z.leb_spec 0 (Z.shiftr (V2P q) PGSHIFT)); [|lia]. destruct (Z.ltb_spec (Z.shiftr (V2P q) PGSHIFT) NFRAMES); [|lia].
  unfold bind, ret, gets, release_ref. cbn. f_equal. unfold set_rlock. cbn. destruct s; cbn in *. by subst.
Qed.

(** Dropping one reference to a page; it is freed with the last one. *)
Lemma drop_ref l s q :
  inv kend l s -> page kend q -> q ∉ l -> 1 <= rc s q < 2 ^ 31 ->
  exists l' s', (dec_kmem_ref (V2P q) ;; let* r := get_kmem_ref (V2P q) in when (r =? 0) (kfree kend (P2V (V2P q)))) s = Ret tt s' /\
    inv kend l' s' /\ l' = (if decide (rc s q = 1) then q :: l else l) /\ rc s' q = rc s q - 1 /\
    (forall p, page kend p -> p <> q -> rc s' p = rc s p) /\ (forall a, a <> q -> word (mem s') a = word (mem s) a) /\
    (rc s q <> 1 -> mem s' = mem s).
Proof using kend_ok.
  intros HI Hq Hql Hrc. destruct (page_v2p kend kend_ok q Hq) as [_ Hfr]. destruct (inv_locks _ _ _ HI) as [Hkl Hrl].
  set (s1 := set_ref (<[Z.shiftr (V2P q) PGSHIFT := s32 (rc s q - 1)]> (ref s)) s).
  assert (dec_kmem_ref (V2P q) s = Ret tt s1) as E1 by (unfold dec_kmem_ref; by rewrite update_ref_run).
  assert (rc s1 q = rc s q - 1) as Hs1 by (unfold rc at 1; unfold s1; rewrite ref_of_insert, decide_True by done; apply s32_id; lia).
  assert (forall p, page kend p -> p <> q -> rc s1 p = rc s p) as Hother.
  { intros p Hp Hne. unfold rc at 1, s1. rewrite ref_of_insert, decide_False; [done|]. apply (frames_differ kend kend_ok); [done|done|]. by intros <-. }
  assert (inv kend l s1) as HI1 by (by apply inv_other_refs).
  assert (get_kmem_ref (V2P q) s1 = Ret (rc s q - 1) s1) as E2 by (rewrite <- Hs1; by apply get_ref_run).
  erewrite bind_run by exact E1. erewrite bind_run by exact E2. destruct (page_frame q Hq) as (_ & _ & ->).
  destruct (decide (rc s q = 1)) as [H1|H1].
  - rewrite H1. cbn [Z.sub Z.add Z.opp Z.pos_sub Z.eqb when].
    destruct (kfree_run kend kend_ok s1 l q HI1 Hq Hql ltac:(pose proof (inv_len kend kend_ok _ _ HI1); lia)) as (s' & E & HI' & _ & Hm & Hr).
    exists (q :: l), s'. split; [done|]. split; [done|]. split; [done|]. split.
    { pose proof (inv_refs _ _ _ HI') as H. apply Forall_cons in H as [H _]. exact H. }
    split; [intros p Hp Hne; rewrite <- (Hother p Hp Hne); apply Hr, (frames_differ kend kend_ok); done|].
    split; [|done]. intros a Ha. unfold word. by rewrite Hm.
  - destruct (Z.eqb_spec (rc s q - 1) 0); [lia|]. exists l, s1. done.
Qed.

(** One page of the loop. *)
Lemma unmap_one pgdir T l s a t q :
  vm pgdir T l s -> leaves T l s -> 0 <= a < USERTOP -> T !! va_path a = Some t -> valid_pte (pte_at T s a) = true ->
  PTE_ADDR (pte_at T s a) = V2P q -> page kend q -> 1 <= rc s q < 2 ^ 31 ->
  exists l' s', (dec_kmem_ref (V2P q) ;; let* r := get_kmem_ref (V2P q) in when (r =? 0) (kfree kend (P2V (V2P q))) ;; store (t + 8 * va_slot a) 0) s = Ret tt s' /\
    vm pgdir T l' s' /\ leaves T l' s' /\ l' = (if decide (rc s q = 1) then q :: l else l) /\
    (forall x, 0 <= x < USERTOP -> pte_at T s' x = if decide (same_page x a) then 0 else pte_at T s x) /\
    (forall p, page kend p -> p <> q -> rc s' p = rc s p) /\
    (forall x b, 0 <= x < USERTOP -> ~ same_page x a -> ub T s x = Some b -> ub T s' x = Some b) /\
    (forall x, (forall Q p, T !! Q = Some p -> ~ in_page p x) -> (forall p, p ∈ l' -> ~ in_page p x) -> word (mem s') x = word (mem s) x).
Proof using kend_ok.
  intros HV HL Ha Ht Hv Hpa Hq Hrc. destruct (lv_page _ _ _ HL a Ha Hv) as (q' & Eq' & Hq' & Hql & Hqt). rewrite Hpa in Eq'.
  assert (q' = q) as -> by (destruct (page_frame q Hq) as (_ & _ & <-), (page_frame q' Hq') as (_ & _ & <-); by rewrite Eq').
  destruct (drop_ref l s q (vm_free_list _ _ _ _ HV) Hq Hql Hrc) as (l' & s1 & E1 & HI1 & El & Hrq & Hro & Hm & Hm1).
  assert (forall p b, page kend p -> p <> q -> in_page p b -> word (mem s1) b = word (mem s) b) as Hkeep.
  { intros p b Hp Hne Hb. apply Hm. intros ->. apply Hne. eapply page_disjoint; [by apply page_aligned|by apply page_aligned|done|]. unfold in_page, PGSIZE. lia. }
  assert (vm pgdir T l' s1) as HV1.
  { apply (vm_frame _ _ l s); [done|done| |].
    - intros P p HP. destruct (vm_page _ _ _ _ HV _ _ HP) as [_ Hn]. rewrite El. case_decide; [|done]. apply not_elem_of_cons. split; [by eapply Hqt|done].
    - intros P p b HP _ Hb. destruct (vm_page _ _ _ _ HV _ _ HP) as [Hp _]. apply (Hkeep p); [done|by eapply Hqt|done]. }
  assert (forall x, pte_at T s1 x = pte_at T s x) as Hpte.
  { intros x. unfold pte_at. destruct (T !! va_path x) as [u|] eqn:Eu; [|done]. destruct (vm_page _ _ _ _ HV _ _ Eu) as [Hp _].
    apply (Hkeep u); [done|by eapply Hqt|]. apply in_page_slot, level_idx_range. lia. }
  destruct (store_leaf pgdir T l' s1 a t 0 HV1 Ht) as (HV2 & HE2 & _ & Hp2). set (s2 := set_mem _ s1) in *.
  assert (forall x, 0 <= x < USERTOP -> pte_at T s2 x = if decide (same_page x a) then 0 else pte_at T s x) as Hpte2
    by (intros x Hx; by rewrite Hp2, Hpte).
  assert (forall x, 0 <= x < USERTOP -> ~ same_page x a -> valid_pte (pte_at T s x) = true ->
    exists p, PTE_ADDR (pte_at T s x) = V2P p /\ page kend p /\ p ∉ l' /\ p <> q /\ forall Q u, T !! Q = Some u -> u <> p) as Hlv.
  { intros x Hx Hns Hvx. destruct (lv_page _ _ _ HL x Hx Hvx) as (p & Ep & Hp & Hpl & Hpt). exists p.
    assert (p <> q) by (intros ->; apply Hns, (lv_inj _ _ _ HL); try done; by rewrite Ep, Hpa).
    split; [done|]. split; [done|]. split; [|done]. rewrite El. case_decide; [|done]. by apply not_elem_of_cons. }
  exists l', s2. split.
  { revert E1. unfold bind. destruct (dec_kmem_ref (V2P q) s); try done. destruct (get_kmem_ref (V2P q) s0) as [r|r|r|]; try done.
    destruct (when (r =? 0) _ s3) as [[]|r'|r'|]; try done. intros [= ->]. done. }
  split; [done|]. split; [|split; [done|split; [done|split; [done|split]]]].
  - split.
    + intros x Hx Hvx. rewrite Hpte2 in Hvx |- * by done. case_decide as Hs; [done|]. destruct (Hlv x Hx Hs Hvx) as (p & ? & ? & ? & _ & ?). by exists p.
    + intros x y Hx Hy. rewrite (Hpte2 x Hx), (Hpte2 y Hy). destruct (decide (same_page x a)), (decide (same_page y a)); try (intros; discriminate). by apply (lv_inj _ _ _ HL).
  - intros x b Hx Hns Hb. unfold ub in *. rewrite Hpte2, decide_False by done. destruct (valid_pte (pte_at T s x)) eqn:Evx; [|done].
    rewrite <- Hb. f_equal. destruct (Hlv x Hx Hns Evx) as (p & -> & Hp & _ & Hpq & Hpt). destruct (page_frame p Hp) as (_ & _ & ->).
    unfold byte_at. f_equal. set (y := p + x mod 4096). assert (in_page p (y - y mod 8)) as Hin by (by apply word_in_page).
    rewrite <- (Hkeep p) by done. apply word_insert_ne.
    destruct (vm_page _ _ _ _ HV _ _ Ht) as [Hpt' _]. intros E. apply (Hpt _ _ Ht). eapply page_disjoint; [by apply page_aligned|by apply page_aligned| |exact Hin].
    rewrite <- E. apply in_page_slot, level_idx_range. lia.
  - intros x HT Hl'. rewrite (ex_mem _ _ _ _ _ _ HE2 x HT Hl'). rewrite El in Hl'. case_decide; [|by rewrite Hm1].
    apply Hm. intros ->. apply (Hl' q); [by left|]. unfold in_page, PGSIZE. lia.
Qed.

(** Page [a] is mapped and its frame is counted. *)
Definition unmappable (T : gmap (list Z) Z) (s : kstate) (a : Z) : Prop :=
  valid_pte (pte_at T s a) = true /\ Z.land (PTE_FLAGS (pte_at T s a)) 3 = 3 /\
  forall q, PTE_ADDR (pte_at T s a) = V2P q -> page kend q -> 1 <= rc s q < 2 ^ 31.

Lemma unmap_loop_run pgdir T n : forall fuel l s a,
  vm pgdir T l s -> leaves T l s -> a mod 4096 = 0 -> 0 <= a -> a + 4096 * Z.of_nat n <= USERTOP -> (n <= fuel)%nat ->
  (forall j, 0 <= j < Z.of_nat n -> unmappable T s (a + 4096 * j)) ->
  exists l' s', uvm_unmap_loop kend fuel pgdir a (a + 4096 * Z.of_nat n) s = Ret tt s' /\ vm pgdir T l' s' /\ leaves T l' s' /\
    (forall x, 0 <= x < USERTOP -> pte_at T s' x = if decide (a <= x < a + 4096 * Z.of_nat n) then 0 else pte_at T s x) /\
    (forall q, page kend q -> q ∈ l' <-> q ∈ l \/ exists j, 0 <= j < Z.of_nat n /\ PTE_ADDR (pte_at T s (a + 4096 * j)) = V2P q /\ rc s q = 1) /\
    (forall x b, 0 <= x < USERTOP -> ~ (a <= x < a + 4096 * Z.of_nat n) -> ub T s x = Some b -> ub T s' x = Some b) /\
    (forall x, (forall Q p, T !! Q = Some p -> ~ in_page p x) -> (forall p, p ∈ l' -> ~ in_page p x) -> word (mem s') x = word (mem s) x) /\
    (forall p, page kend p -> (forall j, 0 <= j < Z.of_nat n -> PTE_ADDR (pte_at T s (a + 4096 * j)) <> V2P p) -> rc s' p = rc s p).
Proof using kend_ok.
  induction n as [|n IH]; intros fuel l s a HV HL Ham Ha Htop Hfuel Hun.
  - exists l, s. rewrite Z.mul_0_r, Z.add_0_r. split; [destruct fuel; cbn [uvm_unmap_loop]; by rewrite Z.ltb_irrefl|]. split; [done|]. split; [done|].
    split; [intros; by rewrite decide_False by lia|]. split; [|auto]. intros q _. split; [auto|]. intros [|(j & Hj & _)]; [done|lia].
  - destruct fuel as [|fuel]; [lia|]. cbn [uvm_unmap_loop]. destruct (Z.ltb_spec a (a + 4096 * Z.of_nat (S n))); [|lia].
    destruct (Hun 0 ltac:(lia)) as (Hv & Hfl & Hrc). rewrite Z.mul_0_r, Z.add_0_r in Hv, Hfl, Hrc.
    destruct (lv_page _ _ _ HL a ltac:(lia) Hv) as (q & Eq & Hq & Hql & Hqt). specialize (Hrc q Eq Hq).
    assert (exists t, T !! va_path a = Some t) as [t Et] by (unfold pte_at in Hv; destruct (T !! va_path a); [by eexists|done]).
    erewrite bind_run by (by eapply walk_lookup). rewrite Et. rewrite (slot_nonzero _ _ _ _ _ _ _ HV Et) by (apply level_idx_range; lia).
    run_step. change (default 0 _) with (word (mem s) (t + 8 * va_slot a)).
    assert (word (mem s) (t + 8 * va_slot a) = pte_at T s a) as -> by (unfold pte_at; by rewrite Et).
    assert ((Z.land (pte_at T s a) PTE_VALID =? 0) = false) as -> by (unfold valid_pte, truthy in Hv; by apply negb_true_iff).
    change (Z.lor PTE_PAGE PTE_VALID) with 3. rewrite Hfl, Eq. cbn [Z.eqb PTE_VALID Pos.eqb].
    destruct (unmap_one pgdir T l s a t q HV HL ltac:(lia) Et Hv Eq Hq Hrc) as (l1 & s1 & E1 & HV1 & HL1 & El1 & Hp1 & Hr1 & Hu1 & Hm1).
    pose proof (Z.div_mod a 4096 ltac:(lia)) as Da.
    assert (forall x, 0 <= x -> same_page x a <-> a <= x < a + 4096) as Hsp.
    { intros x Hx. unfold same_page. pose proof (Z.div_mod x 4096 ltac:(lia)). pose proof (Z.mod_pos_bound x 4096 ltac:(lia)). lia. }
    assert (forall j, 0 <= j < Z.of_nat n -> pte_at T s1 (a + 4096 + 4096 * j) = pte_at T s (a + 4096 * (j + 1))) as Hnext.
    { intros j Hj. rewrite Hp1 by lia. rewrite decide_False by (rewrite Hsp by lia; lia). f_equal. lia. }
    assert (forall j p, 0 <= j < Z.of_nat n -> PTE_ADDR (pte_at T s (a + 4096 * (j + 1))) = V2P p -> page kend p -> p <> q) as Hne.
    { intros j p Hj Ep Hp ->. destruct (Hun (j + 1) ltac:(lia)) as (Hvj & _). assert (same_page (a + 4096 * (j + 1)) a) as Hs.
      { apply (lv_inj _ _ _ HL); try done; [lia|lia|]. by rewrite Ep, Eq. }
      apply Hsp in Hs; lia. }
    destruct (IH fuel l1 s1 (a + 4096) HV1 HL1) as (l2 & s2 & E2 & HV2 & HL2 & Hp2 & Hl2 & Hu2 & Hm2 & Hc2); try lia.
    { rewrite Zplus_mod, Ham. done. }
    { intros j Hj. destruct (Hun (j + 1) ltac:(lia)) as (Hvj & Hfj & Hrj). unfold unmappable. rewrite Hnext by done. split; [done|]. split; [done|].
      intros p Ep Hp. rewrite Hr1; [by apply Hrj|done|by eapply Hne]. }
    exists l2, s2. replace (a + 4096 * Z.of_nat (S n)) with (a + 4096 + 4096 * Z.of_nat n) in * by lia.
    split; [|split; [done|split; [done|split; [|split; [|split; [|split]]]]]].
    + unfold PGSIZE, USERTOP in *. rewrite u64_id by lia. rewrite <- E2. revert E1. unfold bind.
      destruct (dec_kmem_ref (V2P q) s) as [? s0|?|?|]; try done. destruct (get_kmem_ref (V2P q) s0) as [r s3|?|?|]; try done.
      destruct (when (r =? 0) _ s3) as [[] s4|?|?|]; try done. change (PTE_ADDR 0) with 0. by intros ->.
    + intros x Hx. rewrite Hp2, Hp1 by done. destruct (decide (a + 4096 <= x < a + 4096 + 4096 * Z.of_nat n)); [by rewrite decide_True by lia|].
      destruct (decide (same_page x a)) as [Hs|Hs]; rewrite (Hsp x) in Hs by lia; [by rewrite decide_True by lia|by rewrite decide_False by lia].
    + intros p Hp. rewrite Hl2 by done. rewrite El1. split.
      * intros [Hin|(j & Hj & Ej & Hrj)].
        -- destruct (decide (rc s q = 1)); [|by left]. apply elem_of_cons in Hin as [->|]; [|by left]. right. exists 0. by rewrite Z.mul_0_r, Z.add_0_r.
        -- right. rewrite Hnext in Ej by done. exists (j + 1). split; [lia|]. split; [done|]. rewrite <- (Hr1 p); [done|done|by eapply Hne].
      * intros [Hin|(j & Hj & Ej & Hrj)]; [left; destruct (decide (rc s q = 1)); [by right|done]|].
        destruct (decide (j = 0)) as [->|].
        -- rewrite Z.mul_0_r, Z.add_0_r, Eq in Ej. assert (p = q) as ->.
           { destruct (page_frame q Hq) as (_ & _ & <-), (page_frame p Hp) as (_ & _ & <-). by rewrite Ej. }
           left. rewrite decide_True by done. by left.
        -- right. exists (j - 1). split; [lia|]. replace j with (j - 1 + 1) in Ej by lia. rewrite Hnext by lia. split; [done|].
           rewrite (Hr1 p); [done|done|]. eapply (Hne (j - 1)); [lia|done|done].
    + intros x b Hx Hout Hb. apply Hu2; [done|lia|]. apply Hu1; [done| |done]. rewrite Hsp by lia. lia.
    + intros x HT Hx. rewrite Hm2 by done. apply Hm1; [done|]. intros p Hpl1. apply Hx.
      assert (page kend p) by (pose proof (inv_pages _ _ _ (vm_free_list _ _ _ _ HV1)) as Hf; rewrite Forall_forall in Hf; by apply Hf).
      apply Hl2; [done|]. by left.
    + intros p Hp Hno. rewrite Hc2; [apply Hr1; [done|]|done|].
      * intros ->. apply (Hno 0 ltac:(lia)). by rewrite Z.mul_0_r, Z.add_0_r.
      * intros j Hj. rewrite Hnext by done. apply Hno. lia.
Qed.

(** [uvm_unmap].  Unmapping mapped pages returns; the range is unmapped
    and every other descriptor and byte of the process is as before; exactly
    the pages of the range with one reference are freed.  An address that is not
    page aligned, and a range whose first page is not mapped, panic. *)
Theorem uvm_unmap_correct pgdir T l s va n :
  vm pgdir T l s -> leaves T l s -> 0 <= va -> va + 4096 * Z.of_nat n <= USERTOP ->
  (va mod 4096 <> 0 -> uvm_unmap kend pgdir va (Z.of_nat n) s = Panic s) /\
  (va mod 4096 = 0 -> (0 < n)%nat -> valid_pte (mmu_pte (mem s) pgdir va) = false -> uvm_unmap kend pgdir va (Z.of_nat n) s = Panic s) /\
  (va mod 4096 = 0 -> (forall j, 0 <= j < Z.of_nat n -> unmappable T s (va + 4096 * j)) ->
   exists l' s', uvm_unmap kend pgdir va (Z.of_nat n) s = Ret tt s' /\ vm pgdir T l' s' /\ leaves T l' s' /\
     (forall x, 0 <= x < USERTOP -> mmu_pte (mem s') pgdir x = if decide (va <= x < va + 4096 * Z.of_nat n) then 0 else mmu_pte (mem s) pgdir x) /\
     (forall q, page kend q -> q ∈ l' <-> q ∈ l \/
        exists j, 0 <= j < Z.of_nat n /\ PTE_ADDR (mmu_pte (mem s) pgdir (va + 4096 * j)) = V2P q /\ rc s q = 1) /\
     (forall x b, 0 <= x < USERTOP -> ~ (va <= x < va + 4096 * Z.of_nat n) -> user_byte (mem s) pgdir x = Some b -> user_byte (mem s') pgdir x = Some b)).
Proof using kend_ok.
  intros HV HL Hva Htop. unfold uvm_unmap. change PGSIZE with 4096. unfold USERTOP in Htop. rewrite u64_id by lia.
  replace (va + Z.of_nat n * 4096) with (va + 4096 * Z.of_nat n) by lia. rewrite Nat2Z.id. split; [|split].
  - intros Hm. destruct (Z.eqb_spec (va mod 4096) 0); [done|]. done.
  - intros -> Hn Hv. cbn [Z.eqb negb]. destruct n as [|n]; [lia|]. cbn [uvm_unmap_loop]. destruct (Z.ltb_spec va (va + 4096 * Z.of_nat (S n))); [|lia].
    erewrite bind_run by (by eapply walk_lookup). rewrite (mmu_pte_vm pgdir _ _ _ _ HV) in Hv. unfold pte_at in Hv.
    destruct (T !! va_path va) as [t|] eqn:Et; [|done]. rewrite (slot_nonzero _ _ _ _ _ _ _ HV Et) by (apply level_idx_range; lia).
    run_step. change (default 0 _) with (word (mem s) (t + 8 * va_slot va)).
    unfold valid_pte, truthy in Hv. apply negb_false_iff in Hv. by rewrite Hv.
  - intros Hm Hun. rewrite Hm. cbn [Z.eqb negb].
    destruct (unmap_loop_run pgdir T n n l s va HV HL Hm Hva Htop (Nat.le_refl n) Hun) as (l' & s' & E & HV' & HL' & Hp & Hl & Hu & _).
    exists l', s'. split; [done|]. split; [done|]. split; [done|].
    split; [intros x Hx; rewrite (mmu_pte_vm pgdir _ _ _ _ HV), (mmu_pte_vm pgdir _ _ _ _ HV'); by apply Hp|]. split.
    + intros q Hq. rewrite Hl by done. by setoid_rewrite (mmu_pte_vm pgdir _ _ _ _ HV).
    + intros x b Hx Hout. rewrite (user_byte_vm pgdir _ _ _ _ HV), (user_byte_vm pgdir _ _ _ _ HV'). by apply Hu.
Qed.

(** * A new address space *)

(** A table of zeros maps nothing. *)
Lemma vm_init_run l s :
  inv kend l s ->
  match l with
  | [] => vm_init s = Ret 0 s
  | p :: l' => exists s', vm_init s = Ret p s' /\ vm p {[ [] := p ]} l' s' /\ leaves {[ [] := p ]} l' s' /\
                 forall va, mmu_pte (mem s') p va = 0
  end.
Proof using kend_ok.
  intros HI. pose proof (kalloc_vm kend kend_ok l s HI) as Hk. destruct l as [|p l].
  - unfold vm_init. by erewrite bind_run by exact Hk.
  - destruct Hk as (s1 & Ek & HI1 & Em & Hp & Hpl & Hp0 & _). destruct (zero_page_run p s1) as (m & Ez & Hz & Hf).
    assert (vm p {[ [] := p ]} l (set_mem m s1)) as HV.
    { split.
      - apply inv_mem; [done|]. intros q Hq. apply Hf. intros Hc.
        assert (page kend q) as Hpq by (pose proof (inv_pages _ _ _ HI1) as H; rewrite Forall_forall in H; by apply H).
        assert (p = q) as ->; [|done]. eapply page_disjoint; [by apply page_aligned|by apply page_aligned|exact Hc|]. unfold in_page, PGSIZE. lia.
      - apply lookup_singleton_eq.
      - intros P q. rewrite lookup_singleton_Some. by intros [_ <-].
      - intros P Q q. rewrite !lookup_singleton_Some. by intros [<- _] [<- _].
      - intros P i [q Hq]. apply lookup_singleton_Some in Hq as [E _]. by destruct P.
      - intros P q i. rewrite lookup_singleton_Some. intros [<- <-] _ Hi. rewrite lookup_singleton_ne by done. cbn [mem set_mem]. by rewrite Hz. }
    assert (forall va, pte_at {[ [] := p ]} (set_mem m s1) va = 0) as Hpte by (intros va; unfold pte_at; by rewrite lookup_singleton_ne).
    exists (set_mem m s1). split; [|split; [done|split]].
    + unfold vm_init. erewrite bind_run by exact Ek. unfold truthy. rewrite (proj2 (Z.eqb_neq _ _) Hp0). cbn [negb when]. by erewrite bind_run by exact Ez.
    + split; [intros va _|intros va va' _ _]; rewrite Hpte; discriminate.
    + intros va. by rewrite (mmu_pte_vm p _ _ _ va HV).
Qed.
End Tables.

(** * Witnesses *)

(** A machine with ten free pages, and a process without memory on it. *)
Definition kend10 : Z := KERNBASE + PHYSTOP - 40960.

Definition new_process : M kstate Z := mm_init kend10 (Z.to_nat NFRAMES) ;; vm_init.

Lemma new_process_run :
  exists T pgdir l s, new_process boot_kmem = Ret pgdir s /\ vm kend10 pgdir T l s /\ leaves kend10 T l s /\ (forall va, mmu_pte (mem s) pgdir va = 0) /\
    length l = 9%nat.
Proof.
  assert (KERNBASE < kend10 < KERNBASE + PHYSTOP) as Hk by (vm_compute; intuition congruence).
  destruct (mm_init_run kend10 Hk boot_kmem) as (s1 & E1 & HI & _); [done|done|].
  pose proof (vm_init_run kend10 Hk (all_pages kend10) s1 HI) as H. assert (exists p l, all_pages kend10 = p :: l) as (p & l & E).
  { destruct (all_pages kend10) as [|p l] eqn:E; [|by exists p, l]. exfalso.
    apply (elem_of_nil (KERNBASE + PHYSTOP - 4096)). rewrite <- E. apply page_in_all; [done|]. vm_compute. intuition congruence. }
  rewrite E in H. destruct H as (s' & E2 & HV & HL & Hz). exists {[ [] := p ]}, p, l, s'. split; [|split; [exact HV|split; [exact HL|split; [exact Hz|]]]].
  2:{ assert (length (all_pages kend10) = 10%nat) as Hl by reflexivity. rewrite E in Hl. by injection Hl. }
  unfold new_process. by erewrite bind_run by exact E1.
Qed.

Lemma kend10_ok : KERNBASE < kend10 < KERNBASE + PHYSTOP.
Proof. vm_compute. intuition congruence. Qed.

Lemma uvm_map_correct_witness :
  exists pgdir s r s', new_process boot_kmem = Ret pgdir s /\ uvm_map pgdir 0x400000 4096 0x1000 s = Ret r s'.
Proof.
  destruct new_process_run as (T & pgdir & l & s & E & HV & _).
  destruct (uvm_map_correct kend10 kend10_ok pgdir T l s 0x400000 4096 0x1000 HV) as (T' & l' & s' & r & k & H & _).
  - lia.
  - lia.
  - vm_compute; discriminate.
  - vm_compute; intuition congruence.
  - vm_compute; discriminate.
  - exists pgdir, s, r, s'. split; [exact E|exact H].
Defined.

Lemma uvm_alloc_correct_witness :
  exists pgdir s k s', new_process boot_kmem = Ret pgdir s /\
    (4096 <= 4096 * k /\ uvm_alloc kend10 pgdir 0 4096 0 4096 s = Ret 4096 s' \/
     4096 * k < 4096 /\ (k = 0 -> uvm_alloc kend10 pgdir 0 4096 0 4096 s = Ret 0 s')).
Proof.
  destruct new_process_run as (T & pgdir & l & s & E & HV & _ & Hz & _).
  destruct (uvm_alloc_correct kend10 kend10_ok pgdir T l s 0 4096 0 4096 HV) as (k & T' & l' & s' & F & _ & _ & _ & _ & _ & _ & _ & H).
  - reflexivity.
  - vm_compute; intuition congruence.
  - lia.
  - lia.
  - vm_compute; reflexivity.
  - intros va _. rewrite Hz. reflexivity.
  - exists pgdir, s, k, s'. split; [exact E|]. destruct H as [[H1 H2]|(H1 & _ & H2 & _)]; [left|right]; split; assumption.
Defined.

Lemma uvm_dealloc_panics_witness :
  exists pgdir s, new_process boot_kmem = Ret pgdir s /\ uvm_dealloc kend10 pgdir 0 8192 4096 s = Ret 4096 s.
Proof.
  destruct new_process_run as (T & pgdir & l & s & E & HV & _ & Hz & _).
  destruct (uvm_dealloc_panics kend10 kend10_ok pgdir T l s 0 8192 4096 HV) as [H _].
  - lia.
  - lia.
  - vm_compute; discriminate.
  - exists pgdir, s. split; [exact E|]. apply H. intros va _. rewrite Hz. reflexivity.
Defined.

Lemma copyout_correct_witness :
  exists pgdir s r s', new_process boot_kmem = Ret pgdir s /\ copyout pgdir 0x1000 (Some [1; 2; 3]) 3 s = Ret r s'.
Proof.
  destruct new_process_run as (T & pgdir & l & s & E & HV & HL & _).
  destruct (copyout_correct kend10 kend10_ok pgdir T l s 0x1000 (Some [1; 2; 3]) 3 HV HL) as (T' & l' & s' & r & k & H & _).
  - lia.
  - vm_compute; discriminate.
  - intros b [= <-]. reflexivity.
  - exists pgdir, s, r, s'. split; [exact E|exact H].
Defined.

Lemma uvm_unmap_correct_witness :
  exists pgdir s, new_process boot_kmem = Ret pgdir s /\ uvm_unmap kend10 pgdir 0x1000 1 s = Panic s.
Proof.
  destruct new_process_run as (T & pgdir & l & s & E & HV & HL & Hz & _).
  destruct (uvm_unmap_correct kend10 kend10_ok pgdir T l s 0x1000 1 HV HL) as (_ & H & _).
  - lia.
  - vm_compute; discriminate.
  - exists pgdir, s. split; [exact E|]. apply H; [reflexivity|repeat constructor|]. rewrite Hz. reflexivity.
Defined.

(** A process that grows by a page and shrinks again stops the machine. *)
Example grow_shrink_panics :
  match (let* pgdir := (mm_init kend10 20 ;; vm_init) in
         let* r := uvm_alloc kend10 pgdir 0 4096 0 4096 in
         uvm_dealloc kend10 pgdir 0 r 0) boot_kmem with
  | Panic _ => true
  | _ => false
  end = true.
Proof. vm_compute. reflexivity. Qed.

(** Bytes copied out to an unmapped page are read back through the tables. *)
Example copyout_read :
  match (let* pgdir := (mm_init kend10 20 ;; vm_init) in
         let* r := copyout pgdir 0x1ffe (Some [11; 22; 33]) 3 in
         ret (pgdir, r)) boot_kmem with
  | Ret (pgdir, r) s => (r, user_byte (mem s) pgdir 0x1ffe, user_byte (mem s) pgdir 0x2000, user_byte (mem s) pgdir 0x3000)
  | _ => (-2, None, None, None)
  end = (0, Some 11, Some 33, None).
Proof. vm_compute. reflexivity. Qed.


(** The child of [uvm_copy] reads what the parent reads, from another frame. *)
Example fork_copies :
  match (let* pgdir := (mm_init kend10 20 ;; vm_init) in
         copyout pgdir 0x1000 (Some [11; 22; 33]) 3 ;;
         let* child := uvm_copy kend10 [] pgdir in
         ret (pgdir, child)) boot_kmem with
  | Ret (pgdir, child) s =>
      (user_byte (mem s) child 0x1001, user_byte (mem s) child 0x2000, mmu_pte (mem s) child 0x1000 =? mmu_pte (mem s) pgdir 0x1000)
  | _ => (None, None, true)
  end = (Some 22, None, false).
Proof. vm_compute. reflexivity. Qed.

(** [vm_free] frees the tables of a process but not its memory: the page
    [uvm_alloc] took has count 1, and only frames with count 0 are freed. *)
Example vm_free_leaks :
  match (mm_init kend10 20 ;;
         let* before := gets fpages in
         let* pgdir := vm_init in
         uvm_alloc kend10 pgdir 0 4096 0 4096 ;;
         vm_free kend10 [] pgdir ;;
         let* after := gets fpages in
         ret (before, after)) boot_kmem with
  | Ret r _ => r
  | _ => (0, 0)
  end = (10, 9).
Proof. vm_compute. reflexivity. Qed.

End Vm.
