(* ===== verification/Mmap.v ===== *)
(** Memory mappings: kern/mmap.c, with [sys_mmap] of kern/sysproc.c and the
    page-fault handler of kern/trap.c.

    A [struct mmap_region] is a [node], found by its address in [nodes]: the
    regions of the process form a list through [next].  The nodes come from
    [kmalloc] and go back with [kmfree] of [Kmalloc], over the memory and the
    pages that the page tables of [Vm] live in; a node that was given back
    keeps its fields until its block is used again, as in memory.  A pointer that leads to no
    node is followed into a fault, which is [Panic].

    What the mappings call of files is the class [Backing].  [perm] is passed
    around as in the source, where nothing uses it but the copy on write.
    [mremap], [scale_mmap_region] and [find_available_region] have no callers:
    the system call table leaves [mremap] out. *)

From stdpp Require Import base list gmap sorting.
From Stdlib Require Import ZArith Lia Bool.
From S2P Require Import Prelude Mm Pages Kmalloc Vm.

Module Mmap.
Import Mm Pages Kmalloc Vm.

Definition MMAPBASE : Z := 0x600000000000.
Definition PROT_NONE : Z := 0.
Definition PROT_READ : Z := 1.
Definition PROT_WRITE : Z := 2.
Definition PROT_EXEC : Z := 4.
Definition MAP_PRIVATE : Z := 0x02.
Definition MAP_FIXED : Z := 0x10.
Definition MAP_ANONYMOUS : Z := 0x20.
Definition MAP_POPULATE : Z := 0x8000.
Definition MT_NORMAL_NC : Z := 2.
Definition PTE_RO : Z := Z.shiftl 1 7.
Definition PTE_SH : Z := Z.shiftl 3 8.
Definition PTE_AF : Z := Z.shiftl 1 10.
Definition PTE_PXN : Z := Z.shiftl 1 53.
Definition PTE_UXN : Z := Z.shiftl 1 54.

Definition has (flags bit : Z) : bool := truthy (Z.land flags bit).

Record node : Type := mkN { reg : mmap_region; next : Z }.

(** [sizeof(struct mmap_region)] *)
Definition NODE_SIZE : Z := 48.

(** What mappings call of files, which are named by their [struct file *]. *)
Class Backing (F : Type) : Type := {
  filedup : Z -> M F unit;
  fileclose : Z -> M F unit;
  file_size : F -> Z -> Z;                               (* f->ip->size *)
  file_page : Z -> Z -> Z -> Z -> M F (Z * list Z);      (* copy_page(f->ip, offset, dest, size, dest_offset) *)
  file_writeback : Z -> list Z -> Z -> Z -> M F Z        (* begin_op, writei(f->ip, src, off, n), end_op *)
}.

Record mstate {F : Type} : Type := mkMs {
  hp : hstate;
  nodes : gmap Z node;
  regions : Z;
  nregions : Z;
  files : F
}.
Arguments mstate : clear implicits.
Arguments mkMs {F} _ _ _ _ _.

Section Mmap.
Context {F : Type} {B : Backing F}.
(** The end of the kernel, the static header of the heap, rounds for its
    searches, the page table of the process. *)
Context (kend base : Z) (kf : nat) (pgdir : Z).

Definition set_hp (h : hstate) (s : mstate F) : mstate F := mkMs h (nodes s) (regions s) (nregions s) (files s).
Definition set_nodes (m : gmap Z node) (s : mstate F) : mstate F := mkMs (hp s) m (regions s) (nregions s) (files s).
Definition set_regions (r : Z) (s : mstate F) : mstate F := mkMs (hp s) (nodes s) r (nregions s) (files s).
Definition set_nregions (n : Z) (s : mstate F) : mstate F := mkMs (hp s) (nodes s) (regions s) n (files s).
Definition set_files (f : F) (s : mstate F) : mstate F := mkMs (hp s) (nodes s) (regions s) (nregions s) f.

Definition on_h {A} : M hstate A -> M (mstate F) A := zoom hp set_hp.
Definition on_k {A} (m : M kstate A) : M (mstate F) A := on_h (on_pages m).
Definition on_files {A} : M F A -> M (mstate F) A := zoom files set_files.

Definition get_node (a : Z) : M (mstate F) node := fun s => match nodes s !! a with Some n => Ret n s | None => Panic s end.
Definition put_node (a : Z) (n : node) : M (mstate F) unit := modify (fun s => set_nodes (<[a := n]> (nodes s)) s).
Definition set_next (a x : Z) : M (mstate F) unit := let* n := get_node a in put_node a (mkN (reg n) x).

(** As many steps as there are nodes: enough for a list that ends. *)
Definition walk_fuel (s : mstate F) : nat := S (size (nodes s)).

(** * Pages of a mapping *)

Definition get_perm (prot flags : Z) : Z :=
  let attr := if has flags MAP_ANONYMOUS then MT_NORMAL_NC else MT_NORMAL in
  let perm := Z.lor (Z.lor (Z.lor (Z.lor (Z.lor PTE_USER PTE_PXN) PTE_PAGE) (Z.shiftl attr 2)) PTE_AF) PTE_SH in
  let perm := if has prot PROT_READ then Z.lor perm PTE_RO else perm in
  let perm := if has prot PROT_WRITE then Z.land perm (not_w 64 PTE_RO) else perm in
  let perm := if negb (has prot PROT_EXEC) then Z.lor perm PTE_UXN else perm in
  if has prot PROT_NONE || negb (has prot (Z.lor PROT_READ PROT_WRITE)) then Z.land perm (not_w 64 PTE_USER) else perm.

(** The loop of [map_file_page] that fills the page [mem]: [temp] bytes are
    left, [i] pages are done.  [Some e] returns the error [e]. *)
Fixpoint fill_loop (fuel : nat) (mem length temp f offset i : Z) : M (mstate F) (option Z) :=
  if temp =? 0 then ret None else
  match fuel with
  | O => nofuel
  | S fuel' =>
      let curoff := Z.rem offset PGSIZE in
      let cursize := if temp <? PGSIZE - curoff then temp else PGSIZE - curoff in
      let* size := gets (fun s => file_size (files s) f) in
      if size <? curoff then ret None else
      let* (e, b) := on_files (file_page f (s64 (offset + PGSIZE * i)) cursize curoff) in
      if e <? 0 then on_k (kfree kend mem) ;; ret (Some e) else
      on_k (store_bytes (mem + length - temp) b) ;;
      fill_loop fuel' mem length (temp - cursize) f 0 (i + 1)
  end.

Definition map_file_page (addr length perm f offset : Z) : M (mstate F) Z :=
  let* mem := on_k kalloc in
  if mem =? 0 then ret (- ENOMEM) else
  on_k (zero_page mem) ;;
  let* e := fill_loop 3 mem length length f offset 0 in
  match e with
  | Some e => ret e
  | None =>
      let* e := on_k (uvm_map pgdir addr PGSIZE (V2P mem)) in
      if e <? 0 then on_k (kfree kend mem) ;; ret e else ret 0
  end.

(** Undoing the [cur] bytes mapped so far. *)
Definition undo (addr cur : Z) : M (mstate F) unit :=
  when (negb (cur =? 0)) (on_k (uvm_unmap kend pgdir addr (cur / PGSIZE))).

Fixpoint map_file_pages (fuel : nat) (addr length perm f offset cur size : Z) : M (mstate F) Z :=
  if cur <? length then
    match fuel with
    | O => nofuel
    | S fuel' =>
        let mapsize := if size <? PGSIZE then size else PGSIZE in
        let* e := map_file_page (u64 (addr + cur)) mapsize perm f (s64 (offset + cur)) in
        if e <? 0 then undo addr cur ;; ret e else
        map_file_pages fuel' addr length perm f offset (u64 (cur + PGSIZE)) (size - mapsize)
    end
  else ret 0.

Definition map_anon_page (addr perm : Z) : M (mstate F) Z :=
  let* page := on_k kalloc in
  if page =? 0 then ret (- ENOMEM) else
  on_k (zero_page page) ;;
  let* e := on_k (uvm_map pgdir addr PGSIZE (V2P page)) in
  if e <? 0 then on_k (kfree kend page) ;; ret (- EINVAL) else ret 0.

Fixpoint map_anon_pages (fuel : nat) (addr length perm cur : Z) : M (mstate F) Z :=
  if cur <? length then
    match fuel with
    | O => nofuel
    | S fuel' =>
        let* e := map_anon_page (u64 (addr + cur)) perm in
        if e <? 0 then undo addr cur ;; ret e else
        map_anon_pages fuel' addr length perm (u64 (cur + PGSIZE))
    end
  else ret 0.

Definition load_perm (prot flags : Z) : Z :=
  let perm := get_perm prot flags in
  let perm := if has flags MAP_PRIVATE && negb (has flags MAP_POPULATE) then Z.lor perm PTE_RO else perm in
  if has flags MAP_SHARED then Z.land perm (not_w 64 PTE_RO) else perm.

Definition mmap_load_pages (addr length prot flags f offset : Z) : M (mstate F) Z :=
  let perm := load_perm prot flags in
  if has flags MAP_ANONYMOUS then map_anon_pages (vm_rounds length) addr length perm 0
  else map_file_pages (vm_rounds length) addr length perm f offset 0 length.

(** * The list of regions *)

(** The node of [start], 0 for NULL. *)
Fixpoint find_from (fuel : nat) (start r : Z) : M (mstate F) Z :=
  if r =? 0 then ret 0 else
  match fuel with
  | O => nofuel
  | S fuel' =>
      let* n := get_node r in
      if (r_addr (reg n) <=? start) && (start <? u64 (r_addr (reg n) + r_length (reg n))) then ret r
      else find_from fuel' start (next n)
  end.

Definition find_mmap_region (start : Z) : M (mstate F) Z :=
  let* r := gets regions in let* k := gets walk_fuel in find_from k start r.

Fixpoint usable_from (fuel : nat) (addr length r : Z) : M (mstate F) bool :=
  if r =? 0 then ret false else
  match fuel with
  | O => nofuel
  | S fuel' =>
      let* n := get_node r in
      if u64 (addr + length) <=? r_addr (reg n) then ret true else
      let* after :=
        (if u64 (r_addr (reg n) + r_length (reg n)) <=? addr then
           if next n =? 0 then ret true
           else let* m := get_node (next n) in ret (u64 (addr + length) <=? r_addr (reg m))
         else ret false) in
      if after then ret true else usable_from fuel' addr length (next n)
  end.

Definition is_usable (addr length : Z) : M (mstate F) bool :=
  let* c := gets nregions in
  if c =? 0 then ret true else
  let* r := gets regions in let* k := gets walk_fuel in usable_from k addr length r.

(** The search at [select_addr]; [len] is the length rounded up. *)
Fixpoint select_addr (fuel : nat) (addr len r : Z) : M (mstate F) Z :=
  if r =? 0 then ret addr else
  match fuel with
  | O => nofuel
  | S fuel' =>
      let* n := get_node r in
      let stop := u64 (r_addr (reg n) + r_length (reg n)) in
      if u64 (addr + len) <=? r_addr (reg n) then ret addr else
      let* fit :=
        (if stop <=? addr then
           if next n =? 0 then ret true
           else let* m := get_node (next n) in ret (u64 (addr + len) <=? r_addr (reg m))
         else ret false) in
      if fit then ret addr else
      select_addr fuel' (if addr <=? stop then stop else addr) len (next n)
  end.

(** The loop that links the node [region] at [addr] into the list from [r] on;
    the value is what becomes of [prev]. *)
Fixpoint insert_from (fuel : nat) (addr region prev r : Z) : M (mstate F) Z :=
  if r =? 0 then ret prev else
  match fuel with
  | O => nofuel
  | S fuel' =>
      let* n := get_node r in
      if addr <? r_addr (reg n) then set_next region r ;; ret region else
      let* before :=
        (if (r_addr (reg n) <? addr) && negb (next n =? 0) then
           let* m := get_node (next n) in ret (addr <? r_addr (reg m))
         else ret false) in
      if before then set_next region (next n) ;; set_next r region ;; ret prev else
      if next n =? 0 then set_next r region ;; ret prev else
      insert_from fuel' addr region prev (next n)
  end.

(** The [PROT_NONE] part of [mmap]: pages mapped among the [k] from [i] on. *)
Fixpoint none_loop (k : nat) (addr i mapped : Z) : M (mstate F) Z :=
  match k with
  | O => ret mapped
  | S k' =>
      let* pte := on_k (pgdir_walk pgdir (u64 (addr + s32 (i * PGSIZE))) false) in
      if pte =? 0 then panic else
      let* v := on_k (load pte) in
      if truthy (Z.land v PTE_VALID) then
        on_k (store pte (Z.land v (not_w 64 PTE_USER))) ;;
        none_loop k' addr (i + 1) (mapped + 1)
      else none_loop k' addr (i + 1) mapped
  end.

(** The choice of the address: [inl r] returns [r], [inr a] goes on with [a]. *)
Definition choose_addr (addr length prot flags : Z) : M (mstate F) (Z + Z) :=
  let len := ROUNDUP length PGSIZE in
  let select (a : Z) : M (mstate F) (Z + Z) :=
    let* r := gets regions in
    let* k := gets walk_fuel in
    let* a' := select_addr k a len r in ret (inr a') in
  if negb (addr =? 0) then
    if USERTOP <? ROUNDUP (u64 (ROUNDUP addr PGSIZE + length)) PGSIZE then ret (inl EINVAL) else
    if has flags MAP_FIXED then
      if truthy (Z.land addr (PGSIZE - 1)) then ret (inl (- EINVAL)) else
      if prot =? PROT_NONE then
        let* mapped := none_loop (Z.to_nat (length / PGSIZE)) addr 0 0 in
        if mapped =? length / PGSIZE then ret (inl addr) else ret (inl (- EINVAL))
      else
        let* t := find_mmap_region addr in
        let* same := (if t =? 0 then ret false else let* n := get_node t in ret (addr =? r_addr (reg n))) in
        if same then ret (inl (- EINVAL)) else
        let* ok := is_usable addr length in
        if negb ok then ret (inl (- EINVAL)) else ret (inr addr)
    else select (ROUNDDOWN addr PGSIZE)
  else
    let* r := gets regions in
    if r =? 0 then select MMAPBASE else let* n := get_node r in select (r_addr (reg n)).

(** The value of [error] that nothing has set. *)
Context (uninit : Z).

Definition mmap_out (region f error : Z) : M (mstate F) Z :=
  when (negb (f =? 0)) (on_files (fileclose f)) ;;
  on_h (kmfree kf region) ;;
  ret error.

(** Linking the new node. *)
Definition link_region (region addr : Z) : M (mstate F) unit :=
  let* c := gets nregions in
  if c =? 0 then modify (set_regions region)
  else
    let* r := gets regions in
    let* k := gets walk_fuel in
    let* prev := insert_from k addr region r r in
    modify (set_regions prev).

(** [mmap] from [load_pages] on. *)
Definition mmap_load (region addr length prot flags f offset : Z) : M (mstate F) Z :=
  let* e := mmap_load_pages addr length prot flags f offset in
  if e <? 0 then mmap_out region f e else
  modify (fun s => set_nregions (s32 (nregions s + 1)) s) ;;
  let* n := get_node region in
  put_node region (mkN (mkRegion addr (ROUNDUP length PGSIZE) (r_offset (reg n)) (r_f (reg n)) (r_prot (reg n)) (r_flags (reg n))) (next n)) ;;
  ret addr.

Definition mmap (addr length prot flags f offset : Z) : M (mstate F) Z :=
  let* choice := choose_addr addr length prot flags in
  match choice with
  | inl r => ret r
  | inr addr =>
      if USERTOP <? u64 (addr + ROUNDUP length PGSIZE) then ret (- ENOMEM) else
      let* region := on_h (kmalloc base kf NODE_SIZE) in
      if region =? 0 then ret (- ENOMEM) else
      let anon := has flags MAP_ANONYMOUS in
      let file := if f =? 0 then 0 else if anon then 0 else f in
      put_node region (mkN (mkRegion addr length offset file prot flags) 0) ;;
      (if f =? 0 then ret tt
       else on_files (filedup f) ;; when (negb anon) (on_files (filedup f))) ;;
      if negb (f =? 0) && anon then mmap_out region f uninit else
      link_region region addr ;;
      mmap_load region addr length prot flags f offset
  end.

(** The loop of [delete_mmap_node]: the node at address [addr] leaves the list. *)
Fixpoint unlink_from (fuel : nat) (addr prev r : Z) : M (mstate F) unit :=
  if r =? 0 then ret tt else
  match fuel with
  | O => nofuel
  | S fuel' =>
      let* n := get_node r in
      if addr =? r_addr (reg n) then set_next prev (next n)
      else unlink_from fuel' addr r (next n)
  end.

(** The part of [delete_mmap_node] that takes the node out of the list. *)
Definition unlink_node (a : Z) : M (mstate F) unit :=
  let* r := gets regions in
  let* n := get_node a in
  let* h := get_node r in
  if r_addr (reg n) =? r_addr (reg h) then modify (set_regions (next h))
  else let* k := gets walk_fuel in unlink_from k (r_addr (reg n)) r r.

Definition delete_mmap_node (a : Z) : M (mstate F) unit :=
  let* r := gets regions in
  if r =? 0 then ret tt else
  unlink_node a ;;
  let* n := get_node a in
  on_k (uvm_unmap kend pgdir (r_addr (reg n)) (u64 (r_length (reg n) + PGSIZE - 1) / PGSIZE)) ;;
  on_h (kmfree kf a).

Fixpoint free_list_loop (fuel : nat) (r : Z) : M (mstate F) unit :=
  if r =? 0 then ret tt else
  match fuel with
  | O => nofuel
  | S fuel' =>
      let* n := get_node r in
      when (negb (r_f (reg n) =? 0)) (on_files (fileclose (r_f (reg n)))) ;;
      delete_mmap_node r ;;
      modify (fun s => set_nregions (s32 (nregions s - 1)) s) ;;
      let* n := get_node r in
      free_list_loop fuel' (next n)
  end.

Definition free_mmap_list : M (mstate F) unit :=
  let* r := gets regions in let* k := gets walk_fuel in free_list_loop k r.

(** The bytes of the process at [addr]; [None] where one is not mapped. *)
Definition user_bytes (s : mstate F) (addr n : Z) : option (list Z) :=
  mapM (fun i => user_byte (mem (pages_of (hp s))) pgdir (addr + i)) (seqZ 0 n).

(** Writing a region back: what [writei] returns. *)
Definition write_back (g : mmap_region) (len : Z) : M (mstate F) Z :=
  let* b := gets (fun s => user_bytes s (r_addr g) len) in
  match b with
  | None => panic
  | Some b => on_files (file_writeback (r_f g) b (r_offset g) len)
  end.

Definition munmap (addr length : Z) : M (mstate F) Z :=
  if truthy (Z.land addr (PGSIZE - 1)) then ret (- EINVAL) else
  let length := ROUNDUP length PGSIZE in
  let* r := find_mmap_region addr in
  if r =? 0 then ret 0 else
  let* n := get_node r in
  let g := reg n in
  let* e :=
    (if has (r_flags g) MAP_SHARED && negb (r_f g =? 0) && has (r_prot g) PROT_WRITE then
       write_back g (r_length g)
     else ret 0) in
  if e <? 0 then ret e else
  if r_length g <=? length then
    when (negb (r_f g =? 0)) (on_files (fileclose (r_f g))) ;;
    delete_mmap_node r ;;
    modify (fun s => set_nregions (s32 (nregions s - 1)) s) ;;
    ret 0
  else
    on_k (uvm_unmap kend pgdir addr (length / PGSIZE)) ;;
    put_node r (mkN (mkRegion (u64 (r_addr g + length)) (r_length g - length) (r_offset g) (r_f g) (r_prot g) (r_flags g)) (next n)) ;;
    ret 0.

Definition MS_ASYNC : Z := 1.
Definition MS_SYNC : Z := 4.

(** The loop of [msync]. *)
Fixpoint msync_loop (fuel : nat) (addr length r : Z) : M (mstate F) Z :=
  if r =? 0 then ret 0 else
  match fuel with
  | O => nofuel
  | S fuel' =>
      let* n := get_node r in
      let g := reg n in
      if (r_addr g =? addr) && (has (r_flags g) MAP_SHARED && has (r_prot g) PROT_WRITE && negb (r_f g =? 0)) then
        let len := if r_length g <? length then r_length g else length in
        let* e := write_back g len in
        if e <? 0 then ret e else
        if length - len <=? 0 then ret 0 else msync_loop fuel' (u64 (addr + len)) (length - len) (next n)
      else msync_loop fuel' addr length (next n)
  end.

Definition msync (addr length flags : Z) : M (mstate F) Z :=
  let flags := if negb (has flags MS_ASYNC) && negb (has flags MS_SYNC) then Z.lor flags MS_ASYNC else flags in
  if has flags MS_ASYNC then ret 0 else
  if truthy (Z.land addr (PGSIZE - 1)) then ret (- EINVAL) else
  let* r := gets regions in let* k := gets walk_fuel in msync_loop k addr length r.

(** * Fork and page faults *)

(** [copy_mmap_region] into a new node. *)
Definition copy_mmap_region (dest : Z) (src : node) : M (mstate F) unit :=
  let g := reg src in
  let dup := negb (has (r_flags g) MAP_ANONYMOUS) && negb (r_f g =? 0) in
  when dup (on_files (filedup (r_f g))) ;;
  put_node dest (mkN (mkRegion (r_addr g) (r_length g) (r_offset g) (if dup then r_f g else 0) (r_prot g) (r_flags g)) 0).

(** The loop of [copy_mmap_list]: the value returned and [cnode]. *)
Fixpoint copy_loop (fuel : nat) (r cnode tail : Z) : M (mstate F) (Z * Z) :=
  if r =? 0 then ret (0, cnode) else
  match fuel with
  | O => nofuel
  | S fuel' =>
      let* region := on_h (kmalloc base kf NODE_SIZE) in
      if region =? 0 then ret (- ENOMEM, 0) else
      let* n := get_node r in
      copy_mmap_region region n ;;
      when (negb (cnode =? 0)) (set_next tail region) ;;
      let* n := get_node r in
      copy_loop fuel' (next n) (if cnode =? 0 then region else cnode) region
  end.

(** The error, and [regions] and [nregions] of the child. *)
Definition copy_mmap_list : M (mstate F) (Z * Z * Z) :=
  let* r := gets regions in
  let* k := gets walk_fuel in
  let* (e, cnode) := copy_loop k r 0 0 in
  let* c := gets nregions in
  if e <? 0 then ret (e, 0, 0) else ret (0, cnode, c).

Fixpoint copy_mmap_pages (fuel : nat) (start stop perm : Z) : M (mstate F) Z :=
  if start <? stop then
    match fuel with
    | O => nofuel
    | S fuel' =>
        let* pte := on_k (pgdir_walk pgdir start false) in
        if pte =? 0 then ret (- EINVAL) else
        let* v := on_k (load pte) in
        let* page := on_k kalloc in
        if page =? 0 then ret (- ENOMEM) else
        on_k (copy_page page (P2V (PTE_ADDR v))) ;;
        on_k (store pte (Z.lor (V2P page) perm)) ;;
        copy_mmap_pages fuel' (u64 (start + PGSIZE)) stop perm
    end
  else ret 0.

(** The loops of [pf_handler]; [Some r] returns [r]. *)
Fixpoint fault_load (fuel : nat) (far r : Z) : M (mstate F) Z :=
  if r =? 0 then ret (-1) else
  match fuel with
  | O => nofuel
  | S fuel' =>
      let* n := get_node r in
      let g := reg n in
      if r_addr g =? far then
        let* e := mmap_load_pages (r_addr g) (r_length g) (r_prot g) (r_flags g) (r_f g) (r_offset g) in
        ret (if e <? 0 then -1 else 0)
      else fault_load fuel' far (next n)
  end.

Fixpoint fault_copy (fuel : nat) (far r : Z) : M (mstate F) Z :=
  if r =? 0 then ret (-1) else
  match fuel with
  | O => nofuel
  | S fuel' =>
      let* n := get_node r in
      let g := reg n in
      if (r_addr g <=? far) && (far <? u64 (r_addr g + r_length g)) && has (r_flags g) MAP_PRIVATE && has (r_prot g) PROT_WRITE then
        let perm := Z.land (get_perm (r_prot g) (r_flags g)) (not_w 64 PTE_RO) in
        let* e := copy_mmap_pages (vm_rounds (r_length g)) (r_addr g) (u64 (r_addr g + r_length g)) perm in
        ret (if e <? 0 then -1 else 0)
      else fault_copy fuel' far (next n)
  end.

Definition pf_handler (dfs far : Z) : M (mstate F) Z :=
  let far := ROUNDDOWN far PGSIZE in
  let* r := gets regions in
  let* k := gets walk_fuel in
  if dfs <=? 7 then ret (-1)
  else if dfs <=? 11 then fault_load k far r
  else fault_copy k far r.

(** The abort cases of [trap]: what becomes of the process, with the value of
    its register x0.  [tf->x[0]] is unsigned. *)
Inductive fault_result : Type :=
| Resumed (x0 : Z)
| Exited
| TrapError.

Definition trap_abort (dfs far : Z) : M (mstate F) fault_result :=
  if (4 <=? dfs) && (dfs <=? 15) then
    let* r := pf_handler dfs far in
    let x0 := u64 r in
    if x0 <? 0 then ret Exited else ret (Resumed x0)
  else ret TrapError.

(** [sys_mmap] with its arguments; [f] is the file of [fd], 0 for none, with
    its access modes. *)
Definition NOFILE : Z := 16.

Definition sys_mmap (addr length prot flags fd offset : Z) (f : Z) (readable writable : bool) : M (mstate F) Z :=
  let anon := has flags MAP_ANONYMOUS in
  let chk := if anon then if negb (fd =? -1) then Some (- EINVAL) else None
             else if (fd <? 0) || (NOFILE <=? fd) then Some (- EBADF) else if f =? 0 then Some (- EBADF) else None in
  match chk with
  | Some e => ret e
  | None =>
      let f := if anon then 0 else f in
      if Z.land flags (Z.lor MAP_PRIVATE MAP_SHARED) =? 0 then ret (- EINVAL) else
      if (s64 length <=? 0) || (s64 offset <? 0) then ret (- EINVAL) else
      if has flags MAP_FIXED && (addr =? 0) then ret (- EINVAL) else
      if negb anon && negb readable then ret (- EACCES) else
      if negb anon && has flags MAP_SHARED && has prot PROT_WRITE && negb writable then ret (- EACCES) else
      mmap addr length prot flags f (s64 offset)
  end.
End Mmap.

(** * Pages of a mapping, proved *)

Section Proofs.
Context {F : Type} {B : Backing F}.
Context (kend base pgdir : Z).
Hypothesis kend_ok : KERNBASE < kend < KERNBASE + PHYSTOP.
Hypothesis base_ok : 0 < base /\ base + HDR <= kend /\ base mod HDR = 0.

Definition kof (s : mstate F) : kstate := pages_of (hp s).
Definition set_k (k : kstate) (s : mstate F) : mstate F := set_hp (set_pages k (hp s)) s.

Lemma on_k_run {A} (m : M kstate A) s a k : m (kof s) = Ret a k -> on_k m s = Ret a (set_k k s).
Proof using. intros E. unfold on_k, on_h, on_pages, zoom. unfold kof in E. by rewrite E. Qed.

(** The pages from [a] on that were mapped anew. *)
Record loaded (T : gmap (list Z) Z) (l : list Z) (k : kstate) (T' : gmap (list Z) Z) (l' : list Z) (k' : kstate) (a n : Z) : Prop := {
  ld_vm : vm kend pgdir T' l' k';
  ld_leaves : leaves kend T' l' k';
  ld_ext : ext kend T l k T' l' k';
  ld_fresh : exists Fr, fresh_range kend T l k T' l' k' a n Fr;
  ld_free x : a <= x < a + 4096 * n -> valid_pte (pte_at T k x) = false;
  ld_zero x : a <= x < a + 4096 * n -> ub T' k' x = Some 0
}.

(** The address space is as it was, though tables may have been added. *)
Record unchanged (T : gmap (list Z) Z) (l : list Z) (k : kstate) (T' : gmap (list Z) Z) (l' : list Z) (k' : kstate) : Prop := {
  un_vm : vm kend pgdir T' l' k';
  un_leaves : leaves kend T' l' k';
  un_ext : ext kend T l k T' l' k';
  un_pte x : 0 <= x < USERTOP -> valid_pte (pte_at T' k' x) = true -> pte_at T' k' x = pte_at T k x;
  un_ub x : 0 <= x < USERTOP -> ub T' k' x = ub T k x
}.

Lemma ub_none T k x : valid_pte (pte_at T k x) = false -> ub T k x = None.
Proof using. intros H. unfold ub. by rewrite H. Qed.

(** What the other descriptors show stays. *)
Lemma ub_same T l k T' l' k' x :
  vm kend pgdir T l k -> leaves kend T l k -> ext kend T l k T' l' k' -> 0 <= x < USERTOP -> pte_at T' k' x = pte_at T k x -> ub T' k' x = ub T k x.
Proof using kend_ok.
  intros HV HL HE Hx Hp. destruct (ub T k x) as [b|] eqn:Eb; [by eapply (ub_ext kend kend_ok pgdir)|].
  unfold ub in *. rewrite Hp. by destruct (valid_pte (pte_at T k x)).
Qed.

Lemma v2p_inj p q : page kend p -> page kend q -> V2P p = V2P q -> p = q.
Proof using kend_ok.
  intros Hp Hq E. destruct (page_frame kend kend_ok p Hp) as (_ & _ & <-), (page_frame kend kend_ok q Hq) as (_ & _ & <-). by rewrite E.
Qed.

Lemma free_page T l k q : vm kend pgdir T l k -> q ∈ l -> page kend q.
Proof using. intros HV Hq. pose proof (inv_pages _ _ _ (vm_free_list _ _ _ _ _ HV)) as H. rewrite Forall_forall in H. by apply H. Qed.

Lemma leaves_fresh T l k T' l' k' a n Fr :
  leaves kend T l k -> ext kend T l k T' l' k' -> fresh_range kend T l k T' l' k' a n Fr -> a mod 4096 = 0 -> leaves kend T' l' k'.
Proof using kend_ok.
  intros HL HE [A1 A2 A3 A4] Ha. pose proof (Z.div_mod a 4096 ltac:(lia)) as Da.
  assert (forall x, a <= x < a + 4096 * n -> a / 4096 <= x / 4096 < a / 4096 + n) as Hin.
  { intros x Hx. pose proof (Z.div_mod x 4096 ltac:(lia)). pose proof (Z.mod_pos_bound x 4096 ltac:(lia)). lia. }
  split.
  - intros x Hx. rewrite A1 by done. case_decide as Hr.
    + destruct (A2 _ (Hin x Hr)) as (Hp & Hl & Hl' & _). intros _. exists (Fr (x / 4096)). destruct (udata_pte kend kend_ok _ Hp) as [_ ->].
      split; [done|]. split; [done|]. split; [done|]. intros Q t HQ E. by apply (A3 _ Q t (Hin x Hr) HQ).
    + intros Hv. destruct (lv_page _ _ _ _ HL x Hx Hv) as (q & Eq & Hq & Hql & Ht). exists q. split; [done|]. split; [done|].
      split; [intros Hc; apply Hql; by eapply ext_in|]. intros Q t HQ. destruct (ext_table _ _ _ _ _ _ _ _ _ HE HQ); [by eapply Ht|]. by intros ->.
  - assert (forall x y, a <= x < a + 4096 * n -> 0 <= y < USERTOP -> valid_pte (pte_at T k y) = true ->
      V2P (Fr (x / 4096)) <> PTE_ADDR (pte_at T k y)) as Hne.
    { intros x y Hx Hy Hv E. destruct (lv_page _ _ _ _ HL y Hy Hv) as (q & Eq & Hq & Hql & _). rewrite Eq in E.
      destruct (A2 _ (Hin x Hx)) as (Hp & Hl & _). apply v2p_inj in E; [|done|done]. by rewrite E in Hl. }
    intros x y Hx Hy. rewrite (A1 x), (A1 y) by done. destruct (decide (a <= x < a + 4096 * n)) as [Hrx|Hrx], (decide (a <= y < a + 4096 * n)) as [Hry|Hry].
    + destruct (A2 _ (Hin x Hrx)) as (Hpx & _), (A2 _ (Hin y Hry)) as (Hpy & _).
      destruct (udata_pte kend kend_ok _ Hpx) as [_ ->], (udata_pte kend kend_ok _ Hpy) as [_ ->]. intros _ _ E. unfold same_page.
      apply A4; [by apply Hin|by apply Hin|by apply v2p_inj].
    + destruct (A2 _ (Hin x Hrx)) as (Hpx & _). destruct (udata_pte kend kend_ok _ Hpx) as [_ ->]. intros _ Hv E. by apply Hne in E.
    + destruct (A2 _ (Hin y Hry)) as (Hpy & _). destruct (udata_pte kend kend_ok _ Hpy) as [_ ->]. intros Hv _ E. symmetry in E. by apply Hne in E.
    + apply (lv_inj _ _ _ _ HL); done.
Qed.

Lemma loaded_nil T l k a : vm kend pgdir T l k -> leaves kend T l k -> loaded T l k T l k a 0.
Proof using. intros HV HL. split; try done; [apply ext_refl|exists (fun _ => 0); apply fresh_nil|lia|lia]. Qed.

(** A page off the free list, cleared. *)
Lemma clear_page T l k :
  vm kend pgdir T l k ->
  match l with
  | [] => kalloc k = Ret 0 k
  | p :: l0 => exists k1 k2, kalloc k = Ret p k1 /\ zero_page p k1 = Ret tt k2 /\ (p =? 0) = false /\ page kend p /\ p ∉ l0 /\ rc k2 p = 1 /\
      vm kend pgdir T l0 k2 /\ ext kend T l k T l0 k2 /\ (forall x, pte_at T k2 x = pte_at T k x) /\
      (forall Q q, T !! Q = Some q -> p <> q) /\ (forall i, 0 <= i < 512 -> word (mem k2) (p + 8 * i) = 0)
  end.
Proof using kend_ok.
  intros HV. pose proof (kalloc_vm kend kend_ok l k (vm_free_list _ _ _ _ _ HV)) as Hk. destruct l as [|p l0]; [done|].
  destruct Hk as (k1 & Ek & HI & Em & Hp & Hpl & Hp0 & Hr1 & Hrc). destruct (zero_page_run p k1) as (m & Ez & Hz & Hf).
  destruct (kalloc_ext kend pgdir T p l0 k k1 HV HI Em Hrc) as (HV1 & HE1 & Hp1).
  assert (forall Q q, T !! Q = Some q -> p <> q) as Htab.
  { intros Q q HQ ->. destruct (vm_page _ _ _ _ _ HV _ _ HQ) as [_ Hn]. apply Hn. by left. }
  assert (forall q x, page kend q -> q <> p -> in_page q x -> word m x = word (mem k1) x) as Hkeep.
  { intros q x Hq Hne Hx. apply Hf. intros Hc. apply Hne. by eapply page_disjoint; [apply Hq|apply Hp| |]. }
  exists k1, (set_mem m k1). split; [done|]. split; [done|]. split; [by apply Z.eqb_neq|]. split; [done|]. split; [done|]. split; [done|].
  split; [|split; [|split; [|split; [done|done]]]].
  - apply (vm_frame kend pgdir T l0 k1); [done| |intros P q HP; by destruct (vm_page _ _ _ _ _ HV1 _ _ HP)|].
    + apply inv_mem; [done|]. intros q Hq. assert (page kend q) as Hpq by exact (free_page _ _ _ _ HV1 Hq).
      apply (Hkeep q); [done|by intros ->|unfold in_page, PGSIZE; lia].
    + intros P q x HP _ Hx. destruct (vm_page _ _ _ _ _ HV1 _ _ HP) as [Hq _]. apply (Hkeep q); [done| |done]. intros ->. by apply (Htab P p).
  - split; [done|by right|congruence| |apply HE1]. intros x HT Hx. cbn [mem set_mem]. rewrite Hf by (apply Hx; by left). by rewrite Em.
  - intros x. rewrite <- Hp1. unfold pte_at. destruct (T !! va_path x) as [t|] eqn:Et; [|done]. cbn [mem set_mem].
    destruct (vm_page _ _ _ _ _ HV1 _ _ Et) as [Ht _]. apply (Hkeep t); [done| |apply in_page_slot, level_idx_range; lia]. intros ->. by apply (Htab _ _ Et).
Qed.

(** [map_anon_page]: the page appears, with zeros, or nothing changes. *)
Lemma map_anon_page_run T l s a perm :
  vm kend pgdir T l (kof s) -> leaves kend T l (kof s) -> a mod 4096 = 0 -> 0 <= a -> a + 4096 <= USERTOP ->
  exists T' l' k' r, map_anon_page kend pgdir a perm s = Ret r (set_k k' s) /\
    (r = 0 /\ loaded T l (kof s) T' l' k' a 1 /\ (length l <= length l' + 4)%nat \/
     r < 0 /\ loaded T l (kof s) T' l' k' a 0 /\ (valid_pte (pte_at T (kof s) a) = true \/ (length l <= 4)%nat)).
Proof using kend_ok.
  intros HV HL Ha Ha0 Htop. unfold map_anon_page. pose proof (clear_page T l (kof s) HV) as Hc. destruct l as [|p l0].
  { exists T, [], (kof s), (- ENOMEM). rewrite (bind_run _ _ _ _ _ (on_k_run _ _ _ _ Hc)). split; [done|]. right. split; [done|]. split; [by apply loaded_nil|]. right. cbn. lia. }
  destruct Hc as (k1 & k2 & Ek & Ez & Hp0 & Hp & Hpl & Hr & HV2 & HE2 & Hp2 & Htab & Hz).
  rewrite (bind_run _ _ _ _ _ (on_k_run _ _ _ _ Ek)), Hp0.
  rewrite (bind_run _ _ _ _ _ (on_k_run _ (set_k k1 s) _ _ Ez)).
  destruct (map_page kend kend_ok pgdir T l0 k2 a p HV2 Ha Ha0 Htop Hp Hpl Htab) as (T3 & l3 & k3 & r & Em & HV3 & HE3 & Htab3 & Hcost & Hr3).
  rewrite (bind_run _ _ _ _ _ (on_k_run _ (set_k k2 s) _ _ Em)).
  assert (ext kend T (p :: l0) (kof s) T3 l3 k3) as HE by (by eapply ext_trans).
  destruct Hr3 as [(-> & Hv & Hm)|(-> & Hwhy & Hm)].
  - exists T3, l3, k3, 0. split; [done|]. left. split; [done|]. split; [|cbn; lia].
    assert (fresh_range kend T (p :: l0) (kof s) T3 l3 k3 a 1 (fun _ => p)) as HF.
    { split.
      - intros x Hx. rewrite Hm by done. rewrite Z.mul_1_r. by rewrite Hp2.
      - intros x _. split; [done|]. split; [by left|]. split; [intros Hc; apply Hpl; by eapply ext_in|]. by rewrite (ex_ref _ _ _ _ _ _ _ HE3).
      - intros x Q q _. by apply Htab3.
      - intros x y Hx Hy _. lia. }
    pose proof (Z.div_mod a 4096 ltac:(lia)) as Da. split; try done.
    + by eapply leaves_fresh.
    + by eexists.
    + intros x Hx. rewrite <- Hp2. rewrite (pte_same_page _ _ x a); [done|]. unfold same_page.
      pose proof (Z.div_mod x 4096 ltac:(lia)). pose proof (Z.mod_pos_bound x 4096 ltac:(lia)). lia.
    + intros x Hx. unfold ub. rewrite Hm, decide_True by (unfold USERTOP in *; lia). destruct (udata_pte kend kend_ok p Hp) as [-> ->].
      destruct (page_frame kend kend_ok p Hp) as (_ & _ & ->). f_equal. unfold byte_at.
      pose proof (Z.mod_pos_bound x 4096 ltac:(lia)) as Hx4. destruct (word_in_page kend p x Hp) as [Hi1 Hi2]. set (y := p + x mod 4096) in *.
      assert (exists i, 0 <= i < 512 /\ y - y mod 8 = p + 8 * i) as (i & Hi & ->).
      { destruct Hp as [Hpm _]. unfold PGSIZE in *. pose proof (Z.div_mod p 4096 ltac:(lia)). pose proof (Z.div_mod y 8 ltac:(lia)).
        exists (y / 8 - 512 * (p / 4096)). lia. }
      rewrite (ex_mem _ _ _ _ _ _ _ HE3).
      * rewrite Hz by done. unfold byte_in. by rewrite Z.shiftr_0_l.
      * intros Q q HQ Hc. apply (Htab Q q HQ). destruct (vm_page _ _ _ _ _ HV2 _ _ HQ) as [Hq _].
        eapply page_disjoint; [apply Hp|apply Hq| |exact Hc]. by apply in_page_slot.
      * intros q Hq Hc. assert (page kend q) as Hpq by exact (free_page _ _ _ _ HV2 Hq).
        assert (p = q) as ->; [|done]. eapply page_disjoint; [apply Hp|apply Hpq| |exact Hc]. by apply in_page_slot.
  - destruct (give_back kend kend_ok pgdir T (p :: l0) (kof s) T3 l3 k3 p HV3 HE Hp ltac:(by left)) as (k4 & Ef & HV4 & HE4 & Hp4); [|done|].
    { intros Hc. apply Hpl. by eapply ext_in. }
    exists T3, (p :: l3), k4, (- EINVAL). split.
    { change (- EINVAL <? 0) with true. cbv iota. by rewrite (bind_run _ _ _ _ _ (on_k_run _ (set_k k3 s) _ _ Ef)). }
    right. split; [done|]. split.
    2:{ destruct Hwhy as [Hv| ->]; [left; by rewrite <- Hp2|right; cbn in *; lia]. }
    assert (forall x, 0 <= x < USERTOP -> pte_at T3 k4 x = pte_at T (kof s) x) as Hpte.
    { intros x Hx. by rewrite Hp4, Hm, Hp2. }
    split; [done|by eapply leaves_ext|done| |lia|lia]. exists (fun _ => 0). split; [|lia|lia|lia]. intros x Hx. rewrite decide_False by lia. by apply Hpte.
Qed.

Lemma udata_flags q : page kend q -> Z.land (PTE_FLAGS (Z.lor (V2P q) PTE_UDATA)) 3 = 3.
Proof using kend_ok.
  intros Hq. destruct (page_frame kend kend_ok q Hq) as (Hm & Hr & _). unfold PTE_FLAGS. change PTE_UDATA with 1863.
  rewrite u64_id by (rewrite lor_flags by (done || lia); lia). rewrite <- Z.land_assoc. change (Z.land 0xFFFF000000000FFF 3) with (Z.ones 2).
  rewrite Z.land_lor_distr_l, (Z.land_ones (V2P q)) by lia. replace (V2P q mod 2 ^ 2) with 0; [done|].
  pose proof (Z.div_mod (V2P q) 4096 ltac:(lia)). apply (Z.mod_unique _ _ (1024 * (V2P q / 4096))); lia.
Qed.

(** The pages of a range are mapped and counted. *)
Definition held (T : gmap (list Z) Z) (k : kstate) (a n : Z) : Prop := forall j, 0 <= j < n -> unmappable kend T k (a + 4096 * j).

Lemma fresh_held T l k T' l' k' a n Fr :
  fresh_range kend T l k T' l' k' a n Fr -> a mod 4096 = 0 -> 0 <= a -> a + 4096 * n <= USERTOP -> held T' k' a n.
Proof using kend_ok.
  intros [A1 A2 _ _] Ha Ha0 Htop j Hj. pose proof (Z.div_mod a 4096 ltac:(lia)) as Da.
  assert ((a + 4096 * j) / 4096 = a / 4096 + j) as Ed by (rewrite (Z.mul_comm 4096), Z.div_add; lia).
  destruct (A2 (a / 4096 + j) ltac:(lia)) as (Hp & _ & _ & Hr). unfold unmappable. rewrite A1, decide_True, Ed by lia.
  destruct (udata_pte kend kend_ok _ Hp) as [Hv Ep]. split; [done|]. split; [by apply udata_flags|]. rewrite Ep. intros q Eq Hq.
  apply v2p_inj in Eq as <-; [|done|done]. rewrite Hr. lia.
Qed.

Lemma loaded_app T l k T1 l1 k1 T2 l2 k2 a n j :
  a mod 4096 = 0 -> 0 <= a -> 0 <= n -> 0 <= j -> a + 4096 * (n + j) <= USERTOP ->
  loaded T l k T1 l1 k1 a n -> loaded T1 l1 k1 T2 l2 k2 (a + 4096 * n) j -> loaded T l k T2 l2 k2 a (n + j).
Proof using kend_ok.
  intros Ha Ha0 Hn Hj Htop [V1 L1 E1 [F1 R1] N1 Z1] [V2 L2 E2 [F2 R2] N2 Z2]. split; [done|done|by eapply ext_trans| | |].
  - eexists. eapply fresh_app; [done|done|done|exact E1|exact E2|exact R1|exact R2].
  - intros x Hx. destruct (decide (x < a + 4096 * n)); [apply N1; lia|]. rewrite <- (N2 x) by lia.
    rewrite (fr_pte _ _ _ _ _ _ _ _ _ _ R1) by lia. by rewrite decide_False by lia.
  - intros x Hx. destruct (decide (x < a + 4096 * n)); [|apply Z2; lia]. rewrite <- (Z1 x) by lia.
    eapply ub_same; [exact V1|exact L1|exact E2|lia|]. rewrite (fr_pte _ _ _ _ _ _ _ _ _ _ R2) by lia. by rewrite decide_False by lia.
Qed.

(** Unmapping mapped pages, with what it leaves alone. *)
Lemma unmap_run T l s a n :
  vm kend pgdir T l (kof s) -> leaves kend T l (kof s) -> a mod 4096 = 0 -> 0 <= a -> 0 <= n -> a + 4096 * n <= USERTOP -> held T (kof s) a n ->
  exists l' k', on_k (uvm_unmap kend pgdir a n) s = Ret tt (set_k k' s) /\ vm kend pgdir T l' k' /\ leaves kend T l' k' /\
    (forall x, 0 <= x < USERTOP -> pte_at T k' x = if decide (a <= x < a + 4096 * n) then 0 else pte_at T (kof s) x) /\
    (forall q, page kend q -> q ∈ l' <-> q ∈ l \/ exists j, 0 <= j < n /\ PTE_ADDR (pte_at T (kof s) (a + 4096 * j)) = V2P q /\ rc (kof s) q = 1) /\
    (forall x, 0 <= x < USERTOP -> ub T k' x = if decide (a <= x < a + 4096 * n) then None else ub T (kof s) x) /\
    (forall x, (forall Q p, T !! Q = Some p -> ~ in_page p x) -> (forall p, p ∈ l' -> ~ in_page p x) -> word (mem k') x = word (mem (kof s)) x) /\
    (forall p, page kend p -> (forall j, 0 <= j < n -> PTE_ADDR (pte_at T (kof s) (a + 4096 * j)) <> V2P p) -> rc k' p = rc (kof s) p).
Proof using kend_ok.
  intros HV HL Ha Ha0 Hn Htop Hh. rewrite <- (Z2Nat.id n) in * by done. set (m := Z.to_nat n) in *.
  destruct (unmap_loop_run kend kend_ok pgdir T m m l (kof s) a HV HL Ha Ha0 Htop (Nat.le_refl m) Hh) as (l' & k' & E & HV' & HL' & Hp & Hl & Hu & Hm & Hc).
  exists l', k'. split; [|split; [done|split; [done|split; [done|split; [done|split; [|done]]]]]].
  - apply on_k_run. unfold uvm_unmap. change PGSIZE with 4096. unfold USERTOP in Htop. rewrite Ha, u64_id by lia. cbn [Z.eqb negb].
    replace (a + Z.of_nat m * 4096) with (a + 4096 * Z.of_nat m) by lia. by rewrite Nat2Z.id.
  - intros x Hx. case_decide as Hr.
    + unfold ub. by rewrite Hp, decide_True.
    + destruct (ub T (kof s) x) as [b|] eqn:Eb; [by apply Hu|]. unfold ub in *. rewrite Hp, decide_False by done. by destruct (valid_pte (pte_at T (kof s) x)).
Qed.

(** Undoing the pages mapped so far restores the address space. *)
Lemma undo_run T l k0 T1 l1 s a n :
  vm kend pgdir T l k0 -> leaves kend T l k0 -> a mod 4096 = 0 -> 0 <= a -> 0 <= n -> a + 4096 * n <= USERTOP ->
  loaded T l k0 T1 l1 (kof s) a n ->
  exists l2 k2, undo kend pgdir a (4096 * n) s = Ret tt (set_k k2 s) /\ unchanged T l k0 T1 l2 k2.
Proof using kend_ok.
  intros HV HL Ha Ha0 Hn Htop [V1 L1 E1 [F1 R1] N1 Z1]. unfold undo. destruct (Z.eqb_spec (4096 * n) 0) as [E0|E0]; cbn [negb when].
  - assert (n = 0) as -> by lia. exists l1, (kof s). split; [by destruct s as [[]]|].
    assert (forall x, 0 <= x < USERTOP -> pte_at T1 (kof s) x = pte_at T k0 x) as Hp.
    { intros x Hx. rewrite (fr_pte _ _ _ _ _ _ _ _ _ _ R1) by done. by rewrite decide_False by lia. }
    split; [done|done|done|auto|]. intros x Hx. eapply ub_same; [exact HV|exact HL|exact E1|done|auto].
  - change PGSIZE with 4096. rewrite (Z.mul_comm 4096 n), Z.div_mul by lia.
    destruct (unmap_run T1 l1 s a n V1 L1 Ha Ha0 Hn Htop) as (l2 & k2 & E & V2 & L2 & Hp & Hl & Hu & Hm & Hc); [by eapply fresh_held|].
    assert (forall j, 0 <= j < n -> PTE_ADDR (pte_at T1 (kof s) (a + 4096 * j)) = V2P (F1 (a / 4096 + j)) /\ page kend (F1 (a / 4096 + j)) /\ F1 (a / 4096 + j) ∈ l) as Hfr.
    { intros j Hj. destruct (fr_page _ _ _ _ _ _ _ _ _ _ R1 (a / 4096 + j) ltac:(lia)) as (Hpg & Hin & _).
      rewrite (fr_pte _ _ _ _ _ _ _ _ _ _ R1), decide_True by lia. rewrite (Z.mul_comm 4096), Z.div_add by lia.
      destruct (udata_pte kend kend_ok _ Hpg) as [_ ->]. done. }
    assert (forall q, q ∈ l2 -> q ∈ l) as Hl2.
    { intros q Hq. assert (page kend q) as Hpq by exact (free_page _ _ _ _ V2 Hq).
      apply Hl in Hq; [|done]. destruct Hq as [Hq|(j & Hj & Ej & _)]; [by eapply ext_in|]. destruct (Hfr j Hj) as (E3 & Hp3 & Hin). rewrite E3 in Ej. by apply v2p_inj in Ej as <-. }
    exists l2, k2. split; [exact E|]. split; [done|done| | |].
    + split; [apply E1|done|apply E1| |].
      * intros x HT Hx. rewrite Hm; [by apply E1| |intros p Hp2; apply Hx; auto].
        intros Q q HQ. destruct (ext_table _ _ _ _ _ _ _ _ _ E1 HQ); [by eapply HT|by apply Hx].
      * intros p Hp2 Hpl. rewrite Hc, (ex_ref _ _ _ _ _ _ _ E1); [done|done|done|done|].
        intros j Hj Ej. destruct (Hfr j Hj) as (E3 & Hp3 & Hin). rewrite E3 in Ej. apply v2p_inj in Ej as <-; [|done|done]. done.
    + intros x Hx. rewrite Hp by done. case_decide as Hr; [done|]. intros _. rewrite (fr_pte _ _ _ _ _ _ _ _ _ _ R1) by done. by rewrite decide_False.
    + intros x Hx. rewrite Hu by done. case_decide as Hr; [symmetry; apply ub_none; by apply N1|].
      eapply ub_same; [exact HV|exact HL|exact E1|done|]. rewrite (fr_pte _ _ _ _ _ _ _ _ _ _ R1) by done. by rewrite decide_False.
Qed.

(** The number of pages of [length] bytes. *)
Definition npages (length : Z) : Z := (length + 4095) / 4096.

Lemma npages_bounds length : 0 < length -> 0 < npages length /\ length <= 4096 * npages length < length + 4096.
Proof using.
  intros H. unfold npages. pose proof (Z.div_mod (length + 4095) 4096 ltac:(lia)). pose proof (Z.mod_pos_bound (length + 4095) 4096 ltac:(lia)). lia.
Qed.

Lemma roundup_npages length : 0 <= length -> length + 4096 < 2 ^ 64 -> ROUNDUP length PGSIZE = 4096 * npages length.
Proof using.
  intros H Ht. unfold ROUNDUP, ROUNDDOWN, npages, PGSIZE. rewrite u64_id by lia. replace (length + 4096 - 1) with (length + 4095) by lia.
  pose proof (Z.div_mod (length + 4095) 4096 ltac:(lia)). lia.
Qed.

Lemma map_anon_pages_run T l k0 addr length perm :
  vm kend pgdir T l k0 -> leaves kend T l k0 -> addr mod 4096 = 0 -> 0 <= addr -> 0 < length -> addr + 4096 * npages length <= USERTOP ->
  forall fuel n s T1 l1, loaded T l k0 T1 l1 (kof s) addr n -> 0 <= n <= npages length -> npages length - n <= Z.of_nat fuel ->
  Z.of_nat (List.length l) <= Z.of_nat (List.length l1) + 4 * n ->
  exists T' l' k' r, map_anon_pages kend pgdir fuel addr length perm (4096 * n) s = Ret r (set_k k' s) /\
    (r = 0 /\ loaded T l k0 T' l' k' addr (npages length) \/
     r < 0 /\ unchanged T l k0 T' l' k' /\
       ((exists x, addr <= x < addr + 4096 * npages length /\ valid_pte (pte_at T k0 x) = true) \/ Z.of_nat (List.length l) <= 4 * npages length)).
Proof using kend_ok.
  intros HV HL Ha Ha0 Hlen Htop. destruct (npages_bounds length Hlen) as [Hn0 HN]. set (N := npages length) in *.
  induction fuel as [|fuel IH]; intros n s T1 l1 Hld Hn Hf Hfree; cbn [map_anon_pages]; destruct (Z.ltb_spec (4096 * n) length) as [Hlt|Hge]; [lia| | |].
  1, 3: assert (n = N) as -> by lia; exists T1, l1, (kof s), 0; split; [by destruct s as [[]]|by left].
  unfold USERTOP in Htop. rewrite u64_id by lia.
  destruct (map_anon_page_run T1 l1 s (addr + 4096 * n) perm) as (T2 & l2 & k2 & r & E & Hr); [apply Hld|apply Hld| |lia|unfold USERTOP; lia|].
  { rewrite Zplus_mod, Ha, Z.mul_comm, Z.mod_mul; [done|lia]. }
  rewrite (bind_run _ _ _ _ _ E). destruct Hr as [(-> & H2 & Hc)|(Hr & H2 & Hwhy)].
  - cbn [Z.ltb Z.compare]. change PGSIZE with 4096. rewrite u64_id by lia. replace (4096 * n + 4096) with (4096 * (n + 1)) by lia.
    destruct (IH (n + 1) (set_k k2 s) T2 l2) as (T' & l' & k' & r & E' & H'); [|lia|lia|lia|by exists T', l', k', r].
    eapply loaded_app; [done|done|lia|lia|unfold USERTOP; lia|exact Hld|exact H2].
  - destruct (Z.ltb_spec r 0); [|lia].
    destruct (undo_run T l k0 T2 l2 (set_k k2 s) addr n HV HL Ha Ha0 ltac:(lia) ltac:(unfold USERTOP; lia)) as (l3 & k3 & E3 & H3).
    { replace n with (n + 0) by lia. eapply loaded_app; [done|done|lia|lia|unfold USERTOP; lia|exact Hld|exact H2]. }
    rewrite (bind_run _ _ _ _ _ E3). exists T2, l3, k3, r. split; [done|]. right. split; [done|]. split; [done|].
    destruct Hwhy as [Hv|Hv]; [left|right; lia]. exists (addr + 4096 * n). split; [lia|]. destruct (ld_fresh _ _ _ _ _ _ _ _ Hld) as [F1 R1].
    rewrite (fr_pte _ _ _ _ _ _ _ _ _ _ R1), decide_False in Hv; [done|lia|unfold USERTOP; lia].
Qed.

(** * Memory: the heap and the page tables *)

(** The heap of [Kmalloc] and the tables of [Vm] over one list of free pages:
    neither the tables nor the pages of the process are in the heap. *)
Record space (T : gmap (list Z) Z) (fl al : list (Z * Z)) (pgs l : list Z) (h : hstate) : Prop := {
  sp_heap : kheap kend base fl al pgs l h;
  sp_vm : vm kend pgdir T l (pages_of h);
  sp_leaves : leaves kend T l (pages_of h);
  sp_tables Q q : T !! Q = Some q -> q ∉ pgs;
  sp_frames x q : 0 <= x < USERTOP -> valid_pte (pte_at T (pages_of h) x) = true -> PTE_ADDR (pte_at T (pages_of h) x) = V2P q -> page kend q -> q ∉ pgs
}.

(** What the process sees, and what it holds. *)
Record same_user (T : gmap (list Z) Z) (k : kstate) (T' : gmap (list Z) Z) (k' : kstate) (P : Z -> Prop) : Prop := {
  su_ub x : 0 <= x < USERTOP -> P x -> ub T' k' x = ub T k x;
  su_held x : 0 <= x < USERTOP -> P x -> unmappable kend T k x -> unmappable kend T' k' x
}.

Lemma kheap_own fl al pgs l h : kheap kend base fl al pgs l h -> NoDup pgs /\ Forall (page kend) pgs /\ (forall p, p ∈ pgs -> p ∉ l).
Proof using.
  intros [H|(_ & _ & _ & -> & _)]; [apply H|]. split; [constructor|]. split; [constructor|]. by intros p ?%elem_of_nil.
Qed.

(** The page of [x] decides. *)
Lemma other_page p q x : page kend p -> page kend q -> p <> q -> in_page p x -> ~ in_page q x.
Proof using. intros Hp Hq Hne Hx Hc. apply Hne. by eapply page_disjoint; [apply Hp|apply Hq| |]. Qed.

(** An operation of the heap does not change what the process sees. *)
Lemma heap_op T fl al pgs l h fl' al0 al' pgs' l' h' :
  space T fl al pgs l h -> heap kend base fl' al' pgs' l' h' -> kept kend base al0 pgs' h h' ->
  (forall q, q ∈ pgs' -> q ∈ pgs \/ q ∈ l) -> (forall q, q ∈ l' -> q ∈ l) ->
  space T fl' al' pgs' l' h' /\ same_user T (pages_of h) T (pages_of h') (fun _ => True).
Proof using kend_ok base_ok.
  intros [Hh HV HL Ht Hf] H' [Km Kr] Hpg Hl'. destruct (hp_own _ _ _ _ _ _ _ H') as (_ & Hpp & _). rewrite Forall_forall in Hpp.
  assert (forall p x, page kend p -> p ∉ pgs' -> in_page p x -> word (hmem h') x = word (hmem h) x) as Hw.
  { intros p x Hp Hn Hx. apply Km. right. pose proof base_ok as (_ & Hb & _). unfold HDR in Hb. destruct Hp as [Hpm Hpr]. unfold in_page in Hx.
    split; [lia|]. split; [lia|]. intros q Hq. apply (other_page p q); [done|by apply Hpp|by intros ->|done]. }
  assert (forall Q q, T !! Q = Some q -> page kend q /\ q ∉ pgs') as HT.
  { intros Q q HQ. destruct (vm_page _ _ _ _ _ HV _ _ HQ) as [Hq Hn]. split; [done|]. intros Hc. destruct (Hpg q Hc); [by eapply Ht|done]. }
  assert (forall x, pte_at T (pages_of h') x = pte_at T (pages_of h) x) as Hpte.
  { intros x. unfold pte_at. destruct (T !! va_path x) as [t|] eqn:Et; [|done]. destruct (HT _ _ Et) as [Htp Htn].
    apply (Hw t); [done|done|]. apply in_page_slot, level_idx_range. lia. }
  assert (forall x q, 0 <= x < USERTOP -> valid_pte (pte_at T (pages_of h) x) = true -> PTE_ADDR (pte_at T (pages_of h) x) = V2P q -> page kend q -> q ∉ pgs') as Hfr.
  { intros x q Hx Hv Eq Hq Hc. destruct (Hpg q Hc) as [Hc'|Hc']; [by eapply Hf|]. destruct (lv_page _ _ _ _ HL x Hx Hv) as (q' & Eq' & Hq' & Hn & _).
    rewrite Eq in Eq'. apply v2p_inj in Eq' as <-; done. }
  split.
  - split; [by left| | | |].
    + apply (vm_frame kend pgdir T l (pages_of h)); [done|apply H'|intros P q HP Hc; destruct (vm_page _ _ _ _ _ HV _ _ HP) as [_ Hn]; auto|].
      intros P q x HP _ Hx. destruct (HT _ _ HP). by apply (Hw q).
    + split.
      * intros x Hx. rewrite Hpte. intros Hv. destruct (lv_page _ _ _ _ HL x Hx Hv) as (q & Eq & Hq & Hn & Hq'). exists q. split; [done|]. split; [done|]. split; [auto|done].
      * intros x y Hx Hy. rewrite !Hpte. by apply (lv_inj _ _ _ _ HL).
    + intros Q q HQ. by eapply HT.
    + intros x q Hx. rewrite Hpte. by apply Hfr.
  - split.
    + intros x Hx _. unfold ub. rewrite Hpte. destruct (valid_pte (pte_at T (pages_of h) x)) eqn:Ev; [|done]. f_equal.
      destruct (lv_page _ _ _ _ HL x Hx Ev) as (q & Eq & Hq & Hn & Hq'). rewrite Eq. destruct (page_frame kend kend_ok q Hq) as (_ & _ & ->).
      unfold byte_at. f_equal. apply (Hw q); [done|by eapply Hfr|by apply (word_in_page kend)].
    + intros x Hx _ (Hv & Hfl & Hr). unfold unmappable. rewrite Hpte. split; [done|]. split; [done|]. intros q Eq Hq. rewrite Kr; [by apply Hr|done|by eapply Hfr].
Qed.

Lemma heap_frame fl al pgs l h l' k' :
  kheap kend base fl al pgs l h -> inv kend l' k' -> (forall p, p ∈ pgs -> p ∉ l') ->
  (forall x, x = base \/ x = base + 8 \/ (exists p, p ∈ pgs /\ in_page p x) -> word (mem k') x = word (hmem h) x) ->
  kheap kend base fl al pgs l' (set_pages k' h).
Proof using kend_ok base_ok.
  intros [H|(Ef & -> & -> & -> & _)] HI Hl Hw; [left|by right].
  assert (forall b x, b ∈ fl ++ al -> b.1 <= x < b.1 + HDR * b.2 -> word (mem k') x = word (hmem h) x) as Hblk.
  { intros b x Hb Hx. destruct (block_in_pages _ _ b x (hp_units _ _ _ _ _ _ _ H) Hb Hx) as (p & Hp & Hin & _). apply Hw. right. right. by exists p. }
  pose proof (hp_pos _ _ _ _ _ _ _ H) as Hpos. rewrite Forall_forall in Hpos.
  destruct (hp_own _ _ _ _ _ _ _ H) as (O1 & O2 & _). constructor; [done|done|apply H|apply H|apply H| |apply H|].
  - eapply seg_frame; [|apply H]. intros b [->|Hb]%elem_of_cons; [split; apply Hw; cbn; auto|].
    assert (b ∈ fl ++ al) as Hb' by set_solver. pose proof (Hpos b Hb'). unfold HDR in *. cbn in *. split; apply (Hblk b); (done || lia).
  - pose proof (hp_held _ _ _ _ _ _ _ H) as Hh. rewrite Forall_forall in *. intros b Hb. rewrite <- (Hh b Hb).
    assert (b ∈ fl ++ al) as Hb' by set_solver. pose proof (Hpos b Hb'). unfold HDR in *. cbn in *. apply (Hblk b); (done || lia).
Qed.

(** An operation of the page tables does not change the heap. *)
Lemma table_op T fl al pgs l h T' l' k' :
  space T fl al pgs l h -> vm kend pgdir T' l' k' -> leaves kend T' l' k' ->
  (forall Q q, T' !! Q = Some q -> T !! Q = Some q \/ q ∈ l) ->
  (forall q, q ∈ l' -> q ∈ l \/ exists x, 0 <= x < USERTOP /\ valid_pte (pte_at T (pages_of h) x) = true /\ PTE_ADDR (pte_at T (pages_of h) x) = V2P q) ->
  (forall x, 0 <= x < USERTOP -> valid_pte (pte_at T' k' x) = true -> pte_at T' k' x = pte_at T (pages_of h) x \/ exists q, PTE_ADDR (pte_at T' k' x) = V2P q /\ page kend q /\ q ∈ l) ->
  (forall x, (forall Q q, T !! Q = Some q -> ~ in_page q x) -> (forall q, q ∈ l \/ q ∈ l' -> ~ in_page q x) -> word (mem k') x = word (hmem h) x) ->
  space T' fl al pgs l' (set_pages k' h).
Proof using kend_ok base_ok.
  intros [Hh HV HL Ht Hf] HV' HL' HT Hl' Hpte Hmem. destruct (kheap_own _ _ _ _ _ Hh) as (_ & Hpp & Hpl). rewrite Forall_forall in Hpp.
  assert (forall p, p ∈ pgs -> p ∉ l') as Hn.
  { intros p Hp Hc. destruct (Hl' p Hc) as [Hc'|(x & Hx & Hv & E)]; [by eapply Hpl|]. by apply (Hf x p Hx Hv E); [apply Hpp|]. }
  split; [|done|done| |].
  - apply (heap_frame _ _ _ l); [done|apply HV'|done|]. intros x Hx. apply Hmem.
    + intros Q q HQ. destruct (vm_page _ _ _ _ _ HV _ _ HQ) as [Hq _]. destruct Hx as [->|[->|(p & Hp & Hin)]].
      1, 2: destruct Hq as [_ Hq]; pose proof base_ok as (_ & Hb & _); unfold in_page, HDR in *; lia.
      apply (other_page p q); [by apply Hpp|done| |done]. intros ->. by apply (Ht _ _ HQ).
    + intros q Hq. assert (page kend q) as Hpq by (destruct Hq; [by eapply (free_page T l)|by eapply (free_page T' l')]).
      destruct Hx as [->|[->|(p & Hp & Hin)]].
      1, 2: destruct Hpq as [_ Hpq]; pose proof base_ok as (_ & Hb & _); unfold in_page, HDR in *; lia.
      apply (other_page p q); [by apply Hpp|done| |done]. intros ->. destruct Hq; [by eapply Hpl|by eapply Hn].
  - intros Q q HQ. destruct (HT Q q HQ) as [HQ'|Hq]; [by eapply Ht|]. intros Hc. by eapply Hpl.
  - intros x q Hx Hv Eq Hq. cbn [pages_of set_pages] in *. destruct (Hpte x Hx Hv) as [E|(q' & E & Hq' & Hl)].
    + rewrite E in Hv, Eq. by eapply Hf.
    + rewrite Eq in E. apply v2p_inj in E as <-; [|done|done]. intros Hc. by eapply Hpl.
Qed.

Lemma held_ext T l k T' l' k' x :
  leaves kend T l k -> ext kend T l k T' l' k' -> 0 <= x < USERTOP -> pte_at T' k' x = pte_at T k x -> unmappable kend T k x -> unmappable kend T' k' x.
Proof using kend_ok.
  intros HL HE Hx Hp (Hv & Hfl & Hr). unfold unmappable. rewrite Hp. split; [done|]. split; [done|]. intros q Eq Hq.
  rewrite (ex_ref _ _ _ _ _ _ _ HE); [by apply Hr|done|]. destruct (lv_page _ _ _ _ HL x Hx Hv) as (q' & Eq' & Hq' & Hn & _).
  rewrite Eq in Eq'. by apply v2p_inj in Eq' as <-.
Qed.

Lemma space_loaded T fl al pgs l h T' l' k' a n :
  space T fl al pgs l h -> loaded T l (pages_of h) T' l' k' a n -> a mod 4096 = 0 -> 0 <= a -> a + 4096 * n <= USERTOP ->
  space T' fl al pgs l' (set_pages k' h) /\ same_user T (pages_of h) T' k' (fun x => ~ a <= x < a + 4096 * n).
Proof using kend_ok base_ok.
  intros HS [V1 L1 E1 [F1 R1] N1 Z1] Ha Ha0 Htop. pose proof (Z.div_mod a 4096 ltac:(lia)) as Da.
  assert (forall x, 0 <= x < USERTOP -> ~ a <= x < a + 4096 * n -> pte_at T' k' x = pte_at T (pages_of h) x) as Hp.
  { intros x Hx Hr. rewrite (fr_pte _ _ _ _ _ _ _ _ _ _ R1) by done. by rewrite decide_False. }
  split.
  - apply (table_op T fl al pgs l); [done|done|done| | | |].
    + intros Q q HQ. by eapply ext_table.
    + intros q Hq. left. by eapply ext_in.
    + intros x Hx Hv. destruct (decide (a <= x < a + 4096 * n)) as [Hr|Hr]; [right|left; by apply Hp].
      pose proof (Z.div_mod x 4096 ltac:(lia)). pose proof (Z.mod_pos_bound x 4096 ltac:(lia)).
      destruct (fr_page _ _ _ _ _ _ _ _ _ _ R1 (x / 4096) ltac:(lia)) as (Hpg & Hin & _). exists (F1 (x / 4096)).
      rewrite (fr_pte _ _ _ _ _ _ _ _ _ _ R1), decide_True by done. by destruct (udata_pte kend kend_ok _ Hpg) as [_ ->].
    + intros x HT Hx. apply (ex_mem _ _ _ _ _ _ _ E1); auto.
  - split; intros x Hx Hr.
    + eapply ub_same; [apply HS|apply HS|exact E1|done|by apply Hp].
    + eapply held_ext; [apply HS|exact E1|done|by apply Hp].
Qed.

Lemma space_unchanged T fl al pgs l h T' l' k' :
  space T fl al pgs l h -> unchanged T l (pages_of h) T' l' k' ->
  space T' fl al pgs l' (set_pages k' h) /\ same_user T (pages_of h) T' k' (fun _ => True).
Proof using kend_ok base_ok.
  intros HS [V1 L1 E1 P1 U1]. split.
  - apply (table_op T fl al pgs l); [done|done|done| | | |].
    + intros Q q HQ. by eapply ext_table.
    + intros q Hq. left. by eapply ext_in.
    + intros x Hx Hv. left. by apply P1.
    + intros x HT Hx. apply (ex_mem _ _ _ _ _ _ _ E1); auto.
  - split; intros x Hx _; [by apply U1|]. intros Hu. eapply held_ext; [apply HS|exact E1|done| |done]. apply P1; [done|].
    specialize (U1 x Hx). destruct Hu as [Hv _]. unfold ub in U1. rewrite Hv in U1. by destruct (valid_pte (pte_at T' k' x)).
Qed.

(** Unmapping the pages of a range. *)
Lemma space_unmap T fl al pgs l s a n :
  space T fl al pgs l (hp s) -> a mod 4096 = 0 -> 0 <= a -> 0 <= n -> a + 4096 * n <= USERTOP -> held T (kof s) a n ->
  exists l' k', on_k (uvm_unmap kend pgdir a n) s = Ret tt (set_k k' s) /\ space T fl al pgs l' (set_pages k' (hp s)) /\
    same_user T (kof s) T k' (fun x => ~ a <= x < a + 4096 * n) /\ (forall x, a <= x < a + 4096 * n -> ub T k' x = None) /\
    (forall q, page kend q -> q ∈ l' <-> q ∈ l \/ exists j, 0 <= j < n /\ PTE_ADDR (pte_at T (kof s) (a + 4096 * j)) = V2P q /\ rc (kof s) q = 1).
Proof using kend_ok base_ok.
  intros HS Ha Ha0 Hn Htop Hh. unfold kof in *.
  destruct (unmap_run T l s a n (sp_vm _ _ _ _ _ _ HS) (sp_leaves _ _ _ _ _ _ HS) Ha Ha0 Hn Htop Hh) as (l' & k' & E & HV & HL & Hp & Hl & Hu & Hm & Hc).
  unfold kof in *. exists l', k'. split; [exact E|].
  assert (forall q, q ∈ l -> q ∈ l') as Hsub by (intros q Hq; apply Hl; [by eapply (free_page T l); [apply HS|]|by left]).
  split; [|split; [|split; [|done]]].
  - apply (table_op T fl al pgs l); [done|done|done|auto| | |].
    + intros q Hq. apply Hl in Hq as [Hq|(j & Hj & Ej & _)]; [by left| |by eapply (free_page T l')]. right. exists (a + 4096 * j).
      split; [unfold USERTOP in *; lia|]. split; [apply Hh; lia|done].
    + intros x Hx. rewrite Hp by done. case_decide; [done|]. by left.
    + intros x HT Hx. apply Hm; [done|]. intros q Hq. apply Hx. by right.
  - split; intros x Hx Hr; [rewrite Hu by done; by rewrite decide_False|]. intros (Hv & Hfl & Hrc). unfold unmappable. rewrite Hp, decide_False by done.
    split; [done|]. split; [done|]. intros q Eq Hq. rewrite Hc; [by apply Hrc|done|]. intros j Hj Ej.
    assert (same_page (a + 4096 * j) x) as Hs.
    { apply (lv_inj _ _ _ _ (sp_leaves _ _ _ _ _ _ HS)); [unfold USERTOP in *; lia|done|by apply Hh|done|]. by rewrite Ej, Eq. }
    unfold same_page in Hs. pose proof (Z.div_mod a 4096 ltac:(lia)). rewrite (Z.mul_comm 4096), Z.div_add in Hs by lia.
    pose proof (Z.div_mod x 4096 ltac:(lia)). pose proof (Z.mod_pos_bound x 4096 ltac:(lia)). lia.
  - intros x Hx. rewrite Hu by (unfold USERTOP in *; lia). by rewrite decide_True.
Qed.

(** The units of a node's block: three for the fields and one for the header. *)
Definition NODE_UNITS : Z := 4.

Lemma kmalloc_space T fl al pgs l h :
  space T fl al pgs l h ->
  exists N r h' fl' al' pgs' l', (forall f, (N <= f)%nat -> kmalloc base f NODE_SIZE h = Ret r h') /\ space T fl' al' pgs' l' h' /\
    same_user T (pages_of h) T (pages_of h') (fun _ => True) /\
    (r = 0 /\ al' = al /\ l = [] \/ (exists q, r = q + HDR /\ r <> 0 /\ al' = (q, NODE_UNITS) :: al) /\ (length l <= length l' + 1)%nat).
Proof using kend_ok base_ok.
  intros HS. destruct (kmalloc_run kend base kend_ok base_ok fl al pgs l h NODE_SIZE (sp_heap _ _ _ _ _ _ HS)) as (N & r & h' & HN & t & fl' & l' & El & Hk & Hr & _ & Hone).
  { unfold NODE_SIZE, PGSIZE. lia. }
  destruct Hone as [Ht Ht0]; [vm_compute; discriminate|].
  assert (forall q, q ∈ reverse t ++ pgs -> q ∈ pgs \/ q ∈ l) as Hpg.
  { intros q [Hq|Hq]%elem_of_app; [right|by left]. rewrite El. apply elem_of_app. left. by apply elem_of_reverse. }
  destruct Hr as [(-> & -> & H' & _)|(q & -> & H')].
  - destruct (heap_op _ _ _ _ _ _ _ _ _ _ _ _ HS H' Hk Hpg) as [HS' HU]; [by intros q ?%elem_of_nil|].
    exists N, 0, h', fl', al, (reverse t ++ pgs), []. split; [done|]. split; [done|]. split; [done|]. left. rewrite (Ht0 eq_refl) in El. done.
  - destruct (heap_op _ _ _ _ _ _ _ _ _ _ _ _ HS H' Hk Hpg) as [HS' HU]; [intros x Hx; rewrite El; apply elem_of_app; by right|].
    exists N, (q + HDR), h', fl', ((q, NODE_UNITS) :: al), (reverse t ++ pgs), l'. split; [done|]. split; [done|]. split; [done|]. right. rewrite El, length_app. split; [|lia].
    exists q. split; [done|]. split; [|done]. eapply (block_nonzero kend base kend_ok base_ok). exact H'.
Qed.

Lemma kmfree_space T fl q al pgs l h :
  space T fl ((q, NODE_UNITS) :: al) pgs l h ->
  exists N h' fl', (forall f, (N <= f)%nat -> kmfree f (q + HDR) h = Ret tt h') /\ space T fl' al pgs l h' /\
    same_user T (pages_of h) T (pages_of h') (fun _ => True).
Proof using kend_ok base_ok.
  intros HS. destruct (sp_heap _ _ _ _ _ _ HS) as [H|(_ & _ & ? & _)]; [|done].
  destruct (kmfree_run kend base kend_ok base_ok fl al pgs l h q NODE_UNITS H) as (h' & fl' & HN & H' & Hk & _).
  destruct (heap_op _ _ _ _ _ _ _ _ _ _ _ _ HS H' Hk) as [HS' HU]; [by left|done|]. eexists _, h', fl'. split; [exact HN|done].
Qed.

Lemma space_perm T fl al al' pgs l h : space T fl al pgs l h -> al ≡ₚ al' -> space T fl al' pgs l h.
Proof using.
  intros [[H|(A & B' & -> & D & E)] V L T1 F1] HP; split; try done; [left; by eapply heap_perm|]. right. apply Permutation_nil_l in HP. by subst.
Qed.

(** Blocks that are held differ. *)
Lemma blocks_differ T fl q n al pgs l h : space T fl ((q, n) :: al) pgs l h -> forall b, b ∈ al -> b.1 <> q.
Proof using kend_ok base_ok.
  intros HS b Hb. destruct (sp_heap _ _ _ _ _ _ HS) as [H|(_ & _ & ? & _)]; [|done].
  destruct (blocks_apart kend base kend_ok fl ((q, n) :: al) pgs l h fl (q, n) al b H) as [Ha|Ha]; [done|set_solver| |];
    destruct (block_bounds kend base kend_ok _ _ _ _ _ (q, n) H) as (_ & _ & _ & Hn); [set_solver| |set_solver|];
    destruct (block_bounds kend base kend_ok _ _ _ _ _ b H) as (_ & _ & _ & Hn'); try set_solver; unfold HDR in *; cbn [fst snd] in *; lia.
Qed.

End Proofs.

(** * The list of regions, proved *)

(** The regions of the list from [r] up to [d], with the addresses of their nodes. *)
Fixpoint nseg (m : gmap Z node) (r : Z) (L : list (Z * mmap_region)) (d : Z) : Prop :=
  match L with
  | [] => r = d
  | (a, g) :: L' => r = a /\ a <> 0 /\ exists n, m !! a = Some (mkN g n) /\ nseg m n L' d
  end.

Definition nlist (m : gmap Z node) (r : Z) (L : list (Z * mmap_region)) : Prop := nseg m r L 0.

Definition rend (g : mmap_region) : Z := r_addr g + r_length g.

Record region_ok (g : mmap_region) : Prop := {
  rg_addr : r_addr g mod 4096 = 0 /\ 0 <= r_addr g;
  rg_len : r_length g mod 4096 = 0 /\ 0 < r_length g;
  rg_top : rend g <= USERTOP
}.

Definition before (g h : mmap_region) : Prop := rend g <= r_addr h.

(** Whole pages in the user space, apart, in the order of their addresses. *)
Definition wf (L : list mmap_region) : Prop := Forall region_ok L /\ StronglySorted before L.

(** [n] bytes from [a] on are apart from the region. *)
Definition apart (a n : Z) (g : mmap_region) : Prop := a + n <= r_addr g \/ rend g <= a.

Lemma wf_cons g L : wf (g :: L) -> region_ok g /\ wf L /\ Forall (before g) L.
Proof. intros [H1 H2]. apply Forall_cons in H1 as [H1 H1']. apply StronglySorted_inv in H2 as [H2 H2']. done. Qed.

Lemma rend_u64 g : region_ok g -> u64 (r_addr g + r_length g) = rend g.
Proof. intros [[_ H1] [_ H2] H3]. unfold rend, USERTOP in *. apply u64_id. lia. Qed.

Lemma nseg_frame m m' r L d : nseg m r L d -> (forall a, a ∈ L.*1 -> m' !! a = m !! a) -> nseg m' r L d.
Proof.
  revert r. induction L as [|[a g] L IH]; intros r H Hf; [done|]. destruct H as (-> & Ha & n & En & H). split; [done|]. split; [done|]. exists n.
  rewrite Hf by by left. split; [done|]. apply IH; [done|]. intros b Hb. apply Hf. by right.
Qed.

Lemma nseg_app m r L1 L2 d : nseg m r (L1 ++ L2) d <-> exists x, nseg m r L1 x /\ nseg m x L2 d.
Proof.
  revert r. induction L1 as [|[a g] L1 IH]; intros r; cbn [app nseg]; [naive_solver|]. setoid_rewrite IH. naive_solver.
Qed.

Lemma nlist_node m r L a g : nlist m r L -> (a, g) ∈ L -> a <> 0 /\ exists n, m !! a = Some (mkN g n).
Proof.
  intros H (L1 & L2 & ->)%list_elem_of_split. apply nseg_app in H as (x & _ & -> & Ha & n & En & _). by eauto.
Qed.

(** The head pointer. *)
Lemma nlist_head m r L : nlist m r L -> (r = 0 <-> L = []).
Proof. destruct L as [|[a g] L]; [done|]. intros (-> & Ha & _). by split. Qed.

Lemma sorted_nodup m r L : nlist m r L -> wf L.*2 -> NoDup L.*1.
Proof.
  revert r. induction L as [|[a g] L IH]; intros r H Hwf; [constructor|]. pose proof H as (-> & Ha & n & En & H').
  cbn in Hwf. apply wf_cons in Hwf as (Hg & Hwf & Hb). constructor; [|by eapply IH]. intros Hc. apply list_elem_of_fmap in Hc as ([a' g'] & E & Hin). cbn in E. subst a'.
  destruct (nlist_node _ _ _ _ _ H' Hin) as (_ & n' & En'). rewrite En in En'. injection En' as <- <-.
  rewrite Forall_forall in Hb. specialize (Hb g). destruct Hg as [_ [_ Hl] _]. unfold before, rend in Hb.
  assert (g ∈ L.*2) as Hg2 by (apply list_elem_of_fmap; by exists (a, g)). specialize (Hb Hg2). lia.
Qed.

Lemma nlist_fuel m r L : nlist m r L -> wf L.*2 -> (length L <= size m)%nat.
Proof.
  intros H Hwf. pose proof (sorted_nodup _ _ _ H Hwf) as Hnd. rewrite <- (length_fmap fst), <- (size_list_to_set (C := gset Z)) by done.
  rewrite <- size_dom. apply subseteq_size. intros a Ha. apply elem_of_list_to_set, list_elem_of_fmap in Ha as ([b g] & -> & Hin).
  destruct (nlist_node _ _ _ _ _ H Hin) as (_ & n & En). by apply elem_of_dom_2 in En.
Qed.
(** A new region between those below and those above it. *)
Lemma wf_insert L1 g L2 :
  wf (L1 ++ L2) -> region_ok g -> Forall (apart (r_addr g) (r_length g)) (L1 ++ L2) ->
  Forall (fun h => r_addr h < r_addr g) L1 -> Forall (fun h => r_addr g < r_addr h) L2 -> wf (L1 ++ g :: L2).
Proof.
  intros [Hok Hs] Hg Ha H1 H2. rewrite Forall_forall in *. apply StronglySorted_app in Hs as (Hx & S1 & S2). pose proof (rg_len _ Hg) as [_ Hgl].
  assert (forall h, h ∈ L1 -> before h g) as B1.
  { intros h Hh. destruct (Ha h ltac:(set_solver)) as [Hc|]; [|done]. specialize (H1 h Hh). cbn in H1. lia. }
  assert (forall h, h ∈ L2 -> before g h) as B2.
  { intros h Hh. destruct (Ha h ltac:(set_solver)) as [|Hc]; [done|]. specialize (H2 h Hh). cbn in H2. destruct (Hok h ltac:(set_solver)) as [_ [_ ?] _]. unfold rend in Hc. lia. }
  split.
  - rewrite Forall_forall. intros h [Hh|[->|Hh]%elem_of_cons]%elem_of_app; [apply Hok; set_solver|done|apply Hok; set_solver].
  - apply StronglySorted_app. split; [|split; [done|constructor; [done|by rewrite Forall_forall]]].
    intros x y Hx1 [->|Hy]%elem_of_cons; [by apply B1|by apply Hx].
Qed.

Section Regions.
Context {F : Type} {B : Backing F}.

Lemma get_node_run (s : mstate F) a n : nodes s !! a = Some n -> get_node a s = Ret n s.
Proof. intros E. unfold get_node. by rewrite E. Qed.

Lemma set_next_run (s : mstate F) a n x : nodes s !! a = Some n -> set_next a x s = Ret tt (set_nodes (<[a := mkN (reg n) x]> (nodes s)) s).
Proof. intros E. unfold set_next. by rewrite (bind_run _ _ _ _ _ (get_node_run _ _ _ E)). Qed.

(** [find_mmap_region] finds the region of an address. *)
Lemma find_region_run (s : mstate F) start L : forall fuel r, nlist (nodes s) r L -> wf L.*2 -> (length L <= fuel)%nat ->
  (find_from fuel start r s = Ret 0 s /\ Forall (fun g => ~ r_addr g <= start < rend g) L.*2) \/
  exists a g, (a, g) ∈ L /\ r_addr g <= start < rend g /\ find_from fuel start r s = Ret a s.
Proof.
  induction L as [|[a g] L IH]; intros fuel r H Hwf Hf.
  - cbn in H. subst r. left. split; [by destruct fuel|constructor].
  - destruct H as (-> & Ha & n & En & H). cbn in Hwf. apply wf_cons in Hwf as (Hg & Hwf & _). destruct fuel as [|fuel]; [cbn in Hf; lia|].
    cbn [find_from]. destruct (Z.eqb_spec a 0); [done|]. rewrite (bind_run _ _ _ _ _ (get_node_run _ _ _ En)). cbn [reg next]. rewrite (rend_u64 g Hg).
    destruct (Z.leb_spec (r_addr g) start), (Z.ltb_spec start (rend g)); cbn [andb].
    { right. exists a, g. split; [by left|]. done. }
    all: destruct (IH fuel n H Hwf ltac:(cbn in Hf; lia)) as [[E Hno]|(b & h & Hin & Hr & E)];
      [left; split; [done|]; constructor; [cbv beta; cbn [fst snd]; lia|done]|right; exists b, h; split; [by right|done]].
Qed.

(** The search for an address ends at one whose range is free. *)
Lemma select_addr_run (s : mstate F) len L : 0 < len -> USERTOP + len < 2 ^ 64 -> forall fuel addr r, nlist (nodes s) r L -> wf L.*2 -> (length L <= fuel)%nat ->
  0 <= addr <= USERTOP -> addr mod 4096 = 0 ->
  exists a', select_addr fuel addr len r s = Ret a' s /\ addr <= a' <= USERTOP /\ a' mod 4096 = 0 /\ Forall (apart a' len) L.*2 /\ (Forall (apart addr len) L.*2 -> a' = addr) /\
    (a' = addr \/ exists g, g ∈ L.*2 /\ a' = rend g).
Proof.
  intros Hlen Hmax. induction L as [|[a g] L IH]; intros fuel addr r H Hwf Hf Hr Hm.
  - cbn in H. subst r. exists addr. split; [by destruct fuel|]. split; [lia|]. split; [done|]. split; [constructor|]. split; [done|by left].
  - destruct H as (-> & Ha & n & En & H). cbn in Hwf. apply wf_cons in Hwf as (Hg & Hwf & Hb). destruct fuel as [|fuel]; [cbn in Hf; lia|].
    cbn [select_addr]. destruct (Z.eqb_spec a 0); [done|]. rewrite (bind_run _ _ _ _ _ (get_node_run _ _ _ En)). cbn [reg next]. rewrite (rend_u64 g Hg), u64_id by lia.
    pose proof Hg as [[Hg1 Hg2] [Hg3 Hg4] Hg5]. rewrite Forall_forall in Hb.
    assert (forall x, x + len <= r_addr g -> Forall (apart x len) L.*2) as Hlow.
    { intros x Hx. rewrite Forall_forall. intros h Hh. left. specialize (Hb h Hh). unfold before, rend in Hb. lia. }
    destruct (Z.leb_spec (addr + len) (r_addr g)) as [Hc|Hc].
    { exists addr. split; [done|]. split; [lia|]. split; [done|]. split; [constructor; [by left|by apply Hlow]|]. split; [done|by left]. }
    assert (rend g mod 4096 = 0) as Hrm by (unfold rend; rewrite Zplus_mod, Hg1, Hg3; done).
    set (addr' := if addr <=? rend g then rend g else addr).
    assert (addr <= addr' <= USERTOP /\ rend g <= addr' /\ addr' mod 4096 = 0 /\ (rend g <= addr -> addr' = addr) /\ (addr' = addr \/ addr' = rend g)) as (Hr' & He' & Hm' & Ho' & Hw').
    { unfold addr'. destruct (Z.leb_spec addr (rend g)); auto with lia. }
    assert (exists a', select_addr fuel addr' len n s = Ret a' s /\ addr <= a' <= USERTOP /\ a' mod 4096 = 0 /\ Forall (apart a' len) (g :: L.*2) /\ (Forall (apart addr len) (g :: L.*2) -> a' = addr) /\
      (a' = addr \/ exists h, h ∈ g :: L.*2 /\ a' = rend h)) as Hgo.
    { destruct (IH fuel addr' n H Hwf ltac:(cbn in Hf; lia) ltac:(lia) Hm') as (a' & E & Hb' & Hm2 & Hap & Ho & Hw). exists a'. split; [done|]. split; [lia|]. split; [done|].
      split; [constructor; [right; lia|done]|]. split.
      2:{ destruct Hw as [->|(h & Hh & ->)]; [|right; exists h; split; [by right|done]]. destruct Hw' as [->| ->]; [by left|]. right. exists g. split; [by left|done]. }
      intros Hfree. apply Forall_cons in Hfree as [[Hf1|Hf1] Hf2]; [lia|].
      rewrite (Ho' Hf1) in Ho. by apply Ho. }
    destruct (Z.leb_spec (rend g) addr) as [Hc2|Hc2]; [|rewrite (bind_run _ _ _ _ _ (eq_refl : ret false s = Ret false s)); exact Hgo].
    destruct L as [|[b h] L].
    + cbn in H. subst n. cbn [Z.eqb]. exists addr. split; [done|]. split; [lia|]. split; [done|]. split; [constructor; [by right|constructor]|]. split; [done|by left].
    + pose proof H as (-> & Hb0 & n2 & En2 & H2). destruct (Z.eqb_spec b 0); [done|].
      assert ((let* m := get_node b in ret (u64 (addr + len) <=? r_addr (reg m))) s = Ret (addr + len <=? r_addr h) s) as E1
        by (rewrite (bind_run _ _ _ _ _ (get_node_run _ _ _ En2)); cbn [reg]; by rewrite u64_id by lia).
      rewrite u64_id in E1 by lia. rewrite (bind_run _ _ _ _ _ E1). destruct (Z.leb_spec (addr + len) (r_addr h)) as [Hc3|Hc3]; [|exact Hgo].
      exists addr. split; [done|]. split; [lia|]. split; [done|]. split; [|split; [done|by left]]. constructor; [by right|]. cbn in Hwf. apply wf_cons in Hwf as (Hh & _ & Hbh).
      constructor; [by left|]. rewrite Forall_forall in *. intros x Hx. left. specialize (Hbh x Hx). destruct Hh as [_ [_ ?] _]. unfold before, rend in Hbh. lia.
Qed.

(** The new node [region] at [g], between [L1] and [L2]. *)
Definition inserted (m : gmap Z node) (r region : Z) (g : mmap_region) (L : list (Z * mmap_region)) (m' : gmap Z node) (r' : Z) : Prop :=
  exists L1 L2, L = L1 ++ L2 /\ nlist m' r' (L1 ++ (region, g) :: L2) /\
    Forall (fun h => r_addr h < r_addr g) L1.*2 /\ Forall (fun h => r_addr g < r_addr h) L2.*2 /\
    (forall x, x ∉ region :: L.*1 -> m' !! x = m !! x).

Lemma above_all g (h : mmap_region) L : r_addr g < r_addr h -> wf (h :: L) -> Forall (fun x => r_addr g < r_addr x) (h :: L).
Proof.
  intros Hlt Hwf. apply wf_cons in Hwf as (Hh & _ & Hb). constructor; [done|]. rewrite Forall_forall in *. intros x Hx.
  specialize (Hb x Hx). destruct Hh as [_ [_ ?] _]. unfold before, rend in Hb. lia.
Qed.

Lemma insert_after region g prev : region <> 0 -> forall L a h fuel (s : mstate F),
  nlist (nodes s) a ((a, h) :: L) -> wf (h :: L.*2) -> region ∉ a :: L.*1 -> NoDup (a :: L.*1) -> r_addr h < r_addr g -> Forall (fun x => r_addr x <> r_addr g) L.*2 ->
  nodes s !! region = Some (mkN g 0) -> (length L < fuel)%nat ->
  exists m', insert_from fuel (r_addr g) region prev a s = Ret prev (set_nodes m' s) /\ inserted (nodes s) a region g ((a, h) :: L) m' a.
Proof.
  intros Hr0. induction L as [|[b h2] L IH]; intros a h fuel s H Hwf Hrn Hnd Hlt Hne Hreg Hf; apply not_elem_of_cons in Hrn as [Hra Hrl]; apply NoDup_cons in Hnd as [Hal Hnd]; destruct fuel as [|fuel]; try (cbn in Hf; lia).
  all: pose proof H as (_ & Ha & n & En & H2); cbn [insert_from]; destruct (Z.eqb_spec a 0); [done|];
    rewrite (bind_run _ _ _ _ _ (get_node_run _ _ _ En)); cbn [reg next];
    destruct (Z.ltb_spec (r_addr g) (r_addr h)); [lia|]; destruct (Z.ltb_spec (r_addr h) (r_addr g)); [|lia]; cbn [andb].
  - cbn in H2. subst n. cbn [Z.eqb negb]. exists (<[a := mkN h region]> (nodes s)). split.
    { rewrite (bind_run _ _ _ _ _ (eq_refl : ret false s = Ret false s)). cbv iota. by rewrite (bind_run _ _ _ _ _ (set_next_run _ _ _ region En)). }
    exists [(a, h)], []. split; [done|]. split; [|split; [by constructor|split; [constructor|]]].
    + cbn [app]. split; [done|]. split; [done|]. exists region. rewrite lookup_insert_eq. split; [done|]. split; [done|]. split; [done|]. exists 0.
      split; [|done]. by rewrite lookup_insert_ne.
    + intros x Hx. rewrite lookup_insert_ne; [done|]. set_solver.
  - pose proof H2 as (-> & Hb & n2 & En2 & H3). destruct (Z.eqb_spec b 0); [done|]. cbn [negb].
    assert ((let* m := get_node b in ret (r_addr g <? r_addr (reg m))) s = Ret (r_addr g <? r_addr h2) s) as E1
      by (by rewrite (bind_run _ _ _ _ _ (get_node_run _ _ _ En2))).
    rewrite (bind_run _ _ _ _ _ E1). cbn in Hwf. apply wf_cons in Hwf as (Hh & Hwf & _). cbn in Hne. apply Forall_cons in Hne as [Hne1 Hne].
    destruct (Z.ltb_spec (r_addr g) (r_addr h2)) as [Hl2|Hl2].
    + exists (<[a := mkN h region]> (<[region := mkN g b]> (nodes s))). split.
      { rewrite (bind_run _ _ _ _ _ (set_next_run _ _ _ b Hreg)). cbn [reg].
        assert (nodes (set_nodes (<[region := mkN g b]> (nodes s)) s) !! a = Some (mkN h b)) as Ea by (cbn [nodes set_nodes]; by rewrite lookup_insert_ne).
        by rewrite (bind_run _ _ _ _ _ (set_next_run _ _ _ region Ea)). }
      exists [(a, h)], ((b, h2) :: L). split; [done|]. split; [|split; [by constructor|split; [by apply (above_all g h2)|]]].
      * cbn [app]. split; [done|]. split; [done|]. exists region. rewrite lookup_insert_eq. split; [done|]. split; [done|]. split; [done|]. exists b.
        rewrite lookup_insert_ne by done. rewrite lookup_insert_eq. split; [done|]. eapply nseg_frame; [exact H2|].
        intros x Hx. rewrite !lookup_insert_ne; [done| |]; by intros <-.
      * intros x Hx. rewrite !lookup_insert_ne; [done| |]; set_solver.
    +      destruct (IH b h2 fuel s H2 Hwf) as (m' & E' & L1 & L2 & EL & HL' & HF1 & HF2 & Hfr); [done|done|lia|done|done|cbn in Hf; lia|].
      exists m'. split; [exact E'|]. exists ((a, h) :: L1), L2. split; [by rewrite EL|]. split; [|split; [by constructor|split; [done|]]].
      * cbn [app]. split; [done|]. split; [done|]. exists b. rewrite Hfr; [done|]. apply not_elem_of_cons. by split; [intros ->|].
      * intros x Hx. apply Hfr. set_solver.
Qed.

Lemma link_region_run (s : mstate F) L region g :
  nlist (nodes s) (regions s) L -> wf L.*2 -> nregions s = Z.of_nat (length L) -> region <> 0 -> region ∉ L.*1 ->
  Forall (fun x => r_addr x <> r_addr g) L.*2 -> nodes s !! region = Some (mkN g 0) ->
  exists m' r', link_region region (r_addr g) s = Ret tt (set_regions r' (set_nodes m' s)) /\ inserted (nodes s) (regions s) region g L m' r'.
Proof.
  intros H Hwf Hc Hr0 Hr Hne Hreg. unfold link_region. erewrite bind_run by reflexivity. cbv beta. rewrite Hc. destruct L as [|[a h] L].
  - exists (nodes s), region. cbn [length Z.of_nat Z.eqb]. split; [by destruct s|]. exists [], []. split; [done|]. split; [|split; [constructor|split; [constructor|done]]].
    split; [done|]. split; [done|]. by exists 0.
  - destruct (Z.eqb_spec (Z.of_nat (length ((a, h) :: L))) 0) as [Ez|_]; [cbn in Ez; lia|].
    erewrite bind_run by reflexivity. cbv beta. erewrite bind_run by reflexivity. cbv beta.
    pose proof H as (Er & Ha & n & En & H2). cbn in Hne. apply Forall_cons in Hne as [Hne1 Hne]. pose proof (nlist_fuel _ _ _ H Hwf) as Hf.
    assert (nlist (nodes s) a ((a, h) :: L)) as Hl by (by rewrite <- Er at 1). rewrite Er.
    destruct (Z.ltb_spec (r_addr g) (r_addr h)) as [Hlt|Hge].
    + exists (<[region := mkN g a]> (nodes s)), region. split.
      * unfold walk_fuel. cbn [insert_from]. destruct (Z.eqb_spec a 0); [done|].
        unfold bind at 1. rewrite (bind_run _ _ _ _ _ (get_node_run _ _ _ En)). cbn [reg next]. destruct (Z.ltb_spec (r_addr g) (r_addr h)); [|lia].
        by rewrite (bind_run _ _ _ _ _ (set_next_run _ _ _ a Hreg)).
      * exists [], ((a, h) :: L). split; [done|]. split; [|split; [constructor|split; [by apply above_all|]]].
        -- cbn [app]. split; [done|]. split; [done|]. exists a. rewrite lookup_insert_eq. split; [done|]. eapply nseg_frame; [exact Hl|].
           intros x Hx. rewrite lookup_insert_ne; [done|]. by intros <-.
        -- intros x Hx. rewrite lookup_insert_ne; [done|]. set_solver.
    + pose proof (sorted_nodup _ _ _ H Hwf) as Hnd.
      destruct (insert_after region g a Hr0 L a h (walk_fuel s) s) as (m' & E & Hins); [done|done|done|done|lia|done|done| |].
      { unfold walk_fuel. cbn in Hf. lia. }
      exists m', a. rewrite (bind_run _ _ _ _ _ E). split; [done|exact Hins].
Qed.

(** Whether the hint [addr] is refused. *)
Definition over_top (addr length : Z) : bool := negb (addr =? 0) && (USERTOP <? 4096 * npages (4096 * npages addr + length)).

(** The choice of an address without [MAP_FIXED]. *)
Lemma choose_addr_run pgdir (s : mstate F) L addr length prot flags :
  nlist (nodes s) (regions s) L -> wf L.*2 -> has flags MAP_FIXED = false -> 0 <= addr < 2 ^ 63 -> 0 < length < 2 ^ 62 ->
  (over_top addr length = true /\ choose_addr pgdir addr length prot flags s = Ret (inl EINVAL) s) \/
  over_top addr length = false /\
  exists a, choose_addr pgdir addr length prot flags s = Ret (inr a) s /\ 0 <= a <= USERTOP /\ a mod 4096 = 0 /\
    Forall (apart a (4096 * npages length)) L.*2 /\
    (Forall (apart (4096 * (addr / 4096)) (4096 * npages length)) L.*2 -> addr <> 0 -> a = 4096 * (addr / 4096)) /\
    (a + 4096 * npages length <= USERTOP \/ a = MMAPBASE \/ exists g, g ∈ L.*2 /\ a = rend g).
Proof.
  intros H Hwf Hnf Ha Hlen. destruct (npages_bounds length ltac:(lia)) as [Hn0 Hn].
  pose proof (nlist_fuel _ _ _ H Hwf) as Hf.
  assert (forall a0, 0 <= a0 <= USERTOP -> a0 mod 4096 = 0 -> exists a,
    (let* r := gets regions in let* k := gets walk_fuel in let* a' := select_addr k a0 (ROUNDUP length PGSIZE) r in ret (inr a' : Z + Z)) s = Ret (inr a) s /\
    0 <= a <= USERTOP /\ a mod 4096 = 0 /\ Forall (apart a (4096 * npages length)) L.*2 /\ (Forall (apart a0 (4096 * npages length)) L.*2 -> a = a0) /\
    (a = a0 \/ exists g, g ∈ L.*2 /\ a = rend g)) as Hsel.
  { intros a0 H0 Hm. rewrite roundup_npages by lia. erewrite bind_run by reflexivity. cbv beta. erewrite bind_run by reflexivity. cbv beta.
    destruct (select_addr_run s (4096 * npages length) L ltac:(lia) ltac:(unfold USERTOP; lia) (walk_fuel s) a0 (regions s) H Hwf) as (a & E & Hb & Hm' & Hap & Hfr);
      [unfold walk_fuel; lia|done|done|]. exists a. rewrite (bind_run _ _ _ _ _ E). split; [done|]. split; [lia|done]. }
  unfold over_top. destruct (Z.eqb_spec addr 0) as [->|Hne]; cbn [negb andb].
  - right. split; [done|]. unfold choose_addr. cbn [Z.eqb negb]. erewrite bind_run by reflexivity. cbv beta. destruct L as [|[b g] L].
    + cbn in H. rewrite H. cbn [Z.eqb]. destruct (Hsel MMAPBASE) as (a & E & Hb & Hm & Hap & _ & Hw); [unfold MMAPBASE, USERTOP; lia|done|].
      exists a. split; [exact E|]. split; [done|]. split; [done|]. split; [done|]. split; [done|by right].
    + pose proof H as (Er & Hb0 & n & En & _). rewrite Er. destruct (Z.eqb_spec b 0); [done|]. rewrite (bind_run _ _ _ _ _ (get_node_run _ _ _ En)). cbn [reg].
      pose proof Hwf as Hwf'. cbn in Hwf'. apply wf_cons in Hwf' as ([[Hg1 Hg2] [_ Hg3] Hg4] & _). unfold rend in Hg4. destruct (Hsel (r_addr g)) as (a & E & Hb & Hm & Hap & _ & Hw); [lia|done|].
      exists a. split; [exact E|]. split; [done|]. split; [done|]. split; [done|]. split; [done|]. right. right. destruct Hw as [->|]; [|done].
      cbn in Hap. apply Forall_cons in Hap as [[Hc|Hc] _]; unfold rend in *; lia.
  - pose proof (npages_bounds addr ltac:(lia)) as [_ Hna]. pose proof (npages_bounds (4096 * npages addr + length) ltac:(lia)) as [_ Hnu].
    unfold choose_addr. destruct (Z.eqb_spec addr 0); [done|]. cbn [negb]. rewrite (roundup_npages addr) by lia. rewrite (u64_id (4096 * npages addr + length)) by lia.
    rewrite (roundup_npages (4096 * npages addr + length)) by lia.
    destruct (Z.ltb_spec USERTOP (4096 * npages (4096 * npages addr + length))); [by left|]. right. split; [done|]. rewrite Hnf.
    pose proof (Z.div_mod addr 4096 ltac:(lia)). pose proof (Z.mod_pos_bound addr 4096 ltac:(lia)).
    assert (ROUNDDOWN addr PGSIZE = 4096 * (addr / 4096)) as Er by (unfold ROUNDDOWN, PGSIZE; lia).
    assert (4096 * (addr / 4096) mod 4096 = 0) as Em by (rewrite Z.mul_comm; apply Z.mod_mul; lia).
    rewrite Er. destruct (Hsel (4096 * (addr / 4096)) ltac:(lia) Em) as (a & E & Hb & Hm & Hap & Hfr & Hw).
    exists a. split; [exact E|]. split; [done|]. split; [done|]. split; [done|]. split; [auto|]. destruct Hw as [->|]; [left; lia|by right; right].
Qed.

(** Taking a node out after [p0]. *)
Lemma unlink_after a g L2 : forall L1 p0 h0 r fuel (s : mstate F),
  nodes s !! p0 = Some (mkN h0 r) -> p0 <> 0 -> nseg (nodes s) r (L1 ++ (a, g) :: L2) 0 -> NoDup (p0 :: (L1 ++ (a, g) :: L2).*1) ->
  Forall (fun x => r_addr x <> r_addr g) L1.*2 -> (length L1 < fuel)%nat ->
  exists m', unlink_from fuel (r_addr g) p0 r s = Ret tt (set_nodes m' s) /\ nseg m' p0 ((p0, h0) :: L1 ++ L2) 0 /\
    (forall x, x ∉ p0 :: L1.*1 -> m' !! x = nodes s !! x).
Proof.
  induction L1 as [|[b h] L1 IH]; intros p0 h0 r fuel s E0 Hp0 H Hnd Hne Hf; (destruct fuel as [|fuel]; [cbn in Hf; lia|]); cbn [unlink_from app] in *.
  - destruct H as (-> & Ha & n & En & H). destruct (Z.eqb_spec a 0); [done|]. rewrite (bind_run _ _ _ _ _ (get_node_run _ _ _ En)). cbn [reg next]. rewrite Z.eqb_refl.
    exists (<[p0 := mkN h0 n]> (nodes s)). split; [by rewrite (set_next_run _ _ _ n E0)|]. apply NoDup_cons in Hnd as [Hn1 Hn2]. split.
    + split; [done|]. split; [done|]. exists n. rewrite lookup_insert_eq. split; [done|]. eapply nseg_frame; [exact H|]. intros x Hx.
      rewrite lookup_insert_ne; [done|]. intros <-. apply Hn1. cbn. by right.
    + intros x Hx. rewrite lookup_insert_ne; [done|]. intros <-. apply Hx. by left.
  - destruct H as (-> & Hb & n & En & H). destruct (Z.eqb_spec b 0); [done|]. rewrite (bind_run _ _ _ _ _ (get_node_run _ _ _ En)). cbn [reg next].
    cbn in Hne. apply Forall_cons in Hne as [Hne1 Hne]. destruct (Z.eqb_spec (r_addr g) (r_addr h)); [by symmetry in e|].
    apply NoDup_cons in Hnd as [Hn1 Hn2]. destruct (IH b h n fuel s En Hb H Hn2 Hne ltac:(cbn in Hf; lia)) as (m' & E & H' & Hfr).
    exists m'. split; [exact E|]. cbn in Hn1. split.
    + split; [done|]. split; [done|]. exists b. rewrite Hfr; [done|]. rewrite fmap_app in Hn1. set_solver.
    + intros x Hx. apply Hfr. cbn in Hx. set_solver.
Qed.

Lemma sorted_addr L1 g L2 x : wf (L1 ++ g :: L2) -> x ∈ L1 ++ L2 -> r_addr x <> r_addr g.
Proof.
  intros [Hok Hs] Hx. apply StronglySorted_app in Hs as (Hb & _ & Hs2). apply StronglySorted_inv in Hs2 as [_ Hb2]. rewrite Forall_forall in *.
  destruct (Hok g ltac:(set_solver)) as [_ [_ Hg] _]. apply elem_of_app in Hx as [Hx|Hx].
  - specialize (Hb x g Hx ltac:(by left)). destruct (Hok x ltac:(set_solver)) as [_ [_ ?] _]. unfold before, rend in Hb. lia.
  - specialize (Hb2 x Hx). unfold before, rend in Hb2. lia.
Qed.

Lemma unlink_node_run (s : mstate F) L1 a g L2 :
  nlist (nodes s) (regions s) (L1 ++ (a, g) :: L2) -> wf (L1 ++ (a, g) :: L2).*2 ->
  exists m' r', unlink_node a s = Ret tt (set_regions r' (set_nodes m' s)) /\ nlist m' r' (L1 ++ L2) /\ m' !! a = nodes s !! a.
Proof.
  intros H Hwf. destruct (nlist_node _ _ _ a g H ltac:(set_solver)) as (Ha & n & En). pose proof (nlist_fuel _ _ _ H Hwf) as Hf.
  pose proof (sorted_nodup _ _ _ H Hwf) as Hnd. rewrite fmap_app in Hwf. cbn in Hwf.
  unfold unlink_node. erewrite bind_run by reflexivity. cbv beta. rewrite (bind_run _ _ _ _ _ (get_node_run _ _ _ En)). cbn [reg next].
  destruct L1 as [|[b h] L1].
  - pose proof H as (Er & _ & n' & En' & H'). rewrite Er. rewrite (bind_run _ _ _ _ _ (get_node_run _ _ _ En)). cbn [reg next]. rewrite Z.eqb_refl.
    rewrite En in En'. injection En' as <-. exists (nodes s), n. split; [by destruct s|]. done.
  - pose proof H as (Er & Hb & n' & En' & H'). rewrite Er. rewrite (bind_run _ _ _ _ _ (get_node_run _ _ _ En')). cbn [reg next].
    assert (r_addr h <> r_addr g) as Hne by (apply (sorted_addr ((h :: L1.*2)) g L2.*2); [done|by left]).
    destruct (Z.eqb_spec (r_addr g) (r_addr h)); [by symmetry in e|]. erewrite bind_run by reflexivity. cbv beta.
    unfold walk_fuel. cbn [unlink_from]. destruct (Z.eqb_spec b 0); [done|]. rewrite (bind_run _ _ _ _ _ (get_node_run _ _ _ En')). cbn [reg next].
    destruct (Z.eqb_spec (r_addr g) (r_addr h)); [done|]. cbn [app fmap list_fmap] in Hnd.
    destruct (unlink_after a g L2 L1 b h n' (size (nodes s)) s En' Hb H' Hnd) as (m' & E & Hl & Hfr).
    { rewrite Forall_forall. intros x Hx. apply (sorted_addr ((h :: L1.*2)) g L2.*2); [done|set_solver]. }
    { rewrite length_app in Hf. cbn in Hf. lia. }
    exists m', b. rewrite E. split; [clear -Er; destruct s; cbn in Er; by subst|]. split; [done|]. apply Hfr. apply NoDup_cons in Hnd as [Hn1 Hn2]. rewrite fmap_app in Hn1, Hn2.
    apply NoDup_app in Hn2 as (_ & Hn3 & _). cbn in Hn1. intros [->|Hc]%elem_of_cons; [set_solver|]. apply (Hn3 a Hc). by left.
Qed.
End Regions.

(** * Mapping and unmapping *)

Section Main.
Context {F : Type} {B : Backing F}.
Context (kend base pgdir : Z).
Hypothesis kend_ok : KERNBASE < kend < KERNBASE + PHYSTOP.
Hypothesis base_ok : 0 < base /\ base + HDR <= kend /\ base mod HDR = 0.

(** The blocks of the nodes. *)
Definition blocks (L : list (Z * mmap_region)) : list (Z * Z) := (fun b => (b.1 - HDR, NODE_UNITS)) <$> L.

(** The memory of a process with the regions [L]; [al] are the blocks that
    others hold. *)
Record mm (T : gmap (list Z) Z) (fl al : list (Z * Z)) (pgs l : list Z) (L : list (Z * mmap_region)) (s : mstate F) : Prop := {
  mm_space : space kend base pgdir T fl (blocks L ++ al) pgs l (hp s);
  mm_list : nlist (nodes s) (regions s) L;
  mm_wf : wf L.*2;
  mm_count : nregions s = Z.of_nat (length L);
  mm_held : Forall (fun g => held kend T (kof s) (r_addr g) (r_length g / 4096)) L.*2
}.

Lemma pages_few pgs : NoDup pgs -> Forall (page kend) pgs -> Z.of_nat (length pgs) <= NFRAMES.
Proof using kend_ok.
  intros Hn Hp. assert (length pgs <= length (all_pages kend))%nat as Hle.
  { apply submseteq_length, NoDup_submseteq; [done|]. intros p Hin. apply page_in_all; [done|]. rewrite Forall_forall in Hp. by apply Hp. }
  destruct (roundup_kend kend kend_ok) as [_ Hb]. unfold all_pages, pages_from in Hle. rewrite length_reverse, length_map, length_seq in Hle.
  change NFRAMES with 242688. unfold KERNBASE, PHYSTOP, PGSIZE in *.
  assert ((18446462598732840960 + 994050048 - ROUNDUP kend 4096) / 4096 < 242689) by (apply Z.div_lt_upper_bound; lia). lia.
Qed.

Lemma length_units1 b : length (units1 b) = Z.to_nat b.2.
Proof using. unfold units1. by rewrite length_fmap, length_seqZ. Qed.

(** The count of regions does not overflow: their nodes fit into memory. *)
Lemma count_bound T fl al pgs l L s : mm T fl al pgs l L s -> Z.of_nat (length L) < 2 ^ 30.
Proof using kend_ok.
  intros H. pose proof (sp_heap _ _ _ _ _ _ _ _ _ (mm_space _ _ _ _ _ _ _ H)) as [Hh|(_ & _ & Hn & _)].
  - assert (4 * length L <= length (units (blocks L)))%nat as H1.
    { clear. induction L as [|b L IH]; [cbn; lia|]. unfold blocks. rewrite fmap_cons, units_cons, length_app, length_units1. fold (blocks L). cbn [snd length]. change (Z.to_nat NODE_UNITS) with 4%nat. lia. }
    assert (length (units (whole pgs)) = 256 * length pgs)%nat as H2.
    { clear. induction pgs as [|p pgs IH]; [done|]. unfold whole. rewrite fmap_cons, units_cons, length_app, length_units1. fold (whole pgs). rewrite IH.
      change (Z.to_nat (p, PGSIZE / HDR).2) with 256%nat. cbn [length]. lia. }
    pose proof (Permutation_length (hp_units _ _ _ _ _ _ _ Hh)) as H3. rewrite !units_app, !length_app, H2 in H3.
    destruct (hp_own _ _ _ _ _ _ _ Hh) as (Hnd & Hpg & _). pose proof (pages_few _ Hnd Hpg) as H4. change NFRAMES with 242688 in H4. lia.
  - destruct L; [done|discriminate].
Qed.

Lemma same_user_trans T k T1 k1 T2 k2 P Q : same_user kend T k T1 k1 P -> same_user kend T1 k1 T2 k2 Q -> same_user kend T k T2 k2 (fun x => P x /\ Q x).
Proof using. intros [A1 A2] [C1 C2]. split; intros x Hx [Hp Hq]; [by rewrite C1, A1|]. intros H. apply C2; [done|done|]. by apply A2. Qed.

Lemma same_weaken T k T1 k1 (P Q : Z -> Prop) : same_user kend T k T1 k1 P -> (forall x, Q x -> P x) -> same_user kend T k T1 k1 Q.
Proof using. intros [A1 A2] H. split; intros x Hx HQ; auto. Qed.

Lemma held_same T k T' k' P a n :
  same_user kend T k T' k' P -> 0 <= a -> a + 4096 * n <= USERTOP -> (forall x, a <= x < a + 4096 * n -> P x) -> held kend T k a n -> held kend T' k' a n.
Proof using. intros HS Ha Htop HP Hh j Hj. apply (su_held _ _ _ _ _ _ HS); [unfold USERTOP in *; lia|apply HP; lia|by apply Hh]. Qed.

(** The pages of the other regions stay. *)
Lemma regions_held T k T' k' P (L : list mmap_region) :
  same_user kend T k T' k' P -> wf L -> (forall g x, g ∈ L -> r_addr g <= x < rend g -> P x) ->
  Forall (fun g => held kend T k (r_addr g) (r_length g / 4096)) L -> Forall (fun g => held kend T' k' (r_addr g) (r_length g / 4096)) L.
Proof using.
  intros HS [Hok _] HP Hh. rewrite Forall_forall in *. intros g Hg. destruct (Hok g Hg) as [[_ Hg1] [Hg2 Hg3] Hg4].
  assert (4096 * (r_length g / 4096) = r_length g) as El by (pose proof (Z.div_mod (r_length g) 4096 ltac:(lia)); lia).
  unfold rend in *. eapply held_same; [exact HS|done|rewrite El; exact Hg4| |by apply Hh]. rewrite El. intros x Hx. by apply (HP g).
Qed.

Lemma on_h_run {A} (m : M hstate A) (s : mstate F) a h : m (hp s) = Ret a h -> on_h m s = Ret a (set_hp h s).
Proof using. intros E. unfold on_h, zoom. by rewrite E. Qed.

(** Changing the region of a node. *)
Lemma nlist_put m r L1 a g L2 g' : nlist m r (L1 ++ (a, g) :: L2) -> NoDup (L1 ++ (a, g) :: L2).*1 ->
  exists n, m !! a = Some (mkN g n) /\ nlist (<[a := mkN g' n]> m) r (L1 ++ (a, g') :: L2).
Proof using.
  intros H Hnd. apply nseg_app in H as (x & H1 & -> & Ha & n & En & H2). rewrite fmap_app in Hnd. apply NoDup_app in Hnd as (_ & Hn1 & Hn2). cbn in Hn1, Hn2.
  apply NoDup_cons in Hn2 as [Hn2 _]. exists n. split; [done|]. apply nseg_app. exists a. split.
  - eapply nseg_frame; [exact H1|]. intros x Hx. rewrite lookup_insert_ne; [done|]. intros <-. apply (Hn1 a Hx). by left.
  - split; [done|]. split; [done|]. exists n. rewrite lookup_insert_eq. split; [done|]. eapply nseg_frame; [exact H2|]. intros x Hx.
    rewrite lookup_insert_ne; [done|]. by intros <-.
Qed.

Lemma blocks_insert L1 q g L2 al : (q, NODE_UNITS) :: blocks (L1 ++ L2) ++ al ≡ₚ blocks (L1 ++ (q + HDR, g) :: L2) ++ al.
Proof using.
  unfold blocks. rewrite !fmap_app, fmap_cons. cbn [fst]. replace (q + HDR - HDR) with q by lia. solve_Permutation.
Qed.

Lemma fresh_node T fl q L al pgs l h : space kend base pgdir T fl ((q, NODE_UNITS) :: blocks L ++ al) pgs l h -> q + HDR ∉ L.*1.
Proof using kend_ok base_ok.
  intros HS (b & E & Hb)%list_elem_of_fmap. apply (blocks_differ kend base pgdir kend_ok base_ok _ _ _ _ _ _ _ _ HS (b.1 - HDR, NODE_UNITS)).
  - apply elem_of_app. left. apply list_elem_of_fmap. by exists b.
  - cbn. lia.
Qed.

Lemma apart_addr a n L : 0 < n -> Forall (apart a n) L -> Forall region_ok L -> Forall (fun h => r_addr h <> a) L.
Proof using.
  intros Hn Ha Hok. rewrite Forall_forall in *. intros h Hh E. destruct (Hok h Hh) as [_ [_ ?] _]. destruct (Ha h Hh); unfold rend in *; lia.
Qed.

(** The node of a new region, linked. *)
Lemma new_node_run T fl q al pgs l L (s : mstate F) a length offset prot flags :
  space kend base pgdir T fl ((q, NODE_UNITS) :: blocks L ++ al) pgs l (hp s) -> q + HDR <> 0 ->
  nlist (nodes s) (regions s) L -> wf L.*2 -> nregions s = Z.of_nat (List.length L) -> 0 < length -> Forall (apart a (4096 * npages length)) L.*2 ->
  let g := mkRegion a length offset 0 prot flags in
  exists m' r' L1 L2, (put_node (q + HDR) (mkN g 0) ;; link_region (q + HDR) a) s = Ret tt (set_regions r' (set_nodes m' s)) /\
    L = L1 ++ L2 /\ nlist m' r' (L1 ++ (q + HDR, g) :: L2) /\
    Forall (fun h => r_addr h < a) L1.*2 /\ Forall (fun h => a < r_addr h) L2.*2.
Proof using kend_ok base_ok.
  intros HS Hq0 Hl Hwf Hc Hlen Hap g. pose proof (fresh_node _ _ _ _ _ _ _ _ HS) as Hfr. destruct (npages_bounds length Hlen) as [Hn _].
  unfold put_node. erewrite bind_run by reflexivity. set (s1 := set_nodes (<[q + HDR := mkN g 0]> (nodes s)) s).
  destruct (link_region_run s1 L (q + HDR) g) as (m' & r' & E & L1 & L2 & EL & Hl' & H1 & H2 & _); try done.
  - eapply nseg_frame; [exact Hl|]. intros x Hx. cbn [s1 nodes set_nodes]. rewrite lookup_insert_ne; [done|]. by intros <-.
  - apply (apart_addr a (4096 * npages length)); [lia|done|apply Hwf].
  - apply lookup_insert_eq.
  - exists m', r', L1, L2. split; [exact E|done].
Qed.

(** The process sees the same bytes at the addresses of [P]. *)
Definition view_same (s s' : mstate F) (P : Z -> Prop) : Prop :=
  forall x, 0 <= x < USERTOP -> P x -> user_byte (mem (kof s')) pgdir x = user_byte (mem (kof s)) pgdir x.

Lemma view_user T fl al pgs l T' fl' al' pgs' l' s s' P :
  space kend base pgdir T fl al pgs l (hp s) -> space kend base pgdir T' fl' al' pgs' l' (hp s') -> same_user kend T (kof s) T' (kof s') P -> view_same s s' P.
Proof using kend_ok.
  intros HS HS' HU x Hx HP. rewrite (user_byte_vm kend kend_ok pgdir T l (kof s) x (sp_vm _ _ _ _ _ _ _ _ _ HS)).
  rewrite (user_byte_vm kend kend_ok pgdir T' l' (kof s') x (sp_vm _ _ _ _ _ _ _ _ _ HS')). by apply HU.
Qed.

(** The parts of [mmap] after the choice of the address, for an anonymous
    mapping. *)
Lemma load_anon_run T fl al pgs l (s : mstate F) a length prot flags offset :
  space kend base pgdir T fl al pgs l (hp s) -> has flags MAP_ANONYMOUS = true -> a mod 4096 = 0 -> 0 <= a -> 0 < length < 2 ^ 62 ->
  a + 4096 * npages length <= USERTOP ->
  exists T' l' k' r, mmap_load_pages kend pgdir a length prot flags 0 offset s = Ret r (set_k k' s) /\
    space kend base pgdir T' fl al pgs l' (set_pages k' (hp s)) /\
    (r = 0 /\ loaded kend pgdir T l (kof s) T' l' k' a (npages length) /\ same_user kend T (kof s) T' k' (fun x => ~ a <= x < a + 4096 * npages length) \/
     r < 0 /\ same_user kend T (kof s) T' k' (fun _ => True) /\
       ((exists x, a <= x < a + 4096 * npages length /\ valid_pte (pte_at T (kof s) x) = true) \/ Z.of_nat (List.length l) <= 4 * npages length)).
Proof using kend_ok base_ok.
  intros HS Han Ha Ha0 Hlen Htop. destruct (npages_bounds length ltac:(lia)) as [Hn0 Hn]. unfold mmap_load_pages. rewrite Han.
  pose proof (loaded_nil kend pgdir T l (kof s) a (sp_vm _ _ _ _ _ _ _ _ _ HS) (sp_leaves _ _ _ _ _ _ _ _ _ HS)) as H0.
  destruct (map_anon_pages_run kend pgdir kend_ok T l (kof s) a length (load_perm prot flags) (sp_vm _ _ _ _ _ _ _ _ _ HS) (sp_leaves _ _ _ _ _ _ _ _ _ HS) Ha Ha0 ltac:(lia) Htop
    (vm_rounds length) 0 s T l H0 ltac:(lia)) as (T' & l' & k' & r & E & Hr); [|lia|].
  { unfold vm_rounds, PGSIZE. pose proof (Z.div_mod length 4096 ltac:(lia)). pose proof (Z.mod_pos_bound length 4096 ltac:(lia)). lia. }
  exists T', l', k', r. split; [exact E|]. destruct Hr as [[-> Hld]|(Hr & Hun & Hwhy)].
  - destruct (space_loaded kend base pgdir kend_ok base_ok T fl al pgs l (hp s) T' l' k' a (npages length) HS Hld Ha Ha0 Htop) as [HS' HU].
    split; [done|]. left. done.
  - destruct (space_unchanged kend base pgdir kend_ok base_ok T fl al pgs l (hp s) T' l' k' HS Hun) as [HS' HU]. split; [done|]. right. done.
Qed.

(** What [mmap] leaves: a new region, or the old ones, and why it failed. *)
Definition mapped (T : gmap (list Z) Z) (al : list (Z * Z)) (L : list (Z * mmap_region)) (s : mstate F) (addr length prot flags offset r : Z) (s' : mstate F) : Prop :=
  let n := 4096 * npages length in
  exists T' fl' pgs' l' L1 L2 node, L = L1 ++ L2 /\
    mm T' fl' al pgs' l' (L1 ++ (node, mkRegion r n offset 0 prot flags) :: L2) s' /\
    (addr <> 0 -> Forall (apart (4096 * (addr / 4096)) n) L.*2 -> r = 4096 * (addr / 4096)) /\
    (forall x, r <= x < r + n -> user_byte (mem (kof s)) pgdir x = None /\ user_byte (mem (kof s')) pgdir x = Some 0) /\
    view_same s s' (fun x => ~ r <= x < r + n).

Definition refused (T : gmap (list Z) Z) (al : list (Z * Z)) (l : list Z) (L : list (Z * mmap_region)) (s : mstate F) (length r : Z) (s' : mstate F) : Prop :=
  let n := 4096 * npages length in
  exists T' fl' pgs' l', r = - ENOMEM /\ mm T' fl' al pgs' l' L s' /\ view_same s s' (fun _ => True) /\
    (l = [] \/ USERTOP < MMAPBASE + n \/ exists g, g ∈ L.*2 /\ USERTOP < rend g + n).

(** The pages could not be loaded: the node was given back but is still in the
    list. *)
Definition dangling (T : gmap (list Z) Z) (al : list (Z * Z)) (l : list Z) (L : list (Z * mmap_region)) (s : mstate F) (length r : Z) (s' : mstate F) : Prop :=
  let n := 4096 * npages length in
  exists T' fl' pgs' l' L1 L2 node g, r < 0 /\ L = L1 ++ L2 /\ space kend base pgdir T' fl' (blocks L ++ al) pgs' l' (hp s') /\
    nlist (nodes s') (regions s') (L1 ++ (node, g) :: L2) /\ nregions s' = Z.of_nat (List.length L) /\ view_same s s' (fun _ => True) /\
    (Z.of_nat (List.length l) <= 4 * npages length + 1 \/
     exists x, r_addr g <= x < r_addr g + n /\ user_byte (mem (kof s)) pgdir x <> None).

(** The success of [mmap]: the state after the node is linked and its pages
    are loaded. *)
Lemma mapped_intro T fl al pgs l L (s : mstate F) T1 fl1 q pgs1 l1 h1 T2 l2 k2 m r' L1 L2 a length offset prot flags addr :
  let g := mkRegion a length offset 0 prot flags in
  mm T fl al pgs l L s -> same_user kend T (kof s) T1 (pages_of h1) (fun _ => True) ->
  space kend base pgdir T2 fl1 ((q, NODE_UNITS) :: blocks L ++ al) pgs1 l2 (set_pages k2 h1) ->
  vm kend pgdir T1 l1 (pages_of h1) -> loaded kend pgdir T1 l1 (pages_of h1) T2 l2 k2 a (npages length) ->
  same_user kend T1 (pages_of h1) T2 k2 (fun x => ~ a <= x < a + 4096 * npages length) ->
  L = L1 ++ L2 -> nlist m r' (L1 ++ (q + HDR, g) :: L2) -> Forall (fun h => r_addr h < a) L1.*2 -> Forall (fun h => a < r_addr h) L2.*2 ->
  a mod 4096 = 0 -> 0 <= a -> 0 < length < 2 ^ 62 -> a + 4096 * npages length <= USERTOP -> Forall (apart a (4096 * npages length)) L.*2 ->
  (addr <> 0 -> Forall (apart (4096 * (addr / 4096)) (4096 * npages length)) L.*2 -> a = 4096 * (addr / 4096)) ->
  exists n, m !! (q + HDR) = Some (mkN g n) /\
    mapped T al L s addr length prot flags offset a
      (mkMs (set_pages k2 h1) (<[q + HDR := mkN (mkRegion a (4096 * npages length) offset 0 prot flags) n]> m) r' (s32 (nregions s + 1)) (files s)).
Proof using kend_ok base_ok.
  intros g H HU1 HS2 HV1 Hld HU2 EL Hl H1 H2 Ha Ha0 Hlen Htop Hap Hhint. destruct (npages_bounds length ltac:(lia)) as [Hn0 Hn].
  set (g' := mkRegion a (4096 * npages length) offset 0 prot flags). pose proof (mm_wf _ _ _ _ _ _ _ H) as Hwf.
  assert (region_ok g') as Hg'.
  { split; cbn; [done| |exact Htop]. split; [rewrite Z.mul_comm; apply Z.mod_mul; lia|lia]. }
  assert (wf (L1 ++ (q + HDR, g') :: L2).*2) as Hwf'.
  { rewrite EL, fmap_app in Hwf, Hap. rewrite fmap_app. cbn. by apply wf_insert. }
  assert (NoDup (L1 ++ (q + HDR, g) :: L2).*1) as Hnd.
  { pose proof (sorted_nodup _ _ _ (mm_list _ _ _ _ _ _ _ H) Hwf) as Hnd. pose proof (fresh_node _ _ _ _ _ _ _ _ HS2) as Hfr.
    rewrite EL, fmap_app in Hnd, Hfr. rewrite fmap_app. cbn. rewrite <- Permutation_middle. by constructor. }
  destruct (nlist_put _ _ _ _ _ _ g' Hl Hnd) as (n & En & Hl'). exists n. split; [done|].
  pose proof (same_user_trans _ _ _ _ _ _ _ _ HU1 HU2) as HU. destruct (ld_fresh _ _ _ _ _ _ _ _ _ _ Hld) as [Fr HF].
  exists T2, fl1, pgs1, l2, L1, L2, (q + HDR). split; [done|]. split; [|split; [done|split]].
  - split; cbn [hp nodes regions nregions].
    + eapply space_perm; [exact HS2|]. rewrite EL. apply blocks_insert.
    + done.
    + done.
    + rewrite (mm_count _ _ _ _ _ _ _ H). pose proof (count_bound _ _ _ _ _ _ _ H). rewrite EL, !length_app in *. cbn [List.length]. rewrite s32_id; lia.
    + assert (Forall (fun g => held kend T2 k2 (r_addr g) (r_length g / 4096)) (L1 ++ L2).*2) as Hold.
      { rewrite <- EL. eapply regions_held; [exact HU|done| |apply H]. intros h x Hh Hx. split; [done|]. rewrite Forall_forall in Hap. destruct (Hap h Hh); lia. }
      rewrite fmap_app in Hold |- *. apply Forall_app in Hold as [O1 O2]. apply Forall_app. split; [done|]. constructor; [|done]. cbn.
      rewrite (Z.mul_comm 4096), Z.div_mul by lia. by eapply fresh_held.
  - intros x Hx. cbn [kof hp set_pages pages_of]. unfold kof in *. cbn [pages_of set_pages hp].
    rewrite (user_byte_vm kend kend_ok pgdir T l _ x (sp_vm _ _ _ _ _ _ _ _ _ (mm_space _ _ _ _ _ _ _ H))).
    rewrite (user_byte_vm kend kend_ok pgdir T2 l2 k2 x (ld_vm _ _ _ _ _ _ _ _ _ _ Hld)).
    split; [|by apply (ld_zero _ _ _ _ _ _ _ _ _ _ Hld)]. rewrite <- (su_ub _ _ _ _ _ _ HU1) by (done || unfold USERTOP in *; lia).
    apply ub_none. by apply (ld_free _ _ _ _ _ _ _ _ _ _ Hld).
  - eapply (view_user T fl _ pgs l T2 fl1); [apply H|exact HS2|]. eapply same_weaken; [exact HU|]. done.
Qed.

(** [mmap_load] of a new node: success, or the node is given back. *)
Lemma mmap_load_run T fl al pgs l L (s : mstate F) q fl1 pgs1 l1 h1 m' r' L1 L2 a addr length prot flags offset :
  let g := mkRegion a length offset 0 prot flags in
  let s3 := set_regions r' (set_nodes m' (set_hp h1 s)) in
  mm T fl al pgs l L s -> same_user kend T (kof s) T (pages_of h1) (fun _ => True) -> (List.length l <= List.length l1 + 1)%nat ->
  space kend base pgdir T fl1 ((q, NODE_UNITS) :: blocks L ++ al) pgs1 l1 h1 ->
  L = L1 ++ L2 -> nlist m' r' (L1 ++ (q + HDR, g) :: L2) -> Forall (fun h => r_addr h < a) L1.*2 -> Forall (fun h => a < r_addr h) L2.*2 ->
  has flags MAP_ANONYMOUS = true -> a mod 4096 = 0 -> 0 <= a -> 0 < length < 2 ^ 62 -> a + 4096 * npages length <= USERTOP ->
  Forall (apart a (4096 * npages length)) L.*2 ->
  (addr <> 0 -> Forall (apart (4096 * (addr / 4096)) (4096 * npages length)) L.*2 -> a = 4096 * (addr / 4096)) ->
  exists N r s', (forall kf, (N <= kf)%nat -> mmap_load kend kf pgdir (q + HDR) a length prot flags 0 offset s3 = Ret r s') /\
    (mapped T al L s addr length prot flags offset r s' \/ dangling T al l L s length r s').
Proof using kend_ok base_ok.
  intros g s3 H HU1 Hl1 HS1 EL Hl' Hb1 Hb2 Han Ham Ha0 Hlen Htop Hap Hhint. pose proof (mm_space _ _ _ _ _ _ _ H) as HS.
  destruct (load_anon_run T fl1 ((q, NODE_UNITS) :: blocks L ++ al) pgs1 l1 s3 a length prot flags offset HS1 Han Ham Ha0 Hlen Htop)
    as (T2 & l2 & k2 & e & Eload & HS2 & Hres). destruct Hres as [(-> & Hld & HU2)|(He & HU2 & Hwhy)].
  - destruct (mapped_intro T fl al pgs l L s T fl1 q pgs1 l1 h1 T2 l2 k2 m' r' L1 L2 a length offset prot flags addr H HU1 HS2 (sp_vm _ _ _ _ _ _ _ _ _ HS1) Hld HU2
      EL Hl' Hb1 Hb2 Ham Ha0 Hlen Htop Hap Hhint) as (nx & Enx & Hm).
    eexists 0%nat, a, _. split; [|left; exact Hm]. intros kf _. unfold mmap_load. rewrite (bind_run _ _ _ _ _ Eload). cbn [Z.ltb Z.compare].
    erewrite bind_run by reflexivity. assert (nodes (set_nregions (s32 (nregions (set_k k2 s3) + 1)) (set_k k2 s3)) !! (q + HDR) = Some (mkN g nx)) as Eg by exact Enx.
    rewrite (bind_run _ _ _ _ _ (get_node_run _ _ _ Eg)). rewrite roundup_npages by lia. done.
  - destruct (kmfree_space kend base pgdir kend_ok base_ok T2 fl1 q (blocks L ++ al) pgs1 l2 (set_pages k2 h1) HS2) as (N3 & h3 & fl3 & EF & HS3 & HU3).
    exists N3, e, (set_hp h3 s3). split; [|right].
    + intros kf Hkf. unfold mmap_load. rewrite (bind_run _ _ _ _ _ Eload). destruct (Z.ltb_spec e 0); [|lia]. unfold mmap_out. cbn [Z.eqb negb when].
      rewrite (bind_run _ _ _ _ _ (eq_refl : ret tt (set_k k2 s3) = Ret tt (set_k k2 s3))).
      assert (on_h (kmfree kf (q + HDR)) (set_k k2 s3) = Ret tt (set_hp h3 s3)) as Ef by (apply (on_h_run _ (set_k k2 s3)); by apply EF).
      by rewrite (bind_run _ _ _ _ _ Ef).
    + exists T2, fl3, pgs1, l2, L1, L2, (q + HDR), g. split; [done|]. split; [done|]. split; [done|]. split; [done|]. split; [apply H|]. split.
      * eapply (view_user T fl _ pgs l T2 fl3); [exact HS|exact HS3|]. eapply same_weaken; [eapply same_user_trans; [eapply same_user_trans; [exact HU1|exact HU2]|exact HU3]|]. done.
      * destruct Hwhy as [(x & Hx & Hv)|Hfew]; [right|left; lia]. exists x. split; [exact Hx|]. change (kof s3) with (pages_of h1) in Hv.
        unfold kof. rewrite (user_byte_vm kend kend_ok pgdir T l (pages_of (hp s)) x (sp_vm _ _ _ _ _ _ _ _ _ HS)).
        rewrite <- (su_ub _ _ _ _ _ _ HU1) by (done || unfold USERTOP in *; lia). unfold ub. by rewrite Hv.
Qed.

(** C11: an anonymous [mmap] without [MAP_FIXED].  In a process whose regions are
    whole pages, apart, sorted and mapped, over a sound heap and sound page
    tables, it always returns.  A hint over the top of the user space gives
    EINVAL (positive).  Otherwise it gives the address of a range that was unmapped,
    apart from every region (the hint, when that is free), which now reads as zeros;
    the new region is in its place in the list, the invariant holds again, and no other byte of
    the process has changed.  It fails only for lack of addresses or pages, or
    because another page is mapped in the range, and then no byte of the process has changed; when the
    loading fails, the node stays in the list although it was freed. *)
Theorem mmap_anonymous T fl al pgs l L (s : mstate F) uninit addr length prot flags offset :
  mm T fl al pgs l L s -> has flags MAP_ANONYMOUS = true -> has flags MAP_FIXED = false -> 0 <= addr < 2 ^ 63 -> 0 < length < 2 ^ 62 ->
  exists N r s', (forall kf, (N <= kf)%nat -> mmap kend base kf pgdir uninit addr length prot flags 0 offset s = Ret r s') /\
    (over_top addr length = true /\ r = EINVAL /\ s' = s \/
     over_top addr length = false /\
       (mapped T al L s addr length prot flags offset r s' \/ refused T al l L s length r s' \/ dangling T al l L s length r s')).
Proof using kend_ok base_ok.
  intros H Han Hnf Haddr Hlen. destruct (npages_bounds length ltac:(lia)) as [Hn0 Hn].
  pose proof (mm_space _ _ _ _ _ _ _ H) as HS. pose proof (mm_wf _ _ _ _ _ _ _ H) as Hwf. pose proof (mm_list _ _ _ _ _ _ _ H) as Hl.
  destruct (choose_addr_run pgdir s L addr length prot flags Hl Hwf Hnf Haddr Hlen) as [[Ho E]|(Ho & a & E & Hab & Ham & Hap & Hhint & Hwhere)].
  { exists 0%nat, EINVAL, s. split; [|by left]. intros kf _. unfold mmap. by rewrite (bind_run _ _ _ _ _ E). }
  set (n := 4096 * npages length) in *.
  assert (Hpre : forall kf, mmap kend base kf pgdir uninit addr length prot flags 0 offset s =
    (if USERTOP <? a + n then ret (- ENOMEM) else
     let* region := on_h (kmalloc base kf NODE_SIZE) in
     if region =? 0 then ret (- ENOMEM) else
     put_node region (mkN (mkRegion a length offset 0 prot flags) 0) ;; link_region region a ;;
     mmap_load kend kf pgdir region a length prot flags 0 offset) s).
  { intros kf. unfold mmap. rewrite (bind_run _ _ _ _ _ E). rewrite roundup_npages by lia. fold n. rewrite u64_id by (unfold USERTOP in *; lia). cbn [Z.eqb negb andb]. done. }
  destruct (Z.ltb_spec USERTOP (a + n)) as [Hover|Hfit].
  { exists 0%nat, (- ENOMEM), s. split; [intros kf _; by rewrite Hpre|]. right. split; [done|]. right. left. exists T, fl, pgs, l. split; [done|]. split; [done|].
    split; [done|]. right. destruct Hwhere as [Hc|[->|(g & Hg & ->)]]; [lia|by left|]. right. by exists g. }
  destruct (kmalloc_space kend base pgdir kend_ok base_ok T fl (blocks L ++ al) pgs l (hp s) HS) as (N1 & r1 & h1 & fl1 & al1 & pgs1 & l1 & EN & HS1 & HU1 & Hr1).
  assert (forall kf, (N1 <= kf)%nat -> on_h (kmalloc base kf NODE_SIZE) s = Ret r1 (set_hp h1 s)) as EN' by (intros; by apply on_h_run, EN).
  destruct Hr1 as [(-> & -> & ->)|((q & -> & Hq0 & ->) & Hl1)].
  { exists N1, (- ENOMEM), (set_hp h1 s). split; [intros kf Hkf; by rewrite Hpre, (bind_run _ _ _ _ _ (EN' kf Hkf))|]. right. split; [done|]. right. left.
    exists T, fl1, pgs1, l1. split; [done|]. split; [|split; [|by left]].
    - split; [done|done|done|apply H|]. eapply regions_held; [exact HU1|done|done|apply H].
    - eapply (view_user T fl _ pgs [] T fl1); [exact HS|exact HS1|exact HU1]. }
  destruct (new_node_run T fl1 q al pgs1 l1 L (set_hp h1 s) a length offset prot flags HS1 Hq0 Hl Hwf (mm_count _ _ _ _ _ _ _ H) ltac:(lia) Hap)
    as (m' & r' & L1 & L2 & Elink & EL & Hl' & Hb1 & Hb2).
  destruct (mmap_load_run T fl al pgs l L s q fl1 pgs1 l1 h1 m' r' L1 L2 a addr length prot flags offset H HU1 Hl1 HS1 EL Hl' Hb1 Hb2 Han Ham ltac:(lia) Hlen
    ltac:(lia) Hap ltac:(auto)) as (N2 & r & s' & E2 & Hres).
  exists (N1 + N2)%nat, r, s'. split; [|right; split; [done|]; destruct Hres; auto]. intros kf Hkf.
  rewrite Hpre, (bind_run _ _ _ _ _ (EN' kf ltac:(lia))), (proj2 (Z.eqb_neq _ _) Hq0). revert Elink. unfold bind at 1.
  destruct (put_node (q + HDR) _ (set_hp h1 s)) as [[] sx|?|?|] eqn:Ex; try done. intros Elink. rewrite (bind_run _ _ _ _ _ Ex), (bind_run _ _ _ _ _ Elink).
  apply E2. lia.
Qed.

(** * Unmapping *)

Lemma wf_remove L1 g L2 : wf (L1 ++ g :: L2) -> wf (L1 ++ L2).
Proof using.
  intros [Hok Hs]. apply Forall_app in Hok as [O1 O2]. apply Forall_cons in O2 as [_ O2]. apply StronglySorted_app in Hs as (Hb & S1 & S2).
  apply StronglySorted_inv in S2 as [S2 _]. split; [by apply Forall_app|]. apply StronglySorted_app. split; [|done]. intros x y Hx Hy. apply Hb; [done|by right].
Qed.

(** The other regions are apart from [g]. *)
Lemma wf_apart L1 g L2 h x : wf (L1 ++ g :: L2) -> h ∈ L1 ++ L2 -> r_addr h <= x < rend h -> ~ r_addr g <= x < rend g.
Proof using.
  intros [_ Hs] Hh Hx. apply StronglySorted_app in Hs as (Hb & _ & S2). apply StronglySorted_inv in S2 as [_ S2]. rewrite Forall_forall in S2.
  apply elem_of_app in Hh as [Hh|Hh]; [specialize (Hb h g Hh ltac:(by left)); unfold before in Hb; lia|specialize (S2 h Hh); unfold before in S2; lia].
Qed.

Lemma region_pages g : region_ok g -> 4096 * (r_length g / 4096) = r_length g /\ 0 < r_length g / 4096 /\ u64 (r_length g + PGSIZE - 1) / PGSIZE = r_length g / 4096.
Proof using.
  intros [[_ H1] [H2 H3] H4]. unfold rend, USERTOP, PGSIZE in *. rewrite u64_id by lia. pose proof (Z.div_mod (r_length g) 4096 ltac:(lia)).
  split; [lia|]. split; [lia|]. replace (r_length g + 4096 - 1) with (4095 + r_length g / 4096 * 4096) by lia. rewrite Z.div_add by lia. done.
Qed.

(** [delete_mmap_node]: the region and its pages are gone. *)
Lemma delete_run T fl al pgs l L1 a g L2 (s : mstate F) :
  mm T fl al pgs l (L1 ++ (a, g) :: L2) s ->
  exists N fl' l' m' r' h', (forall kf, (N <= kf)%nat -> delete_mmap_node kend kf pgdir a s = Ret tt (mkMs h' m' r' (nregions s) (files s))) /\
    mm T fl' al pgs l' (L1 ++ L2) (mkMs h' m' r' (nregions s - 1) (files s)) /\
    same_user kend T (kof s) T (pages_of h') (fun x => ~ r_addr g <= x < rend g) /\ (forall x, r_addr g <= x < rend g -> ub T (pages_of h') x = None) /\
    m' !! a = nodes s !! a.
Proof using kend_ok base_ok.
  intros H. pose proof (mm_wf _ _ _ _ _ _ _ H) as Hwf. pose proof (mm_list _ _ _ _ _ _ _ H) as Hl. pose proof (mm_held _ _ _ _ _ _ _ H) as Hh.
  destruct (unlink_node_run s L1 a g L2 Hl Hwf) as (m' & r' & Eu & Hl' & Em). destruct (nlist_node _ _ _ a g Hl ltac:(set_solver)) as (Ha0 & n & En).
  set (s1 := set_regions r' (set_nodes m' s)) in *. rewrite fmap_app in Hwf, Hh. cbn in Hwf, Hh. apply Forall_app in Hh as [Hh1 Hh2]. apply Forall_cons in Hh2 as [Hhg Hh2].
  assert (region_ok g) as Hg by (destruct Hwf as [Hok _]; apply Forall_app in Hok as [_ Hok]; by apply Forall_cons in Hok as [Hok _]).
  destruct (region_pages g Hg) as (El & Hpos & Eu64). pose proof Hg as [[Hg1 Hg2] [Hg3 Hg4] Hg5].
  assert (space kend base pgdir T fl ((a - HDR, NODE_UNITS) :: blocks (L1 ++ L2) ++ al) pgs l (hp s1)) as HS1.
  { eapply space_perm; [apply H|]. symmetry. rewrite (blocks_insert L1 (a - HDR) g L2 al). by replace (a - HDR + HDR) with a by lia. }
  destruct (space_unmap kend base pgdir kend_ok base_ok T fl _ pgs l s1 (r_addr g) (r_length g / 4096) HS1 Hg1 Hg2 ltac:(lia)) as (l' & k' & Eun & HS2 & HU2 & Hnone & _);
    [rewrite El; exact Hg5|exact Hhg|]. rewrite El in HU2, Hnone.
  destruct (kmfree_space kend base pgdir kend_ok base_ok T fl (a - HDR) _ pgs l' _ HS2) as (N & h' & fl' & EF & HS3 & HU3).
  pose proof (same_user_trans _ _ _ _ _ _ _ _ HU2 HU3) as HU. exists N, fl', l', m', r', h'. split; [|split; [|split; [|split; [|done]]]].
  - intros kf Hkf. unfold delete_mmap_node. erewrite bind_run by reflexivity. cbv beta.
    destruct (Z.eqb_spec (regions s) 0) as [Ez|_]; [apply (nlist_head _ _ _ Hl) in Ez; by destruct L1|].
    rewrite (bind_run _ _ _ _ _ Eu). assert (nodes s1 !! a = Some (mkN g n)) as En1 by (unfold s1; cbn [nodes set_regions set_nodes]; congruence).
    rewrite (bind_run _ _ _ _ _ (get_node_run _ _ _ En1)). cbn [reg]. rewrite Eu64, (bind_run _ _ _ _ _ Eun).
    apply (on_h_run (kmfree kf a) (set_k k' s1)). specialize (EF kf Hkf). by replace (a - HDR + HDR) with a in EF by lia.
  - split; cbn [hp nodes regions nregions]; [exact HS3|done|rewrite fmap_app; by eapply wf_remove| |].
    + rewrite (mm_count _ _ _ _ _ _ _ H), !length_app. cbn [List.length]. lia.
    + rewrite fmap_app. eapply regions_held; [exact HU|by eapply wf_remove| |by apply Forall_app]. intros h x Hhh Hx. split; [|done]. by eapply wf_apart.
  - eapply same_weaken; [exact HU|]. done.
  - intros x Hx. rewrite (su_ub _ _ _ _ _ _ HU3) by (done || unfold rend, USERTOP in *; lia). by apply Hnone.
Qed.

Lemma page_mask addr : truthy (Z.land addr (PGSIZE - 1)) = negb (addr mod 4096 =? 0).
Proof using. unfold truthy. change (PGSIZE - 1) with (Z.ones 12). by rewrite Z.land_ones by lia. Qed.

(** Regions that hold a common address are the same. *)
Lemma region_unique L1 (a : Z) g L2 b h x :
  wf (L1 ++ (a, g) :: L2).*2 -> r_addr g <= x < rend g -> (b, h) ∈ L1 ++ (a, g) :: L2 -> r_addr h <= x < rend h -> (b, h) = (a, g).
Proof using.
  intros Hwf Hg Hin Hh. rewrite fmap_app in Hwf. cbn in Hwf.
  assert ((b, h) ∈ L1 ++ L2 -> False) as Hno.
  2:{ apply elem_of_app in Hin as [Hin|[Hin|Hin]%elem_of_cons]; [|done|]; exfalso; apply Hno, elem_of_app; auto. }
  intros Hc. apply (wf_apart L1.*2 g L2.*2 h x Hwf); [|done|done].
  rewrite <- fmap_app. apply list_elem_of_fmap. by exists (b, h).
Qed.

(** [munmap] when the region of [addr] is found; nothing is written back for a
    mapping without a file. *)
Lemma munmap_found T fl al pgs l L1 a g L2 (s : mstate F) kf addr length :
  mm T fl al pgs l (L1 ++ (a, g) :: L2) s -> r_f g = 0 -> addr mod 4096 = 0 -> 0 <= length < 2 ^ 62 -> r_addr g <= addr < rend g ->
  exists n, nodes s !! a = Some (mkN g n) /\
  munmap kend kf pgdir addr length s =
    (if r_length g <=? 4096 * npages length then
       delete_mmap_node kend kf pgdir a ;; modify (fun s => set_nregions (s32 (nregions s - 1)) s) ;; ret 0
     else
       on_k (uvm_unmap kend pgdir addr (npages length)) ;;
       put_node a (mkN (mkRegion (u64 (r_addr g + 4096 * npages length)) (r_length g - 4096 * npages length) (r_offset g) (r_f g) (r_prot g) (r_flags g)) n) ;;
       ret 0) s.
Proof using kend_ok base_ok.
  intros H Hf Ha Hlen Hr. pose proof (mm_wf _ _ _ _ _ _ _ H) as Hwf. pose proof (mm_list _ _ _ _ _ _ _ H) as Hl.
  destruct (nlist_node _ _ _ a g Hl ltac:(set_solver)) as (Ha0 & n & En). exists n. split; [done|].
  assert (find_mmap_region addr s = Ret a s) as Ef.
  { unfold find_mmap_region. erewrite bind_run by reflexivity. cbv beta. erewrite bind_run by reflexivity. cbv beta.
    destruct (find_region_run s addr _ (walk_fuel s) _ Hl Hwf) as [[_ Hno]|(b & h & Hin & Hb & E)]; [unfold walk_fuel; pose proof (nlist_fuel _ _ _ Hl Hwf); lia| |].
    - exfalso. rewrite Forall_forall in Hno. apply (Hno g); [|done]. apply list_elem_of_fmap. exists (a, g). split; [done|set_solver].
    - pose proof (region_unique _ _ _ _ _ _ _ Hwf Hr Hin Hb) as Eq. by injection Eq as -> ->. }
  unfold munmap. rewrite page_mask, Ha. cbn [Z.eqb negb]. rewrite roundup_npages by lia. rewrite (bind_run _ _ _ _ _ Ef). destruct (Z.eqb_spec a 0); [done|].
  rewrite (bind_run _ _ _ _ _ (get_node_run _ _ _ En)). cbn [reg next]. rewrite Hf. cbn [Z.eqb negb]. rewrite andb_false_r. cbn [andb].
  rewrite (bind_run _ _ _ _ _ (eq_refl : ret 0 s = Ret 0 s)). cbn [Z.ltb Z.compare]. destruct (Z.leb_spec (r_length g) (4096 * npages length)).
  - cbn [when]. by rewrite (bind_run _ _ _ _ _ (eq_refl : ret tt s = Ret tt s)).
  - change PGSIZE with 4096. by rewrite (Z.mul_comm 4096 (npages length)), Z.div_mul by lia.
Qed.

Lemma wf_shrink L1 g L2 g' : wf (L1 ++ g :: L2) -> region_ok g' -> r_addr g <= r_addr g' -> rend g' = rend g -> wf (L1 ++ g' :: L2).
Proof using.
  intros [Hok Hs] Hg' Ha Hr. apply Forall_app in Hok as [O1 O2]. apply Forall_cons in O2 as [_ O2]. apply StronglySorted_app in Hs as (Hb & S1 & S2).
  apply StronglySorted_inv in S2 as [S2 Sb]. split; [apply Forall_app; split; [done|by constructor]|]. apply StronglySorted_app. split; [|split; [done|constructor; [done|]]].
  - intros x y Hx [->|Hy]%elem_of_cons; [specialize (Hb x g Hx ltac:(by left)); unfold before in *; lia|apply Hb; [done|by right]].
  - rewrite Forall_forall in *. intros x Hx. specialize (Sb x Hx). unfold before in *. lia.
Qed.

(** The region without its first [n] bytes. *)
Definition front (g : mmap_region) (n : Z) : mmap_region := mkRegion (u64 (r_addr g + n)) (r_length g - n) (r_offset g) (r_f g) (r_prot g) (r_flags g).

Lemma rg_ok_of T fl al pgs l L1 a g L2 (s : mstate F) : mm T fl al pgs l (L1 ++ (a, g) :: L2) s -> region_ok g.
Proof using.
  intros H. destruct (mm_wf _ _ _ _ _ _ _ H) as [Hok _]. rewrite fmap_app in Hok. apply Forall_app in Hok as [_ Hok]. cbn in Hok. by apply Forall_cons in Hok as [Hok _].
Qed.

(** Unmapping the first pages of a region. *)
Lemma munmap_front T fl al pgs l L1 a g L2 (s : mstate F) length :
  mm T fl al pgs l (L1 ++ (a, g) :: L2) s -> 0 <= length < 2 ^ 62 -> 4096 * npages length < r_length g ->
  let n := 4096 * npages length in
  exists l' k' nx, on_k (uvm_unmap kend pgdir (r_addr g) (npages length)) s = Ret tt (set_k k' s) /\ nodes s !! a = Some (mkN g nx) /\
    mm T fl al pgs l' (L1 ++ (a, front g n) :: L2) (set_nodes (<[a := mkN (front g n) nx]> (nodes s)) (set_k k' s)) /\
    same_user kend T (kof s) T k' (fun x => ~ r_addr g <= x < r_addr g + n) /\ (forall x, r_addr g <= x < r_addr g + n -> ub T k' x = None).
Proof using kend_ok base_ok.
  intros H Hlen Hlt n. pose proof (mm_wf _ _ _ _ _ _ _ H) as Hwf. pose proof (mm_list _ _ _ _ _ _ _ H) as Hl. pose proof (mm_held _ _ _ _ _ _ _ H) as Hh.
  pose proof (rg_ok_of _ _ _ _ _ _ _ _ _ _ H) as Hg. destruct (region_pages g Hg) as (El & Hpos & _). pose proof Hg as [[Hg1 Hg2] [Hg3 Hg4] Hg5].
  pose proof (sorted_nodup _ _ _ Hl Hwf) as Hnd. rewrite fmap_app in Hwf, Hh. cbn in Hwf, Hh. apply Forall_app in Hh as [Hh1 Hh2]. apply Forall_cons in Hh2 as [Hhg Hh2].
  assert (0 <= npages length) as Hn0 by (unfold npages; apply Z.div_pos; lia). unfold rend in Hg5.
  assert (Hn : n = 4096 * npages length) by done. rewrite <- Hn in Hlt.
  destruct (space_unmap kend base pgdir kend_ok base_ok T fl _ pgs l s (r_addr g) (npages length) (mm_space _ _ _ _ _ _ _ H) Hg1 Hg2 Hn0) as (l' & k' & E & HS' & HU & Hnone & _);
    [rewrite <- Hn; lia|intros j Hj; apply Hhg; lia|]. rewrite <- Hn in HU, Hnone.
  destruct (nlist_put _ _ _ _ _ _ (front g n) Hl Hnd) as (nx & En & Hl'). exists l', k', nx. split; [done|]. split; [done|]. split; [|done].
  assert (r_addr (front g n) = r_addr g + n) as Ea by (cbn; unfold USERTOP in *; apply u64_id; lia).
  assert (region_ok (front g n)) as Hf.
  { assert (n mod 4096 = 0) as Hnm by (rewrite Hn, Z.mul_comm; apply Z.mod_mul; lia). split; unfold rend; rewrite ?Ea; cbn [front r_length].
    - split; [rewrite Zplus_mod, Hg1, Hnm; done|lia].
    - split; [rewrite Zminus_mod, Hg3, Hnm; done|lia].
    - lia. }
  assert (wf (L1.*2 ++ front g n :: L2.*2)) as Hwf'.
  { eapply wf_shrink; [exact Hwf|done|rewrite Ea; lia|]. unfold rend. rewrite Ea. cbn. lia. }
  assert (forall h x, h ∈ L1.*2 ++ front g n :: L2.*2 -> r_addr h <= x < rend h -> ~ r_addr g <= x < r_addr g + n) as Hout.
  { intros h x Hh Hx Hc. assert (h = front g n \/ h ∈ L1.*2 ++ L2.*2) as [->|Hin] by set_solver; [lia|].
    apply (wf_apart _ _ _ h x Hwf Hin Hx). unfold rend. lia. }
  split; cbn [hp nodes regions nregions set_nodes set_k set_hp].
  - unfold blocks in *. rewrite fmap_app, fmap_cons in *. exact HS'.
  - exact Hl'.
  - by rewrite fmap_app.
  - rewrite (mm_count _ _ _ _ _ _ _ H), !length_app. done.
  - rewrite fmap_app. cbn [fmap list_fmap snd]. change (kof _) with k'. eapply regions_held; [exact HU|exact Hwf'|exact Hout|].
    apply Forall_app. split; [done|]. constructor; [|done]. intros j Hj. rewrite Ea. replace (r_addr g + n + 4096 * j) with (r_addr g + 4096 * (npages length + j)) by lia.
    apply Hhg. cbn [front r_length] in Hj. rewrite Hn in Hj. replace (r_length g - 4096 * npages length) with (r_length g + - npages length * 4096) in Hj by lia.
    rewrite Z.div_add in Hj by lia. lia.
Qed.

(** C12: [munmap] of anonymous mappings.  An address that is not a multiple of the page
    size gives -EINVAL, an address in no region gives 0, and both change nothing.
    When the region of the address is at most as long as the range, it
    is removed with all its pages; when it is longer and the range is its
    beginning, these pages are unmapped and the region begins after them.  The
    invariant holds again, and no byte outside the removed pages has changed. *)
Theorem munmap_exact T fl al pgs l L (s : mstate F) addr length :
  mm T fl al pgs l L s -> Forall (fun g => r_f g = 0) L.*2 -> 0 <= length < 2 ^ 62 ->
  let n := 4096 * npages length in
  (addr mod 4096 <> 0 -> forall kf, munmap kend kf pgdir addr length s = Ret (- EINVAL) s) /\
  (addr mod 4096 = 0 -> Forall (fun g => ~ r_addr g <= addr < rend g) L.*2 -> forall kf, munmap kend kf pgdir addr length s = Ret 0 s) /\
  (forall L1 a g L2, addr mod 4096 = 0 -> L = L1 ++ (a, g) :: L2 -> r_addr g <= addr < rend g ->
     (r_length g <= n -> exists N s', (forall kf, (N <= kf)%nat -> munmap kend kf pgdir addr length s = Ret 0 s') /\
        (exists fl' l', mm T fl' al pgs l' (L1 ++ L2) s') /\
        (forall x, r_addr g <= x < rend g -> user_byte (mem (kof s')) pgdir x = None) /\ view_same s s' (fun x => ~ r_addr g <= x < rend g)) /\
     (n < r_length g -> addr = r_addr g -> exists s', (forall kf, munmap kend kf pgdir addr length s = Ret 0 s') /\
        (exists l', mm T fl al pgs l' (L1 ++ (a, mkRegion (addr + n) (r_length g - n) (r_offset g) 0 (r_prot g) (r_flags g)) :: L2) s') /\
        (forall x, addr <= x < addr + n -> user_byte (mem (kof s')) pgdir x = None) /\ view_same s s' (fun x => ~ addr <= x < addr + n))).
Proof using kend_ok base_ok.
  intros H Hf Hlen n. split; [|split].
  - intros Ha kf. unfold munmap. rewrite page_mask. by destruct (Z.eqb_spec (addr mod 4096) 0).
  - intros Ha Hno kf. unfold munmap. rewrite page_mask, Ha. cbn [Z.eqb negb].
    assert (find_mmap_region addr s = Ret 0 s) as E; [|by rewrite (bind_run _ _ _ _ _ E)].
    unfold find_mmap_region. erewrite bind_run by reflexivity. cbv beta. erewrite bind_run by reflexivity. cbv beta.
    destruct (find_region_run s addr L (walk_fuel s) _ (mm_list _ _ _ _ _ _ _ H) (mm_wf _ _ _ _ _ _ _ H)) as [[E _]|(b & h & Hin & Hb & _)]; [|done|].
    + unfold walk_fuel. pose proof (nlist_fuel _ _ _ (mm_list _ _ _ _ _ _ _ H) (mm_wf _ _ _ _ _ _ _ H)). lia.
    + exfalso. rewrite Forall_forall in Hno. apply (Hno h); [|done]. apply list_elem_of_fmap. by exists (b, h).
  - intros L1 a g L2 Ha -> Hr. assert (r_f g = 0) as Hg0.
    { rewrite fmap_app in Hf. apply Forall_app in Hf as [_ Hf]. cbn in Hf. by apply Forall_cons in Hf as [Hf _]. }
    pose proof (mm_space _ _ _ _ _ _ _ H) as HS. split.
    + intros Hle. destruct (delete_run _ _ _ _ _ _ _ _ _ _ H) as (N & fl' & l' & m' & r' & h' & Ed & Hmm & HU & Hnone & _).
      assert (s32 (nregions s - 1) = nregions s - 1) as E32.
      { pose proof (count_bound _ _ _ _ _ _ _ H). rewrite (mm_count _ _ _ _ _ _ _ H), length_app in *. cbn [List.length] in *. apply s32_id. lia. }
      exists N, (mkMs h' m' r' (nregions s - 1) (files s)). split; [|split; [by exists fl', l'|split]].
      * intros kf Hkf. destruct (munmap_found _ _ _ _ _ _ _ _ _ _ kf addr length H Hg0 Ha Hlen Hr) as (nx & _ & ->). fold n.
        destruct (Z.leb_spec (r_length g) n); [|lia]. rewrite (bind_run _ _ _ _ _ (Ed kf Hkf)). erewrite bind_run by reflexivity. unfold set_nregions. cbn. by rewrite E32.
      * intros x Hx. unfold kof. cbn [hp]. rewrite (user_byte_vm kend kend_ok pgdir T l' (pages_of h') x); [by apply Hnone|].
        exact (sp_vm _ _ _ _ _ _ _ _ _ (mm_space _ _ _ _ _ _ _ Hmm)).
      * eapply (view_user T fl _ pgs l T fl'); [exact HS|exact (mm_space _ _ _ _ _ _ _ Hmm)|exact HU].
    + intros Hlt ->. destruct (munmap_front _ _ _ _ _ _ _ _ _ _ length H Hlen Hlt) as (l' & k' & nx & E & En & Hmm & HU & Hnone).
      exists (set_nodes (<[a := mkN (front g n) nx]> (nodes s)) (set_k k' s)). split; [|split; [|split]].
      * intros kf. destruct (munmap_found _ _ _ _ _ _ _ _ _ _ kf (r_addr g) length H Hg0 Ha Hlen Hr) as (nx' & En' & ->). fold n.
        rewrite En in En'. injection En' as <-. destruct (Z.leb_spec (r_length g) n); [lia|]. rewrite (bind_run _ _ _ _ _ E). done.
      * exists l'. assert (front g n = mkRegion (r_addr g + n) (r_length g - n) (r_offset g) 0 (r_prot g) (r_flags g)) as <-; [|exact Hmm].
        pose proof (rg_ok_of _ _ _ _ _ _ _ _ _ _ H) as [[_ ?] [_ ?] ?]. assert (0 <= npages length) by (unfold npages; apply Z.div_pos; lia).
        unfold front. rewrite Hg0, u64_id; [done|]. unfold n, rend, USERTOP in *. lia.
      * intros x Hx. change (kof _) with k'. rewrite (user_byte_vm kend kend_ok pgdir T l' k' x (sp_vm _ _ _ _ _ _ _ _ _ (mm_space _ _ _ _ _ _ _ Hmm))). by apply Hnone.
      * eapply (view_user T fl _ pgs l T fl); [exact HS|exact (mm_space _ _ _ _ _ _ _ Hmm)|exact HU].
Qed.

(** Unmapping pages inside a region: they are unmapped where the caller said,
    but the region loses as many pages from its beginning. *)
Theorem munmap_inside T fl al pgs l L1 a g L2 (s : mstate F) addr length :
  mm T fl al pgs l (L1 ++ (a, g) :: L2) s -> r_f g = 0 -> addr mod 4096 = 0 -> 0 <= length < 2 ^ 62 ->
  let n := 4096 * npages length in
  r_addr g < addr -> addr + n <= rend g -> addr < rend g -> n < r_length g ->
  exists s', (forall kf, munmap kend kf pgdir addr length s = Ret 0 s') /\ nlist (nodes s') (regions s') (L1 ++ (a, front g n) :: L2) /\
    (forall x, addr <= x < addr + n -> user_byte (mem (kof s')) pgdir x = None) /\ view_same s s' (fun x => ~ addr <= x < addr + n).
Proof using kend_ok base_ok.
  intros H Hg0 Ha Hlen n H1 H2 H3 H4. pose proof (rg_ok_of _ _ _ _ _ _ _ _ _ _ H) as Hg. destruct (region_pages g Hg) as (El & _ & _). pose proof Hg as [[Hg1 Hg2] [Hg3 Hg4] Hg5].
  pose proof (mm_held _ _ _ _ _ _ _ H) as Hh. rewrite fmap_app in Hh. apply Forall_app in Hh as [_ Hh]. cbn in Hh. apply Forall_cons in Hh as [Hh _].
  assert (0 <= npages length) as Hn0 by (unfold npages; apply Z.div_pos; lia). assert (Hn : n = 4096 * npages length) by done. unfold rend in *.
  destruct (space_unmap kend base pgdir kend_ok base_ok T fl _ pgs l s addr (npages length) (mm_space _ _ _ _ _ _ _ H) Ha ltac:(lia) Hn0) as (l' & k' & E & HS' & HU & Hnone & _); [lia| |].
  { intros j Hj. pose proof (Z.div_mod addr 4096 ltac:(lia)). pose proof (Z.div_mod (r_addr g) 4096 ltac:(lia)).
    replace (addr + 4096 * j) with (r_addr g + 4096 * (addr / 4096 - r_addr g / 4096 + j)) by lia. apply Hh. lia. }
  destruct (nlist_put _ _ _ _ _ _ (front g n) (mm_list _ _ _ _ _ _ _ H) (sorted_nodup _ _ _ (mm_list _ _ _ _ _ _ _ H) (mm_wf _ _ _ _ _ _ _ H))) as (nx & En & Hl').
  exists (set_nodes (<[a := mkN (front g n) nx]> (nodes s)) (set_k k' s)). split; [|split; [exact Hl'|split]].
  - intros kf. destruct (munmap_found _ _ _ _ _ _ _ _ _ _ kf addr length H Hg0 Ha Hlen ltac:(unfold rend; lia)) as (nx' & En' & ->). fold n.
    rewrite En in En'. injection En' as <-. destruct (Z.leb_spec (r_length g) n); [lia|]. by rewrite (bind_run _ _ _ _ _ E).
  - intros x Hx. change (kof _) with k'. rewrite (user_byte_vm kend kend_ok pgdir T l' k' x (sp_vm _ _ _ _ _ _ _ _ _ HS')). apply Hnone. lia.
  - eapply (view_user T fl _ pgs l T fl); [exact (mm_space _ _ _ _ _ _ _ H)|exact HS'|exact HU].
Qed.

(** [free_mmap_list] on anonymous mappings: no region is left, and their pages
    are gone. *)
Lemma free_list_run T al pgs : forall L fl l (s : mstate F),
  mm T fl al pgs l L s -> Forall (fun g => r_f g = 0) L.*2 ->
  exists N fl' l' s', (forall kf k, (N <= kf)%nat -> (length L <= k)%nat -> free_list_loop kend kf pgdir k (regions s) s = Ret tt s') /\
    mm T fl' al pgs l' [] s' /\ same_user kend T (kof s) T (kof s') (fun x => Forall (fun g => ~ r_addr g <= x < rend g) L.*2) /\
    (forall g x, g ∈ L.*2 -> r_addr g <= x < rend g -> ub T (kof s') x = None).
Proof using kend_ok base_ok.
  induction L as [|[a g] L IH]; intros fl l s H Hf.
  - exists 0%nat, fl, l, s. split; [|split; [done|split; [by split|by intros g x ?%elem_of_nil]]]. intros kf k _ _. rewrite (mm_list _ _ _ _ _ _ _ H). by destruct k.
  - destruct (delete_run T fl al pgs l [] a g L s H) as (N1 & fl1 & l1 & m1 & r1 & h1 & E1 & H1 & U1 & Z1 & M1). cbn [app] in *.
    cbn in Hf. apply Forall_cons in Hf as [Hf0 Hf]. set (s1 := mkMs h1 m1 r1 (nregions s - 1) (files s)) in *.
    destruct (IH fl1 l1 s1 H1 Hf) as (N2 & fl2 & l2 & s2 & E2 & H2 & U2 & Z2). exists (N1 + N2)%nat, fl2, l2, s2.
    pose proof (mm_list _ _ _ _ _ _ _ H) as (Er & Ha0 & n & En & Hn). pose proof (mm_list _ _ _ _ _ _ _ H1) as Hr1.
    assert (n = r1) as ->.
    { destruct L as [|[b h] L]; [cbn in Hn; unfold nlist in Hr1; cbn in Hr1; congruence|]. destruct Hn as (-> & _). by destruct Hr1 as (<- & _). }
    assert (s32 (nregions s - 1) = nregions s - 1) as E32.
    { pose proof (count_bound _ _ _ _ _ _ _ H) as Hb. rewrite (mm_count _ _ _ _ _ _ _ H). cbn [List.length] in *. apply s32_id. lia. }
    pose proof (mm_wf _ _ _ _ _ _ _ H) as Hwf. split; [|split; [done|split]].
    + intros kf [|k] Hkf Hk; cbn [List.length] in Hk; [lia|]. cbn [free_list_loop]. rewrite Er. destruct (Z.eqb_spec a 0); [done|].
      rewrite (bind_run _ _ _ _ _ (get_node_run _ _ _ En)). cbn [reg next]. rewrite Hf0. cbn [Z.eqb negb when].
      rewrite (bind_run _ _ _ _ _ (eq_refl : ret tt s = Ret tt s)). rewrite (bind_run _ _ _ _ _ (E1 kf ltac:(lia))). erewrite bind_run by reflexivity.
      unfold set_nregions. cbn [hp nodes regions nregions files]. rewrite E32. fold s1. rewrite En in M1.
      rewrite (bind_run _ _ _ _ _ (get_node_run s1 _ _ M1)). cbn [next]. apply (E2 kf k); lia.
    + eapply same_weaken; [eapply same_user_trans; [exact U1|exact U2]|]. intros x Hx. by apply Forall_cons in Hx.
    + intros h x [->|Hh]%elem_of_cons Hx; [|by eapply Z2]. cbn in Hwf. pose proof (wf_cons _ _ Hwf) as (Hg & Hwf2 & _).
      rewrite (su_ub _ _ _ _ _ _ U2); [by apply Z1| |].
      * destruct Hg as [[_ ?] _ ?]. unfold USERTOP in *. cbn in Hx. lia.
      * rewrite Forall_forall. intros h Hh Hc. by apply (wf_apart [] g L.*2 h x Hwf Hh Hc).
Qed.

Theorem free_mmap_list_exact T fl al pgs l L (s : mstate F) :
  mm T fl al pgs l L s -> Forall (fun g => r_f g = 0) L.*2 ->
  exists N s', (forall kf, (N <= kf)%nat -> free_mmap_list kend kf pgdir s = Ret tt s') /\ (exists fl' l', mm T fl' al pgs l' [] s') /\
    (forall g x, g ∈ L.*2 -> r_addr g <= x < rend g -> user_byte (mem (kof s')) pgdir x = None) /\
    view_same s s' (fun x => Forall (fun g => ~ r_addr g <= x < rend g) L.*2).
Proof using kend_ok base_ok.
  intros H Hf. destruct (free_list_run T al pgs L fl l s H Hf) as (N & fl' & l' & s' & E & H' & HU & HZ). exists N, s'. split; [|split; [by exists fl', l'|split]].
  - intros kf Hkf. unfold free_mmap_list. erewrite bind_run by reflexivity. cbv beta. erewrite bind_run by reflexivity. cbv beta. apply E; [done|].
    unfold walk_fuel. pose proof (nlist_fuel _ _ _ (mm_list _ _ _ _ _ _ _ H) (mm_wf _ _ _ _ _ _ _ H)). lia.
  - intros g x Hg Hx. rewrite (user_byte_vm kend kend_ok pgdir T l' (kof s') x (sp_vm _ _ _ _ _ _ _ _ _ (mm_space _ _ _ _ _ _ _ H'))). by eapply HZ.
  - eapply (view_user T fl _ pgs l T fl'); [exact (mm_space _ _ _ _ _ _ _ H)|exact (mm_space _ _ _ _ _ _ _ H')|exact HU].
Qed.
End Main.

(** * Page faults *)

(** A fault that cannot be resolved does not end the process: the result is
    compared as an unsigned number. *)
Theorem unresolved_fault_resumes {F : Type} {B : Backing F} kend pgdir (s : mstate F) far dfs :
  4 <= dfs <= 7 -> trap_abort kend pgdir dfs far s = Ret (Resumed (2 ^ 64 - 1)) s.
Proof.
  intros Hd. unfold trap_abort. destruct (Z.leb_spec 4 dfs), (Z.leb_spec dfs 15); try lia. cbn [andb].
  assert (pf_handler kend pgdir dfs far s = Ret (-1) s) as E; [|by rewrite (bind_run _ _ _ _ _ E)].
  unfold pf_handler. erewrite bind_run by reflexivity. cbv beta. erewrite bind_run by reflexivity. cbv beta. by destruct (Z.leb_spec dfs 7); [|lia].
Qed.

(** * Witnesses *)

#[local] Instance no_files : Backing unit := {|
  filedup _ := ret tt;
  fileclose _ := ret tt;
  file_size _ _ := 0;
  file_page _ _ _ _ := ret (0, []);
  file_writeback _ _ _ _ := ret 0
|}.

Definition base10 : Z := kend10 - 4096.

Lemma base10_ok : 0 < base10 /\ base10 + HDR <= kend10 /\ base10 mod HDR = 0.
Proof. vm_compute. intuition congruence. Qed.

(** A process without regions, on the machine of [Vm] with nine free pages. *)
Definition fresh_state (k : kstate) : mstate unit := mkMs (mkH k 0) ∅ 0 0 tt.

Lemma new_mm :
  exists T pgdir l k, new_process boot_kmem = Ret pgdir k /\ mm kend10 base10 pgdir T [] [] [] l [] (fresh_state k) /\
    (forall x, user_byte (mem k) pgdir x = None) /\ length l = 9%nat.
Proof.
  destruct new_process_run as (T & pgdir & l & k & E & HV & HL & Hz & Hlen). exists T, pgdir, l, k. split; [done|]. split; [|split; [|done]].
  - split; [|done|by split; constructor|done|constructor]. split; [|done|done| |].
    + right. split; [done|]. split; [done|]. split; [done|]. split; [done|]. apply HV.
    + intros Q q _. apply not_elem_of_nil.
    + intros x q _ _ _ _. apply not_elem_of_nil.
  - intros x. unfold user_byte. by rewrite Hz.
Qed.

Lemma mmap_anonymous_witness :
  exists pgdir k N r s', new_process boot_kmem = Ret pgdir k /\
    (forall kf, (N <= kf)%nat -> mmap kend10 base10 kf pgdir 0 0x10000000 100 3 0x22 0 0 (fresh_state k) = Ret r s') /\
    r = 0x10000000 /\ forall x, 0x10000000 <= x < 0x10001000 -> user_byte (mem (kof s')) pgdir x = Some 0.
Proof.
  destruct new_mm as (T & pgdir & l & k & E & H & Hnone & Hl).
  destruct (mmap_anonymous kend10 base10 pgdir kend10_ok base10_ok T [] [] [] l [] (fresh_state k) 0 0x10000000 100 3 0x22 0 H) as (N & r & s' & HN & Hr);
    [reflexivity|reflexivity|lia|lia|].
  exists pgdir, k, N, r, s'. split; [exact E|]. split; [exact HN|]. destruct Hr as [(Ho & _)|(_ & [Hm|[Hm|Hm]])].
  - discriminate Ho.
  - destruct Hm as (T' & fl' & pgs' & l' & L1 & L2 & node & _ & _ & Hhint & Hz & _). rewrite Hhint in Hz |- *; [|lia|constructor|lia|constructor].
    split; [reflexivity|]. intros x Hx. apply Hz. exact Hx.
  - destruct Hm as (T' & fl' & pgs' & l' & _ & _ & _ & [->|[Hc|(g & Hg & _)]]); exfalso; [discriminate Hl| |exact (not_elem_of_nil _ Hg)].
    unfold USERTOP, MMAPBASE in Hc. change (npages 100) with 1 in Hc. lia.
  - destruct Hm as (T' & fl' & pgs' & l' & L1 & L2 & node & g & _ & _ & _ & _ & _ & _ & [Hc|(x & _ & Hx)]); [change (npages 100) with 1 in Hc; lia|].
    exfalso. apply Hx, Hnone.
Defined.

(** The same process with the region, made by the steps of [mmap]. *)
Lemma one_region :
  exists T pgdir fl pgs l node (s : mstate unit), mm kend10 base10 pgdir T fl [] pgs l [(node, mkRegion 0x10000000 4096 0 0 3 0x22)] s.
Proof.
  destruct new_mm as (T & pgdir & l & k & E & H & Hnone & Hl).
  destruct (kmalloc_space kend10 base10 pgdir kend10_ok base10_ok T [] [] [] l (mkH k 0) (mm_space _ _ _ _ _ _ _ _ _ _ H))
    as (N1 & r1 & h1 & fl1 & al1 & pgs1 & l1 & EN & HS1 & HU1 & [(_ & _ & ->)|((q & -> & Hq0 & ->) & Hl1)]); [discriminate Hl|].
  destruct (new_node_run kend10 base10 pgdir kend10_ok base10_ok T fl1 q [] pgs1 l1 [] (set_hp h1 (fresh_state k)) 0x10000000 4096 0 3 0x22 HS1 Hq0)
    as (m' & r' & L1 & L2 & Elink & EL & Hl' & Hb1 & Hb2); [done|by split; constructor|done|lia|constructor|].
  destruct (mmap_load_run kend10 base10 pgdir kend10_ok base10_ok T [] [] [] l [] (fresh_state k) q fl1 pgs1 l1 h1 m' r' L1 L2 0x10000000 0x10000000 4096 3 0x22 0
    H HU1 Hl1 HS1 EL Hl' Hb1 Hb2) as (N2 & r & s' & _ & [Hm|Hm]); [done|done|lia|lia|vm_compute; discriminate|constructor|done| |].
  - destruct Hm as (T' & fl' & pgs' & l' & M1 & M2 & node & EM & Hmm & Hhint & _). symmetry in EM. apply app_eq_nil in EM as [-> ->].
    rewrite Hhint in Hmm; [|lia|constructor]. exists T', pgdir, fl', pgs', l', node, s'. exact Hmm.
  - destruct Hm as (T' & fl' & pgs' & l' & M1 & M2 & node & g & _ & _ & _ & _ & _ & _ & [Hc|(x & _ & Hx)]); [change (npages 4096) with 1 in Hc; lia|].
    exfalso. apply Hx, Hnone.
Qed.

Lemma munmap_exact_witness :
  exists pgdir (s s' : mstate unit), (exists N, forall kf, (N <= kf)%nat -> munmap kend10 kf pgdir 0x10000000 4096 s = Ret 0 s') /\ regions s' = 0.
Proof.
  destruct one_region as (T & pgdir & fl & pgs & l & node & s & H).
  destruct (munmap_exact kend10 base10 pgdir kend10_ok base10_ok T fl [] pgs l _ s 0x10000000 4096 H) as (_ & _ & H3); [by repeat constructor|lia|].
  destruct (H3 [] node _ [] eq_refl eq_refl) as [H4 _]; [vm_compute; intuition congruence|].
  destruct H4 as (N & s' & E & (fl' & l' & Hmm) & _); [vm_compute; discriminate|].
  exists pgdir, s, s'. split; [by exists N|]. exact (mm_list _ _ _ _ _ _ _ _ _ _ Hmm).
Defined.

(** * Checks that let too much pass *)

Definition two_regions : mstate unit :=
  mkMs (mkH boot_kmem 0) {[ 100 := mkN (mkRegion 0x1000 0x2000 0 0 3 0x22) 200; 200 := mkN (mkRegion 0x10000 0x1000 0 0 3 0x22) 0 ]} 100 2 tt.

(** The second page of the first region is taken for free space. *)
Example is_usable_overlap : is_usable 0x2000 0x1000 two_regions = Ret true two_regions.
Proof. reflexivity. Qed.

(** A range that wraps around the address space passes the bounds check. *)
Example choose_addr_wraps pgdir :
  choose_addr pgdir 0xFFFFFFFFFFFFF000 0x2000 3 0x32 (fresh_state boot_kmem) = Ret (inr 0xFFFFFFFFFFFFF000) (fresh_state boot_kmem) /\
  (USERTOP <? u64 (0xFFFFFFFFFFFFF000 + ROUNDUP 0x2000 PGSIZE)) = false.
Proof. split; reflexivity. Qed.

End Mmap.
