(* ===== verification/Syscall.v ===== *)
(** System call arguments: kern/syscall.c.

    The arguments are the registers x0 to x5 of the trap frame.  Of a process
    the checks use the bounds of its code and data, the size of its stack and
    the list of its mapped regions; its memory is a function from addresses to
    bytes, since the strings the kernel looks at do not change meanwhile. *)

From stdpp Require Import base list.
From Stdlib Require Import ZArith Lia Bool.
From S2P Require Import Prelude Vm.

Module Syscall.

Notation USERTOP := Vm.USERTOP.

Record uproc : Type := mkU {
  base : Z;
  sz : Z;
  stksz : Z;
  regions : list Vm.mmap_region;
  x : list Z;                       (* tf->x *)
  mem : Z -> Z
}.

Fixpoint in_regions (l : list Vm.mmap_region) (s n : Z) : bool :=
  match l with
  | [] => false
  | g :: l' =>
      if (Vm.r_addr g <=? s) && (u64 (s + n) <=? u64 (Vm.r_addr g + Vm.r_length g)) then true else in_regions l' s n
  end.

Definition in_user (p : uproc) (s n : Z) : bool :=
  if (base p <=? s) && (u64 (s + n) <=? sz p) then true
  else if (u64 (USERTOP - stksz p) <=? s) && (u64 (s + n) <=? USERTOP) then true
  else in_regions (regions p) s n.

(** The scan for the terminator from [s] while [s < limit]. *)
Fixpoint scan (fuel : nat) (m : Z -> Z) (start s limit : Z) : option Z :=
  match fuel with
  | O => None
  | S f => if s <? limit then if m s =? 0 then Some (s - start) else scan f m start (s + 1) limit else Some (-1)
  end.

(** The loop over a mapped region: its condition, [region->addr +
    region->length], is never 0, so only a terminator ends it. *)
Fixpoint scan_region (fuel : nat) (m : Z -> Z) (start s : Z) (g : Vm.mmap_region) : option Z :=
  match fuel with
  | O => None
  | S f =>
      if negb (u64 (Vm.r_addr g + Vm.r_length g) =? 0) then
        if m s =? 0 then Some (s - start) else scan_region f m start (u64 (s + 1)) g
      else Some (-1)
  end.

(** The length, or -1; [None]: more than [fuel] characters. *)
Definition fetchstr (fuel : nat) (p : uproc) (addr : Z) : option Z :=
  if (base p <=? addr) && (addr <? sz p) then scan fuel (mem p) addr addr (sz p)
  else if (u64 (USERTOP - stksz p) <=? addr) && (addr <? USERTOP) then scan fuel (mem p) addr addr USERTOP
  else match Vm.find_mmap_region (regions p) addr with
       | Some g => scan_region fuel (mem p) addr addr g
       | None => Some (-1)
       end.

(** [None] for a number of an argument that does not exist. *)
Definition argint (p : uproc) (n : nat) : option Z :=
  if (5 <? n)%nat then None else Some (s32 (default 0 (x p !! n))).

Definition argu64 (p : uproc) (n : nat) : option Z :=
  if (5 <? n)%nat then None else Some (default 0 (x p !! n)).

(** The pointer; NULL passes. *)
Definition argptr (p : uproc) (n : nat) (size : Z) : option Z :=
  match argu64 p n with
  | None => None
  | Some i => if i =? 0 then Some 0 else if in_user p i size then Some i else None
  end.

(** The pointer and the result, an int. *)
Definition argstr (fuel : nat) (p : uproc) (n : nat) : option (Z * Z) :=
  match argu64 p n with
  | None => Some (0, -1)
  | Some addr =>
      if addr =? 0 then Some (0, 0)
      else match fetchstr fuel p addr with
           | Some r => Some (addr, s32 r)
           | None => None
           end
  end.

(** * User memory *)

(** The parts of the address space a process may pass to the kernel. *)
Definition segments (p : uproc) : list (Z * Z) :=
  (base p, sz p) :: (USERTOP - stksz p, USERTOP) :: ((fun g => (Vm.r_addr g, Vm.r_addr g + Vm.r_length g)) <$> regions p).

Definition inside (p : uproc) (s n : Z) : Prop := exists lo hi, (lo, hi) ∈ segments p /\ lo <= s /\ s + n <= hi.

(** Bounds below 2^64; the stack fits below its top. *)
Record uproc_ok (p : uproc) : Prop := {
  ok_base : 0 <= base p;
  ok_stack : 0 <= stksz p <= USERTOP;
  ok_regions : Forall (fun g => 0 <= Vm.r_addr g /\ 0 <= Vm.r_length g /\ Vm.r_addr g + Vm.r_length g < 2 ^ 64) (regions p)
}.

Lemma in_regions_spec l s n :
  Forall (fun g => 0 <= Vm.r_addr g /\ 0 <= Vm.r_length g /\ Vm.r_addr g + Vm.r_length g < 2 ^ 64) l -> 0 <= s + n < 2 ^ 64 ->
  in_regions l s n = true <-> exists g, g ∈ l /\ Vm.r_addr g <= s /\ s + n <= Vm.r_addr g + Vm.r_length g.
Proof.
  intros Hl Hs. induction Hl as [|g l (H1 & H2 & H3) Hl IH]; cbn [in_regions]; [split; [done|intros (g & Hg%elem_of_nil & _); done]|].
  rewrite (u64_id (s + n)), (u64_id (Vm.r_addr g + _)) by lia.
  destruct (_ && _) eqn:E.
  - split; [|done]. intros _. apply andb_true_iff in E as [E1%Z.leb_le E2%Z.leb_le]. exists g. split; [by left|lia].
  - rewrite IH. split; [intros (g' & ? & ?); exists g'; split; [by right|done]|].
    intros (g' & [->|Hg]%elem_of_cons & Hb); [|by exists g'].
    apply andb_false_iff in E as [E%Z.leb_gt|E%Z.leb_gt]; lia.
Qed.

Lemma inside_cases p s n :
  inside p s n <-> (base p <= s /\ s + n <= sz p) \/ (USERTOP - stksz p <= s /\ s + n <= USERTOP) \/
    exists g, g ∈ regions p /\ Vm.r_addr g <= s /\ s + n <= Vm.r_addr g + Vm.r_length g.
Proof.
  unfold inside, segments. split.
  - intros (lo & hi & [[= -> ->]|[[= -> ->]|Hin]%elem_of_cons]%elem_of_cons & Hb); [by left|by right; left|right; right].
    apply list_elem_of_fmap in Hin as (g & [= -> ->] & Hg). by exists g.
  - intros [H|[H|(g & Hg & H)]]; [exists (base p), (sz p); split; [by left|done]|exists (USERTOP - stksz p), USERTOP; split; [by right; left|done]|].
    exists (Vm.r_addr g), (Vm.r_addr g + Vm.r_length g). split; [|done]. right; right. apply list_elem_of_fmap. by exists g.
Qed.

(** For a block that does not run over the end of the 64-bit address space
    [in_user] answers exactly whether it lies within the code and data, the
    stack or one mapped region; but the sum it tests is not checked for
    overflow, so from any address at or above the base a block that wraps
    around to address 0, over the whole kernel, is accepted too. *)
Theorem in_user_exact p s n (Hp : uproc_ok p) (Hs : 0 <= s < 2 ^ 64) (Hn : 0 <= n < 2 ^ 64) :
  (s + n < 2 ^ 64 -> in_user p s n = true <-> inside p s n) /\
  (base p <= s -> 0 <= sz p -> in_user p s (2 ^ 64 - s) = true).
Proof.
  destruct Hp as [Hb Hst Hr]. split.
  - intros Hsn. rewrite inside_cases. unfold in_user. rewrite <- (in_regions_spec (regions p) s n Hr) by lia.
    rewrite (u64_id (s + n)), (u64_id (USERTOP - stksz p)) by (unfold USERTOP in *; unfold Vm.USERTOP in *; lia).
    destruct (in_regions (regions p) s n);
      destruct (Z.leb_spec (base p) s), (Z.leb_spec (s + n) (sz p)), (Z.leb_spec (USERTOP - stksz p) s), (Z.leb_spec (s + n) USERTOP);
      cbn; intuition (congruence || lia).
  - intros Hbs Hsz. unfold in_user. replace (s + (2 ^ 64 - s)) with (2 ^ 64) by lia.
    rewrite (proj2 (Z.leb_le (base p) s)) by done. change (u64 (2 ^ 64)) with 0. by rewrite (proj2 (Z.leb_le 0 (sz p))).
Qed.

(** * Strings *)

Lemma scan_spec m start limit fuel : forall s,
  s <= limit -> (Z.to_nat (limit - s) < fuel)%nat ->
  exists r, scan fuel m start s limit = Some r /\
    ((exists z, r = z - start /\ s <= z < limit /\ m z = 0 /\ forall a, s <= a < z -> m a <> 0) \/
     (r = -1 /\ forall a, s <= a < limit -> m a <> 0)).
Proof.
  induction fuel as [|f IH]; intros s Hs Hf; [lia|]. cbn [scan]. destruct (Z.ltb_spec s limit) as [Hlt|Hge].
  - destruct (Z.eqb_spec (m s) 0) as [Hz|Hz].
    + exists (s - start). split; [done|]. left. exists s. split_and!; [done|lia|lia|done|intros; lia].
    + destruct (IH (s + 1)) as (r & E & H); [lia|lia|]. exists r. split; [done|].
      assert (Hx : forall a b, (forall c, s + 1 <= c < b -> m c <> 0) -> s <= a < b -> m a <> 0).
      { intros a b H' Ha. destruct (decide (a = s)) as [->|]; [done|]. apply H'. lia. }
      destruct H as [(z & -> & ? & ? & Hb)|[-> Hb]]; [left|right; split; [done|]; intros a; by apply Hx].
      exists z. split_and!; [done|lia|lia|done|]. intros a. by apply Hx.
  - exists (-1). split; [done|]. right. split; [done|]. intros; lia.
Qed.

Lemma scan_region_spec m start g z fuel : forall s,
  u64 (Vm.r_addr g + Vm.r_length g) <> 0 -> 0 <= s <= z -> z < 2 ^ 64 -> m z = 0 -> (forall a, s <= a < z -> m a <> 0) ->
  (Z.to_nat (z - s) < fuel)%nat -> scan_region fuel m start s g = Some (z - start).
Proof.
  induction fuel as [|f IH]; intros s Hg Hs Hz Hm Hb Hf; [lia|]. cbn [scan_region]. rewrite (proj2 (Z.eqb_neq _ _) Hg). cbn [negb].
  destruct (Z.eqb_spec (m s) 0) as [H0|H0].
  - assert (s = z) as -> by (destruct (decide (s = z)); [done|]; exfalso; apply (Hb s); [lia|done]). done.
  - assert (s <> z) by (intros ->; done). rewrite u64_id by lia. apply IH; try done; try lia. intros a Ha. apply Hb. lia.
Qed.

(** [fetchstr] on an address in the code and data or in the stack returns
    the length of the string there, or -1 when it has no terminator before the
    end of that part; in a mapped region the end is not tested, and the
    length of a string whose terminator lies anywhere behind the region is
    returned as if it were the process's own. *)
Theorem fetchstr_exact p addr fuel (Hp : uproc_ok p) (Ha : 0 <= addr < 2 ^ 64) :
  (forall limit, (base p <= addr /\ limit = sz p) \/ (sz p <= addr /\ USERTOP - stksz p <= addr /\ limit = USERTOP) ->
     addr < limit -> (Z.to_nat (limit - addr) < fuel)%nat ->
     exists r, fetchstr fuel p addr = Some r /\
       ((0 <= r /\ addr + r < limit /\ mem p (addr + r) = 0 /\ forall a, addr <= a < addr + r -> mem p a <> 0) \/
        (r = -1 /\ forall a, addr <= a < limit -> mem p a <> 0))) /\
  (forall g z, in_user p addr 0 = true -> sz p <= addr < USERTOP - stksz p -> Vm.find_mmap_region (regions p) addr = Some g ->
     addr <= z < 2 ^ 64 -> mem p z = 0 -> (forall a, addr <= a < z -> mem p a <> 0) -> (Z.to_nat (z - addr) < fuel)%nat ->
     fetchstr fuel p addr = Some (z - addr)).
Proof.
  destruct Hp as [Hb Hst Hr]. unfold fetchstr. rewrite (u64_id (USERTOP - stksz p)) by (unfold Vm.USERTOP in *; lia). split.
  - intros limit Hl Hlt Hf. destruct (scan_spec (mem p) addr limit fuel addr ltac:(lia) Hf) as (r & E & H). exists r. split.
    + destruct Hl as [[H1 ->]|(H1 & H2 & ->)].
      * by rewrite (proj2 (Z.leb_le _ _) H1), (proj2 (Z.ltb_lt _ _) Hlt).
      * rewrite (proj2 (Z.ltb_ge _ _) H1), andb_false_r. by rewrite (proj2 (Z.leb_le _ _) H2), (proj2 (Z.ltb_lt _ _) Hlt).
    + destruct H as [(z & -> & Hz & Hm & Hbb)|H]; [left|by right]. replace (addr + (z - addr)) with z by lia. split_and!; [lia|lia|done|done].
  - intros g z _ Hin Hg Hz Hm Hbb Hf. rewrite (proj2 (Z.ltb_ge addr (sz p))), andb_false_r by lia.
    rewrite (proj2 (Z.leb_gt _ addr)) by lia. cbn [andb]. rewrite Hg. apply scan_region_spec; try done; try lia.
    unfold Vm.find_mmap_region in Hg. apply List.find_some in Hg as [_ Hg%andb_true_iff]. destruct Hg as [_ Hg%Z.ltb_lt]. lia.
Qed.

(** * Concrete processes *)

(** A program of two pages at 0x400000 with a string in it, a stack, and one
    mapped page at 0x600000000000 that holds no terminator. *)
Definition up : uproc :=
  mkU 0x400000 0x402000 0x1000 [Vm.mkRegion 0x600000000000 0x1000 0 0 3 2] [0x400010; 0; 0; 0; 0; 0]
    (fun a => if (a =? 0x400013) || (a =? 0x600000001004) then 0 else 65).

Lemma up_ok : uproc_ok up.
Proof. split; [cbn; lia|cbn; unfold Vm.USERTOP; lia|]. repeat constructor; cbn; lia. Qed.

Lemma in_user_exact_witness :
  (in_user up 0x401000 0x1000 = true <-> inside up 0x401000 0x1000) /\ in_user up 0x401000 (2 ^ 64 - 0x401000) = true.
Proof.
  split; [exact (proj1 (in_user_exact up 0x401000 0x1000 up_ok ltac:(lia) ltac:(lia)) ltac:(lia))|].
  exact (proj2 (in_user_exact up 0x401000 0x1000 up_ok ltac:(lia) ltac:(lia)) ltac:(cbn; lia) ltac:(cbn; lia)).
Defined.

Lemma fetchstr_exact_witness : fetchstr 30 up 0x600000000ff0 = Some 20.
Proof.
  apply (proj2 (fetchstr_exact up 0x600000000ff0 30 up_ok ltac:(lia)) (Vm.mkRegion 0x600000000000 0x1000 0 0 3 2) 0x600000001004);
    [done|cbn; unfold Vm.USERTOP; lia|done|lia|done| |lia].
  intros a Ha. cbn. rewrite (proj2 (Z.eqb_neq _ _)), (proj2 (Z.eqb_neq _ _)) by lia. done.
Defined.

End Syscall.
