(* ===== verification/Fileio.v ===== *)
(** Reading and writing open files: [fileread], [filewrite], [filelseek] and
    [filepread64] of kern/file.c, [sys_readv], [sys_writev] and [sys_lseek] of
    kern/sysfile.c.

    The state is one open file, the page cache of [Pagecache] and the file
    system below it.  What the calls use of inodes and of pipes is the class
    [Inodes], [InodeLaws] is what a file system promises of regular files.  A
    buffer of the caller is the list of its bytes, in or out. *)

From stdpp Require Import base list.
From Stdlib Require Import ZArith Lia Bool.
From S2P Require Import Prelude Mm File Pagecache Vm Syscall.

Module Fileio.

Definition MAXOPBLOCKS : Z := 42.
Definition T_FILE : Z := 2.
Definition SEEK_SET : Z := 0.
Definition SEEK_CUR : Z := 1.
Definition SEEK_END : Z := 2.
Definition UIO_MAXIOV : Z := 1024.

(** An inode is its index in the inode cache, a pipe its index too.  The
    operations that read give the value returned and the bytes stored. *)
Class Inodes (F : Type) : Type := {
  ilock : nat -> M F unit;
  iunlock : nat -> M F unit;
  i_readi : nat -> Z -> Z -> M F (Z * list Z);
  i_writei : nat -> list Z -> Z -> Z -> M F Z;
  i_dev : F -> nat -> Z;
  i_inum : F -> nat -> Z;
  i_type : F -> nat -> Z;
  i_size : F -> nat -> Z;
  set_atime : nat -> M F unit;      (* atime = now *)
  set_mtime : nat -> M F unit;      (* mtime = atime = now *)
  pipe_read : nat -> Z -> M F (Z * list Z);
  pipe_write : nat -> list Z -> Z -> M F Z
}.

Record iostate {F : Type} : Type := mkIo {
  fl : File.file;
  pc : Pagecache.pstate F
}.
Arguments iostate : clear implicits.
Arguments mkIo {F} _ _.

Section Calls.
Context {F : Type} {R : Pagecache.Reader F} {I : Inodes F}.
Context (pid : Z).

Definition set_fl (f : File.file) (s : iostate F) : iostate F := mkIo f (pc s).
Definition set_pc (p : Pagecache.pstate F) (s : iostate F) : iostate F := mkIo (fl s) p.
Definition on_pc {A} : M (Pagecache.pstate F) A -> M (iostate F) A := zoom pc set_pc.
Definition on_io {A} (m : M F A) : M (iostate F) A := on_pc (Pagecache.on_fs m).
Definition get_fs {A} (g : F -> A) : M (iostate F) A := gets (fun s => g (Pagecache.fs (pc s))).

Definition add_off (r : Z) : M (iostate F) unit := modify (fun s => set_fl (File.set_off (s64 (File.off (fl s) + r)) (fl s)) s).

Definition fileread (n : Z) : M (iostate F) (Z * list Z) :=
  let* f := gets fl in
  if negb (File.readable f) then ret (- EBADF, []) else
  match File.type f with
  | File.FD_PIPE => on_io (pipe_read (File.pipe f) n)
  | File.FD_INODE =>
      let c := File.ip f in
      on_io Pagecache.begin_op ;;
      on_io (ilock c) ;;
      let* (r, b) := on_io (i_readi c (File.off f) n) in
      when (0 <? r) (add_off r) ;;
      on_io (set_atime c) ;;
      on_io (iunlock c) ;;
      on_io Pagecache.end_op ;;
      ret (r, b)
  | File.FD_NONE => panic
  end.

(** The largest piece written in one transaction. *)
Definition max_piece : Z := (MAXOPBLOCKS - 1 - 2 - 2) / 2 * 512.

(** The loop of [filewrite]; [i] bytes are written.  The value is [i] at the
    end. *)
Fixpoint write_loop (fuel : nat) (b : list Z) (n i : Z) : M (iostate F) Z :=
  if i <? n then
    match fuel with
    | O => nofuel
    | S fuel' =>
        let n1 := Z.min max_piece (n - i) in
        let piece := take (Z.to_nat n1) (drop (Z.to_nat i) b) in
        let* f := gets fl in
        let c := File.ip f in
        on_io Pagecache.begin_op ;;
        on_io (ilock c) ;;
        let* r := on_io (i_writei c piece (File.off f) n1) in
        let* t := get_fs (fun x => i_type x c) in
        (if (0 <? r) && (t =? T_FILE) then
           let* d := get_fs (fun x => i_dev x c) in
           let* k := get_fs (fun x => i_inum x c) in
           on_pc (Pagecache.update_page pid (File.off f) k d (take (Z.to_nat r) piece)) ;;
           add_off r
         else ret tt) ;;
        on_io (set_mtime c) ;;
        on_io (iunlock c) ;;
        on_io Pagecache.end_op ;;
        if r <? 0 then ret i else
        if negb (r =? n1) then panic else
        write_loop fuel' b n (i + r)
    end
  else ret i.

Definition filewrite (b : list Z) (n : Z) : M (iostate F) Z :=
  let* f := gets fl in
  if negb (File.writable f) then ret (- EBADF) else
  match File.type f with
  | File.FD_PIPE => on_io (pipe_write (File.pipe f) b n)
  | File.FD_INODE =>
      let* i := write_loop (Z.to_nat (n / max_piece + 1)) b n 0 in
      ret (if i =? n then n else -1)
  | File.FD_NONE => panic
  end.

(** [f->ip] of a pipe is NULL. *)
Definition filelseek (offset whence : Z) : M (iostate F) Z :=
  let* f := gets fl in
  let set (o : Z) : M (iostate F) Z :=
    if o <? 0 then ret (- EINVAL) else modify (set_fl (File.set_off o f)) ;; ret o in
  if whence =? SEEK_SET then set offset
  else if whence =? SEEK_CUR then set (s64 (File.off f + offset))
  else if whence =? SEEK_END then
    match File.type f with
    | File.FD_INODE => let* size := get_fs (fun x => i_size x (File.ip f)) in set (s64 (size + offset))
    | _ => panic
    end
  else ret (- EINVAL).

Definition filepread64 (count offset : Z) : M (iostate F) (Z * list Z) :=
  let* old := filelseek 0 SEEK_CUR in
  if old <? 0 then ret (old, []) else
  let* e := filelseek offset SEEK_SET in
  if e <? 0 then ret (e, []) else
  let* (n, b) := fileread count in
  let* e := filelseek old SEEK_SET in
  if e <? 0 then ret (e, b) else ret (n, b).

(** [sys_lseek] with its arguments. *)
Definition sys_lseek (offset whence : Z) : M (iostate F) Z :=
  if negb (Z.land whence (Z.lnot (Z.lor (Z.lor SEEK_SET SEEK_CUR) SEEK_END)) =? 0) then ret (- EINVAL) else
  let* f := gets fl in
  match File.type f with
  | File.FD_PIPE => ret 0
  | _ => filelseek offset whence
  end.

(** The loop of [sys_readv]: the entries of [iov] with their base and length,
    what has been read so far, and the stores, each with its address. *)
Fixpoint readv_loop (p : Syscall.uproc) (first : Z * Z) (iov : list (Z * Z)) (tot : Z) : M (iostate F) (Z * list (Z * list Z)) :=
  match iov with
  | [] => ret (tot, [])
  | (base, len) :: iov' =>
      if negb (Syscall.in_user p first.1 first.2) then ret (- EFAULT, []) else
      let* (r, b) := fileread (s64 len) in
      let* (tot', st) := readv_loop p first iov' (s64 (tot + r)) in
      ret (tot', (base, b) :: st)
  end.

Definition sys_readv (p : Syscall.uproc) (iov : list (Z * Z)) (iovcnt : Z) : M (iostate F) (Z * list (Z * list Z)) :=
  if (iovcnt <=? 0) || (UIO_MAXIOV <? iovcnt) then ret (- EINVAL, []) else
  let l := take (Z.to_nat iovcnt) iov in
  readv_loop p (default (0, 0) (head l)) l 0.

(** [sys_writev]; an entry is its base, its length and its bytes. *)
Fixpoint writev_loop (p : Syscall.uproc) (iov : list (Z * Z * list Z)) (tot : Z) : M (iostate F) Z :=
  match iov with
  | [] => ret tot
  | (base, len, b) :: iov' =>
      if negb (Syscall.in_user p base len) then
        if (base =? 0) && (len =? 0) then writev_loop p iov' tot else ret (- EFAULT)
      else
        let* r := filewrite b (s64 len) in
        writev_loop p iov' (u64 (tot + r))
  end.

Definition sys_writev (p : Syscall.uproc) (iov : list (Z * Z * list Z)) (iovcnt : Z) : M (iostate F) Z :=
  let* r := writev_loop p (take (Z.to_nat iovcnt) iov) 0 in
  ret (s64 r).
End Calls.

(** * What a file system promises of regular files *)

Definition icontent {F} {R : Pagecache.Reader F} {RL : Pagecache.ReaderLaws R} {I : Inodes F} (f : F) (c : nat) : list Z :=
  Pagecache.content f (i_dev f c) (i_inum f c).

Definition splice (c : list Z) (pos : nat) (b : list Z) : list Z := take pos c ++ b ++ drop (pos + length b) c.

(** The same files and the same inodes. *)
Definition same {F} {R : Pagecache.Reader F} {RL : Pagecache.ReaderLaws R} {I : Inodes F} (f f' : F) : Prop :=
  (forall d i, Pagecache.content f' d i = Pagecache.content f d i) /\
  (forall c, i_dev f' c = i_dev f c /\ i_inum f' c = i_inum f c /\ i_type f' c = i_type f c).

(** [held c f]: this process has locked the inode; [room f k]: there is room
    for [k] more bytes. *)
Class InodeLaws {F} {R : Pagecache.Reader F} {RL : Pagecache.ReaderLaws R} (I : Inodes F) : Type := {
  held : nat -> F -> Prop;
  room : F -> Z -> Prop;
  room_mono f k j : room f k -> j <= k -> room f j;
  begin_same f : Pagecache.ready f -> exists f', Pagecache.begin_op f = Ret tt f' /\ Pagecache.ready f' /\ same f f' /\ forall k, room f k -> room f' k;
  end_same f : Pagecache.ready f -> exists f', Pagecache.end_op f = Ret tt f' /\ Pagecache.ready f' /\ same f f' /\ forall k, room f k -> room f' k;
  ilock_ok c f : Pagecache.ready f -> exists f', ilock c f = Ret tt f' /\ held c f' /\ same f f' /\ forall k, room f k -> room f' k;
  iunlock_ok c f : held c f -> exists f', iunlock c f = Ret tt f' /\ Pagecache.ready f' /\ same f f' /\ forall k, room f k -> room f' k;
  set_atime_ok c f : held c f -> exists f', set_atime c f = Ret tt f' /\ held c f' /\ same f f' /\ forall k, room f k -> room f' k;
  set_mtime_ok c f : held c f -> exists f', set_mtime c f = Ret tt f' /\ held c f' /\ same f f' /\ forall k, room f k -> room f' k;
  i_size_ok c f : Pagecache.ready f -> i_type f c = T_FILE -> i_size f c = Z.of_nat (length (icontent f c));
  i_readi_ok c f off n : held c f -> i_type f c = T_FILE -> 0 <= off -> 0 <= n ->
    exists f', i_readi c off n f =
      Ret (if Z.of_nat (length (icontent f c)) <? off then (-1, [])
           else let b := take (Z.to_nat n) (drop (Z.to_nat off) (icontent f c)) in (Z.of_nat (length b), b)) f' /\
      held c f' /\ same f f' /\ forall k, room f k -> room f' k;
  i_writei_ok c f b off : held c f -> i_type f c = T_FILE -> 0 <= off <= Z.of_nat (length (icontent f c)) -> room f (Z.of_nat (length b)) ->
    exists f', i_writei c b off (Z.of_nat (length b)) f = Ret (Z.of_nat (length b)) f' /\ held c f' /\
      icontent f' c = splice (icontent f c) (Z.to_nat off) b /\
      (forall x, i_dev f' x = i_dev f x /\ i_inum f' x = i_inum f x /\ i_type f' x = i_type f x) /\
      (forall k, room f k -> room f' (k - Z.of_nat (length b)));
  i_writei_beyond c f b off n : held c f -> i_type f c = T_FILE -> Z.of_nat (length (icontent f c)) < off ->
    exists f', i_writei c b off n f = Ret (-1) f' /\ held c f' /\ same f f' /\ forall k, room f k -> room f' k
}.

(** * The abstract open file: bytes and a position, open for reading, for
    writing, or both *)

Inductive call : Type :=
| Cread (n : Z)
| Cwrite (b : list Z)
| Clseek (offset whence : Z)
| Cpread (n offset : Z).

Definition afile : Type := list Z * Z.

Section Spec.
Context (rd wr : bool).

Definition spec_read (n : Z) (a : afile) : Z * list Z :=
  if negb rd then (- EBADF, []) else
  if Z.of_nat (length a.1) <? a.2 then (-1, []) else
  let b := take (Z.to_nat n) (drop (Z.to_nat a.2) a.1) in (Z.of_nat (length b), b).

Definition spec_seek (o : Z) (a : afile) : Z * afile := if o <? 0 then (- EINVAL, a) else (o, (a.1, o)).

Definition spec (q : call) (a : afile) : (Z * list Z) * afile :=
  match q with
  | Cread n => let r := spec_read n a in (r, (a.1, a.2 + Z.max 0 r.1))
  | Cwrite b =>
      if negb wr then ((- EBADF, []), a)
      else if bool_decide (b = []) then ((0, []), a)
      else if Z.of_nat (length a.1) <? a.2 then ((-1, []), a)
      else ((Z.of_nat (length b), []), (splice a.1 (Z.to_nat a.2) b, a.2 + Z.of_nat (length b)))
  | Clseek o w =>
      let (r, a') := (if w =? SEEK_SET then spec_seek o a
                      else if w =? SEEK_CUR then spec_seek (a.2 + o) a
                      else if w =? SEEK_END then spec_seek (Z.of_nat (length a.1) + o) a
                      else (- EINVAL, a)) in
      ((r, []), a')
  | Cpread n o => if o <? 0 then ((- EINVAL, []), a) else (spec_read n (a.1, o), a)
  end.

(** The bytes a call wants to add. *)
Definition cost (q : call) : Z := match q with Cwrite b => if wr then Z.of_nat (length b) else 0 | _ => 0 end.

Fixpoint specs (qs : list call) (a : afile) : list (Z * list Z) * afile :=
  match qs with
  | [] => ([], a)
  | q :: qs' => let (r, a1) := spec q a in let (rs, a2) := specs qs' a1 in (r :: rs, a2)
  end.

(** Positions and lengths far from the limits of 64 bits. *)
Definition small (q : call) (a : afile) : Prop :=
  0 <= a.2 < 2 ^ 61 /\ Z.of_nat (length a.1) < 2 ^ 61 /\
  match q with
  | Cread n => 0 <= n < 2 ^ 61
  | Cwrite b => Z.of_nat (length b) < 2 ^ 61
  | Clseek o w => - 2 ^ 61 < o < 2 ^ 61
  | Cpread n o => 0 <= n < 2 ^ 61 /\ - 2 ^ 61 < o < 2 ^ 61
  end.

(** No number leaves the 64 bits, and the writes have room. *)
Fixpoint fits (qs : list call) (k : Z) (a : afile) : Prop :=
  match qs with
  | [] => True
  | q :: qs' => small q a /\ cost q <= k /\ fits qs' (k - cost q) (spec q a).2
  end.
End Spec.

Section Refine.
Context {F : Type} {R : Pagecache.Reader F} {RL : Pagecache.ReaderLaws R} {I : Inodes F} {IL : InodeLaws I}.
Context (pid : Z) (rd wr : bool).
Notation spec_read := (spec_read rd).
Notation spec := (spec rd wr).
Notation cost := (cost wr).

Definition run (q : call) : M (iostate F) (Z * list Z) :=
  match q with
  | Cread n => fileread n
  | Cwrite b => let* r := filewrite pid b (Z.of_nat (length b)) in ret (r, [])
  | Clseek o w => let* r := filelseek o w in ret (r, [])
  | Cpread n o => filepread64 n o
  end.

(** No page of inode [i] of [d] is cached. *)
Definition uncached (d i : Z) (p : Pagecache.pstate F) : Prop :=
  Pagecache.pc_lock p = false /\ forall o, list_find (Pagecache.is_key i o d) (Pagecache.pages p) = None.

(** The open file [s] is the abstract file [a], with room for [k] bytes. *)
Record abs (c : nat) (k : Z) (s : iostate F) (a : afile) : Prop := {
  ab_type : File.type (fl s) = File.FD_INODE;
  ab_ip : File.ip (fl s) = c;
  ab_mode : File.readable (fl s) = rd /\ File.writable (fl s) = wr;
  ab_off : File.off (fl s) = a.2;
  ab_ready : Pagecache.ready (Pagecache.fs (pc s));
  ab_kind : i_type (Pagecache.fs (pc s)) c = T_FILE;
  ab_content : icontent (Pagecache.fs (pc s)) c = a.1;
  ab_room : room (Pagecache.fs (pc s)) k;
  ab_cache : uncached (i_dev (Pagecache.fs (pc s)) c) (i_inum (Pagecache.fs (pc s)) c) (pc s)
}.

Lemma same_content f f' c : same f f' -> icontent f' c = icontent f c.
Proof. intros [H1 H2]. unfold icontent. destruct (H2 c) as (-> & -> & _). apply H1. Qed.

Lemma same_trans f1 f2 f3 : same f1 f2 -> same f2 f3 -> same f1 f3.
Proof.
  intros [A1 A2] [B1 B2]. split; [intros; by rewrite B1, A1|]. intros c. destruct (A2 c) as (? & ? & ?), (B2 c) as (? & ? & ?). split_and!; congruence.
Qed.

(** The state with the file system [f]. *)
Definition with_fs (f : F) (s : iostate F) : iostate F := set_pc (Pagecache.set_fs f (pc s)) s.

Lemma on_io_run {A} (m : M F A) s a f : m (Pagecache.fs (pc s)) = Ret a f -> on_io m s = Ret a (with_fs f s).
Proof. intros E. unfold on_io, on_pc, zoom. unfold Pagecache.on_fs, zoom. by rewrite E. Qed.

Lemma with_fs_twice f g s : with_fs f (with_fs g s) = with_fs f s.
Proof. done. Qed.

Lemma abs_fs c k k' s a f :
  abs c k s a -> Pagecache.ready f -> same (Pagecache.fs (pc s)) f -> room f k' -> abs c k' (with_fs f s) a.
Proof.
  intros [A B C D E G H J K] Hr Hs Hk. pose proof (same_content _ _ c Hs) as Hc. destruct Hs as [_ Hs]. destruct (Hs c) as (S1 & S2 & S3).
  split; cbn [fl pc with_fs set_pc Pagecache.fs Pagecache.set_fs]; try done; [congruence|congruence|]. rewrite S1, S2. exact K.
Qed.

Lemma fileread_run c k s a n :
  abs c k s a -> 0 <= n < 2 ^ 61 -> 0 <= a.2 < 2 ^ 61 -> Z.of_nat (length a.1) < 2 ^ 61 ->
  exists s', fileread n s = Ret (spec_read n a) s' /\ abs c k s' (a.1, a.2 + Z.max 0 (spec_read n a).1).
Proof.
  intros H Hn Hp Hlen. pose proof H as [A B [C C'] D E G K J L]. unfold fileread. run_step. rewrite C.
  destruct (negb rd) eqn:Erd.
  { exists s. unfold Fileio.spec_read. rewrite Erd. split; [done|]. cbn [fst snd]. rewrite Z.max_l, Z.add_0_r by done. by destruct a. }
  rewrite A, B, D.
  destruct (begin_same _ E) as (f1 & E1 & R1 & S1 & Q1). rewrite (bind_run _ _ _ _ _ (on_io_run _ _ _ _ E1)).
  destruct (ilock_ok c f1 R1) as (f2 & E2 & H2 & S2 & Q2). rewrite (bind_run _ _ _ _ _ (on_io_run _ (with_fs f1 s) _ _ E2)), with_fs_twice.
  pose proof (same_trans _ _ _ S1 S2) as S12. pose proof (same_content _ _ c S12) as Hc. rewrite K in Hc.
  assert (G2 : i_type f2 c = T_FILE) by (destruct S12 as [_ S]; destruct (S c) as (_ & _ & ->); done).
  destruct (i_readi_ok c f2 a.2 n H2 G2 ltac:(lia) ltac:(lia)) as (f3 & E3 & H3 & S3 & Q3). rewrite Hc in E3.
  assert (Es : Ret (spec_read n a) f3 = i_readi c a.2 n f2) by (rewrite E3; unfold Fileio.spec_read; by rewrite Erd). symmetry in Es. clear E3. rename Es into E3. rewrite (bind_run _ _ _ _ _ (on_io_run _ (with_fs f2 s) _ _ E3)), with_fs_twice.
  destruct (spec_read n a) as [r b] eqn:Er. cbv beta iota.
  assert (Hr : -1 <= r < 2 ^ 61).
  { unfold Fileio.spec_read in Er. rewrite Erd in Er. destruct (_ <? _); injection Er as <- <-; [lia|]. rewrite length_take, length_drop. lia. }
  set (s3 := with_fs f3 (set_fl (File.set_off (a.2 + Z.max 0 r) (fl s)) s)).
  assert (Ew : when (0 <? r) (add_off r) (with_fs f3 s) = Ret tt s3).
  { unfold s3. destruct (Z.ltb_spec 0 r).
    - unfold when, add_off, modify. do 2 f_equal. unfold set_fl. cbn [fl with_fs set_pc]. rewrite D, s64_id by lia. by rewrite Z.max_r by lia.
    - unfold when, ret. f_equal. rewrite Z.max_l, Z.add_0_r, <- D by lia. destruct s as [f0 p0]. by destruct f0. }
  rewrite (bind_run _ _ _ _ _ Ew).
  destruct (set_atime_ok c f3 H3) as (f4 & E4 & H4 & S4 & Q4). rewrite (bind_run _ _ _ _ _ (on_io_run _ s3 _ _ E4)).
  destruct (iunlock_ok c f4 H4) as (f5 & E5 & R5 & S5 & Q5). rewrite (bind_run _ _ _ _ _ (on_io_run _ (with_fs f4 s3) _ _ E5)).
  destruct (end_same f5 R5) as (f6 & E6 & R6 & S6 & Q6). rewrite (bind_run _ _ _ _ _ (on_io_run _ (with_fs f5 (with_fs f4 s3)) _ _ E6)).
  eexists. split; [reflexivity|]. cbn [fst].
  apply (abs_fs c k k (set_fl (File.set_off (a.2 + Z.max 0 r) (fl s)) s)); [by split|done| |by auto 10].
  repeat (eapply same_trans; [eassumption|]). done.
Qed.
(** Where no page of the file is cached [update_page] has nothing to do. *)
Lemma update_uncached d i off b (p : Pagecache.pstate F) : uncached d i p -> Pagecache.update_page pid off i d b p = Ret tt p.
Proof.
  intros [Hl Hf]. unfold Pagecache.update_page.
  assert (Ha : Pagecache.acquire p = Ret tt (Pagecache.set_pc_lock true p)) by (unfold Pagecache.acquire; by rewrite Hl).
  rewrite (bind_run _ _ _ _ _ Ha). cbv zeta.
  rewrite (bind_run _ _ _ _ _ (Pagecache.find_page_run _ _ _ (Pagecache.set_pc_lock true p) eq_refl)).
  cbn [Pagecache.pages Pagecache.set_pc_lock]. rewrite Hf.
  assert (Hr : Pagecache.release (Pagecache.set_pc_lock true p) = Ret tt p)
    by (unfold Pagecache.release; cbn; by rewrite Pagecache.set_pc_lock_twice).
  by rewrite (bind_run _ _ _ _ _ Hr).
Qed.

Lemma get_fs_run {A} (g : F -> A) s : get_fs g s = Ret (g (Pagecache.fs (pc s))) s.
Proof. done. Qed.

Lemma splice_length c pos b : (pos <= length c)%nat -> (pos + length b <= length (splice c pos b))%nat /\ (length (splice c pos b) <= length c + length b)%nat.
Proof. intros H. unfold splice. rewrite !length_app, length_take, length_drop. lia. Qed.

Lemma splice_splice c pos b1 b2 : (pos <= length c)%nat -> splice (splice c pos b1) (pos + length b1) b2 = splice c pos (b1 ++ b2).
Proof.
  intros H. unfold splice. rewrite length_app.
  assert (E1 : take (pos + length b1) (take pos c ++ b1 ++ drop (pos + length b1) c) = take pos c ++ b1).
  { rewrite app_assoc, take_app_le by (rewrite length_app, length_take; lia). apply take_ge. rewrite length_app, length_take. lia. }
  assert (E2 : drop (pos + length b1 + length b2) (take pos c ++ b1 ++ drop (pos + length b1) c) = drop (pos + (length b1 + length b2)) c).
  { rewrite app_assoc, drop_app_ge by (rewrite length_app, length_take; lia). rewrite length_app, length_take_le, drop_drop by lia. f_equal. lia. }
  rewrite E1, E2, <- !app_assoc. done.
Qed.

(** One piece goes to the file. *)
Lemma write_piece c k s a b n i fuel :
  abs c k s a -> 0 <= a.2 <= Z.of_nat (length a.1) -> a.2 + (n - i) < 2 ^ 62 -> n = Z.of_nat (length b) -> 0 <= i < n -> n - i <= k ->
  let n1 := Z.min max_piece (n - i) in
  let p := take (Z.to_nat n1) (drop (Z.to_nat i) b) in
  exists s', write_loop pid (S fuel) b n i s = write_loop pid fuel b n (i + n1) s' /\
    abs c (k - n1) s' (splice a.1 (Z.to_nat a.2) p, a.2 + n1).
Proof.
  intros H Hp Hov Hn Hi Hk n1 p. pose proof H as [A B [C C'] D E G K J L].
  assert (Hn1 : 0 < n1 <= n - i) by (unfold n1; change max_piece with 9216; lia).
  assert (Hlp : Z.of_nat (length p) = n1) by (unfold p; rewrite length_take, length_drop; lia).
  cbn [write_loop]. destruct (Z.ltb_spec i n); [|lia]. fold n1. fold p. run_step. rewrite B, D.
  destruct (begin_same _ E) as (f1 & E1 & R1 & S1 & Q1). rewrite (bind_run _ _ _ _ _ (on_io_run _ _ _ _ E1)).
  destruct (ilock_ok c f1 R1) as (f2 & E2 & H2 & S2 & Q2). rewrite (bind_run _ _ _ _ _ (on_io_run _ (with_fs f1 s) _ _ E2)), with_fs_twice.
  pose proof (same_trans _ _ _ S1 S2) as S12. pose proof (same_content _ _ c S12) as Hc. rewrite K in Hc. destruct S12 as [_ S12].
  destruct (S12 c) as (T1 & T2 & T3). rewrite G in T3.
  destruct (i_writei_ok c f2 p a.2 H2 T3) as (f3 & E3 & H3 & C3 & A3 & Q3); [rewrite Hc; lia|apply (room_mono _ k); [by auto|lia]|].
  rewrite Hlp in E3. rewrite (bind_run _ _ _ _ _ (on_io_run _ (with_fs f2 s) _ _ E3)), with_fs_twice.
  rewrite (bind_run _ _ _ _ _ (get_fs_run _ _)). destruct (A3 c) as (U1 & U2 & U3).
  cbn [pc with_fs set_pc Pagecache.fs Pagecache.set_fs]. rewrite U3, T3. destruct (Z.ltb_spec 0 n1); [|lia]. cbn [andb Z.eqb].
  change (T_FILE =? T_FILE) with true. cbv iota.
  set (s3 := with_fs f3 (set_fl (File.set_off (a.2 + n1) (fl s)) s)).
  assert (Ew : (let* d := get_fs (fun x => i_dev x c) in
           let* k := get_fs (fun x => i_inum x c) in
           on_pc (Pagecache.update_page pid a.2 k d (take (Z.to_nat n1) p)) ;; add_off n1) (with_fs f3 s) = Ret tt s3).
  { rewrite (bind_run _ _ _ _ _ (get_fs_run _ _)), (bind_run _ _ _ _ _ (get_fs_run _ _)).
    cbn [pc with_fs set_pc Pagecache.fs Pagecache.set_fs]. rewrite U1, U2, T1, T2.
    assert (Eu : on_pc (Pagecache.update_page pid a.2 (i_inum (Pagecache.fs (pc s)) c) (i_dev (Pagecache.fs (pc s)) c) (take (Z.to_nat n1) p))
                   (with_fs f3 s) = Ret tt (with_fs f3 s)).
    { unfold on_pc, zoom. rewrite update_uncached; [done|]. exact L. }
    rewrite (bind_run _ _ _ _ _ Eu). unfold add_off, modify, s3. do 2 f_equal. unfold set_fl. cbn [fl with_fs set_pc]. by rewrite D, s64_id by lia. }
  rewrite (bind_run _ _ _ _ _ Ew).
  destruct (set_mtime_ok c f3 H3) as (f4 & E4 & H4 & S4 & Q4). rewrite (bind_run _ _ _ _ _ (on_io_run _ s3 _ _ E4)).
  destruct (iunlock_ok c f4 H4) as (f5 & E5 & R5 & S5 & Q5). rewrite (bind_run _ _ _ _ _ (on_io_run _ (with_fs f4 s3) _ _ E5)).
  destruct (end_same f5 R5) as (f6 & E6 & R6 & S6 & Q6). rewrite (bind_run _ _ _ _ _ (on_io_run _ (with_fs f5 (with_fs f4 s3)) _ _ E6)).
  destruct (Z.ltb_spec n1 0); [lia|]. rewrite Z.eqb_refl. cbn [negb]. eexists. split; [reflexivity|].
  pose proof (same_trans _ _ _ S4 (same_trans _ _ _ S5 S6)) as S46. rewrite !with_fs_twice.
  pose proof (same_content _ _ c S46) as C6. destruct S46 as [_ S46]. destruct (S46 c) as (V1 & V2 & V3).
  split; cbn [fl pc with_fs set_pc s3 set_fl File.type File.ip File.readable File.writable File.off File.set_off Pagecache.fs Pagecache.set_fs fst snd]; try done.
  - congruence.
  - rewrite C6, C3, Hc. done.
  - apply Q6, Q5, Q4. rewrite <- Hlp. auto.
  - rewrite V1, V2, U1, U2, T1, T2. exact L.
Qed.

Lemma drop_piece (b : list Z) i n1 : take n1 (drop i b) ++ drop (i + n1) b = drop i b.
Proof. rewrite <- drop_drop. apply take_drop. Qed.

Lemma file_write_loop_run c b n fuel : forall k s a i,
  abs c k s a -> 0 <= a.2 <= Z.of_nat (length a.1) -> a.2 + (n - i) < 2 ^ 62 -> n = Z.of_nat (length b) -> 0 <= i <= n -> n - i <= k ->
  (n - i + max_piece - 1) / max_piece <= Z.of_nat fuel ->
  exists s', write_loop pid fuel b n i s = Ret n s' /\ abs c (k - (n - i)) s' (splice a.1 (Z.to_nat a.2) (drop (Z.to_nat i) b), a.2 + (n - i)).
Proof.
  change max_piece with 9216. induction fuel as [|fuel IH]; intros k s a i H Hp Hov Hn Hi Hk Hf.
  - assert (i = n) as -> by (destruct (decide (i = n)); [done|]; assert (1 <= (n - i + 9216 - 1) / 9216) by (apply Z.div_le_lower_bound; lia); lia).
    cbn [write_loop]. rewrite Z.ltb_irrefl. exists s. split; [done|]. rewrite Z.sub_diag, Z.sub_0_r, Z.add_0_r. rewrite drop_ge by lia.
    unfold splice. cbn [length app]. rewrite Nat.add_0_r, take_drop. by destruct a.
  - destruct (decide (i = n)) as [->|Hne].
    { cbn [write_loop]. rewrite Z.ltb_irrefl. exists s. split; [done|]. rewrite Z.sub_diag, Z.sub_0_r, Z.add_0_r. rewrite drop_ge by lia.
      unfold splice. cbn [length app]. rewrite Nat.add_0_r, take_drop. by destruct a. }
    destruct (write_piece c k s a b n i fuel H Hp Hov Hn ltac:(lia) Hk) as (s1 & E1 & H1). change max_piece with 9216 in *.
    set (n1 := Z.min 9216 (n - i)) in *. set (p := take (Z.to_nat n1) (drop (Z.to_nat i) b)) in *.
    assert (Hn1 : 0 < n1 <= n - i) by (unfold n1; lia).
    assert (Hlp : length p = Z.to_nat n1) by (unfold p; rewrite length_take, length_drop; lia).
    destruct (splice_length a.1 (Z.to_nat a.2) p ltac:(lia)) as [Hls _].
    destruct (IH (k - n1) s1 _ (i + n1) H1) as (s2 & E2 & H2); cbn [fst snd]; try lia.
    { destruct (decide (n - i <= 9216)); [assert (n1 = n - i) as -> by (unfold n1; lia); replace (n - (i + (n - i))) with 0 by lia; change ((0 + 9216 - 1) / 9216) with 0; lia|].
      assert (n1 = 9216) as -> by (unfold n1; lia).
      replace (n - (i + 9216) + 9216 - 1) with (n - i + 9216 - 1 + -1 * 9216) by lia. rewrite Z.div_add by lia. lia. }
    exists s2. split; [by rewrite E1|]. cbn [fst snd] in H2.
    replace (Z.to_nat (a.2 + n1)) with (Z.to_nat a.2 + length p)%nat in H2 by lia. rewrite splice_splice in H2 by lia.
    replace (Z.to_nat (i + n1)) with (Z.to_nat i + Z.to_nat n1)%nat in H2 by lia. unfold p in H2. rewrite drop_piece in H2.
    replace (k - n1 - (n - (i + n1))) with (k - (n - i)) in H2 by lia. by replace (a.2 + n1 + (n - (i + n1))) with (a.2 + (n - i)) in H2 by lia.
Qed.
(** Behind the end of the file nothing is written. *)
Lemma write_beyond c k s a b n fuel :
  abs c k s a -> Z.of_nat (length a.1) < a.2 -> 0 < n ->
  exists s', write_loop pid (S fuel) b n 0 s = Ret 0 s' /\ abs c k s' a.
Proof.
  intros H Hp Hn. pose proof H as [A B [C C'] D E G K J L]. cbn [write_loop]. destruct (Z.ltb_spec 0 n); [|lia]. run_step. rewrite B, D.
  destruct (begin_same _ E) as (f1 & E1 & R1 & S1 & Q1). rewrite (bind_run _ _ _ _ _ (on_io_run _ _ _ _ E1)).
  destruct (ilock_ok c f1 R1) as (f2 & E2 & H2 & S2 & Q2). rewrite (bind_run _ _ _ _ _ (on_io_run _ (with_fs f1 s) _ _ E2)), with_fs_twice.
  pose proof (same_trans _ _ _ S1 S2) as S12. pose proof (same_content _ _ c S12) as Hc. rewrite K in Hc.
  assert (T2 : i_type f2 c = T_FILE) by (destruct S12 as [_ S]; destruct (S c) as (_ & _ & ->); done).
  set (piece := take _ _). set (n1 := Z.min _ _).
  destruct (i_writei_beyond c f2 piece a.2 n1 H2 T2 ltac:(by rewrite Hc)) as (f3 & E3 & H3 & S3 & Q3).
  rewrite (bind_run _ _ _ _ _ (on_io_run _ (with_fs f2 s) _ _ E3)), with_fs_twice.
  rewrite (bind_run _ _ _ _ _ (get_fs_run _ _)). cbn [Z.ltb Z.compare andb]. run_step.
  destruct (set_mtime_ok c f3 H3) as (f4 & E4 & H4 & S4 & Q4). rewrite (bind_run _ _ _ _ _ (on_io_run _ (with_fs f3 s) _ _ E4)).
  destruct (iunlock_ok c f4 H4) as (f5 & E5 & R5 & S5 & Q5). rewrite (bind_run _ _ _ _ _ (on_io_run _ (with_fs f4 (with_fs f3 s)) _ _ E5)).
  destruct (end_same f5 R5) as (f6 & E6 & R6 & S6 & Q6). rewrite (bind_run _ _ _ _ _ (on_io_run _ (with_fs f5 (with_fs f4 (with_fs f3 s))) _ _ E6)).
  eexists. split; [reflexivity|]. apply (abs_fs c k k s); [done|done| |by auto 10].
  repeat (eapply same_trans; [eassumption|]). done.
Qed.

Lemma filewrite_run c k s a b :
  abs c k s a -> small (Cwrite b) a -> cost (Cwrite b) <= k ->
  exists s', run (Cwrite b) s = Ret (spec (Cwrite b) a).1 s' /\ abs c (k - cost (Cwrite b)) s' (spec (Cwrite b) a).2.
Proof.
  intros H (Hp & Hlen & Hb) Hk. pose proof H as [A B [C C'] D E G K J L]. unfold run, filewrite. cbn [Fileio.cost] in *. destruct (bool_dec wr true) as [Ewr|Ewr%not_true_is_false].
  2: { exists s. cbn [Fileio.spec]. rewrite Ewr, Z.sub_0_r. unfold bind, gets, ret. rewrite C', Ewr. done. }
  rewrite Ewr in C', Hk. replace (if wr then Z.of_nat (length b) else 0) with (Z.of_nat (length b)) by by rewrite Ewr.
  set (n := Z.of_nat (length b)) in *.
  assert (Hdiv : (n + max_piece - 1) / max_piece <= n / max_piece + 1).
  { change max_piece with 9216. replace (n + 9216 - 1) with ((n - 1) + 1 * 9216) by lia. rewrite Z.div_add by lia.
    pose proof (Z.div_le_mono (n - 1) n 9216 ltac:(lia) ltac:(lia)). lia. }
  assert (H0 : 0 <= n / max_piece) by (apply Z.div_pos; [lia|done]).
  assert (Hspec : (n = 0 /\ spec (Cwrite b) a = ((0, []), a)) \/
    (0 < n /\ Z.of_nat (length a.1) < a.2 /\ spec (Cwrite b) a = ((-1, []), a)) \/
    (0 < n /\ a.2 <= Z.of_nat (length a.1) /\ spec (Cwrite b) a = ((n, []), (splice a.1 (Z.to_nat a.2) b, a.2 + n)))).
  { cbn [Fileio.spec]. rewrite Ewr. cbn [negb]. destruct b as [|x b]; [by left|]. right. rewrite bool_decide_eq_false_2 by done. destruct (Z.ltb_spec (Z.of_nat (length a.1)) a.2); [left|right]; (split; [unfold n; cbn [length]; lia|done]). }
  destruct Hspec as [(Hn & ->)|[(Hn & Hbey & ->)|(Hn & Hin & ->)]].
  - cbn [fst snd]. rewrite Hn, Z.sub_0_r. exists s. split; [|done]. unfold bind, gets, ret. rewrite C', A. cbn [negb].
    change (Z.to_nat (0 / max_piece + 1)) with 1%nat. cbn [write_loop]. done.
  - destruct (write_beyond c k s a b n (Z.to_nat (n / max_piece)) H Hbey Hn) as (s' & Ew & Hs'). exists s'. split.
    + unfold bind, gets, ret. rewrite C', A. cbn [negb]. replace (Z.to_nat (n / max_piece + 1)) with (S (Z.to_nat (n / max_piece))) by lia.
      rewrite Ew. destruct (Z.eqb_spec 0 n); [lia|done].
    + destruct Hs' as [A1 A2 A3 A4 A5 A6 A7 A8 A9]. split; try done. cbn [fst snd]. apply (room_mono _ k); [done|lia].
  - destruct (file_write_loop_run c b n (Z.to_nat (n / max_piece + 1)) k s a 0 H) as (s' & Ew & Hs'); try lia.
    { rewrite Z.sub_0_r. lia. }
    exists s'. rewrite Z.sub_0_r in Hs'. split; [|exact Hs']. unfold bind, gets, ret. rewrite C', A. cbn [negb]. rewrite Ew, Z.eqb_refl. done.
Qed.

Lemma seek_run c k s a o : abs c k s a ->
  exists s', (if o <? 0 then ret (- EINVAL) else modify (set_fl (File.set_off o (fl s))) ;; ret o) s = Ret (spec_seek o a).1 s' /\
    abs c k s' (spec_seek o a).2.
Proof.
  intros H. unfold spec_seek. destruct (o <? 0); [by exists s|]. eexists. split; [reflexivity|]. by destruct H as [A1 A2 A3 A4 A5 A6 A7 A8 A9].
Qed.

Lemma filelseek_run c k s a o w :
  abs c k s a -> small (Clseek o w) a ->
  exists s', filelseek o w s = Ret (spec (Clseek o w) a).1.1 s' /\ abs c k s' (spec (Clseek o w) a).2.
Proof.
  intros H (Hp & Hlen & Ho). pose proof H as [A B [C C'] D E G K J L]. unfold filelseek, Fileio.spec. run_step. cbv zeta.
  destruct (w =? SEEK_SET).
  { destruct (seek_run c k s a o H) as (s' & Es & Hs'). exists s'. rewrite Es. by destruct (spec_seek o a). }
  destruct (w =? SEEK_CUR).
  { destruct (seek_run c k s a (a.2 + o) H) as (s' & Es & Hs'). exists s'. rewrite D, s64_id by lia. rewrite Es. by destruct (spec_seek (a.2 + o) a). }
  destruct (w =? SEEK_END); [|by exists s].
  rewrite A, B, (bind_run _ _ _ _ _ (get_fs_run _ _)). rewrite (i_size_ok c _ E G), K.
  destruct (seek_run c k s a (Z.of_nat (length a.1) + o) H) as (s' & Es & Hs'). exists s'. rewrite s64_id by lia. rewrite Es.
  by destruct (spec_seek (Z.of_nat (length a.1) + o) a).
Qed.
Lemma seek_set_run c k s a o :
  abs c k s a -> exists s', filelseek o SEEK_SET s = Ret (spec_seek o a).1 s' /\ abs c k s' (spec_seek o a).2.
Proof. intros H. destruct (seek_run c k s a o H) as (s' & E & H'). exists s'. split; [|done]. unfold filelseek. run_step. exact E. Qed.

Lemma seek_to o (a : afile) : 0 <= o -> spec_seek o a = (o, (a.1, o)).
Proof. intros H. unfold spec_seek. by destruct (Z.ltb_spec o 0); [lia|]. Qed.

Lemma filepread_run c k s a n o :
  abs c k s a -> small (Cpread n o) a ->
  exists s', filepread64 n o s = Ret (spec (Cpread n o) a).1 s' /\ abs c k s' (spec (Cpread n o) a).2.
Proof.
  intros H (Hp & Hlen & Hn & Ho). unfold filepread64. assert (Ea : (a.1, a.2) = a) by by destruct a.
  assert (E1 : filelseek 0 SEEK_CUR s = Ret a.2 s).
  { unfold filelseek. run_step. rewrite (ab_off _ _ _ _ H), Z.add_0_r, s64_id by lia.
    cbn [SEEK_CUR SEEK_SET Z.eqb Pos.eqb]. destruct (Z.ltb_spec a.2 0); [lia|]. unfold bind, modify, ret. f_equal.
    rewrite <- (ab_off _ _ _ _ H). destruct s as [f0 p0]. by destruct f0. }
  rewrite (bind_run _ _ _ _ _ E1). destruct (Z.ltb_spec a.2 0); [lia|].
  destruct (seek_set_run c k s a o H) as (s2 & E2 & G2). unfold Fileio.spec. destruct (Z.ltb_spec o 0) as [Hneg|Hpos].
  { unfold spec_seek in E2, G2. destruct (Z.ltb_spec o 0) in E2, G2; [|lia]. rewrite (bind_run _ _ _ _ _ E2). by exists s2. }
  rewrite (seek_to o a Hpos) in E2, G2. cbn [fst snd] in E2, G2. rewrite (bind_run _ _ _ _ _ E2). destruct (Z.ltb_spec o 0); [lia|].
  destruct (fileread_run c k s2 (a.1, o) n G2 Hn ltac:(cbn; lia) Hlen) as (s3 & E3 & G3). rewrite (bind_run _ _ _ _ _ E3).
  destruct (spec_read n (a.1, o)) as [r b] eqn:Er. cbn [fst snd] in G3 |- *. cbv beta iota.
  destruct (seek_set_run c k s3 _ a.2 G3) as (s4 & E4 & G4). rewrite (seek_to a.2) in E4, G4 by lia. cbn [fst snd] in E4, G4.
  rewrite (bind_run _ _ _ _ _ E4). destruct (Z.ltb_spec a.2 0); [lia|]. rewrite Ea in G4. by exists s4.
Qed.

(** Each single call does what the abstract file does. *)
Lemma call_refines c q k s a :
  abs c k s a -> small q a -> cost q <= k -> exists s', run q s = Ret (spec q a).1 s' /\ abs c (k - cost q) s' (spec q a).2.
Proof.
  intros H Hs Hk. destruct q as [n|b|o w|n o]; [|by apply filewrite_run|..]; cbn [Fileio.cost] in *; rewrite ?Z.sub_0_r.
  - destruct Hs as (? & ? & ?). by apply fileread_run.
  - destruct (filelseek_run c k s a o w H Hs) as (s' & E & H'). exists s'. split; [|done]. unfold run. rewrite (bind_run _ _ _ _ _ E).
    unfold ret. f_equal. unfold Fileio.spec. by destruct (if w =? SEEK_SET then _ else _).
  - by apply filepread_run.
Qed.

(** * Sequences of calls *)

Fixpoint runs (qs : list call) : M (iostate F) (list (Z * list Z)) :=
  match qs with
  | [] => ret []
  | q :: qs' => let* r := run q in let* rs := runs qs' in ret (r :: rs)
  end.
End Refine.

(** C10: an open regular file is an array of bytes with a position.  Any sequence
    of reads, writes, seeks and positioned reads, on a file system that keeps
    its promises, with room for the bytes that are written and while no page of
    the file is in the page cache, returns what the calls return on a list of
    bytes and a position: also -EBADF from a file that is not open for reading
    or not for writing, -1 behind the end and -EINVAL for a wrong position.  It
    leaves the file with those bytes at that position. *)
Theorem file_io_refines {F : Type} {R : Pagecache.Reader F} {RL : Pagecache.ReaderLaws R} {I : Inodes F} {IL : InodeLaws I}
    pid rd wr c qs k (s : iostate F) a (H : abs rd wr c k s a) (Hf : fits rd wr qs k a) :
  exists k' s', runs pid qs s = Ret (specs rd wr qs a).1 s' /\ abs rd wr c k' s' (specs rd wr qs a).2.
Proof.
  revert k s a H Hf. induction qs as [|q qs IH]; intros k s a H Hf; cbn [runs specs fits] in *; [by exists k, s|].
  destruct Hf as (Hs & Hc & Hf). destruct (call_refines pid rd wr c q k s a H Hs Hc) as (s1 & E1 & H1). rewrite (bind_run _ _ _ _ _ E1).
  destruct (IH _ s1 _ H1 Hf) as (k' & s2 & E2 & H2). rewrite (bind_run _ _ _ _ _ E2). exists k', s2.
  destruct (spec rd wr q a) as [r a1]. cbn [fst snd] in *. by destruct (specs rd wr qs a1).
Qed.

(** * Where the calls go wrong *)

Section Wrong.
Context {F : Type} {R : Pagecache.Reader F} {RL : Pagecache.ReaderLaws R} {I : Inodes F} {IL : InodeLaws I}.
Context (pid : Z).

Lemma bind_panics {S A B} (m : M S A) (h : A -> M S B) s s' : m s = Panic s' -> bind m h s = Panic s'.
Proof. intros E. unfold bind. by rewrite E. Qed.

(** A piece that crosses the end of a page which is in the page cache: the copy
    into the cache runs over the end of that page. *)
Lemma filewrite_overruns c k (s : iostate F) b C j q :
  File.type (fl s) = File.FD_INODE -> File.ip (fl s) = c -> File.writable (fl s) = true ->
  0 <= File.off (fl s) <= Z.of_nat (length (icontent (Pagecache.fs (pc s)) c)) ->
  Pagecache.ready (Pagecache.fs (pc s)) -> i_type (Pagecache.fs (pc s)) c = T_FILE -> room (Pagecache.fs (pc s)) k -> Z.of_nat (length b) <= k ->
  Pagecache.coherent C (pc s) ->
  list_find (Pagecache.is_key (i_inum (Pagecache.fs (pc s)) c) (Pagecache.base_of (File.off (fl s))) (i_dev (Pagecache.fs (pc s)) c))
    (Pagecache.pages (pc s)) = Some (j, q) ->
  Mm.PGSIZE < File.off (fl s) mod Mm.PGSIZE + Z.min max_piece (Z.of_nat (length b)) ->
  exists s', filewrite pid b (Z.of_nat (length b)) s = Panic s'.
Proof.
  intros A B C' Hp E G J Hk HC Hf Hlong. unfold filewrite. run_step. rewrite C', A. cbn [negb]. set (n := Z.of_nat (length b)) in *.
  assert (Hn : 0 < n).
  { pose proof (Z.mod_pos_bound (File.off (fl s)) Mm.PGSIZE eq_refl). unfold Mm.PGSIZE in *. lia. }
  assert (H0 : 0 <= n / max_piece) by (apply Z.div_pos; [lia|done]).
  replace (Z.to_nat (n / max_piece + 1)) with (S (Z.to_nat (n / max_piece))) by lia.
  enough (exists s', write_loop pid (S (Z.to_nat (n / max_piece))) b n 0 s = Panic s') as [s' Ew] by (exists s'; by apply bind_panics).
  cbn [write_loop]. destruct (Z.ltb_spec 0 n); [|lia]. rewrite Z.sub_0_r. set (n1 := Z.min max_piece n) in *.
  assert (Hn1 : 0 < n1 <= n) by (unfold n1; change max_piece with 9216; lia).
  change (drop (Z.to_nat 0) b) with b. set (p := take (Z.to_nat n1) b).
  assert (Hlp : Z.of_nat (length p) = n1) by (unfold p; rewrite length_take; lia).
  run_step. rewrite B.
  destruct (begin_same _ E) as (f1 & E1 & R1 & S1 & Q1). rewrite (bind_run _ _ _ _ _ (on_io_run _ _ _ _ E1)).
  destruct (ilock_ok c f1 R1) as (f2 & E2 & H2 & S2 & Q2). rewrite (bind_run _ _ _ _ _ (on_io_run _ (with_fs f1 s) _ _ E2)), with_fs_twice.
  pose proof (same_trans _ _ _ S1 S2) as S12. pose proof (same_content _ _ c S12) as Hc. destruct S12 as [_ S12].
  destruct (S12 c) as (T1 & T2 & T3). rewrite G in T3.
  destruct (i_writei_ok c f2 p (File.off (fl s)) H2 T3) as (f3 & E3 & H3 & C3 & A3 & Q3); [rewrite Hc; lia|apply (room_mono _ k); [by auto|lia]|].
  rewrite Hlp in E3. rewrite (bind_run _ _ _ _ _ (on_io_run _ (with_fs f2 s) _ _ E3)), with_fs_twice.
  rewrite (bind_run _ _ _ _ _ (get_fs_run _ _)). destruct (A3 c) as (U1 & U2 & U3).
  cbn [pc with_fs set_pc Pagecache.fs Pagecache.set_fs]. rewrite U3, T3. destruct (Z.ltb_spec 0 n1); [|lia].
  change (true && (T_FILE =? T_FILE)) with true. cbv iota.
  assert (HC3 : Pagecache.coherent C (pc (with_fs f3 s))) by (destruct HC; by split).
  destruct (Pagecache.update_page_overruns pid C (i_dev (Pagecache.fs (pc s)) c) (i_inum (Pagecache.fs (pc s)) c) (File.off (fl s))
    (take (Z.to_nat n1) p) j q (pc (with_fs f3 s)) HC3 ltac:(lia) Hf) as [s' Eu].
  { rewrite length_take. unfold Mm.PGSIZE in *. lia. }
  eexists. apply bind_panics. rewrite (bind_run _ _ _ _ _ (get_fs_run _ _)), (bind_run _ _ _ _ _ (get_fs_run _ _)).
  cbn [pc with_fs set_pc Pagecache.fs Pagecache.set_fs]. rewrite U1, U2, T1, T2.
  apply bind_panics. unfold on_pc, zoom. rewrite Eu. reflexivity.
Qed.

(** [sys_readv] checks the first buffer again and again: the bytes for the
    second go wherever it points. *)
Lemma readv_second_unchecked p wr c k (s : iostate F) a b1 l1 b2 l2 :
  abs true wr c k s a -> Syscall.in_user p b1 l1 = true -> 0 <= l1 < 2 ^ 61 -> 0 <= l2 < 2 ^ 61 -> 0 <= a.2 < 2 ^ 60 -> Z.of_nat (length a.1) < 2 ^ 60 ->
  exists r s', sys_readv p [(b1, l1); (b2, l2)] 2 s =
    Ret (r, [(b1, (spec_read true l1 a).2); (b2, (spec_read true l2 (a.1, a.2 + Z.max 0 (spec_read true l1 a).1)).2)]) s'.
Proof.
  intros H Hu Hl1 Hl2 Hp Hlen. destruct (fileread_run true wr c k s a l1 H Hl1 ltac:(lia) ltac:(lia)) as (s1 & E1 & H1).
  assert (Hr : -1 <= (spec_read true l1 a).1 < 2 ^ 60).
  { unfold spec_read. cbn [negb]. destruct (_ <? _); cbn [fst]; [lia|]. rewrite length_take, length_drop. lia. }
  destruct (fileread_run true wr c k s1 _ l2 H1 Hl2 ltac:(cbn [snd]; lia) ltac:(cbn [fst]; lia)) as (s2 & E2 & H2).
  change (sys_readv p [(b1, l1); (b2, l2)] 2) with (readv_loop (F := F) p (b1, l1) [(b1, l1); (b2, l2)] 0).
  cbn [readv_loop fst snd]. rewrite Hu. cbn [negb]. rewrite !s64_id by lia. rewrite (bind_run _ _ _ _ _ E1).
  destruct (spec_read true l1 a) as [r1 x1]. cbv beta iota. cbn [fst snd] in *.
  set (a2 := (a.1, _)) in *. destruct (spec_read true l2 a2) as [r2 x2] eqn:Er2.
  unfold bind at 1. rewrite (bind_run _ _ _ _ _ E2). cbv beta iota. eexists _, s2. reflexivity.
Qed.
End Wrong.

(** * A file system with one file *)

Definition demo_file (f : list Z) (d i : Z) : list Z := if (d =? 1) && (i =? 7) then f else [].

Definition demo_read (c : list Z) (off n : Z) : Z * list Z :=
  if Z.of_nat (length c) <? off then (-1, [])
  else let b := take (Z.to_nat n) (drop (Z.to_nat off) c) in (Z.of_nat (length b), b).

#[global] Instance one_reader : Pagecache.Reader (list Z) := {|
  Pagecache.begin_op := ret tt;
  Pagecache.end_op := ret tt;
  Pagecache.readi := fun d i off n => gets (fun f => demo_read (demo_file f d i) off n)
|}.

#[global] Instance one_reader_laws : Pagecache.ReaderLaws one_reader.
Proof.
  refine {| Pagecache.content := demo_file; Pagecache.ready := fun _ => True |}.
  - intros f _. by exists f.
  - intros f _. by exists f.
  - intros f d i off n _ Ho _. exists f. cbn [Pagecache.readi one_reader]. unfold gets, demo_read.
    destruct (Z.ltb_spec (Z.of_nat (length (demo_file f d i))) off); [lia|done].
  - intros f d i off n _ Ho. exists f. cbn [Pagecache.readi one_reader]. unfold gets, demo_read.
    destruct (Z.ltb_spec (Z.of_nat (length (demo_file f d i))) off); [done|lia].
Defined.

#[global] Instance one_inodes : Inodes (list Z) := {|
  ilock := fun _ => ret tt;
  iunlock := fun _ => ret tt;
  i_readi := fun _ off n => gets (fun f => demo_read f off n);
  i_writei := fun _ b off n f =>
    if Z.of_nat (length f) <? off then Ret (-1) f else Ret n (splice f (Z.to_nat off) (take (Z.to_nat n) b));
  i_dev := fun _ _ => 1;
  i_inum := fun _ _ => 7;
  i_type := fun _ _ => T_FILE;
  i_size := fun f _ => Z.of_nat (length f);
  set_atime := fun _ => ret tt;
  set_mtime := fun _ => ret tt;
  pipe_read := fun _ _ => ret (-1, []);
  pipe_write := fun _ _ _ => ret (-1)
|}.

#[global] Instance one_laws : InodeLaws one_inodes.
Proof.
  refine {| held := fun _ _ => True; room := fun _ _ => True |}; try (intros; by exists f); try done.
  - intros c f b off _ _ Ho _. exists (splice f (Z.to_nat off) b). cbn [i_writei one_inodes]. change (icontent f c) with f in *.
    destruct (Z.ltb_spec (Z.of_nat (length f)) off); [lia|]. rewrite Nat2Z.id, take_ge by lia. done.
  - intros c f b off n _ _ Ho. exists f. cbn [i_writei one_inodes]. change (icontent f c) with f in *.
    by destruct (Z.ltb_spec (Z.of_nat (length f)) off); [|lia].
Defined.

Definition demo_open (rd wr : bool) : iostate (list Z) :=
  mkIo (File.mkF File.FD_INODE 1 0 0 0 0 rd wr) (Pagecache.mkS [] 0 false [1; 2; 3] []).

Lemma file_io_refines_witness :
  (exists s, runs 1 [Cread 2; Cwrite [9; 9]; Clseek (-1) SEEK_END; Cread 5; Cpread 2 1; Cread 1] (demo_open true true) =
    Ret [(2, [1; 2]); (2, []); (3, []); (1, [9]); (2, [2; 9]); (0, [])] s) /\
  exists s, runs 1 [Cread 2; Cwrite [9; 9]; Cread 2] (demo_open true false) = Ret [(2, [1; 2]); (- EBADF, []); (1, [3])] s.
Proof.
  split.
  - destruct (file_io_refines 1 true true 0 [Cread 2; Cwrite [9; 9]; Clseek (-1) SEEK_END; Cread 5; Cpread 2 1; Cread 1] 2 (demo_open true true) ([1; 2; 3], 0))
      as (k' & s' & E & _).
    + by split.
    + vm_compute. intuition congruence.
    + exists s'. exact E.
  - destruct (file_io_refines 1 true false 0 [Cread 2; Cwrite [9; 9]; Cread 2] 2 (demo_open true false) ([1; 2; 3], 0)) as (k' & s' & E & _).
    + by split.
    + vm_compute. intuition congruence.
    + exists s'. exact E.
Defined.

End Fileio.
