(* ===== verification/Signal.v ===== *)
(** Signal sets: kern/signal.c and inc/linux/signal.h.

    A [sigset_t] is a 64-bit word; the functions that take a pointer to a set
    and change it return the new set with their result. *)

From stdpp Require Import base list.
From Stdlib Require Import ZArith Lia Bool.
From S2P Require Import Prelude.

Module Signal.

Definition NSIG : Z := 32.
Definition SIG_DFL : Z := 0.
Definition SIG_IGN : Z := 1.
Definition SIGHUP : Z := 1.
Definition SIGINT : Z := 2.
Definition SIGQUIT : Z := 3.
Definition SIGILL : Z := 4.
Definition SIGTRAP : Z := 5.
Definition SIGABRT : Z := 6.
Definition SIGBUS : Z := 7.
Definition SIGFPE : Z := 8.
Definition SIGKILL : Z := 9.
Definition SIGUSR1 : Z := 10.
Definition SIGSEGV : Z := 11.
Definition SIGUSR2 : Z := 12.
Definition SIGPIPE : Z := 13.
Definition SIGALRM : Z := 14.
Definition SIGTERM : Z := 15.
Definition SIGSTKFLT : Z := 16.
Definition SIGCHLD : Z := 17.
Definition SIGCONT : Z := 18.
Definition SIGSTOP : Z := 19.
Definition SIGTSTP : Z := 20.
Definition SIGTTIN : Z := 21.
Definition SIGTTOU : Z := 22.
Definition SIGURG : Z := 23.
Definition SIGXCPU : Z := 24.
Definition SIGXFSZ : Z := 25.
Definition SIGVTALRM : Z := 26.
Definition SIGPROF : Z := 27.
Definition SIGWINCH : Z := 28.
Definition SIGIO : Z := 29.
Definition SIGPWR : Z := 30.
Definition SIGSYS : Z := 31.
Definition SIG_BLOCK : Z := 0.
Definition SIG_UNBLOCK : Z := 1.
Definition SIG_SETMASK : Z := 2.

Definition sigemptyset : Z := 0.

Definition sigfillset : Z := 0xffffffffffffffff.

Definition bad_signum (signum : Z) : bool := (signum <? 1) || (NSIG <=? signum).

(** [1 << (signum - 1)] is an [int], converted to 64 bits. *)
Definition sigbit (signum : Z) : Z := u64 (s32 (Z.shiftl 1 (signum - 1))).

Definition sigaddset (set signum : Z) : Z * Z :=
  if bad_signum signum then (-1, set) else (0, Z.lor set (sigbit signum)).

Definition sigdelset (set signum : Z) : Z * Z :=
  if bad_signum signum then (-1, set)
  else (0, Z.land set (u64 (Z.lnot (s32 (Z.shiftl 1 (signum - 1)))))).

Definition sigismember (set signum : Z) : Z :=
  if bad_signum signum then -1 else b2z (truthy (Z.land set (sigbit signum))).

Definition sigisemptyset (set : Z) : Z := b2z (set =? 0).

Definition signotset (src : Z) : Z := not_w 64 src.

Definition sigorset (left right : Z) : Z := Z.lor left right.

Definition sigandset (left right : Z) : Z := Z.land left right.

Definition siginitset (src : Z) : Z := sigorset sigemptyset src.

(** * Correctness *)

(** The signals in a set. *)
Definition has (set signum : Z) : bool := Z.testbit set (signum - 1).

Definition sigset (set : Z) : Prop := 0 <= set < 2 ^ 64.

Lemma sigbit_eq sig : 1 <= sig < 32 -> sigbit sig = 2 ^ (sig - 1) /\ s32 (Z.shiftl 1 (sig - 1)) = 2 ^ (sig - 1).
Proof.
  intros H. assert (0 < 2 ^ (sig - 1) < 2 ^ 31) as Hp.
  { split; [apply Z.pow_pos_nonneg; lia|apply Z.pow_lt_mono_r; lia]. }
  unfold sigbit. rewrite Z.shiftl_1_l, s32_id by lia. split; [|done]. apply u64_id. lia.
Qed.

Lemma good_signum sig : 1 <= sig < 32 -> bad_signum sig = false.
Proof. intros H. unfold bad_signum, NSIG. destruct (Z.ltb_spec sig 1), (Z.leb_spec 32 sig); lia || done. Qed.

Lemma lnot_pow n : 0 <= n < 31 -> u64 (Z.lnot (2 ^ n)) = Z.ldiff (Z.ones 64) (2 ^ n).
Proof.
  intros Hn. unfold u64, wrap. rewrite <- Z.land_ones by lia. apply Z.bits_inj'. intros k Hk.
  rewrite Z.land_spec, Z.ldiff_spec, Z.lnot_spec by lia. apply andb_comm.
Qed.

Lemma has_add set sig k : 1 <= sig < 32 -> 1 <= k -> has (Z.lor set (sigbit sig)) k = has set k || (k =? sig).
Proof.
  intros Hs Hk. unfold has. destruct (sigbit_eq sig Hs) as [-> _]. rewrite Z.lor_spec, Z.pow2_bits_eqb by lia. f_equal.
  destruct (Z.eqb_spec (sig - 1) (k - 1)), (Z.eqb_spec k sig); lia || done.
Qed.

Lemma has_del set sig k : 1 <= sig < 32 -> 1 <= k <= 64 ->
  has (Z.land set (u64 (Z.lnot (s32 (Z.shiftl 1 (sig - 1)))))) k = has set k && negb (k =? sig).
Proof.
  intros Hs Hk. unfold has. destruct (sigbit_eq sig Hs) as [_ ->]. rewrite lnot_pow by lia.
  rewrite Z.land_spec, Z.ldiff_spec, Z.pow2_bits_eqb, Z.ones_spec_low by lia. cbn. f_equal.
  destruct (Z.eqb_spec (sig - 1) (k - 1)), (Z.eqb_spec k sig); lia || done.
Qed.

Lemma ismember_has set sig : 1 <= sig < 32 -> sigismember set sig = b2z (has set sig).
Proof.
  intros Hs. unfold sigismember. rewrite good_signum by done. f_equal. destruct (sigbit_eq sig Hs) as [-> _].
  unfold has, truthy. destruct (Z.testbit set (sig - 1)) eqn:E.
  - apply negb_true_iff, Z.eqb_neq. intros H. assert (Z.testbit (Z.land set (2 ^ (sig - 1))) (sig - 1) = false) as Hf by (rewrite H; apply Z.bits_0).
    rewrite Z.land_spec, E, Z.pow2_bits_true in Hf by lia. done.
  - apply negb_false_iff, Z.eqb_eq. apply Z.bits_inj'. intros n Hn. rewrite Z.land_spec, Z.bits_0, Z.pow2_bits_eqb by lia.
    destruct (Z.eqb_spec (sig - 1) n) as [<-|]; [by rewrite E|apply andb_false_r].
Qed.

Lemma below64 x : 0 <= x -> (forall n, 64 <= n -> Z.testbit x n = false) -> sigset x.
Proof.
  intros H0 Hb. split; [done|]. destruct (Z.lt_ge_cases x (2 ^ 64)) as [|Hge]; [done|]. exfalso.
  assert (64 <= Z.log2 x) as Hl by (apply Z.log2_le_pow2; lia). pose proof (Hb _ Hl) as Hf. rewrite Z.bit_log2 in Hf by lia. done.
Qed.

Lemma above64 x n : sigset x -> 64 <= n -> Z.testbit x n = false.
Proof.
  intros [H0 H1] Hn. destruct (Z.eq_dec x 0) as [->|]; [apply Z.bits_0|]. apply Z.bits_above_log2; [lia|].
  apply Z.lt_le_trans with 64; [|done]. apply Z.log2_lt_pow2; lia.
Qed.

(** The signal sets are sets.  Adding and removing a signal changes
    that member only and removing undoes adding; membership, union, intersection and
    complement are those of sets; a number outside 1 to 31 is refused with -1
    and changes nothing. *)
Theorem sigset_ops_correct set set' sig k :
  sigset set -> sigset set' -> 1 <= k <= 64 ->
  (1 <= sig < 32 ->
     (sigaddset set sig).1 = 0 /\ has (sigaddset set sig).2 k = has set k || (k =? sig) /\
     (sigdelset set sig).1 = 0 /\ has (sigdelset set sig).2 k = has set k && negb (k =? sig) /\
     sigismember set sig = b2z (has set sig) /\
     sigset (sigaddset set sig).2 /\ sigset (sigdelset set sig).2) /\
  (sig < 1 \/ 32 <= sig -> sigaddset set sig = (-1, set) /\ sigdelset set sig = (-1, set) /\ sigismember set sig = -1) /\
  has (sigorset set set') k = has set k || has set' k /\ has (sigandset set set') k = has set k && has set' k /\
  has (signotset set) k = negb (has set k) /\ siginitset set = set /\
  sigisemptyset set = b2z (forallb (fun j => negb (has set j)) (seqZ 1 64)).
Proof.
  intros Hset Hset' Hk. split; [|split; [|split; [|split; [|split; [|split]]]]].
  - intros Hs. unfold sigaddset, sigdelset. rewrite good_signum by done. cbn [fst snd]. rewrite has_add, has_del, ismember_has by lia.
    assert (sigset (sigbit sig)) as Hb by (unfold sigbit, sigset; apply wrap_range; lia).
    split; [done|]. split; [done|]. split; [done|]. split; [done|]. split; [done|]. unfold sigset in Hset, Hb. split.
    + apply below64; [apply Z.lor_nonneg; lia|]. intros n Hn. rewrite Z.lor_spec. by rewrite !above64.
    + apply below64; [apply Z.land_nonneg; lia|]. intros n Hn. rewrite Z.land_spec. by rewrite (above64 set).
  - intros Hs. assert (bad_signum sig = true) as Hb.
    { unfold bad_signum, NSIG. destruct (Z.ltb_spec sig 1), (Z.leb_spec 32 sig); lia || done. }
    unfold sigaddset, sigdelset, sigismember. by rewrite Hb.
  - apply Z.lor_spec.
  - apply Z.land_spec.
  - unfold has, signotset, not_w. rewrite Z.lxor_spec. change (2 ^ 64 - 1) with (Z.ones 64). by rewrite Z.ones_spec_low by lia.
  - unfold siginitset, sigorset, sigemptyset. apply Z.lor_0_l.
  - unfold sigisemptyset. f_equal. destruct (Z.eqb_spec set 0) as [->|Hne]; symmetry.
    + apply forallb_forall. intros j _. unfold has. by rewrite Z.bits_0.
    + apply not_true_is_false. intros Hall. apply Hne, Z.bits_inj'. intros n Hn. rewrite Z.bits_0.
      destruct (Z.lt_ge_cases n 64) as [Hlt|Hge].
      * rewrite forallb_forall in Hall. specialize (Hall (n + 1)). unfold has in Hall. replace (n + 1 - 1) with n in Hall by lia.
        apply negb_true_iff, Hall. apply list_elem_of_In, elem_of_seqZ. lia.
      * by apply above64.
Qed.

Lemma sigset_ops_correct_witness : has (sigaddset 0 SIGTERM).2 15 = true.
Proof.
  destruct (sigset_ops_correct 0 0 SIGTERM 15) as [H _]; [unfold sigset; lia|unfold sigset; lia|lia|].
  destruct H as (_ & H & _); [unfold SIGTERM; lia|]. rewrite H. reflexivity.
Defined.

End Signal.
