(* ===== verification/Proc.v ===== *)
(** Processes: the scheduler, sleep and wakeup, process groups, signals
    (kern/proc.c, inc/proc.h).

    A process is its index in [ptable.proc].  The scheduling queue and the
    sleep queues are the lists of the processes linked in them, in order: the
    pointer routines of inc/list.h implement these lists ([Lists]) as long as no
    process is linked twice, which is part of the invariant here.

    [swtch] ends a part of a function: [yield] and [sleep] are the parts up to
    the switch, and the part behind it runs in [schedule], which is one round of
    [scheduler] up to the point where the process it chose has released
    [ptable.lock] ([ctx] says which code that process continues with).
    A function that sleeps or spins on a lock that is taken ends in [Block].

    Spin locks are numbers, [held] the ones that are taken.  [umem] is the memory
    of each address space by words, as the kernel reaches it through the page
    table of the process that runs. *)

From stdpp Require Import base list gmap relations.
From Stdlib Require Import ZArith Lia Bool.
From S2P Require Import Prelude Signal.

Module Proc.
Import Signal.

Definition NPROC : nat := 128.
Definition NCPU : nat := 4.
Definition SQSIZE : Z := 0x100.
Definition POLLIN : Z := 0x0001.
Definition POLLOUT : Z := 0x0004.

(** [HASH(x)] *)
Definition HASH (x : Z) : nat := Z.to_nat (Z.land (Z.shiftr (u64 x) 5) (SQSIZE - 1)).

Inductive procstate : Type := UNUSED | EMBRYO | SLEEPING | RUNNABLE | RUNNING | ZOMBIE.

#[export] Instance procstate_eq_dec : EqDecision procstate.
Proof. solve_decision. Defined.

Record sigact : Type := mkSa {
  sa_handler : Z;
  sa_mask : Z;
  sa_flags : Z;
  sa_restorer : Z
}.

Record k_sigaction : Type := mkKsa {
  k_handler : Z;
  k_flags : Z;
  k_restorer : Z;
  k_mask : Z
}.

Record signals : Type := mkSig {
  mask : Z;
  pending : Z;
  actions : list sigact
}.

(** Where a process continues when it is switched to: [p->context]. *)
Inductive resume : Type := Forkret | Yielded | Slept (lk : Z) | Exited.

Record proc : Type := mkP {
  state : procstate;
  pid : Z;
  pgid : Z;
  sid : Z;
  parent : option nat;
  chan : Z;
  killed : Z;
  paused : Z;
  pgdir : Z;
  tf : list Z;
  oldtf : Z;
  signal : signals;
  ctx : resume
}.

Definition set_state (v : procstate) (p : proc) : proc :=
  mkP v (pid p) (pgid p) (sid p) (parent p) (chan p) (killed p) (paused p) (pgdir p) (tf p) (oldtf p) (signal p) (ctx p).
Definition set_pgid (v : Z) (p : proc) : proc :=
  mkP (state p) (pid p) v (sid p) (parent p) (chan p) (killed p) (paused p) (pgdir p) (tf p) (oldtf p) (signal p) (ctx p).
Definition set_chan (v : Z) (p : proc) : proc :=
  mkP (state p) (pid p) (pgid p) (sid p) (parent p) v (killed p) (paused p) (pgdir p) (tf p) (oldtf p) (signal p) (ctx p).
Definition set_killed (v : Z) (p : proc) : proc :=
  mkP (state p) (pid p) (pgid p) (sid p) (parent p) (chan p) v (paused p) (pgdir p) (tf p) (oldtf p) (signal p) (ctx p).
Definition set_paused (v : Z) (p : proc) : proc :=
  mkP (state p) (pid p) (pgid p) (sid p) (parent p) (chan p) (killed p) v (pgdir p) (tf p) (oldtf p) (signal p) (ctx p).
Definition set_tf (v : list Z) (p : proc) : proc :=
  mkP (state p) (pid p) (pgid p) (sid p) (parent p) (chan p) (killed p) (paused p) (pgdir p) v (oldtf p) (signal p) (ctx p).
Definition set_oldtf (v : Z) (p : proc) : proc :=
  mkP (state p) (pid p) (pgid p) (sid p) (parent p) (chan p) (killed p) (paused p) (pgdir p) (tf p) v (signal p) (ctx p).
Definition set_signal (v : signals) (p : proc) : proc :=
  mkP (state p) (pid p) (pgid p) (sid p) (parent p) (chan p) (killed p) (paused p) (pgdir p) (tf p) (oldtf p) v (ctx p).
Definition set_ctx (v : resume) (p : proc) : proc :=
  mkP (state p) (pid p) (pgid p) (sid p) (parent p) (chan p) (killed p) (paused p) (pgdir p) (tf p) (oldtf p) (signal p) v.

Definition set_mask (v : Z) (g : signals) : signals := mkSig v (pending g) (actions g).
Definition set_pending (v : Z) (g : signals) : signals := mkSig (mask g) v (actions g).
Definition set_actions (v : list sigact) (g : signals) : signals := mkSig (mask g) (pending g) v.
Definition set_actions_at (sig : Z) (a : sigact) (g : signals) : signals := set_actions (<[Z.to_nat sig := a]> (actions g)) g.

(** [inscheduler]: the CPU runs [scheduler] and not the process [cproc]. *)
Record cpu : Type := mkC {
  cproc : option nat;
  idle : option nat;
  inscheduler : bool
}.

Record pstate : Type := mkS {
  procs : list proc;
  slpque : list (list nat);
  sched_que : list nat;
  held : gset Z;
  cpus : list cpu;
  umem : gmap (Z * Z) Z
}.

Definition set_procs (v : list proc) (s : pstate) : pstate := mkS v (slpque s) (sched_que s) (held s) (cpus s) (umem s).
Definition set_slpque (v : list (list nat)) (s : pstate) : pstate := mkS (procs s) v (sched_que s) (held s) (cpus s) (umem s).
Definition set_sched (v : list nat) (s : pstate) : pstate := mkS (procs s) (slpque s) v (held s) (cpus s) (umem s).
Definition set_held (v : gset Z) (s : pstate) : pstate := mkS (procs s) (slpque s) (sched_que s) v (cpus s) (umem s).
Definition set_cpus (v : list cpu) (s : pstate) : pstate := mkS (procs s) (slpque s) (sched_que s) (held s) v (umem s).
Definition set_umem (v : gmap (Z * Z) Z) (s : pstate) : pstate := mkS (procs s) (slpque s) (sched_que s) (held s) (cpus s) v.

(** The locks of kern/proc.c; every other spin lock is a number from 3 on. *)
Definition ptable_lock : Z := 0.
Definition q_lock : Z := 1.
Definition q_siglock : Z := 2.

Definition acquire (lk : Z) : M pstate unit :=
  fun s => if bool_decide (lk ∈ held s) then Block s else Ret tt (set_held (held s ∪ {[lk]}) s).

Definition release (lk : Z) : M pstate unit :=
  fun s => if bool_decide (lk ∈ held s) then Ret tt (set_held (held s ∖ {[lk]}) s) else Panic s.

(** [ptable.proc[i]]; an index outside the table is no process. *)
Definition getp (i : nat) : M pstate proc :=
  fun s => match procs s !! i with Some p => Ret p s | None => Panic s end.

Definition updp (i : nat) (f : proc -> proc) : M pstate unit := modify (fun s => set_procs (alter f i (procs s)) s).

Definition push_sched (i : nat) : M pstate unit := modify (fun s => set_sched (sched_que s ++ [i]) s).
Definition push_sleep (h i : nat) : M pstate unit := modify (fun s => set_slpque (alter (fun q => q ++ [i]) h (slpque s)) s).
Definition drop_sleep (h i : nat) : M pstate unit := modify (fun s => set_slpque (alter (filter (.≠ i)) h (slpque s)) s).

Definition proc_init : M pstate unit :=
  modify (fun s => set_held (held s ∖ {[ptable_lock]}) s) ;;
  modify (set_sched []) ;;
  modify (set_slpque (replicate (Z.to_nat SQSIZE) [])).

Section Cpu.
(** [cpuid()] of the CPU that executes. *)
Context (me : nat).

Definition thiscpu : M pstate cpu := fun s => match cpus s !! me with Some c => Ret c s | None => Panic s end.
Definition thisproc : M pstate nat :=
  let* c := thiscpu in match cproc c with Some p => ret p | None => panic end.
Definition updc (f : cpu -> cpu) : M pstate unit := modify (fun s => set_cpus (alter f me (cpus s)) s).

Definition is_idle (p : nat) : M pstate bool :=
  let* c := thiscpu in ret (bool_decide (idle c = Some p)).

(** [swtch(&p->context, thiscpu()->scheduler)]: [p] is left at [r], the scheduler
    goes on behind its own [swtch] and releases the lock. *)
Definition swtch_scheduler (p : nat) (r : resume) : M pstate unit :=
  updp p (set_ctx r) ;;
  updc (fun c => mkC (cproc c) (idle c) true) ;;
  release ptable_lock.

Definition yield : M pstate unit :=
  let* p := thisproc in
  acquire ptable_lock ;;
  let* i := is_idle p in
  when (negb i) (push_sched p) ;;
  updp p (set_state RUNNABLE) ;;
  swtch_scheduler p Yielded.

Definition sleep (ch lk : Z) : M pstate unit :=
  let* p := thisproc in
  let h := HASH ch in
  assert (Z.of_nat h <? SQSIZE) ;;
  let* i := is_idle p in
  assert (negb i) ;;
  when (negb (lk =? ptable_lock)) (acquire ptable_lock ;; release lk) ;;
  updp p (set_chan ch) ;;
  push_sleep h p ;;
  updp p (set_state SLEEPING) ;;
  swtch_scheduler p (Slept lk).

(** One round of [scheduler], and the process it switches to up to its release
    of [ptable.lock].  A process that slept with that lock keeps it. *)
Definition schedule : M pstate unit :=
  acquire ptable_lock ;;
  let* q := gets sched_que in
  let* p := match q with
            | [] => let* c := thiscpu in match idle c with Some p => ret p | None => panic end
            | p :: q' => modify (set_sched q') ;; ret p
            end in
  updc (fun c => mkC (Some p) (idle c) false) ;;
  let* x := getp p in
  match ctx x with
  | Forkret => release ptable_lock
  | Yielded => updp p (set_state RUNNING) ;; release ptable_lock
  | Slept lk => updp p (set_state RUNNING) ;; when (negb (lk =? ptable_lock)) (release ptable_lock)
  | Exited => panic
  end.

Definition wakeup1 (ch : Z) : M pstate unit :=
  let h := HASH ch in
  let* q := gets (fun s => default [] (slpque s !! h)) in
  for_each q (fun i =>
    let* p := getp i in
    when (chan p =? ch) (drop_sleep h i ;; push_sched i ;; updp i (set_state RUNNABLE))).

Definition wakeup (ch : Z) : M pstate unit :=
  acquire ptable_lock ;;
  wakeup1 ch ;;
  release ptable_lock.
(** * Signals *)

(** The address of [ptable.proc[i]], used as a channel, and the code of
    kern/sigret_syscall.S as words. *)
Context (paddr : nat -> Z) (sigret_code : list Z).

(** [sizeof(struct trapframe)] and the words of its fields. *)
Definition TFSIZE : Z := 304.
Definition tf_elr : nat := 1.
Definition tf_sp : nat := 2.
Definition tf_x (i : nat) : nat := (4 + i)%nat.

Definition getsig (i : nat) : M pstate signals := let* p := getp i in ret (signal p).
Definition updsig (i : nat) (f : signals -> signals) : M pstate unit := updp i (fun p => set_signal (f (signal p)) p).

(** [p->signal.actions[sig]] *)
Definition getact (i : nat) (sig : Z) : M pstate sigact :=
  let* g := getsig i in
  match (if sig <? 0 then None else actions g !! Z.to_nat sig) with Some a => ret a | None => panic end.

(** [memmove] of words to the address [a] of the process that runs. *)
Fixpoint put_words (as_ a : Z) (ws : list Z) (m : gmap (Z * Z) Z) : gmap (Z * Z) Z :=
  match ws with
  | [] => m
  | w :: ws' => put_words as_ (a + 8) ws' (<[(as_, a) := w]> m)
  end.

Definition get_words (as_ a : Z) (n : nat) (m : gmap (Z * Z) Z) : list Z :=
  (fun i => default 0 (m !! (as_, a + 8 * Z.of_nat i))) <$> seq 0 n.

Definition copy_to_user (a : Z) (ws : list Z) : M pstate unit :=
  let* c := thisproc in
  let* p := getp c in
  modify (fun s => set_umem (put_words (pgdir p) a ws (umem s)) s).

Definition term_handler (p : nat) : M pstate unit :=
  acquire ptable_lock ;;
  updp p (set_killed 1) ;;
  let* x := getp p in
  when (bool_decide (state x = SLEEPING)) (updp p (set_state RUNNABLE)) ;;
  release ptable_lock.

Definition cont_handler (p : nat) : M pstate unit := wakeup1 (paddr p).

Definition stop_handler (p : nat) : M pstate unit :=
  acquire q_lock ;;
  sleep (paddr p) q_lock ;;
  block.

Definition user_handler (p : nat) (sig : Z) : M pstate unit :=
  let* x := getp p in
  let sp := default 0 (tf x !! tf_sp) in
  let sp := u64 (sp - TFSIZE) in
  copy_to_user sp (tf x) ;;
  updp p (set_oldtf sp) ;;
  let sp := u64 (sp - 8 * Z.of_nat (length sigret_code)) in
  let handler_ret_addr := sp in
  copy_to_user sp sigret_code ;;
  updp p (fun x => set_tf (<[tf_x 0 := u64 sig]> (tf x)) x) ;;
  let sp := u64 (sp - 8) in
  copy_to_user sp [handler_ret_addr] ;;
  updp p (fun x => set_tf (<[tf_sp := sp]> (tf x)) x) ;;
  let* a := getact p sig in
  updp p (fun x => set_tf (<[tf_elr := u64 (sa_handler a)]> (tf x)) x).

Inductive disposition : Type := DStop | DCont | DTerm | DNone.

(** The [switch] of [handle_signal]. *)
Definition default_action (sig : Z) : disposition :=
  if bool_decide (sig ∈ [SIGSTOP; SIGTSTP; SIGTTIN; SIGTTOU]) then DStop
  else if bool_decide (sig ∈ [SIGCONT]) then DCont
  else if bool_decide (sig ∈ [SIGABRT; SIGBUS; SIGFPE; SIGILL; SIGQUIT; SIGSEGV; SIGSYS; SIGTRAP; SIGXCPU; SIGXFSZ;
                              SIGALRM; SIGHUP; SIGINT; SIGIO; SIGKILL; SIGPIPE; SIGPROF; SIGPWR; SIGTERM; SIGSTKFLT;
                              SIGUSR1; SIGUSR2; SIGVTALRM]) then DTerm
  else DNone.

Definition handle_signal (p : nat) (sig : Z) : M pstate unit :=
  if sig =? 0 then ret tt else
  let* a := getact p sig in
  (if sa_handler a =? SIG_IGN then ret tt
   else if sa_handler a =? SIG_DFL then
     match default_action sig with
     | DStop => stop_handler p
     | DCont => cont_handler p
     | DTerm => term_handler p
     | DNone => ret tt
     end
   else user_handler p sig) ;;
  acquire q_siglock ;;
  updsig p (fun g => set_pending (sigdelset (pending g) sig).2 g) ;;
  release q_siglock.

Definition send_signal (p : nat) (sig : Z) : M pstate unit :=
  (if sig =? SIGKILL then updp p (set_killed 1)
   else
     let* g := getsig p in
     when (sigismember (pending g) sig =? 0) (updsig p (fun g => set_pending (sigaddset (pending g) sig).2 g))) ;;
  let* x := getp p in
  if bool_decide (state x = SLEEPING) then
    if (paused x =? 1) && ((sig =? SIGTERM) || (sig =? SIGINT) || (sig =? SIGKILL)) then
      updp p (set_paused 0) ;;
      handle_signal p SIGCONT
    else when ((paused x =? 0) && negb (killed x =? 1)) (handle_signal p sig)
  else ret tt.

(** The loop over the table: signal the processes that satisfy [test]. *)
Fixpoint kill_loop (test : nat -> proc -> bool) (sig : Z) (l : list nat) (error : Z) : M pstate Z :=
  match l with
  | [] => ret error
  | i :: l' =>
      let* p := getp i in
      if test i p then send_signal i sig ;; kill_loop test sig l' 0 else kill_loop test sig l' error
  end.

Definition kill_each (test : nat -> proc -> bool) (sig : Z) : M pstate Z :=
  acquire ptable_lock ;;
  let* r := kill_loop test sig (seq 0 NPROC) (- ESRCH) in
  release ptable_lock ;;
  ret r.

Definition kill (pid_ sig : Z) : M pstate Z :=
  let* current := thisproc in
  let* c := getp current in
  if (pid_ =? 0) || (pid_ <? -1) then
    let pg := if pid_ =? 0 then pgid c else s32 (- pid_) in
    if 0 <? pg then kill_each (fun _ p => pgid p =? pg) sig else ret (- ESRCH)
  else if pid_ =? -1 then kill_each (fun i p => (1 <? pid p) && negb (bool_decide (i = current))) sig
  else kill_each (fun _ p => pid p =? pid_) sig.

Definition sys_kill (pid_ sig : Z) : M pstate Z :=
  if (sig <? 1) || (NSIG <=? sig) then ret (- EINVAL) else kill pid_ sig.

(** [sigsuspend] up to its [sleep]; the mask it found goes back when it wakes
    ([sigsuspend_end]).  [mask] is changed in the memory of the caller. *)
Definition sigsuspend (m : Z) : M pstate Z :=
  let* p := thisproc in
  acquire q_siglock ;;
  updp p (set_paused 1) ;;
  let m := (sigdelset m SIGKILL).2 in
  let m := (sigdelset m SIGSTOP).2 in
  updsig p (set_mask (siginitset m)) ;;
  release q_siglock ;;
  acquire q_lock ;;
  sleep (paddr p) q_lock ;;
  block.

Definition sigsuspend_end (oldmask : Z) : M pstate Z :=
  let* p := thisproc in
  acquire q_lock ;;
  release q_lock ;;
  acquire q_siglock ;;
  updsig p (set_mask oldmask) ;;
  release q_siglock ;;
  ret (- EINTR).

(** The old action is returned when [want_old] is set. *)
Definition sigaction (sig : Z) (act : option k_sigaction) (want_old : bool) : M pstate (Z * option k_sigaction) :=
  acquire q_siglock ;;
  let* p := thisproc in
  let* a := getact p sig in
  let old := if want_old then Some (mkKsa (sa_handler a) (u64 (sa_flags a)) (sa_restorer a) (sa_mask a)) else None in
  match act with
  | Some k =>
      updsig p (set_actions_at sig (mkSa (k_handler k) (k_mask k) (s32 (k_flags k)) (k_restorer k))) ;;
      updsig p (fun g => set_mask (sigdelset (sigdelset (k_mask k) SIGKILL).2 SIGSTOP).2 g)
  | None => ret tt
  end ;;
  release q_siglock ;;
  ret (0, old).

Definition sys_rt_sigaction (sig : Z) (act : option k_sigaction) (want_old : bool) : M pstate (Z * option k_sigaction) :=
  if (sig <? 1) || (NSIG <=? sig) || (sig =? SIGSTOP) || (sig =? SIGKILL) then ret (- EINVAL, None)
  else sigaction sig act want_old.

Definition sigpending : M pstate (Z * Z) :=
  let* p := thisproc in
  acquire q_siglock ;;
  let* g := getsig p in
  release q_siglock ;;
  ret (0, pending g).

(** Returns the result, the old mask, and what [*set] holds afterwards. *)
Definition sigprocmask (how : Z) (set : option Z) : M pstate (Z * Z * option Z) :=
  acquire q_siglock ;;
  let* p := thisproc in
  let* g := getsig p in
  let old := mask g in
  let* r := match set with
            | None => ret (0, None)
            | Some v =>
                if how =? SIG_BLOCK then updsig p (set_mask (sigorset old v)) ;; ret (0, Some v)
                else if how =? SIG_UNBLOCK then updsig p (set_mask (sigandset old (signotset v))) ;; ret (0, Some (signotset v))
                else if how =? SIG_SETMASK then updsig p (set_mask (siginitset v)) ;; ret (0, Some v)
                else ret (- EINVAL, Some v)
            end in
  release q_siglock ;;
  ret (r.1, old, r.2).

Definition sigreturn : M pstate Z :=
  let* p := thisproc in
  let* x := getp p in
  let* ws := gets (fun s => get_words (pgdir x) (oldtf x) 38 (umem s)) in
  updp p (set_tf ws) ;;
  ret 0.

Definition check_pending_signal : M pstate unit :=
  let* p := thisproc in
  let* _ := loop (seqZ 0 NSIG) (fun sig =>
    let* g := getsig p in
    if sigismember (pending g) sig =? 1 then handle_signal p sig ;; ret (Some tt) else ret None) in
  ret tt.

(** A system call in [trap]: [tf->x[0] = syscall1(tf); check_pending_signal();].
    [tf] is the trap frame of the running process. *)
Definition trap_svc (call : M pstate Z) : M pstate unit :=
  let* p := thisproc in
  let* r := call in
  updp p (fun x => set_tf (<[tf_x 0 := u64 r]> (tf x)) x) ;;
  check_pending_signal.

Definition flush_signal_handlers (p : nat) : M pstate unit :=
  updsig p (fun g => set_actions
    ((fun a => mkSa (if sa_handler a =? SIG_IGN then SIG_IGN else SIG_DFL) sigemptyset 0 (sa_restorer a)) <$> actions g) g) ;;
  updp p (set_paused 0).

(** [fds] is [None] for the null pointer and the descriptors otherwise; returns
    the result and the [revents]. *)
Definition ppoll (fds : option (list Z)) : M pstate (Z * list Z) :=
  let* p := thisproc in
  match fds with
  | None =>
      updp p (set_paused 1) ;;
      acquire q_lock ;;
      sleep (paddr p) q_lock ;;
      block
  | Some l => ret (0, (fun fd => if fd =? 0 then POLLIN else POLLOUT) <$> l)
  end.

(** * Process groups *)

(** The first process of the table with this id. *)
Definition find_pid (l : list proc) (v : Z) : option nat := fst <$> list_find (fun p => pid p = v) l.

(** [junk] is what the variable [p] holds before it is assigned. *)
Definition setpgid (junk : option nat) (pid_ pgid_ : Z) : M pstate Z :=
  let* current := thisproc in
  let* c := getp current in
  let pid1 := if pid_ =? 0 then pid c else pid_ in
  let pgid1 := if pgid_ =? 0 then pid1 else pgid_ in
  if pgid1 <? 0 then ret (- EINVAL) else
  let* p := if negb (pid1 =? pid c) then
              acquire ptable_lock ;;
              let* hit := gets (fun s => find_pid (procs s) pid1) in
              release ptable_lock ;;
              ret (match hit with Some i => Some i | None => junk end)
            else ret (Some current) in
  match p with
  | None => ret (- ESRCH)
  | Some i =>
      let* x := getp i in
      if bool_decide (parent x = Some current) && negb (sid x =? sid c) then ret (- EPERM) else
      if negb (bool_decide (parent x = Some current)) && negb (bool_decide (i = current)) then ret (- ESRCH) else
      let error := if bool_decide (parent x = Some current) then - EPERM else - ESRCH in
      let* ok := if negb (pgid1 =? pid1) then
                   acquire ptable_lock ;;
                   let* hit := gets (fun s => existsb (fun q => sid q =? sid c) (procs s)) in
                   release ptable_lock ;;
                   ret hit
                 else ret true in
      if ok then
        when (negb (pgid c =? pgid1)) (updp current (set_pgid pgid1)) ;;
        ret 0
      else ret error
  end.

Definition getpgid (pid_ : Z) : M pstate Z :=
  if pid_ =? 0 then let* c := thisproc in let* p := getp c in ret (pgid p)
  else
    acquire ptable_lock ;;
    let* hit := gets (fun s => find_pid (procs s) pid_) in
    release ptable_lock ;;
    match hit with Some i => let* p := getp i in ret (pgid p) | None => ret (- ESRCH) end.

Definition get_procs : M pstate Z :=
  acquire ptable_lock ;;
  let* n := gets (fun s => u16 (Z.of_nat (length (filter (fun p => state p <> UNUSED) (procs s))))) in
  release ptable_lock ;;
  ret n.
End Cpu.

(** * The scheduling invariant *)

(** Where a process is: on the scheduling queue, on a sleep queue, running
    on a CPU, or the idle process of one. *)
Inductive place : Type := AtSched | AtSleep (h : nat) | AtCpu (c : nat) | AtIdle (c : nat).

#[export] Instance place_eq_dec : EqDecision place.
Proof. solve_decision. Defined.

(** The process [p] runs on CPU [c]. *)
Definition runs_on (s : pstate) (c p : nat) : Prop :=
  exists x, cpus s !! c = Some x /\ cproc x = Some p /\ inscheduler x = false.

Definition idle_of (s : pstate) (c p : nat) : Prop := exists x, cpus s !! c = Some x /\ idle x = Some p.

Definition state_of (s : pstate) (p : nat) : option procstate := state <$> procs s !! p.

(** What a process may be in each place: a process in no place is unused, being
    made, or a zombie. *)
Definition place_state (pl : option place) (x : proc) : Prop :=
  match pl with
  | Some AtSched => (state x = RUNNABLE \/ state x = EMBRYO) /\ ctx x <> Exited
  | Some (AtSleep h) => state x = SLEEPING /\ HASH (chan x) = h /\ ctx x <> Exited
  | Some (AtCpu _) | Some (AtIdle _) => (state x = RUNNING \/ state x = RUNNABLE \/ state x = EMBRYO) /\ ctx x <> Exited
  | None => state x = UNUSED \/ state x = EMBRYO \/ state x = ZOMBIE
  end.

Record sched_ok_at (loc : nat -> option place) (s : pstate) : Prop := {
  so_sched p : p ∈ sched_que s <-> loc p = Some AtSched;
  so_sched_nodup : NoDup (sched_que s);
  so_sleep h p : p ∈ default [] (slpque s !! h) <-> loc p = Some (AtSleep h);
  so_sleep_nodup h : NoDup (default [] (slpque s !! h));
  so_sleep_len : length (slpque s) = Z.to_nat SQSIZE;
  so_cpu c p : runs_on s c p -> ~ idle_of s c p -> loc p = Some (AtCpu c);
  so_cpu_runs c p : loc p = Some (AtCpu c) -> runs_on s c p;
  so_idle c p : idle_of s c p <-> loc p = Some (AtIdle c);
  so_states p x : procs s !! p = Some x -> place_state (loc p) x;
  so_real p : is_Some (loc p) -> is_Some (procs s !! p)
}.

Definition sched_ok (s : pstate) : Prop := exists loc, sched_ok_at loc s.

Lemma place_sleeping pl x : place_state pl x -> state x = SLEEPING -> pl = Some (AtSleep (HASH (chan x))).
Proof. destruct pl as [[|h|c|c]|]; cbn; intros H Hs; [destruct H; intuition congruence|by destruct H as (_ & -> & _)|intuition congruence..]. Qed.

Lemma place_runnable pl x :
  place_state pl x -> state x = RUNNABLE -> pl = Some AtSched \/ exists c, pl = Some (AtCpu c) \/ pl = Some (AtIdle c).
Proof. destruct pl as [[|h|c|c]|]; cbn; intros H Hs; [by left|intuition congruence|right; exists c; auto..|intuition congruence]. Qed.

(** Process [p] goes to place [new], or to none; every other process stays. *)
Lemma move_ok loc s s' p (new : option place) :
  sched_ok_at loc s -> is_Some (procs s !! p) -> (forall c, ~ idle_of s c p) -> (forall c, new <> Some (AtIdle c)) ->
  (forall q, q <> p -> procs s' !! q = procs s !! q) -> (forall x, procs s' !! p = Some x -> place_state new x) -> is_Some (procs s' !! p) ->
  (forall q, q <> p -> q ∈ sched_que s' <-> q ∈ sched_que s) -> (p ∈ sched_que s' <-> new = Some AtSched) -> NoDup (sched_que s') ->
  (forall h q, q <> p -> q ∈ default [] (slpque s' !! h) <-> q ∈ default [] (slpque s !! h)) ->
  (forall h, p ∈ default [] (slpque s' !! h) <-> new = Some (AtSleep h)) -> (forall h, NoDup (default [] (slpque s' !! h))) ->
  length (slpque s') = length (slpque s) ->
  (forall c q, q <> p -> runs_on s' c q -> runs_on s c q) -> (forall c q, q <> p -> loc q = Some (AtCpu c) -> runs_on s' c q) ->
  (forall c, runs_on s' c p <-> new = Some (AtCpu c)) -> (forall c q, idle_of s' c q <-> idle_of s c q) ->
  sched_ok_at (fun q => if decide (q = p) then new else loc q) s'.
Proof.
  intros [A1 A2 A3 A4 A5 A6 A7 A8 A9 A10] Hp Hidle Hnew Hoth Hst Hp' Hsq Hsp Hsn Hlq Hlp Hln Hlen Hrq Hrq' Hrp Hid. split.
  - intros q. case_decide as E; [by subst|]. by rewrite Hsq, A1.
  - done.
  - intros h q. case_decide as E; [by subst|]. by rewrite Hlq, A3.
  - done.
  - by rewrite Hlen.
  - intros c q Hr Hni. case_decide as E; [subst; by apply Hrp|]. apply A6; [by apply Hrq|]. by rewrite <- Hid.
  - intros c q. case_decide as E; [|by auto]. intros ->. subst. by apply Hrp.
  - intros c q. rewrite Hid. case_decide as E; [subst; split; [intros Hi; by apply Hidle in Hi|intros Hi; by apply Hnew in Hi]|]. apply A8.
  - intros q x Hx. case_decide as E; [subst; by apply Hst|]. rewrite Hoth in Hx by done. by apply A9.
  - intros q Hq. destruct (decide (q = p)) as [->|E]; [done|]. rewrite Hoth by done. by apply A10.
Qed.

(** The invariant does not look at locks, the user's memory, saved contexts, or
    anything else but the fields below. *)
Lemma same_ok loc s s' :
  sched_ok_at loc s -> sched_que s' = sched_que s -> slpque s' = slpque s -> cpus s' = cpus s -> length (procs s') = length (procs s) ->
  (forall p x x', procs s !! p = Some x -> procs s' !! p = Some x' -> place_state (loc p) x -> place_state (loc p) x') ->
  sched_ok_at loc s'.
Proof.
  intros [A1 A2 A3 A4 A5 A6 A7 A8 A9 A10] E1 E2 E3 E4 Hst.
  split; unfold runs_on, idle_of in *; rewrite ?E1, ?E2, ?E3; try done.
  - intros p x' Hx'. assert (is_Some (procs s !! p)) as [x Hx] by (apply lookup_lt_is_Some; rewrite <- E4; by eapply lookup_lt_Some).
    change (place_state (loc p) x'). eapply Hst; [done|done|]. by apply A9.
  - intros p Hp. apply lookup_lt_is_Some. rewrite E4. by apply lookup_lt_is_Some, A10.
Qed.

Lemma running_cpu s c x p : cpus s !! c = Some x -> cproc x = Some p -> inscheduler x = false -> runs_on s c p.
Proof. intros. by exists x. Qed.

Lemma runs_on_inj s c p q : runs_on s c p -> runs_on s c q -> p = q.
Proof. intros (x & Hx & Hp & _) (y & Hy & Hq & _). congruence. Qed.

(** [swtch] to the scheduler takes the CPU away from its process. *)
Lemma runs_to_scheduler s l c c' q :
  runs_on (set_cpus (alter (fun x => mkC (cproc x) (idle x) true) c (cpus s)) l) c' q <-> c' <> c /\ runs_on s c' q.
Proof.
  unfold runs_on. cbn [cpus set_cpus]. rewrite list_lookup_alter. split.
  - intros (x & Hx & Hq & Hi). case_decide as E; [|by eauto]. subst. destruct (cpus s !! c'); [|done]. injection Hx as <-. done.
  - intros [Hne (x & Hx & Hq & Hi)]. rewrite decide_False by done. by exists x.
Qed.

Lemma idle_to_scheduler s l c c' q :
  idle_of (set_cpus (alter (fun x => mkC (cproc x) (idle x) true) c (cpus s)) l) c' q <-> idle_of s c' q.
Proof.
  unfold idle_of. cbn [cpus set_cpus]. rewrite list_lookup_alter. case_decide as E; [|done]. subst.
  destruct (cpus s !! c') as [x|]; cbn; split; intros (y & Hy & Hq); try done; injection Hy as <-; cbn in *; by eexists.
Qed.

(** [swtch] to a process gives it the CPU. *)
Lemma runs_switched s l c x p c' q :
  cpus s !! c = Some x ->
  runs_on (set_cpus (alter (fun x => mkC (Some p) (idle x) false) c (cpus s)) l) c' q <-> (c' = c /\ q = p) \/ (c' <> c /\ runs_on s c' q).
Proof.
  intros Hx. unfold runs_on. cbn [cpus set_cpus]. rewrite list_lookup_alter. split.
  - intros (y & Hy & Hq & Hi). case_decide as E; [|right; by eauto]. subst. rewrite Hx in Hy. injection Hy as <-. cbn in Hq. left. by injection Hq as ->.
  - intros [[-> ->]|[Hne (y & Hy & Hq & Hi)]].
    + rewrite decide_True by done. rewrite Hx. eexists. split; [reflexivity|done].
    + rewrite decide_False by done. by exists y.
Qed.

Lemma idle_switched s l c p c' q :
  idle_of (set_cpus (alter (fun x => mkC (Some p) (idle x) false) c (cpus s)) l) c' q <-> idle_of s c' q.
Proof.
  unfold idle_of. cbn [cpus set_cpus]. rewrite list_lookup_alter. case_decide as E; [|done]. subst.
  destruct (cpus s !! c') as [x|]; cbn; split; intros (y & Hy & Hq); try done; injection Hy as <-; cbn in *; by eexists.
Qed.

(** * The parts of the scheduler's functions *)

Definition to_scheduler (c : nat) (l : list cpu) : list cpu := alter (fun x => mkC (cproc x) (idle x) true) c l.
Definition switched (c p : nat) (l : list cpu) : list cpu := alter (fun x => mkC (Some p) (idle x) false) c l.

Lemma acquire_Ret lk s s' : acquire lk s = Ret tt s' -> lk ∉ held s /\ s' = set_held (held s ∪ {[lk]}) s.
Proof. unfold acquire. case_bool_decide; [done|]. by intros [= <-]. Qed.

Lemma acquire_free lk s : lk ∉ held s -> acquire lk s = Ret tt (set_held (held s ∪ {[lk]}) s).
Proof. intros H. unfold acquire. by rewrite bool_decide_eq_false_2. Qed.

Lemma acquire_taken lk s : lk ∈ held s -> acquire lk s = Block s.
Proof. intros H. unfold acquire. by rewrite bool_decide_eq_true_2. Qed.

Lemma release_held lk s : lk ∈ held s -> release lk s = Ret tt (set_held (held s ∖ {[lk]}) s).
Proof. intros H. unfold release. by rewrite bool_decide_eq_true_2. Qed.

Lemma bind_Ret {A B} (m : M pstate A) (k : A -> M pstate B) s b s' :
  bind m k s = Ret b s' -> exists a s1, m s = Ret a s1 /\ k a s1 = Ret b s'.
Proof. unfold bind. destruct (m s); try done. by eauto. Qed.

Lemma thisproc_run c s x p : cpus s !! c = Some x -> cproc x = Some p -> thisproc c s = Ret p s.
Proof. intros Hx Hp. unfold thisproc, thiscpu, bind. by rewrite Hx, Hp. Qed.

Lemma is_idle_run c s x p : cpus s !! c = Some x -> is_idle c p s = Ret (bool_decide (idle x = Some p)) s.
Proof. intros Hx. unfold is_idle, thiscpu, bind. by rewrite Hx. Qed.

(** What [yield] does up to the switch. *)
Lemma yield_run c s x p :
  cpus s !! c = Some x -> cproc x = Some p -> ptable_lock ∉ held s ->
  yield c s = Ret tt (mkS (alter (set_ctx Yielded) p (alter (set_state RUNNABLE) p (procs s))) (slpque s)
                          (if bool_decide (idle x = Some p) then sched_que s else sched_que s ++ [p])
                          ((held s ∪ {[ptable_lock]}) ∖ {[ptable_lock]}) (to_scheduler c (cpus s)) (umem s)).
Proof.
  intros Hx Hp Hl. unfold yield. erewrite bind_run by (by eapply thisproc_run). erewrite bind_run by (by apply acquire_free).
  erewrite bind_run by (by apply (is_idle_run c _ x)). unfold swtch_scheduler.
  destruct (bool_decide (idle x = Some p)); cbn [negb when];
    (run_step; run_step; run_step; run_step;
     apply release_held; cbn; set_solver).
Qed.

(** What [sleep] does up to the switch. *)
Lemma HASH_lt ch : (HASH ch < Z.to_nat SQSIZE)%nat.
Proof.
  unfold HASH, SQSIZE. change (0x100 - 1) with (Z.ones 8). rewrite Z.land_ones by lia.
  pose proof (Z.mod_pos_bound (Z.shiftr (u64 ch) 5) (2 ^ 8) ltac:(lia)). lia.
Qed.

Lemma sleep_run c s s' x p ch lk :
  cpus s !! c = Some x -> cproc x = Some p -> sleep c ch lk s = Ret tt s' ->
  idle x <> Some p /\
  exists h, s' = mkS (alter (set_ctx (Slept lk)) p (alter (set_state SLEEPING) p (alter (set_chan ch) p (procs s))))
             (alter (fun q => q ++ [p]) (HASH ch) (slpque s)) (sched_que s) h (to_scheduler c (cpus s)) (umem s).
Proof.
  intros Hx Hp. unfold sleep. erewrite bind_run by (by eapply thisproc_run). cbn zeta. pose proof (HASH_lt ch) as HH.
  destruct (Z.ltb_spec (Z.of_nat (HASH ch)) SQSIZE); [|unfold SQSIZE in *; lia]. run_step.
  erewrite bind_run by (by apply (is_idle_run c _ x)). case_bool_decide as Ei; cbn [negb]; [done|]. run_step.
  intros E. split; [done|]. apply bind_Ret in E as ([] & s1 & E1 & E). exists (held s').
  assert (exists h, s1 = set_held h s) as [h ->].
  { destruct (lk =? ptable_lock); cbn [negb when] in E1; [injection E1 as <-; exists (held s); by destruct s|].
    apply bind_Ret in E1 as ([] & s2 & E2 & E1). apply acquire_Ret in E2 as [_ ->]. unfold release in E1. case_bool_decide; [|done].
    injection E1 as <-. eexists. reflexivity. }
  erewrite bind_run in E by reflexivity. erewrite bind_run in E by reflexivity. erewrite bind_run in E by reflexivity.
  unfold swtch_scheduler in E. erewrite bind_run in E by reflexivity. erewrite bind_run in E by reflexivity.
  unfold release in E. case_bool_decide; [|done]. by injection E as <-.
Qed.

(** One round of the scheduler. *)
Lemma schedule_run c s s' x :
  cpus s !! c = Some x -> schedule c s = Ret tt s' ->
  exists p y h, procs s !! p = Some y /\
    (sched_que s = p :: sched_que s' \/ sched_que s = [] /\ sched_que s' = [] /\ idle x = Some p) /\
    procs s' = (match ctx y with Forkret => procs s | _ => alter (set_state RUNNING) p (procs s) end) /\
    slpque s' = slpque s /\ cpus s' = switched c p (cpus s) /\ umem s' = umem s /\ held s' = h.
Proof.
  intros Hx. unfold schedule. intros E. apply bind_Ret in E as ([] & s1 & E1 & E). apply acquire_Ret in E1 as [_ ->].
  erewrite bind_run in E by reflexivity. apply bind_Ret in E as (p & s2 & E2 & E). cbn [sched_que set_held] in E2.
  assert (procs s2 = procs s /\ slpque s2 = slpque s /\ cpus s2 = cpus s /\ umem s2 = umem s /\
    (sched_que s = p :: sched_que s2 \/ sched_que s = [] /\ sched_que s2 = [] /\ idle x = Some p)) as (P1 & P2 & P3 & P4 & P5).
  { destruct (sched_que s) as [|q l] eqn:Eq.
    - unfold thiscpu, bind in E2. cbn [cpus set_held] in E2. rewrite Hx in E2. destruct (idle x) eqn:Ei; [|done]. injection E2 as <- <-. cbn. rewrite Eq. auto 10.
    - injection E2 as <- <-. cbn. auto 10. }
  erewrite bind_run in E by reflexivity. apply bind_Ret in E as (y & s3 & E3 & E). unfold getp in E3. cbn [procs set_cpus] in E3.
  rewrite P1 in E3. destruct (procs s !! p) as [y'|] eqn:Ey; [|done]. injection E3 as -> <-. exists p, y, (held s'). split; [done|].
  rewrite P3 in E.
  assert (forall s4, s' = s4 -> sched_que s4 = sched_que s2 -> slpque s4 = slpque s2 -> cpus s4 = switched c p (cpus s) -> umem s4 = umem s2 ->
    procs s4 = (match ctx y with Forkret => procs s | _ => alter (set_state RUNNING) p (procs s) end) ->
    (sched_que s = p :: sched_que s' \/ sched_que s = [] /\ sched_que s' = [] /\ idle x = Some p) /\
    procs s' = (match ctx y with Forkret => procs s | _ => alter (set_state RUNNING) p (procs s) end) /\
    slpque s' = slpque s /\ cpus s' = switched c p (cpus s) /\ umem s' = umem s /\ held s' = held s') as Hfin.
  { intros s4 -> Q1 Q2 Q3 Q4 Q5. rewrite Q1, Q2, Q3, Q4, Q5, P2, P4. auto 10. }
  destruct (ctx y) as [| |lk|]; cbn [bind] in E; [| | |done].
  - unfold release in E. case_bool_decide; [|done]. injection E as <-. eapply Hfin; [reflexivity|done..|]. exact P1.
  - erewrite bind_run in E by reflexivity. unfold release in E. case_bool_decide; [|done]. injection E as <-.
    eapply Hfin; [reflexivity|done..|]. cbn. by rewrite P1.
  - erewrite bind_run in E by reflexivity. destruct (lk =? ptable_lock); cbn [negb when] in E.
    + injection E as <-. eapply Hfin; [reflexivity|done..|]. cbn. by rewrite P1.
    + unfold release in E. case_bool_decide; [|done]. injection E as <-. eapply Hfin; [reflexivity|done..|]. cbn. by rewrite P1.
Qed.

(** * The invariant is kept *)

Lemma lookup_default_alter {A} (f : list A -> list A) h h' (l : list (list A)) :
  (h < length l)%nat -> default [] (alter f h l !! h') = if decide (h = h') then f (default [] (l !! h')) else default [] (l !! h').
Proof.
  intros Hh. rewrite list_lookup_alter. case_decide; [|done]. subst. apply lookup_lt_is_Some in Hh as [q ->]. done.
Qed.

Lemma place_cpu loc s c p : sched_ok_at loc s -> loc p = Some (AtCpu c) -> (forall d, ~ idle_of s d p).
Proof. intros HO Hl d Hi. apply (so_idle _ _ HO) in Hi. congruence. Qed.

Lemma not_queued loc s c p : sched_ok_at loc s -> loc p = Some (AtCpu c) ->
  p ∉ sched_que s /\ forall h, p ∉ default [] (slpque s !! h).
Proof.
  intros HO Hl. split; [rewrite (so_sched _ _ HO)|intros h; rewrite (so_sleep _ _ HO)]; congruence.
Qed.

Lemma NoDup_snoc_new {A} (l : list A) x : NoDup l -> x ∉ l -> NoDup (l ++ [x]).
Proof. intros Hl Hx. apply NoDup_app. split; [done|]. split; [|apply NoDup_singleton]. intros y Hy ->%list_elem_of_singleton. done. Qed.

Lemma elem_of_snoc {A} (l : list A) x y : y ∈ l ++ [x] <-> y ∈ l \/ y = x.
Proof. by rewrite elem_of_app, list_elem_of_singleton. Qed.

(** Others keep their CPUs when one goes to its scheduler. *)
Lemma others_keep_cpu loc s c p c' q :
  sched_ok_at loc s -> runs_on s c p -> q <> p -> loc q = Some (AtCpu c') -> c' <> c /\ runs_on s c' q.
Proof.
  intros HO Hr Hne Hl. pose proof (so_cpu_runs _ _ HO _ _ Hl) as Hr'. split; [|done]. intros ->. apply Hne. by eapply runs_on_inj.
Qed.

Lemma yield_ok c s s' x :
  sched_ok s -> cpus s !! c = Some x -> inscheduler x = false -> yield c s = Ret tt s' -> sched_ok s'.
Proof.
  intros [loc HO] Hx Hi Hy. pose proof Hy as Hy'. unfold yield in Hy'. apply bind_Ret in Hy' as (p & s1 & Ht & Hy').
  assert (cproc x = Some p /\ s1 = s) as [Hp ->].
  { unfold thisproc, thiscpu, bind in Ht. rewrite Hx in Ht. destruct (cproc x); [|done]. by injection Ht as <- <-. }
  apply bind_Ret in Hy' as ([] & s2 & Ha & _). apply acquire_Ret in Ha as [Hl _]. rewrite (yield_run c s x p Hx Hp Hl) in Hy. injection Hy as <-.
  pose proof (running_cpu s c x p Hx Hp Hi) as Hr. case_bool_decide as Ei.
  - assert (idle_of s c p) as Hid by (by exists x). pose proof (proj1 (so_idle _ _ HO _ _) Hid) as Hl'. exists loc.
    destruct HO as [A1 A2 A3 A4 A5 A6 A7 A8 A9 A10]. split; cbn [procs slpque sched_que]; try done.
    + intros c' q Hr' Hn. apply A6; [by apply (runs_to_scheduler s s) in Hr' as [_ ?]|]. intros Hid'. apply Hn. by apply (idle_to_scheduler s s).
    + intros c' q Hq. apply (runs_to_scheduler s s). pose proof (A7 _ _ Hq) as Hr'. split; [|done]. intros ->.
      pose proof (runs_on_inj _ _ _ _ Hr Hr'). congruence.
    + intros c' q. rewrite <- A8. apply (idle_to_scheduler s s).
    + intros q y Hy. destruct (decide (q = p)) as [->|Hne].
      { rewrite !list_lookup_alter_eq in Hy. destruct (procs s !! p); [|done]. injection Hy as <-. rewrite Hl'. split; [by right; left|done]. }
      rewrite !list_lookup_alter_ne in Hy by done. by apply A9.
    + intros q Hq. rewrite !list_lookup_alter. case_decide; subst; [|by apply A10]. rewrite decide_True by done. rewrite !fmap_is_Some. by apply A10.
  - assert (loc p = Some (AtCpu c)) as Hlp by (apply (so_cpu _ _ HO); [done|]; intros (y & Hy & Hyi); congruence).
    destruct (not_queued _ _ _ _ HO Hlp) as [Hns Hnl]. destruct (so_real _ _ HO p ltac:(by rewrite Hlp)) as [y Hy].
    eexists. apply (move_ok loc s _ p (Some AtSched) HO); cbn [procs slpque sched_que]; try done.
    + by eapply place_cpu.
    + intros q Hq. by rewrite !list_lookup_alter_ne.
    + intros z Hz. rewrite !list_lookup_alter_eq, Hy in Hz. injection Hz as <-. split; [by left|done].
    + rewrite !list_lookup_alter_eq, Hy. by eexists.
    + intros q Hq. rewrite elem_of_snoc. split; [|auto]. by intros [|].
    + rewrite elem_of_snoc. split; auto.
    + apply NoDup_snoc_new; [apply HO|done].
    + intros h. split; [|done]. intros Hc. by apply Hnl in Hc.
    + apply HO.
    + intros c' q _ Hr'. by apply (runs_to_scheduler s s) in Hr' as [_ ?].
    + intros c' q Hq Hlq. apply (runs_to_scheduler s s). by eapply others_keep_cpu.
    + intros c'. split; [|done]. intros Hr'. apply (runs_to_scheduler s s) in Hr' as [Hne Hr']. exfalso. apply Hne.
      assert (loc p = Some (AtCpu c')) as H by (apply (so_cpu _ _ HO); [done|by eapply place_cpu]). congruence.
    + intros c' q. apply (idle_to_scheduler s s).
Qed.

Lemma sleep_ok c s s' x ch lk :
  sched_ok s -> cpus s !! c = Some x -> inscheduler x = false -> sleep c ch lk s = Ret tt s' -> sched_ok s'.
Proof.
  intros [loc HO] Hx Hi Hs. assert (exists p, cproc x = Some p) as [p Hp].
  { unfold sleep in Hs. apply bind_Ret in Hs as (p & s1 & Ht & _). unfold thisproc, thiscpu, bind in Ht. rewrite Hx in Ht.
    destruct (cproc x); [by eexists|done]. }
  destruct (sleep_run c s s' x p ch lk Hx Hp Hs) as [Hni [h ->]]. pose proof (running_cpu s c x p Hx Hp Hi) as Hr.
  assert (loc p = Some (AtCpu c)) as Hlp by (apply (so_cpu _ _ HO); [done|]; intros (y & Hy & Hyi); congruence).
  destruct (not_queued _ _ _ _ HO Hlp) as [Hns Hnl]. destruct (so_real _ _ HO p ltac:(by rewrite Hlp)) as [y Hy].
  assert (HASH ch < length (slpque s))%nat as Hh by (rewrite (so_sleep_len _ _ HO); apply HASH_lt).
  eexists. apply (move_ok loc s _ p (Some (AtSleep (HASH ch))) HO); cbn [procs slpque sched_que]; try done.
  - by eapply place_cpu.
  - intros q Hq. by rewrite !list_lookup_alter_ne.
  - intros z Hz. rewrite !list_lookup_alter_eq, Hy in Hz. by injection Hz as <-.
  - rewrite !list_lookup_alter_eq, Hy. by eexists.
  - apply HO.
  - intros h' q Hq. rewrite lookup_default_alter by done. case_decide; [|done]. rewrite elem_of_snoc. split; [|auto]. by intros [|].
  - intros h'. rewrite lookup_default_alter by done. case_decide as E.
    + rewrite elem_of_snoc. subst. split; auto.
    + split; [intros Hc; by apply Hnl in Hc|congruence].
  - intros h'. rewrite lookup_default_alter by done. case_decide; [apply NoDup_snoc_new; [apply HO|apply Hnl]|apply HO].
  - apply length_alter.
  - intros c' q _ Hr'. by apply (runs_to_scheduler s s) in Hr' as [_ ?].
  - intros c' q Hq Hlq. apply (runs_to_scheduler s s). by eapply others_keep_cpu.
  - intros c'. split; [|done]. intros Hr'. apply (runs_to_scheduler s s) in Hr' as [Hne Hr']. exfalso. apply Hne.
    assert (loc p = Some (AtCpu c')) as H by (apply (so_cpu _ _ HO); [done|by eapply place_cpu]). congruence.
  - intros c' q. apply (idle_to_scheduler s s).
Qed.

Lemma schedule_ok c s s' x :
  sched_ok s -> cpus s !! c = Some x -> inscheduler x = true -> schedule c s = Ret tt s' -> sched_ok s'.
Proof.
  intros [loc HO] Hx Hi Hs. destruct (schedule_run c s s' x Hx Hs) as (p & y & h & Hy & Hq & Hpr & Hsl & Hcp & _ & _).
  assert (forall q, ~ runs_on s c q) as Hnr by (intros q (z & Hz & _ & Hf); congruence).
  assert (forall c' q, runs_on s' c' q <-> (c' = c /\ q = p) \/ (c' <> c /\ runs_on s c' q)) as Hruns.
  { intros c' q. rewrite <- (runs_switched s s c x p c' q Hx). unfold runs_on. by rewrite Hcp. }
  assert (forall c' q, idle_of s' c' q <-> idle_of s c' q) as Hidle.
  { intros c' q. rewrite <- (idle_switched s s c p c' q). unfold idle_of. by rewrite Hcp. }
  assert (forall q, q <> p -> procs s' !! q = procs s !! q) as Hoth.
  { intros q Hne. rewrite Hpr. destruct (ctx y); [done|by rewrite list_lookup_alter_ne..]. }
  assert (exists y', procs s' !! p = Some y' /\ (state y' = state y \/ state y' = RUNNING) /\ ctx y' = ctx y) as (y' & Hy' & Hst & Hcx).
  { rewrite Hpr. destruct (ctx y) eqn:Ec; rewrite ?list_lookup_alter_eq, Hy; eexists; (split; [reflexivity|]); auto. }
  destruct Hq as [Hq|(Hq & Hq' & Hip)].
  - assert (loc p = Some AtSched) as Hlp by (apply (so_sched _ _ HO); rewrite Hq; by left).
    assert (forall d, ~ idle_of s d p) as Hni by (intros d Hd; apply (so_idle _ _ HO) in Hd; congruence).
    pose proof (so_sched_nodup _ _ HO) as Hnd. rewrite Hq in Hnd. apply NoDup_cons in Hnd as [Hnp Hnd].
    eexists. apply (move_ok loc s s' p (Some (AtCpu c)) HO); try done; rewrite ?Hsl; try apply HO.
    + intros z Hz. rewrite Hy' in Hz. injection Hz as <-. cbn. rewrite Hcx.
      pose proof (so_states _ _ HO p y Hy) as H. rewrite Hlp in H. destruct H as [H Hc]. split; [|done]. destruct Hst as [->| ->]; [|by left]. by right.
    + intros q Hne. rewrite Hq, elem_of_cons. split; [auto|]. by intros [|].
    + done.
    + intros h'. rewrite (so_sleep _ _ HO). split; congruence.
    + done.
    + intros c' q Hne Hr. apply Hruns in Hr as [[_ ?]|[_ ?]]; done.
    + intros c' q Hne Hl. apply Hruns. right. pose proof (so_cpu_runs _ _ HO _ _ Hl) as Hr. split; [|done]. intros ->. by apply Hnr in Hr.
    + intros c'. rewrite Hruns. split; [|intros [= ->]; auto]. intros [[-> _]|[_ Hr]]; [done|]. exfalso.
      assert (loc p = Some (AtCpu c')) as H by (apply (so_cpu _ _ HO); done). congruence.
  - assert (idle_of s c p) as Hid by (by exists x). pose proof (proj1 (so_idle _ _ HO _ _) Hid) as Hlp. exists loc.
    destruct HO as [A1 A2 A3 A4 A5 A6 A7 A8 A9 A10]. rewrite Hq in *. split; rewrite ?Hsl, ?Hq'; try done.
    + intros c' q Hr Hn. rewrite Hidle in Hn. apply Hruns in Hr as [[-> ->]|[_ Hr]]; [done|by apply A6].
    + intros c' q Hl. apply Hruns. right. pose proof (A7 _ _ Hl) as Hr. split; [|done]. intros ->. by apply Hnr in Hr.
    + intros c' q. by rewrite Hidle.
    + intros q z Hz. destruct (decide (q = p)) as [->|Hne].
      { rewrite Hlp. rewrite Hy' in Hz. injection Hz as <-. pose proof (A9 p y Hy) as H9. rewrite Hlp in H9. cbn in *.
        rewrite Hcx. destruct H9 as [H9 Hc9]. split; [|done]. destruct Hst as [->| ->]; [done|by left]. }
      rewrite Hoth in Hz by done. by apply A9.
    + intros q Hl. destruct (decide (q = p)) as [->|Hne]; [by eexists|]. rewrite Hoth by done. by apply A10.
Qed.

(** * Wakeup *)

Definition sleeps_on (s : pstate) (ch : Z) (i : nat) : Prop := chan <$> procs s !! i = Some ch.

#[export] Instance sleeps_on_dec s ch i : Decision (sleeps_on s ch i).
Proof. unfold sleeps_on. apply _. Defined.

Definition wake_body (h : nat) (ch : Z) (i : nat) : M pstate unit :=
  let* p := getp i in
  when (chan p =? ch) (drop_sleep h i ;; push_sched i ;; updp i (set_state RUNNABLE)).

(** The state after one process is woken up. *)
Definition woken (h i : nat) (s : pstate) : pstate :=
  mkS (alter (set_state RUNNABLE) i (procs s)) (alter (filter (.≠ i)) h (slpque s)) (sched_que s ++ [i]) (held s) (cpus s) (umem s).

Lemma wake_body_run h ch i s x :
  procs s !! i = Some x -> wake_body h ch i s = Ret tt (if decide (sleeps_on s ch i) then woken h i s else s).
Proof.
  intros Hx. unfold wake_body. erewrite bind_run by (unfold getp; by rewrite Hx).
  assert (sleeps_on s ch i <-> chan x = ch) as Hs by (unfold sleeps_on; rewrite Hx; cbn; split; congruence).
  destruct (Z.eqb_spec (chan x) ch) as [E|E]; cbn [when].
  - rewrite decide_True by (by apply Hs). done.
  - rewrite decide_False by (by rewrite Hs). done.
Qed.

Lemma woken_ok s h i : sched_ok s -> i ∈ default [] (slpque s !! h) -> sched_ok (woken h i s).
Proof.
  intros [loc HO] Hi. pose proof Hi as Hl. apply (so_sleep _ _ HO) in Hl. destruct (so_real _ _ HO i ltac:(by rewrite Hl)) as [x Hx].
  assert (h < length (slpque s))%nat as Hh.
  { destruct (slpque s !! h) eqn:E; [by eapply lookup_lt_Some|]. cbn in Hi. by apply elem_of_nil in Hi. }
  assert (i ∉ sched_que s) as Hns by (rewrite (so_sched _ _ HO); congruence).
  eexists. apply (move_ok loc s _ i (Some AtSched) HO); cbn [woken procs slpque sched_que]; try done.
  - intros c Hc. apply (so_idle _ _ HO) in Hc. congruence.
  - intros q Hq. by rewrite list_lookup_alter_ne.
  - intros z Hz. rewrite list_lookup_alter_eq, Hx in Hz. injection Hz as <-. split; [by left|].
    pose proof (so_states _ _ HO i x Hx) as Hs. rewrite Hl in Hs. apply Hs.
  - rewrite list_lookup_alter_eq, Hx. by eexists.
  - intros q Hq. rewrite elem_of_snoc. split; [|auto]. by intros [|].
  - rewrite elem_of_snoc. split; auto.
  - apply NoDup_snoc_new; [apply HO|done].
  - intros h' q Hq. rewrite lookup_default_alter by done. case_decide; [|done]. rewrite list_elem_of_filter. split; [by intros [_ ?]|by split].
  - intros h'. split; [|done]. rewrite lookup_default_alter by done. case_decide as E; [rewrite list_elem_of_filter; by intros [? _]|].
    intros Hc. apply (so_sleep _ _ HO) in Hc. congruence.
  - intros h'. rewrite lookup_default_alter by done. case_decide; [apply NoDup_filter|]; apply HO.
  - apply length_alter.
  - intros c q Hq Hlq. by apply (so_cpu_runs _ _ HO).
  - intros c. split; [|done]. intros Hr. assert (loc i = Some (AtCpu c)) as H; [|congruence].
    apply (so_cpu _ _ HO); [done|]. intros Hc. apply (so_idle _ _ HO) in Hc. congruence.
Qed.

Lemma sleeps_on_woken s h i ch j : sleeps_on (woken h i s) ch j <-> sleeps_on s ch j.
Proof.
  unfold sleeps_on, woken. cbn [procs]. rewrite list_lookup_alter. case_decide; [|done]. subst. by destruct (procs s !! j).
Qed.

(** The loop of [wakeup1] over the processes [l]. *)
Lemma wake_loop_run h ch l : forall s,
  NoDup l -> (forall i, i ∈ l -> is_Some (procs s !! i)) ->
  exists s', for_each l (wake_body h ch) s = Ret tt s' /\
    sched_que s' = sched_que s ++ filter (sleeps_on s ch) l /\
    slpque s' = alter (filter (fun i => ~ (i ∈ l /\ sleeps_on s ch i))) h (slpque s) /\
    (forall i, procs s' !! i = if decide (i ∈ l /\ sleeps_on s ch i) then set_state RUNNABLE <$> procs s !! i else procs s !! i) /\
    held s' = held s /\ cpus s' = cpus s /\ umem s' = umem s /\
    (sched_ok s -> (forall i, i ∈ l -> i ∈ default [] (slpque s !! h)) -> sched_ok s').
Proof.
  induction l as [|i l IH]; intros s Hnd Hreal; cbn [for_each].
  - exists s. split; [done|]. rewrite app_nil_r. split; [done|]. split.
    { rewrite list_alter_id; [done|]. intros q. induction q as [|j q IHq]; [done|].
      rewrite filter_cons, decide_True; [by rewrite IHq|]. intros [Hc _]. by apply elem_of_nil in Hc. }
    split; [|done]. intros j. rewrite decide_False; [done|]. intros [Hc _]. by apply elem_of_nil in Hc.
  - apply NoDup_cons in Hnd as [Hni Hnd]. destruct (Hreal i ltac:(by left)) as [x Hx].
    erewrite bind_run by (by eapply wake_body_run). set (s1 := if decide (sleeps_on s ch i) then woken h i s else s).
    assert (forall j, sleeps_on s1 ch j <-> sleeps_on s ch j) as Hso by (intros j; unfold s1; case_decide; [apply sleeps_on_woken|done]).
    assert (forall j, is_Some (procs s1 !! j) <-> is_Some (procs s !! j)) as Hre.
    { intros j. unfold s1. case_decide; [|done]. cbn. rewrite list_lookup_alter. case_decide; [|done]. subst. by rewrite fmap_is_Some. }
    destruct (IH s1 Hnd) as (s' & E & H1 & H2 & H3 & H4 & H5 & H6 & H7); [intros j Hj; apply Hre, Hreal; by right|].
    exists s'. split; [done|].
    assert (filter (sleeps_on s1 ch) l = filter (sleeps_on s ch) l) as Ef by (apply list_filter_iff; exact Hso).
    split.
    { rewrite H1, Ef, filter_cons. unfold s1. case_decide; [cbn; by rewrite <- app_assoc|done]. }
    split.
    { rewrite H2. unfold s1. case_decide as Hs; cbn [woken slpque].
      - rewrite list_alter_alter_eq. apply list_alter_ext; [|done]. intros q _. cbn. rewrite list_filter_filter.
        apply list_filter_iff. intros j. rewrite elem_of_cons, sleeps_on_woken. destruct (decide (j = i)) as [->|]; tauto.
      - apply list_alter_ext; [|done]. intros q _. apply list_filter_iff. intros j. rewrite elem_of_cons. destruct (decide (j = i)) as [->|]; tauto. }
    split.
    { intros j. rewrite H3. rewrite (decide_ext (j ∈ l /\ sleeps_on s1 ch j) (j ∈ l /\ sleeps_on s ch j)) by (by rewrite Hso).
      unfold s1. destruct (decide (sleeps_on s ch i)) as [Hs|Hs]; cbn [woken procs].
      - rewrite list_lookup_alter. destruct (decide (i = j)) as [->|Hne].
        + rewrite (decide_True (P := j ∈ j :: l /\ sleeps_on s ch j)) by (split; [by left|done]). rewrite decide_False; [done|]. by intros [? _].
        + repeat case_decide; try done; rewrite elem_of_cons in *; exfalso; naive_solver.
      - repeat case_decide; try done; rewrite elem_of_cons in *; exfalso; naive_solver. }
    split; [rewrite H4; unfold s1; by case_decide|]. split; [rewrite H5; unfold s1; by case_decide|]. split; [rewrite H6; unfold s1; by case_decide|].
    intros Hok Hin. apply H7; [unfold s1; case_decide; [apply woken_ok; [done|apply Hin; by left]|done]|].
    intros j Hj. unfold s1. case_decide; [|apply Hin; by right]. cbn.
    assert (h < length (slpque s))%nat as Hh.
    { specialize (Hin i ltac:(by left)). destruct (slpque s !! h) eqn:E'; [by eapply lookup_lt_Some|]. cbn in Hin. by apply elem_of_nil in Hin. }
    rewrite lookup_default_alter, decide_True by done. apply list_elem_of_filter. split; [|apply Hin; by right]. by intros ->.
Qed.

Lemma wakeup1_run s ch :
  sched_ok s ->
  exists s', wakeup1 ch s = Ret tt s' /\ sched_ok s' /\
    sched_que s' = sched_que s ++ filter (sleeps_on s ch) (default [] (slpque s !! HASH ch)) /\
    slpque s' = alter (filter (fun i => ~ (i ∈ default [] (slpque s !! HASH ch) /\ sleeps_on s ch i))) (HASH ch) (slpque s) /\
    (forall i, procs s' !! i = if decide (i ∈ default [] (slpque s !! HASH ch) /\ sleeps_on s ch i) then set_state RUNNABLE <$> procs s !! i else procs s !! i) /\
    held s' = held s /\ cpus s' = cpus s /\ umem s' = umem s.
Proof.
  intros Hok. pose proof Hok as [loc HO]. set (q := default [] (slpque s !! HASH ch)).
  destruct (wake_loop_run (HASH ch) ch q s) as (s' & E & H1 & H2 & H3 & H4 & H5 & H6 & H7).
  - apply HO.
  - intros i Hi. apply (so_real _ _ HO). apply (so_sleep _ _ HO) in Hi. by rewrite Hi.
  - exists s'. split; [exact E|]. split; [by apply H7|]. done.
Qed.

(** A process that sleeps on a channel is on the queue of that channel. *)
Lemma sleeper_queued s i x : sched_ok s -> procs s !! i = Some x -> state x = SLEEPING -> i ∈ default [] (slpque s !! HASH (chan x)).
Proof.
  intros [loc HO] Hx Hs. apply (so_sleep _ _ HO), place_sleeping; [|done]. by apply (so_states _ _ HO).
Qed.

(** C27: [wakeup] wakes every process that sleeps on the channel and no other.
    They become runnable and join the scheduling queue in the order in which they
    went to sleep; every other process stays as it is; the invariant holds again. *)
Theorem wakeup_exact s ch :
  sched_ok s -> ptable_lock ∉ held s ->
  exists s', wakeup ch s = Ret tt s' /\ sched_ok s' /\
    sched_que s' = sched_que s ++ filter (sleeps_on s ch) (default [] (slpque s !! HASH ch)) /\
    (forall i x, procs s !! i = Some x -> state x = SLEEPING -> chan x = ch -> procs s' !! i = Some (set_state RUNNABLE x) /\ i ∈ sched_que s') /\
    (forall i x, procs s !! i = Some x -> state x <> SLEEPING \/ chan x <> ch -> procs s' !! i = Some x) /\
    ptable_lock ∉ held s'.
Proof.
  intros Hok Hl. unfold wakeup. erewrite bind_run by (by apply acquire_free). set (s1 := set_held _ s).
  assert (sched_ok s1) as Hok1 by (destruct Hok as [loc HO]; exists loc; apply (same_ok loc s s1 HO); try done; intros p x x' Hx Hx'; cbn in Hx'; congruence).
  destruct (wakeup1_run s1 ch Hok1) as (s2 & E & Hok2 & H1 & H2 & H3 & H4 & H5 & H6). erewrite bind_run by exact E.
  rewrite release_held by (rewrite H4; cbn; set_solver). set (s3 := set_held _ s2).
  assert (sched_ok s3) as Hok3 by (destruct Hok2 as [loc HO]; exists loc; apply (same_ok loc s2 s3 HO); try done; intros p x x' Hx Hx'; cbn in Hx'; congruence).
  exists s3. split; [done|]. split; [done|]. split; [exact H1|]. split; [|split].
  - intros i x Hx Hs Hc. pose proof (sleeper_queued s i x Hok Hx Hs) as Hq. rewrite Hc in Hq.
    assert (sleeps_on s ch i) as Hso by (unfold sleeps_on; by rewrite Hx, <- Hc). split.
    + cbn [procs s3 set_held]. rewrite H3, decide_True by done. cbn [procs s1 set_held]. by rewrite Hx.
    + change (i ∈ sched_que s2). rewrite H1. apply elem_of_app. right. apply list_elem_of_filter. done.
  - intros i x Hx Hor. cbn [procs s3 set_held]. rewrite H3. case_decide as Hd; [|done]. exfalso. destruct Hd as [Hq Hso].
    unfold sleeps_on in Hso. cbn [procs s1 set_held] in Hso, Hq. rewrite Hx in Hso. injection Hso as Hso.
    destruct Hok as [loc HO]. apply (so_sleep _ _ HO) in Hq. pose proof (so_states _ _ HO i x Hx) as H. rewrite Hq in H. destruct H as [H _]. naive_solver.
  - cbn. set_solver.
Qed.

(** * Executions *)

(** The CPUs run the parts above in any order; [d] lists the processes that
    were taken off the scheduling queue and run. *)
Inductive trace : pstate -> list nat -> pstate -> Prop :=
| t_nil s : trace s [] s
| t_schedule s c x s1 d s' :
    cpus s !! c = Some x -> inscheduler x = true -> schedule c s = Ret tt s1 -> trace s1 d s' ->
    trace s (match sched_que s with p :: _ => p :: d | [] => d end) s'
| t_yield s c x s1 d s' :
    cpus s !! c = Some x -> inscheduler x = false -> yield c s = Ret tt s1 -> trace s1 d s' -> trace s d s'
| t_sleep s c x ch lk s1 d s' :
    cpus s !! c = Some x -> inscheduler x = false -> sleep c ch lk s = Ret tt s1 -> trace s1 d s' -> trace s d s'
| t_wakeup s ch s1 d s' : wakeup ch s = Ret tt s1 -> trace s1 d s' -> trace s d s'
| t_acquire s lk s1 d s' : acquire lk s = Ret tt s1 -> trace s1 d s' -> trace s d s'
| t_release s lk s1 d s' : release lk s = Ret tt s1 -> trace s1 d s' -> trace s d s'.

Lemma held_ok s h : sched_ok s -> sched_ok (set_held h s).
Proof. intros [loc HO]. exists loc. apply (same_ok loc s _ HO); try done. intros p x x' Hx Hx'. cbn in Hx'. congruence. Qed.

Lemma release_Ret lk s s' : release lk s = Ret tt s' -> s' = set_held (held s ∖ {[lk]}) s.
Proof. unfold release. case_bool_decide; [|done]. by intros [= <-]. Qed.

Lemma wakeup_Ret s ch s' : sched_ok s -> wakeup ch s = Ret tt s' -> sched_ok s' /\ exists l, sched_que s' = sched_que s ++ l.
Proof.
  intros Hok E. assert (ptable_lock ∉ held s) as Hl.
  { unfold wakeup in E. apply bind_Ret in E as ([] & s1 & E1 & _). by apply acquire_Ret in E1 as [? _]. }
  unfold wakeup in E. erewrite bind_run in E by (by apply acquire_free).
  destruct (wakeup1_run _ ch (held_ok s (held s ∪ {[ptable_lock]}) Hok)) as (s2 & E2 & Hok2 & H1 & _). erewrite bind_run in E by exact E2.
  apply release_Ret in E as ->. split; [by apply held_ok|]. eexists. exact H1.
Qed.

(** Every step keeps the invariant, and so does every trace. *)
Lemma trace_ok s d s' : sched_ok s -> trace s d s' -> sched_ok s'.
Proof.
  intros Hok Ht. revert Hok. induction Ht as [s|s c x s1 d s' Hx Hi E _ IH|s c x s1 d s' Hx Hi E _ IH|s c x ch lk s1 d s' Hx Hi E _ IH|
    s ch s1 d s' E _ IH|s lk s1 d s' E _ IH|s lk s1 d s' E _ IH]; intros Hok; try apply IH; try done.
  - by eapply schedule_ok.
  - by eapply yield_ok.
  - by eapply sleep_ok.
  - by eapply wakeup_Ret.
  - apply acquire_Ret in E as [_ ->]. by apply held_ok.
  - apply release_Ret in E as ->. by apply held_ok.
Qed.

(** A process that runs is on no queue. *)
Lemma runs_place loc s c p : sched_ok_at loc s -> runs_on s c p -> loc p = Some (AtCpu c) \/ loc p = Some (AtIdle c).
Proof.
  intros HO Hr. destruct Hr as (x & Hx & Hp & Hi). destruct (decide (idle x = Some p)) as [He|He].
  - right. apply (so_idle _ _ HO). by exists x.
  - left. apply (so_cpu _ _ HO); [by exists x|]. intros (x' & Hx' & Hi'). rewrite Hx in Hx'. by injection Hx' as <-.
Qed.

(** C18: no process is lost or run twice.  In every interleaving of scheduling
    rounds, yields, sleeps and wakeups on the CPUs, each process is in at most one
    place: on the scheduling queue (and runnable), on the sleep queue of
    its channel (and sleeping), or on one CPU; a sleeping process is always on
    the queue a wakeup searches, and a runnable process that runs on no CPU is on
    the scheduling queue. *)
Theorem sched_invariant s d s' :
  sched_ok s -> trace s d s' ->
  sched_ok s' /\
  (forall p c, p ∈ sched_que s' -> ~ runs_on s' c p) /\
  (forall p h, p ∈ default [] (slpque s' !! h) ->
     p ∉ sched_que s' /\ (forall c, ~ runs_on s' c p) /\ (forall h', p ∈ default [] (slpque s' !! h') -> h' = h)) /\
  (forall p c c', runs_on s' c p -> runs_on s' c' p -> c = c') /\
  (forall p x, procs s' !! p = Some x -> state x = SLEEPING -> p ∈ default [] (slpque s' !! HASH (chan x))) /\
  (forall p x, procs s' !! p = Some x -> state x = RUNNABLE -> p ∈ sched_que s' \/ exists c, runs_on s' c p \/ idle_of s' c p).
Proof.
  intros Hok Ht. pose proof (trace_ok s d s' Hok Ht) as Hok'. split; [done|]. destruct Hok' as [loc HO].
  pose proof (runs_place loc s') as Hr. split_and!.
  - intros p c Hp Hc. apply (so_sched _ _ HO) in Hp. destruct (Hr c p HO Hc); congruence.
  - intros p h Hp. apply (so_sleep _ _ HO) in Hp. split_and!.
    + intros Hs. apply (so_sched _ _ HO) in Hs. congruence.
    + intros c Hc. destruct (Hr c p HO Hc); congruence.
    + intros h' Hp'. apply (so_sleep _ _ HO) in Hp'. congruence.
  - intros p c c' H1 H2. destruct (Hr c p HO H1), (Hr c' p HO H2); congruence.
  - intros p x Hx Hs. pose proof (so_states _ _ HO p x Hx) as Hp. apply (so_sleep _ _ HO).
    by apply place_sleeping.
  - intros p x Hx Hs. destruct (place_runnable _ x (so_states _ _ HO p x Hx) Hs) as [El|[c [El|El]]].
    + left. by apply (so_sched _ _ HO).
    + right. exists c. left. by apply (so_cpu_runs _ _ HO).
    + right. exists c. right. by apply (so_idle _ _ HO).
Qed.

Lemma yield_queue c s s1 : yield c s = Ret tt s1 -> exists l, sched_que s1 = sched_que s ++ l.
Proof.
  unfold yield. intros E. apply bind_Ret in E as (p & s2 & Ht & E). unfold thisproc, thiscpu in Ht. apply bind_Ret in Ht as (y & s3 & Ht & Ht').
  destruct (cpus s !! c) as [x|] eqn:Hx; [|done]. injection Ht as <- <-. destruct (cproc x) as [p'|] eqn:Hp; [|done]. injection Ht' as <- <-.
  assert (ptable_lock ∉ held s) as Hl by (apply bind_Ret in E as ([] & s2 & E1 & _); by apply acquire_Ret in E1 as [? _]).
  assert (yield c s = Ret tt s1) as Hy by (unfold yield; erewrite bind_run by (by eapply thisproc_run); exact E).
  rewrite (yield_run c s x p' Hx Hp Hl) in Hy. injection Hy as <-. cbn. case_bool_decide; [exists []; by rewrite app_nil_r|by eexists].
Qed.

(** What a trace takes from and adds to the scheduling queue. *)
Lemma trace_fifo s d s' : sched_ok s -> trace s d s' -> exists added, sched_que s ++ added = d ++ sched_que s'.
Proof.
  intros Hok Ht. revert Hok. induction Ht as [s|s c x s1 d s' Hx Hi E _ IH|s c x s1 d s' Hx Hi E _ IH|s c x ch lk s1 d s' Hx Hi E _ IH|
    s ch s1 d s' E _ IH|s lk s1 d s' E _ IH|s lk s1 d s' E _ IH]; intros Hok.
  - exists []. by rewrite app_nil_r.
  - destruct (IH ltac:(by eapply schedule_ok)) as [a Ha]. exists a.
    destruct (schedule_run c s s1 x Hx E) as (p & y & h & _ & [Hq|(Hq & Hq' & _)] & _).
    + rewrite Hq. cbn. by rewrite Ha.
    + rewrite Hq in *. by rewrite Hq' in Ha.
  - destruct (IH ltac:(by eapply yield_ok)) as [a Ha]. destruct (yield_queue c s s1 E) as [l Hl]. exists (l ++ a). by rewrite app_assoc, <- Hl.
  - destruct (IH ltac:(by eapply sleep_ok)) as [a Ha]. exists a. assert (exists p, cproc x = Some p) as [p Hp].
    { unfold sleep in E. apply bind_Ret in E as (p & s2 & Ht & _). unfold thisproc, thiscpu, bind in Ht. rewrite Hx in Ht. destruct (cproc x); [by eexists|done]. }
    destruct (sleep_run c s s1 x p ch lk Hx Hp E) as [_ [h ->]]. exact Ha.
  - destruct (wakeup_Ret s ch s1 Hok E) as [Hok1 [l Hl]]. destruct (IH Hok1) as [a Ha]. exists (l ++ a). by rewrite app_assoc, <- Hl.
  - apply acquire_Ret in E as [_ ->]. by apply IH, held_ok.
  - apply release_Ret in E as ->. by apply IH, held_ok.
Qed.

(** The process a round of the scheduler chooses: it can be run. *)
Lemma chosen_ok s c x i :
  sched_ok s -> cpus s !! c = Some x -> idle x = Some i ->
  exists p q y, (sched_que s = p :: q \/ sched_que s = [] /\ q = [] /\ p = i) /\ procs s !! p = Some y /\ ctx y <> Exited.
Proof.
  intros [loc HO] Hx Hi.
  assert (exists p q pl, (sched_que s = p :: q \/ sched_que s = [] /\ q = [] /\ p = i) /\ loc p = Some pl /\ (pl = AtSched \/ pl = AtIdle c)) as (p & q & pl & Hq & Hl & Hpl).
  { destruct (sched_que s) as [|p q] eqn:Eq; [exists i, [], (AtIdle c)|exists p, q, AtSched]; (split; [by auto|split; [|by auto]]).
    - apply (so_idle _ _ HO). by exists x.
    - apply (so_sched _ _ HO). rewrite Eq. by left. }
  destruct (so_real _ _ HO p ltac:(by rewrite Hl)) as [y Hy]. exists p, q, y. split; [done|]. split; [done|].
  pose proof (so_states _ _ HO p y Hy) as H. rewrite Hl in H. destruct Hpl as [->| ->]; apply H.
Qed.

(** A CPU in its scheduler that gets the lock completes a round. *)
Lemma schedule_total s c x i :
  sched_ok s -> cpus s !! c = Some x -> idle x = Some i -> ptable_lock ∉ held s -> exists s2, schedule c s = Ret tt s2.
Proof.
  intros Hok Hx Hi Hl. destruct (chosen_ok s c x i Hok Hx Hi) as (p & q & y & Hq & Hy & Hc).
  unfold schedule. erewrite bind_run by (by apply acquire_free). run_step. cbn [sched_que set_held]. set (s1 := set_held _ s).
  assert (exists sq, (match sched_que s with
                     | [] => let* c0 := thiscpu c in match idle c0 with Some p => ret p | None => panic end
                     | p :: q' => modify (set_sched q') ;; ret p
                     end) s1 = Ret p (set_sched sq s1)) as [sq Em].
  { destruct Hq as [->|(-> & _ & ->)]; [by exists q|]. exists (sched_que s1). unfold thiscpu, bind. cbn [cpus s1 set_held]. rewrite Hx, Hi. by destruct s. }
  erewrite bind_run by exact Em. run_step.
  erewrite bind_run by (unfold getp; cbn [procs set_cpus set_sched s1 set_held]; by rewrite Hy).
  assert (forall s3, ptable_lock ∈ held s3 -> exists s4, release ptable_lock s3 = Ret tt s4) as Hrel by (intros s3 H3; eexists; by apply release_held).
  destruct (ctx y) as [| |lk|]; [apply Hrel; cbn; set_solver| | |done]; run_step; [apply Hrel; cbn; set_solver|].
  destruct (lk =? ptable_lock); cbn [negb when]; [by eexists|apply Hrel; cbn; set_solver].
Qed.

(** C26: first come, first served, and no starvation.  In every interleaving the
    processes are run in the order of the scheduling queue: the [k]-th process of
    the queue is the [k]-th one run, whatever the CPUs do in between, so it waits
    for at most [k] others.  And a CPU in its scheduler that gets the lock always
    completes a round, running the head of a queue that is not empty. *)
Theorem scheduling_fifo s d s' :
  sched_ok s -> trace s d s' ->
  (exists added, sched_que s ++ added = d ++ sched_que s') /\
  (forall k p, sched_que s !! k = Some p -> (k < length d)%nat -> d !! k = Some p) /\
  (forall c x, cpus s' !! c = Some x -> is_Some (idle x) -> ptable_lock ∉ held s' ->
     exists s2, schedule c s' = Ret tt s2 /\ forall p q, sched_que s' = p :: q -> runs_on s2 c p /\ sched_que s2 = q).
Proof.
  intros Hok Ht. destruct (trace_fifo s d s' Hok Ht) as [added Ha]. split; [by exists added|]. split.
  - intros k p Hk Hlt. rewrite <- (lookup_app_l d (sched_que s')), <- Ha by done. by apply lookup_app_l_Some.
  - intros c x Hx [i Hi] Hl. destruct (schedule_total s' c x i (trace_ok s d s' Hok Ht) Hx Hi Hl) as [s2 E2].
    exists s2. split; [done|]. intros p' q' Eq'. destruct (schedule_run c s' s2 x Hx E2) as (p2 & y2 & h & _ & Hq2 & _ & _ & Hcp & _).
    rewrite Eq' in Hq2. destruct Hq2 as [[= -> ->]|[? _]]; [|done]. split; [|done].
    assert (runs_on (set_cpus (switched c p2 (cpus s')) s') c p2) as Hr by (apply (runs_switched s' s' c x p2 c p2 Hx); auto).
    unfold runs_on in *. by rewrite Hcp.
Qed.

(** * Sending signals *)

Lemma set_held_same s : ptable_lock ∉ held s -> (held s ∪ {[ptable_lock]}) ∖ {[ptable_lock]} = held s.
Proof. intros H. apply leibniz_equiv. set_solver. Qed.

Section Kill.
Context (me : nat) (paddr : nat -> Z) (sigret_code : list Z).

(** What [send_signal] notes in the process. *)
Definition deliver (sig : Z) (x : proc) : proc :=
  if sig =? SIGKILL then set_killed 1 x
  else if sigismember (pending (signal x)) sig =? 0 then set_signal (set_pending (sigaddset (pending (signal x)) sig).2 (signal x)) x else x.

Lemma deliver_same sig x : state (deliver sig x) = state x /\ pid (deliver sig x) = pid x /\ paused (deliver sig x) = paused x /\
  chan (deliver sig x) = chan x /\ actions (signal (deliver sig x)) = actions (signal x) /\ (sig <> SIGKILL -> killed (deliver sig x) = killed x).
Proof. unfold deliver. destruct (Z.eqb_spec sig SIGKILL); [done|]. destruct (_ =? 0); done. Qed.

Lemma deliver_ctx sig x : ctx (deliver sig x) = ctx x.
Proof. unfold deliver. destruct (sig =? SIGKILL); [done|]. by destruct (_ =? 0). Qed.

Definition set_procs_at (i : nat) (f : proc -> proc) (s : pstate) : pstate := set_procs (alter f i (procs s)) s.

Lemma deliver_run i x sig s :
  procs s !! i = Some x ->
  (if sig =? SIGKILL then updp i (set_killed 1)
   else let* g := getsig i in
        when (sigismember (pending g) sig =? 0) (updsig i (fun g => set_pending (sigaddset (pending g) sig).2 g))) s
  = Ret tt (set_procs_at i (deliver sig) s).
Proof.
  intros Hx. unfold set_procs_at. destruct (sig =? SIGKILL) eqn:Ek.
  - unfold updp, modify. do 2 f_equal. apply list_alter_ext; [|done]. intros y _. unfold deliver. by rewrite Ek.
  - erewrite bind_run by (unfold getsig, getp, bind; by rewrite Hx).
    destruct (sigismember (pending (signal x)) sig =? 0) eqn:Em; cbn [when].
    + unfold updsig, updp, modify. do 2 f_equal. apply list_alter_ext; [|done]. intros y Hy. rewrite Hx in Hy. injection Hy as <-.
      unfold deliver. by rewrite Ek, Em.
    + unfold ret. f_equal. unfold set_procs. destruct s as [ps sl sq h cp um]; cbn in *. f_equal. symmetry. apply list_eq. intros j.
      rewrite list_lookup_alter. case_decide; [|done]. subst. rewrite Hx. cbn. unfold deliver. by rewrite Ek, Em.
Qed.

Lemma getp_run i x s : procs s !! i = Some x -> getp i s = Ret x s.
Proof. intros Hx. unfold getp. by rewrite Hx. Qed.

Lemma kill_loop_skip test sig l err s :
  (forall i, i ∈ l -> exists x, procs s !! i = Some x /\ test i x = false) -> kill_loop me paddr sigret_code test sig l err s = Ret err s.
Proof.
  induction l as [|i l IH]; intros H; cbn [kill_loop]; [done|]. destruct (H i ltac:(by left)) as (x & Hx & Ht).
  erewrite bind_run by (by apply getp_run). rewrite Ht. apply IH. intros j Hj. apply H. by right.
Qed.

Lemma kill_loop_hit test sig l1 i l2 err s x :
  (forall j, j ∈ l1 -> exists y, procs s !! j = Some y /\ test j y = false) -> procs s !! i = Some x -> test i x = true ->
  kill_loop me paddr sigret_code test sig (l1 ++ i :: l2) err s =
  (let* _ := send_signal me paddr sigret_code i sig in kill_loop me paddr sigret_code test sig l2 0) s.
Proof.
  intros H Hx Ht. induction l1 as [|j l1 IH]; cbn [kill_loop app].
  - erewrite bind_run by (by apply getp_run). by rewrite Ht.
  - destruct (H j ltac:(by left)) as (y & Hy & Hf). erewrite bind_run by (by apply getp_run). rewrite Hf. apply IH. intros k Hk. apply H. by right.
Qed.

(** [sys_kill] of a positive id is the loop over the table. *)
Lemma sys_kill_run s c cur x sig pid_ :
  cpus s !! me = Some c -> cproc c = Some cur -> procs s !! cur = Some x -> 0 < pid_ -> 1 <= sig < 32 ->
  sys_kill me paddr sigret_code pid_ sig s = kill_each me paddr sigret_code (fun _ p => pid p =? pid_) sig s.
Proof.
  intros Hc Hp Hx Hpid Hsig. unfold sys_kill. change ((sig <? 1) || (NSIG <=? sig)) with (bad_signum sig). rewrite good_signum by done.
  unfold kill. erewrite bind_run by (by eapply thisproc_run). erewrite bind_run by (by apply getp_run).
  destruct (Z.eqb_spec pid_ 0); [lia|]. destruct (Z.ltb_spec pid_ (-1)); [lia|]. cbn [orb]. by destruct (Z.eqb_spec pid_ (-1)); [lia|].
Qed.

Lemma split_table (s : pstate) i : length (procs s) = NPROC -> (i < NPROC)%nat ->
  exists l1 l2, seq 0 NPROC = l1 ++ i :: l2 /\ (forall j, j ∈ l1 ++ l2 -> j <> i /\ (j < NPROC)%nat).
Proof.
  intros Hlen Hi. exists (seq 0 i), (seq (S i) (NPROC - S i)). split.
  - replace NPROC with (i + S (NPROC - S i))%nat at 1 by lia. rewrite seq_app. done.
  - intros j. rewrite elem_of_app, !elem_of_seq. lia.
Qed.

(** The target of a signal is found and signalled, the rest of the table is
    passed over. *)
Lemma kill_each_hit s i x sig pid_ :
  ptable_lock ∉ held s -> length (procs s) = NPROC -> procs s !! i = Some x -> pid x = pid_ ->
  (forall j y, procs s !! j = Some y -> pid y = pid_ -> j = i) ->
  let s1 := set_held (held s ∪ {[ptable_lock]}) s in
  (forall s2, send_signal me paddr sigret_code i sig s1 = Block s2 ->
     kill_each me paddr sigret_code (fun _ p => pid p =? pid_) sig s = Block s2) /\
  (forall s2, send_signal me paddr sigret_code i sig s1 = Ret tt s2 -> (forall j, pid <$> procs s2 !! j = pid <$> procs s !! j) -> held s2 = held s1 ->
     kill_each me paddr sigret_code (fun _ p => pid p =? pid_) sig s = Ret 0 (set_held (held s) s2)).
Proof.
  intros Hl Hlen Hx Hpid Huniq s1. assert (i < NPROC)%nat as Hi by (rewrite <- Hlen; by eapply lookup_lt_Some).
  destruct (split_table s i Hlen Hi) as (l1 & l2 & El & Hne).
  assert (forall (s2 : pstate) j, (forall j, pid <$> procs s2 !! j = pid <$> procs s !! j) -> j ∈ l1 ++ l2 ->
    exists y, procs s2 !! j = Some y /\ (pid y =? pid_) = false) as Hskip.
  { intros s2 j Hsame Hj. destruct (Hne j Hj) as [Hji Hjn]. assert (is_Some (procs s !! j)) as [y Hy] by (apply lookup_lt_is_Some; lia).
    specialize (Hsame j). rewrite Hy in Hsame. destruct (procs s2 !! j) as [z|] eqn:Hz; [|done]. injection Hsame as Hsame. exists z. split; [done|].
    apply Z.eqb_neq. rewrite Hsame. intros E. apply Hji. by eapply Huniq. }
  assert (kill_loop me paddr sigret_code (fun _ p => pid p =? pid_) sig (seq 0 NPROC) (- ESRCH) s1 =
    (let* _ := send_signal me paddr sigret_code i sig in kill_loop me paddr sigret_code (fun _ p => pid p =? pid_) sig l2 0) s1) as Eloop.
  { rewrite El. apply (kill_loop_hit _ _ _ _ _ _ _ x); [|done|by apply Z.eqb_eq]. intros j Hj. apply (Hskip s1); [done|]. apply elem_of_app. by left. }
  unfold kill_each. split.
  - intros s2 Es. erewrite bind_run by (by apply acquire_free). fold s1. unfold bind at 1. rewrite Eloop. unfold bind at 1. by rewrite Es.
  - intros s2 Es Hsame Hh. erewrite bind_run by (by apply acquire_free). fold s1.
    erewrite bind_run; [|rewrite Eloop; erewrite bind_run by exact Es; apply kill_loop_skip; intros j Hj; apply Hskip; [done|]; apply elem_of_app; by right].
    assert (ptable_lock ∈ held s2) as Hin by (rewrite Hh; cbn [held s1 set_held]; by apply elem_of_union_r, elem_of_singleton).
    erewrite bind_run by (by apply release_held). rewrite Hh. cbn [held s1 set_held]. by rewrite set_held_same.
Qed.

(** The part of [send_signal] before the test of the state. *)
Lemma send_signal_run i x sig s :
  procs s !! i = Some x ->
  let y := deliver sig x in
  send_signal me paddr sigret_code i sig s =
  (if bool_decide (state x = SLEEPING) then
     if (paused x =? 1) && ((sig =? SIGTERM) || (sig =? SIGINT) || (sig =? SIGKILL)) then
       updp i (set_paused 0) ;; handle_signal me paddr sigret_code i SIGCONT
     else when ((paused x =? 0) && negb (killed y =? 1)) (handle_signal me paddr sigret_code i sig)
   else ret tt) (set_procs_at i (deliver sig) s).
Proof.
  intros Hx y. unfold send_signal. erewrite bind_run by (by eapply deliver_run).
  erewrite bind_run by (apply (getp_run i (deliver sig x)); cbn; by rewrite list_lookup_alter_eq, Hx).
  destruct (deliver_same sig x) as (-> & _ & -> & _). done.
Qed.

(** The caller's own lock stops the handlers of sleeping processes. *)
Lemma handle_signal_stuck s c cur i x sig a :
  ptable_lock ∈ held s -> cpus s !! me = Some c -> cproc c = Some cur -> idle c <> Some cur ->
  procs s !! i = Some x -> 1 <= sig < 32 -> actions (signal x) !! Z.to_nat sig = Some a -> sa_handler a = SIG_DFL ->
  default_action sig = DTerm \/ default_action sig = DStop ->
  exists s', handle_signal me paddr sigret_code i sig s = Block s' /\ ptable_lock ∈ held s' /\ procs s' = procs s /\ cpus s' = cpus s.
Proof.
  intros Hl Hc Hp Hid Hx Hsig Ha Hdfl Hd. unfold handle_signal. destruct (Z.eqb_spec sig 0); [lia|].
  erewrite bind_run by (unfold getact, getsig; erewrite bind_run by (erewrite bind_run by (by eapply getp_run); reflexivity);
    destruct (Z.ltb_spec sig 0); [lia|]; rewrite Ha; reflexivity).
  rewrite Hdfl. change (SIG_DFL =? SIG_IGN) with false. change (SIG_DFL =? SIG_DFL) with true. cbv match. destruct Hd as [-> | ->].
  - exists s. split; [|done]. unfold term_handler. unfold bind at 1. unfold bind at 1. by rewrite acquire_taken.
  - unfold stop_handler. destruct (decide (q_lock ∈ held s)) as [Hq|Hq].
    + exists s. split; [|done]. unfold bind at 1. unfold bind at 1. by rewrite acquire_taken.
    + set (s1 := set_held (held s ∪ {[q_lock]}) s). exists s1. split; [|split; [cbn; by apply elem_of_union_l|done]].
      unfold bind at 1. unfold bind at 1. rewrite acquire_free by done. fold s1. unfold bind at 1. unfold sleep.
      erewrite bind_run by (by eapply thisproc_run). cbn zeta. pose proof (HASH_lt (paddr i)) as HH.
      destruct (Z.ltb_spec (Z.of_nat (HASH (paddr i))) SQSIZE); [|unfold SQSIZE in *; lia]. run_step.
      erewrite bind_run by (by apply (is_idle_run me _ c)). rewrite bool_decide_eq_false_2 by done. run_step.
      change (q_lock =? ptable_lock) with false. cbn [negb when]. unfold bind at 1. unfold bind at 1. rewrite acquire_taken; [done|].
      cbn. by apply elem_of_union_l.
Qed.

Lemma pid_alter f i l j : (forall x, pid (f x) = pid x) -> pid <$> alter f i l !! j = pid <$> (l : list proc) !! j.
Proof. intros Hf. rewrite list_lookup_alter. case_decide; [|done]. subst. destruct (l !! j); cbn; [by rewrite Hf|done]. Qed.

Lemma set_held_id s h : h = held s -> set_held h s = s.
Proof. intros ->. by destruct s. Qed.

End Kill.

(** * Signal frames *)

Lemma put_words_other d a ws : forall m b, (forall k, (k < length ws)%nat -> b <> a + 8 * Z.of_nat k) -> put_words d a ws m !! (d, b) = m !! (d, b).
Proof.
  revert a. induction ws as [|w ws IH]; intros a m b Hb; cbn [put_words]; [done|]. rewrite IH.
  - apply lookup_insert_ne. intros [= E]. apply (Hb 0%nat); cbn; lia.
  - intros k Hk E. apply (Hb (S k)); [cbn; lia|lia].
Qed.

Lemma put_words_same d a ws : forall m k w, ws !! k = Some w -> put_words d a ws m !! (d, a + 8 * Z.of_nat k) = Some w.
Proof.
  revert a. induction ws as [|v ws IH]; intros a m k w Hk; [done|]. cbn [put_words]. destruct k as [|k].
  - injection Hk as ->. rewrite put_words_other; [rewrite Z.add_0_r; apply lookup_insert_eq|]. intros k Hlt. lia.
  - replace (a + 8 * Z.of_nat (S k)) with (a + 8 + 8 * Z.of_nat k) by lia. by apply IH.
Qed.

Lemma copy_to_user_run me s c cur x a ws :
  cpus s !! me = Some c -> cproc c = Some cur -> procs s !! cur = Some x ->
  copy_to_user me a ws s = Ret tt (set_umem (put_words (pgdir x) a ws (umem s)) s).
Proof.
  intros Hc Hp Hx. unfold copy_to_user. erewrite bind_run by (by eapply thisproc_run). by erewrite bind_run by (by eapply getp_run).
Qed.

Lemma no_pending_run me paddr sc s c p x :
  cpus s !! me = Some c -> cproc c = Some p -> procs s !! p = Some x -> pending (signal x) = 0 -> check_pending_signal me paddr sc s = Ret tt s.
Proof.
  intros Hc Hp Hx H0. unfold check_pending_signal. erewrite bind_run by (by eapply thisproc_run).
  erewrite bind_run; [reflexivity|]. generalize (seqZ 0 NSIG) as l. induction l as [|k l IH]; [reflexivity|]. cbn [loop].
  rewrite (bind_run _ _ _ None s); [exact IH|]. erewrite bind_run by (unfold getsig; erewrite bind_run by (by eapply getp_run); reflexivity).
  rewrite H0. unfold sigismember. rewrite Z.land_0_l. by destruct (bad_signum k).
Qed.

(** C29: entering and leaving a signal handler of the running process.
    [user_handler] saves the trap frame below the user stack and continues at
    the handler with the signal number as argument, changing no other register
    (the link register neither).  When the program calls [sigreturn] with the
    saved words unchanged, [sigreturn] puts back the trap frame the signal
    interrupted; [trap] then stores the result of the call in it, so that the
    program goes on with its registers, but 0 in x0. *)
Theorem signal_frame_roundtrip me paddr sigret_code s c cur x sig a :
  cpus s !! me = Some c -> cproc c = Some cur -> procs s !! cur = Some x -> length (tf x) = 38%nat ->
  1 <= sig < 32 -> actions (signal x) !! Z.to_nat sig = Some a -> 0 <= sa_handler a < 2 ^ 64 ->
  let sp := default 0 (tf x !! tf_sp) in
  let n := Z.of_nat (length sigret_code) in
  TFSIZE + 8 * n + 8 <= sp < 2 ^ 64 ->
  exists s1 x1, user_handler me sigret_code cur sig s = Ret tt s1 /\ procs s1 !! cur = Some x1 /\
    tf x1 !! tf_elr = Some (sa_handler a) /\ tf x1 !! tf_x 0 = Some sig /\ tf x1 !! tf_sp = Some (sp - TFSIZE - 8 * n - 8) /\
    (forall k, k <> tf_elr -> k <> tf_x 0 -> k <> tf_sp -> tf x1 !! k = tf x !! k) /\
    (forall q, q <> cur -> procs s1 !! q = procs s !! q) /\
    (forall s2 c2 x2, cpus s2 !! me = Some c2 -> cproc c2 = Some cur -> procs s2 !! cur = Some x2 -> pgdir x2 = pgdir x -> oldtf x2 = oldtf x1 ->
       (forall k, (k < 38)%nat -> umem s2 !! (pgdir x, oldtf x1 + 8 * Z.of_nat k) = umem s1 !! (pgdir x, oldtf x1 + 8 * Z.of_nat k)) ->
       exists s3 s4, sigreturn me s2 = Ret 0 s3 /\ procs s3 !! cur = Some (set_tf (tf x) x2) /\
         (pending (signal x2) = 0 -> trap_svc me paddr sigret_code (sigreturn me) s2 = Ret tt s4 /\
            procs s4 !! cur = Some (set_tf (<[tf_x 0 := 0]> (tf x)) x2))).
Proof.
  intros Hc Hp Hx Hlen Hsig Ha Hh sp n Hsp. unfold TFSIZE in *.
  set (a1 := sp - 304). set (a2 := a1 - 8 * n). set (a3 := a2 - 8).
  set (m1 := put_words (pgdir x) a1 (tf x) (umem s)). set (m2 := put_words (pgdir x) a2 sigret_code m1). set (m3 := put_words (pgdir x) a3 [a2] m2).
  set (x1 := set_tf (<[tf_elr := u64 (sa_handler a)]> (<[tf_sp := a3]> (<[tf_x 0 := u64 sig]> (tf x)))) (set_oldtf a1 x)).
  set (s1 := mkS (<[cur := x1]> (procs s)) (slpque s) (sched_que s) (held s) (cpus s) m3).
  assert (cur < length (procs s))%nat as Hcur by (by eapply lookup_lt_Some).
  assert (forall f y ps, ps !! cur = Some y -> alter f cur ps = <[cur := f y]> (ps : list proc)) as Halt.
  { intros f y ps Hy. apply list_eq. intros j. rewrite list_lookup_alter. case_decide; subst.
    - rewrite Hy, list_lookup_insert_eq; [done|]. by eapply lookup_lt_Some.
    - by rewrite list_lookup_insert_ne. }
  assert (forall f y, alter f cur (<[cur := y]> (procs s)) = <[cur := f y]> (procs s)) as Hai.
  { intros f y. rewrite (Halt f y) by (by apply list_lookup_insert_eq). apply list_insert_insert_eq. }
  assert (user_handler me sigret_code cur sig s = Ret tt s1) as E.
  { unfold user_handler. erewrite bind_run by (by eapply getp_run). cbn zeta. fold sp. unfold TFSIZE.
    rewrite (u64_id (sp - 304)) by lia. fold a1.
    erewrite bind_run by (by eapply (copy_to_user_run me s c cur x)). run_step. fold m1 n.
    rewrite (u64_id (a1 - 8 * n)) by lia. fold a2.
    erewrite bind_run by (eapply (copy_to_user_run me _ c cur (set_oldtf a1 x)); [done|done|cbn; by rewrite list_lookup_alter_eq, Hx]).
    cbn [pgdir set_oldtf umem set_procs set_umem]. fold m2. run_step. rewrite (u64_id (a2 - 8)) by lia. fold a3.
    erewrite bind_run by (eapply (copy_to_user_run me _ c cur (set_tf (<[tf_x 0 := u64 sig]> (tf x)) (set_oldtf a1 x)));
      [done|done|cbn; by rewrite !list_lookup_alter_eq, Hx]).
    run_step.
    erewrite bind_run by (unfold getact, getsig; erewrite bind_run by (erewrite bind_run by (eapply getp_run; cbn; by rewrite !list_lookup_alter_eq, Hx); reflexivity);
      destruct (Z.ltb_spec sig 0); [lia|]; cbn [signal set_tf set_oldtf]; rewrite Ha; reflexivity).
    unfold updp, modify, set_procs, set_umem. cbn [procs slpque sched_que held cpus umem]. f_equal. unfold s1. f_equal.
    by rewrite (Halt _ x (procs s) Hx), !Hai. }
  exists s1, x1. split; [done|]. split; [by apply list_lookup_insert_eq|]. cbn [tf x1 set_tf]. rewrite !u64_id by lia.
  split; [apply list_lookup_insert_eq; rewrite !length_insert, Hlen; unfold tf_elr; lia|].
  split; [rewrite !list_lookup_insert_ne by done; apply list_lookup_insert_eq; rewrite Hlen; unfold tf_x; lia|].
  split; [rewrite list_lookup_insert_ne by done; rewrite list_lookup_insert_eq by (rewrite !length_insert, Hlen; unfold tf_sp; lia); f_equal; lia|].
  split; [intros k H1 H2 H3; by rewrite !list_lookup_insert_ne|]. split; [intros q Hq; cbn; by rewrite list_lookup_insert_ne|].
  intros s2 c2 x2 Hc2 Hp2 Hx2 Hpg Hold Hmem.
  assert (get_words (pgdir x2) (oldtf x2) 38 (umem s2) = tf x) as Eg.
  { rewrite Hold, Hpg. change (oldtf x1) with a1 in *. apply list_eq. intros k. unfold get_words. rewrite list_lookup_fmap.
    destruct (decide (k < 38)%nat) as [Hk|Hk].
    - rewrite lookup_seq_lt by done. cbn [fmap option_fmap option_map]. rewrite Hmem by done. cbn [umem s1]. unfold m3, m2, m1.
      assert (is_Some (tf x !! k)) as [w Hw] by (apply lookup_lt_is_Some; lia).
      rewrite put_words_other by (cbn; lia). rewrite put_words_other by lia. by rewrite (put_words_same _ _ _ _ k w).
    - rewrite lookup_seq_ge by lia. symmetry. apply lookup_ge_None. lia. }
  set (s3 := set_procs (alter (set_tf (tf x)) cur (procs s2)) s2).
  assert (Er : sigreturn me s2 = Ret 0 s3).
  { unfold sigreturn. erewrite bind_run by (by eapply thisproc_run). erewrite bind_run by (by eapply getp_run). run_step. rewrite Eg. reflexivity. }
  assert (H3 : procs s3 !! cur = Some (set_tf (tf x) x2)) by (cbn [s3 procs set_procs]; by rewrite list_lookup_alter_eq, Hx2).
  set (s4 := set_procs (alter (fun y => set_tf (<[tf_x 0 := 0]> (tf y)) y) cur (procs s3)) s3).
  assert (H4 : procs s4 !! cur = Some (set_tf (<[tf_x 0 := 0]> (tf x)) x2)) by (cbn [s4 procs set_procs]; by rewrite list_lookup_alter_eq, H3).
  exists s3, s4. split; [done|]. split; [done|]. intros Hpend. split; [|done]. unfold trap_svc. erewrite bind_run by (by eapply thisproc_run).
  rewrite (bind_run _ _ _ _ _ Er). erewrite bind_run; [|reflexivity]. by eapply (no_pending_run me paddr sigret_code s4 c2 cur).
Qed.

(** * Process groups *)

(** [setpgid] of a child in the same session moves the caller to the group
    and leaves the child where it is. *)
Theorem setpgid_moves_caller me junk s c cur x i y pgid_ :
  cpus s !! me = Some c -> cproc c = Some cur -> procs s !! cur = Some x -> find_pid (procs s) (pid y) = Some i -> procs s !! i = Some y ->
  parent y = Some cur -> sid y = sid x -> 0 < pid y -> pid y <> pid x -> 0 < pgid_ -> pgid x <> pgid_ -> ptable_lock ∉ held s ->
  exists s', setpgid me junk (pid y) pgid_ s = Ret 0 s' /\ procs s' = alter (set_pgid pgid_) cur (procs s) /\
    (i <> cur -> procs s' !! i = Some y).
Proof.
  intros Hc Hp Hx Hf Hy Hpar Hsid Hpy Hne Hpg Hpx Hl. unfold setpgid. erewrite bind_run by (by eapply thisproc_run). erewrite bind_run by (by eapply getp_run).
  cbn zeta. destruct (Z.eqb_spec (pid y) 0); [lia|]. destruct (Z.eqb_spec pgid_ 0); [lia|]. destruct (Z.ltb_spec pgid_ 0); [lia|].
  destruct (Z.eqb_spec (pid y) (pid x)); [done|]. cbn [negb].
  set (s1 := set_held (held s) s). assert (s1 = s) as Es1 by (by destruct s).
  assert (forall A (f : pstate -> A), f s = f (set_held (held s ∪ {[ptable_lock]}) s) ->
    (acquire ptable_lock ;; let* hit := gets f in release ptable_lock ;; ret hit) s = Ret (f s) s) as Hlock.
  { intros A f Ef. erewrite bind_run by (by apply acquire_free). run_step.
    erewrite bind_run by (apply release_held; cbn; by apply elem_of_union_r, elem_of_singleton). cbn [held set_held]. rewrite set_held_same by done.
    unfold ret. f_equal; [done|]. by destruct s. }
  erewrite bind_run.
  2:{ erewrite bind_run by (by apply acquire_free). run_step.
      erewrite bind_run by (apply release_held; cbn; by apply elem_of_union_r, elem_of_singleton). cbn [held set_held procs]. rewrite set_held_same by done.
      rewrite Hf. reflexivity. }
  change (set_held (held s) (set_held (held s ∪ {[ptable_lock]}) s)) with s1. rewrite Es1. erewrite bind_run by (by eapply getp_run).
  rewrite bool_decide_eq_true_2 by done. destruct (Z.eqb_spec (sid y) (sid x)); [|done]. cbn [negb andb].
  assert (existsb (fun q => sid q =? sid x) (procs s) = true) as Hex.
  { apply existsb_exists. exists x. split; [|apply Z.eqb_refl]. by eapply list_elem_of_In, list_elem_of_lookup_2. }
  erewrite (bind_run (if negb (pgid_ =? pid y) then _ else _) _ s true s).
  2:{ destruct (pgid_ =? pid y); cbn [negb]; [done|]. rewrite Hlock by done. by rewrite Hex. }
  destruct (Z.eqb_spec (pgid x) pgid_); [done|]. cbn [negb when]. run_step. eexists. split; [reflexivity|].
  split; [done|]. intros Hi. cbn. by rewrite list_lookup_alter_ne.
Qed.

(** * Witnesses *)

Definition no_signals : signals := mkSig 0 0 (replicate 32 (mkSa 0 0 0 0)).
Definition idle_proc : proc := mkP RUNNABLE 1 1 1 None 0 0 0 0 (replicate 38 0) 0 no_signals Forkret.
Definition user_proc (st : procstate) (id : Z) : proc := mkP st id id 1 None 0 0 0 4096 (replicate 38 0x8000) 0 no_signals Yielded.
Definition unused_proc : proc := mkP UNUSED 0 0 0 None 0 0 0 0 [] 0 no_signals Forkret.

(** CPU 0 runs process 1; process 2 sleeps on channel 0; process 0 is idle. *)
Definition two_procs : pstate :=
  mkS ([idle_proc; user_proc RUNNING 2; user_proc SLEEPING 3] ++ replicate 125 unused_proc) ([2%nat] :: replicate 255 []) [] ∅
      [mkC (Some 1%nat) (Some 0%nat) false] ∅.

Definition two_loc (p : nat) : option place :=
  match p with 0%nat => Some (AtIdle 0) | 1%nat => Some (AtCpu 0) | 2%nat => Some (AtSleep 0) | _ => None end.

Lemma two_procs_ok : sched_ok two_procs.
Proof.
  exists two_loc. assert (forall p x, procs two_procs !! p = Some x -> p = 0%nat /\ x = idle_proc \/ p = 1%nat /\ x = user_proc RUNNING 2 \/
    p = 2%nat /\ x = user_proc SLEEPING 3 \/ (3 <= p)%nat /\ x = unused_proc) as Hp.
  { intros p x Hx. destruct p as [|[|[|p]]]; [change (Some idle_proc = Some x) in Hx|change (Some (user_proc RUNNING 2) = Some x) in Hx|
      change (Some (user_proc SLEEPING 3) = Some x) in Hx|change (replicate 125 unused_proc !! p = Some x) in Hx]; [injection Hx as <-; auto..|].
    apply lookup_replicate in Hx as [-> _]. right. right. right. split; [lia|done]. }
  assert (forall h, default [] (slpque two_procs !! h) = if decide (h = 0%nat) then [2%nat] else []) as Hq.
  { intros h. destruct h as [|h]; [done|]. rewrite decide_False by lia. change (default [] (replicate 255 [] !! h) = ([] : list nat)). destruct (replicate 255 [] !! h) as [q|] eqn:E; [|done].
    by apply lookup_replicate in E as [-> _]. }
  assert (forall c x, cpus two_procs !! c = Some x -> c = 0%nat /\ x = mkC (Some 1%nat) (Some 0%nat) false) as Hc.
  { intros c x Hx. destruct c as [|c]; cbn in Hx; [by injection Hx as <-|by destruct c]. }
  split.
  - intros p. cbn. split; [by intros ?%elem_of_nil|]. by destruct p as [|[|[|p]]].
  - constructor.
  - intros h p. rewrite Hq. case_decide as E.
    + subst. rewrite list_elem_of_singleton. split; [by intros ->|]. by destruct p as [|[|[|p]]].
    + split; [by intros ?%elem_of_nil|]. destruct p as [|[|[|p]]]; cbn; congruence.
  - intros h. rewrite Hq. case_decide; [apply NoDup_singleton|constructor].
  - reflexivity.
  - intros c p (x & Hx & Hpx & _) _. apply Hc in Hx as [-> ->]. cbn in Hpx. by injection Hpx as <-.
  - intros c p Hl. destruct p as [|[|[|p]]]; cbn in Hl; try done. injection Hl as <-. eexists. split; [reflexivity|done].
  - intros c p. split; [intros (x & Hx & Hix); apply Hc in Hx as [-> ->]; cbn in Hix; by injection Hix as <-|].
    intros Hl. destruct p as [|[|[|p]]]; cbn in Hl; try done. injection Hl as <-. by eexists.
  - intros p x Hx. apply Hp in Hx as [[-> ->]|[[-> ->]|[[-> ->]|[Hge ->]]]]; [split; [by right; left|done]|split; [by left|done]|done|].
    destruct p as [|[|[|p]]]; [lia|lia|lia|]. by left.
  - intros p Hl. destruct p as [|[|[|p]]]; [by eexists|by eexists|by eexists|]. by destruct Hl.
Qed.

(** Process 1 yields and is run again. *)
Definition after_yield : pstate := match yield 0 two_procs with Ret _ s => s | _ => two_procs end.

Lemma sched_invariant_witness : trace two_procs [] after_yield /\ sched_ok after_yield.
Proof.
  assert (trace two_procs [] after_yield) as Ht.
  { eapply (t_yield _ 0); [reflexivity|reflexivity|reflexivity|apply t_nil]. }
  split; [exact Ht|]. exact (proj1 (sched_invariant two_procs [] after_yield two_procs_ok Ht)).
Defined.

Lemma one_schedule (s : pstate) c x p l s' : cpus s !! c = Some x -> inscheduler x = true -> schedule c s = Ret tt s' -> sched_que s = p :: l -> trace s [p] s'.
Proof. intros Hc Hi E Hq. pose proof (t_schedule s c x s' [] s' Hc Hi E (t_nil s')) as T. by rewrite Hq in T. Qed.

Definition after_schedule : pstate := match schedule 0 after_yield with Ret _ s => s | _ => after_yield end.

(** Process 1 yields and is run again. *)
Lemma scheduling_fifo_witness :
  (exists added, sched_que two_procs ++ added = [1%nat] ++ sched_que after_schedule) /\
  (forall k p, sched_que two_procs !! k = Some p -> (k < 1)%nat -> [1%nat] !! k = Some p).
Proof.
  assert (trace two_procs [1%nat] after_schedule) as Ht.
  { eapply (t_yield _ 0 _ after_yield); [reflexivity|reflexivity|vm_compute; reflexivity|].
    apply (one_schedule after_yield 0 (mkC (Some 1%nat) (Some 0%nat) true) 1 []); vm_compute; reflexivity. }
  destruct (scheduling_fifo two_procs [1%nat] after_schedule two_procs_ok Ht) as (H1 & H2 & _). split; [exact H1|exact H2].
Defined.

Lemma wakeup_exact_witness : exists s', wakeup 0 two_procs = Ret tt s' /\ sched_que s' = [2%nat].
Proof.
  destruct (wakeup_exact two_procs 0 two_procs_ok) as (s' & E & _ & H & _).
  - intros H. exact (False_ind _ (proj1 (elem_of_empty ptable_lock) H)).
  - exists s'. split; [exact E|]. rewrite H. reflexivity.
Defined.


(** As [two_procs], process 1 with a handler for SIGUSR1, its registers all different. *)
Definition handling : proc :=
  mkP RUNNING 2 2 1 None 0 0 0 4096 (<[tf_sp := 0x8000]> (seqZ 100 38)) 0
    (mkSig 0 0 (<[Z.to_nat SIGUSR1 := mkSa 0x400100 0 0 0]> (actions no_signals))) Yielded.
Definition signalled : pstate := set_procs (<[1%nat := handling]> (procs two_procs)) two_procs.

Lemma signal_frame_roundtrip_witness :
  exists s1 s4, user_handler 0 [77; 88] 1 SIGUSR1 signalled = Ret tt s1 /\ (tf <$> procs s1 !! 1%nat) <> Some (tf handling) /\
    trap_svc 0 (fun _ => 0) [77; 88] (sigreturn 0) s1 = Ret tt s4 /\ (tf <$> procs s4 !! 1%nat) = Some (<[tf_x 0 := 0]> (tf handling)).
Proof.
  destruct (signal_frame_roundtrip 0 (fun _ => 0) [77; 88] signalled (mkC (Some 1%nat) (Some 0%nat) false) 1 handling SIGUSR1 (mkSa 0x400100 0 0 0))
    as (s1 & x1 & E & Hx1 & He & _ & _ & _ & _ & Hret).
  - reflexivity.
  - reflexivity.
  - reflexivity.
  - reflexivity.
  - unfold SIGUSR1. lia.
  - reflexivity.
  - cbn. lia.
  - vm_compute. intuition congruence.
  - assert (match user_handler 0 [77; 88] 1 SIGUSR1 signalled with
            | Ret _ s => (cpus s, pgdir <$> procs s !! 1%nat, pending <$> (signal <$> procs s !! 1%nat)) | _ => ([], None, None) end
            = ([mkC (Some 1%nat) (Some 0%nat) false], Some 4096, Some 0)) as Ev by (vm_compute; reflexivity).
    rewrite E, Hx1 in Ev. injection Ev as Hcpu Hpg Hpend.
    destruct (Hret s1 (mkC (Some 1%nat) (Some 0%nat) false) x1) as (s3 & s4 & _ & _ & H).
    + by rewrite Hcpu.
    + reflexivity.
    + exact Hx1.
    + exact Hpg.
    + reflexivity.
    + intros k _. reflexivity.
    + destruct (H Hpend) as [H1 H2]. exists s1, s4. split; [exact E|]. split; [|split; [exact H1|by rewrite H2]].
      rewrite Hx1. intros [= Hc]. rewrite Hc in He. vm_compute in He. discriminate He.
Defined.

End Proc.
