(* ===== verification/Lifecycle.v ===== *)
(** The life of a process: allocation, the first processes, fork, exit and
    wait4 (kern/proc.c).

    The state is the process table of [Proc], the rest of the fields of
    [struct proc] ([info]), the last pid given out, and the state of the components
    these functions call, which is reached through an interface ([Kernel]): pages
    and address spaces ([Mm], [Vm]), mappings ([Mmap]), files ([File]), the inode
    cache ([Vfs]) and the log ([Log]).  The list [child] of a process is the list of
    the processes linked through [clink], in order.

    [wait4] is cut at its [sleep], as [sleep] itself is in [Proc]: a call that
    sleeps ends in [Block], and continues with [wait_scan], holding
    [ptable.lock].  [exit] ends with the switch to the scheduler.  The trap frame
    of a new process is the memory of its kernel stack, [stale] says what
    that memory held.  [proc_initx] initialises a lock through the pointer
    [regions_lock], which is null: [write_null] is that store. *)

From stdpp Require Import base list gmap.
From Stdlib Require Import ZArith Lia Bool.
From S2P Require Import Prelude Cred Mm Signal Proc.

Module Lifecycle.
Import Signal Proc.

Definition NOFILE : nat := 16.
Definition WNOHANG : Z := 1.
Definition WUNTRACED : Z := 2.
Definition CAP_SETPCAP : Z := 8.
Definition CAP_INIT_EFF_SET : Z := u32 (Z.land (Z.lnot 0) (Z.lnot (Cred.CAP_TO_MASK CAP_SETPCAP))).

(** What kern/proc.c calls of the other components. *)
Class Kernel (R : Type) : Type := {
  kalloc : M R Z;                                (* kern/mm.c *)
  kfree : Z -> M R unit;
  vm_init : M R Z;                               (* kern/vm.c *)
  uvm_map : Z -> Z -> Z -> Z -> M R Z;
  uvm_copy : Z -> Z -> M R Z;                    (* [regions] of the caller, page table *)
  vm_free : Z -> Z -> M R unit;
  put_code : Z -> list Z -> M R unit;            (* memmove to a page of the kernel *)
  write_null : M R unit;                         (* initlock(NULL) *)
  copy_mmap_list : Z -> Z -> M R (Z * Z * Z);    (* kern/mmap.c: error, [regions], [nregions] *)
  filedup : nat -> M R unit;                     (* kern/file.c; returns its argument *)
  fileclose : nat -> M R unit;
  namei_root : M R (option nat);                 (* kern/vfs.c: namei on the path of the root *)
  idup : option nat -> M R unit;                 (* returns its argument *)
  iput : option nat -> M R unit;
  begin_op : M R unit;                           (* kern/log.c *)
  end_op : M R unit
}.

Record times : Type := mkT {
  stime : Z; utime : Z;
  it_real_value : Z; it_prof_value : Z; it_virt_value : Z;
  it_real_incr : Z; it_prof_incr : Z; it_virt_incr : Z
}.

(** The fields of [struct proc] that [Proc] does not have; [real_timer] is the
    process its function is called with. *)
Record info : Type := mkX {
  kstack : Z;
  xstate : Z;
  child : list nat;
  base : Z; sz : Z; stksz : Z;
  fdflag : Z;
  ofile : list (option nat);
  cwd : option nat;
  cr : Cred.cred;
  tm : times;
  real_timer : option nat;
  nregions : Z;
  regions : Z
}.

Definition no_cred : Cred.cred := Cred.mkCred 0 0 0 0 0 0 0 0 [] 0 0 0 0.
Definition no_times : times := mkT 0 0 0 0 0 0 0 0.

(** A zeroed [struct proc]. *)
Definition zero_signals : signals := mkSig 0 0 (replicate 32 (mkSa 0 0 0 0)).
Definition zero_proc : proc := mkP UNUSED 0 0 0 None 0 0 0 0 [] 0 zero_signals Forkret.
Definition zero_info : info := mkX 0 0 [] 0 0 0 0 (replicate NOFILE None) None no_cred no_times None 0 0.

Definition set_pid (v : Z) (p : proc) : proc :=
  mkP (state p) v (pgid p) (sid p) (parent p) (chan p) (killed p) (paused p) (pgdir p) (tf p) (oldtf p) (signal p) (ctx p).
Definition set_sid (v : Z) (p : proc) : proc :=
  mkP (state p) (pid p) (pgid p) v (parent p) (chan p) (killed p) (paused p) (pgdir p) (tf p) (oldtf p) (signal p) (ctx p).
Definition set_parent (v : option nat) (p : proc) : proc :=
  mkP (state p) (pid p) (pgid p) (sid p) v (chan p) (killed p) (paused p) (pgdir p) (tf p) (oldtf p) (signal p) (ctx p).
Definition set_pgdir (v : Z) (p : proc) : proc :=
  mkP (state p) (pid p) (pgid p) (sid p) (parent p) (chan p) (killed p) (paused p) v (tf p) (oldtf p) (signal p) (ctx p).

Definition set_kstack (v : Z) (x : info) : info :=
  mkX v (xstate x) (child x) (base x) (sz x) (stksz x) (fdflag x) (ofile x) (cwd x) (cr x) (tm x) (real_timer x) (nregions x) (regions x).
Definition set_xstate (v : Z) (x : info) : info :=
  mkX (kstack x) v (child x) (base x) (sz x) (stksz x) (fdflag x) (ofile x) (cwd x) (cr x) (tm x) (real_timer x) (nregions x) (regions x).
Definition set_child (v : list nat) (x : info) : info :=
  mkX (kstack x) (xstate x) v (base x) (sz x) (stksz x) (fdflag x) (ofile x) (cwd x) (cr x) (tm x) (real_timer x) (nregions x) (regions x).
Definition set_layout (b s k : Z) (x : info) : info :=
  mkX (kstack x) (xstate x) (child x) b s k (fdflag x) (ofile x) (cwd x) (cr x) (tm x) (real_timer x) (nregions x) (regions x).
Definition set_fdflag (v : Z) (x : info) : info :=
  mkX (kstack x) (xstate x) (child x) (base x) (sz x) (stksz x) v (ofile x) (cwd x) (cr x) (tm x) (real_timer x) (nregions x) (regions x).
Definition set_ofile (v : list (option nat)) (x : info) : info :=
  mkX (kstack x) (xstate x) (child x) (base x) (sz x) (stksz x) (fdflag x) v (cwd x) (cr x) (tm x) (real_timer x) (nregions x) (regions x).
Definition set_cwd (v : option nat) (x : info) : info :=
  mkX (kstack x) (xstate x) (child x) (base x) (sz x) (stksz x) (fdflag x) (ofile x) v (cr x) (tm x) (real_timer x) (nregions x) (regions x).
Definition set_cr (v : Cred.cred) (x : info) : info :=
  mkX (kstack x) (xstate x) (child x) (base x) (sz x) (stksz x) (fdflag x) (ofile x) (cwd x) v (tm x) (real_timer x) (nregions x) (regions x).
Definition set_tm (v : times) (t : option nat) (x : info) : info :=
  mkX (kstack x) (xstate x) (child x) (base x) (sz x) (stksz x) (fdflag x) (ofile x) (cwd x) (cr x) v t (nregions x) (regions x).
Definition set_maps (n r : Z) (x : info) : info :=
  mkX (kstack x) (xstate x) (child x) (base x) (sz x) (stksz x) (fdflag x) (ofile x) (cwd x) (cr x) (tm x) (real_timer x) n r.

(** [lastpid] is the variable [pid] of kern/proc.c. *)
Record lstate {R : Type} : Type := mkL {
  ps : pstate;
  px : list info;
  lastpid : Z;
  res : R
}.
Arguments lstate : clear implicits.

Section Life.
Context {R : Type} {K : Kernel R}.
Notation L := (M (lstate R)).

(** The CPU that executes, the address of [ptable.proc[i]], the content of new
    stack pages, and the variable [initproc]: it is null from the start and no
    code assigns it. *)
Context (me : nat) (paddr : nat -> Z) (stale : Z -> list Z) (initproc : option nat).

Definition set_ps (v : pstate) (s : lstate R) : lstate R := mkL R v (px s) (lastpid s) (res s).
Definition set_px (v : list info) (s : lstate R) : lstate R := mkL R (ps s) v (lastpid s) (res s).
Definition set_lastpid (v : Z) (s : lstate R) : lstate R := mkL R (ps s) (px s) v (res s).
Definition set_res (v : R) (s : lstate R) : lstate R := mkL R (ps s) (px s) (lastpid s) v.

Definition on_p {A} : M pstate A -> L A := zoom ps set_ps.
Definition on_r {A} : M R A -> L A := zoom res set_res.
Definition getx (i : nat) : L info := fun s => match px s !! i with Some x => Ret x s | None => Panic s end.
Definition updx (i : nat) (f : info -> info) : L unit := modify (fun s => set_px (alter f i (px s)) s).

(** The trap frame that starts at the top of the kernel stack, with [spsr] and
    [sp] cleared. *)
Definition tf_spsr : nat := 0.
Definition new_tf (k : Z) : list Z := <[tf_sp := 0]> (<[tf_spsr := 0]> (stale k)).

Definition proc_alloc : L (option nat) :=
  on_p (acquire ptable_lock) ;;
  let* l := gets (fun s => procs (ps s)) in
  match fst <$> list_find (fun p => state p = UNUSED) l with
  | None => on_p (release ptable_lock) ;; ret None
  | Some i =>
      on_p (updp i (fun _ => zero_proc)) ;;
      updx i (fun _ => zero_info) ;;
      let* k := on_r kalloc in
      updx i (set_kstack k) ;;
      if k =? 0 then on_p (release ptable_lock) ;; ret None else
      modify (fun s => set_lastpid (s32 (lastpid s + 1)) s) ;;
      let* n := gets lastpid in
      on_p (updp i (set_pid n)) ;;
      on_p (updp i (set_state EMBRYO)) ;;
      on_p (release ptable_lock) ;;
      on_p (updp i (set_tf (new_tf k))) ;;
      on_p (updp i (set_ctx Forkret)) ;;
      on_p (updp i (set_paused 0)) ;;
      updx i (set_child []) ;;
      ret (Some i)
  end.

(** * The first processes *)

Definition proc_initx (code : list Z) : L nat :=
  let* r := proc_alloc in
  let* va := on_r kalloc in
  match r with
  | None => panic
  | Some i =>
      assert (truthy va) ;;
      let* pg := on_r vm_init in
      on_p (updp i (set_pgdir pg)) ;;
      assert (truthy pg) ;;
      let* e := on_r (uvm_map pg 0 Mm.PGSIZE (Mm.V2P va)) in
      assert (e =? 0) ;;
      on_r (put_code va code) ;;
      assert (Z.of_nat (length code) <=? Mm.PGSIZE) ;;
      updx i (set_layout 0 Mm.PGSIZE 0) ;;
      let* p := on_p (getp i) in
      on_p (updp i (fun q => set_pgid (pid p) (set_sid (pid p) q))) ;;
      updx i (set_fdflag 0) ;;
      updx i (fun x => set_cr (Cred.mkCred 0 0 0 0 0 0 0 0 [] (Cred.cap_effective (cr x)) (Cred.cap_inheritable (cr x)) (Cred.cap_permitted (cr x)) 2) x) ;;
      updx i (set_maps 0 0) ;;
      on_r write_null ;;
      on_p (updp i (fun q => set_tf (<[tf_elr := 0]> (tf q)) q)) ;;
      ret i
  end.

Definition idle_init (ispin : list Z) : L unit :=
  let* i := proc_initx ispin in
  on_p (updc me (fun c => mkC (cproc c) (Some i) (inscheduler c))).

Definition user_init (icode : list Z) : L unit :=
  let* i := proc_initx icode in
  updx i (fun x => set_cr (Cred.mkCred (Cred.uid (cr x)) (Cred.euid (cr x)) (Cred.suid (cr x)) (Cred.fsuid (cr x))
    (Cred.gid (cr x)) (Cred.egid (cr x)) (Cred.sgid (cr x)) (Cred.fsgid (cr x)) (Cred.groups (cr x))
    CAP_INIT_EFF_SET CAP_INIT_EFF_SET CAP_INIT_EFF_SET (Cred.umask (cr x))) x) ;;
  let* d := on_r namei_root in
  updx i (set_cwd d) ;;
  assert (bool_decide (is_Some d)) ;;
  on_p (acquire ptable_lock) ;;
  on_p (push_sched i) ;;
  on_p (release ptable_lock).

(** * Fork *)

(** What a failing [fork] does with the new process. *)
Definition fork_undo (np : nat) : L unit :=
  let* x := getx np in
  on_r (kfree (kstack x)) ;;
  on_p (acquire ptable_lock) ;;
  on_p (updp np (set_state UNUSED)) ;;
  on_p (release ptable_lock).

(** The descriptor [i] of the new process. *)
Definition fork_fd (cp np : nat) (i : nat) : L unit :=
  let* c := getx cp in
  match default None (ofile c !! i) with
  | None => ret tt
  | Some f =>
      on_r (filedup f) ;;
      updx np (fun x => set_ofile (<[i := Some f]> (ofile x)) x)
  end.

(** The ids, groups and capabilities; [umask] is not among them. *)
Definition inherit_cred (c : Cred.cred) (n : Cred.cred) : Cred.cred :=
  Cred.mkCred (Cred.uid c) (Cred.euid c) (Cred.suid c) (Cred.fsuid c) (Cred.gid c) (Cred.egid c) (Cred.sgid c) (Cred.fsgid c)
    (Cred.groups c) (Cred.cap_effective c) (Cred.cap_inheritable c) (Cred.cap_permitted c) (Cred.umask n).

(** [fork] behind the copy of the address space and the mappings. *)
Definition fork_copy (cp np : nat) : L Z :=
  on_p (updp np (set_parent (Some cp))) ;;
  let* cx := getx cp in
  updx np (set_layout (base cx) (sz cx) (stksz cx)) ;;
  let* c := on_p (getp cp) in
  on_p (updp np (set_tf (<[tf_x 0 := 0]> (tf c)))) ;;
  for_each (seq 0 NOFILE) (fork_fd cp np) ;;
  on_r (idup (cwd cx)) ;;
  updx np (set_cwd (cwd cx)) ;;
  on_p (updp np (fun n => set_pgid (pgid c) (set_sid (sid c) n))) ;;
  updx np (set_fdflag (fdflag cx)) ;;
  updx np (fun x => set_cr (inherit_cred (cr cx) (cr x)) x) ;;
  on_p (updp np (set_signal (signal c))) ;;
  updx np (set_tm no_times (Some np)) ;;
  let* n := on_p (getp np) in
  on_p (acquire ptable_lock) ;;
  updx cp (fun x => set_child (child x ++ [np]) x) ;;
  on_p (push_sched np) ;;
  on_p (updp np (set_state RUNNABLE)) ;;
  on_p (release ptable_lock) ;;
  ret (pid n).

Definition fork : L Z :=
  let* cp := on_p (thisproc me) in
  let* r := proc_alloc in
  match r with
  | None => ret (- ENOMEM)
  | Some np =>
      let* c := on_p (getp cp) in
      let* cx := getx cp in
      let* pg := on_r (uvm_copy (regions cx) (pgdir c)) in
      on_p (updp np (set_pgdir pg)) ;;
      if pg =? 0 then fork_undo np ;; ret (- ENOMEM) else
      let* e := if nregions cx =? 0 then ret 0 else
                let* (e, r, n) := on_r (copy_mmap_list (regions cx) (nregions cx)) in
                (if e <? 0 then ret tt else updx np (set_maps n r)) ;;
                ret e in
      if e <? 0 then on_r (vm_free (regions cx) pg) ;; fork_undo np ;; ret (s32 e) else
      fork_copy cp np
  end.

(** * Waiting for a child *)

(** The child [p] is one the call asks for. *)
Definition wait_match (cp : nat) (c p : proc) (pid_ : Z) : bool :=
  bool_decide (parent p = Some cp) &&
  (if 0 <? pid_ then pid p =? pid_
   else if pid_ =? 0 then pgid p =? pgid c
   else if negb (pid_ =? -1) then pgid p =? s32 (- pid_)
   else true).

Definition wait_ready (p : proc) (options : Z) : bool :=
  bool_decide (state p = ZOMBIE) || (truthy (Z.land options WUNTRACED) && bool_decide (state p = SLEEPING)) || truthy (Z.land options WNOHANG).

(** What [wait4] gives back: the result, and what it stores in [*status] and
    whether it clears [*ru] when these are not null. *)
Definition wait_result : Type := Z * option Z * bool.

Definition wait_reap (cp i : nat) (status ru : bool) : L wait_result :=
  let* cx := getx cp in
  let* x := getx i in
  let* p := on_p (getp i) in
  updx cp (fun y => set_child (filter (.≠ i) (child y)) y) ;;
  on_r (kfree (kstack x)) ;;
  on_r (vm_free (regions cx) (pgdir p)) ;;
  on_p (updp i (set_state UNUSED)) ;;
  on_p (release ptable_lock) ;;
  ret (pid p, if status then Some (s32 (Z.shiftl (xstate x) 8)) else None, ru).

(** The body of the outer loop, with the lock held. *)
Definition wait_scan (pid_ : Z) (status : bool) (options : Z) (ru : bool) : L wait_result :=
  let* cp := on_p (thisproc me) in
  let* c := on_p (getp cp) in
  let* cx := getx cp in
  if decide (child cx = []) then on_p (release ptable_lock) ;; ret (- ECHILD, None, false) else
  let* r := loop (child cx) (fun i =>
    let* p := on_p (getp i) in
    if wait_match cp c p pid_ && wait_ready p options then let* v := wait_reap cp i status ru in ret (Some v) else ret None) in
  match r with
  | Some v => ret v
  | None => on_p (sleep me (paddr cp) ptable_lock) ;; block
  end.

Definition wait4 (pid_ : Z) (status : bool) (options : Z) (ru : bool) : L wait_result :=
  on_p (acquire ptable_lock) ;;
  wait_scan pid_ status options ru.

(** * Exit *)

Definition exit_fd (cp : nat) (i : nat) : L unit :=
  let* c := getx cp in
  match default None (ofile c !! i) with
  | None => ret tt
  | Some f => on_r (fileclose f) ;; updx cp (fun x => set_ofile (<[i := None]> (ofile x)) x)
  end.

(** One abandoned child; a null [initproc] is written through. *)
Definition give_to_init (cp i : nat) : L unit :=
  let* p := on_p (getp i) in
  assert (bool_decide (parent p = Some cp)) ;;
  on_p (updp i (set_parent initproc)) ;;
  updx cp (fun x => set_child (filter (.≠ i) (child x)) x) ;;
  match initproc with
  | None => panic
  | Some ip =>
      updx ip (fun x => set_child (child x ++ [i]) x) ;;
      when (bool_decide (state p = ZOMBIE)) (on_p (wakeup1 (paddr ip)))
  end.

(** The part of [exit] that holds [ptable.lock]. *)
Definition exit_locked (cp : nat) (err : Z) : L unit :=
  on_p (acquire ptable_lock) ;;
  let* c := on_p (getp cp) in
  on_p (wakeup1 (match parent c with Some q => paddr q | None => 0 end)) ;;
  let* cx := getx cp in
  for_each (child cx) (give_to_init cp) ;;
  let* cx := getx cp in
  assert (bool_decide (child cx = [])) ;;
  updx cp (set_xstate (Z.land err 0x7f)) ;;
  on_p (updp cp (set_state ZOMBIE)) ;;
  on_p (swtch_scheduler me cp Exited).

Definition exit (err : Z) : L unit :=
  let* cp := on_p (thisproc me) in
  if decide (Some cp = initproc) then panic else
  for_each (seq 0 NOFILE) (exit_fd cp) ;;
  on_r begin_op ;;
  let* x := getx cp in
  on_r (iput (cwd x)) ;;
  on_r end_op ;;
  updx cp (set_cwd None) ;;
  exit_locked cp err.

(** * System calls *)

Definition SIGCHLD_ : Z := 17.

Definition sys_clone (flag : Z) : L Z := if negb (flag =? SIGCHLD_) then ret (-1) else fork.
Definition sys_exit (x0 : Z) : L unit := exit (s32 x0).
End Life.

(** * What the other components promise *)

(** What [fork] needs, where it calls them for the process [c] with the fields
    [cx]: in a state fit for the caller ([served]) [kalloc] returns; with the page
    [k] it gave ([with_stack]) [uvm_copy] returns, and a page may be given back;
    with the copy [pg] of the caller's tables ([with_space]) the mappings can
    be copied, the tables freed, and the caller's own files and directory
    shared. *)
Class Serves {R : Type} (K : Kernel R) (c : proc) (cx : info) : Type := {
  served : R -> Prop;
  with_stack : Z -> R -> Prop;
  with_space : Z -> Z -> R -> Prop;
  sv_kalloc r : served r -> exists k r', kalloc r = Ret k r' /\ (if k =? 0 then served r' else with_stack k r');
  sv_uvm_copy k r : with_stack k r ->
    exists pg r', uvm_copy (regions cx) (pgdir c) r = Ret pg r' /\ (if pg =? 0 then with_stack k r' else with_space k pg r');
  sv_kfree k r : with_stack k r -> exists r', kfree k r = Ret tt r' /\ served r';
  sv_copy_mmap_list k pg r : with_space k pg r ->
    exists e h m r', copy_mmap_list (regions cx) (nregions cx) r = Ret (e, h, m) r' /\ with_space k pg r';
  sv_vm_free k pg r : with_space k pg r -> exists r', vm_free (regions cx) pg r = Ret tt r' /\ with_stack k r';
  sv_filedup k pg f r : Some f ∈ ofile cx -> with_space k pg r -> exists r', filedup f r = Ret tt r' /\ with_space k pg r';
  sv_idup k pg r : with_space k pg r -> exists r', idup (cwd cx) r = Ret tt r' /\ with_space k pg r'
}.

(** Functions that always return; [total] below makes such a kernel of any. *)

Class Returns {R : Type} (K : Kernel R) : Prop := {
  ret_kalloc r : exists k r', kalloc r = Ret k r';
  ret_kfree k r : exists r', kfree k r = Ret tt r';
  ret_uvm_copy g d r : exists p r', uvm_copy g d r = Ret p r';
  ret_vm_free g d r : exists r', vm_free g d r = Ret tt r';
  ret_copy_mmap_list g n r : exists e h m r', copy_mmap_list g n r = Ret (e, h, m) r';
  ret_filedup f r : exists r', filedup f r = Ret tt r';
  ret_fileclose f r : exists r', fileclose f r = Ret tt r';
  ret_idup d r : exists r', idup d r = Ret tt r';
  ret_iput d r : exists r', iput d r = Ret tt r';
  ret_begin_op r : exists r', begin_op r = Ret tt r';
  ret_end_op r : exists r', end_op r = Ret tt r'
}.

Definition returns_serve {R : Type} {K : Kernel R} (RK : Returns K) (c : proc) (cx : info) : Serves K c cx.
Proof.
  refine {| served _ := True; with_stack _ _ := True; with_space _ _ _ := True |}.
  - intros r _. destruct (ret_kalloc r) as (k & r' & ->). exists k, r'. by destruct (k =? 0).
  - intros k r _. destruct (ret_uvm_copy (regions cx) (pgdir c) r) as (pg & r' & ->). exists pg, r'. by destruct (pg =? 0).
  - intros k r _. destruct (ret_kfree k r) as (r' & ->). by exists r'.
  - intros k pg r _. destruct (ret_copy_mmap_list (regions cx) (nregions cx) r) as (e & h & m & r' & ->). by exists e, h, m, r'.
  - intros k pg r _. destruct (ret_vm_free (regions cx) pg r) as (r' & ->). by exists r'.
  - intros k pg f r _ _. destruct (ret_filedup f r) as (r' & ->). by exists r'.
  - intros k pg r _. destruct (ret_idup (cwd cx) r) as (r' & ->). by exists r'.
Defined.

Lemma lock_in (h : gset Z) : ptable_lock ∈ h ∪ {[ptable_lock]}.
Proof. set_solver. Qed.

Lemma alter_insert {A} (f : A -> A) i x (l : list A) : alter f i (<[i := x]> l) = <[i := f x]> l.
Proof.
  apply list_eq. intros j. rewrite list_lookup_alter. destruct (decide (i = j)) as [->|Hne]; [|by rewrite !list_lookup_insert_ne].
  destruct (decide (j < length l)%nat) as [Hl|Hl]; [by rewrite !list_lookup_insert_eq|]. rewrite !list_insert_ge by lia.
  rewrite lookup_ge_None_2 by lia. done.
Qed.

Lemma alter_insert_ne {A} (f : A -> A) i j x (l : list A) : i <> j -> alter f i (<[j := x]> l) = <[j := x]> (alter f i l).
Proof.
  intros Hne. apply list_eq. intros k. rewrite list_lookup_alter. destruct (decide (j = k)) as [->|Hjk].
  - rewrite decide_False by done. destruct (decide (k < length l)%nat) as [Hl|Hl]; [rewrite !list_lookup_insert_eq; rewrite ?length_alter; done|].
    rewrite !list_insert_ge by (rewrite ?length_alter; lia). by rewrite list_lookup_alter_ne.
  - rewrite !list_lookup_insert_ne, list_lookup_alter by done. done.
Qed.

(** Looking up in a table with one entry replaced. *)
Lemma insert_cases {A} (i : nat) (x : A) (l : list A) j y : <[i := x]> l !! j = Some y -> (j = i /\ y = x) \/ (j <> i /\ l !! j = Some y).
Proof.
  destruct (decide (j = i)) as [->|Hne]; [|rewrite list_lookup_insert_ne by done; auto].
  intros H. apply list_lookup_insert_Some in H. naive_solver.
Qed.

(** [sleep] with [ptable.lock] gives it back. *)
Lemma sleep_held c s u p ch h l q k cp m :
  ptable_lock ∉ h -> cpus s !! c = Some u -> cproc u = Some p -> idle u <> Some p -> sleep c ch ptable_lock (set_held (h ∪ {[ptable_lock]}) s) = Ret tt (mkS l q k m cp (umem s)) -> m = h.
Proof.
  intros Hl Hx Hp Hi E. unfold sleep in E. erewrite bind_run in E by (by eapply thisproc_run). cbn zeta in E. pose proof (HASH_lt ch) as HH.
  destruct (Z.ltb_spec (Z.of_nat (HASH ch)) SQSIZE); [|unfold SQSIZE in *; lia]. erewrite bind_run in E by reflexivity.
  erewrite bind_run in E by (by apply (is_idle_run c _ u)). rewrite bool_decide_eq_false_2 in E by done. change (ptable_lock =? ptable_lock) with true in E. cbn [negb when] in E.
  repeat erewrite bind_run in E by reflexivity. unfold swtch_scheduler in E. repeat erewrite bind_run in E by reflexivity.
  rewrite release_held in E by (apply lock_in). injection E as _ _ _ <- _. apply leibniz_equiv. set_solver.
Qed.

Section Family.
Context {R : Type} {initproc : option nat}.

(** * The invariant *)

Definition used (p : proc) : Prop := state p <> UNUSED.
Definition alive (p : proc) : Prop := state p <> UNUSED /\ state p <> ZOMBIE.

(** The process table is a forest: the child lists and the parent pointers say
    the same, only processes that have not ended have children, and no two
    processes share a pid. *)
Record life_ok (s : lstate R) : Prop := {
  lo_sched : sched_ok (ps s);
  lo_len : length (px s) = length (procs (ps s));
  lo_nodup p x : px s !! p = Some x -> NoDup (child x);
  lo_child p x q : px s !! p = Some x -> q ∈ child x <-> exists y, procs (ps s) !! q = Some y /\ used y /\ parent y = Some p;
  lo_parent q y p : procs (ps s) !! q = Some y -> used y -> parent y = Some p -> exists z, procs (ps s) !! p = Some z /\ alive z;
  lo_init ip : initproc = Some ip -> exists z, procs (ps s) !! ip = Some z /\ alive z;
  lo_pid q y : procs (ps s) !! q = Some y -> used y -> 0 < pid y <= lastpid s;
  lo_pids q q' y y' : procs (ps s) !! q = Some y -> procs (ps s) !! q' = Some y' -> used y -> used y' -> pid y = pid y' -> q = q';
  lo_ofile p x : px s !! p = Some x -> length (ofile x) = NOFILE
}.

(** The process [p], not the idle process, runs on CPU [c]. *)
Definition user_on (s : pstate) (c p : nat) : Prop :=
  exists x, cpus s !! c = Some x /\ cproc x = Some p /\ inscheduler x = false /\ idle x <> Some p.

(** What scheduling leaves alone in a process. *)
Record kin (x y : proc) : Prop := {
  kin_pid : pid y = pid x;
  kin_parent : parent y = parent x;
  kin_used : used y <-> used x;
  kin_zombie : state y = ZOMBIE <-> state x = ZOMBIE
}.

#[export] Instance kin_refl : Reflexive kin.
Proof. intros x. by split. Qed.
#[export] Instance kin_trans : Transitive kin.
Proof. intros x y z [] []. split; [congruence|congruence|tauto|tauto]. Qed.

Lemma kin_alive x y : kin x y -> alive x <-> alive y.
Proof. intros []. unfold alive, used in *. tauto. Qed.

Lemma kin_alter f i (l : list proc) : (forall x, l !! i = Some x -> kin x (f x)) -> Forall2 kin l (alter f i l).
Proof.
  intros H. apply Forall2_same_length_lookup_2; [by rewrite length_alter|]. intros j x y Hx Hy. rewrite list_lookup_alter in Hy.
  case_decide as E; [|by replace y with x by congruence]. subst. rewrite Hx in Hy. injection Hy as <-. by apply H.
Qed.

Lemma kin_lookup l l' q y : Forall2 kin l l' -> l' !! q = Some y -> exists x, l !! q = Some x /\ kin x y.
Proof. intros H Hy. destruct (Forall2_lookup_r _ _ _ _ _ H Hy) as (x & ? & ?). by exists x. Qed.

Lemma kin_lookup_l l l' q x : Forall2 kin l l' -> l !! q = Some x -> exists y, l' !! q = Some y /\ kin x y.
Proof. intros H Hx. destruct (Forall2_lookup_l _ _ _ _ _ H Hx) as (y & ? & ?). by exists y. Qed.

(** Scheduling keeps the family. *)
Lemma life_kin s t : life_ok s -> sched_ok t -> Forall2 kin (procs (ps s)) (procs t) -> life_ok (set_ps t s).
Proof.
  intros [A1 A2 A3 A4 A5 A6 A7 A8 A9] Ht HF. pose proof (Forall2_length _ _ _ HF) as Hlen. split; cbn [ps px lastpid set_ps]; try done.
  - by rewrite <- Hlen.
  - intros p x q Hx. rewrite (A4 p x q Hx). split.
    + intros (y & Hy & Hu & Hp). destruct (kin_lookup_l _ _ _ _ HF Hy) as (y' & Hy' & []). exists y'. split; [done|]. split; [tauto|congruence].
    + intros (y' & Hy' & Hu & Hp). destruct (kin_lookup _ _ _ _ HF Hy') as (y & Hy & []). exists y. split; [done|]. split; [tauto|congruence].
  - intros q y' p Hy' Hu Hp. destruct (kin_lookup _ _ _ _ HF Hy') as (y & Hy & []).
    destruct (A5 q y p Hy ltac:(tauto) ltac:(congruence)) as (z & Hz & Ha). destruct (kin_lookup_l _ _ _ _ HF Hz) as (z' & Hz' & Hk).
    exists z'. split; [done|]. by apply (kin_alive z z').
  - intros ip Hi. destruct (A6 ip Hi) as (z & Hz & Ha). destruct (kin_lookup_l _ _ _ _ HF Hz) as (z' & Hz' & Hk). exists z'. split; [done|]. by apply (kin_alive z z').
  - intros q y' Hy' Hu. destruct (kin_lookup _ _ _ _ HF Hy') as (y & Hy & []). rewrite kin_pid0. apply (A7 q y Hy). tauto.
  - intros q q' y y' Hy Hy' Hu Hu' Hp. destruct (kin_lookup _ _ _ _ HF Hy) as (z & Hz & []), (kin_lookup _ _ _ _ HF Hy') as (z' & Hz' & []).
    apply (A8 q q' z z' Hz Hz'); [tauto|tauto|congruence].
Qed.

(** * Scheduling *)

Lemma placed_alive loc s p pl x : sched_ok_at loc s -> loc p = Some pl -> procs s !! p = Some x -> alive x.
Proof.
  intros HO Hl Hx. pose proof (so_states _ _ HO p x Hx) as H. rewrite Hl in H. unfold alive.
  destruct pl; cbn in H; destruct_and?; naive_solver congruence.
Qed.

Lemma alive_kin x y : alive x -> alive y -> pid y = pid x -> parent y = parent x -> kin x y.
Proof. intros [] []. by split. Qed.

Lemma runs_alive s c p x : sched_ok s -> runs_on s c p -> procs s !! p = Some x -> alive x.
Proof. intros [loc HO] Hr Hx. destruct (runs_place loc s c p HO Hr) as [Hl|Hl]; by eapply placed_alive. Qed.

Lemma thisproc_inv c s p s1 : thisproc c s = Ret p s1 -> s1 = s /\ exists x, cpus s !! c = Some x /\ cproc x = Some p.
Proof. unfold thisproc, thiscpu, bind. destruct (cpus s !! c) as [x|] eqn:E; [|done]. destruct (cproc x) eqn:Ep; [|done]. intros [= -> ->]. split; [done|]. by exists x. Qed.

Lemma yield_kin s c x s' : sched_ok s -> cpus s !! c = Some x -> inscheduler x = false -> yield c s = Ret tt s' -> Forall2 kin (procs s) (procs s').
Proof.
  intros Hok Hx Hi E. pose proof E as E'. unfold yield in E'. apply bind_Ret in E' as (p & s1 & Ht & E').
  apply thisproc_inv in Ht as [-> (x' & Hx' & Hp)]. replace x' with x in Hp by congruence.
  apply bind_Ret in E' as ([] & s2 & Ha & _). apply acquire_Ret in Ha as [Hl _]. rewrite (yield_run c s x p Hx Hp Hl) in E. injection E as <-. cbn [procs].
  rewrite list_alter_alter_eq. apply kin_alter. intros y Hy. pose proof (runs_alive s c p y Hok (running_cpu s c x p Hx Hp Hi) Hy). by apply alive_kin.
Qed.

Lemma sleep_kin s c x ch lk s' : sched_ok s -> cpus s !! c = Some x -> inscheduler x = false -> sleep c ch lk s = Ret tt s' -> Forall2 kin (procs s) (procs s').
Proof.
  intros Hok Hx Hi E. pose proof E as E'. unfold sleep in E'. apply bind_Ret in E' as (p & s1 & Ht & _).
  apply thisproc_inv in Ht as [-> (x' & Hx' & Hp)]. replace x' with x in Hp by congruence.
  destruct (sleep_run c s s' x p ch lk Hx Hp E) as [_ [h ->]]. cbn [procs].
  rewrite !list_alter_alter_eq. apply kin_alter. intros y Hy. pose proof (runs_alive s c p y Hok (running_cpu s c x p Hx Hp Hi) Hy). by apply alive_kin.
Qed.

Lemma schedule_kin s c x s' : sched_ok s -> cpus s !! c = Some x -> schedule c s = Ret tt s' -> Forall2 kin (procs s) (procs s').
Proof.
  intros [loc HO] Hx E. destruct (schedule_run c s s' x Hx E) as (p & y & h & Hy & Hq & Hpr & _).
  assert (alive y) as Ha.
  { destruct Hq as [Hq|(_ & _ & Hi)]; [apply (placed_alive loc s p AtSched y HO); [|done]|apply (placed_alive loc s p (AtIdle c) y HO); [|done]].
    - apply (so_sched _ _ HO). rewrite Hq. by left.
    - apply (so_idle _ _ HO). by exists x. }
  assert (Forall2 kin (procs s) (alter (set_state RUNNING) p (procs s))) as HF.
  { apply kin_alter. intros y' Hy'. replace y' with y by congruence. by apply alive_kin. }
  rewrite Hpr. by destruct (ctx y).
Qed.

Lemma wakeup1_kin s ch s' : sched_ok s -> wakeup1 ch s = Ret tt s' -> sched_ok s' /\ Forall2 kin (procs s) (procs s').
Proof.
  intros Hok E. destruct (wakeup1_run s ch Hok) as (s2 & E2 & Hok2 & _ & _ & Hp & _). rewrite E2 in E. injection E as <-. split; [done|].
  assert (forall q, is_Some (procs s2 !! q) <-> is_Some (procs s !! q)) as Hs by (intros q; rewrite Hp; case_decide; [by rewrite fmap_is_Some|done]).
  apply Forall2_same_length_lookup_2.
  { apply Nat.le_antisymm; apply Nat.nlt_ge; intros Hlt; pose proof Hlt as Hlt'; apply lookup_lt_is_Some in Hlt; apply Hs, lookup_lt_is_Some in Hlt; lia. }
  intros q x y Hx Hy. rewrite Hp, Hx in Hy. case_decide as Hd; [|by injection Hy as <-]. injection Hy as <-.
  destruct Hd as [Hq _], Hok as [loc HO]. apply (so_sleep _ _ HO) in Hq. apply alive_kin; [by eapply placed_alive|done..].
Qed.

Lemma wakeup_kin s ch s' : sched_ok s -> wakeup ch s = Ret tt s' -> Forall2 kin (procs s) (procs s').
Proof.
  intros Hok E. unfold wakeup in E. apply bind_Ret in E as ([] & s1 & Ha & E). apply acquire_Ret in Ha as [_ ->].
  apply bind_Ret in E as ([] & s2 & E2 & E). apply release_Ret in E as ->.
  destruct (wakeup1_kin _ ch s2 (held_ok _ _ Hok) E2) as [_ HF]. exact HF.
Qed.

Lemma trace_kin s d s' : sched_ok s -> trace s d s' -> Forall2 kin (procs s) (procs s').
Proof.
  intros Hok Ht. revert Hok. induction Ht as [s|s c x s1 d s' Hx Hi E _ IH|s c x s1 d s' Hx Hi E _ IH|s c x ch lk s1 d s' Hx Hi E _ IH|
    s ch s1 d s' E _ IH|s lk s1 d s' E _ IH|s lk s1 d s' E _ IH]; intros Hok; [done|..].
  - etransitivity; [by eapply schedule_kin|]. apply IH. by eapply schedule_ok.
  - etransitivity; [by eapply yield_kin|]. apply IH. by eapply yield_ok.
  - etransitivity; [by eapply sleep_kin|]. apply IH. by eapply sleep_ok.
  - etransitivity; [by eapply wakeup_kin|]. apply IH. by eapply wakeup_Ret.
  - apply acquire_Ret in E as [_ ->]. by apply IH, held_ok.
  - apply release_Ret in E as ->. by apply IH, held_ok.
Qed.

(** * Work on one slot of the table *)

(** The state [s] with the slot [np] and the other components replaced. *)
Definition at_slot (np : nat) (n : proc) (x : info) (r : R) (s : lstate R) : lstate R :=
  mkL R (set_procs (<[np := n]> (procs (ps s))) (ps s)) (<[np := x]> (px s)) (lastpid s) r.

Section Slot.
Context (np : nat) (n : proc) (x : info) (r : R) (s : lstate R).

Lemma slot_updp f : on_p (updp np f) (at_slot np n x r s) = Ret tt (at_slot np (f n) x r s).
Proof. unfold on_p, zoom, updp, modify, at_slot, set_ps, set_procs. cbn. by rewrite alter_insert. Qed.

Lemma slot_updx f : updx np f (at_slot np n x r s) = Ret tt (at_slot np n (f x) r s).
Proof. unfold updx, modify, at_slot, set_px. cbn. by rewrite alter_insert. Qed.

Lemma slot_updx_ne f q : q <> np -> updx q f (at_slot np n x r s) = Ret tt (at_slot np n x r (set_px (alter f q (px s)) s)).
Proof. intros Hq. unfold updx, modify, at_slot, set_px. cbn. by rewrite alter_insert_ne. Qed.

Lemma slot_on_r {A} (m : M R A) a r' : m r = Ret a r' -> on_r m (at_slot np n x r s) = Ret a (at_slot np n x r' s).
Proof. intros E. unfold on_r, zoom. cbn [res at_slot]. by rewrite E. Qed.

Lemma slot_getp : (np < length (procs (ps s)))%nat -> on_p (getp np) (at_slot np n x r s) = Ret n (at_slot np n x r s).
Proof. intros Hl. unfold on_p, zoom, getp. cbn [ps procs at_slot set_procs]. by rewrite list_lookup_insert_eq. Qed.

Lemma slot_getp_ne q y : q <> np -> procs (ps s) !! q = Some y -> on_p (getp q) (at_slot np n x r s) = Ret y (at_slot np n x r s).
Proof. intros Hq Hy. unfold on_p, zoom, getp. cbn [ps procs at_slot set_procs]. by rewrite list_lookup_insert_ne, Hy. Qed.

Lemma slot_getx : (np < length (px s))%nat -> getx np (at_slot np n x r s) = Ret x (at_slot np n x r s).
Proof. intros Hl. unfold getx. cbn [px at_slot]. by rewrite list_lookup_insert_eq. Qed.

Lemma slot_getx_ne q y : q <> np -> px s !! q = Some y -> getx q (at_slot np n x r s) = Ret y (at_slot np n x r s).
Proof. intros Hq Hy. unfold getx. cbn [px at_slot]. by rewrite list_lookup_insert_ne, Hy. Qed.

Lemma slot_acquire : ptable_lock ∉ held (ps s) ->
  on_p (acquire ptable_lock) (at_slot np n x r s) = Ret tt (at_slot np n x r (set_ps (set_held (held (ps s) ∪ {[ptable_lock]}) (ps s)) s)).
Proof. intros Hl. unfold on_p, zoom. rewrite acquire_free by done. done. Qed.

Lemma slot_release : ptable_lock ∈ held (ps s) ->
  on_p (release ptable_lock) (at_slot np n x r s) = Ret tt (at_slot np n x r (set_ps (set_held (held (ps s) ∖ {[ptable_lock]}) (ps s)) s)).
Proof. intros Hl. unfold on_p, zoom. rewrite release_held by done. done. Qed.

Lemma slot_push_sched i : on_p (push_sched i) (at_slot np n x r s) = Ret tt (at_slot np n x r (set_ps (set_sched (sched_que (ps s) ++ [i]) (ps s)) s)).
Proof. done. Qed.
End Slot.

Lemma at_slot_id np n x s : procs (ps s) !! np = Some n -> px s !! np = Some x -> at_slot np n x (res s) s = s.
Proof. intros Hn Hx. unfold at_slot. rewrite !list_insert_id by done. destruct s as [[] ? ? ?]. done. Qed.

Lemma held_back (s : lstate R) : ptable_lock ∉ held (ps s) ->
  set_ps (set_held ((held (ps s) ∪ {[ptable_lock]}) ∖ {[ptable_lock]}) (ps s)) s = s.
Proof. intros H. rewrite set_held_same by done. by destruct s as [[] ? ? ?]. Qed.

(** * Allocation *)

(** * Fork *)

(** The child's entry: what [fork] makes of the embryo [n] and [x]. *)
Definition forked_proc (cp : nat) (c n : proc) : proc :=
  mkP RUNNABLE (pid n) (pgid c) (sid c) (Some cp) (chan n) (killed n) (paused n) (pgdir n) (<[tf_x 0 := 0]> (tf c)) (oldtf n) (signal c) (ctx n).
Definition forked_info (np : nat) (cx x : info) : info :=
  mkX (kstack x) (xstate x) (child x) (base cx) (sz cx) (stksz cx) (fdflag cx) (ofile cx) (cwd cx) (inherit_cred (cr cx) (cr x))
    no_times (Some np) (nregions x) (regions x).

(** The rest of the table: the child is queued and linked to its parent. *)
Definition adopt (cp np : nat) (s : lstate R) : lstate R :=
  set_ps (set_sched (sched_que (ps s) ++ [np]) (ps s)) (set_px (alter (fun x => set_child (child x ++ [np]) x) cp (px s)) s).

Lemma set_lastpid_id (s : lstate R) : set_lastpid (lastpid s) s = s.
Proof. by destruct s. Qed.

(** A slot that is not in use is nowhere, and nobody's parent. *)
Lemma unused_nowhere loc s p x : sched_ok_at loc s -> procs s !! p = Some x -> ~ alive x -> loc p = None.
Proof. intros HO Hx Hu. destruct (loc p) as [pl|] eqn:El; [|done]. destruct Hu. by eapply placed_alive. Qed.

Lemma unused_childless s np n x : life_ok s -> procs (ps s) !! np = Some n -> ~ alive n -> px s !! np = Some x -> child x = [].
Proof.
  intros HL Hn Hu Hx. destruct (child x) as [|q l] eqn:E; [done|]. exfalso.
  destruct (proj1 (lo_child s HL np x q Hx)) as (y & Hy & Huy & Hp); [rewrite E; by left|].
  destruct (lo_parent s HL q y np Hy Huy Hp) as (z & Hz & Ha). by replace z with n in Ha by congruence.
Qed.

Lemma unused_slot_sched np n n0 s :
  sched_ok s -> procs s !! np = Some n0 -> state n0 = UNUSED -> place_state None n -> sched_ok (set_procs (<[np := n]> (procs s)) s).
Proof.
  intros [loc HO] Hn Hu Hp. exists loc. apply (same_ok loc s _ HO); try done; [apply length_insert|].
  intros p x x' Hx Hx' Hst. cbn in Hx'. destruct (decide (p = np)) as [->|Hne].
  - rewrite list_lookup_insert_eq in Hx' by (by eapply lookup_lt_Some). injection Hx' as <-.
    rewrite (unused_nowhere loc s np n0 HO Hn); [done|]. by intros [].
  - rewrite list_lookup_insert_ne in Hx' by done. congruence.
Qed.

Lemma life_failed s np n0 n x r lp :
  life_ok s -> procs (ps s) !! np = Some n0 -> state n0 = UNUSED -> state n = UNUSED -> child x = [] -> length (ofile x) = NOFILE -> lastpid s <= lp ->
  life_ok (at_slot np n x r (set_lastpid lp s)).
Proof.
  intros HL Hn0 Hu0 Hu Hc Ho Hlp. pose proof HL as [A1 A2 A3 A4 A5 A6 A7 A8 A9]. split; cbn [ps px lastpid at_slot set_lastpid procs set_procs].
  - eapply unused_slot_sched; [done|done|done|by left].
  - by rewrite !length_insert.
  - intros p y Hy. apply insert_cases in Hy as [[-> ->]|[_ Hy]]; [rewrite Hc; constructor|by eapply A3].
  - intros p y q Hy. assert (forall z, <[np := n]> (procs (ps s)) !! q = Some z /\ used z <-> procs (ps s) !! q = Some z /\ used z) as Hz.
    { intros z. split; intros [Hz Hzu].
      - by apply insert_cases in Hz as [[-> ->]|[_ Hz]].
      - split; [|done]. rewrite list_lookup_insert_ne; [done|]. intros <-. rewrite Hn0 in Hz. by injection Hz as <-. }
    destruct (decide (p = np)) as [->|Hne].
    + apply insert_cases in Hy as [[_ ->]|[? _]]; [|done]. rewrite Hc. split; [intros Hq; by apply not_elem_of_nil in Hq|].
      intros (z & Hz1 & Hz2 & Hz3). destruct (proj1 (Hz z) (conj Hz1 Hz2)) as [Hz4 _].
      destruct (A5 q z np Hz4 Hz2 Hz3) as (w & Hw & [Hw' _]). rewrite Hn0 in Hw. by injection Hw as <-.
    + apply insert_cases in Hy as [[? _]|[_ Hy]]; [done|]. rewrite (A4 p y q Hy). split; intros (z & Hz1 & Hz2 & Hz3); exists z.
      * by destruct (proj2 (Hz z) (conj Hz1 Hz2)).
      * by destruct (proj1 (Hz z) (conj Hz1 Hz2)).
  - intros q y p Hy Hyu Hp. apply insert_cases in Hy as [[-> ->]|[_ Hy]]; [done|]. destruct (A5 q y p Hy Hyu Hp) as (z & Hz & Ha). exists z. split; [|done].
    rewrite list_lookup_insert_ne; [done|]. intros <-. rewrite Hn0 in Hz. injection Hz as <-. by destruct Ha.
  - intros ip Hi. destruct (A6 ip Hi) as (z & Hz & Ha). exists z. split; [|done]. rewrite list_lookup_insert_ne; [done|].
    intros <-. rewrite Hn0 in Hz. injection Hz as <-. by destruct Ha.
  - intros q y Hy Hyu. apply insert_cases in Hy as [[-> ->]|[_ Hy]]; [done|]. pose proof (A7 q y Hy Hyu). lia.
  - intros q q' y y' Hy Hy' Hyu Hyu' Hp. apply insert_cases in Hy as [[-> ->]|[_ Hy]]; [done|]. apply insert_cases in Hy' as [[-> ->]|[_ Hy']]; [done|]. by eapply A8.
  - intros p y Hy. apply insert_cases in Hy as [[-> ->]|[_ Hy]]; [done|by eapply A9].
Qed.

Lemma nowhere loc s p : sched_ok_at loc s -> loc p = None ->
  p ∉ sched_que s /\ (forall h, p ∉ default [] (slpque s !! h)) /\ (forall c, ~ runs_on s c p) /\ (forall c, ~ idle_of s c p).
Proof.
  intros HO Hl. split_and!.
  - rewrite (so_sched _ _ HO). congruence.
  - intros h. rewrite (so_sleep _ _ HO). congruence.
  - intros c Hr. destruct (runs_place loc s c p HO Hr); congruence.
  - intros c Hi. apply (so_idle _ _ HO) in Hi. congruence.
Qed.

Lemma adopt_sched np n n0 s :
  sched_ok s -> procs s !! np = Some n0 -> state n0 = UNUSED -> place_state (Some AtSched) n ->
  sched_ok (set_procs (<[np := n]> (procs s)) (set_sched (sched_que s ++ [np]) s)).
Proof.
  intros [loc HO] Hn Hu Hp. assert (loc np = None) as Hloc by (eapply unused_nowhere; [done|done|]; by intros []).
  destruct (nowhere loc s np HO Hloc) as (N1 & N2 & N3 & N4). pose proof (lookup_lt_Some _ _ _ Hn) as Hlt.
  eexists. apply (move_ok loc s _ np (Some AtSched) HO); cbn [procs set_procs sched_que set_sched slpque]; try done.
  - intros q Hq. by rewrite list_lookup_insert_ne.
  - intros x Hx. rewrite list_lookup_insert_eq in Hx by done. by injection Hx as <-.
  - by rewrite list_lookup_insert_eq.
  - intros q Hq. rewrite elem_of_snoc. split; [|auto]. by intros [|].
  - rewrite elem_of_snoc. split; auto.
  - apply NoDup_snoc_new; [apply HO|done].
  - intros h. split; [|done]. intros Hc. by apply N2 in Hc.
  - apply HO.
  - intros c q Hq Hl. by apply (so_cpu_runs _ _ HO).
  - intros c. split; [|done]. intros Hc. by apply N3 in Hc.
Qed.

Lemma life_made s np n0 n x r cp c lp :
  life_ok s -> procs (ps s) !! np = Some n0 -> state n0 = UNUSED -> procs (ps s) !! cp = Some c -> alive c ->
  state n = RUNNABLE -> ctx n <> Exited -> parent n = Some cp -> pid n = lp -> lastpid s < lp -> child x = [] -> length (ofile x) = NOFILE ->
  life_ok (at_slot np n x r (adopt cp np (set_lastpid lp s))).
Proof.
  intros HL Hn0 Hu0 Hc Ha Hst Hcx Hpar Hpid Hlp Hch Ho. pose proof HL as [A1 A2 A3 A4 A5 A6 A7 A8 A9]. pose proof (lookup_lt_Some _ _ _ Hn0) as Hlt.
  assert (cp <> np) as Hne by (intros ->; rewrite Hn0 in Hc; injection Hc as <-; by destruct Ha).
  assert (used n) as Hun by (unfold used; congruence).
  assert (forall q z, procs (ps s) !! q = Some z -> used z -> q <> np) as Hold by (intros q z Hz Hzu ->; rewrite Hn0 in Hz; by injection Hz as <-).
  assert (forall q z, procs (ps s) !! q = Some z -> alive z -> <[np := n]> (procs (ps s)) !! q = Some z) as Hkeep.
  { intros q z Hz [Hz1 _]. rewrite list_lookup_insert_ne; [done|]. intros E. by apply (Hold q z Hz Hz1). }
  assert (forall p y, <[np := x]> (alter (fun x => set_child (child x ++ [np]) x) cp (px s)) !! p = Some y ->
    p = np /\ y = x \/ p <> np /\ exists y0, px s !! p = Some y0 /\ y = if decide (p = cp) then set_child (child y0 ++ [np]) y0 else y0) as Hpx.
  { intros p y Hy. apply insert_cases in Hy as [?|[Hp Hy]]; [by left|]. right. split; [done|]. rewrite list_lookup_alter in Hy.
    destruct (decide (p = cp)) as [->|Hpc]; [rewrite decide_True in Hy by done|rewrite decide_False in Hy by done; by exists y].
    destruct (px s !! cp) as [y0|]; [|done]. injection Hy as <-. by exists y0. }
  split; cbn [ps px lastpid at_slot adopt set_lastpid procs set_procs set_ps set_sched set_px].
  - eapply (adopt_sched np n n0 (ps s)); [done|done|done|]. split; [by left|done].
  - by rewrite !length_insert, length_alter.
  - intros p y Hy. destruct (Hpx p y Hy) as [[-> ->]|[Hp (y0 & Hy0 & ->)]]; [rewrite Hch; constructor|]. case_decide; [|by eapply A3]. subst p. cbn [child set_child].
    apply NoDup_snoc_new; [by eapply A3|]. rewrite (A4 cp y0 np Hy0). intros (z & Hz & Hzu & _). by apply (Hold np z).
  - intros p y q Hy. destruct (Hpx p y Hy) as [[-> ->]|[Hp (y0 & Hy0 & ->)]].
    { rewrite Hch. split; [intros Hq; by apply not_elem_of_nil in Hq|]. intros (z & Hz & Hzu & Hzp). exfalso. apply insert_cases in Hz as [[-> ->]|[_ Hz]]; [congruence|].
      destruct (A5 q z np Hz Hzu Hzp) as (w & Hw & [Hw' _]). rewrite Hn0 in Hw. by injection Hw as <-. }
    assert (q ∈ child y0 <-> exists z, q <> np /\ <[np := n]> (procs (ps s)) !! q = Some z /\ used z /\ parent z = Some p) as Hq.
    { rewrite (A4 p y0 q Hy0). split; intros (z & Hz).
      - destruct Hz as (Hz & Hzu & Hzp). pose proof (Hold q z Hz Hzu). exists z. by rewrite list_lookup_insert_ne.
      - destruct Hz as (Hqn & Hz & Hzu & Hzp). rewrite list_lookup_insert_ne in Hz by done. by exists z. }
    case_decide as Hpc; [subst p; cbn [child set_child]; rewrite elem_of_snoc|]; rewrite Hq; split.
    + intros [(z & _ & ?)| ->]; [by exists z|]. exists n. by rewrite list_lookup_insert_eq.
    + intros (z & Hz). destruct (decide (q = np)); [by right|left; by exists z].
    + intros (z & _ & ?). by exists z.
    + intros (z & Hz & Hzu & Hzp). exists z. split; [|done]. intros ->. rewrite list_lookup_insert_eq in Hz by done. injection Hz as <-. congruence.
  - intros q y p Hy Hyu Hp. apply insert_cases in Hy as [[-> ->]|[_ Hy]]; [exists c|destruct (A5 q y p Hy Hyu Hp) as (z & Hz & Hza); exists z].
    + split; [|done]. replace p with cp by congruence. by apply Hkeep.
    + split; [|done]. by apply Hkeep.
  - intros ip Hi. destruct (A6 ip Hi) as (z & Hz & Hza). exists z. split; [|done]. by apply Hkeep.
  - intros q y Hy Hyu. apply insert_cases in Hy as [[-> ->]|[_ Hy]]; [|pose proof (A7 q y Hy Hyu); lia]. pose proof (A7 cp c Hc (proj1 Ha)). lia.
  - intros q q' y y' Hy Hy' Hyu Hyu' Hp. apply insert_cases in Hy as [[-> ->]|[_ Hy]]; apply insert_cases in Hy' as [[-> ->]|[_ Hy']]; [done|..].
    + pose proof (A7 q' y' Hy' Hyu'). lia.
    + pose proof (A7 q y Hy Hyu). lia.
    + by eapply A8.
  - intros p y Hy. destruct (Hpx p y Hy) as [[-> ->]|[_ (y0 & Hy0 & ->)]]; [done|]. case_decide; [|by eapply A9]. cbn. by eapply A9.
Qed.

(** What the caller needs of the process that runs. *)
Lemma caller s cp c0 : life_ok s -> user_on (ps s) c0 cp -> exists c cx, procs (ps s) !! cp = Some c /\ px s !! cp = Some cx /\ alive c /\ length (ofile cx) = NOFILE.
Proof.
  intros HL (y & Hy & Hyp & Hys & _). destruct (lo_sched s HL) as [loc HO]. pose proof (running_cpu _ _ _ _ Hy Hyp Hys) as Hr.
  destruct (runs_place loc (ps s) c0 cp HO Hr) as [Hl|Hl]; (destruct (so_real _ _ HO cp ltac:(by rewrite Hl)) as [c Hc];
    destruct (lookup_lt_is_Some_2 (px s) cp) as [cx Hcx]; [rewrite (lo_len s HL); by eapply lookup_lt_Some|];
    exists c, cx; split; [done|]; split; [done|]; split; [by eapply placed_alive|by eapply lo_ofile]).
Qed.

(** * Exit *)

(** Nothing of the invariant but the child lists is in [info]. *)
Lemma life_px s l r :
  life_ok s -> length l = length (px s) ->
  (forall p y, l !! p = Some y -> exists y0, px s !! p = Some y0 /\ child y = child y0 /\ length (ofile y) = NOFILE) ->
  life_ok (set_res r (set_px l s)).
Proof.
  intros [A1 A2 A3 A4 A5 A6 A7 A8 A9] Hl H. split; cbn [ps px lastpid set_res set_px]; try done; [lia|..].
  - intros p y Hy. destruct (H p y Hy) as (y0 & Hy0 & -> & _). by eapply A3.
  - intros p y q Hy. destruct (H p y Hy) as (y0 & Hy0 & -> & _). by apply A4.
  - intros p y Hy. by destruct (H p y Hy) as (y0 & Hy0 & _ & ?).
Qed.

(** The process [i] passes from the list of [cp] to that of [ip]. *)
Definition reparent (cp ip i : nat) (s : lstate R) : lstate R :=
  set_px (alter (fun x => set_child (child x ++ [i]) x) ip (alter (fun x => set_child (filter (.≠ i) (child x)) x) cp (px s)))
    (set_ps (set_procs (alter (set_parent (Some ip)) i (procs (ps s))) (ps s)) s).

Lemma reparent_procs ip i (l : list proc) q z :
  alter (set_parent (Some ip)) i l !! q = Some z <-> exists z0, l !! q = Some z0 /\ z = if decide (q = i) then set_parent (Some ip) z0 else z0.
Proof.
  rewrite list_lookup_alter. destruct (decide (q = i)) as [->|Hne].
  - rewrite decide_True by done. destruct (l !! i) as [z0|]; cbn; naive_solver.
  - rewrite decide_False by done. naive_solver.
Qed.

Lemma reparent_px s cp ip i p x : cp <> ip ->
  px (reparent cp ip i s) !! p = Some x <-> exists x0, px s !! p = Some x0 /\
    x = if decide (p = ip) then set_child (child x0 ++ [i]) x0 else if decide (p = cp) then set_child (filter (.≠ i) (child x0)) x0 else x0.
Proof.
  intros Hne. cbn [px reparent set_px]. rewrite list_lookup_alter. destruct (decide (p = ip)) as [->|Hp].
  - rewrite decide_True, list_lookup_alter_ne by done. destruct (px s !! ip); cbn; naive_solver.
  - rewrite decide_False by done. rewrite list_lookup_alter. destruct (decide (p = cp)) as [->|Hpc].
    + rewrite decide_True by done. destruct (px s !! cp); cbn; naive_solver.
    + rewrite decide_False by done. naive_solver.
Qed.

Lemma reparent_sched s ip i : sched_ok s -> sched_ok (set_procs (alter (set_parent (Some ip)) i (procs s)) s).
Proof.
  intros [loc HO]. exists loc. apply (same_ok loc s _ HO); try done; [apply length_alter|].
  intros p x x' Hx Hx' Hst. cbn in Hx'. apply reparent_procs in Hx' as (z & Hz & ->). replace z with x by congruence. by case_decide.
Qed.

Lemma reparent_ok s cp ip i cx :
  life_ok s -> px s !! cp = Some cx -> i ∈ child cx -> cp <> ip -> initproc = Some ip -> life_ok (reparent cp ip i s).
Proof.
  intros HL Hcx Hi Hne Hip. pose proof HL as [A1 A2 A3 A4 A5 A6 A7 A8 A9]. destruct (proj1 (A4 cp cx i Hcx) Hi) as (yi & Hyi & Hui & Hpi).
  assert (forall q z, alter (set_parent (Some ip)) i (procs (ps s)) !! q = Some z -> exists z0, procs (ps s) !! q = Some z0 /\ pid z = pid z0 /\ state z = state z0) as Hback.
  { intros q z Hz. apply reparent_procs in Hz as (z0 & Hz0 & ->). exists z0. by case_decide. }
  assert (forall p z, procs (ps s) !! p = Some z -> alive z -> exists z', alter (set_parent (Some ip)) i (procs (ps s)) !! p = Some z' /\ alive z') as Hkeep.
  { intros p z Hz Ha. eexists. split; [apply reparent_procs; by exists z|]. by case_decide. }
  assert (forall p q y0, px s !! p = Some y0 -> q <> i -> q ∈ child y0 <-> exists z, alter (set_parent (Some ip)) i (procs (ps s)) !! q = Some z /\ used z /\ parent z = Some p) as Hother.
  { intros p q y0 Hy0 Hqi. rewrite (A4 p y0 q Hy0). by rewrite list_lookup_alter_ne. }
  split.
  - by apply reparent_sched.
  - cbn. by rewrite !length_alter.
  - intros p x Hx. apply reparent_px in Hx as (x0 & Hx0 & ->); [|done]. repeat case_decide; subst; cbn [child set_child]; [|by apply NoDup_filter, (A3 cp)|by apply (A3 p)].
    apply NoDup_snoc_new; [by apply (A3 ip)|]. rewrite (A4 ip x0 i Hx0). intros (z & Hz & _ & Hzp). congruence.
  - intros p x q Hx. apply reparent_px in Hx as (x0 & Hx0 & ->); [|done]. cbn [ps reparent set_px set_ps procs set_procs].
    destruct (decide (q = i)) as [->|Hqi].
    + assert ((exists z, alter (set_parent (Some ip)) i (procs (ps s)) !! i = Some z /\ used z /\ parent z = Some p) <-> p = ip) as ->.
      { split.
        - intros (z & Hz & _ & Hzp). apply reparent_procs in Hz as (z0 & _ & ->). rewrite decide_True in Hzp by done. cbn in Hzp. congruence.
        - intros ->. exists (set_parent (Some ip) yi). split; [|done]. apply reparent_procs. exists yi. by rewrite decide_True. }
      destruct (decide (p = ip)); [cbn [child set_child]; rewrite elem_of_snoc; naive_solver|].
      split; [|done]. destruct (decide (p = cp)) as [->|Hpc]; [cbn [child set_child]; rewrite list_elem_of_filter; naive_solver|].
      rewrite (A4 p x0 i Hx0). intros (z & Hz & _ & Hzp). congruence.
    + rewrite <- (Hother p q x0 Hx0 Hqi). repeat case_decide; subst; cbn [child set_child]; [rewrite elem_of_snoc; naive_solver|rewrite list_elem_of_filter; naive_solver|done].
  - cbn [ps reparent set_px set_ps procs set_procs]. intros q y p Hy Hu Hp. apply reparent_procs in Hy as (y0 & Hy0 & ->). case_decide; subst.
    + cbn in Hp. injection Hp as <-. destruct (A6 ip Hip) as (z & Hz & Ha). by eapply Hkeep.
    + destruct (A5 q y0 p Hy0 Hu Hp) as (z & Hz & Ha). by eapply Hkeep.
  - cbn [ps reparent set_px set_ps procs set_procs]. intros p Hp. destruct (A6 p Hp) as (z & Hz & Ha). by eapply Hkeep.
  - cbn [ps reparent set_px set_ps procs set_procs lastpid]. intros q y Hy Hu. destruct (Hback q y Hy) as (z & Hz & -> & Hs). apply (A7 q z Hz). unfold used in *. congruence.
  - cbn [ps reparent set_px set_ps procs set_procs]. intros q q' y y' Hy Hy' Hu Hu' Hp. destruct (Hback q y Hy) as (z & Hz & Hz1 & Hz2), (Hback q' y' Hy') as (z' & Hz' & Hz3 & Hz4).
    apply (A8 q q' z z' Hz Hz'); unfold used in *; congruence.
  - intros p x Hx. apply reparent_px in Hx as (x0 & Hx0 & ->); [|done]. repeat case_decide; exact (A9 p x0 Hx0).
Qed.

(** What the steps of [exit] before the last leave alone. *)
Record cousin (x y : proc) : Prop := {
  co_pid : pid y = pid x;
  co_used : used y <-> used x;
  co_zombie : state y = ZOMBIE <-> state x = ZOMBIE
}.

Record quiet (s s' : lstate R) : Prop := {
  qu_procs : Forall2 cousin (procs (ps s)) (procs (ps s'));
  qu_info p x' : px s' !! p = Some x' -> exists x, px s !! p = Some x /\ xstate x' = xstate x;
  qu_pid : lastpid s' = lastpid s;
  qu_cpus : cpus (ps s') = cpus (ps s);
  qu_held : held (ps s') = held (ps s)
}.

#[export] Instance cousin_refl : Reflexive cousin.
Proof. intros x. by split. Qed.
#[export] Instance cousin_trans : Transitive cousin.
Proof. intros x y z [] []. split; [congruence|tauto|tauto]. Qed.

#[export] Instance quiet_refl : Reflexive quiet.
Proof. intros s. split; try done. intros p x Hx. by exists x. Qed.
#[export] Instance quiet_trans : Transitive quiet.
Proof.
  intros s1 s2 s3 [A1 A2 A3 A4 A5] [B1 B2 B3 B4 B5]. split; [by etransitivity| |congruence..].
  intros p x3 H3. destruct (B2 p x3 H3) as (x2 & H2 & E2), (A2 p x2 H2) as (x1 & H1 & E1). exists x1. split; [done|congruence].
Qed.

Lemma kin_cousin x y : kin x y -> cousin x y.
Proof. by intros []. Qed.

Lemma quiet_ps s t : Forall2 kin (procs (ps s)) (procs t) -> cpus t = cpus (ps s) -> held t = held (ps s) -> quiet s (set_ps t s).
Proof.
  intros HF Hc Hh. split; cbn; try done.
  - eapply Forall2_impl; [exact HF|]. apply kin_cousin.
  - intros p x Hx. by exists x.
Qed.

Lemma wakeup1_quiet s ch : life_ok s -> exists t, on_p (wakeup1 ch) s = Ret tt (set_ps t s) /\ life_ok (set_ps t s) /\ quiet s (set_ps t s).
Proof.
  intros HL. destruct (wakeup1_run (ps s) ch (lo_sched s HL)) as (t & E & Ht & _ & _ & _ & Hh & Hc & _). exists t.
  destruct (wakeup1_kin (ps s) ch t (lo_sched s HL) E) as [_ HF].
  split; [unfold on_p, zoom; by rewrite E|]. split; [by apply life_kin|by apply quiet_ps].
Qed.

Lemma reparent_quiet s cp ip i : cp <> ip -> quiet s (reparent cp ip i s).
Proof.
  intros Hne. split; try done.
  - cbn. apply Forall2_same_length_lookup_2; [by rewrite length_alter|]. intros q x y Hx Hy. apply reparent_procs in Hy as (x0 & Hx0 & ->).
    replace x0 with x by congruence. by case_decide.
  - intros p x Hx. apply reparent_px in Hx as (x0 & Hx0 & ->); [|done]. exists x0. by repeat case_decide.
Qed.

(** The end of [exit]: a zombie with its status, the CPU in its scheduler. *)
Definition zombie (y : proc) : proc := set_ctx Exited (set_state ZOMBIE y).
Definition zombify (me cp : nat) (v : Z) (s : lstate R) : lstate R :=
  mkL R (mkS (alter zombie cp (procs (ps s))) (slpque (ps s)) (sched_que (ps s)) (held (ps s) ∖ {[ptable_lock]}) (to_scheduler me (cpus (ps s))) (umem (ps s)))
    (alter (set_xstate v) cp (px s)) (lastpid s) (res s).

Lemma alter_cases {A} (f : A -> A) i (l : list A) j y : alter f i l !! j = Some y <-> exists x, l !! j = Some x /\ y = if decide (j = i) then f x else x.
Proof.
  rewrite list_lookup_alter. destruct (decide (j = i)) as [->|Hne].
  - rewrite decide_True by done. destruct (l !! i); cbn; naive_solver.
  - rewrite decide_False by done. naive_solver.
Qed.

Lemma zombify_sched s me cp v : sched_ok (ps s) -> user_on (ps s) me cp -> sched_ok (ps (zombify me cp v s)).
Proof.
  intros [loc HO] (x & Hx & Hp & Hi & Hid). pose proof (running_cpu _ _ _ _ Hx Hp Hi) as Hr.
  assert (loc cp = Some (AtCpu me)) as Hlp by (apply (so_cpu _ _ HO); [done|]; intros (y & Hy & Hyi); congruence).
  destruct (not_queued _ _ _ _ HO Hlp) as [Hns Hnl]. destruct (so_real _ _ HO cp ltac:(by rewrite Hlp)) as [y Hy].
  eexists. apply (move_ok loc (ps s) _ cp None HO); cbn [procs slpque sched_que ps zombify]; try done.
  - by eapply place_cpu.
  - intros q Hq. by rewrite !list_lookup_alter_ne.
  - intros z Hz. apply alter_cases in Hz as (z0 & _ & ->). rewrite decide_True by done. by right; right.
  - by rewrite list_lookup_alter_eq, Hy.
  - apply HO.
  - intros h. split; [|done]. intros Hc. by apply Hnl in Hc.
  - apply HO.
  - intros c' q _ Hr'. by apply (runs_to_scheduler (ps s) (ps s)) in Hr' as [_ ?].
  - intros c' q Hq Hlq. apply (runs_to_scheduler (ps s) (ps s)). by eapply others_keep_cpu.
  - intros c'. split; [|done]. intros Hr'. apply (runs_to_scheduler (ps s) (ps s)) in Hr' as [Hne Hr']. exfalso. apply Hne.
    assert (loc cp = Some (AtCpu c')) as H by (apply (so_cpu _ _ HO); [done|by eapply place_cpu]). congruence.
  - intros c' q. apply (idle_to_scheduler (ps s) (ps s)).
Qed.

Lemma zombify_ok s me cp v c cx :
  life_ok s -> user_on (ps s) me cp -> procs (ps s) !! cp = Some c -> alive c -> px s !! cp = Some cx -> child cx = [] -> Some cp <> initproc ->
  life_ok (zombify me cp v s).
Proof.
  intros HL Hu Hc Ha Hcx Hch Hin. pose proof HL as [A1 A2 A3 A4 A5 A6 A7 A8 A9].
  assert (forall q y, alter zombie cp (procs (ps s)) !! q = Some y -> exists y0, procs (ps s) !! q = Some y0 /\ pid y = pid y0 /\ parent y = parent y0 /\ (used y <-> used y0)) as Hb.
  { intros q y Hy. apply alter_cases in Hy as (y0 & Hy0 & ->). exists y0. split; [done|]. case_decide; [|done]. subst. replace y0 with c by congruence. by destruct Ha. }
  assert (forall q y0, procs (ps s) !! q = Some y0 -> exists y, alter zombie cp (procs (ps s)) !! q = Some y /\ parent y = parent y0 /\ (used y0 -> used y)) as Hf.
  { intros q y0 Hy0. eexists. split; [apply alter_cases; exists y0; split; [done|reflexivity]|]. by case_decide. }
  assert (forall p z, procs (ps s) !! p = Some z -> alive z -> p <> cp -> exists z', alter zombie cp (procs (ps s)) !! p = Some z' /\ alive z') as Hkeep.
  { intros p z Hz Hza Hp. exists z. by rewrite list_lookup_alter_ne. }
  split.
  - by apply zombify_sched.
  - cbn. by rewrite !length_alter.
  - intros p x Hx. apply alter_cases in Hx as (x0 & Hx0 & ->). case_decide; by eapply (A3 p x0).
  - intros p x q Hx. apply alter_cases in Hx as (x0 & Hx0 & ->). assert (child (if decide (p = cp) then set_xstate v x0 else x0) = child x0) as -> by (by case_decide).
    rewrite (A4 p x0 q Hx0). split.
    + intros (y & Hy & Hyu & Hyp). destruct (Hf q y Hy) as (y' & Hy' & Hpp & Huu). exists y'. split; [done|]. split; [auto|congruence].
    + intros (y & Hy & Hyu & Hyp). destruct (Hb q y Hy) as (y0 & Hy0 & _ & Hpp & Huu). exists y0. split; [done|]. split; [tauto|congruence].
  - intros q y p Hy Hyu Hyp. destruct (Hb q y Hy) as (y0 & Hy0 & _ & Hpp & Huu). destruct (A5 q y0 p Hy0 ltac:(tauto) ltac:(congruence)) as (z & Hz & Hza).
    eapply Hkeep; [done|done|]. intros ->. assert (q ∈ child cx) as Hq by (apply (A4 cp cx q Hcx); exists y0; split; [done|]; split; [tauto|congruence]).
    rewrite Hch in Hq. by apply not_elem_of_nil in Hq.
  - intros ip Hip. destruct (A6 ip Hip) as (z & Hz & Hza). eapply Hkeep; [done|done|]. congruence.
  - intros q y Hy Hyu. destruct (Hb q y Hy) as (y0 & Hy0 & -> & _ & Huu). apply (A7 q y0 Hy0). tauto.
  - intros q q' y y' Hy Hy' Hyu Hyu' Hp. destruct (Hb q y Hy) as (y0 & Hy0 & Hz1 & _ & Hz2), (Hb q' y' Hy') as (y0' & Hy0' & Hz3 & _ & Hz4).
    apply (A8 q q' y0 y0' Hy0 Hy0'); [tauto|tauto|congruence].
  - intros p x Hx. apply alter_cases in Hx as (x0 & Hx0 & ->). case_decide; exact (A9 p x0 Hx0).
Qed.

(** [exit] of [cp] with status [v], seen from outside. *)
Record ended (cp : nat) (v : Z) (s s' : lstate R) : Prop := {
  en_procs q y' : procs (ps s') !! q = Some y' -> exists y, procs (ps s) !! q = Some y /\ pid y' = pid y /\
    (used y' <-> used y) /\ (q <> cp -> state y' = ZOMBIE <-> state y = ZOMBIE);
  en_info q x' : px s' !! q = Some x' -> q <> cp -> exists x, px s !! q = Some x /\ xstate x' = xstate x;
  en_self : exists c' x', procs (ps s') !! cp = Some c' /\ state c' = ZOMBIE /\ px s' !! cp = Some x' /\ xstate x' = v;
  en_pid : lastpid s' = lastpid s;
  en_held : held (ps s') = held (ps s)
}.

Lemma user_on_cpus s s' c p : cpus s' = cpus s -> user_on s c p -> user_on s' c p.
Proof. intros E (x & Hx & H). exists x. by rewrite E. Qed.

(** * Waiting *)

(** The child [i] of [cp] is given up. *)
Definition reaped (cp i : nat) (r : R) (s : lstate R) : lstate R :=
  mkL R (set_held (held (ps s) ∖ {[ptable_lock]}) (set_procs (alter (set_state UNUSED) i (procs (ps s))) (ps s)))
    (alter (fun y => set_child (filter (.≠ i) (child y)) y) cp (px s)) (lastpid s) r.

Lemma reaped_sched s i y : sched_ok s -> procs s !! i = Some y -> ~ alive y -> sched_ok (set_procs (alter (set_state UNUSED) i (procs s)) s).
Proof.
  intros [loc HO] Hy Hz. exists loc. apply (same_ok loc s _ HO); try done; [apply length_alter|]. intros p x x' Hx Hx' Hst. cbn in Hx'.
  apply alter_cases in Hx' as (x0 & Hx0 & ->). replace x0 with x by congruence. case_decide; [|done]. subst p.
  rewrite (unused_nowhere loc s i y HO Hy Hz). by left.
Qed.

Lemma reaped_ok s cp i r cx y :
  life_ok s -> px s !! cp = Some cx -> i ∈ child cx -> procs (ps s) !! i = Some y -> state y = ZOMBIE -> life_ok (reaped cp i r s).
Proof.
  intros HL Hcx Hi Hy Hz. pose proof HL as [A1 A2 A3 A4 A5 A6 A7 A8 A9]. destruct (proj1 (A4 cp cx i Hcx) Hi) as (y' & Hy' & _ & Hyp). replace y' with y in * by congruence.
  assert (~ alive y) as Hna by (by intros [_ ?]).
  assert (forall q z, alter (set_state UNUSED) i (procs (ps s)) !! q = Some z /\ used z <-> q <> i /\ procs (ps s) !! q = Some z /\ used z) as Hb.
  { intros q z. rewrite alter_cases. split.
    - intros [(z0 & Hz0 & ->) Hu]. case_decide; [by destruct Hu|done].
    - intros (Hq & Hz0 & Hu). split; [|done]. exists z. by rewrite decide_False. }
  assert (forall p z, procs (ps s) !! p = Some z -> alive z -> exists z', alter (set_state UNUSED) i (procs (ps s)) !! p = Some z' /\ alive z') as Hkeep.
  { intros p z Hz0 Ha. exists z. split; [|done]. rewrite list_lookup_alter_ne; [done|]. intros <-. destruct Hna. by replace y with z by congruence. }
  split.
  - apply held_ok. by eapply reaped_sched.
  - cbn. by rewrite !length_alter.
  - intros p x Hx. apply alter_cases in Hx as (x0 & Hx0 & ->). case_decide; [by apply NoDup_filter, (A3 p x0)|by apply (A3 p x0)].
  - intros p x q Hx. apply alter_cases in Hx as (x0 & Hx0 & ->). cbn [ps reaped set_held set_procs procs].
    assert (q ∈ child (if decide (p = cp) then set_child (filter (.≠ i) (child x0)) x0 else x0) <-> q <> i /\ q ∈ child x0) as ->.
    { case_decide; [cbn; by rewrite list_elem_of_filter|]. split; [|by intros [_ ?]]. intros Hq. split; [|done]. intros ->.
      apply (A4 p x0 i Hx0) in Hq as (z & Hz0 & _ & Hzp). congruence. }
    rewrite (A4 p x0 q Hx0). split.
    + intros (Hq & z & Hz0 & Hu & Hp). exists z. destruct (proj2 (Hb q z)); done.
    + intros (z & Hz0 & Hu & Hp). destruct (proj1 (Hb q z)) as (Hq & Hz1 & _); [done|]. split; [done|]. by exists z.
  - intros q z p Hz0 Hu Hp. destruct (proj1 (Hb q z)) as (Hq & Hz1 & _); [done|]. destruct (A5 q z p Hz1 Hu Hp) as (w & Hw & Ha). by eapply Hkeep.
  - intros ip Hip. destruct (A6 ip Hip) as (w & Hw & Ha). by eapply Hkeep.
  - intros q z Hz0 Hu. destruct (proj1 (Hb q z)) as (Hq & Hz1 & _); [done|]. by apply (A7 q z).
  - intros q q' z z' Hz0 Hz0' Hu Hu' Hp. destruct (proj1 (Hb q z)) as (_ & Hz1 & _); [done|]. destruct (proj1 (Hb q' z')) as (_ & Hz1' & _); [done|]. by eapply A8.
  - intros p x Hx. apply alter_cases in Hx as (x0 & Hx0 & ->). case_decide; exact (A9 p x0 Hx0).
Qed.

(** The child [i] is one [wait4] gives back. *)
Definition ripe (s : pstate) (cp : nat) (pid_ options : Z) (i : nat) : bool :=
  match procs s !! cp, procs s !! i with
  | Some c, Some y => wait_match cp c y pid_ && wait_ready y options
  | _, _ => false
  end.

(** [sleep] with [ptable.lock]. *)
Lemma sleep_locked s c x p ch :
  cpus s !! c = Some x -> cproc x = Some p -> idle x <> Some p -> ptable_lock ∈ held s -> exists s', sleep c ch ptable_lock s = Ret tt s'.
Proof.
  intros Hx Hp Hi Hl. unfold sleep. erewrite bind_run by (by eapply thisproc_run). cbn zeta. pose proof (HASH_lt ch) as HH.
  destruct (Z.ltb_spec (Z.of_nat (HASH ch)) SQSIZE); [|unfold SQSIZE in *; lia]. run_step. erewrite bind_run by (by apply (is_idle_run c _ x)).
  rewrite bool_decide_eq_false_2 by done. run_step. change (ptable_lock =? ptable_lock) with true. cbn [negb when]. run_step. run_step. run_step. run_step.
  unfold swtch_scheduler. run_step. run_step. eexists. by apply release_held.
Qed.

Lemma ripe_zombie s cp pid_ options i y :
  Z.land options WNOHANG = 0 -> Z.land options WUNTRACED = 0 -> procs s !! i = Some y -> ripe s cp pid_ options i = true -> state y = ZOMBIE /\ parent y = Some cp.
Proof.
  intros H1 H2 Hy. unfold ripe, wait_match, wait_ready. rewrite Hy, H1, H2. destruct (procs s !! cp); [|done].
  change (truthy 0) with false. rewrite andb_false_l, !orb_false_r, !andb_true_iff, !bool_decide_eq_true. naive_solver.
Qed.

Lemma filter_none {A} (P : A -> Prop) `{!forall x, Decision (P x)} l : (forall x, x ∈ l -> ~ P x) -> filter P l = [].
Proof. intros Hn. destruct (filter P l) as [|x k] eqn:E; [done|]. assert (x ∈ filter P l) as [Hp Hx]%list_elem_of_filter by (rewrite E; by left). by destruct (Hn x Hx). Qed.

(** Splitting a list at the first element that satisfies a test. *)
Lemma filter_head_split {A} (P : A -> Prop) `{!forall x, Decision (P x)} l x k :
  filter P l = x :: k -> exists l1 l2, l = l1 ++ x :: l2 /\ P x /\ forall y, y ∈ l1 -> ~ P y.
Proof.
  induction l as [|y l IH]; [done|]. rewrite filter_cons. case_decide as Hy.
  - intros [= -> _]. exists [], l. split; [done|]. split; [done|]. intros z Hz. by apply not_elem_of_nil in Hz.
  - intros E. destruct (IH E) as (l1 & l2 & -> & Hx & Hn). exists (y :: l1), l2. split; [done|]. split; [done|]. intros z [->|Hz]%elem_of_cons; auto.
Qed.
End Family.

(** * The functions *)

Section Forks.
Context {R : Type} {K : Kernel R}.
Context (me : nat) (stale : Z -> list Z) (initproc : option nat).
Notation life_ok := (life_ok (R := R) (initproc := initproc)).

(** A process as [proc_alloc] leaves it. *)
Definition embryo (v k : Z) : proc := mkP EMBRYO v 0 0 None 0 0 0 0 (new_tf stale k) 0 zero_signals Forkret.

Lemma proc_alloc_none s :
  ptable_lock ∉ held (ps s) -> list_find (fun p => state p = UNUSED) (procs (ps s)) = None -> proc_alloc stale s = Ret None s.
Proof.
  intros Hl Hf. unfold proc_alloc. erewrite bind_run by (unfold on_p, zoom; by rewrite acquire_free). run_step. cbn [procs ps set_ps set_held].
  rewrite Hf. cbn [fmap option_fmap option_map]. erewrite bind_run by (unfold on_p, zoom; rewrite release_held by (apply lock_in); reflexivity).
  unfold ret. f_equal. cbn [ps set_ps held set_held]. rewrite set_held_same by done. by destruct s as [[] ? ? ?].
Qed.

Lemma proc_alloc_run s np n x k r :
  ptable_lock ∉ held (ps s) -> list_find (fun p => state p = UNUSED) (procs (ps s)) = Some (np, n) -> px s !! np = Some x ->
  kalloc (res s) = Ret k r ->
  proc_alloc stale s =
    if k =? 0 then Ret None (at_slot np zero_proc (set_kstack k zero_info) r s)
    else Ret (Some np) (at_slot np (embryo (s32 (lastpid s + 1)) k) (set_kstack k zero_info) r (set_lastpid (s32 (lastpid s + 1)) s)).
Proof.
  intros Hl Hf Hx Hk. apply list_find_Some in Hf as Hf'. destruct Hf' as (Hn & _ & _).
  unfold proc_alloc. rewrite <- (at_slot_id np n x s Hn Hx) at 1.
  erewrite bind_run by (by apply slot_acquire). set (s0 := set_ps (set_held _ (ps s)) s). run_step.
  assert (procs (ps (at_slot np n x (res s) s0)) = procs (ps s)) as -> by (cbn; by apply list_insert_id). rewrite Hf. cbn [fmap option_fmap option_map fst].
  erewrite bind_run by (apply slot_updp). erewrite bind_run by (apply slot_updx). erewrite bind_run by (by apply slot_on_r). erewrite bind_run by (apply slot_updx).
  assert (ptable_lock ∈ held (ps s0)) as Hin by (apply lock_in).
  destruct (k =? 0).
  - erewrite bind_run by (by apply slot_release). unfold ret. do 2 f_equal. exact (held_back s Hl).
  - run_step. run_step.
    change (set_lastpid _ (at_slot np zero_proc (set_kstack k zero_info) r s0)) with (at_slot np zero_proc (set_kstack k zero_info) r (set_lastpid (s32 (lastpid s + 1)) s0)).
    cbn [lastpid at_slot set_lastpid].
    erewrite bind_run by (apply slot_updp). erewrite bind_run by (apply slot_updp). erewrite bind_run by (by apply slot_release).
    erewrite bind_run by (apply slot_updp). erewrite bind_run by (apply slot_updp). erewrite bind_run by (apply slot_updp). erewrite bind_run by (apply slot_updx).
    unfold ret. do 2 f_equal. change (set_lastpid (s32 (lastpid s + 1)) (set_ps (set_held ((held (ps s) ∪ {[ptable_lock]}) ∖ {[ptable_lock]}) (ps s)) s) = set_lastpid (s32 (lastpid s + 1)) s).
    by rewrite held_back.
Qed.

Lemma fork_fds_run c cx {SV : Serves K c cx} k pg cp np n s : cp <> np -> px s !! cp = Some cx -> length (ofile cx) = NOFILE ->
  forall m a x r, (a + m = NOFILE)%nat -> ofile x = take a (ofile cx) ++ replicate m None -> with_space k pg r ->
  exists r', for_each (seq a m) (fork_fd cp np) (at_slot np n x r s) = Ret tt (at_slot np n (set_ofile (ofile cx) x) r' s) /\ with_space k pg r'.
Proof.
  intros Hne Hcx Hlen. induction m as [|m IH]; intros a x r Ha Ho Hr.
  { exists r. split; [|done]. cbn. rewrite take_ge, app_nil_r in Ho by lia. unfold ret. rewrite <- Ho. by destruct x. }
  cbn [seq for_each]. destruct (lookup_lt_is_Some_2 (ofile cx) a) as [o Eo]; [lia|].
  assert (take (S a) (ofile cx) = take a (ofile cx) ++ [o]) as Et by (by apply take_S_r).
  unfold fork_fd at 1. destruct o as [f|].
  - destruct (sv_filedup k pg f r) as (r1 & E1 & Hr1); [by eapply list_elem_of_lookup_2|done|].
    erewrite bind_run.
    2:{ erewrite bind_run by (by apply slot_getx_ne). rewrite Eo. cbn [default from_option id]. erewrite bind_run by (by apply slot_on_r). apply slot_updx. }
    destruct (IH (S a) (set_ofile (<[a := Some f]> (ofile x)) x) r1) as (r2 & E2 & Hr2); [lia| |done|].
    { cbn [ofile set_ofile]. rewrite Ho, Et, insert_app_r_alt by (rewrite length_take; lia). rewrite length_take, Nat.min_l, Nat.sub_diag by lia.
      rewrite <- app_assoc. done. }
    exists r2. rewrite E2. split; [by destruct x|done].
  - erewrite bind_run by (erewrite bind_run by (by apply slot_getx_ne); rewrite Eo; reflexivity).
    apply IH; [lia| |done]. rewrite Ho, Et, <- app_assoc. done.
Qed.

Lemma fork_copy_run c cx {SV : Serves K c cx} k pg cp np n x r s :
  cp <> np -> procs (ps s) !! cp = Some c -> px s !! cp = Some cx -> (np < length (procs (ps s)))%nat -> ptable_lock ∉ held (ps s) ->
  length (ofile cx) = NOFILE -> ofile x = replicate NOFILE None -> with_space k pg r ->
  exists r', fork_copy cp np (at_slot np n x r s) = Ret (pid n) (at_slot np (forked_proc cp c n) (forked_info np cx x) r' (adopt cp np s)) /\
    with_space k pg r'.
Proof.
  intros Hne Hc Hcx Hnp Hl Hlen Ho Hr. unfold fork_copy.
  erewrite bind_run by (apply slot_updp). erewrite bind_run by (by apply slot_getx_ne). erewrite bind_run by (apply slot_updx).
  erewrite bind_run by (by apply slot_getp_ne). erewrite bind_run by (apply slot_updp).
  destruct (fork_fds_run c cx k pg cp np (set_tf (<[tf_x 0 := 0]> (tf c)) (set_parent (Some cp) n)) s Hne Hcx Hlen NOFILE 0
    (set_layout (base cx) (sz cx) (stksz cx) x) r eq_refl Ho Hr) as (r1 & E1 & Hr1). rewrite (bind_run _ _ _ _ _ E1).
  destruct (sv_idup k pg r1 Hr1) as (r2 & E2 & Hr2). erewrite bind_run by (by apply slot_on_r). erewrite bind_run by (apply slot_updx).
  erewrite bind_run by (apply slot_updp). erewrite bind_run by (apply slot_updx). erewrite bind_run by (apply slot_updx).
  erewrite bind_run by (apply slot_updp). erewrite bind_run by (apply slot_updx). erewrite bind_run by (by apply slot_getp).
  erewrite bind_run by (by apply slot_acquire). erewrite bind_run by (by apply slot_updx_ne). erewrite bind_run by (apply slot_push_sched).
  erewrite bind_run by (apply slot_updp). erewrite bind_run by (apply slot_release, lock_in).
  exists r2. split; [|done]. unfold ret. f_equal. unfold at_slot. f_equal. cbn. rewrite set_held_same by done. done.
Qed.

Lemma fork_undo_run c cx {SV : Serves K c cx} np n x r s :
  (np < length (px s))%nat -> ptable_lock ∉ held (ps s) -> with_stack (kstack x) r ->
  exists r', fork_undo np (at_slot np n x r s) = Ret tt (at_slot np (set_state UNUSED n) x r' s) /\ served r'.
Proof.
  intros Hnp Hl Hr. destruct (sv_kfree (kstack x) r Hr) as (r1 & E1 & Hr1). exists r1. split; [|done]. unfold fork_undo.
  erewrite bind_run by (by apply slot_getx). erewrite bind_run by (by apply slot_on_r). erewrite bind_run by (by apply slot_acquire).
  erewrite bind_run by (apply slot_updp). rewrite slot_release by (apply lock_in). do 2 f_equal. exact (held_back s Hl).
Qed.

(** The outcomes of [fork]: no slot, a slot given back, a new process. *)
Inductive fork_outcome (cp : nat) (c : proc) (cx : info) (SV : Serves K c cx) (s : lstate R) : Z -> lstate R -> Prop :=
| fork_full :
    list_find (fun p => state p = UNUSED) (procs (ps s)) = None -> served (res s) -> fork_outcome cp c cx SV s (- ENOMEM) s
| fork_failed np n0 n x r lp v :
    list_find (fun p => state p = UNUSED) (procs (ps s)) = Some (np, n0) ->
    state n = UNUSED -> child x = [] -> length (ofile x) = NOFILE -> lp = lastpid s \/ lp = s32 (lastpid s + 1) ->
    v = - ENOMEM \/ (exists e, e < 0 /\ v = s32 e) -> served r ->
    fork_outcome cp c cx SV s v (at_slot np n x r (set_lastpid lp s))
| fork_made np n0 k pg m h r :
    list_find (fun p => state p = UNUSED) (procs (ps s)) = Some (np, n0) -> k <> 0 -> pg <> 0 -> with_space k pg r ->
    fork_outcome cp c cx SV s (s32 (lastpid s + 1))
      (at_slot np (forked_proc cp c (set_pgdir pg (embryo (s32 (lastpid s + 1)) k)))
                  (forked_info np cx (set_maps m h (set_kstack k zero_info))) r (adopt cp np (set_lastpid (s32 (lastpid s + 1)) s))).

(** [fork] with a slot and a stack, behind [proc_alloc]. *)
Lemma fork_rest_run c cx {SV : Serves K c cx} cp np k r s n0 :
  cp <> np -> procs (ps s) !! cp = Some c -> px s !! cp = Some cx -> (np < length (procs (ps s)))%nat -> length (px s) = length (procs (ps s)) ->
  ptable_lock ∉ held (ps s) -> length (ofile cx) = NOFILE -> k <> 0 ->
  list_find (fun p => state p = UNUSED) (procs (ps s)) = Some (np, n0) -> with_stack k r ->
  exists v s', (
      let* c := on_p (getp cp) in
      let* cx := getx cp in
      let* pg := on_r (uvm_copy (regions cx) (pgdir c)) in
      on_p (updp np (set_pgdir pg)) ;;
      if pg =? 0 then fork_undo np ;; ret (- ENOMEM) else
      let* e := if nregions cx =? 0 then ret 0 else
                let* (e, r, n) := on_r (copy_mmap_list (regions cx) (nregions cx)) in
                (if e <? 0 then ret tt else updx np (set_maps n r)) ;;
                ret e in
      if e <? 0 then on_r (vm_free (regions cx) pg) ;; fork_undo np ;; ret (s32 e) else
      fork_copy cp np) (at_slot np (embryo (s32 (lastpid s + 1)) k) (set_kstack k zero_info) r (set_lastpid (s32 (lastpid s + 1)) s)) = Ret v s' /\
    fork_outcome cp c cx SV s v s'.
Proof.
  intros Hne Hc Hcx Hnp Hlen Hl Hof Hk Hf Hr. set (lp := s32 (lastpid s + 1)). set (s1 := set_lastpid lp s).
  erewrite bind_run by (by apply slot_getp_ne). erewrite bind_run by (by apply slot_getx_ne).
  destruct (sv_uvm_copy k r Hr) as (pg & r1 & E1 & Hr1). erewrite bind_run by (by apply slot_on_r). erewrite bind_run by (apply slot_updp).
  destruct (Z.eqb_spec pg 0) as [Hpg|Hpg].
  { destruct (fork_undo_run c cx np (set_pgdir pg (embryo lp k)) (set_kstack k zero_info) r1 s1) as (r2 & E2 & Hr2); [cbn; lia|done|done|].
    rewrite (bind_run _ _ _ _ _ E2). eexists _, _. split; [reflexivity|]. eapply fork_failed; [exact Hf|done|done|done|by right|by left|done]. }
  assert (exists e m h r2, (if nregions cx =? 0 then ret 0 else
                let* (e, r, n) := on_r (copy_mmap_list (regions cx) (nregions cx)) in
                (if e <? 0 then ret tt else updx np (set_maps n r)) ;; ret e) (at_slot np (set_pgdir pg (embryo lp k)) (set_kstack k zero_info) r1 s1) =
      Ret e (at_slot np (set_pgdir pg (embryo lp k)) (set_maps m h (set_kstack k zero_info)) r2 s1) /\ with_space k pg r2) as (e & m & h & r2 & E2 & Hr2).
  { destruct (nregions cx =? 0); [by exists 0, 0, 0, r1|]. destruct (sv_copy_mmap_list k pg r1 Hr1) as (e & h & m & r2 & E2 & Hr2).
    exists e, (if e <? 0 then 0 else m), (if e <? 0 then 0 else h), r2. split; [|done].
    erewrite bind_run by (by apply slot_on_r). cbv match beta. destruct (e <? 0); [done|]. erewrite bind_run by (apply slot_updx). done. }
  rewrite (bind_run _ _ _ _ _ E2). destruct (Z.ltb_spec e 0) as [He|He].
  - destruct (sv_vm_free k pg r2 Hr2) as (r3 & E3 & Hr3). erewrite bind_run by (by apply slot_on_r).
    destruct (fork_undo_run c cx np (set_pgdir pg (embryo lp k)) (set_maps m h (set_kstack k zero_info)) r3 s1) as (r4 & E4 & Hr4); [cbn; lia|done|done|].
    rewrite (bind_run _ _ _ _ _ E4). eexists _, _. split; [reflexivity|]. eapply fork_failed; [exact Hf|done|done|done|by right|right; by exists e|done].
  - destruct (fork_copy_run c cx k pg cp np (set_pgdir pg (embryo lp k)) (set_maps m h (set_kstack k zero_info)) r2 s1) as (r3 & E3 & Hr3); try done.
    rewrite E3. eexists _, _. split; [reflexivity|]. by eapply fork_made.
Qed.

Lemma fork_run c cx {SV : Serves K c cx} s cp :
  user_on (ps s) me cp -> procs (ps s) !! cp = Some c -> px s !! cp = Some cx -> alive c -> length (px s) = length (procs (ps s)) ->
  ptable_lock ∉ held (ps s) -> length (ofile cx) = NOFILE -> served (res s) ->
  exists v s', fork me stale s = Ret v s' /\ fork_outcome cp c cx SV s v s'.
Proof.
  intros (y & Hy & Hyp & _) Hc Hcx Ha Hlen Hl Hof Hr. unfold fork.
  erewrite bind_run by (unfold on_p, zoom; rewrite (thisproc_run me (ps s) y cp Hy Hyp); reflexivity).
  replace (set_ps (ps s) s) with s by (by destruct s).
  destruct (list_find (fun p => state p = UNUSED) (procs (ps s))) as [[np n]|] eqn:Hf.
  2:{ rewrite (bind_run _ _ _ _ _ (proc_alloc_none s Hl Hf)). eexists _, _. split; [reflexivity|]. by apply fork_full. }
  apply list_find_Some in Hf as Hf'. destruct Hf' as (Hn & Hu & _). pose proof (lookup_lt_Some _ _ _ Hn) as Hnp.
  destruct (lookup_lt_is_Some_2 (px s) np) as [x Hx]; [by rewrite Hlen|]. destruct (sv_kalloc (res s) Hr) as (k & r & Ek & Hk').
  pose proof (proc_alloc_run s np n x k r Hl Hf Hx Ek) as E. destruct (Z.eqb_spec k 0) as [Hk|Hk]; rewrite (bind_run _ _ _ _ _ E).
  { eexists _, _. split; [reflexivity|]. rewrite <- (set_lastpid_id s) at 2. by eapply fork_failed; [exact Hf|done|done|done|left|left|]. }
  assert (cp <> np) as Hne by (intros ->; destruct Ha; congruence).
  exact (fork_rest_run c cx cp np k r s n Hne Hc Hcx Hnp Hlen Hl Hof Hk Hf Hk').
Qed.

Lemma outcome_life c cx (SV : Serves K c cx) s cp v s' :
  life_ok s -> procs (ps s) !! cp = Some c -> alive c -> length (ofile cx) = NOFILE -> lastpid s + 1 < 2 ^ 31 -> fork_outcome cp c cx SV s v s' -> life_ok s'.
Proof.
  intros HL Hc Ha Hof Hlp Ho. pose proof (lo_pid s HL cp c Hc (proj1 Ha)) as Hpid. assert (s32 (lastpid s + 1) = lastpid s + 1) as Es by (apply s32_id; lia).
  destruct Ho as [|np n0 n x r lp v Hf Hn Hx Hxo Hlp' _ _|np n0 k pg m h r Hf Hk Hpg _]; [done|..];
    apply list_find_Some in Hf as (Hn0 & Hu0 & _); rewrite ?Es.
  - eapply life_failed; try done. destruct Hlp' as [->| ->]; lia.
  - eapply life_made; try done; cbn; lia.
Qed.

Lemma fork_life {RK : Returns K} s cp v s' :
  life_ok s -> user_on (ps s) me cp -> ptable_lock ∉ held (ps s) -> lastpid s + 1 < 2 ^ 31 -> fork me stale s = Ret v s' -> life_ok s'.
Proof.
  intros HL Hu Hl Hlp E. destruct (caller s cp me HL Hu) as (c & cx & Hc & Hcx & Ha & Hof).
  destruct (fork_run c cx (SV := returns_serve RK c cx) s cp Hu Hc Hcx Ha (lo_len s HL) Hl Hof I) as (v1 & s1 & E1 & Ho). rewrite E in E1. injection E1 as <- <-.
  by eapply outcome_life.
Qed.

End Forks.

Section Runs.
Context {R : Type} {K : Kernel R} {RK : Returns K}.
Context (me : nat) (paddr : nat -> Z) (initproc : option nat).
Notation life_ok := (life_ok (R := R) (initproc := initproc)).

Lemma give_run s cp ip i l cx :
  life_ok s -> px s !! cp = Some cx -> child cx = i :: l -> cp <> ip -> initproc = Some ip ->
  exists s', give_to_init paddr initproc cp i s = Ret tt s' /\ life_ok s' /\ quiet s s' /\ exists cx', px s' !! cp = Some cx' /\ child cx' = l.
Proof.
  intros HL Hcx Hch Hne Hip. destruct (proj1 (lo_child s HL cp cx i Hcx)) as (y & Hy & Hu & Hp); [rewrite Hch; by left|].
  assert (life_ok (reparent cp ip i s)) as HR by (eapply reparent_ok; [done|done|rewrite Hch; by left|done..]).
  assert (exists cx', px (reparent cp ip i s) !! cp = Some cx' /\ child cx' = l) as (cx' & Hcx' & Hl).
  { eexists. split; [apply reparent_px; [done|]; exists cx; split; [done|reflexivity]|]. rewrite decide_False, decide_True by done. cbn. rewrite Hch.
    apply filter_head. rewrite <- Hch. by apply (lo_nodup s HL cp). }
  pose proof (reparent_quiet s cp ip i Hne) as HQ.
  unfold give_to_init. erewrite bind_run by (unfold on_p, zoom, getp; rewrite Hy; reflexivity).
  replace (set_ps (ps s) s) with s by (by destruct s). rewrite bool_decide_eq_true_2 by done. run_step. rewrite Hip. run_step. run_step. run_step.
  match goal with |- context [when _ _ ?s1] => change s1 with (reparent cp ip i s) end. rewrite <- Hip.
  case_bool_decide; cbn [when]; [|exists (reparent cp ip i s); eauto 10].
  destruct (wakeup1_quiet (reparent cp ip i s) (paddr ip) HR) as (t & E & HT & HQ'). exists (set_ps t (reparent cp ip i s)).
  split; [exact E|]. split; [done|]. split; [by etransitivity|]. exists cx'. done.
Qed.

Lemma give_all s cp ip l : forall cx,
  life_ok s -> px s !! cp = Some cx -> child cx = l -> cp <> ip -> initproc = Some ip ->
  exists s', for_each l (give_to_init paddr initproc cp) s = Ret tt s' /\ life_ok s' /\ quiet s s' /\ exists cx', px s' !! cp = Some cx' /\ child cx' = [].
Proof.
  revert s. induction l as [|i l IH]; intros s cx HL Hcx Hch Hne Hip; cbn [for_each].
  - exists s. split; [done|]. split; [done|]. split; [done|]. by exists cx.
  - destruct (give_run s cp ip i l cx HL Hcx Hch Hne Hip) as (s1 & E1 & HL1 & HQ1 & cx1 & Hcx1 & Hch1). rewrite (bind_run _ _ _ _ _ E1).
    destruct (IH s1 cx1 HL1 Hcx1 Hch1 Hne Hip) as (s2 & E2 & HL2 & HQ2 & H2). exists s2. split; [done|]. split; [done|]. split; [by etransitivity|done].
Qed.

Lemma exit_locked_run s cp err cx :
  life_ok s -> user_on (ps s) me cp -> ptable_lock ∉ held (ps s) -> Some cp <> initproc -> px s !! cp = Some cx -> child cx = [] \/ is_Some initproc ->
  exists s', exit_locked me paddr initproc cp err s = Ret tt s' /\ life_ok s' /\ ended cp (Z.land err 0x7f) s s'.
Proof.
  intros HL Hu Hl Hin Hcx Hor. unfold exit_locked. set (s0 := set_ps (set_held (held (ps s) ∪ {[ptable_lock]}) (ps s)) s).
  erewrite bind_run by (unfold on_p, zoom; rewrite acquire_free by done; reflexivity). change (set_ps (set_held _ (ps s)) s) with s0.
  assert (life_ok s0) as HL0 by (apply life_kin; [done|apply held_ok, (lo_sched s HL)|reflexivity]).
  destruct (caller s0 cp me HL0 Hu) as (c & cx0 & Hc & Hcx0 & Ha & _). replace cx0 with cx in * by (cbn in Hcx0; congruence).
  erewrite bind_run by (unfold on_p, zoom, getp; rewrite Hc; reflexivity). replace (set_ps (ps s0) s0) with s0 by (by destruct s0).
  destruct (wakeup1_quiet s0 (match parent c with Some q => paddr q | None => 0 end) HL0) as (t & E1 & HL1 & HQ1).
  rewrite (bind_run _ _ _ _ _ E1). set (s1 := set_ps t s0) in *. erewrite bind_run by (unfold getx; cbn [s1 px set_ps]; rewrite Hcx0; reflexivity).
  assert (exists s2, for_each (child cx) (give_to_init paddr initproc cp) s1 = Ret tt s2 /\ life_ok s2 /\ quiet s1 s2 /\
    exists cx', px s2 !! cp = Some cx' /\ child cx' = []) as (s2 & E2 & HL2 & HQ2 & cx2 & Hcx2 & Hch2).
  { destruct Hor as [Hch|[ip Hip]].
    - rewrite Hch. exists s1. split; [done|]. split; [done|]. split; [done|]. by exists cx.
    - apply (give_all s1 cp ip (child cx) cx HL1); try done. congruence. }
  rewrite (bind_run _ _ _ _ _ E2). erewrite bind_run by (unfold getx; rewrite Hcx2; reflexivity).
  rewrite bool_decide_eq_true_2 by done. run_step. run_step. run_step. unfold swtch_scheduler, on_p, zoom.
  assert (quiet s0 s2) as HQ by (by etransitivity). assert (user_on (ps s2) me cp) as Hu2 by (by apply (user_on_cpus (ps s0)); [apply (qu_cpus _ _ HQ)|]).
  erewrite bind_run by reflexivity. erewrite bind_run by reflexivity.
  rewrite release_held by (change (ptable_lock ∈ held (ps s2)); rewrite (qu_held _ _ HQ); apply lock_in).
  exists (zombify me cp (Z.land err 127) s2). split; [unfold zombify; cbn; by rewrite list_alter_alter_eq|].
  destruct (caller s2 cp me HL2 Hu2) as (c2 & cx2' & Hc2 & _ & Ha2 & _). split; [by eapply zombify_ok|]. split.
  - intros q y' Hy'. apply alter_cases in Hy' as (y2 & Hy2 & ->). destruct (Forall2_lookup_r _ _ _ _ _ (qu_procs _ _ HQ) Hy2) as (y & Hy & []). exists y.
    split; [done|]. case_decide; [|naive_solver]. subst q. replace y2 with c2 in * by congruence. split; [done|]. split; [|done]. rewrite <- co_used0. destruct Ha2. done.
  - intros q x' Hx' Hq. apply alter_cases in Hx' as (x2 & Hx2 & ->). rewrite decide_False by done. exact (qu_info _ _ HQ q x2 Hx2).
  - eexists (zombie c2), (set_xstate _ cx2). cbn. rewrite !list_lookup_alter_eq, Hc2, Hcx2. done.
  - exact (qu_pid _ _ HQ).
  - cbn. rewrite (qu_held _ _ HQ). cbn. by apply set_held_same.
Qed.

Lemma exit_fds_run cp c s : (cp < length (px s))%nat -> forall l x r,
  exists o r', for_each l (exit_fd cp) (at_slot cp c x r s) = Ret tt (at_slot cp c (set_ofile o x) r' s) /\
    length o = length (ofile x) /\ forall i, i ∈ l \/ default None (ofile x !! i) = None -> default None (o !! i) = None.
Proof.
  intros Hcp. induction l as [|i l IH]; intros x r.
  { exists (ofile x), r. split; [by destruct x|]. split; [done|]. intros i [Hi|Hi]; [by apply not_elem_of_nil in Hi|done]. }
  cbn [for_each]. unfold exit_fd at 1. destruct (default None (ofile x !! i)) as [f|] eqn:Ef.
  - destruct (ret_fileclose f r) as [r1 E1]. erewrite bind_run.
    2:{ erewrite bind_run by (by apply slot_getx). rewrite Ef. erewrite bind_run by (by apply slot_on_r). apply slot_updx. }
    destruct (IH (set_ofile (<[i := None]> (ofile x)) x) r1) as (o & r2 & E2 & Ho & Hn). exists o, r2. split; [by rewrite E2; destruct x|].
    split; [rewrite Ho; cbn; apply length_insert|]. intros j Hj. apply Hn. cbn [ofile set_ofile]. destruct (decide (j = i)) as [->|Hne].
    + right. destruct (decide (i < length (ofile x))%nat); [by rewrite list_lookup_insert_eq|]. by rewrite lookup_ge_None_2 by (rewrite length_insert; lia).
    + rewrite elem_of_cons in Hj. rewrite list_lookup_insert_ne by done. naive_solver.
  - erewrite bind_run by (erewrite bind_run by (by apply slot_getx); rewrite Ef; reflexivity).
    destruct (IH x r) as (o & r2 & E2 & Ho & Hn). exists o, r2. split; [done|]. split; [done|]. intros j Hj. apply Hn.
    destruct (decide (j = i)) as [->|Hne]; [by right|]. rewrite elem_of_cons in Hj. naive_solver.
Qed.

(** The part of [exit] before the lock is taken. *)
Lemma exit_run s cp err cx :
  life_ok s -> user_on (ps s) me cp -> ptable_lock ∉ held (ps s) -> Some cp <> initproc -> px s !! cp = Some cx ->
  exists r o, length o = NOFILE /\ (forall i, default None (o !! i) = None) /\
    exit me paddr initproc err s = exit_locked me paddr initproc cp err (set_res r (set_px (<[cp := set_cwd None (set_ofile o cx)]> (px s)) s)) /\
    life_ok (set_res r (set_px (<[cp := set_cwd None (set_ofile o cx)]> (px s)) s)).
Proof.
  intros HL Hu Hl Hin Hcx. destruct (caller s cp me HL Hu) as (c & cx0 & Hc & Hcx0 & Ha & Hof). replace cx0 with cx in * by congruence.
  pose proof (lookup_lt_Some _ _ _ Hcx) as Hcp. destruct Hu as (y & Hy & Hyp & _).
  assert (forall x r, at_slot cp c x r s = set_res r (set_px (<[cp := x]> (px s)) s)) as Hat.
  { intros x r. unfold at_slot. rewrite list_insert_id by done. by destruct s as [[] ? ? ?]. }
  destruct (exit_fds_run cp c s Hcp (seq 0 NOFILE) cx (res s)) as (o & r1 & E1 & Ho & Hn).
  destruct (ret_begin_op r1) as [r2 E2], (ret_iput (cwd cx) r2) as [r3 E3], (ret_end_op r3) as [r4 E4].
  assert (exit me paddr initproc err s = exit_locked me paddr initproc cp err (at_slot cp c (set_cwd None (set_ofile o cx)) r4 s)) as Eq.
  { unfold exit. erewrite bind_run by (unfold on_p, zoom; rewrite (thisproc_run me (ps s) y cp Hy Hyp); reflexivity).
    replace (set_ps (ps s) s) with (at_slot cp c cx (res s) s) by (rewrite at_slot_id by done; by destruct s). rewrite decide_False by done.
    rewrite (bind_run _ _ _ _ _ E1). erewrite bind_run by (by apply slot_on_r). erewrite bind_run by (by apply slot_getx).
    erewrite bind_run by (by apply slot_on_r). erewrite bind_run by (by apply slot_on_r). by erewrite bind_run by (apply slot_updx). }
  exists r4, o. split; [by rewrite Ho|]. split.
  { intros i. apply Hn. destruct (decide (i < NOFILE)%nat) as [Hi|Hi]; [left; apply elem_of_seq; lia|right]. by rewrite lookup_ge_None_2 by (rewrite Hof; lia). }
  split; [by rewrite Eq, Hat|]. apply life_px; [done|apply length_insert|]. intros p z Hz. apply insert_cases in Hz as [[-> ->]|[_ Hz]].
  - exists cx. split; [done|]. split; [done|]. cbn. by rewrite Ho.
  - exists z. split; [done|]. split; [done|]. by apply (lo_ofile s HL p).
Qed.

Lemma exit_ended s cp err cx :
  life_ok s -> user_on (ps s) me cp -> ptable_lock ∉ held (ps s) -> Some cp <> initproc -> px s !! cp = Some cx -> child cx = [] \/ is_Some initproc ->
  exists s', exit me paddr initproc err s = Ret tt s' /\ life_ok s' /\ ended cp (Z.land err 0x7f) s s'.
Proof.
  intros HL Hu Hl Hin Hcx Hor. destruct (exit_run s cp err cx HL Hu Hl Hin Hcx) as (r & o & Ho & _ & E & HL1). rewrite E.
  destruct (exit_locked_run _ cp err (set_cwd None (set_ofile o cx)) HL1 Hu Hl Hin) as (s' & E' & HL' & [B1 B2 B3 B4 B5]); [|done|].
  { cbn. rewrite list_lookup_insert_eq; [done|]. by eapply lookup_lt_Some. }
  exists s'. split; [done|]. split; [done|]. split; try done. intros q x' Hx' Hq. destruct (B2 q x' Hx' Hq) as (x & Hx & E2). exists x. split; [|done].
  cbn in Hx. by rewrite list_lookup_insert_ne in Hx by done.
Qed.

(** The children of a process that exits are given to the process a null pointer names. *)
Lemma exit_orphans_panic s cp err cx :
  life_ok s -> user_on (ps s) me cp -> ptable_lock ∉ held (ps s) -> px s !! cp = Some cx -> child cx <> [] -> initproc = None ->
  exists s', exit me paddr initproc err s = Panic s'.
Proof.
  intros HL Hu Hl Hcx Hch Hin. destruct (exit_run s cp err cx HL Hu Hl ltac:(congruence) Hcx) as (r & o & Ho & _ & E & HL0). rewrite E.
  set (s0 := set_res r _) in *. unfold exit_locked. set (s1 := set_ps (set_held (held (ps s0) ∪ {[ptable_lock]}) (ps s0)) s0).
  erewrite bind_run by (unfold on_p, zoom; rewrite acquire_free by done; reflexivity). change (set_ps (set_held _ (ps s0)) s0) with s1.
  assert (life_ok s1) as HL1 by (apply life_kin; [done|apply held_ok, (lo_sched s0 HL0)|reflexivity]).
  destruct (caller s1 cp me HL1 Hu) as (c & cx1 & Hc & Hcx1 & _). erewrite bind_run by (unfold on_p, zoom, getp; rewrite Hc; reflexivity).
  replace (set_ps (ps s1) s1) with s1 by done. destruct (wakeup1_quiet s1 (match parent c with Some q => paddr q | None => 0 end) HL1) as (t & E1 & HL2 & HQ).
  rewrite (bind_run _ _ _ _ _ E1). erewrite bind_run by (unfold getx; cbn [px set_ps]; rewrite Hcx1; reflexivity).
  assert (child cx1 = child cx) as Ech.
  { cbn in Hcx1. rewrite list_lookup_insert_eq in Hcx1 by (by eapply lookup_lt_Some). by injection Hcx1 as <-. }
  rewrite Ech. destruct (child cx) as [|i l] eqn:El; [done|]. cbn [for_each].
  destruct (proj1 (lo_child _ HL2 cp cx1 i Hcx1)) as (y & Hy & _ & Hp); [rewrite Ech; by left|].
  unfold give_to_init. rewrite Hin. unfold bind, on_p, zoom, getp. rewrite Hy. rewrite bool_decide_eq_true_2 by done. by eexists.
Qed.

(** The stack and the tables of the children can be given back. *)
Definition can_reap (cp : nat) (s : lstate R) : Prop :=
  forall cx i x y, px s !! cp = Some cx -> i ∈ child cx -> px s !! i = Some x -> procs (ps s) !! i = Some y ->
    exists r1 r2, kfree (kstack x) (res s) = Ret tt r1 /\ vm_free (regions cx) (pgdir y) r1 = Ret tt r2.

Lemma wait_reap_run s cp i st ru cx x y :
  can_reap cp s -> i ∈ child cx -> px s !! cp = Some cx -> px s !! i = Some x -> procs (ps s) !! i = Some y -> ptable_lock ∈ held (ps s) ->
  exists r, wait_reap cp i st ru s = Ret (pid y, if st then Some (s32 (Z.shiftl (xstate x) 8)) else None, ru) (reaped cp i r s).
Proof.
  intros Hr Hi Hcx Hx Hy Hl. destruct (Hr cx i x y Hcx Hi Hx Hy) as (r1 & r2 & E1 & E2). exists r2. unfold wait_reap.
  erewrite bind_run by (unfold getx; rewrite Hcx; reflexivity). erewrite bind_run by (unfold getx; rewrite Hx; reflexivity).
  erewrite bind_run by (unfold on_p, zoom, getp; rewrite Hy; reflexivity). run_step.
  erewrite bind_run by (unfold on_r, zoom; cbn [res set_px set_ps]; rewrite E1; reflexivity).
  erewrite bind_run by (unfold on_r, zoom; cbn [res set_px set_ps set_res]; rewrite E2; reflexivity). run_step.
  erewrite bind_run by (unfold on_p, zoom; rewrite release_held by done; reflexivity). done.
Qed.

Definition scan_body (cp : nat) (c : proc) (pid_ : Z) (st : bool) (options : Z) (ru : bool) (i : nat) : M (lstate R) (option wait_result) :=
  let* p := on_p (getp i) in
  if wait_match cp c p pid_ && wait_ready p options then let* v := wait_reap cp i st ru in ret (Some v) else ret None.

Lemma scan_skip s cp c pid_ st options ru i y :
  procs (ps s) !! cp = Some c -> procs (ps s) !! i = Some y -> ripe (ps s) cp pid_ options i = false -> scan_body cp c pid_ st options ru i s = Ret None s.
Proof.
  intros Hc Hy Hr. unfold scan_body. erewrite bind_run by (unfold on_p, zoom, getp; rewrite Hy; reflexivity).
  unfold ripe in Hr. rewrite Hc, Hy in Hr. rewrite Hr. by destruct s.
Qed.

Lemma scan_none s cp c pid_ st options ru l :
  procs (ps s) !! cp = Some c -> (forall i, i ∈ l -> is_Some (procs (ps s) !! i) /\ ripe (ps s) cp pid_ options i = false) ->
  loop l (scan_body cp c pid_ st options ru) s = Ret None s.
Proof.
  intros Hc. induction l as [|i l IH]; intros H; [done|]. cbn [loop]. destruct (H i ltac:(by left)) as [[y Hy] Hr].
  rewrite (bind_run _ _ _ _ _ (scan_skip s cp c pid_ st options ru i y Hc Hy Hr)). apply IH. intros j Hj. apply H. by right.
Qed.

Lemma scan_hit s cp c cx pid_ st options ru l1 i l2 x y :
  can_reap cp s -> i ∈ child cx -> procs (ps s) !! cp = Some c -> px s !! cp = Some cx -> procs (ps s) !! i = Some y -> px s !! i = Some x -> ptable_lock ∈ held (ps s) ->
  (forall j, j ∈ l1 -> is_Some (procs (ps s) !! j) /\ ripe (ps s) cp pid_ options j = false) -> ripe (ps s) cp pid_ options i = true ->
  exists r, loop (l1 ++ i :: l2) (scan_body cp c pid_ st options ru) s =
    Ret (Some (pid y, if st then Some (s32 (Z.shiftl (xstate x) 8)) else None, ru)) (reaped cp i r s).
Proof.
  intros Hr Hic Hc Hcx Hy Hx Hl H1 Hi. induction l1 as [|j l1 IH]; cbn [app loop].
  - destruct (wait_reap_run s cp i st ru cx x y Hr Hic Hcx Hx Hy Hl) as [r E]. exists r. erewrite bind_run.
    2:{ unfold scan_body. erewrite bind_run by (unfold on_p, zoom, getp; rewrite Hy; reflexivity). unfold ripe in Hi. rewrite Hc, Hy in Hi. rewrite Hi.
        replace (set_ps (ps s) s) with s by (by destruct s). rewrite (bind_run _ _ _ _ _ E). reflexivity. }
    done.
  - destruct (H1 j ltac:(by left)) as [[z Hz] Hrj]. rewrite (bind_run _ _ _ _ _ (scan_skip s cp c pid_ st options ru j z Hc Hz Hrj)).
    apply IH. intros k Hk. apply H1. by right.
Qed.

(** The three outcomes of the loop of [wait4], with the lock held. *)
Lemma wait_scan_run s cp cx pid_ st options ru :
  life_ok s -> can_reap cp s -> user_on (ps s) me cp -> ptable_lock ∈ held (ps s) -> px s !! cp = Some cx -> Z.land options WNOHANG = 0 -> Z.land options WUNTRACED = 0 ->
  (child cx = [] /\ exists s', s' = set_ps (set_held (held (ps s) ∖ {[ptable_lock]}) (ps s)) s /\
     wait_scan me paddr pid_ st options ru s = Ret (- ECHILD, None, false) s' /\ life_ok s') \/
  (exists l1 i l2 x y r, child cx = l1 ++ i :: l2 /\ ripe (ps s) cp pid_ options i = true /\ (forall j, j ∈ l1 -> ripe (ps s) cp pid_ options j = false) /\
     procs (ps s) !! i = Some y /\ px s !! i = Some x /\ state y = ZOMBIE /\ parent y = Some cp /\
     wait_scan me paddr pid_ st options ru s = Ret (pid y, if st then Some (s32 (Z.shiftl (xstate x) 8)) else None, ru) (reaped cp i r s) /\ life_ok (reaped cp i r s)) \/
  (child cx <> [] /\ (forall i, i ∈ child cx -> ripe (ps s) cp pid_ options i = false) /\
     exists t, sleep me (paddr cp) ptable_lock (ps s) = Ret tt t /\ wait_scan me paddr pid_ st options ru s = Block (set_ps t s) /\ life_ok (set_ps t s) /\
       Forall2 kin (procs (ps s)) (procs t)).
Proof.
  intros HL Hr Hu Hl Hcx Ho1 Ho2. destruct (caller s cp me HL Hu) as (c & cx0 & Hc & Hcx0 & Ha & _). replace cx0 with cx in * by congruence. clear Hcx0.
  destruct Hu as (u & Hux & Hup & Hus & Hui). unfold wait_scan.
  assert (set_ps (ps s) s = s) as Hid by (by destruct s).
  repeat (erewrite bind_run by (unfold on_p, zoom; rewrite (thisproc_run me (ps s) u cp Hux Hup); rewrite Hid; reflexivity)).
  repeat (erewrite bind_run by (unfold on_p, zoom, getp; rewrite Hc; rewrite Hid; reflexivity)).
  repeat (erewrite bind_run by (unfold getx; rewrite Hcx; reflexivity)).
  assert (forall j, j ∈ child cx -> exists y, procs (ps s) !! j = Some y) as Hreal by (intros j Hj; apply (lo_child s HL cp cx j Hcx) in Hj as (y & Hy & _); by exists y).
  destruct (decide (child cx = [])) as [Hch|Hch].
  { left. split; [done|]. eexists. split; [reflexivity|]. split; [by erewrite bind_run by (unfold on_p, zoom; rewrite release_held by done; reflexivity)|].
    apply life_kin; [done|apply held_ok, (lo_sched s HL)|reflexivity]. }
  right. change (fun i : nat => let* p := on_p (getp i) in if wait_match cp c p pid_ && wait_ready p options then let* v := wait_reap cp i st ru in ret (Some v) else ret None)
    with (scan_body cp c pid_ st options ru).
  destruct (filter (fun i => ripe (ps s) cp pid_ options i = true) (child cx)) as [|i k] eqn:Ef.
  - right. assert (forall i, i ∈ child cx -> ripe (ps s) cp pid_ options i = false) as Hnone.
    { intros i Hi. apply not_true_is_false. intros Ht. apply (not_elem_of_nil i). rewrite <- Ef. by apply list_elem_of_filter. }
    split; [done|]. split; [done|]. destruct (sleep_locked (ps s) me u cp (paddr cp) Hux Hup Hui Hl) as [t Et]. exists t. split; [done|].
    erewrite bind_run by (apply scan_none; [done|]; intros j Hj; split; [by apply Hreal|by apply Hnone]).
    pose proof (sleep_ok me (ps s) t u (paddr cp) ptable_lock (lo_sched s HL) Hux Hus Et) as Hok.
    pose proof (sleep_kin (ps s) me u (paddr cp) ptable_lock t (lo_sched s HL) Hux Hus Et) as HF.
    split; [unfold bind, on_p, zoom; by rewrite Et|]. split; [by apply life_kin|done].
  - left. apply filter_head_split in Ef as (l1 & l2 & El & Hi & Hn). assert (i ∈ child cx) as Hin by (rewrite El; apply elem_of_app; right; by left).
    destruct (Hreal i Hin) as [y Hy]. destruct (lookup_lt_is_Some_2 (px s) i) as [x Hx]; [rewrite (lo_len s HL); by eapply lookup_lt_Some|].
    destruct (ripe_zombie (ps s) cp pid_ options i y Ho1 Ho2 Hy Hi) as [Hz Hp].
    assert (forall j, j ∈ l1 -> ripe (ps s) cp pid_ options j = false) as Hn' by (intros j Hj; by apply not_true_is_false, Hn).
    destruct (scan_hit s cp c cx pid_ st options ru l1 i l2 x y Hr Hin Hc Hcx Hy Hx Hl) as [r E]; [|done|].
    { intros j Hj. split; [|by apply Hn']. apply Hreal. rewrite El. apply elem_of_app. by left. }
    exists l1, i, l2, x, y, r. split; [done|]. split; [done|]. split; [done|]. split; [done|]. split; [done|]. split; [done|]. split; [done|].
    split; [rewrite El; by rewrite (bind_run _ _ _ _ _ E)|]. by eapply reaped_ok.
Qed.
End Runs.

(** * Executions *)

Section Traces.
Context {R : Type} {K : Kernel R} {RK : Returns K}.
Context (paddr : nat -> Z) (stale : Z -> list Z) (initproc : option nat).
Notation life_ok := (life_ok (R := R) (initproc := initproc)).

Definition locked (s : lstate R) : lstate R := set_ps (set_held (held (ps s) ∪ {[ptable_lock]}) (ps s)) s.

Lemma can_reap_all `{!Returns K} cp (s : lstate R) : can_reap cp s.
Proof.
  intros cx i x y _ _ _ _. destruct (ret_kfree (kstack x) (res s)) as [r1 E1], (ret_vm_free (regions cx) (pgdir y) r1) as [r2 E2].
  by exists r1, r2.
Qed.

Lemma locked_ok s : life_ok s -> life_ok (locked s).
Proof. intros HL. apply life_kin; [done|apply held_ok, HL|reflexivity]. Qed.

Lemma wait4_locked c pid_ st options ru (s : lstate R) : ptable_lock ∉ held (ps s) ->
  wait4 c paddr pid_ st options ru s = wait_scan c paddr pid_ st options ru (locked s).
Proof. intros Hl. unfold wait4. by erewrite bind_run by (unfold on_p, zoom; rewrite acquire_free by done; reflexivity). Qed.

(** The CPUs run processes that fork, exit and wait, and the parts of the
    scheduler, in any order; other system calls change the state of the other
    components.  A process calls [wait4] without options; when it is woken up it
    goes on with the lock held. *)
Inductive lsteps : lstate R -> lstate R -> Prop :=
| ls_nil s : lsteps s s
| ls_sched s d t s' : trace (ps s) d t -> lsteps (set_ps t s) s' -> lsteps s s'
| ls_other s r s' : lsteps (set_res r s) s' -> lsteps s s'
| ls_fork s c cp v s1 s' :
    user_on (ps s) c cp -> ptable_lock ∉ held (ps s) -> lastpid s + 1 < 2 ^ 31 -> fork c stale s = Ret v s1 -> lsteps s1 s' -> lsteps s s'
| ls_exit s c cp err s1 s' :
    user_on (ps s) c cp -> ptable_lock ∉ held (ps s) -> exit c paddr initproc err s = Ret tt s1 -> lsteps s1 s' -> lsteps s s'
| ls_wait s c cp pid_ st ru v s1 s' :
    user_on (ps s) c cp -> ptable_lock ∈ held (ps s) -> wait_scan c paddr pid_ st 0 ru s = Ret v s1 \/ wait_scan c paddr pid_ st 0 ru s = Block s1 ->
    lsteps s1 s' -> lsteps s s'.

Lemma life_res s r : life_ok s -> life_ok (set_res r s).
Proof. intros []. by split. Qed.

Lemma exit_life s c cp err s1 :
  life_ok s -> user_on (ps s) c cp -> ptable_lock ∉ held (ps s) -> exit c paddr initproc err s = Ret tt s1 ->
  life_ok s1 /\ ended cp (Z.land err 0x7f) s s1 /\ Some cp <> initproc.
Proof.
  intros HL Hu Hl E. destruct (caller s cp c HL Hu) as (y & x & Hy & Hx & Ha & _).
  assert (Some cp <> initproc) as Hin.
  { intros Hin. unfold exit in E. destruct Hu as (u & Hux & Hup & _). erewrite bind_run in E by (unfold on_p, zoom; rewrite (thisproc_run c (ps s) u cp Hux Hup); reflexivity).
    by rewrite decide_True in E. }
  assert (child x = [] \/ is_Some initproc) as Hor.
  { destruct initproc as [ip|] eqn:Ei; [by right; eexists|]. left. destruct (decide (child x = [])) as [|Hn]; [done|].
    destruct (exit_orphans_panic c paddr None s cp err x HL Hu Hl Hx Hn eq_refl) as [s2 E2]. congruence. }
  destruct (exit_ended c paddr initproc s cp err x HL Hu Hl Hin Hx Hor) as (s2 & E2 & HL2 & HE). rewrite E in E2. by injection E2 as <-.
Qed.

Lemma wait_life s c cp pid_ st ru s1 :
  life_ok s -> user_on (ps s) c cp -> ptable_lock ∈ held (ps s) ->
  (exists v, wait_scan c paddr pid_ st 0 ru s = Ret v s1) \/ wait_scan c paddr pid_ st 0 ru s = Block s1 -> life_ok s1.
Proof.
  intros HL Hu Hl Hor. destruct (caller s cp c HL Hu) as (y & cx & _ & Hcx & _).
  destruct (wait_scan_run c paddr initproc s cp cx pid_ st 0 ru HL (can_reap_all cp s) Hu Hl Hcx eq_refl eq_refl) as
    [(_ & s2 & _ & E & H)|[(l1 & i & l2 & x & z & r & _ & _ & _ & _ & _ & _ & _ & E & H)|(_ & _ & t & _ & E & H & _)]];
    rewrite E in Hor; destruct Hor as [[v Hor]|Hor]; by simplify_eq.
Qed.

Lemma steps_life s s' : life_ok s -> lsteps s s' -> life_ok s'.
Proof.
  intros HL Ht. induction Ht as [s|s d t s' Ht _ IH|s r s' _ IH|s c cp v s1 s' Hu Hl Hp E _ IH|s c cp err s1 s' Hu Hl E _ IH|s c cp pid_ st ru v s1 s' Hu Hl E _ IH].
  - done.
  - apply IH. apply life_kin; [done|by eapply trace_ok; [apply HL|]|by eapply trace_kin; [apply HL|]].
  - by apply IH, life_res.
  - apply IH. by eapply fork_life.
  - apply IH. by eapply exit_life.
  - apply IH. eapply wait_life; [done|done|done|]. destruct E as [E|E]; [left; by exists v|by right].
Qed.

(** Every process that has the pid [i] is a zombie with status [v]. *)
Definition told (i v : Z) (s : lstate R) : Prop :=
  i <= lastpid s /\
  forall q y x, procs (ps s) !! q = Some y -> px s !! q = Some x -> used y -> pid y = i -> state y = ZOMBIE /\ xstate x = v.

Lemma told_kin i v s t : told i v s -> Forall2 kin (procs (ps s)) (procs t) -> told i v (set_ps t s).
Proof.
  intros [H1 H2] HF. split; [done|]. intros q y x Hy Hx Hu Hp. cbn in *. destruct (kin_lookup _ _ _ _ HF Hy) as (y0 & Hy0 & []).
  destruct (H2 q y0 x Hy0 Hx ltac:(tauto) ltac:(congruence)) as [Hz Hv]. split; [tauto|done].
Qed.

Lemma told_fork i v s c cp w s1 :
  life_ok s -> told i v s -> user_on (ps s) c cp -> ptable_lock ∉ held (ps s) -> lastpid s + 1 < 2 ^ 31 -> fork c stale s = Ret w s1 -> told i v s1.
Proof.
  intros HL [H1 H2] Hu Hl Hlp E. destruct (caller s cp c HL Hu) as (y & cx & Hy & Hcx & Ha & Hof).
  destruct (fork_run c stale y cx (SV := returns_serve RK y cx) s cp Hu Hy Hcx Ha (lo_len s HL) Hl Hof I) as (w1 & s2 & E1 & Ho). rewrite E in E1. injection E1 as <- <-.
  pose proof (lo_pid s HL cp y Hy (proj1 Ha)) as Hpid. assert (s32 (lastpid s + 1) = lastpid s + 1) as Es by (apply s32_id; lia).
  destruct Ho as [|np n0 n x r lp w Hf Hn Hx Hxo Hlp' _ _|np n0 k pg m h r Hf Hk Hpg _]; [done|..]; (split; [cbn; try lia; destruct Hlp'; lia|]);
    intros q z xz Hz Hxz Hzu Hzp; cbn in Hz, Hxz; apply insert_cases in Hz as [[-> ->]|[Hq Hz]]; try done.
  - rewrite list_lookup_insert_ne in Hxz by done. by eapply H2.
  - cbn in Hzp. lia.
  - rewrite list_lookup_insert_ne in Hxz by done. apply alter_cases in Hxz as (x0 & Hx0 & ->).
    destruct (H2 q z x0 Hz Hx0 Hzu Hzp) as [Hs Hv]. split; [done|]. by case_decide.
Qed.

Lemma told_exit i v s c cp err s1 :
  life_ok s -> told i v s -> user_on (ps s) c cp -> ptable_lock ∉ held (ps s) -> exit c paddr initproc err s = Ret tt s1 -> told i v s1.
Proof.
  intros HL [H1 H2] Hu Hl E. destruct (exit_life s c cp err s1 HL Hu Hl E) as (HL1 & [B1 B2 B3 B4 _] & _). split; [by rewrite B4|].
  intros q y' x' Hy' Hx' Hu' Hp'. destruct (B1 q y' Hy') as (y & Hy & Hpp & Huu & Hzz).
  destruct (decide (q = cp)) as [->|Hq].
  - destruct (caller s cp c HL Hu) as (y0 & x0 & Hy0 & Hx0 & [_ Ha] & _). replace y0 with y in * by congruence.
    destruct (H2 cp y x0 Hy Hx0 ltac:(tauto) ltac:(congruence)) as [Hs _]. done.
  - destruct (B2 q x' Hx' Hq) as (x & Hx & Ev). destruct (H2 q y x Hy Hx ltac:(tauto) ltac:(congruence)) as [Hs Hv]. split; [by apply Hzz|congruence].
Qed.

Lemma told_reaped i v s cp j r : told i v s -> told i v (reaped cp j r s).
Proof.
  intros [H1 H2]. split; [done|]. intros q y x Hy Hx Hu Hp. cbn in Hy, Hx. apply alter_cases in Hy as (y0 & Hy0 & ->), Hx as (x0 & Hx0 & ->).
  destruct (decide (q = j)) as [->|Hq]; [by destruct Hu|]. destruct (H2 q y0 x0 Hy0 Hx0 Hu Hp) as [Hs Hv]. split; [done|]. by case_decide.
Qed.

Lemma told_wait i v s c cp pid_ st ru s1 :
  life_ok s -> told i v s -> user_on (ps s) c cp -> ptable_lock ∈ held (ps s) ->
  (exists w, wait_scan c paddr pid_ st 0 ru s = Ret w s1) \/ wait_scan c paddr pid_ st 0 ru s = Block s1 -> told i v s1.
Proof.
  intros HL HT Hu Hl Hor. destruct (caller s cp c HL Hu) as (y & cx & _ & Hcx & _).
  destruct (wait_scan_run c paddr initproc s cp cx pid_ st 0 ru HL (can_reap_all cp s) Hu Hl Hcx eq_refl eq_refl) as
    [(_ & s2 & -> & E & H)|[(l1 & j & l2 & x & z & r & _ & _ & _ & _ & _ & _ & _ & E & H)|(_ & _ & t & _ & E & H & HF)]];
    rewrite E in Hor; destruct Hor as [[w Hor]|Hor]; simplify_eq.
  - apply told_kin; [done|]. reflexivity.
  - by apply told_reaped.
  - by apply told_kin.
Qed.

Lemma steps_told i v s s' : life_ok s -> told i v s -> lsteps s s' -> told i v s'.
Proof.
  intros HL HT Ht. induction Ht as [s|s d t s' Ht _ IH|s r s' _ IH|s c cp w s1 s' Hu Hl Hp E _ IH|s c cp err s1 s' Hu Hl E _ IH|s c cp pid_ st ru w s1 s' Hu Hl E _ IH].
  - done.
  - pose proof (trace_kin _ _ _ (lo_sched s HL) Ht) as HF. apply IH; [|by apply told_kin]. apply life_kin; [done|by eapply trace_ok; [apply HL|]|done].
  - apply IH; [by apply life_res|done].
  - apply IH; [by eapply fork_life|by eapply told_fork].
  - apply IH; [by eapply exit_life|by eapply told_exit].
  - apply IH; [eapply wait_life; [done|done|done|]|eapply told_wait; [done|done|done|done|]]; (destruct E as [E|E]; [left; by exists w|by right]).
Qed.

Lemma status_delivered s c p y err s1 s2 c2 q pid_ options ru st w s3 :
  life_ok s -> user_on (ps s) c p -> procs (ps s) !! p = Some y -> ptable_lock ∉ held (ps s) ->
  exit c paddr initproc err s = Ret tt s1 -> lsteps s1 s2 ->
  user_on (ps s2) c2 q -> ptable_lock ∉ held (ps s2) -> Z.land options WNOHANG = 0 -> Z.land options WUNTRACED = 0 ->
  wait4 c2 paddr pid_ true options ru s2 = Ret (pid y, st, w) s3 ->
  st = Some (Z.shiftl (Z.land err 0x7f) 8) /\ exists j z, procs (ps s2) !! j = Some z /\ pid z = pid y /\ state z = ZOMBIE /\ parent z = Some q.
Proof.
  intros HL Hu Hy Hl E Hst Hu2 Hl2 Ho1 Ho2 Ew. destruct (exit_life s c p err s1 HL Hu Hl E) as (HL1 & [B1 B2 B3 B4 _] & _).
  destruct (caller s p c HL Hu) as (y' & x0 & Hy' & Hx0 & [Hau _] & _). replace y' with y in * by congruence. pose proof (lo_pid s HL p y Hy Hau) as Hpid.
  assert (told (pid y) (Z.land err 127) s1) as HT.
  { split; [rewrite B4; lia|]. intros k z x Hz Hx Hzu Hzp. destruct (B1 k z Hz) as (z0 & Hz0 & Hzp0 & Hzu0 & _).
    assert (k = p) as -> by (apply (lo_pids s HL k p z0 y Hz0 Hy); [tauto|done|congruence]). destruct B3 as (c' & x' & Hc' & Hs & Hx' & Hv).
    replace z with c' by congruence. replace x with x' by congruence. done. }
  pose proof (steps_life s1 s2 HL1 Hst) as HL2. pose proof (steps_told _ _ s1 s2 HL1 HT Hst) as [_ HT2].
  rewrite wait4_locked in Ew by done. destruct (caller s2 q c2 HL2 Hu2) as (yq & cx & _ & Hcx & _).
  destruct (wait_scan_run c2 paddr initproc (locked s2) q cx pid_ true options ru (locked_ok s2 HL2) (can_reap_all q _) Hu2 (lock_in _) Hcx Ho1 Ho2) as
    [(_ & s4 & _ & E4 & _)|[(l1 & j & l2 & x & z & r & _ & _ & _ & Hz & Hx & Hzs & Hzp & E4 & _)|(_ & _ & t & _ & E4 & _)]]; rewrite E4 in Ew; [exfalso; injection Ew; unfold ECHILD; lia| |done].
  injection Ew as Hpz <- _ _. destruct (HT2 j z x Hz Hx ltac:(unfold used; congruence) Hpz) as [_ ->]. split.
  - f_equal. apply s32_id. rewrite Z.shiftl_mul_pow2 by lia. change 127 with (Z.ones 7). rewrite Z.land_ones by lia. pose proof (Z.mod_pos_bound err (2 ^ 7)). lia.
  - by exists j, z.
Qed.

Lemma wait4_reaped cp i r s : ptable_lock ∉ held (ps s) -> reaped cp i r (locked s) = reaped cp i r s.
Proof.
  clear RK. intros Hl. unfold reaped, locked. cbn. f_equal. unfold set_held. cbn. f_equal. apply leibniz_equiv. set_solver.
Qed.

(** What [wait4] does without options, when the children's pages can be given back.  With no children it returns -ECHILD and
    changes nothing.  If a child that [pid] selects has exited, it returns the
    first one: its pid, its status, and a state in which only that child's slot is
    freed and taken off the caller's list.  Otherwise the caller sleeps on
    its own address, also when [pid] selects no child at all. *)
Theorem wait4_exact s c cp y cx pid_ st options ru :
  life_ok s -> can_reap cp s -> user_on (ps s) c cp -> ptable_lock ∉ held (ps s) -> procs (ps s) !! cp = Some y -> px s !! cp = Some cx ->
  Z.land options WNOHANG = 0 -> Z.land options WUNTRACED = 0 ->
  match child cx, filter (fun i => ripe (ps s) cp pid_ options i = true) (child cx) with
  | [], _ => wait4 c paddr pid_ st options ru s = Ret (- ECHILD, None, false) s
  | _, i :: _ => exists z x r, procs (ps s) !! i = Some z /\ px s !! i = Some x /\ state z = ZOMBIE /\ parent z = Some cp /\
      wait4 c paddr pid_ st options ru s = Ret (pid z, if st then Some (s32 (Z.shiftl (xstate x) 8)) else None, ru) (reaped cp i r s) /\ life_ok (reaped cp i r s)
  | _, [] => exists s', wait4 c paddr pid_ st options ru s = Block s' /\ life_ok s' /\ ptable_lock ∉ held (ps s') /\
      state_of (ps s') cp = Some SLEEPING /\ sleeps_on (ps s') (paddr cp) cp /\ sched_que (ps s') = sched_que (ps s)
  end.
Proof.
  intros HL Hr Hu Hl Hy Hcx Ho1 Ho2. rewrite !wait4_locked by done. pose proof (lock_in (held (ps s))) as Hl'.
  destruct (wait_scan_run c paddr initproc (locked s) cp cx pid_ st options ru (locked_ok s HL) Hr Hu Hl' Hcx Ho1 Ho2) as
    [(-> & s2 & -> & -> & _)|[(l1 & i & l2 & x & z & r & El & Hi & Hn & Hz & Hx & Hzs & Hzp & E & HL')|(Hch & Hn & t & Et & E & HL' & _)]].
  - f_equal. exact (held_back s Hl).
  - rewrite wait4_reaped in * by done.
    assert (filter (fun i => ripe (ps s) cp pid_ options i = true) (child cx) = i :: filter (fun i => ripe (ps s) cp pid_ options i = true) l2) as Ef.
    { rewrite El, filter_app, (filter_cons_True _ i) by exact Hi. replace (filter _ l1) with (@nil nat); [done|]. symmetry. apply filter_none. intros j Hj Ht. pose proof (Hn j Hj) as Hf. change (ripe (ps s) cp pid_ options j = false) in Hf. congruence. }
    rewrite Ef. destruct (child cx); [by destruct l1|]. rewrite E. by exists z, x, r.
  - assert (filter (fun i => ripe (ps s) cp pid_ options i = true) (child cx) = []) as -> by (apply filter_none; intros j Hj Ht; pose proof (Hn j Hj) as Hf; change (ripe (ps s) cp pid_ options j = false) in Hf; congruence).
    destruct (child cx) as [|i l]; [done|]. exists (set_ps t (locked s)). split; [done|]. split; [done|]. destruct Hu as (u & Hux & Hup & Hus & Hui).
    pose proof Et as Et'. destruct (sleep_run c (ps (locked s)) t u cp (paddr cp) ptable_lock Hux Hup Et') as [_ [h Eh]]. subst t. cbn [ps set_ps].
    assert (h = held (ps s)) as -> by (eapply sleep_held; [exact Hl|exact Hux|exact Hup|exact Hui|exact Et]).
    split; [done|]. unfold state_of, sleeps_on. cbn [procs locked ps set_ps set_held]. rewrite !list_lookup_alter_eq, Hy. done.
Qed.

(** What the parent and the new process have in common. *)
Record inherits (y n : proc) (cx x : info) : Prop := {
  in_ids : pgid n = pgid y /\ sid n = sid y;
  in_tf : tf n = <[tf_x 0 := 0]> (tf y);
  in_signal : signal n = signal y;
  in_layout : (base x, sz x, stksz x) = (base cx, sz cx, stksz cx);
  in_files : ofile x = ofile cx /\ fdflag x = fdflag cx /\ cwd x = cwd cx;
  in_cred : cr x = inherit_cred (cr cx) no_cred;
  in_times : tm x = no_times
}.


(** With WNOHANG [wait4] takes the first child it finds for one that has exited:
    a child that sleeps or runs loses its stack and its page table, and its
    slot is free while it is still on a queue or a CPU. *)
Theorem wnohang_reaps_living s c cp y cx i z l st options ru :
  life_ok s -> can_reap cp s -> user_on (ps s) c cp -> ptable_lock ∉ held (ps s) -> procs (ps s) !! cp = Some y -> px s !! cp = Some cx ->
  truthy (Z.land options WNOHANG) = true -> child cx = i :: l -> procs (ps s) !! i = Some z -> state z = RUNNABLE \/ state z = SLEEPING ->
  exists w s', wait4 c paddr (-1) st options ru s = Ret (pid z, w, ru) s' /\ state_of (ps s') i = Some UNUSED /\ ~ sched_ok (ps s').
Proof.
  intros HL Hr Hu Hl Hy Hcx Ho Hch Hz Hs. rewrite wait4_locked by done. destruct (proj1 (lo_child s HL cp cx i Hcx)) as (z' & Hz' & _ & Hp); [rewrite Hch; by left|].
  replace z' with z in * by congruence. destruct (lookup_lt_is_Some_2 (px s) i) as [x Hx]; [rewrite (lo_len s HL); by eapply lookup_lt_Some|].
  destruct (scan_hit (locked s) cp y cx (-1) st options ru [] i l x z Hr ltac:(rewrite Hch; by left) Hy Hcx Hz Hx (lock_in _)) as [r E].
  { intros j Hj. by apply not_elem_of_nil in Hj. }
  { unfold ripe, wait_match, wait_ready. cbn [locked ps set_ps procs set_held]. rewrite Hy, Hz, Hp, bool_decide_eq_true_2, Ho by done. cbn. by rewrite orb_true_r. }
  eexists _, (reaped cp i r (locked s)). split; [|split].
  - destruct Hu as (u & Hux & Hup & _). unfold wait_scan.
    assert (set_ps (ps (locked s)) (locked s) = locked s) as Hid by done.
    erewrite bind_run by (unfold on_p, zoom; rewrite (thisproc_run c (ps (locked s)) u cp Hux Hup); rewrite Hid; reflexivity).
    erewrite bind_run by (unfold on_p, zoom, getp; cbn [locked ps set_ps procs set_held]; rewrite Hy; reflexivity).
    erewrite bind_run by (unfold getx; cbn [locked px set_ps]; rewrite Hcx; reflexivity). rewrite decide_False by (by rewrite Hch). rewrite Hch.
    erewrite bind_run by exact E. reflexivity.
  - unfold state_of. cbn. by rewrite list_lookup_alter_eq, Hz.
  - intros [loc' HO']. assert (~ alive (set_state UNUSED z)) as Hna by (by intros []).
    assert (loc' i = None) as Hloc' by (eapply unused_nowhere; [exact HO'| |exact Hna]; cbn; by rewrite list_lookup_alter_eq, Hz).
    destruct (nowhere loc' _ i HO' Hloc') as (N1 & N2 & N3 & N4). destruct (lo_sched s HL) as [loc HO]. pose proof (so_states _ _ HO i z Hz) as Hst.
    destruct Hs as [Hs|Hs].
    + destruct (place_runnable _ z Hst Hs) as [El|[d [El|El]]]; [by apply N1, (so_sched _ _ HO)| |].
      * apply (N3 d). exact (so_cpu_runs _ _ HO _ _ El).
      * apply (N4 d). by apply (so_idle _ _ HO).
    + apply (N2 (HASH (chan z))). apply (so_sleep _ _ HO). by apply place_sleeping.
Qed.
End Traces.

(** * Any components *)

(** Whatever the other components are, they can be made to return: [total K] does
    what [K] does where a function of [K] returns.  An execution with [K] is an
    execution with [total K], so that the invariants hold for it. *)
Definition always {R A} (d : A) (m : M R A) : M R A := fun r => match m r with Ret v r' => Ret v r' | _ => Ret d r end.

Definition total {R} (K : Kernel R) : Kernel R := {|
  kalloc := always 0 kalloc; kfree k := always tt (kfree k); vm_init := always 0 vm_init;
  uvm_map d v n a := always 0 (uvm_map d v n a); uvm_copy g d := always 0 (uvm_copy g d); vm_free g d := always tt (vm_free g d);
  put_code v c := always tt (put_code v c); write_null := always tt write_null;
  copy_mmap_list g n := always (0, 0, 0) (copy_mmap_list g n); filedup f := always tt (filedup f); fileclose f := always tt (fileclose f);
  namei_root := always None namei_root; idup d := always tt (idup d); iput d := always tt (iput d);
  begin_op := always tt begin_op; end_op := always tt end_op |}.

Lemma always_Ret {R A} (d : A) (m : M R A) r : exists v r', always d m r = Ret v r'.
Proof. unfold always. destruct (m r); by eexists _, _. Qed.

Lemma always_tt {R} (m : M R unit) r : exists r', always tt m r = Ret tt r'.
Proof. destruct (always_Ret tt m r) as ([] & r' & E). by exists r'. Qed.

Lemma total_returns {R} (K : Kernel R) : Returns (total K).
Proof.
  split; intros; try (apply always_tt); try (apply always_Ret).
  destruct (always_Ret (0, 0, 0) (copy_mmap_list g n) r) as ([[e h] m] & r' & E). by exists e, h, m, r'.
Qed.

(** kern/mm.c and kern/vm.c take spin locks only: giving pages back does not wait. *)
Class Patient {R : Type} (K : Kernel R) : Prop := {
  pt_kfree k r r' : kfree k r <> Block r';
  pt_vm_free g d r r' : vm_free g d r <> Block r'
}.

(** What [m] does without a panic (and without waiting, if not [b]) [m'] does too. *)
Definition imitates {S A} (b : bool) (m m' : M S A) : Prop :=
  forall s, match m s with Ret v s' => m' s = Ret v s' | Block s' => b = true -> m' s = Block s' | _ => True end.

Lemma imitates_refl {S A} b (m : M S A) : imitates b m m.
Proof. intros s. by destruct (m s). Qed.

Lemma imitates_bind {S A B} b (m m' : M S A) (f f' : A -> M S B) :
  imitates b m m' -> (forall a, imitates b (f a) (f' a)) -> imitates b (bind m f) (bind m' f').
Proof.
  intros H Hf s. specialize (H s). unfold bind. destruct (m s) as [a t|t|t|]; [|done|intros Hb; by rewrite H|done].
  rewrite H. exact (Hf a t).
Qed.

Lemma imitates_for_each {S I} b (l : list I) (f f' : I -> M S unit) : (forall i, imitates b (f i) (f' i)) -> imitates b (for_each l f) (for_each l f').
Proof. intros H. induction l as [|i l IH]; [apply imitates_refl|]. cbn [for_each]. by apply imitates_bind. Qed.

Lemma imitates_loop {S I A} b (l : list I) (f f' : I -> M S (option A)) : (forall i, imitates b (f i) (f' i)) -> imitates b (loop l f) (loop l f').
Proof. intros H. induction l as [|i l IH]; [apply imitates_refl|]. cbn [loop]. apply imitates_bind; [done|]. intros [v|]; [apply imitates_refl|done]. Qed.

Lemma imitates_always {R A} (d : A) (m : M R A) : imitates false (on_r m) (on_r (always d m)).
Proof. intros s. unfold on_r, zoom, always. by destruct (m (res s)). Qed.

Lemma imitates_patient {R A} (d : A) (m : M R A) : (forall r r', m r <> Block r') -> imitates true (on_r m) (on_r (always d m)).
Proof. intros H s. unfold on_r, zoom, always. destruct (m (res s)) eqn:E; try done. by destruct (H _ _ E). Qed.

Ltac imitation := repeat (cbn [total kalloc kfree uvm_copy vm_free copy_mmap_list filedup fileclose idup iput begin_op end_op]; first
  [ apply imitates_always
  | apply imitates_patient
  | apply imitates_bind; [|intros ?]
  | apply imitates_for_each; intros ?
  | apply imitates_loop; intros ?
  | match goal with |- imitates _ (match ?x with _ => _ end) _ => destruct x end
  | apply imitates_refl ]).

Section AnyKernel.
Context {R : Type} {K : Kernel R}.
Context (paddr : nat -> Z) (stale : Z -> list Z) (initproc : option nat).
Notation life_ok := (life_ok (R := R) (initproc := initproc)).

Lemma fork_total c s v s' : fork c stale s = Ret v s' -> fork (K := total K) c stale s = Ret v s'.
Proof.
  intros E. assert (imitates false (fork c stale) (fork (K := total K) c stale)) as H.
  { unfold fork, proc_alloc, fork_copy, fork_undo, fork_fd. imitation. }
  specialize (H s). by rewrite E in H.
Qed.

Lemma exit_total c err s s' : exit c paddr initproc err s = Ret tt s' -> exit (K := total K) c paddr initproc err s = Ret tt s'.
Proof.
  intros E. assert (imitates false (exit c paddr initproc err) (exit (K := total K) c paddr initproc err)) as H.
  { unfold exit, exit_fd. imitation. }
  specialize (H s). by rewrite E in H.
Qed.

Lemma wait_total `{!Patient K} c pid_ st options ru s :
  (forall v s', wait_scan c paddr pid_ st options ru s = Ret v s' -> wait_scan (K := total K) c paddr pid_ st options ru s = Ret v s') /\
  (forall s', wait_scan c paddr pid_ st options ru s = Block s' -> wait_scan (K := total K) c paddr pid_ st options ru s = Block s').
Proof.
  assert (imitates true (wait_scan c paddr pid_ st options ru) (wait_scan (K := total K) c paddr pid_ st options ru)) as H.
  { unfold wait_scan, wait_reap. imitation; [apply pt_kfree|apply pt_vm_free]. }
  specialize (H s). split; [intros v s'|intros s']; intros E; rewrite E in H; [done|by apply H].
Qed.

Lemma lsteps_total `{!Patient K} s s' : lsteps paddr stale initproc s s' -> lsteps (K := total K) paddr stale initproc s s'.
Proof.
  intros Ht. induction Ht as [s|s d t s' Ht _ IH|s r s' _ IH|s c cp v s1 s' Hu Hl Hp E _ IH|s c cp err s1 s' Hu Hl E _ IH|s c cp pid_ st ru v s1 s' Hu Hl E _ IH].
  - apply ls_nil.
  - by eapply ls_sched.
  - by eapply ls_other.
  - eapply ls_fork; [done|done|done|by apply fork_total|done].
  - eapply ls_exit; [done|done|by apply exit_total|done].
  - destruct (wait_total c pid_ st 0 ru s) as [H1 H2]. eapply (ls_wait _ _ _ s c cp pid_ st ru v); [done|done| |done].
    destruct E as [E|E]; [left; by apply H1|right; by apply H2].
Qed.

Lemma steps_ok `{!Patient K} s s' : life_ok s -> lsteps paddr stale initproc s s' -> life_ok s'.
Proof. intros HL Ht. exact (steps_life (RK := total_returns K) paddr stale initproc s s' HL (lsteps_total s s' Ht)). Qed.

(** C19: the processes form a forest, and nobody is lost.  In every sequence of
    forks, exits, waits and steps of the scheduler ([lsteps]: [fork], [exit] and each
    round of [wait4], without options, are one step; pids stay below 2^31; the
    other components may do anything, but do not wait in [kfree] and [vm_free]),
    the child lists and the parent pointers
    agree, each process that is in use is in exactly the list of its parent, once,
    a process has children only until it exits, a zombie and a free slot are on no
    queue and no CPU, and no two processes in use have the same pid. *)
Theorem family_invariant `{!Patient K} s s' :
  life_ok s -> lsteps paddr stale initproc s s' ->
  life_ok s' /\
  (forall p x q y, px s' !! p = Some x -> procs (ps s') !! q = Some y -> used y -> q ∈ child x <-> parent y = Some p) /\
  (forall p x y, px s' !! p = Some x -> procs (ps s') !! p = Some y -> ~ alive y ->
     child x = [] /\ p ∉ sched_que (ps s') /\ (forall h, p ∉ default [] (slpque (ps s') !! h)) /\ (forall c, ~ runs_on (ps s') c p)) /\
  (forall q q' y y', procs (ps s') !! q = Some y -> procs (ps s') !! q' = Some y' -> used y -> used y' -> pid y = pid y' -> q = q').
Proof.
  intros HL Ht. pose proof (steps_ok s s' HL Ht) as HL'. split; [done|]. split; [|split; [|exact (lo_pids s' HL')]].
  - intros p x q y Hx Hy Hu. rewrite (lo_child s' HL' p x q Hx). split; [intros (z & Hz & _ & Hp); congruence|intros Hp; by exists y].
  - intros p x y Hx Hy Ha. split; [by eapply unused_childless|]. destruct (lo_sched s' HL') as [loc HO].
    destruct (nowhere loc (ps s') p HO) as (N1 & N2 & N3 & _); [by eapply unused_nowhere|done].
Qed.

(** C20: the status of a process reaches its parent.  When [p] exits with [err] then,
    whatever all processes do afterwards ([lsteps]), a [wait4], without WNOHANG and
    WUNTRACED, that returns the pid of
    [p] stores the low 7 bits of [err], shifted by 8, in [*status]; and what it
    takes the pid from is a zombie child of the caller. *)
Theorem exit_status_delivered `{!Patient K} s c p y err s1 s2 c2 q pid_ options ru st w s3 :
  life_ok s -> user_on (ps s) c p -> procs (ps s) !! p = Some y -> ptable_lock ∉ held (ps s) ->
  exit c paddr initproc err s = Ret tt s1 -> lsteps paddr stale initproc s1 s2 ->
  user_on (ps s2) c2 q -> ptable_lock ∉ held (ps s2) -> Z.land options WNOHANG = 0 -> Z.land options WUNTRACED = 0 ->
  wait4 c2 paddr pid_ true options ru s2 = Ret (pid y, st, w) s3 ->
  st = Some (Z.shiftl (Z.land err 0x7f) 8) /\ exists j z, procs (ps s2) !! j = Some z /\ pid z = pid y /\ state z = ZOMBIE /\ parent z = Some q.
Proof.
  intros HL Hu Hy Hl E Hst Hu2 Hl2 Ho1 Ho2 Ew. rewrite wait4_locked in Ew by done. apply wait_total in Ew. rewrite <- wait4_locked in Ew by done.
  exact (status_delivered (RK := total_returns K) paddr stale initproc s c p y err s1 s2 c2 q pid_ options ru st w s3
    HL Hu Hy Hl (exit_total c err s s1 E) (lsteps_total s1 s2 Hst) Hu2 Hl2 Ho1 Ho2 Ew).
Qed.

(** A process that has children cannot exit, because [initproc] is null: whatever
    the other components do, [exit] does not get to the scheduler. *)
Theorem exit_orphans_fault c s cp err cx s' :
  life_ok s -> user_on (ps s) c cp -> ptable_lock ∉ held (ps s) -> px s !! cp = Some cx -> child cx <> [] -> initproc = None ->
  exit c paddr initproc err s <> Ret tt s'.
Proof.
  intros HL Hu Hl Hcx Hch Hin E. apply exit_total in E.
  destruct (exit_orphans_panic (RK := total_returns K) c paddr initproc s cp err cx HL Hu Hl Hcx Hch Hin) as [s1 E1]. congruence.
Qed.
End AnyKernel.

(** * Witnesses *)

(** Components of a small machine: eight pages, of which [taken] are given out, one
    open file (7) and one directory (0).  Giving back what was not given out, and
    using another file or directory, is a panic. *)
Record machine : Type := mkMach { given : Z; taken : list Z }.

Definition demo_page : M machine Z :=
  fun r => if given r =? 8 then Ret 0 r else Ret (4096 * (given r + 1)) (mkMach (given r + 1) (4096 * (given r + 1) :: taken r)).
Definition demo_give (k : Z) : M machine unit :=
  fun r => if decide (k ∈ taken r) then Ret tt (mkMach (given r) (filter (.≠ k) (taken r))) else Panic r.

Definition demo_kernel : Kernel machine := {|
  kalloc := demo_page; kfree := demo_give; vm_init := demo_page; uvm_map _ _ _ _ := ret 0; uvm_copy _ _ := demo_page; vm_free _ := demo_give;
  put_code _ _ := ret tt; write_null := ret tt; copy_mmap_list _ _ := ret (0, 0, 0);
  filedup f := assert (f =? 7)%nat; fileclose f := assert (f =? 7)%nat; namei_root := ret (Some 0%nat);
  idup d := assert (bool_decide (d = Some 0%nat)); iput d := assert (bool_decide (d = Some 0%nat)); begin_op := ret tt; end_op := ret tt |}.

#[export] Instance demo_patient : Patient demo_kernel.
Proof. split; intros; cbn; unfold demo_give; case_decide; done. Qed.

(** The process that will fork has the file and the directory. *)
Definition demo_info : info := set_cwd (Some 0%nat) (set_ofile (Some 7%nat :: replicate 15 None) zero_info).

Lemma demo_page_runs (P : machine -> Prop) (Q : Z -> machine -> Prop) r :
  P r -> Q (4096 * (given r + 1)) (mkMach (given r + 1) (4096 * (given r + 1) :: taken r)) ->
  exists k r', demo_page r = Ret k r' /\ if k =? 0 then P r' \/ Q k r' else Q k r'.
Proof.
  intros HP HQ. unfold demo_page. destruct (given r =? 8); [exists 0, r; split; [done|by left]|].
  exists (4096 * (given r + 1)), (mkMach (given r + 1) (4096 * (given r + 1) :: taken r)). split; [done|]. destruct (_ =? 0); [by right|done].
Qed.

Definition fresh (r : machine) : Prop := forall a, a ∈ taken r -> a <= 4096 * given r.

Lemma fresh_none : fresh (mkMach 0 []).
Proof. intros a Ha. by apply not_elem_of_nil in Ha. Qed.

Lemma fresh_page r : fresh r -> fresh (mkMach (given r + 1) (4096 * (given r + 1) :: taken r)).
Proof. intros H a [->|Ha]%elem_of_cons; cbn [given]; [lia|]. pose proof (H a Ha). lia. Qed.

Lemma fresh_give k r : fresh r -> fresh (mkMach (given r) (filter (.≠ k) (taken r))).
Proof. intros H a Ha. apply list_elem_of_filter in Ha as [_ Ha]. by apply H. Qed.

Definition demo_serves : Serves demo_kernel (user_proc RUNNING 2) demo_info.
Proof.
  refine {| served := fresh; with_stack k r := fresh r /\ k ∈ taken r; with_space k pg r := fresh r /\ k ∈ taken r /\ pg ∈ taken r /\ k <> pg |}; cbn.
  - intros r H. destruct (demo_page_runs fresh (fun k r => fresh r /\ k ∈ taken r) r H) as (k & r' & E & H').
    { split; [by apply fresh_page|by left]. }
    exists k, r'. split; [done|]. destruct (k =? 0); naive_solver.
  - intros k r [H Hk]. destruct (demo_page_runs (fun r => fresh r /\ k ∈ taken r) (fun pg r => fresh r /\ k ∈ taken r /\ pg ∈ taken r /\ k <> pg) r) as (pg & r' & E & H'); [done| |].
    { split; [by apply fresh_page|]. split; [by right|]. split; [by left|]. pose proof (H k Hk). lia. }
    exists pg, r'. split; [done|]. destruct (pg =? 0); naive_solver.
  - intros k r [H Hk]. unfold demo_give. rewrite decide_True by done. eexists. split; [reflexivity|]. by apply fresh_give.
  - intros k pg r H. eexists _, _, _, _. split; [reflexivity|done].
  - intros k pg r (H & Hk & Hp & Hne). unfold demo_give. rewrite decide_True by done. eexists. split; [reflexivity|].
    split; [by apply fresh_give|]. by apply list_elem_of_filter.
  - intros k pg f r Hf H. assert (f = 7%nat) as -> by (apply elem_of_cons in Hf as [[= ->]|Hf]; [done|]; repeat (apply elem_of_cons in Hf as [Hf|Hf]; [done|]); by apply not_elem_of_nil in Hf).
    by eexists.
  - intros k pg r H. by eexists.
Defined.

Definition demo_paddr (i : nat) : Z := 0x8000 + 512 * Z.of_nat i.
Definition demo_stale (k : Z) : list Z := replicate 38 7.

(** CPU 0 runs process 1, process 0 is idle, the other slots are free. *)
Definition demo : lstate machine :=
  mkL machine (mkS [idle_proc; user_proc RUNNING 2; zero_proc; zero_proc] (replicate 256 []) [] ∅ [mkC (Some 1%nat) (Some 0%nat) false] ∅)
    [zero_info; demo_info; zero_info; zero_info] 2 (mkMach 0 []).

Definition demo_loc (p : nat) : option place := match p with 0%nat => Some (AtIdle 0) | 1%nat => Some (AtCpu 0) | _ => None end.

Lemma demo_sched : sched_ok (ps demo).
Proof.
  exists demo_loc. assert (forall h, default [] (slpque (ps demo) !! h) = []) as Hq.
  { intros h. cbn [ps demo slpque]. destruct (replicate 256 [] !! h) as [q|] eqn:E; [|done]. by apply lookup_replicate in E as [-> _]. }
  assert (forall c x, cpus (ps demo) !! c = Some x -> c = 0%nat /\ x = mkC (Some 1%nat) (Some 0%nat) false) as Hc.
  { intros c x Hx. destruct c as [|c]; cbn in Hx; [by injection Hx as <-|by destruct c]. }
  split.
  - intros p. split; [intros H; by apply not_elem_of_nil in H|]. by destruct p as [|[|p]].
  - constructor.
  - intros h p. rewrite Hq. split; [intros H; by apply not_elem_of_nil in H|]. by destruct p as [|[|p]].
  - intros h. rewrite Hq. constructor.
  - reflexivity.
  - intros c p (x & Hx & Hpx & _) _. apply Hc in Hx as [-> ->]. cbn in Hpx. by injection Hpx as <-.
  - intros c p Hl. destruct p as [|[|p]]; cbn in Hl; try done. injection Hl as <-. eexists. split; [reflexivity|done].
  - intros c p. split; [intros (x & Hx & Hix); apply Hc in Hx as [-> ->]; cbn in Hix; by injection Hix as <-|].
    intros Hl. destruct p as [|[|p]]; cbn in Hl; try done. injection Hl as <-. by eexists.
  - intros p x Hx. destruct p as [|[|[|[|p]]]]; cbn in Hx; try done; injection Hx as <-; cbn; auto.
  - intros p Hl. destruct p as [|[|p]]; [by eexists|by eexists|]. by destruct Hl.
Qed.

Lemma demo_ok : life_ok (initproc := None) demo.
Proof.
  assert (forall p x, px demo !! p = Some x -> child x = [] /\ length (ofile x) = NOFILE) as Hx.
  { intros p x Hx. destruct p as [|[|[|[|p]]]]; cbn in Hx; try done; by injection Hx as <-. }
  assert (forall q y, procs (ps demo) !! q = Some y -> used y -> q = 0%nat /\ y = idle_proc \/ q = 1%nat /\ y = user_proc RUNNING 2) as Hp.
  { intros q y Hy Hu. destruct q as [|[|[|[|q]]]]; cbn in Hy; try done; injection Hy as <-; [by left|by right|by destruct Hu..]. }
  split; try done.
  - apply demo_sched.
  - intros p x H. rewrite (proj1 (Hx p x H)). constructor.
  - intros p x q H. rewrite (proj1 (Hx p x H)). split; [intros Hq; by apply not_elem_of_nil in Hq|]. intros (y & Hy & Hu & Hyp).
    by destruct (Hp q y Hy Hu) as [[_ ->]|[_ ->]].
  - intros q y p Hy Hu Hyp. by destruct (Hp q y Hy Hu) as [[_ ->]|[_ ->]].
  - intros q y Hy Hu. by destruct (Hp q y Hy Hu) as [[_ ->]|[_ ->]].
  - intros q q' y y' Hy Hy' Hu Hu' E. destruct (Hp q y Hy Hu) as [[-> ->]|[-> ->]], (Hp q' y' Hy' Hu') as [[-> ->]|[-> ->]]; done.
  - intros p x H. exact (proj2 (Hx p x H)).
Qed.

(** Process 1 forks and yields, the child exits with status 5, the parent
    runs again. *)
Definition next {A} (m : M (lstate machine) A) (s : lstate machine) : lstate machine := match m s with Ret _ s' => s' | _ => s end.
Definition demo_fork : lstate machine := next (fork (K := demo_kernel) 0 demo_stale) demo.
Definition demo_yield : lstate machine := next (on_p (yield 0)) demo_fork.
Definition demo_child : lstate machine := next (on_p (schedule 0)) demo_yield.
Definition demo_exit : lstate machine := next (exit (K := demo_kernel) 0 demo_paddr None 5) demo_child.
Definition demo_parent : lstate machine := next (on_p (schedule 0)) demo_exit.

Lemma demo_user (s : lstate machine) p : cpus (ps s) !! 0%nat = Some (mkC (Some (S p)) (Some 0%nat) false) -> user_on (ps s) 0 (S p).
Proof. intros H. eexists. split; [exact H|done]. Qed.

Lemma unlocked (s : lstate machine) : bool_decide (ptable_lock ∈ held (ps s)) = false -> ptable_lock ∉ held (ps s).
Proof. by rewrite bool_decide_eq_false. Qed.

Ltac evaluates := vm_compute; reflexivity.


Lemma demo_yields : yield 0 (ps demo_fork) = Ret tt (ps demo_yield).
Proof. evaluates. Qed.
Lemma demo_runs_child : schedule 0 (ps demo_yield) = Ret tt (ps demo_child).
Proof. evaluates. Qed.
Lemma demo_runs_parent : schedule 0 (ps demo_exit) = Ret tt (ps demo_parent).
Proof. evaluates. Qed.

Lemma demo_steps1 : lsteps (K := demo_kernel) demo_paddr demo_stale None demo demo_child.
Proof.
  apply (ls_fork _ _ _ _ 0 1 3 demo_fork); [by apply demo_user|apply unlocked; evaluates|done|evaluates|].
  apply (ls_sched _ _ _ _ [2%nat] (ps demo_child)); [|apply ls_nil].
  apply (t_yield _ 0 (mkC (Some 1%nat) (Some 0%nat) false) (ps demo_yield)); [evaluates|done|exact demo_yields|].
  apply (one_schedule (ps demo_yield) 0 (mkC (Some 1%nat) (Some 0%nat) true) 2 [1%nat]); [evaluates|done|exact demo_runs_child|evaluates].
Qed.

Lemma family_invariant_witness : lsteps (K := demo_kernel) demo_paddr demo_stale None demo demo_child /\ life_ok (initproc := None) demo_child.
Proof. split; [exact demo_steps1|]. exact (proj1 (family_invariant (K := demo_kernel) demo_paddr demo_stale None demo demo_child demo_ok demo_steps1)). Defined.

Lemma demo_child_ok : life_ok (initproc := None) demo_child.
Proof. exact (steps_ok (K := demo_kernel) demo_paddr demo_stale None demo demo_child demo_ok demo_steps1). Qed.

Lemma demo_steps2 : lsteps (K := demo_kernel) demo_paddr demo_stale None demo_exit demo_parent.
Proof.
  assert (set_ps (ps demo_parent) demo_exit = demo_parent) as E by evaluates.
  apply (ls_sched _ _ _ _ [1%nat] (ps demo_parent)); [|rewrite E; apply ls_nil].
  apply (one_schedule (ps demo_exit) 0 (mkC (Some 2%nat) (Some 0%nat) true) 1 []); [evaluates|done|exact demo_runs_parent|evaluates].
Qed.

Lemma exit_status_delivered_witness : exists s3,
  wait4 (K := demo_kernel) 0 demo_paddr (-1) true 0 false demo_parent = Ret (3, Some (Z.shiftl (Z.land 5 0x7f) 8), false) s3.
Proof.
  assert (wait4 (K := demo_kernel) 0 demo_paddr (-1) true 0 false demo_parent =
    Ret (3, Some 1280, false) (next (wait4 (K := demo_kernel) 0 demo_paddr (-1) true 0 false) demo_parent)) as E by evaluates.
  destruct (procs (ps demo_child) !! 2%nat) as [y|] eqn:Hy; [|exfalso; revert Hy; vm_compute; discriminate].
  assert (pid <$> procs (ps demo_child) !! 2%nat = Some 3) as Hpid by evaluates. rewrite Hy in Hpid. injection Hpid as Hpid.
  destruct (exit_status_delivered (K := demo_kernel) demo_paddr demo_stale None demo_child 0 2 y 5 demo_exit demo_parent 0 1 (-1) 0 false (Some 1280) false
    (next (wait4 (K := demo_kernel) 0 demo_paddr (-1) true 0 false) demo_parent) demo_child_ok) as [Hst _].
  - apply demo_user. evaluates.
  - exact Hy.
  - apply unlocked. evaluates.
  - evaluates.
  - exact demo_steps2.
  - apply demo_user. evaluates.
  - apply unlocked. evaluates.
  - reflexivity.
  - reflexivity.
  - rewrite Hpid. exact E.
  - eexists. rewrite E. rewrite Hst. reflexivity.
Defined.

Lemma demo_parent_ok : life_ok (initproc := None) demo_parent.
Proof.
  apply (steps_ok (K := demo_kernel) demo_paddr demo_stale None demo_child demo_parent demo_child_ok).
  apply (ls_exit _ _ _ _ 0 2 5 demo_exit); [by apply demo_user; evaluates|apply unlocked; evaluates|evaluates|exact demo_steps2].
Qed.

Lemma demo_can_reap : can_reap (K := demo_kernel) 1 demo_parent.
Proof.
  intros cx i x y Hcx Hi Hx Hy. assert (child <$> px demo_parent !! 1%nat = Some [2%nat]) as Hch by evaluates.
  rewrite Hcx in Hch. injection Hch as Hch. rewrite Hch in Hi. apply list_elem_of_singleton in Hi as ->.
  assert (kstack <$> px demo_parent !! 2%nat = Some 4096) as Hk by evaluates. assert (pgdir <$> procs (ps demo_parent) !! 2%nat = Some 8192) as Hp by evaluates.
  rewrite Hx in Hk. rewrite Hy in Hp. injection Hk as ->. injection Hp as ->. eexists _, _. split; evaluates.
Qed.

(** The parent finds its child, a zombie with status 5. *)
Lemma wait4_exact_witness : exists r, wait4 (K := demo_kernel) 0 demo_paddr (-1) true 0 false demo_parent = Ret (3, Some 1280, false) (reaped 1 2 r demo_parent).
Proof.
  destruct (procs (ps demo_parent) !! 1%nat) as [y|] eqn:Hy; [|exfalso; revert Hy; vm_compute; discriminate].
  destruct (px demo_parent !! 1%nat) as [cx|] eqn:Hcx; [|exfalso; revert Hcx; vm_compute; discriminate].
  assert (child <$> px demo_parent !! 1%nat = Some [2%nat]) as Hch by evaluates. rewrite Hcx in Hch. injection Hch as Hch.
  assert (filter (fun i => ripe (ps demo_parent) 1 (-1) 0 i = true) [2%nat] = [2%nat]) as Hf by evaluates.
  assert (pid <$> procs (ps demo_parent) !! 2%nat = Some 3) as Hpid by evaluates.
  assert (xstate <$> px demo_parent !! 2%nat = Some 5) as Hxs by evaluates.
  pose proof (wait4_exact (K := demo_kernel) demo_paddr demo_stale None demo_parent 0 1 y cx (-1) true 0 false demo_parent_ok demo_can_reap
    ltac:(apply demo_user; evaluates) ltac:(apply unlocked; evaluates) Hy Hcx eq_refl eq_refl) as H.
  rewrite Hch, Hf in H. destruct H as (z & x & r & Hz & Hx & _ & _ & H & _). rewrite Hz in Hpid. rewrite Hx in Hxs. injection Hpid as Ep. injection Hxs as Ex.
  exists r. rewrite H, Ep, Ex. reflexivity.
Defined.

(** [wait4] with WNOHANG returns the pid of the child that is about to run. *)
Example wnohang_demo : (match wait4 (K := demo_kernel) 0 demo_paddr (-1) true WNOHANG false demo_fork with
                        | Ret (v, _, _) s' => (v, state_of (ps s') 2, sched_que (ps s'))
                        | _ => (0, None, []) end) = (3, Some UNUSED, [2%nat]).
Proof. evaluates. Qed.

(** The parent cannot exit before its child: [initproc] is null. *)
Example orphan_demo : (match exit (K := demo_kernel) 0 demo_paddr None 0 demo_fork with Panic _ => true | _ => false end) = true.
Proof. evaluates. Qed.

(** The first process is queued as an embryo, with [umask] 2, and its children
    have [umask] 0. *)
Definition empty_table : lstate machine := mkL machine (mkS (replicate 4 zero_proc) (replicate 256 []) [] ∅ [mkC None None true] ∅) (replicate 4 zero_info) 0 (mkMach 0 []).

Definition booted : lstate machine := next (idle_init (K := demo_kernel) 0 demo_stale [0] ;; user_init (K := demo_kernel) demo_stale [1] ;; on_p (schedule 0)) empty_table.

Example boot_demo : (state_of (ps booted) 1, Cred.umask <$> (cr <$> px booted !! 1%nat),
    match fork (K := demo_kernel) 0 demo_stale booted with Ret v s => (v, Cred.umask <$> (cr <$> px s !! 2%nat)) | _ => (0, None) end)
  = (Some EMBRYO, Some 2, (3, Some 0)).
Proof. evaluates. Qed.
End Lifecycle.
